(* ===== verification/_CoqProject ===== *)
-Q . S2P
Prelude.v
Core.v
Frames.v
Control.v
Stream.v
Fragment.v
MeshAddress.v
Routing.v
RoutingProofs.v
RoutingSpec.v
Network.v
Session.v
DataPlane.v
Packet.v
Conntrack.v
Gateway.v
Gateway6.v
SendBuffer.v
Transport.v
Trust.v
RateLimiter.v
E2e.v
Discovery.v
Text.v
Ipv6Text.v
Host.v
Firewall.v
Json.v
Toml.v
Config.v
Keys.v
Rfcomm.v
RfcommService.v
WifiDirect.v
PanSupport.v
Tun.v
RouteInstaller.v
RouteCommand.v
Calendar.v
LogView.v
MessageStore.v
PeerDirectory.v
Handshake.v
Reconnect.v
Daemon.v
Dialling.v
DaemonProofs.v
Link.v
Background.v
Mesh.v
Identity.v
Cleanup.v
BluetoothPan.v
Startup.v
Messaging.v
MessagingProofs.v
Tunnel.v
TunnelProofs.v
Rpc.v
RpcProofs.v
Observability.v
