(* ===== verification/Prelude.v ===== *)
(** * Proximity Internet Mesh: a model and its proofs

    The program (src/crates) is a daemon that turns neighbouring devices into
    a mesh: nodes find each other, meet over TCP, authenticate each other,
    exchange signed distance-vector routes, and carry IP packets hop by hop to
    each other or to a gateway that translates them to the internet.  Messages
    between nodes travel over the same mesh, and a local RPC server lets a user
    interface drive the daemon.  This library models it in Rocq and proves what
    makes it correct.

    ** The parts, and where they are modelled

    Shared ground:
    - [Prelude]: outcomes of Rust code ([Ok], [Err], [Panic]), machine-width
      casts, slices, big-endian numbers, and the lemmas and tactics shared by
      all files.
    - [Core]: node identifiers, errors and the [FrameCodec] trait as a class
      with its laws (pim-core/src/types.rs, error.rs).
    - [MeshAddress]: addresses derived from node identifiers
      (pim-core/src/mesh_address.rs).
    - [Text], [Ipv6Text], [Calendar]: characters, hexadecimal and decimal
      text, addresses as text, and dates (wherever the crates compute them).
    - [Host]: code that runs commands of the system, and the address lookups
      (pim-daemon/src/net.rs).
    - [Json], [Toml]: the two document formats as trees, with the readers serde
      derives.

    The wire:
    - [Frames], [Control]: every frame format, encoder and decoder
      (pim-protocol/src/*_frame.rs).
    - [Stream]: the length-delimited codec and the TCP read task
      (pim-protocol/src/length_delimited.rs, pim-transport/src/tcp.rs);
      [Transport]: the peer map with its read and write tasks, as a step
      relation over two transports (tcp.rs).
    - [Fragment]: fragmentation and reassembly (pim-protocol/src/
      fragment_frame.rs, reassembler.rs).

    Cryptography and trust:
    - [Session]: the session cipher (pim-crypto/src/session.rs and
      pim-daemon/src/session.rs); [E2e]: encryption between a client and its
      gateway, and messaging bodies (pim-crypto/src/e2e.rs,
      pim-messaging/src/wire.rs); [Handshake]: the three-message handshake
      (pim-crypto/src/handshake.rs).
    - [Trust]: signatures of route updates (pim-routing/src/signing.rs),
      authorization (pim-daemon/src/auth.rs), reputation (reputation.rs).
    - [Keys]: identity files and the mesh secret (pim-crypto/src/identity.rs,
      mesh.rs, pim-cli/src/commands/mesh.rs).

    Routing and packets:
    - [Routing]: [RoutingTable] (pim-routing/src/table.rs);
      [RoutingProofs] its invariant, [RoutingSpec] what its operations
      promise, [Network] a network of tables that exchange advertisements.
    - [DataPlane]: sending over the mesh and the data branch of the event
      loop (pim-daemon/src/data_plane.rs, app/event_loop.rs);
      [SendBuffer]: store and forward (send_buffer.rs, peer_tasks.rs).
    - [Tunnel], [TunnelProofs]: a packet from the TUN device into the mesh, and
      from the mesh to the TUN device or the internet (app/event_loop.rs,
      gateway_tasks.rs, net.rs).
    - [Packet], [Conntrack], [Gateway], [Gateway6]: rewriting with checksums,
      connection tables and the two translators (pim-gateway/src/engine/
      packet.rs, engine.rs, ipv6.rs); [Firewall]: the rules and reserved ports
      a gateway sets on its host (engine/firewall.rs, engine.rs, ipv6.rs).
    - [Tun]: the Linux TUN device and the split default routes
      (pim-tun/src/platform/linux.rs); [RouteInstaller]: the task that installs
      them (pim-daemon/src/app/route_installer.rs); [RouteCommand]: pim route
      (pim-cli/src/commands/route.rs).

    Peers:
    - [Discovery]: advertisements and the table of discovered peers
      (pim-discovery/src/advertisement.rs, peer_table.rs); [Reconnect]: who is
      dialled again and when (pim-daemon/src/reconnect.rs); [Dialling]: the
      discovery service, its consumers and the dialling tasks
      (pim-discovery/src/service.rs, pim-daemon/src/discovery_tasks.rs,
      reconnect_task.rs).
    - [RateLimiter]: token buckets in binary64 arithmetic
      (pim-daemon/src/rate_limiter.rs).
    - [Daemon], [DaemonProofs]: the handshake tasks, the handlers of the event
      loop, the removal of peers (pim-daemon/src/handshake.rs,
      app/event_loop.rs, peer_tasks.rs, ip_control.rs); [Background]: the
      periodic tasks and the farewell (data_plane.rs, app/event_loop.rs).
    - [Rfcomm], [RfcommService]: greetings over Bluetooth RFCOMM, and acceptor,
      dialling loop and inquiry with the set they share
      (pim-bluetooth/src/rfcomm); [PanSupport], [BluetoothPan]: the parsers
      and the service of Bluetooth PAN (pim-bluetooth/src/support.rs,
      platform_impl.rs, service.rs); [WifiDirect]: Wi-Fi Direct
      (pim-wifidirect/src).
    - [Startup]: from the arguments of the binary to the state the handlers
      start from, and the PID file (pim-daemon/src/app.rs, runtime_config.rs,
      runtime_paths.rs, pim-cli/src/main.rs).
    - [Link]: two daemons and the stream between them; [Mesh]: any number of
      them.

    Identities, messages, the user:
    - [PeerDirectory], [Identity], [Cleanup]: known peers, how they become
      known and how they are forgotten (pim-daemon/src/peer_directory.rs,
      identity_broadcast.rs, peer_cleanup.rs).
    - [MessageStore], [Messaging], [MessagingProofs]: the messaging plugin
      (pim-messaging/src/storage.rs, service.rs, plugin.rs).
    - [Rpc], [RpcProofs]: the RPC server (pim-daemon/src/rpc.rs).
    - [LogView]: the log viewer (pim-cli/src/commands/logs.rs);
      [Observability]: statistics, the debug snapshot and the command that
      reads it (pim-daemon/src/observability.rs, logs_subscriber.rs,
      pim-cli/src/main.rs).
    - [Config]: every section of the configuration file with its defaults
      (pim-core/src/config/model.rs).

    A struct is a [Record], an enum an [Inductive], a [HashMap] a [gmap]; a
    method that mutates returns the new state, and one that can fail an
    [outcome].  Sockets, clocks and random draws are arguments, and so is the
    order in which a [HashMap] is iterated.

    ** What is proved

    - Routing: an accepted update is one relaxation of the distance-vector
      algorithm ([apply_update_relaxes]); every reachable table keeps its
      invariant; in a network of fixed links every route is the start of a real
      path of the length it claims ([routes_are_real_paths]) and [k] rounds
      give shortest paths up to [k+1] links.  A mesh of daemons that only tick
      and exchange signed, encrypted frames refines that network, and a data
      frame follows the next hops of its routes to its destination
      ([mesh_converges]).
    - Carrying packets: all formats round-trip and no decoder panics; the
      stream is reframed whatever the reads; fragments reassemble in any
      order; a packet sent over a session arrives, once and unchanged
      ([mesh_packet_delivery]), also over a chain of relays that send it on to
      the next hop of their routes; a client's packet reaches the internet
      through its gateway, encrypted for it when its key is known, and the
      reply comes back ([internet_roundtrip]).
    - Cryptographic sessions: the handshake completes between honest daemons
      ([daemons_meet]) and only on matching conversations; nonces are fresh up
      to [2^32] frames; no frame is accepted twice; end-to-end round trip.
    - Connections: under every interleaving of two transports a connection
      delivers in order what was queued on it ([tcp_fifo]) and the peer map
      names the tasks of its connections ([tcp_registered]); two nodes that
      greet over RFCOMM end up registered under their own identities
      ([rfcomm_meets]); a peer has one session ([one_session_per_peer]).
    - The host: where no other split-default routes are in the way, the
      installer's turns make the system's routes those the routing table asks
      for ([installer_converges]); gateway and access point take back what they
      changed where rules can be deleted ([gateway_host_restored],
      [nap_rules_follow]); the Bluetooth service loses no process
      ([pan_children_held]); its DHCP range lies in its subnet
      ([dhcp_range_sound]) and the neighbours it reads are those the system
      printed ([neighbours_read]).
    - The gateways: the connection table is a bijection in every reachable
      state; translation is total, its checksums are right, and replies come
      back to the flow they belong to ([nat_roundtrip], [nat66_roundtrip]).
    - The daemon: an invariant in whatever order the handlers of frames,
      handshakes and timers run ([daemon_invariant]); a route update changes
      the state only under a signature that verifies
      ([route_updates_authenticated]);
      heartbeats keep a peer, silent peers and only they are removed; of two
      crossing connections exactly one survives.
    - The start: what is built at the start satisfies those invariants
      ([daemon_starts]), the TUN interface gets the addresses the other nodes
      derive ([tun_addressed]), configured peers become targets in order
      ([targets_resolved]), and the PID file leads to the daemon
      ([down_reaches_daemon]).
    - The rate limiter: a peer's frames are judged as if it were alone
      ([peers_independent]), and a burst passes 500 of them
      ([burst_limited]).
    - Dialling: under every interleaving what is pending and the slots taken
      belong to running tasks ([dialling_invariant]); a task gives up
      after its attempts; a discovered peer is dialled.
    - Messages: one is delivered, stored and acknowledged ([message_exchange]);
      the tables stay typed; sweeps forget exactly what is old.
    - The user's side: a request that is refused changes nothing
      ([refused_requests_harmless]), each request has its response in order,
      the greeting guards the daemon; all calendars of the program agree with
      one reference ([calendars_agree]); the log viewer shows its window; the
      debug command tells what the routing table says ([debug_tells_truth]); a
      configuration survives being written and read ([config_roundtrip]) and
      its two kinds of default agree ([defaults_agree]); all processes that
      start at once come up with one identity ([identities_agree]).
    - Where the code does less than it means to, a theorem says so:
      [identity_hijack], [message_id_overwrites], [acks_unchecked],
      [paging_skips_ties], [ipv6_replies_dropped], [early_cancel_races],
      [failed_greeting_accepted], [parse_node_id_panics],
      [claimed_identity_unchecked], [goodbye_unauthenticated],
      [recorded_response_accepted], [nonce_prefix_is_key_material],
      [nonce_reuse_after_exhaustion], [framing_error_is_permanent],
      [oversized_frame_breaks_stream], [zero_header_length_panics],
      [udp_checksum_becomes_zero], [half_install_sticks],
      [route_off_misses_daemon], [v6_halves_confused],
      [stated_identity_takes_over], [disconnect_keeps_reading],
      [rename_races_with_exit], [exit_before_registration],
      [coalesced_bytes_lost],
      [half_created_key_refused], [check_then_insert_races],
      [failed_start_keeps_rules], [ended_service_keeps_rules],
      [failed_start_hides_daemon], [big_pid_signals_all].

    ** Fuel and bounds

    No function runs out of fuel.  Port allocation takes at most one turn per
    port of the range (30000, as the code bounds its loop), and
    [allocate_terminates] shows that it fails only when no port is free.  The
    decoding loop of the read task is bounded by the length of its buffer, which
    every frame shortens; the fragmentation loop by the length of the packet;
    checksum folding by three turns, enough for any 32-bit sum; the year loop
    of the Bluetooth calendar by a turn per 365 days, and [calendars_agree]
    shows that it always ends; printing a number by twenty digits, enough for
    64 bits.

    ** Assumptions

    Ed25519, X25519, HKDF, HMAC, AES-GCM and the hash functions are third-party
    code: parameters with their documented laws as classes ([LawfulAead],
    [LawfulEcdh], [LawfulHandshakeCrypto]), each with a concrete instance; so
    are serde_json and toml, whose tables come back in any order ([LawfulToml]).
    No signature scheme is assumed to be unforgeable: a theorem about an
    attacker says what holds unless a collision or a forged signature shows in
    the very run.  No identifier that a peer claims is assumed to be its own,
    or to differ from the node's.  SQLite tables are finite maps, and whether it
    executes a statement is an argument.  The system is an interface too: what
    its commands, processes and directories answer is a class per component
    ([CommandOs], [RouteOs], [WifiOs], [PanOs], [StartOs]), any answer is possible, and a
    theorem that needs more names it as laws that a concrete host satisfies:
    [LawfulFirewall] says what commands that succeed do, [RevocableFirewall]
    that rules can be looked up and deleted, [ReliableRoutes] for which reasons
    a route command fails (a host without IPv6 or without resolvectl
    included), [LawfulPan] and [LawfulIface] what the requests to the system
    change.

    Handlers of the daemon run one after the other, each to its end: an await
    between two locks of a handler is not a point of interleaving of the model.
    Finer steps are those of [Transport] (registering a connection and ending
    its read task are two each), [Dialling] (a task runs from one wait for the
    network or a timer to the next, a cancellation takes a step for each lock),
    [Keys] and [RfcommService] (each access to a file or to the shared set).

    ** Not modelled

    System calls (opening devices and raw sockets, moving packets through
    them), the macOS and Android back ends (utun, pf, Bonjour, blueutil), the
    mobile bindings, argument parsing and the text the commands print, the
    text of the log, and the spawning of the daemon's tasks: they are calls of
    the system or of libraries with no logic of their own to state.  The
    template of pim config generate is text whose meaning is the TOML library's
    to give. *)

From stdpp Require Export base list gmap strings numbers sorting.
From Stdlib Require Export ZArith Lia.
#[global] Open Scope Z_scope.

(** ** Outcomes of Rust code

    [Ok] and [Err] are the two constructors of [Result]; [Panic] is what an
    out-of-range index, a range whose ends are out of order or a failed
    [expect] does.  Keeping it apart lets a theorem say that an operation
    never panics, which neither the type checker nor a total model shows. *)
Inductive outcome (E A : Type) : Type :=
| Ok (a : A)
| Err (e : E)
| Panic.
Arguments Ok {E A} a.
Arguments Err {E A} e.
Arguments Panic {E A}.

Definition obind {E A B} (c : outcome E A) (k : A → outcome E B) : outcome E B :=
  match c with
  | Ok a => k a
  | Err e => Err e
  | Panic => Panic
  end.

Declare Scope outcome_scope.
Delimit Scope outcome_scope with outcome.
Notation "'let?' x ':=' c 'in' k" := (obind c (λ x, k))
  (at level 10, x pattern, c at level 100, k at level 200) : outcome_scope.
#[global] Open Scope outcome_scope.

Definition panics {E A} (c : outcome E A) : Prop := c = Panic.
Definition is_ok {E A} (c : outcome E A) : bool :=
  match c with Ok _ => true | _ => false end.

(** [Option::ok_or] and [Option::unwrap_or]. *)
Definition ok_or {E A} (o : option A) (e : E) : outcome E A :=
  match o with Some a => Ok a | None => Err e end.
Definition unwrap_or {A} (o : option A) (d : A) : A := default d o.

(** ** Machine integers

    A [u8], [u16], [u32] or [u64] is a [Z]; an [as] cast or wrapping
    arithmetic reduces it modulo its width. *)
Definition as_u8 (z : Z) : Z := z mod 2 ^ 8.
Definition as_u16 (z : Z) : Z := z mod 2 ^ 16.
Definition as_u32 (z : Z) : Z := z mod 2 ^ 32.
Definition as_u64 (z : Z) : Z := z mod 2 ^ 64.

Definition u8_ok (z : Z) : Prop := 0 ≤ z < 2 ^ 8.
Definition u16_ok (z : Z) : Prop := 0 ≤ z < 2 ^ 16.
Definition u32_ok (z : Z) : Prop := 0 ≤ z < 2 ^ 32.
Definition u64_ok (z : Z) : Prop := 0 ≤ z < 2 ^ 64.
Definition bytes_ok (bs : list Z) : Prop := Forall u8_ok bs.

#[export] Instance u8_ok_dec z : Decision (u8_ok z).
Proof. unfold u8_ok. apply _. Defined.
#[export] Instance u16_ok_dec z : Decision (u16_ok z).
Proof. unfold u16_ok. apply _. Defined.
#[export] Instance u32_ok_dec z : Decision (u32_ok z).
Proof. unfold u32_ok. apply _. Defined.
#[export] Instance u64_ok_dec z : Decision (u64_ok z).
Proof. unfold u64_ok. apply _. Defined.
#[export] Instance bytes_ok_dec bs : Decision (bytes_ok bs).
Proof. unfold bytes_ok. apply _. Defined.

(** [saturating_sub] on unsigned integers, and the [Instant::elapsed] of the
    standard library, which saturates to zero when the clock has not moved. *)
Definition saturating_sub (a b : Z) : Z := Z.max 0 (a - b).
Definition elapsed (now since : Z) : Z := saturating_sub now since.

(** ** Big-endian integers on the wire *)
Fixpoint be_bytes (n : nat) (z : Z) : list Z :=
  match n with
  | O => []
  | S k => Z.land (Z.shiftr z (8 * Z.of_nat k)) 255 :: be_bytes k z
  end.

Definition be_value (bs : list Z) : Z := fold_left (λ acc b, acc * 256 + b) bs 0.

(** ** Byte buffers: [BytesMut]'s [put_*] and slice indexing *)
Definition put_slice (bs buf : list Z) : list Z := buf ++ bs.
Definition put_u8 (z : Z) (buf : list Z) : list Z := buf ++ [z].
Definition put_u16 (z : Z) (buf : list Z) : list Z := buf ++ be_bytes 2 z.
Definition put_u32 (z : Z) (buf : list Z) : list Z := buf ++ be_bytes 4 z.
Definition put_u64 (z : Z) (buf : list Z) : list Z := buf ++ be_bytes 8 z.

(** [&buf[a..b]]: panics unless [a <= b <= buf.len()]. *)
Definition slice {E} (a b : nat) (buf : list Z) : outcome E (list Z) :=
  if bool_decide (a ≤ b ∧ b ≤ length buf)%nat then Ok (take (b - a) (drop a buf)) else Panic.

(** [buf[i]]: panics unless [i < buf.len()]. *)
Definition index {E} (i : nat) (buf : list Z) : outcome E Z :=
  match buf !! i with Some x => Ok x | None => Panic end.

(** [buf[a..b].copy_from_slice(src)]: panics on a bad range or when the two
    slices differ in length. *)
Definition copy_from_slice {E} (a b : nat) (src buf : list Z) : outcome E (list Z) :=
  if bool_decide (a ≤ b ∧ b ≤ length buf ∧ length src = b - a)%nat
  then Ok (take a buf ++ src ++ drop b buf) else Panic.

(** [buf[i] = x]. *)
Definition index_set {E} (i : nat) (x : Z) (buf : list Z) : outcome E (list Z) :=
  if bool_decide (i < length buf)%nat then Ok (<[i := x]> buf) else Panic.

(** [buf.advance(n)] drops [n] bytes from the front and panics beyond the end;
    [buf.split_to(n)] returns them as well. *)
Definition advance {E} (n : nat) (buf : list Z) : outcome E (list Z) :=
  if bool_decide (n ≤ length buf)%nat then Ok (drop n buf) else Panic.
Definition split_to {E} (n : nat) (buf : list Z) : outcome E (list Z * list Z) :=
  if bool_decide (n ≤ length buf)%nat then Ok (take n buf, drop n buf) else Panic.

(** ** Hints and tactics *)
Create HintDb pim discriminated.
(** The segment lists of the frames, unfolded by the length tactics. *)
Create HintDb segs.

(** Case analysis on every [if] on a decidable test and every [match] on an
    option in the goal or the hypotheses. *)
Ltac case_all :=
  repeat (case_match || case_bool_decide || case_decide).

(** Unfold one monadic step whose computation is known. *)
Ltac ostep := cbn [obind].

(** ** Lemmas on outcomes *)
Lemma obind_total {E A B} (c : outcome E A) (k : A → outcome E B) :
  c ≠ Panic → (∀ a, c = Ok a → k a ≠ Panic) → obind c k ≠ Panic.
Proof. intros Hc Hk. destruct c; simpl; [by apply Hk|done|done]. Qed.

Lemma obind_Ok_inv {E A B} (c : outcome E A) (k : A → outcome E B) b :
  obind c k = Ok b → ∃ a, c = Ok a ∧ k a = Ok b.
Proof. destruct c; simpl; [eauto|done|done]. Qed.

(** ** Lemmas on machine integers *)
Lemma as_u8_small z : u8_ok z → as_u8 z = z.
Proof. unfold u8_ok, as_u8. intros. by apply Z.mod_small. Qed.
Lemma as_u16_small z : u16_ok z → as_u16 z = z.
Proof. unfold u16_ok, as_u16. intros. by apply Z.mod_small. Qed.
Lemma as_u32_small z : u32_ok z → as_u32 z = z.
Proof. unfold u32_ok, as_u32. intros. by apply Z.mod_small. Qed.
Lemma as_u16_ok z : u16_ok (as_u16 z).
Proof. unfold u16_ok, as_u16. apply Z.mod_pos_bound. lia. Qed.
Lemma as_u32_ok z : u32_ok (as_u32 z).
Proof. unfold u32_ok, as_u32. apply Z.mod_pos_bound. lia. Qed.

(** ** Lemmas on big-endian encodings *)
Lemma length_be_bytes n z : length (be_bytes n z) = n.
Proof. induction n; simpl; congruence. Qed.

Lemma be_byte_mod z k : Z.land (Z.shiftr z (8 * Z.of_nat k)) 255 = (z / 256 ^ Z.of_nat k) mod 256.
Proof.
  change 255 with (Z.ones 8). rewrite Z.land_ones by lia.
  rewrite Z.shiftr_div_pow2 by lia. rewrite Z.pow_mul_r by lia. reflexivity.
Qed.

Lemma be_bytes_ok n z : bytes_ok (be_bytes n z).
Proof.
  induction n; simpl; constructor; [|done].
  rewrite be_byte_mod. unfold u8_ok. change (2 ^ 8) with 256. by apply Z.mod_pos_bound.
Qed.

Lemma be_value_acc bs acc :
  fold_left (λ acc b, acc * 256 + b) bs acc = acc * 256 ^ Z.of_nat (length bs) + be_value bs.
Proof.
  unfold be_value. revert acc. induction bs as [|b bs IH]; intros acc; [simpl; lia|].
  cbn [fold_left length]. rewrite IH, (IH (0 * 256 + b)), Nat2Z.inj_succ, Z.pow_succ_r by lia. ring.
Qed.

Lemma be_value_cons b bs : be_value (b :: bs) = b * 256 ^ Z.of_nat (length bs) + be_value bs.
Proof. unfold be_value at 1. cbn [fold_left]. rewrite be_value_acc. ring. Qed.

Lemma be_value_app a b : be_value (a ++ b) = be_value a * 256 ^ Z.of_nat (length b) + be_value b.
Proof. unfold be_value at 1. by rewrite fold_left_app, be_value_acc. Qed.

Lemma be_value_be_bytes_mod n z : be_value (be_bytes n z) = z mod 256 ^ Z.of_nat n.
Proof.
  induction n as [|n IH]; [simpl; by rewrite Z.mod_1_r|].
  cbn [be_bytes]. rewrite be_value_cons, length_be_bytes, IH, be_byte_mod, Nat2Z.inj_succ, Z.pow_succ_r by lia.
  rewrite (Z.mul_comm 256), Z.rem_mul_r by lia. ring.
Qed.

Lemma be_value_be_bytes n z : 0 ≤ z < 256 ^ Z.of_nat n → be_value (be_bytes n z) = z.
Proof. intros. rewrite be_value_be_bytes_mod. by apply Z.mod_small. Qed.

Lemma be_value_bound bs : bytes_ok bs → 0 ≤ be_value bs < 256 ^ Z.of_nat (length bs).
Proof.
  induction 1 as [|b bs [Hb0 Hb1] _ IH]; [vm_compute; intuition congruence|].
  change (2 ^ 8) with 256 in Hb1.
  rewrite be_value_cons. cbn [length]. rewrite Nat2Z.inj_succ, Z.pow_succ_r by lia. nia.
Qed.

Lemma be_bytes_add n k m : be_bytes n (k * 256 ^ Z.of_nat n + m) = be_bytes n m.
Proof.
  induction n as [|n IH] in k |- *; [done|]. cbn [be_bytes]. rewrite !be_byte_mod.
  rewrite Nat2Z.inj_succ, Z.pow_succ_r by lia. f_equal.
  - replace (k * (256 * 256 ^ Z.of_nat n) + m) with (m + (k * 256) * 256 ^ Z.of_nat n) by ring.
    rewrite Z.div_add by lia. by rewrite Z.mod_add by lia.
  - replace (k * (256 * 256 ^ Z.of_nat n)) with ((k * 256) * 256 ^ Z.of_nat n) by ring. apply IH.
Qed.

Lemma be_bytes_be_value bs : bytes_ok bs → be_bytes (length bs) (be_value bs) = bs.
Proof.
  induction 1 as [|b bs [Hb0 Hb1] Hbs IH]; [done|]. change (2 ^ 8) with 256 in Hb1.
  cbn [be_bytes length]. rewrite be_byte_mod, be_value_cons, be_bytes_add, IH. f_equal.
  pose proof (be_value_bound bs Hbs).
  rewrite Z.div_add_l by lia. rewrite (Z.div_small (be_value bs)) by lia.
  rewrite Z.add_0_r. apply Z.mod_small. lia.
Qed.

(** ** Lemmas on slices *)
Lemma slice_Ok {E} a b buf :
  (a ≤ b)%nat → (b ≤ length buf)%nat → slice (E:=E) a b buf = Ok (take (b - a) (drop a buf)).
Proof. intros. unfold slice. by rewrite bool_decide_eq_true_2. Qed.

Lemma index_Ok {E} i buf : (i < length buf)%nat → ∃ x, index (E:=E) i buf = Ok x ∧ buf !! i = Some x.
Proof. intros H. unfold index. destruct (lookup_lt_is_Some_2 buf i H) as [x ->]. eauto. Qed.

Lemma index_lookup {E} i buf x : buf !! i = Some x → index (E:=E) i buf = Ok x.
Proof. unfold index. by intros ->. Qed.

Lemma advance_Ok {E} n buf : (n ≤ length buf)%nat → advance (E:=E) n buf = Ok (drop n buf).
Proof. intros. unfold advance. by rewrite bool_decide_eq_true_2. Qed.

Lemma split_to_Ok {E} n buf : (n ≤ length buf)%nat → split_to (E:=E) n buf = Ok (take n buf, drop n buf).
Proof. intros. unfold split_to. by rewrite bool_decide_eq_true_2. Qed.

Lemma slice_inv {E} a b buf s :
  slice (E:=E) a b buf = Ok s → s = take (b - a) (drop a buf) ∧ length s = (b - a)%nat.
Proof.
  unfold slice. case_bool_decide as H; [|done]. intros [= <-]. split; [done|].
  rewrite length_take, length_drop. lia.
Qed.

Lemma length_slice {E} a b buf s : slice (E:=E) a b buf = Ok s → length s = (b - a)%nat.
Proof. by intros [_ ?]%slice_inv. Qed.

Lemma slice_bytes_ok {E} a b buf s : bytes_ok buf → slice (E:=E) a b buf = Ok s → bytes_ok s.
Proof. intros Hb [-> _]%slice_inv. by apply Forall_take, Forall_drop. Qed.

Lemma index_u8_ok {E} i buf x : bytes_ok buf → index (E:=E) i buf = Ok x → u8_ok x.
Proof.
  unfold index. intros Hb. destruct (buf !! i) eqn:E1; [|done]. intros [= <-].
  by apply (Forall_lookup_1 _ _ _ _ Hb E1).
Qed.

Lemma copy_from_slice_Ok {E} a b src buf :
  (a ≤ b)%nat → (b ≤ length buf)%nat → length src = (b - a)%nat →
  copy_from_slice (E:=E) a b src buf = Ok (take a buf ++ src ++ drop b buf).
Proof. intros. unfold copy_from_slice. by rewrite bool_decide_eq_true_2. Qed.

(** Overwriting [a..b] changes exactly those positions. *)
Lemma lookup_splice (a b p : nat) (src buf : list Z) :
  (a ≤ b)%nat → (b ≤ length buf)%nat → length src = (b - a)%nat →
  (take a buf ++ src ++ drop b buf) !! p =
  if bool_decide (a ≤ p ∧ p < b)%nat then src !! (p - a)%nat else buf !! p.
Proof.
  intros Hab Hb Hs. case_bool_decide as Hp.
  - rewrite lookup_app_r by (rewrite length_take; lia). rewrite length_take.
    rewrite lookup_app_l by lia. f_equal. lia.
  - destruct (decide (p < a)%nat).
    + rewrite lookup_app_l by (rewrite length_take; lia). by rewrite lookup_take_lt by lia.
    + rewrite !lookup_app_r by (rewrite ?length_take; lia). rewrite lookup_drop, length_take. f_equal. lia.
Qed.

Lemma length_splice (a b : nat) (src buf : list Z) :
  (a ≤ b)%nat → (b ≤ length buf)%nat → length src = (b - a)%nat →
  length (take a buf ++ src ++ drop b buf) = length buf.
Proof. intros. rewrite !length_app, length_take, length_drop. lia. Qed.

(** ** Segments

    A frame is the concatenation of its fields.  [seg_len] is where the
    segments taken so far end; a slice that starts and ends on segment
    boundaries is the segment between them. *)
Fixpoint seg_len (segs : list (list Z)) : nat :=
  match segs with [] => 0 | s :: r => length s + seg_len r end.

Lemma length_concat_segs segs : length (concat segs) = seg_len segs.
Proof. induction segs; simpl; rewrite ?length_app; lia. Qed.

Lemma concat_split i (segs : list (list Z)) s :
  segs !! i = Some s → concat segs = concat (take i segs) ++ s ++ concat (drop (S i) segs).
Proof.
  intros H. rewrite <- (take_drop_middle segs i s H) at 1. by rewrite concat_app.
Qed.

Lemma slice_seg {E} i segs s rest a b :
  segs !! i = Some s → a = seg_len (take i segs) → b = (a + length s)%nat →
  slice (E:=E) a b (concat segs ++ rest) = Ok s.
Proof.
  intros Hs Ha ->. pose proof (length_concat_segs (take i segs)) as Hl.
  rewrite (concat_split i segs s Hs), <- !app_assoc.
  rewrite slice_Ok; [|lia|rewrite !length_app; lia].
  rewrite drop_app_length' by lia. rewrite take_app_length' by lia. done.
Qed.

Lemma index_seg {E} i segs x rest a :
  segs !! i = Some [x] → a = seg_len (take i segs) →
  index (E:=E) a (concat segs ++ rest) = Ok x.
Proof.
  intros Hs Ha. pose proof (length_concat_segs (take i segs)) as Hl.
  apply index_lookup. rewrite (concat_split i segs [x] Hs), <- !app_assoc.
  rewrite lookup_app_r by lia. replace (a - _)%nat with 0%nat by lia. done.
Qed.

Lemma advance_segs {E} i segs rest n :
  n = seg_len (take i segs) → advance (E:=E) n (concat segs ++ rest) = Ok (concat (drop i segs) ++ rest).
Proof.
  intros ->. rewrite <- length_concat_segs. rewrite <- (take_drop i segs) at 2.
  rewrite concat_app, <- app_assoc. rewrite advance_Ok by (rewrite length_app; lia).
  by rewrite drop_app_length.
Qed.

Lemma split_to_seg {E} s segs rest n :
  n = length s → split_to (E:=E) n (concat (s :: segs) ++ rest) = Ok (s, concat segs ++ rest).
Proof.
  intros ->. cbn [concat]. rewrite <- app_assoc, split_to_Ok by (rewrite length_app; lia).
  by rewrite take_app_length, drop_app_length.
Qed.

(** Length side conditions of the segment lemmas. *)
Ltac seg_lia :=
  try (autounfold with segs); cbn [seg_len take app length be_bytes]; rewrite ?length_be_bytes; cbn [length];
  repeat match goal with H : length ?x = _ |- context [length ?x] => rewrite H end;
  try reflexivity; try lia.

(** Reading one field of a frame given as segments: [seg i] evaluates the next
    slice or index as segment [i]. *)
Ltac seg i :=
  first [ erewrite (slice_seg i) by (reflexivity || seg_lia)
        | erewrite (index_seg i) by (reflexivity || seg_lia) ]; cbn [obind].

(** Arithmetic on the lengths of taken and dropped buffers. *)
Ltac len_lia := rewrite ?length_drop, ?length_take, ?length_app in *; lia.

(** Run an outcome symbolically from its head: every guard is split and every
    slice, index and advance is evaluated with the bounds its guards give. *)
Ltac run_head t :=
  lazymatch t with
  | obind ?c _ => run_head c
  | @slice ?E ?a ?b ?buf => rewrite (@slice_Ok E a b buf) by len_lia
  | @advance ?E ?n ?buf => rewrite (@advance_Ok E n buf) by len_lia
  | @split_to ?E ?n ?buf => rewrite (@split_to_Ok E n buf) by len_lia
  | @index ?E ?i ?buf =>
      let x := fresh "x" in let Hx := fresh "Hx" in
      destruct (@index_Ok E i buf) as (x & -> & Hx); [len_lia|]
  | if bool_decide _ then _ else _ => case_bool_decide
  | if ?b then _ else _ => destruct b eqn:?
  end; cbn [obind Nat.sub]; cbv beta zeta.
Ltac run_step :=
  lazymatch goal with
  | |- ?t ≠ Panic => run_head t
  | |- ?t = _ → _ => run_head t
  | |- ?t = _ => run_head t
  end.
Ltac run := cbn [obind]; cbv beta zeta; repeat run_step.

(** A frame encoder is the concatenation of its segments. *)
Ltac encode_segs :=
  unfold put_u8, put_u16, put_u32, put_u64, put_slice; try (autounfold with segs);
  cbn [concat]; by rewrite <- ?app_assoc, ?app_nil_r.
