(* ===== verification/Core.v ===== *)
(** * Core types (crates/pim-core): node identifiers, errors, the frame codec
    interface and deterministic mesh addresses. *)

From S2P Require Import Prelude.

(** ** Errors

    [PimError] carries a formatted message; the model keeps which message it
    is and the numbers printed in it. *)
Inductive ProtocolError :=
| FrameTooShortForHeader
| InvalidMagic (magic : Z)
| UnsupportedVersion (version : Z)
| UnknownFrameType (tag : Z)
| PayloadTooLarge (length : Z)
| FrameTruncated (need have : nat)
| DataFrameTooShort (have : nat)
| DataFrameTruncated (need have : nat)
| HeartbeatTooShort (have : nat)
| UnknownControlType (tag : Z)
| ControlFrameEmpty
| GoodbyeTooShort
| PingTooShort
| PongTooShort
| PeerInfoTooShort
| PeerInfoTruncated (need have : nat)
| PeerInfoNameNotUtf8
| PluginPayloadTooShort
| PluginPayloadHeaderTruncated (need have : nat)
| PluginPayloadKindNotUtf8
| PluginPayloadTruncated (need have : nat)
| RouteUpdateTooShort
| TooManyRouteEntries (count : Z)
| RouteUpdateTruncated (need have : nat)
| HandshakeFrameEmpty
| UnknownHandshakeType (tag : Z)
| HandshakeInitTooShort (have : nat)
| HandshakeConfirmTooShort (have : nat)
| DelimitedFrameTooLarge (length : Z).

Inductive ConfigError :=
| NodeIdLength (have : nat)
| NodeIdInvalidUtf8
| NodeIdInvalidHex
| CidrMissingSlash
| CidrInvalidAddress
| CidrInvalidPrefixLength
| CidrPrefixTooLong.

Inductive PimError :=
| Crypto
| Protocol (why : ProtocolError)
| Transport
| Routing
| Tun
| Gateway
| Config (why : ConfigError)
| Io.

(** ** The frame codec interface

    [encode] appends to the buffer it is given; [decode] consumes one frame
    from the front of the buffer and returns what is left.  Every decoder
    returns its errors before it advances the buffer, so an error leaves the
    buffer as it was. *)
Class FrameCodec (F : Type) := {
  encode : F → list Z → list Z;
  decode : list Z → outcome PimError (F * list Z);
}.

(** What the rest of the system relies on: [wf] says which frames the wire
    format can carry. *)
Class LawfulCodec (F : Type) `{FrameCodec F} := {
  frame_wf : F → Prop;
  encode_appends : ∀ f buf, encode f buf = buf ++ encode f [];
  decode_encode : ∀ f rest, frame_wf f → decode (encode f [] ++ rest) = Ok (f, rest);
  decode_total : ∀ buf, decode buf ≠ Panic;
  decode_consumes : ∀ buf f rest,
    decode buf = Ok (f, rest) → ∃ n, (0 < n)%nat ∧ (n ≤ length buf)%nat ∧ rest = drop n buf;
}.

(** ** UTF-8

    [std::str::from_utf8] accepts exactly well-formed UTF-8: no overlong
    forms, no surrogates, nothing above U+10FFFF. *)
Definition utf8_cont (b : Z) : bool := (0x80 <=? b) && (b <=? 0xBF).
Definition in_range (lo hi b : Z) : bool := (lo <=? b) && (b <=? hi).

Definition utf8_seq3 (b0 b1 b2 : Z) : bool :=
  ((b0 =? 0xE0) && in_range 0xA0 0xBF b1
   || in_range 0xE1 0xEC b0 && utf8_cont b1
   || (b0 =? 0xED) && in_range 0x80 0x9F b1
   || in_range 0xEE 0xEF b0 && utf8_cont b1) && utf8_cont b2.

Definition utf8_seq4 (b0 b1 b2 b3 : Z) : bool :=
  ((b0 =? 0xF0) && in_range 0x90 0xBF b1
   || in_range 0xF1 0xF3 b0 && utf8_cont b1
   || (b0 =? 0xF4) && in_range 0x80 0x8F b1) && utf8_cont b2 && utf8_cont b3.

Fixpoint from_utf8 (bs : list Z) : bool :=
  match bs with
  | [] => true
  | b0 :: r0 =>
    if in_range 0 0x7F b0 then from_utf8 r0
    else match r0 with
    | [] => false
    | b1 :: r1 =>
      if in_range 0xC2 0xDF b0 && utf8_cont b1 then from_utf8 r1
      else match r1 with
      | [] => false
      | b2 :: r2 =>
        if utf8_seq3 b0 b1 b2 then from_utf8 r2
        else match r2 with
        | [] => false
        | b3 :: r3 => if utf8_seq4 b0 b1 b2 b3 then from_utf8 r3 else false
        end
      end
    end
  end.

(** ** Number parsing of the standard library *)
Definition digit_value (radix c : Z) : option Z :=
  let d := if in_range 48 57 c then Some (c - 48)
           else if in_range 97 122 c then Some (c - 97 + 10)
           else if in_range 65 90 c then Some (c - 65 + 10)
           else None in
  match d with Some v => if v <? radix then Some v else None | None => None end.

Fixpoint digits_u8 (radix : Z) (cs : list Z) (acc : Z) : option Z :=
  match cs with
  | [] => Some acc
  | c :: cs' =>
    match digit_value radix c with
    | None => None
    | Some d => let v := acc * radix + d in
                if v <? 256 then digits_u8 radix cs' v else None
    end
  end.

(** [u8::from_str_radix]: an optional leading plus sign, then digits; a lone
    sign and an overflow are errors. *)
Definition from_str_radix_u8 (cs : list Z) (radix : Z) : option Z :=
  match cs with
  | [] => None
  | [c] => if (c =? 43) || (c =? 45) then None else digits_u8 radix cs 0
  | c :: cs' => if c =? 43 then digits_u8 radix cs' 0 else digits_u8 radix cs 0
  end.

(** ** Node identifiers *)
Record NodeId := from_bytes { as_bytes : list Z }.

#[export] Instance NodeId_eq_dec : EqDecision NodeId.
Proof. solve_decision. Defined.
#[export] Instance NodeId_countable : Countable NodeId.
Proof. apply (inj_countable' as_bytes from_bytes). by intros []. Defined.

Definition node_id_wf (id : NodeId) : Prop := length (as_bytes id) = 16%nat ∧ bytes_ok (as_bytes id).
#[export] Instance node_id_wf_dec id : Decision (node_id_wf id).
Proof. unfold node_id_wf. apply _. Defined.

(** [NodeId::from_public_key]: the first 16 bytes of the SHA-256 digest, which
    is code of the [sha2] crate and a parameter here. *)
Definition from_public_key (sha256 : list Z → list Z) (public_key : list Z) : NodeId :=
  from_bytes (take 16 (sha256 public_key)).

Definition hex_digit (d : Z) : Z := if d <? 10 then 48 + d else 87 + d.
Definition hex_byte (b : Z) : list Z := [hex_digit (Z.shiftr b 4); hex_digit (Z.land b 15)].

Definition to_hex (id : NodeId) : list Z := flat_map hex_byte (as_bytes id).

(** The loop of [NodeId::from_str] over [chunks_exact(2)]. *)
Fixpoint parse_hex_chunks (cs : list Z) : outcome PimError (list Z) :=
  match cs with
  | c0 :: c1 :: cs' =>
    if from_utf8 [c0; c1] then
      match from_str_radix_u8 [c0; c1] 16 with
      | Some b => let? bs := parse_hex_chunks cs' in Ok (b :: bs)
      | None => Err (Config NodeIdInvalidHex)
      end
    else Err (Config NodeIdInvalidUtf8)
  | _ => Ok []
  end.

Definition NodeId_from_str (s : list Z) : outcome PimError NodeId :=
  if bool_decide (length s = 32%nat)
  then let? bs := parse_hex_chunks s in Ok (from_bytes bs)
  else Err (Config (NodeIdLength (length s))).

(** ** Properties of node identifiers *)
Definition byte_range : list Z := map Z.of_nat (seq 0 256).

(** A decidable fact that holds of the 256 byte values holds of every [u8]. *)
Lemma u8_forall (P : Z → Prop) `{!∀ z, Decision (P z)} :
  forallb (λ z, bool_decide (P z)) byte_range = true → ∀ b, u8_ok b → P b.
Proof.
  intros Hall b [H0 H1]. rewrite forallb_forall in Hall.
  apply (bool_decide_eq_true (P b)), Hall, in_map_iff.
  exists (Z.to_nat b). split; [lia|]. apply in_seq. lia.
Qed.

Lemma hex_byte_parses b : u8_ok b →
  from_utf8 (hex_byte b) = true ∧ from_str_radix_u8 (hex_byte b) 16 = Some b.
Proof. apply (u8_forall (λ b, from_utf8 (hex_byte b) = true ∧ from_str_radix_u8 (hex_byte b) 16 = Some b)). by vm_compute. Qed.

Lemma parse_hex_flat_map bs : bytes_ok bs → parse_hex_chunks (flat_map hex_byte bs) = Ok bs.
Proof.
  induction 1 as [|b bs Hb _ IH]; [done|]. destruct (hex_byte_parses b Hb) as [Hu Hp].
  cbn [flat_map]. unfold hex_byte in *. cbn [app parse_hex_chunks]. by rewrite Hu, Hp, IH.
Qed.

Lemma length_flat_map_hex bs : length (flat_map hex_byte bs) = (2 * length bs)%nat.
Proof. induction bs; simpl; lia. Qed.

Lemma parse_hex_total cs : parse_hex_chunks cs ≠ Panic.
Proof.
  induction cs as [cs IH] using (induction_ltof1 _ length).
  destruct cs as [|c0 [|c1 cs]]; try done. cbn [parse_hex_chunks].
  destruct (from_utf8 _); [|done]. destruct (from_str_radix_u8 _ _); [|done].
  assert (Hcs : parse_hex_chunks cs ≠ Panic) by (apply IH; unfold ltof; simpl; lia).
  by destruct (parse_hex_chunks cs).
Qed.

Lemma parse_hex_length cs bs :
  parse_hex_chunks cs = Ok bs → length bs = (length cs / 2)%nat.
Proof.
  revert bs. induction cs as [cs IH] using (induction_ltof1 _ length). intros bs.
  destruct cs as [|c0 [|c1 cs]]; try (intros [= <-]; done). cbn [parse_hex_chunks].
  destruct (from_utf8 _); [|done]. destruct (from_str_radix_u8 _ _); [|done].
  destruct (parse_hex_chunks cs) as [bs'| |] eqn:E; try done. intros [= <-].
  cbn [length]. rewrite (IH cs) with (bs := bs'); [|unfold ltof; simpl; lia|done].
  replace (S (S (length cs))) with (length cs + 1 * 2)%nat by lia. rewrite Nat.div_add by lia. lia.
Qed.

Lemma digits_u8_ok radix cs acc v : 0 < radix → 0 ≤ acc < 256 → digits_u8 radix cs acc = Some v → u8_ok v.
Proof.
  intros Hr. revert acc. induction cs as [|c cs IH]; intros acc Hacc; cbn [digits_u8].
  - intros [= <-]. unfold u8_ok. lia.
  - destruct (digit_value radix c) as [d|] eqn:Ed; [|done].
    destruct (Z.ltb_spec (acc * radix + d) 256); [|done]. apply IH.
    unfold digit_value, in_range in Ed. repeat case_match; simplify_eq; split; try lia; nia.
Qed.

Lemma from_str_radix_u8_ok cs radix v : 0 < radix → from_str_radix_u8 cs radix = Some v → u8_ok v.
Proof.
  intros Hr. unfold from_str_radix_u8.
  repeat case_match; try done; intros Hd; (eapply digits_u8_ok; [exact Hr| |exact Hd]; lia).
Qed.

Lemma parse_hex_bytes_ok cs bs : parse_hex_chunks cs = Ok bs → bytes_ok bs.
Proof.
  revert bs. induction cs as [cs IH] using (induction_ltof1 _ length). intros bs.
  destruct cs as [|c0 [|c1 cs]]; try (intros [= <-]; constructor). cbn [parse_hex_chunks].
  destruct (from_utf8 _); [|done]. destruct (from_str_radix_u8 _ _) as [b|] eqn:Eb; [|done].
  destruct (parse_hex_chunks cs) as [bs'| |] eqn:E; try done. intros [= <-].
  constructor; [by apply (from_str_radix_u8_ok [c0; c1] 16)|].
  apply (IH cs); [unfold ltof; simpl; lia|done].
Qed.

(** Identifiers for concrete instances. *)
Definition sample_id (k : Z) : NodeId := from_bytes (replicate 15 0 ++ [k]).
Definition sample_digest (id : NodeId) : list Z := replicate 32 (be_value (as_bytes id) mod 256).

(** parsing the hexadecimal form of a node identifier gives it back. *)
Theorem node_id_hex_roundtrip (id : NodeId) :
  node_id_wf id → NodeId_from_str (to_hex id) = Ok id.
Proof.
  intros [Hlen Hok]. unfold NodeId_from_str, to_hex. rewrite length_flat_map_hex, Hlen.
  rewrite bool_decide_eq_true_2 by done. rewrite parse_hex_flat_map by done. by destruct id.
Qed.

Lemma node_id_hex_roundtrip_witness : NodeId_from_str (to_hex (sample_id 171)) = Ok (sample_id 171).
Proof. apply node_id_hex_roundtrip. by apply (bool_decide_unpack _). Defined.

(** whatever string it is given, the parser returns, and what it accepts is
    a well-formed identifier. *)
Theorem node_id_from_str_sound (s : list Z) :
  NodeId_from_str s ≠ Panic ∧ ∀ id, NodeId_from_str s = Ok id → node_id_wf id.
Proof.
  unfold NodeId_from_str. case_bool_decide as Hl; [|done].
  pose proof (parse_hex_total s). destruct (parse_hex_chunks s) as [bs| |] eqn:E; [|done|done].
  split; [done|]. intros id [= <-]. split; cbn [as_bytes].
  - by rewrite (parse_hex_length s bs E), Hl.
  - by apply (parse_hex_bytes_ok s).
Qed.
