(* ===== verification/Frames.v ===== *)
(** * Wire frames (crates/pim-protocol)

    One section per frame type: its record, [encode] and [decode] as the
    source writes them, and its [LawfulCodec] instance (round trip, no panic on
    any input, progress). *)

From S2P Require Import Prelude Core.

(** ** FrameType (frame_type.rs) *)
Inductive FrameType :=
| FrameHandshake | FrameData | FrameRouteUpdate | FrameHeartbeat | FrameControl | FrameFragment.
#[export] Instance FrameType_eq_dec : EqDecision FrameType.
Proof. solve_decision. Defined.

Definition FrameType_as_u8 (t : FrameType) : Z :=
  match t with
  | FrameHandshake => 1 | FrameData => 2 | FrameRouteUpdate => 3
  | FrameHeartbeat => 4 | FrameControl => 5 | FrameFragment => 6
  end.

Definition FrameType_from_u8 (value : Z) : outcome PimError FrameType :=
  match value with
  | 1 => Ok FrameHandshake
  | 2 => Ok FrameData
  | 3 => Ok FrameRouteUpdate
  | 4 => Ok FrameHeartbeat
  | 5 => Ok FrameControl
  | 6 => Ok FrameFragment
  | other => Err (Protocol (UnknownFrameType other))
  end.

Lemma FrameType_from_as t : FrameType_from_u8 (FrameType_as_u8 t) = Ok t.
Proof. by destruct t. Qed.

Lemma FrameType_from_total v : FrameType_from_u8 v ≠ Panic.
Proof. unfold FrameType_from_u8. by repeat case_match. Qed.

(** ** TransportFrame (transport_frame.rs) *)
Definition MAGIC : Z := 0x504D.
Definition VERSION : Z := 1.
Definition MAX_PAYLOAD_SIZE : Z := 1048576.
Definition TRANSPORT_HEADER_SIZE : nat := 20.
Definition TRANSPORT_TAG_SIZE : nat := 16.

Record TransportFrame := {
  tf_frame_type : FrameType;
  tf_nonce : list Z;
  tf_payload : list Z;
  tf_tag : list Z;
}.

Definition TransportFrame_encode (f : TransportFrame) (buf : list Z) : list Z :=
  let buf := put_u16 MAGIC buf in
  let buf := put_u8 VERSION buf in
  let buf := put_u8 (FrameType_as_u8 (tf_frame_type f)) buf in
  let buf := put_u32 (as_u32 (Z.of_nat (length (tf_payload f)))) buf in
  let buf := put_slice (tf_nonce f) buf in
  let buf := put_slice (tf_payload f) buf in
  put_slice (tf_tag f) buf.

Definition TransportFrame_decode (buf : list Z) : outcome PimError (TransportFrame * list Z) :=
  if bool_decide (length buf < TRANSPORT_HEADER_SIZE)%nat
  then Err (Protocol FrameTooShortForHeader) else
  let? m := slice 0 2 buf in
  let magic := be_value m in
  if negb (magic =? MAGIC) then Err (Protocol (InvalidMagic magic)) else
  let? version := index 2 buf in
  if negb (version =? VERSION) then Err (Protocol (UnsupportedVersion version)) else
  let? tag_byte := index 3 buf in
  let? frame_type := FrameType_from_u8 tag_byte in
  let? l := slice 4 8 buf in
  let length_field := be_value l in
  if MAX_PAYLOAD_SIZE <? length_field then Err (Protocol (PayloadTooLarge length_field)) else
  let total_size := (TRANSPORT_HEADER_SIZE + Z.to_nat length_field + TRANSPORT_TAG_SIZE)%nat in
  if bool_decide (length buf < total_size)%nat
  then Err (Protocol (FrameTruncated total_size (length buf))) else
  let? nonce := slice 8 20 buf in
  let? buf := advance TRANSPORT_HEADER_SIZE buf in
  let? (payload, buf) := split_to (Z.to_nat length_field) buf in
  let? tag := slice 0 TRANSPORT_TAG_SIZE buf in
  let? buf := advance TRANSPORT_TAG_SIZE buf in
  Ok ({| tf_frame_type := frame_type; tf_nonce := nonce; tf_payload := payload; tf_tag := tag |}, buf).

#[export] Instance TransportFrame_codec : FrameCodec TransportFrame :=
  {| encode := TransportFrame_encode; decode := TransportFrame_decode |}.

Definition TransportFrame_wf (f : TransportFrame) : Prop :=
  length (tf_nonce f) = 12%nat ∧ length (tf_tag f) = 16%nat ∧
  Z.of_nat (length (tf_payload f)) ≤ MAX_PAYLOAD_SIZE.

Definition TransportFrame_segs (f : TransportFrame) : list (list Z) :=
  [be_bytes 2 MAGIC; [VERSION]; [FrameType_as_u8 (tf_frame_type f)];
   be_bytes 4 (as_u32 (Z.of_nat (length (tf_payload f)))); tf_nonce f; tf_payload f; tf_tag f].

#[export] Hint Unfold TransportFrame_segs : segs.

Lemma TransportFrame_encode_segs f buf :
  TransportFrame_encode f buf = buf ++ concat (TransportFrame_segs f).
Proof.
  unfold TransportFrame_encode. encode_segs.
Qed.

Lemma TransportFrame_roundtrip f rest :
  TransportFrame_wf f → TransportFrame_decode (TransportFrame_encode f [] ++ rest) = Ok (f, rest).
Proof.
  intros (Hn & Ht & Hp). unfold MAX_PAYLOAD_SIZE in Hp. rewrite TransportFrame_encode_segs. cbn [app].
  assert (Hl : be_value (be_bytes 4 (as_u32 (Z.of_nat (length (tf_payload f))))) = Z.of_nat (length (tf_payload f))).
  { rewrite as_u32_small by (unfold u32_ok; lia). apply be_value_be_bytes. lia. }
  assert (Hlen : length (concat (TransportFrame_segs f) ++ rest) = (36 + length (tf_payload f) + length rest)%nat).
  { rewrite length_app, length_concat_segs. unfold TransportFrame_segs. seg_lia. }
  unfold TransportFrame_decode. rewrite Hlen. rewrite bool_decide_eq_false_2 by (unfold TRANSPORT_HEADER_SIZE; lia).
  seg 0%nat. change (be_value (be_bytes 2 MAGIC) =? MAGIC) with true. cbn [negb].
  seg 1%nat. cbn [negb Z.eqb VERSION Pos.eqb]. seg 2%nat. rewrite FrameType_from_as. cbn [obind].
  seg 3%nat. rewrite Hl. unfold MAX_PAYLOAD_SIZE. rewrite (proj2 (Z.ltb_ge _ _)) by lia.
  rewrite bool_decide_eq_false_2 by (unfold TRANSPORT_HEADER_SIZE, TRANSPORT_TAG_SIZE; lia).
  seg 4%nat. erewrite (advance_segs 5) by seg_lia. cbn [obind drop TransportFrame_segs].
  rewrite split_to_seg by lia. cbn [obind].
  seg 0%nat. erewrite (advance_segs 1) by seg_lia. cbn [obind drop concat app]. by destruct f.
Qed.

Lemma TransportFrame_total buf : TransportFrame_decode buf ≠ Panic.
Proof.
  unfold TransportFrame_decode, TRANSPORT_HEADER_SIZE, TRANSPORT_TAG_SIZE. run; try done.
  apply obind_total; [apply FrameType_from_total|]. intros. by run.
Qed.

Lemma TransportFrame_consumes buf f rest :
  TransportFrame_decode buf = Ok (f, rest) →
  rest = drop (36 + length (tf_payload f)) buf ∧ (36 + length (tf_payload f) ≤ length buf)%nat ∧
  TransportFrame_wf f.
Proof.
  unfold TransportFrame_decode, TRANSPORT_HEADER_SIZE, TRANSPORT_TAG_SIZE. run; try done.
  intros (ft & _ & Hk)%obind_Ok_inv. revert Hk. run; try done. intros [= <- <-].
  unfold TransportFrame_wf, MAX_PAYLOAD_SIZE in *. cbn [tf_payload tf_nonce tf_tag]. rewrite !drop_drop, !length_take, !length_drop.
  split; [f_equal; lia|]. lia.
Qed.

#[export] Program Instance TransportFrame_lawful : LawfulCodec TransportFrame :=
  {| frame_wf := TransportFrame_wf |}.
Next Obligation. intros. cbn [encode TransportFrame_codec]. by rewrite !TransportFrame_encode_segs. Qed.
Next Obligation. exact TransportFrame_roundtrip. Qed.
Next Obligation. exact TransportFrame_total. Qed.
Next Obligation. intros buf f rest (Hr & Hl & _)%TransportFrame_consumes. eexists. split; [|split; [exact Hl|exact Hr]]. lia. Qed.

(** ** MeshDataFrame (data_frame.rs) *)
Definition IS_FRAGMENT : Z := 0x01.
Definition IS_LAST_FRAGMENT : Z := 0x02.
Definition REQUIRES_ACK : Z := 0x04.
Definition IS_ACK : Z := 0x08.
Definition IS_INTERNET : Z := 0x10.
Definition IS_E2E : Z := 0x20.
Definition IS_CONTROL : Z := 0x40.

(** The union of the declared flags: what [from_bits_truncate] keeps. *)
Definition DataFlags_all : Z :=
  Z.lor IS_FRAGMENT (Z.lor IS_LAST_FRAGMENT (Z.lor REQUIRES_ACK (Z.lor IS_ACK
    (Z.lor IS_INTERNET (Z.lor IS_E2E IS_CONTROL))))).
Definition from_bits_truncate (bits : Z) : Z := Z.land bits DataFlags_all.
Definition flags_contains (flags bit : Z) : bool := Z.land flags bit =? bit.

Record MeshDataFrame := {
  md_src_id : NodeId;
  md_dst_id : NodeId;
  md_session_id : Z;
  md_ttl : Z;
  md_flags : Z;
  md_payload : list Z;
}.

Definition DATA_HEADER_SIZE : nat := 40.

Definition MeshDataFrame_encode (f : MeshDataFrame) (buf : list Z) : list Z :=
  let buf := put_slice (as_bytes (md_src_id f)) buf in
  let buf := put_slice (as_bytes (md_dst_id f)) buf in
  let buf := put_u32 (md_session_id f) buf in
  let buf := put_u8 (md_ttl f) buf in
  let buf := put_u8 (md_flags f) buf in
  let buf := put_u16 (as_u16 (Z.of_nat (length (md_payload f)))) buf in
  put_slice (md_payload f) buf.

Definition MeshDataFrame_decode (buf : list Z) : outcome PimError (MeshDataFrame * list Z) :=
  if bool_decide (length buf < DATA_HEADER_SIZE)%nat
  then Err (Protocol (DataFrameTooShort (length buf))) else
  let? src_bytes := slice 0 16 buf in
  let? dst_bytes := slice 16 32 buf in
  let? sid := slice 32 36 buf in
  let? ttl := index 36 buf in
  let? flag_byte := index 37 buf in
  let? pl := slice 38 40 buf in
  let payload_len := Z.to_nat (be_value pl) in
  let total := (DATA_HEADER_SIZE + payload_len)%nat in
  if bool_decide (length buf < total)%nat
  then Err (Protocol (DataFrameTruncated total (length buf))) else
  let? buf := advance DATA_HEADER_SIZE buf in
  let? (payload, buf) := split_to payload_len buf in
  Ok ({| md_src_id := from_bytes src_bytes; md_dst_id := from_bytes dst_bytes;
         md_session_id := be_value sid; md_ttl := ttl;
         md_flags := from_bits_truncate flag_byte; md_payload := payload |}, buf).

#[export] Instance MeshDataFrame_codec : FrameCodec MeshDataFrame :=
  {| encode := MeshDataFrame_encode; decode := MeshDataFrame_decode |}.

Definition MeshDataFrame_wf (f : MeshDataFrame) : Prop :=
  length (as_bytes (md_src_id f)) = 16%nat ∧ length (as_bytes (md_dst_id f)) = 16%nat ∧
  u32_ok (md_session_id f) ∧ from_bits_truncate (md_flags f) = md_flags f ∧
  Z.of_nat (length (md_payload f)) < 2 ^ 16.

Definition MeshDataFrame_segs (f : MeshDataFrame) : list (list Z) :=
  [as_bytes (md_src_id f); as_bytes (md_dst_id f); be_bytes 4 (md_session_id f); [md_ttl f]; [md_flags f];
   be_bytes 2 (as_u16 (Z.of_nat (length (md_payload f)))); md_payload f].
#[export] Hint Unfold MeshDataFrame_segs : segs.

Lemma MeshDataFrame_encode_segs f buf :
  MeshDataFrame_encode f buf = buf ++ concat (MeshDataFrame_segs f).
Proof. unfold MeshDataFrame_encode. encode_segs. Qed.

Lemma MeshDataFrame_roundtrip f rest :
  MeshDataFrame_wf f → MeshDataFrame_decode (MeshDataFrame_encode f [] ++ rest) = Ok (f, rest).
Proof.
  intros (Hs & Hd & Hsid & Hf & Hp). rewrite MeshDataFrame_encode_segs. cbn [app].
  assert (Hl : be_value (be_bytes 2 (as_u16 (Z.of_nat (length (md_payload f))))) = Z.of_nat (length (md_payload f))).
  { rewrite as_u16_small by (unfold u16_ok; lia). apply be_value_be_bytes. lia. }
  assert (Hlen : length (concat (MeshDataFrame_segs f) ++ rest) = (40 + length (md_payload f) + length rest)%nat).
  { rewrite length_app, length_concat_segs. seg_lia. }
  unfold MeshDataFrame_decode. rewrite Hlen. rewrite bool_decide_eq_false_2 by (unfold DATA_HEADER_SIZE; lia).
  seg 0%nat. seg 1%nat. seg 2%nat. seg 3%nat. seg 4%nat. seg 5%nat. rewrite Hl, Nat2Z.id.
  rewrite bool_decide_eq_false_2 by (unfold DATA_HEADER_SIZE; lia).
  erewrite (advance_segs 6) by seg_lia. cbn [obind drop MeshDataFrame_segs].
  rewrite split_to_seg by lia. cbn [obind concat app].
  rewrite be_value_be_bytes by (unfold u32_ok in Hsid; lia). rewrite Hf.
  by destruct f as [[] []].
Qed.

Lemma MeshDataFrame_total buf : MeshDataFrame_decode buf ≠ Panic.
Proof. unfold MeshDataFrame_decode, DATA_HEADER_SIZE. by run. Qed.

Lemma MeshDataFrame_consumes buf f rest :
  MeshDataFrame_decode buf = Ok (f, rest) →
  rest = drop (40 + length (md_payload f)) buf ∧ (40 + length (md_payload f) ≤ length buf)%nat.
Proof.
  unfold MeshDataFrame_decode, DATA_HEADER_SIZE. run; try done. intros [= <- <-]. cbn [md_payload].
  rewrite !drop_drop, !length_take, !length_drop. split; [f_equal|]; lia.
Qed.

#[export] Program Instance MeshDataFrame_lawful : LawfulCodec MeshDataFrame :=
  {| frame_wf := MeshDataFrame_wf |}.
Next Obligation. intros. cbn [encode MeshDataFrame_codec]. by rewrite !MeshDataFrame_encode_segs. Qed.
Next Obligation. exact MeshDataFrame_roundtrip. Qed.
Next Obligation. exact MeshDataFrame_total. Qed.
Next Obligation. intros buf f rest [Hr Hl]%MeshDataFrame_consumes. eexists. split; [|split; [exact Hl|exact Hr]]. lia. Qed.

(** ** HeartbeatFrame (heartbeat_frame.rs) *)
Record HeartbeatFrame := {
  hb_sender_id : NodeId;
  hb_timestamp : Z;
  hb_gateway_hops : Z;
  hb_load : Z;
  hb_gw_x25519_pub : list Z;
}.

Definition HEARTBEAT_SIZE : nat := 58.

Definition HeartbeatFrame_encode (f : HeartbeatFrame) (buf : list Z) : list Z :=
  let buf := put_slice (as_bytes (hb_sender_id f)) buf in
  let buf := put_u64 (hb_timestamp f) buf in
  let buf := put_u8 (hb_gateway_hops f) buf in
  let buf := put_u8 (hb_load f) buf in
  put_slice (hb_gw_x25519_pub f) buf.

Definition HeartbeatFrame_decode (buf : list Z) : outcome PimError (HeartbeatFrame * list Z) :=
  if bool_decide (length buf < HEARTBEAT_SIZE)%nat
  then Err (Protocol (HeartbeatTooShort (length buf))) else
  let? id_bytes := slice 0 16 buf in
  let? ts := slice 16 24 buf in
  let? gateway_hops := index 24 buf in
  let? load := index 25 buf in
  let? pub := slice 26 58 buf in
  let? buf := advance HEARTBEAT_SIZE buf in
  Ok ({| hb_sender_id := from_bytes id_bytes; hb_timestamp := be_value ts;
         hb_gateway_hops := gateway_hops; hb_load := load; hb_gw_x25519_pub := pub |}, buf).

#[export] Instance HeartbeatFrame_codec : FrameCodec HeartbeatFrame :=
  {| encode := HeartbeatFrame_encode; decode := HeartbeatFrame_decode |}.

Definition HeartbeatFrame_wf (f : HeartbeatFrame) : Prop :=
  length (as_bytes (hb_sender_id f)) = 16%nat ∧ u64_ok (hb_timestamp f) ∧
  length (hb_gw_x25519_pub f) = 32%nat.

Definition HeartbeatFrame_segs (f : HeartbeatFrame) : list (list Z) :=
  [as_bytes (hb_sender_id f); be_bytes 8 (hb_timestamp f); [hb_gateway_hops f]; [hb_load f]; hb_gw_x25519_pub f].
#[export] Hint Unfold HeartbeatFrame_segs : segs.

Lemma HeartbeatFrame_encode_segs f buf :
  HeartbeatFrame_encode f buf = buf ++ concat (HeartbeatFrame_segs f).
Proof. unfold HeartbeatFrame_encode. encode_segs. Qed.

Lemma HeartbeatFrame_roundtrip f rest :
  HeartbeatFrame_wf f → HeartbeatFrame_decode (HeartbeatFrame_encode f [] ++ rest) = Ok (f, rest).
Proof.
  intros (Hs & Ht & Hp). rewrite HeartbeatFrame_encode_segs. cbn [app].
  assert (Hlen : length (concat (HeartbeatFrame_segs f) ++ rest) = (58 + length rest)%nat).
  { rewrite length_app, length_concat_segs. seg_lia. }
  unfold HeartbeatFrame_decode. rewrite Hlen. rewrite bool_decide_eq_false_2 by (unfold HEARTBEAT_SIZE; lia).
  seg 0%nat. seg 1%nat. seg 2%nat. seg 3%nat. seg 4%nat.
  erewrite (advance_segs 5) by seg_lia. cbn [obind drop HeartbeatFrame_segs concat app].
  rewrite be_value_be_bytes by (unfold u64_ok in Ht; lia). by destruct f as [[]].
Qed.

Lemma HeartbeatFrame_total buf : HeartbeatFrame_decode buf ≠ Panic.
Proof. unfold HeartbeatFrame_decode, HEARTBEAT_SIZE. by run. Qed.

#[export] Program Instance HeartbeatFrame_lawful : LawfulCodec HeartbeatFrame :=
  {| frame_wf := HeartbeatFrame_wf |}.
Next Obligation. intros. cbn [encode HeartbeatFrame_codec]. by rewrite !HeartbeatFrame_encode_segs. Qed.
Next Obligation. exact HeartbeatFrame_roundtrip. Qed.
Next Obligation. exact HeartbeatFrame_total. Qed.
Next Obligation.
  intros buf f rest. cbn [decode HeartbeatFrame_codec]. unfold HeartbeatFrame_decode, HEARTBEAT_SIZE.
  run; try done. intros [= <- <-]. exists 58%nat. repeat split; lia.
Qed.

(** ** RouteUpdateFrame (route_frame.rs) *)
Record RouteEntry := {
  re_destination : NodeId;
  re_hops : Z;
  re_flags : Z;
  re_mesh_ip : list Z;
}.

Definition RouteEntry_is_gateway (e : RouteEntry) : bool := negb (Z.land (re_flags e) 1 =? 0).

Record RouteUpdateFrame := {
  ru_origin_id : NodeId;
  ru_sequence : Z;
  ru_entries : list RouteEntry;
  ru_signature : list Z;
}.

Definition ROUTE_HEADER_SIZE : nat := 26.
Definition ENTRY_SIZE : nat := 22.
Definition SIGNATURE_SIZE : nat := 64.
Definition MAX_ENTRIES : Z := 1000.

Definition RouteEntry_encode (entry : RouteEntry) (buf : list Z) : list Z :=
  let buf := put_slice (as_bytes (re_destination entry)) buf in
  let buf := put_u8 (re_hops entry) buf in
  let buf := put_u8 (re_flags entry) buf in
  put_slice (re_mesh_ip entry) buf.

Definition RouteUpdateFrame_encode (f : RouteUpdateFrame) (buf : list Z) : list Z :=
  let buf := put_slice (as_bytes (ru_origin_id f)) buf in
  let buf := put_u64 (ru_sequence f) buf in
  let buf := put_u16 (as_u16 (Z.of_nat (length (ru_entries f)))) buf in
  let buf := fold_left (λ buf entry, RouteEntry_encode entry buf) (ru_entries f) buf in
  put_slice (ru_signature f) buf.

(** The loop [for _ in 0..entry_count], which also returns the final offset. *)
Fixpoint decode_entries (entry_count offset : nat) (buf : list Z)
  : outcome PimError (list RouteEntry * nat) :=
  match entry_count with
  | O => Ok ([], offset)
  | S n =>
    let? dest := slice offset (offset + 16) buf in
    let? hops := index (offset + 16) buf in
    let? flags := index (offset + 17) buf in
    let? mesh_ip := slice (offset + 18) (offset + 22) buf in
    let? (entries, offset) := decode_entries n (offset + ENTRY_SIZE) buf in
    Ok ({| re_destination := from_bytes dest; re_hops := hops; re_flags := flags;
           re_mesh_ip := mesh_ip |} :: entries, offset)
  end.

Definition RouteUpdateFrame_decode (buf : list Z) : outcome PimError (RouteUpdateFrame * list Z) :=
  if bool_decide (length buf < ROUTE_HEADER_SIZE)%nat then Err (Protocol RouteUpdateTooShort) else
  let? origin_bytes := slice 0 16 buf in
  let? sq := slice 16 24 buf in
  let? ec := slice 24 26 buf in
  let entry_count := be_value ec in
  if MAX_ENTRIES <? entry_count then Err (Protocol (TooManyRouteEntries entry_count)) else
  let total := (ROUTE_HEADER_SIZE + Z.to_nat entry_count * ENTRY_SIZE + SIGNATURE_SIZE)%nat in
  if bool_decide (length buf < total)%nat
  then Err (Protocol (RouteUpdateTruncated total (length buf))) else
  let? (entries, offset) := decode_entries (Z.to_nat entry_count) ROUTE_HEADER_SIZE buf in
  let? signature := slice offset (offset + SIGNATURE_SIZE) buf in
  let? buf := advance total buf in
  Ok ({| ru_origin_id := from_bytes origin_bytes; ru_sequence := be_value sq;
         ru_entries := entries; ru_signature := signature |}, buf).

#[export] Instance RouteUpdateFrame_codec : FrameCodec RouteUpdateFrame :=
  {| encode := RouteUpdateFrame_encode; decode := RouteUpdateFrame_decode |}.

Definition RouteEntry_wf (e : RouteEntry) : Prop :=
  length (as_bytes (re_destination e)) = 16%nat ∧ length (re_mesh_ip e) = 4%nat.
Definition RouteUpdateFrame_wf (f : RouteUpdateFrame) : Prop :=
  length (as_bytes (ru_origin_id f)) = 16%nat ∧ u64_ok (ru_sequence f) ∧
  Forall RouteEntry_wf (ru_entries f) ∧ Z.of_nat (length (ru_entries f)) ≤ MAX_ENTRIES ∧
  length (ru_signature f) = 64%nat.

Definition RouteEntry_segs (e : RouteEntry) : list (list Z) :=
  [as_bytes (re_destination e); [re_hops e]; [re_flags e]; re_mesh_ip e].
Definition entries_bytes (es : list RouteEntry) : list Z :=
  concat (map (λ e, concat (RouteEntry_segs e)) es).
Definition RouteUpdateFrame_segs (f : RouteUpdateFrame) : list (list Z) :=
  [as_bytes (ru_origin_id f); be_bytes 8 (ru_sequence f);
   be_bytes 2 (as_u16 (Z.of_nat (length (ru_entries f))));
   entries_bytes (ru_entries f); ru_signature f].
#[export] Hint Unfold RouteEntry_segs RouteUpdateFrame_segs : segs.

Lemma RouteEntry_encode_segs e buf : RouteEntry_encode e buf = buf ++ concat (RouteEntry_segs e).
Proof. unfold RouteEntry_encode. encode_segs. Qed.

Lemma encode_entries_segs entries buf :
  fold_left (λ buf entry, RouteEntry_encode entry buf) entries buf =
  buf ++ entries_bytes entries.
Proof.
  unfold entries_bytes. revert buf. induction entries as [|e es IH]; intros buf; cbn [fold_left map concat]; [by rewrite app_nil_r|].
  by rewrite IH, RouteEntry_encode_segs, <- app_assoc.
Qed.

Lemma RouteUpdateFrame_encode_segs f buf :
  RouteUpdateFrame_encode f buf = buf ++ concat (RouteUpdateFrame_segs f).
Proof. unfold RouteUpdateFrame_encode. rewrite encode_entries_segs. encode_segs. Qed.

Lemma length_RouteEntry_segs e : RouteEntry_wf e → length (concat (RouteEntry_segs e)) = 22%nat.
Proof. intros [Hd Hm]. rewrite length_concat_segs. seg_lia. Qed.

Lemma length_entries_segs es :
  Forall RouteEntry_wf es → length (entries_bytes es) = (length es * 22)%nat.
Proof.
  unfold entries_bytes. induction 1 as [|e es He _ IH]; [done|]. cbn [map concat length].
  rewrite length_app, length_RouteEntry_segs, IH by done. lia.
Qed.

Lemma decode_entries_segs pre es rest :
  Forall RouteEntry_wf es →
  decode_entries (length es) (length pre)
    (pre ++ entries_bytes es ++ rest) =
  Ok (es, (length pre + length es * 22)%nat).
Proof.
  intros Hwf. revert pre. induction Hwf as [|e es [Hd Hm] Hes IH]; intros pre.
  { cbn [decode_entries length]. by rewrite Nat.add_0_r. }
  cbn [decode_entries length]. change (entries_bytes (e :: es)) with (concat (RouteEntry_segs e) ++ entries_bytes es).
  set (tl := entries_bytes es ++ rest).
  assert (Hb : pre ++ (concat (RouteEntry_segs e) ++ entries_bytes es) ++ rest =
    concat (pre :: RouteEntry_segs e) ++ tl) by (subst tl; cbn [concat]; by rewrite <- !app_assoc).
  rewrite Hb. seg 1%nat. seg 2%nat. seg 3%nat. seg 4%nat.
  specialize (IH (pre ++ concat (RouteEntry_segs e))).
  rewrite length_app, length_RouteEntry_segs in IH by done. unfold ENTRY_SIZE.
  cbn [concat]. rewrite <- !app_assoc in *. fold tl in IH. rewrite IH. cbn [obind].
  replace (length pre + 22 + length es * 22)%nat with (length pre + S (length es) * 22)%nat by lia.
  by destruct e as [[]].
Qed.

Lemma RouteUpdateFrame_roundtrip f rest :
  RouteUpdateFrame_wf f → RouteUpdateFrame_decode (RouteUpdateFrame_encode f [] ++ rest) = Ok (f, rest).
Proof.
  intros (Ho & Hq & Hes & Hn & Hsig). unfold MAX_ENTRIES in Hn. rewrite RouteUpdateFrame_encode_segs. cbn [app].
  pose proof (length_entries_segs _ Hes) as Hel.
  assert (Hl : be_value (be_bytes 2 (as_u16 (Z.of_nat (length (ru_entries f))))) = Z.of_nat (length (ru_entries f))).
  { rewrite as_u16_small by (unfold u16_ok; lia). apply be_value_be_bytes. lia. }
  assert (Hlen : length (concat (RouteUpdateFrame_segs f) ++ rest) = (90 + length (ru_entries f) * 22 + length rest)%nat).
  { rewrite length_app, length_concat_segs. seg_lia. }
  unfold RouteUpdateFrame_decode, ROUTE_HEADER_SIZE, ENTRY_SIZE, SIGNATURE_SIZE, MAX_ENTRIES.
  rewrite Hlen. rewrite bool_decide_eq_false_2 by lia.
  seg 0%nat. seg 1%nat. seg 2%nat. rewrite Hl, Nat2Z.id. rewrite (proj2 (Z.ltb_ge _ _)) by lia.
  rewrite bool_decide_eq_false_2 by lia.
  set (pre := concat (take 3 (RouteUpdateFrame_segs f))).
  assert (Hpre : length pre = 26%nat) by (unfold pre; rewrite length_concat_segs; seg_lia).
  assert (Hb : concat (RouteUpdateFrame_segs f) ++ rest =
    pre ++ entries_bytes (ru_entries f) ++ ru_signature f ++ rest).
  { unfold pre. cbn [RouteUpdateFrame_segs take concat]. rewrite <- !app_assoc. by rewrite !app_nil_l. }
  rewrite Hb at 1. replace 26%nat with (length pre). rewrite decode_entries_segs by done. rewrite Hpre. cbn [obind].
  seg 4%nat. erewrite (advance_segs 5) by seg_lia. cbn [obind drop RouteUpdateFrame_segs concat app].
  rewrite be_value_be_bytes by (unfold u64_ok in Hq; lia). by destruct f as [[]].
Qed.

Lemma decode_entries_total n off buf :
  (off + n * 22 ≤ length buf)%nat →
  ∃ es, decode_entries n off buf = Ok (es, (off + n * 22)%nat) ∧ length es = n.
Proof.
  revert off. induction n as [|n IH]; intros off Hn; cbn [decode_entries]; unfold ENTRY_SIZE.
  { exists []. by rewrite Nat.add_0_r. }
  destruct (IH (off + 22)%nat) as (es & He & Hl); [lia|].
  rewrite !slice_Ok by lia. destruct (@index_Ok PimError (off + 16) buf) as (h & -> & _); [lia|].
  destruct (@index_Ok PimError (off + 17) buf) as (g & -> & _); [lia|]. cbn [obind].
  rewrite He. cbn [obind]. replace (off + 22 + n * 22)%nat with (off + S n * 22)%nat by lia.
  eexists. split; [reflexivity|]. cbn [length]. lia.
Qed.

Lemma RouteUpdateFrame_total buf : RouteUpdateFrame_decode buf ≠ Panic.
Proof.
  unfold RouteUpdateFrame_decode, ROUTE_HEADER_SIZE, SIGNATURE_SIZE, ENTRY_SIZE. run; try done.
  destruct (decode_entries_total (Z.to_nat (be_value (take 2 (drop 24 buf)))) 26 buf) as (es & -> & _); [lia|].
  by run.
Qed.

(** What a decoded update satisfies, whoever sent it. *)
Lemma decode_entries_wf n off buf es off' :
  bytes_ok buf → decode_entries n off buf = Ok (es, off') →
  length es = n ∧ Forall (λ a, RouteEntry_wf a ∧ u8_ok (re_hops a)) es.
Proof.
  intros Hb. revert off es off'. induction n as [|n IH]; intros off es off'; cbn [decode_entries].
  { intros [= <- <-]. split; [done|constructor]. }
  intros (d & Hd & H)%obind_Ok_inv. apply obind_Ok_inv in H as (h & Hh & H). apply obind_Ok_inv in H as (g & _ & H).
  apply obind_Ok_inv in H as (ip & Hip & H). apply obind_Ok_inv in H as ([es1 off1] & He & [= <- <-]).
  destruct (IH _ _ _ He) as [Hl Hf]. split; [cbn; lia|]. constructor; [|done].
  apply slice_inv in Hd as [_ Hd]. apply slice_inv in Hip as [_ Hip]. split; [split; cbn [re_destination re_mesh_ip as_bytes]; lia|].
  by eapply index_u8_ok.
Qed.

Lemma RouteUpdateFrame_decode_wf buf f rest :
  bytes_ok buf → RouteUpdateFrame_decode buf = Ok (f, rest) →
  RouteUpdateFrame_wf f ∧ Forall (λ a, u8_ok (re_hops a)) (ru_entries f).
Proof.
  intros Hb. unfold RouteUpdateFrame_decode. case_bool_decide as Hx1; [done|].
  intros (o & Ho & H)%obind_Ok_inv. apply obind_Ok_inv in H as (sq & Hsq & H). apply obind_Ok_inv in H as (ec & Hec & H).
  revert H. destruct (Z.ltb_spec MAX_ENTRIES (be_value ec)) as [|Hmax]; [done|]. case_bool_decide as Hx2; [done|].
  intros ([es off] & He & H)%obind_Ok_inv. apply obind_Ok_inv in H as (sg & Hsg & H).
  apply obind_Ok_inv in H as (buf' & _ & [= <- _]). destruct (decode_entries_wf _ _ _ _ _ Hb He) as [Hl Hf].
  pose proof (be_value_bound sq (slice_bytes_ok _ _ _ _ Hb Hsq)) as Hbs.
  pose proof (be_value_bound ec (slice_bytes_ok _ _ _ _ Hb Hec)) as Hbe.
  apply slice_inv in Ho as [_ Ho]. apply slice_inv in Hsq as [_ Hsq]. apply slice_inv in Hsg as [_ Hsg]. rewrite Hsq in Hbs.
  split; [|eapply Forall_impl; [exact Hf|]; by intros a [_ ?]].
  unfold RouteUpdateFrame_wf. cbn [ru_origin_id ru_sequence ru_entries ru_signature as_bytes]. split_and!.
  - lia.
  - exact Hbs.
  - eapply Forall_impl; [exact Hf|]. by intros a [? _].
  - lia.
  - unfold SIGNATURE_SIZE in Hsg. lia.
Qed.

#[export] Program Instance RouteUpdateFrame_lawful : LawfulCodec RouteUpdateFrame :=
  {| frame_wf := RouteUpdateFrame_wf |}.
Next Obligation. intros. cbn [encode RouteUpdateFrame_codec]. by rewrite !RouteUpdateFrame_encode_segs. Qed.
Next Obligation. exact RouteUpdateFrame_roundtrip. Qed.
Next Obligation. exact RouteUpdateFrame_total. Qed.
Next Obligation.
  intros buf f rest. cbn [decode RouteUpdateFrame_codec].
  unfold RouteUpdateFrame_decode, ROUTE_HEADER_SIZE, SIGNATURE_SIZE, ENTRY_SIZE. run; try done.
  destruct (decode_entries_total (Z.to_nat (be_value (take 2 (drop 24 buf)))) 26 buf) as (es & -> & _); [lia|].
  run. intros [= <- <-]. eexists. split; [|split; [|reflexivity]]; lia.
Qed.
