(* ===== verification/Control.v ===== *)
(** * Control and handshake frames (crates/pim-protocol)

    [ControlFrame] (control_frame.rs) and [HandshakeWireFrame]
    (handshake_frame.rs), and what holds of all frame formats together. *)

From S2P Require Import Prelude Core Frames.

(** ** ControlFrame

    Strings are their UTF-8 bytes. *)
Inductive ControlType :=
| CtGoodbye | CtRekey | CtPing | CtPong | CtPeerInfo | CtPluginPayload.

Definition ControlType_as_u8 (t : ControlType) : Z :=
  match t with
  | CtGoodbye => 3 | CtRekey => 4 | CtPing => 5 | CtPong => 6 | CtPeerInfo => 7 | CtPluginPayload => 8
  end.

Definition ControlType_from_u8 (v : Z) : outcome PimError ControlType :=
  match v with
  | 3 => Ok CtGoodbye
  | 4 => Ok CtRekey
  | 5 => Ok CtPing
  | 6 => Ok CtPong
  | 7 => Ok CtPeerInfo
  | 8 => Ok CtPluginPayload
  | other => Err (Protocol (UnknownControlType other))
  end.

Inductive ControlFrame :=
| Goodbye (departing_id : NodeId) (reason : Z)
| Rekey
| Ping (nonce : Z)
| Pong (nonce : Z)
| PeerInfo (x25519_pub : list Z) (friendly_name : list Z)
| PluginPayload (kind : list Z) (body : list Z).

Definition ControlFrame_encode (f : ControlFrame) (buf : list Z) : list Z :=
  match f with
  | Goodbye departing_id reason =>
    let buf := put_u8 (ControlType_as_u8 CtGoodbye) buf in
    let buf := put_slice (as_bytes departing_id) buf in
    put_u8 reason buf
  | Rekey => put_u8 (ControlType_as_u8 CtRekey) buf
  | Ping nonce =>
    let buf := put_u8 (ControlType_as_u8 CtPing) buf in
    put_u64 nonce buf
  | Pong nonce =>
    let buf := put_u8 (ControlType_as_u8 CtPong) buf in
    put_u64 nonce buf
  | PeerInfo x25519_pub friendly_name =>
    let buf := put_u8 (ControlType_as_u8 CtPeerInfo) buf in
    let buf := put_slice x25519_pub buf in
    let name_len := Nat.min (length friendly_name) 255 in
    let buf := put_u8 (as_u8 (Z.of_nat name_len)) buf in
    put_slice (take name_len friendly_name) buf
  | PluginPayload kind body =>
    let buf := put_u8 (ControlType_as_u8 CtPluginPayload) buf in
    let kind_len := Nat.min (length kind) 255 in
    let buf := put_u8 (as_u8 (Z.of_nat kind_len)) buf in
    let buf := put_slice (take kind_len kind) buf in
    let body_len := Z.min (Z.of_nat (length body)) 65535 in
    let buf := put_u16 (as_u16 body_len) buf in
    put_slice (take (Z.to_nat body_len) body) buf
  end.

Definition decode_peer_info (buf : list Z) : outcome PimError (ControlFrame * list Z) :=
  if bool_decide (length buf < 34)%nat then Err (Protocol PeerInfoTooShort) else
  let? x25519_pub := slice 1 33 buf in
  let? nl := index 33 buf in
  let name_len := Z.to_nat nl in
  let total := (34 + name_len)%nat in
  if bool_decide (length buf < total)%nat
  then Err (Protocol (PeerInfoTruncated total (length buf))) else
  let? name := slice 34 total buf in
  if negb (from_utf8 name) then Err (Protocol PeerInfoNameNotUtf8) else
  let? buf := advance total buf in
  Ok (PeerInfo x25519_pub name, buf).

Definition decode_plugin_payload (buf : list Z) : outcome PimError (ControlFrame * list Z) :=
  if bool_decide (length buf < 4)%nat then Err (Protocol PluginPayloadTooShort) else
  let? kl := index 1 buf in
  let kind_len := Z.to_nat kl in
  let body_len_off := (2 + kind_len)%nat in
  if bool_decide (length buf < body_len_off + 2)%nat
  then Err (Protocol (PluginPayloadHeaderTruncated (body_len_off + 2) (length buf))) else
  let? kind := slice 2 body_len_off buf in
  if negb (from_utf8 kind) then Err (Protocol PluginPayloadKindNotUtf8) else
  let? bl := slice body_len_off (body_len_off + 2) buf in
  let body_len := Z.to_nat (be_value bl) in
  let total := (body_len_off + 2 + body_len)%nat in
  if bool_decide (length buf < total)%nat
  then Err (Protocol (PluginPayloadTruncated total (length buf))) else
  let? body := slice (body_len_off + 2) total buf in
  let? buf := advance total buf in
  Ok (PluginPayload kind body, buf).

Definition ControlFrame_decode (buf : list Z) : outcome PimError (ControlFrame * list Z) :=
  if bool_decide (length buf = 0)%nat then Err (Protocol ControlFrameEmpty) else
  let? tag := index 0 buf in
  let? control_type := ControlType_from_u8 tag in
  match control_type with
  | CtGoodbye =>
    if bool_decide (length buf < 18)%nat then Err (Protocol GoodbyeTooShort) else
    let? id := slice 1 17 buf in
    let? reason := index 17 buf in
    let? buf := advance 18 buf in
    Ok (Goodbye (from_bytes id) reason, buf)
  | CtRekey => let? buf := advance 1 buf in Ok (Rekey, buf)
  | CtPing =>
    if bool_decide (length buf < 9)%nat then Err (Protocol PingTooShort) else
    let? n := slice 1 9 buf in
    let? buf := advance 9 buf in
    Ok (Ping (be_value n), buf)
  | CtPong =>
    if bool_decide (length buf < 9)%nat then Err (Protocol PongTooShort) else
    let? n := slice 1 9 buf in
    let? buf := advance 9 buf in
    Ok (Pong (be_value n), buf)
  | CtPeerInfo => decode_peer_info buf
  | CtPluginPayload => decode_plugin_payload buf
  end.

#[export] Instance ControlFrame_codec : FrameCodec ControlFrame :=
  {| encode := ControlFrame_encode; decode := ControlFrame_decode |}.

(** The frames the format carries: names and kinds of at most 255 bytes, which
    as Rust strings are UTF-8, and bodies of at most 65535 bytes. *)
Definition ControlFrame_wf (f : ControlFrame) : Prop :=
  match f with
  | Goodbye id _ => length (as_bytes id) = 16%nat
  | Rekey => True
  | Ping n | Pong n => u64_ok n
  | PeerInfo pk name => length pk = 32%nat ∧ (length name ≤ 255)%nat ∧ from_utf8 name = true
  | PluginPayload kind body =>
    (length kind ≤ 255)%nat ∧ from_utf8 kind = true ∧ Z.of_nat (length body) ≤ 65535
  end.

Definition ControlFrame_segs (f : ControlFrame) : list (list Z) :=
  match f with
  | Goodbye id reason => [[3]; as_bytes id; [reason]]
  | Rekey => [[4]]
  | Ping n => [[5]; be_bytes 8 n]
  | Pong n => [[6]; be_bytes 8 n]
  | PeerInfo pk name => [[7]; pk; [Z.of_nat (length name)]; name]
  | PluginPayload kind body =>
    [[8]; [Z.of_nat (length kind)]; kind; be_bytes 2 (Z.of_nat (length body)); body]
  end.
#[export] Hint Unfold ControlFrame_segs : segs.

Lemma ControlFrame_encode_appends f buf :
  ControlFrame_encode f buf = buf ++ ControlFrame_encode f [].
Proof. destruct f; unfold ControlFrame_encode, put_u8, put_u16, put_u64, put_slice; cbn [app]; by rewrite <- ?app_assoc. Qed.

Lemma ControlFrame_encode_segs f :
  ControlFrame_wf f → ControlFrame_encode f [] = concat (ControlFrame_segs f).
Proof.
  destruct f as [id r| |n|n|pk name|kind body]; cbn [ControlFrame_wf]; intros Hwf; unfold ControlFrame_encode;
    cbn [ControlType_as_u8 ControlFrame_segs]; try encode_segs.
  - destruct Hwf as (_ & Hn & _). rewrite Nat.min_l, take_ge, as_u8_small by (unfold u8_ok; lia). encode_segs.
  - destruct Hwf as (Hk & _ & Hb). rewrite Nat.min_l, Z.min_l, Nat2Z.id, !take_ge by lia.
    rewrite as_u8_small, as_u16_small by (unfold u8_ok, u16_ok; lia). encode_segs.
Qed.

Lemma ControlFrame_roundtrip f rest :
  ControlFrame_wf f → ControlFrame_decode (ControlFrame_encode f [] ++ rest) = Ok (f, rest).
Proof.
  intros Hwf. rewrite ControlFrame_encode_segs by done. unfold ControlFrame_decode.
  assert (Hlen : length (concat (ControlFrame_segs f) ++ rest) = (seg_len (ControlFrame_segs f) + length rest)%nat).
  { by rewrite length_app, length_concat_segs. }
  rewrite bool_decide_eq_false_2 by (rewrite Hlen; destruct f; cbn; lia).
  destruct f as [id r| |n|n|pk name|kind body]; cbn [ControlFrame_wf] in Hwf;
    seg 0%nat; cbn [ControlType_from_u8 obind]; unfold decode_peer_info, decode_plugin_payload;
    rewrite ?Hlen; clear Hlen; cbn [ControlFrame_segs seg_len length]; rewrite ?length_be_bytes.
  - rewrite bool_decide_eq_false_2 by lia. seg 1%nat. seg 2%nat.
    erewrite (advance_segs 3) by seg_lia. cbn [obind drop ControlFrame_segs concat app]. by destruct id.
  - by erewrite (advance_segs 1) by seg_lia.
  - rewrite bool_decide_eq_false_2 by lia. seg 1%nat. erewrite (advance_segs 2) by seg_lia. cbn [obind].
    by rewrite be_value_be_bytes by (unfold u64_ok in Hwf; lia).
  - rewrite bool_decide_eq_false_2 by lia. seg 1%nat. erewrite (advance_segs 2) by seg_lia. cbn [obind].
    by rewrite be_value_be_bytes by (unfold u64_ok in Hwf; lia).
  - destruct Hwf as (Hp & Hn & Hu). rewrite bool_decide_eq_false_2 by lia. seg 1%nat. seg 2%nat.
    rewrite Nat2Z.id. rewrite bool_decide_eq_false_2 by lia. seg 3%nat. rewrite Hu. cbn [negb].
    by erewrite (advance_segs 4) by seg_lia.
  - destruct Hwf as (Hk & Hu & Hb). rewrite bool_decide_eq_false_2 by lia. seg 1%nat. rewrite Nat2Z.id.
    rewrite bool_decide_eq_false_2 by lia. seg 2%nat. rewrite Hu. cbn [negb]. seg 3%nat.
    rewrite be_value_be_bytes, Nat2Z.id by lia. rewrite bool_decide_eq_false_2 by lia. seg 4%nat.
    by erewrite (advance_segs 5) by seg_lia.
Qed.

Lemma ControlType_from_total v : ControlType_from_u8 v ≠ Panic.
Proof. unfold ControlType_from_u8. by repeat case_match. Qed.

Lemma ControlFrame_total buf : ControlFrame_decode buf ≠ Panic.
Proof.
  unfold ControlFrame_decode. run; try done. apply obind_total; [apply ControlType_from_total|].
  intros t _. destruct t; unfold decode_peer_info, decode_plugin_payload; by run.
Qed.

Lemma ControlFrame_consumes buf f rest :
  ControlFrame_decode buf = Ok (f, rest) → ∃ n, (0 < n)%nat ∧ (n ≤ length buf)%nat ∧ rest = drop n buf.
Proof.
  unfold ControlFrame_decode. run; try done. intros (t & _ & Hk)%obind_Ok_inv. revert Hk.
  destruct t; unfold decode_peer_info, decode_plugin_payload; run; try done; intros [= <- <-];
    (eexists; split; [|split; [|reflexivity]]; cbn [Nat.add Nat.sub] in *; lia).
Qed.

#[export] Program Instance ControlFrame_lawful : LawfulCodec ControlFrame :=
  {| frame_wf := ControlFrame_wf |}.
Next Obligation. exact ControlFrame_encode_appends. Qed.
Next Obligation. exact ControlFrame_roundtrip. Qed.
Next Obligation. exact ControlFrame_total. Qed.
Next Obligation. exact ControlFrame_consumes. Qed.

(** ** HandshakeWireFrame *)
Inductive HandshakeFrameType := HsInit | HsResponse | HsConfirm.
#[export] Instance HandshakeFrameType_eq_dec : EqDecision HandshakeFrameType.
Proof. solve_decision. Defined.

Definition HandshakeFrameType_as_u8 (t : HandshakeFrameType) : Z :=
  match t with HsInit => 0 | HsResponse => 1 | HsConfirm => 2 end.

Definition HandshakeFrameType_from_u8 (v : Z) : outcome PimError HandshakeFrameType :=
  match v with
  | 0 => Ok HsInit
  | 1 => Ok HsResponse
  | 2 => Ok HsConfirm
  | other => Err (Protocol (UnknownHandshakeType other))
  end.

Inductive HandshakeWireFrame :=
| InitOrResponse (handshake_type : HandshakeFrameType)
    (sender_pub ephemeral_pub nonce signature : list Z)
| Confirm (hmac : list Z).

Definition INIT_RESPONSE_SIZE : nat := 161.
Definition CONFIRM_SIZE : nat := 33.

Definition HandshakeWireFrame_encode (f : HandshakeWireFrame) (buf : list Z) : list Z :=
  match f with
  | InitOrResponse handshake_type sender_pub ephemeral_pub nonce signature =>
    let buf := put_u8 (HandshakeFrameType_as_u8 handshake_type) buf in
    let buf := put_slice sender_pub buf in
    let buf := put_slice ephemeral_pub buf in
    let buf := put_slice nonce buf in
    put_slice signature buf
  | Confirm hmac =>
    let buf := put_u8 (HandshakeFrameType_as_u8 HsConfirm) buf in
    put_slice hmac buf
  end.

Definition HandshakeWireFrame_decode (buf : list Z) : outcome PimError (HandshakeWireFrame * list Z) :=
  if bool_decide (length buf = 0)%nat then Err (Protocol HandshakeFrameEmpty) else
  let? tag := index 0 buf in
  let? handshake_type := HandshakeFrameType_from_u8 tag in
  match handshake_type with
  | HsInit | HsResponse =>
    if bool_decide (length buf < INIT_RESPONSE_SIZE)%nat
    then Err (Protocol (HandshakeInitTooShort (length buf))) else
    let? sender_pub := slice 1 33 buf in
    let? ephemeral_pub := slice 33 65 buf in
    let? nonce := slice 65 97 buf in
    let? signature := slice 97 161 buf in
    let? buf := advance INIT_RESPONSE_SIZE buf in
    Ok (InitOrResponse handshake_type sender_pub ephemeral_pub nonce signature, buf)
  | HsConfirm =>
    if bool_decide (length buf < CONFIRM_SIZE)%nat
    then Err (Protocol (HandshakeConfirmTooShort (length buf))) else
    let? hmac := slice 1 33 buf in
    let? buf := advance CONFIRM_SIZE buf in
    Ok (Confirm hmac, buf)
  end.

#[export] Instance HandshakeWireFrame_codec : FrameCodec HandshakeWireFrame :=
  {| encode := HandshakeWireFrame_encode; decode := HandshakeWireFrame_decode |}.

Definition HandshakeWireFrame_wf (f : HandshakeWireFrame) : Prop :=
  match f with
  | InitOrResponse t pk eph nonce sig =>
    t ≠ HsConfirm ∧ length pk = 32%nat ∧ length eph = 32%nat ∧ length nonce = 32%nat ∧ length sig = 64%nat
  | Confirm hmac => length hmac = 32%nat
  end.

Definition HandshakeWireFrame_segs (f : HandshakeWireFrame) : list (list Z) :=
  match f with
  | InitOrResponse t pk eph nonce sig => [[HandshakeFrameType_as_u8 t]; pk; eph; nonce; sig]
  | Confirm hmac => [[2]; hmac]
  end.
#[export] Hint Unfold HandshakeWireFrame_segs : segs.

Lemma HandshakeWireFrame_encode_segs f buf :
  HandshakeWireFrame_encode f buf = buf ++ concat (HandshakeWireFrame_segs f).
Proof.
  destruct f; unfold HandshakeWireFrame_encode; cbn [HandshakeWireFrame_segs HandshakeFrameType_as_u8]; encode_segs.
Qed.

Lemma HandshakeFrameType_from_as t : HandshakeFrameType_from_u8 (HandshakeFrameType_as_u8 t) = Ok t.
Proof. by destruct t. Qed.

Lemma HandshakeWireFrame_roundtrip f rest :
  HandshakeWireFrame_wf f →
  HandshakeWireFrame_decode (HandshakeWireFrame_encode f [] ++ rest) = Ok (f, rest).
Proof.
  intros Hwf. rewrite HandshakeWireFrame_encode_segs. cbn [app]. unfold HandshakeWireFrame_decode.
  assert (Hlen : length (concat (HandshakeWireFrame_segs f) ++ rest) =
    (seg_len (HandshakeWireFrame_segs f) + length rest)%nat) by by rewrite length_app, length_concat_segs.
  rewrite bool_decide_eq_false_2 by (rewrite Hlen; destruct f; cbn; lia).
  destruct f as [t pk eph nonce sig|hmac]; cbn [HandshakeWireFrame_wf] in Hwf; seg 0%nat;
    rewrite Hlen; clear Hlen; cbn [HandshakeWireFrame_segs seg_len length];
    unfold INIT_RESPONSE_SIZE, CONFIRM_SIZE.
  - destruct Hwf as (Ht & Hp & He & Hn & Hs). rewrite HandshakeFrameType_from_as. cbn [obind].
    destruct t; [| |done]; (rewrite bool_decide_eq_false_2 by lia; seg 1%nat; seg 2%nat; seg 3%nat; seg 4%nat;
      by erewrite (advance_segs 5) by seg_lia).
  - cbn [HandshakeFrameType_from_u8 obind]. rewrite bool_decide_eq_false_2 by lia. seg 1%nat.
    by erewrite (advance_segs 2) by seg_lia.
Qed.

Lemma HandshakeFrameType_from_total v : HandshakeFrameType_from_u8 v ≠ Panic.
Proof. unfold HandshakeFrameType_from_u8. by repeat case_match. Qed.

#[export] Program Instance HandshakeWireFrame_lawful : LawfulCodec HandshakeWireFrame :=
  {| frame_wf := HandshakeWireFrame_wf |}.
Next Obligation. intros. cbn [encode HandshakeWireFrame_codec]. by rewrite !HandshakeWireFrame_encode_segs. Qed.
Next Obligation. exact HandshakeWireFrame_roundtrip. Qed.
Next Obligation.
  intros buf. cbn [decode HandshakeWireFrame_codec].
  unfold HandshakeWireFrame_decode, INIT_RESPONSE_SIZE, CONFIRM_SIZE. run; try done.
  apply obind_total; [apply HandshakeFrameType_from_total|]. intros [] _; by run.
Qed.
Next Obligation.
  intros buf f rest. cbn [decode HandshakeWireFrame_codec].
  unfold HandshakeWireFrame_decode, INIT_RESPONSE_SIZE, CONFIRM_SIZE. run; try done.
  intros (t & _ & Hk)%obind_Ok_inv. revert Hk.
  destruct t; run; try done; intros [= <- <-]; (eexists; split; [|split; [|reflexivity]]; lia).
Qed.

(** ** The theorems on the wire formats *)

(** C39: Every wire format of the protocol round trips on the frames it can carry:
    a frame of any of the six kinds whose identifiers, keys, nonces and
    signatures have their fixed lengths and whose numbers fit their fields,
    with a payload of at most 1 MiB in a transport frame and below 64 KiB in a
    data frame, at most 1000 route entries, names and kinds that are UTF-8 of
    at most 255 bytes and plugin bodies of at most 65535, encoded and followed
    by anything, is decoded as itself and the rest of the buffer is left. *)
Theorem wire_formats_roundtrip rest :
  (∀ f, TransportFrame_wf f → TransportFrame_decode (TransportFrame_encode f [] ++ rest) = Ok (f, rest)) ∧
  (∀ f, MeshDataFrame_wf f → MeshDataFrame_decode (MeshDataFrame_encode f [] ++ rest) = Ok (f, rest)) ∧
  (∀ f, HeartbeatFrame_wf f → HeartbeatFrame_decode (HeartbeatFrame_encode f [] ++ rest) = Ok (f, rest)) ∧
  (∀ f, RouteUpdateFrame_wf f → RouteUpdateFrame_decode (RouteUpdateFrame_encode f [] ++ rest) = Ok (f, rest)) ∧
  (∀ f, ControlFrame_wf f → ControlFrame_decode (ControlFrame_encode f [] ++ rest) = Ok (f, rest)) ∧
  (∀ f, HandshakeWireFrame_wf f → HandshakeWireFrame_decode (HandshakeWireFrame_encode f [] ++ rest) = Ok (f, rest)).
Proof.
  split_and!; intros f Hwf; auto using TransportFrame_roundtrip, MeshDataFrame_roundtrip, HeartbeatFrame_roundtrip,
    RouteUpdateFrame_roundtrip, ControlFrame_roundtrip, HandshakeWireFrame_roundtrip.
Qed.

Definition sample_wire_id : NodeId := from_bytes (replicate 16 7).
Lemma wire_formats_roundtrip_witness :
  let tf := {| tf_frame_type := FrameData; tf_nonce := replicate 12 1; tf_payload := [1; 2; 3]; tf_tag := replicate 16 2 |} in
  let md := {| md_src_id := sample_wire_id; md_dst_id := sample_wire_id; md_session_id := 0; md_ttl := 8; md_flags := 0; md_payload := [4; 5] |} in
  let hb := {| hb_sender_id := sample_wire_id; hb_timestamp := 9; hb_gateway_hops := 0; hb_load := 3; hb_gw_x25519_pub := replicate 32 1 |} in
  let ru := {| ru_origin_id := sample_wire_id; ru_sequence := 4; ru_entries := [{| re_destination := sample_wire_id; re_hops := 0; re_flags := 1; re_mesh_ip := [10; 77; 0; 1] |}];
               ru_signature := replicate 64 6 |} in
  let hs := InitOrResponse HsInit (replicate 32 1) (replicate 32 2) (replicate 32 3) (replicate 64 4) in
  TransportFrame_decode (TransportFrame_encode tf [] ++ [0]) = Ok (tf, [0]) ∧
  MeshDataFrame_decode (MeshDataFrame_encode md [] ++ [0]) = Ok (md, [0]) ∧
  HeartbeatFrame_decode (HeartbeatFrame_encode hb [] ++ [0]) = Ok (hb, [0]) ∧
  RouteUpdateFrame_decode (RouteUpdateFrame_encode ru [] ++ [0]) = Ok (ru, [0]) ∧
  ControlFrame_decode (ControlFrame_encode (PeerInfo (replicate 32 1) [97; 98]) [] ++ [0]) = Ok (PeerInfo (replicate 32 1) [97; 98], [0]) ∧
  HandshakeWireFrame_decode (HandshakeWireFrame_encode hs [] ++ [0]) = Ok (hs, [0]).
Proof.
  intros tf md hb ru hs. destruct (wire_formats_roundtrip [0]) as (H1 & H2 & H3 & H4 & H5 & H6).
  split; [apply H1; by apply (bool_decide_unpack _); vm_compute|]. split; [apply H2; by apply (bool_decide_unpack _); vm_compute|].
  split; [apply H3; by apply (bool_decide_unpack _); vm_compute|]. split; [apply H4; by apply (bool_decide_unpack _); vm_compute|].
  split; [apply H5; by split_and!; [|apply (bool_decide_unpack _); vm_compute|]|]. apply H6. by split_and!.
Defined.

(** What a decoder promises on input from the network. *)
Definition robust {F} (dec : list Z → outcome PimError (F * list Z)) : Prop :=
  ∀ buf, dec buf ≠ Panic ∧
    ∀ f rest, dec buf = Ok (f, rest) → ∃ n, (0 < n ≤ length buf)%nat ∧ rest = drop n buf.

Lemma lawful_robust {F} `{L : LawfulCodec F} : robust (F:=F) decode.
Proof.
  intros buf. split; [apply decode_total|]. intros f rest Hd. destruct (decode_consumes _ _ _ Hd) as (n & ? & ? & ?). eauto.
Qed.

(** No decoder panics on any bytes from the network, and one that succeeds
    has consumed a prefix of the buffer that is not empty, so a reader that
    decodes in a loop makes progress. *)
Theorem decoders_robust :
  robust TransportFrame_decode ∧ robust MeshDataFrame_decode ∧ robust HeartbeatFrame_decode ∧
  robust RouteUpdateFrame_decode ∧ robust ControlFrame_decode ∧ robust HandshakeWireFrame_decode.
Proof.
  exact (conj (lawful_robust (F:=TransportFrame)) (conj (lawful_robust (F:=MeshDataFrame))
    (conj (lawful_robust (F:=HeartbeatFrame)) (conj (lawful_robust (F:=RouteUpdateFrame))
    (conj (lawful_robust (F:=ControlFrame)) (lawful_robust (F:=HandshakeWireFrame))))))).
Qed.
