(* ===== verification/Stream.v ===== *)
(** * Stream framing and the TCP read task

    The length-delimited codec (crates/pim-protocol/src/length_delimited.rs)
    and the loop of the TCP read task that feeds socket reads to it
    (crates/pim-transport/src/tcp.rs). *)

From S2P Require Import Prelude Core Frames.

(** ** LengthDelimitedCodec *)
Definition MAX_FRAME_SIZE : Z := 1048576.

Definition LengthDelimited_encode (payload buf : list Z) : list Z :=
  let buf := put_u32 (as_u32 (Z.of_nat (length payload))) buf in
  put_slice payload buf.

(** [Ok (None, buf)] is "more data needed"; the error also leaves [buf] as it was. *)
Definition LengthDelimited_decode (buf : list Z) : outcome PimError (option (list Z) * list Z) :=
  if bool_decide (length buf < 4)%nat then Ok (None, buf) else
  let? l := slice 0 4 buf in
  let length_field := be_value l in
  if MAX_FRAME_SIZE <? length_field then Err (Protocol (DelimitedFrameTooLarge length_field)) else
  let total := (4 + Z.to_nat length_field)%nat in
  if bool_decide (length buf < total)%nat then Ok (None, buf) else
  let? buf := advance 4 buf in
  let? (payload, buf) := split_to (Z.to_nat length_field) buf in
  Ok (Some payload, buf).

(** ** The read task

    [send] of [TcpTransport]: a frame is encoded, then length-delimited. *)
Definition wire_frame (f : TransportFrame) : list Z :=
  LengthDelimited_encode (TransportFrame_encode f []) [].

(** The inner loop of the read task: pop complete frames until more data is
    needed or the framing is broken.  A frame that does not decode is logged
    and skipped; a framing error leaves the loop with the buffer as it is.
    [fuel] bounds the iterations; every iteration that continues removes at
    least the four bytes of a length prefix, so the buffer's length is enough
    (see [decode_loop_fuel]). *)
Fixpoint decode_loop (fuel : nat) (buf : list Z) : list TransportFrame * list Z :=
  match fuel with
  | O => ([], buf)
  | S fuel =>
    match LengthDelimited_decode buf with
    | Ok (Some frame_bytes, buf) =>
      let '(frames, buf) := decode_loop fuel buf in
      match TransportFrame_decode frame_bytes with
      | Ok (frame, _) => (frame :: frames, buf)
      | _ => (frames, buf)
      end
    | _ => ([], buf)
    end
  end.

(** One turn of the outer loop: append what the socket gave, then decode. *)
Definition read_step (chunk buf : list Z) : list TransportFrame * list Z :=
  let buf := buf ++ chunk in decode_loop (length buf) buf.

Fixpoint read_task (chunks : list (list Z)) (buf : list Z) : list TransportFrame * list Z :=
  match chunks with
  | [] => ([], buf)
  | chunk :: chunks =>
    let '(frames, buf) := read_step chunk buf in
    let '(frames', buf) := read_task chunks buf in
    (frames ++ frames', buf)
  end.

(** ** Lemmas *)
Lemma LengthDelimited_total buf : LengthDelimited_decode buf ≠ Panic.
Proof. unfold LengthDelimited_decode. by run. Qed.

Lemma LengthDelimited_roundtrip payload rest :
  Z.of_nat (length payload) ≤ MAX_FRAME_SIZE →
  LengthDelimited_decode (LengthDelimited_encode payload [] ++ rest) = Ok (Some payload, rest).
Proof.
  unfold MAX_FRAME_SIZE. intros Hp. set (segs := [be_bytes 4 (as_u32 (Z.of_nat (length payload))); payload]).
  assert (He : LengthDelimited_encode payload [] = concat segs) by (unfold LengthDelimited_encode, segs; encode_segs).
  assert (Hl : be_value (be_bytes 4 (as_u32 (Z.of_nat (length payload)))) = Z.of_nat (length payload)).
  { rewrite as_u32_small by (unfold u32_ok; lia). apply be_value_be_bytes. lia. }
  assert (Hlen : length (concat segs ++ rest) = (4 + length payload + length rest)%nat).
  { rewrite length_app, length_concat_segs. unfold segs. seg_lia. }
  rewrite He. unfold LengthDelimited_decode, MAX_FRAME_SIZE. rewrite Hlen.
  rewrite bool_decide_eq_false_2 by lia. seg 0%nat. rewrite Hl, Nat2Z.id.
  rewrite (proj2 (Z.ltb_ge _ _)) by lia. rewrite bool_decide_eq_false_2 by lia.
  erewrite (advance_segs 1) by seg_lia. cbn [obind drop segs].
  by rewrite split_to_seg by done.
Qed.

(** A popped frame depends only on its own bytes: more data behind it changes
    nothing but what is left. *)
Lemma LengthDelimited_Some_app buf more payload rest :
  LengthDelimited_decode buf = Ok (Some payload, rest) →
  LengthDelimited_decode (buf ++ more) = Ok (Some payload, rest ++ more) ∧ (length rest < length buf)%nat.
Proof.
  unfold LengthDelimited_decode. run; try done. intros [= <- <-].
  rewrite bool_decide_eq_false_2 by len_lia. rewrite slice_Ok by len_lia. cbn [obind Nat.sub]. rewrite ?drop_0 in *.
  rewrite take_app_le by lia. rewrite Heqb. rewrite bool_decide_eq_false_2 by len_lia.
  rewrite advance_Ok by len_lia. cbn [obind]. rewrite split_to_Ok by len_lia. cbn [obind].
  rewrite !drop_drop, drop_app_le, take_app_le by len_lia. rewrite drop_app_le by lia.
  split; [done|]. len_lia.
Qed.

Lemma LengthDelimited_Err_app buf more e :
  LengthDelimited_decode buf = Err e → LengthDelimited_decode (buf ++ more) = Err e.
Proof.
  unfold LengthDelimited_decode. run; try done. intros [= <-].
  rewrite bool_decide_eq_false_2 by len_lia. rewrite slice_Ok by len_lia. cbn [obind Nat.sub]. rewrite ?drop_0 in *.
  rewrite take_app_le by lia. by rewrite Heqb.
Qed.

(** The buffer's length is enough fuel, and more changes nothing. *)
Lemma decode_loop_fuel n m buf :
  (length buf ≤ n)%nat → (length buf ≤ m)%nat → decode_loop n buf = decode_loop m buf.
Proof.
  revert m buf. induction n as [|n IH]; intros m buf Hn Hm.
  { apply Nat.le_0_r, nil_length_inv in Hn as ->. by destruct m. }
  destruct m as [|m]. { apply Nat.le_0_r, nil_length_inv in Hm as ->. done. }
  cbn [decode_loop]. destruct (LengthDelimited_decode buf) as [[[p|] r]| |] eqn:E; try done.
  destruct (LengthDelimited_Some_app buf [] p r E) as [_ Hlt]. by rewrite (IH m r) by lia.
Qed.

Definition drain (buf : list Z) : list TransportFrame * list Z := decode_loop (length buf) buf.

Lemma drain_unfold buf :
  drain buf =
  match LengthDelimited_decode buf with
  | Ok (Some frame_bytes, buf) =>
    let '(frames, buf) := drain buf in
    match TransportFrame_decode frame_bytes with
    | Ok (frame, _) => (frame :: frames, buf)
    | _ => (frames, buf)
    end
  | _ => ([], buf)
  end.
Proof.
  unfold drain at 1. rewrite (decode_loop_fuel _ (S (length buf))) by lia. cbn [decode_loop].
  destruct (LengthDelimited_decode buf) as [[[p|] r]| |] eqn:E; try done.
  destruct (LengthDelimited_Some_app buf [] p r E) as [_ Hlt]. unfold drain.
  by rewrite (decode_loop_fuel (length buf) (length r)) by lia.
Qed.

(** Draining after every read and draining once at the end agree. *)
Lemma drain_app buf more :
  drain (buf ++ more) =
  let '(fs, r) := drain buf in let '(fs', r') := drain (r ++ more) in (fs ++ fs', r').
Proof.
  induction buf as [buf IH] using (induction_ltof1 _ length). rewrite (drain_unfold buf).
  destruct (LengthDelimited_decode buf) as [[[p|] r]| |] eqn:E; [|by destruct (drain _)..].
  destruct (LengthDelimited_Some_app buf more p r E) as [Em Hlt].
  rewrite (drain_unfold (buf ++ more)), Em, (IH r Hlt). destruct (drain r) as [fs r0].
  destruct (TransportFrame_decode p) as [[f ?]| |]; by destruct (drain (r0 ++ more)).
Qed.

(** What a drain leaves holds no complete frame. *)
Lemma drain_rest buf : drain (drain buf).2 = ([], (drain buf).2).
Proof.
  induction buf as [buf IH] using (induction_ltof1 _ length). rewrite (drain_unfold buf).
  destruct (LengthDelimited_decode buf) as [[[p|] r]| |] eqn:E; cbn [snd]; [|by rewrite drain_unfold, E..].
  destruct (LengthDelimited_Some_app buf [] p r E) as [_ Hlt]. specialize (IH r Hlt).
  destruct (drain r) as [fs r0]. by destruct (TransportFrame_decode p) as [[f ?]| |].
Qed.

Lemma read_task_drain chunks buf :
  drain buf = ([], buf) → read_task chunks buf = drain (buf ++ concat chunks).
Proof.
  revert buf. induction chunks as [|c cs IH]; intros buf Hd; cbn [read_task concat]; [by rewrite app_nil_r|].
  unfold read_step. fold (drain (buf ++ c)). rewrite app_assoc, (drain_app (buf ++ c)).
  pose proof (drain_rest (buf ++ c)) as Hr. destruct (drain (buf ++ c)) as [fs r]. cbn [snd] in Hr.
  by rewrite (IH r Hr).
Qed.

Definition wire_fits (f : TransportFrame) : Prop :=
  TransportFrame_wf f ∧ Z.of_nat (length (tf_payload f)) ≤ MAX_FRAME_SIZE - 36.

Lemma length_TransportFrame_encode f :
  TransportFrame_wf f → length (TransportFrame_encode f []) = (36 + length (tf_payload f))%nat.
Proof.
  intros (Hn & Ht & _). rewrite TransportFrame_encode_segs. cbn [app]. rewrite length_concat_segs. seg_lia.
Qed.

Lemma drain_wire_frame f rest :
  wire_fits f → drain (wire_frame f ++ rest) = (f :: (drain rest).1, (drain rest).2).
Proof.
  intros [Hwf Hsz]. pose proof (length_TransportFrame_encode f Hwf). unfold MAX_FRAME_SIZE in Hsz.
  rewrite drain_unfold. unfold wire_frame. rewrite LengthDelimited_roundtrip by (unfold MAX_FRAME_SIZE; lia).
  pose proof (TransportFrame_roundtrip f [] Hwf) as Hrt. rewrite app_nil_r in Hrt. rewrite Hrt.
  by destruct (drain rest).
Qed.

Lemma read_task_frames (fs : list TransportFrame) (chunks : list (list Z)) :
  Forall wire_fits fs → concat chunks = concat (map wire_frame fs) → read_task chunks [] = (fs, []).
Proof.
  intros Hfs Hc. rewrite read_task_drain by done. cbn [app]. rewrite Hc. clear Hc chunks.
  induction Hfs as [|f fs Hf _ IH]; [done|]. cbn [map concat]. by rewrite drain_wire_frame, IH.
Qed.

(** ** Properties *)

(** the frames the TCP read task delivers depend only on the bytes of the
    stream, not on how the socket cuts them into reads: feeding any chunks is
    feeding their concatenation. *)
Theorem read_task_chunking (chunks : list (list Z)) :
  read_task chunks [] = read_task [concat chunks] [].
Proof.
  rewrite !read_task_drain by done. cbn [app concat]. by rewrite app_nil_r.
Qed.

(** frames that fit, written one after the other by [send], are delivered in
    order and without loss however the stream is cut, and the read buffer is
    empty at the end. *)
Theorem stream_delivery (fs : list TransportFrame) (chunks : list (list Z)) :
  Forall wire_fits fs → concat chunks = concat (map wire_frame fs) → read_task chunks [] = (fs, []).
Proof. apply read_task_frames. Qed.

Lemma stream_delivery_witness :
  let f := {| tf_frame_type := FrameData; tf_nonce := replicate 12 1; tf_payload := [7; 8; 9]; tf_tag := replicate 16 2 |} in
  read_task [take 10 (wire_frame f); drop 10 (wire_frame f) ++ wire_frame f] [] = ([f; f], []).
Proof. intros f. apply stream_delivery; [|vm_compute; reflexivity].
  assert (wire_fits f) by by (apply (bool_decide_unpack _); by vm_compute). by rewrite !Forall_cons. Defined.

(** a length prefix above the limit is never consumed: from then on the read
    task delivers nothing, whatever the peer sends, and keeps every byte it
    reads. *)
Theorem framing_error_is_permanent (buf : list Z) (e : PimError) (chunks : list (list Z)) :
  LengthDelimited_decode buf = Err e → read_task chunks buf = ([], buf ++ concat chunks).
Proof.
  intros He. assert (Hd : drain buf = ([], buf)) by by rewrite drain_unfold, He.
  rewrite read_task_drain by done. by rewrite drain_unfold, (LengthDelimited_Err_app _ _ _ He).
Qed.

Lemma framing_error_is_permanent_witness :
  read_task [[1]; [2; 3]] [0; 16; 0; 1] = ([], [0; 16; 0; 1; 1; 2; 3]).
Proof. eapply (framing_error_is_permanent [0; 16; 0; 1]). vm_compute. reflexivity. Defined.

(** a transport frame whose payload is over the framing limit less the 36
    bytes of envelope is well formed for the envelope codec, but its framed form
    is a framing error for the receiver. *)
Theorem oversized_frame_breaks_stream (f : TransportFrame) (rest : list Z) :
  TransportFrame_wf f → MAX_FRAME_SIZE - 36 < Z.of_nat (length (tf_payload f)) →
  LengthDelimited_decode (wire_frame f ++ rest) =
    Err (Protocol (DelimitedFrameTooLarge (Z.of_nat (36 + length (tf_payload f))))).
Proof.
  intros Hwf Hsz. pose proof (length_TransportFrame_encode f Hwf) as Hl. destruct Hwf as (_ & _ & Hp).
  unfold MAX_FRAME_SIZE, MAX_PAYLOAD_SIZE in *.
  set (segs := [be_bytes 4 (as_u32 (Z.of_nat (length (TransportFrame_encode f [])))); TransportFrame_encode f []]).
  assert (He : wire_frame f = concat segs) by (unfold wire_frame, LengthDelimited_encode, segs; encode_segs).
  rewrite He. unfold LengthDelimited_decode, MAX_FRAME_SIZE.
  rewrite bool_decide_eq_false_2 by (rewrite length_app, length_concat_segs; unfold segs; seg_lia).
  seg 0%nat. rewrite Hl, as_u32_small, be_value_be_bytes by (unfold u32_ok; lia).
  by rewrite (proj2 (Z.ltb_lt _ _)) by lia.
Qed.
