(* ===== verification/Fragment.v ===== *)
(** * Fragmentation and reassembly

    [FragmentFrame] and [fragment_packet] (crates/pim-protocol/src/fragment_frame.rs)
    and [Reassembler] (crates/pim-protocol/src/reassembler.rs). *)

From S2P Require Import Prelude Core.

(** ** FragmentFrame *)
Definition MAX_FRAGMENT_PAYLOAD : nat := 1200.
Definition FRAGMENT_HEADER_SIZE : nat := 8.

Record FragmentFrame := {
  fragment_id : Z;
  fragment_offset : Z;
  total_length : Z;
  fr_payload : list Z;
}.
#[export] Instance FragmentFrame_eq_dec : EqDecision FragmentFrame.
Proof. solve_decision. Defined.

Definition FragmentFrame_serialize (f : FragmentFrame) : list Z :=
  be_bytes 4 (fragment_id f) ++ be_bytes 2 (fragment_offset f) ++ be_bytes 2 (total_length f) ++ fr_payload f.

(** [None] of the source is [Err tt]. *)
Definition FragmentFrame_deserialize (buf : list Z) : outcome unit FragmentFrame :=
  if bool_decide (length buf < FRAGMENT_HEADER_SIZE)%nat then Err tt else
  let? i := slice 0 4 buf in
  let? o := slice 4 6 buf in
  let? t := slice 6 8 buf in
  let? payload := slice 8 (length buf) buf in
  let fend := be_value o + Z.of_nat (length payload) in
  if be_value t <? fend then Err tt else
  Ok {| fragment_id := be_value i; fragment_offset := be_value o; total_length := be_value t;
        fr_payload := payload |}.

Definition FragmentFrame_is_last (f : FragmentFrame) : bool :=
  fragment_offset f + Z.of_nat (length (fr_payload f)) =? total_length f.

(** The [while offset < data.len()] loop; each turn moves [offset] forward, so
    [data.len()] turns are enough ([fragment_loop_tiles]). *)
Fixpoint fragment_loop (fuel : nat) (data : list Z) (id total : Z) (offset : nat) : list FragmentFrame :=
  match fuel with
  | O => []
  | S fuel =>
    if bool_decide (offset < length data)%nat then
      let fend := Nat.min (offset + MAX_FRAGMENT_PAYLOAD) (length data) in
      {| fragment_id := id; fragment_offset := as_u16 (Z.of_nat offset); total_length := total;
         fr_payload := take (fend - offset) (drop offset data) |}
      :: fragment_loop fuel data id total fend
    else []
  end.

Definition fragment_packet (data : list Z) (id : Z) : list FragmentFrame :=
  match data with
  | [] => []
  | _ => fragment_loop (length data) data id (as_u16 (Z.of_nat (length data))) 0
  end.

(** ** Reassembler

    A [BTreeMap<u16, Bytes>] is its list of entries in key order; [Instant]s
    are integers, read from the [now] argument. *)
Definition chunk_map := list (Z * list Z).

Record ReassemblyBuffer := {
  rb_total_length : Z;
  rb_chunks : chunk_map;
  rb_created_at : Z;
}.

Definition ReassemblyBuffer_new (total now : Z) : ReassemblyBuffer :=
  {| rb_total_length := total; rb_chunks := []; rb_created_at := now |}.

(** [chunks.entry(offset)]: a vacant entry is filled, an occupied one kept. *)
Fixpoint chunks_insert (offset : Z) (payload : list Z) (l : chunk_map) : chunk_map :=
  match l with
  | [] => [(offset, payload)]
  | (k, v) :: l' =>
    if offset <? k then (offset, payload) :: (k, v) :: l'
    else if offset =? k then (k, v) :: l'
    else (k, v) :: chunks_insert offset payload l'
  end.

(** The first pass: how far the bytes are covered without a gap, or [None] on
    a gap or a chunk past the declared total. *)
Fixpoint covered (l : chunk_map) (total covered_up_to : nat) : option nat :=
  match l with
  | [] => Some covered_up_to
  | (offset, chunk) :: l' =>
    let start := Z.to_nat offset in
    if bool_decide (covered_up_to < start)%nat then None else
    let fend := (start + length chunk)%nat in
    if bool_decide (total < fend)%nat then None else
    covered l' total (if bool_decide (covered_up_to < fend)%nat then fend else covered_up_to)
  end.

(** The second pass. *)
Fixpoint copy_chunks (l : chunk_map) (buf : list Z) : outcome PimError (list Z) :=
  match l with
  | [] => Ok buf
  | (offset, chunk) :: l' =>
    let start := Z.to_nat offset in
    let? buf := copy_from_slice start (start + length chunk) chunk buf in
    copy_chunks l' buf
  end.

Definition try_reassemble (b : ReassemblyBuffer) : outcome PimError (option (list Z)) :=
  let total := Z.to_nat (rb_total_length b) in
  match covered (rb_chunks b) total 0 with
  | None => Ok None
  | Some c =>
    if negb (bool_decide (c = total)) then Ok None else
    let? buf := copy_chunks (rb_chunks b) (replicate total 0) in Ok (Some buf)
  end.

Definition ReassemblyBuffer_is_expired (b : ReassemblyBuffer) (timeout now : Z) : bool :=
  timeout <=? elapsed now (rb_created_at b).

Record Reassembler := {
  ra_timeout : Z;
  ra_buffers : gmap Z ReassemblyBuffer;
}.

(** Durations in milliseconds. *)
Definition DEFAULT_REASSEMBLY_TIMEOUT : Z := 10000.
Definition Reassembler_new : Reassembler :=
  {| ra_timeout := DEFAULT_REASSEMBLY_TIMEOUT; ra_buffers := ∅ |}.
Definition with_timeout (timeout : Z) : Reassembler :=
  {| ra_timeout := timeout; ra_buffers := ∅ |}.

Definition Reassembler_insert (now : Z) (frame : FragmentFrame) (r : Reassembler)
  : outcome PimError (option (list Z) * Reassembler) :=
  let id := fragment_id frame in
  let buf := default (ReassemblyBuffer_new (total_length frame) now) (ra_buffers r !! id) in
  let with_buf b := {| ra_timeout := ra_timeout r; ra_buffers := <[id := b]> (ra_buffers r) |} in
  if negb (rb_total_length buf =? total_length frame) then Ok (None, with_buf buf) else
  let buf := {| rb_total_length := rb_total_length buf;
                rb_chunks := chunks_insert (fragment_offset frame) (fr_payload frame) (rb_chunks buf);
                rb_created_at := rb_created_at buf |} in
  let? res := try_reassemble buf in
  match res with
  | Some packet => Ok (Some packet, {| ra_timeout := ra_timeout r; ra_buffers := delete id (ra_buffers r) |})
  | None => Ok (None, with_buf buf)
  end.

Definition Reassembler_expire_stale (now : Z) (r : Reassembler) : Reassembler :=
  {| ra_timeout := ra_timeout r;
     ra_buffers := filter (λ '(_, b), negb (ReassemblyBuffer_is_expired b (ra_timeout r) now) = true) (ra_buffers r) |}.

Definition buffer_count (r : Reassembler) : nat := size (ra_buffers r).

(** Feeding a sequence of frames: the packets that came out and the final state. *)
Fixpoint insert_all (now : Z) (frames : list FragmentFrame) (r : Reassembler)
  : outcome PimError (list (list Z) * Reassembler) :=
  match frames with
  | [] => Ok ([], r)
  | f :: frames =>
    let? (res, r) := Reassembler_insert now f r in
    let? (packets, r) := insert_all now frames r in
    Ok (match res with Some p => p :: packets | None => packets end, r)
  end.

(** ** Lemmas: the wire form of a fragment *)
Definition FragmentFrame_wf (f : FragmentFrame) : Prop :=
  u32_ok (fragment_id f) ∧ u16_ok (fragment_offset f) ∧ u16_ok (total_length f) ∧
  fragment_offset f + Z.of_nat (length (fr_payload f)) ≤ total_length f.

Lemma FragmentFrame_roundtrip f :
  FragmentFrame_wf f → FragmentFrame_deserialize (FragmentFrame_serialize f) = Ok f.
Proof.
  intros (Hi & Ho & Ht & Hend). unfold u32_ok, u16_ok in *.
  set (segs := [be_bytes 4 (fragment_id f); be_bytes 2 (fragment_offset f); be_bytes 2 (total_length f); fr_payload f]).
  assert (Hs : FragmentFrame_serialize f = concat segs ++ []).
  { unfold FragmentFrame_serialize, segs. cbn [concat]. by rewrite !app_nil_r. }
  assert (Hl : length (concat segs ++ []) = (8 + length (fr_payload f))%nat).
  { rewrite app_nil_r, length_concat_segs. unfold segs. seg_lia. }
  rewrite Hs. unfold FragmentFrame_deserialize, FRAGMENT_HEADER_SIZE. rewrite Hl.
  rewrite bool_decide_eq_false_2 by lia. seg 0%nat. seg 1%nat. seg 2%nat. seg 3%nat.
  rewrite !be_value_be_bytes by lia. rewrite (proj2 (Z.ltb_ge _ _)) by lia. by destruct f.
Qed.

Lemma FragmentFrame_total buf : FragmentFrame_deserialize buf ≠ Panic.
Proof. unfold FragmentFrame_deserialize, FRAGMENT_HEADER_SIZE. by run. Qed.

(** ** Lemmas: reassembly is sound for any chunks *)
Definition covers (p : nat) (c : Z * list Z) : Prop :=
  (Z.to_nat c.1 ≤ p)%nat ∧ (p < Z.to_nat c.1 + length c.2)%nat.

Lemma covered_spec l total c c' :
  covered l total c = Some c' → (c ≤ total)%nat →
  (c ≤ c')%nat ∧ (c' ≤ total)%nat ∧
  (∀ p, (c ≤ p)%nat → (p < c')%nat → Exists (covers p) l) ∧
  Forall (λ oc, (Z.to_nat oc.1 + length oc.2 ≤ total)%nat) l.
Proof.
  revert c. induction l as [|[o ch] l IH]; intros c; cbn [covered].
  { intros [= <-]. repeat split; [lia|lia|intros; lia|constructor]. }
  case_bool_decide as Hgap; [done|]. case_bool_decide as Hend; [done|]. intros Hc Hct.
  apply IH in Hc as (H1 & H2 & H3 & H4); [|case_bool_decide; lia].
  repeat split; [case_bool_decide; lia|lia| |constructor; [cbn; lia|done]].
  intros p Hp Hp'. destruct (decide (p < Z.to_nat o + length ch)%nat).
  - apply Exists_cons_hd. split; cbn; lia.
  - apply Exists_cons_tl, H3; [case_bool_decide; lia|lia].
Qed.

Lemma copy_chunks_spec l buf :
  Forall (λ oc, (Z.to_nat oc.1 + length oc.2 ≤ length buf)%nat) l →
  ∃ out, copy_chunks l buf = Ok out ∧ length out = length buf ∧
  ∀ p, (out !! p = buf !! p ∧ ¬ Exists (covers p) l) ∨
       (∃ oc, oc ∈ l ∧ covers p oc ∧ out !! p = oc.2 !! (p - Z.to_nat oc.1)%nat).
Proof.
  revert buf. induction l as [|[o ch] l IH]; intros buf Hl; cbn [copy_chunks].
  { exists buf. split; [done|]. split; [done|]. intros p. left. split; [done|]. intros HE; inversion HE. }
  inversion Hl as [|? ? Ho Hl']; subst. cbn in Ho.
  rewrite copy_from_slice_Ok by lia. cbn [obind].
  set (buf' := take _ buf ++ ch ++ _).
  assert (Hlen : length buf' = length buf) by (apply length_splice; lia).
  destruct (IH buf') as (out & He & Hlo & Hp). { by rewrite Hlen. }
  exists out. split; [done|]. split; [lia|]. intros p. destruct (Hp p) as [[Heq Hn]|(oc & Hin & Hc & Heq)].
  - unfold buf' in Heq. rewrite lookup_splice in Heq by lia. case_bool_decide as Hcov.
    + right. exists (o, ch). split; [by apply list_elem_of_here|]. by split.
    + left. split; [done|]. rewrite Exists_cons. intros [Hc|Hc]; [by apply Hcov|done].
  - right. exists oc. split; [by apply list_elem_of_further|]. done.
Qed.

Lemma try_reassemble_total b : try_reassemble b ≠ Panic.
Proof.
  unfold try_reassemble. destruct (covered _ _ _) as [c|] eqn:Hc; [|done].
  apply covered_spec in Hc as (_ & _ & _ & Hl); [|lia].
  case_bool_decide; [|done]. cbn [negb].
  destruct (copy_chunks_spec (rb_chunks b) (replicate (Z.to_nat (rb_total_length b)) 0)) as (out & -> & _); [|done].
  by rewrite length_replicate.
Qed.

(** The chunks stored for a buffer keep their offsets distinct and in order. *)
Definition chunks_sorted : chunk_map → Prop := StronglySorted (λ a b, a.1 < b.1).

Lemma elem_of_chunks_insert o p l c :
  c ∈ chunks_insert o p l → c = (o, p) ∨ c ∈ l.
Proof.
  induction l as [|[k v] l IH]; cbn [chunks_insert]; [set_solver|].
  intros Hc. destruct (o <? k); [|destruct (o =? k)]; rewrite ?elem_of_cons in *; intuition.
Qed.

Lemma chunks_insert_sorted o p l : chunks_sorted l → chunks_sorted (chunks_insert o p l).
Proof.
  unfold chunks_sorted. induction 1 as [|[k v] l Hs IH Hf]; cbn [chunks_insert]; [by repeat constructor|].
  destruct (Z.ltb_spec o k).
  { constructor; [by constructor|]. constructor; [done|]. eapply Forall_impl; [exact Hf|]. cbn. intros; lia. }
  destruct (Z.eqb_spec o k); [by constructor|]. constructor; [done|].
  apply Forall_forall. intros c [->|Hc]%elem_of_chunks_insert; [cbn; lia|].
  rewrite Forall_forall in Hf. by apply Hf.
Qed.

(** ** Lemmas: a fragmented packet tiles the data *)
Definition chunk_of (f : FragmentFrame) : Z * list Z := (fragment_offset f, fr_payload f).

Inductive tiles (data : list Z) : nat → chunk_map → Prop :=
| tiles_nil : tiles data (length data) []
| tiles_cons o e l :
    (o < e)%nat → (e ≤ length data)%nat → tiles data e l →
    tiles data o ((Z.of_nat o, take (e - o) (drop o data)) :: l).

Lemma tiles_bound data o l : tiles data o l → (o ≤ length data)%nat.
Proof. induction 1; lia. Qed.

Lemma tiles_keys data o l : tiles data o l → Forall (λ c, Z.of_nat o ≤ c.1) l.
Proof.
  induction 1 as [|o e l Hoe He Ht IH]; constructor; [done|].
  eapply Forall_impl; [exact IH|]. cbn. intros; lia.
Qed.

Lemma tiles_sorted data o l : tiles data o l → chunks_sorted l.
Proof.
  induction 1 as [|o e l Hoe He Ht IH]; constructor; [done|].
  apply tiles_keys in Ht. eapply Forall_impl; [exact Ht|]. cbn. intros; lia.
Qed.

Lemma fragment_loop_tiles fuel data id total o :
  (length data ≤ o + fuel)%nat → (o ≤ length data)%nat → Z.of_nat (length data) < 2 ^ 16 →
  tiles data o (map chunk_of (fragment_loop fuel data id total o)).
Proof.
  intros Hf Ho Hmax. revert o Hf Ho. induction fuel as [|fuel IH]; intros o Hf Ho; cbn [fragment_loop].
  { replace o with (length data) by lia. constructor. }
  case_bool_decide; cbn [map]; [|replace o with (length data) by lia; constructor].
  unfold chunk_of at 1. cbn [fragment_offset fr_payload]. rewrite as_u16_small by (unfold u16_ok; lia).
  unfold MAX_FRAGMENT_PAYLOAD in *. constructor; [lia..|]. apply IH; lia.
Qed.

Lemma fragment_packet_tiles data id :
  Z.of_nat (length data) < 2 ^ 16 → data ≠ [] → tiles data 0 (map chunk_of (fragment_packet data id)).
Proof.
  intros Hmax Hne. destruct data as [|z data]; [done|]. unfold fragment_packet. by apply fragment_loop_tiles; [lia..|].
Qed.

(** Inserting a tile into the received part of a tiling marks it received. *)
Lemma chunks_insert_filter (f : Z * list Z → bool) all c :
  chunks_sorted all → c ∈ all →
  chunks_insert c.1 c.2 (List.filter f all) = List.filter (λ x, f x || bool_decide (x = c)) all.
Proof.
  unfold chunks_sorted. induction 1 as [|a all Hs IH Hf]; [by rewrite elem_of_nil|].
  rewrite Forall_forall in Hf. intros [->|Hc]%elem_of_cons.
  - assert (Hrest : List.filter (λ x, f x || bool_decide (x = a)) all = List.filter f all).
    { apply filter_ext_in. intros x Hx%list_elem_of_In. rewrite bool_decide_eq_false_2; [by rewrite orb_false_r|].
      intros ->. specialize (Hf a Hx). lia. }
    cbn [List.filter]. rewrite Hrest, bool_decide_eq_true_2, orb_true_r by done. destruct a as [k v].
    destruct (f (k, v)); cbn [chunks_insert fst snd].
    + by rewrite Z.ltb_irrefl, Z.eqb_refl.
    + destruct (List.filter f all) as [|[k' v'] l'] eqn:E; [done|]. cbn [chunks_insert].
      assert (Hin : (k', v') ∈ all).
      { apply list_elem_of_In, (proj1 (filter_In f _ all)). rewrite E. by left. }
      specialize (Hf _ Hin). cbn in Hf. by rewrite (proj2 (Z.ltb_lt _ _)) by lia.
  - specialize (Hf c Hc). cbn [List.filter]. destruct a as [k v]. cbn in Hf.
    rewrite (bool_decide_eq_false_2 ((k, v) = c)) by (intros <-; cbn in Hf; lia). rewrite orb_false_r.
    destruct (f (k, v)); [|by apply IH]. cbn [chunks_insert].
    rewrite (proj2 (Z.ltb_ge _ _)), (proj2 (Z.eqb_neq _ _)) by lia. f_equal. by apply IH.
Qed.

(** The first pass accepts the received part of a tiling exactly when every
    tile is there. *)
Lemma covered_filter (f : Z * list Z → bool) data o all :
  tiles data o all →
  match covered (List.filter f all) (length data) o with
  | Some c => c = length data ↔ forallb f all = true
  | None => forallb f all = false
  end.
Proof.
  induction 1 as [|o e l Hoe He Ht IH]; [done|]. cbn [List.filter forallb].
  set (c := (Z.of_nat o, take (e - o) (drop o data))). destruct (f c).
  - cbn [covered c]. rewrite Nat2Z.id, length_take, length_drop.
    rewrite bool_decide_eq_false_2 by lia. rewrite bool_decide_eq_false_2 by lia.
    rewrite bool_decide_eq_true_2 by lia. replace (o + _)%nat with e by lia. exact IH.
  - pose proof (tiles_keys _ _ _ Ht) as Hk. rewrite Forall_forall in Hk. cbn [andb].
    destruct (List.filter f l) as [|[k v] l'] eqn:E; cbn [covered]; [split; [lia|done]|].
    assert (Hin : (k, v) ∈ l). { apply list_elem_of_In, (proj1 (filter_In f _ l)). rewrite E. by left. }
    specialize (Hk _ Hin). cbn in Hk. by rewrite bool_decide_eq_true_2 by lia.
Qed.

(** The second pass rebuilds the data from its tiles. *)
Lemma copy_chunks_tiles data o all buf :
  tiles data o all → length buf = length data → take o buf = take o data →
  copy_chunks all buf = Ok data.
Proof.
  intros Ht. revert buf. induction Ht as [|o e l Hoe He Ht IH]; intros buf Hl Hp; cbn [copy_chunks].
  { rewrite !take_ge in Hp by lia. by rewrite Hp. }
  rewrite Nat2Z.id, length_take, length_drop. replace (o + _)%nat with e by lia.
  rewrite copy_from_slice_Ok; [|lia|lia|by rewrite length_take, length_drop; lia]. cbn [obind].
  apply IH.
  - rewrite length_splice; [done|lia|lia|by rewrite length_take, length_drop; lia].
  - rewrite Hp, app_assoc. rewrite take_take_drop. replace (o + (e - o))%nat with e by lia.
    rewrite take_app_length' by (rewrite length_take; lia). done.
Qed.

Lemma try_reassemble_tiles (f : Z * list Z → bool) data all t :
  tiles data 0 all →
  try_reassemble {| rb_total_length := Z.of_nat (length data); rb_chunks := List.filter f all; rb_created_at := t |}
  = Ok (if forallb f all then Some data else None).
Proof.
  intros Ht. unfold try_reassemble. cbn [rb_total_length rb_chunks]. rewrite Nat2Z.id.
  pose proof (covered_filter f data 0 all Ht) as Hc.
  destruct (covered _ _ _) as [c|]; [|by rewrite Hc]. case_bool_decide as Heq; cbn [negb].
  - rewrite (proj1 Hc Heq). rewrite (proj2 (filter_ext_in_iff f (λ _, true) all)).
    + rewrite filter_true. by rewrite (copy_chunks_tiles data 0 all) by (done || by rewrite length_replicate).
    + intros x Hx. by apply (proj1 (forallb_forall f all) (proj1 Hc Heq)).
  - destruct (forallb f all) eqn:E; [|done]. by destruct Heq; apply Hc.
Qed.

Lemma fragment_loop_fields fuel data id total o g :
  g ∈ fragment_loop fuel data id total o → fragment_id g = id ∧ total_length g = total.
Proof.
  revert o. induction fuel as [|fuel IH]; intros o; cbn [fragment_loop]; [by rewrite elem_of_nil|].
  case_bool_decide; [|by rewrite elem_of_nil]. intros [->|Hg]%elem_of_cons; [done|by apply IH in Hg].
Qed.

Lemma fragment_packet_fields data id g :
  Z.of_nat (length data) < 2 ^ 16 → g ∈ fragment_packet data id →
  fragment_id g = id ∧ total_length g = Z.of_nat (length data).
Proof.
  intros Hmax. unfold fragment_packet. destruct data as [|z data]; [by rewrite elem_of_nil|].
  intros Hg%fragment_loop_fields. by rewrite as_u16_small in Hg by (unfold u16_ok; lia).
Qed.

Lemma insert_all_app now fs gs r :
  insert_all now (fs ++ gs) r =
  let? (p1, r1) := insert_all now fs r in let? (p2, r2) := insert_all now gs r1 in Ok (p1 ++ p2, r2).
Proof.
  revert r. induction fs as [|f fs IH]; intros r; cbn [app insert_all obind].
  { by destruct (insert_all now gs r) as [[]| |]. }
  destruct (Reassembler_insert now f r) as [[res r0]| |]; [|done|done]. cbn [obind]. rewrite IH.
  destruct (insert_all now fs r0) as [[p1 r1]| |]; [|done|done]. cbn [obind].
  destruct (insert_all now gs r1) as [[p2 r2]| |]; [|done|done]. cbn [obind]. by destruct res.
Qed.

(** The state of a reassembler that has received the fragments [fs] of [data]. *)
Section Reassembly.
Context (now : Z) (data : list Z) (id : Z).
Context (Hmax : Z.of_nat (length data) < 2 ^ 16) (Hne : data ≠ []).

Definition received (fs : list FragmentFrame) (c : Z * list Z) : bool :=
  bool_decide (c ∈ map chunk_of fs).

Definition holds (fs : list FragmentFrame) (r : Reassembler) : Prop :=
  ∃ t, default (ReassemblyBuffer_new (Z.of_nat (length data)) now) (ra_buffers r !! id) =
    {| rb_total_length := Z.of_nat (length data);
       rb_chunks := List.filter (received fs) (map chunk_of (fragment_packet data id));
       rb_created_at := t |}.

Lemma received_cons g fs x : received fs x || bool_decide (x = chunk_of g) = received (g :: fs) x.
Proof.
  unfold received. cbn [map]. repeat case_bool_decide; rewrite ?elem_of_cons in *; intuition.
Qed.

Lemma holds_nil r : ra_buffers r !! id = None → holds [] r.
Proof.
  intros Hn. exists now. rewrite Hn. cbn [default from_option ReassemblyBuffer_new]. unfold ReassemblyBuffer_new.
  f_equal. symmetry. generalize (map chunk_of (fragment_packet data id)). by induction l.
Qed.

Lemma insert_fragment fs g r :
  holds fs r → g ∈ fragment_packet data id →
  ∃ r', holds (g :: fs) r' ∧ delete id (ra_buffers r') = delete id (ra_buffers r) ∧ ra_timeout r' = ra_timeout r ∧
  Reassembler_insert now g r =
    if forallb (received (g :: fs)) (map chunk_of (fragment_packet data id))
    then Ok (Some data, {| ra_timeout := ra_timeout r; ra_buffers := delete id (ra_buffers r) |})
    else Ok (None, r').
Proof.
  intros [t Hb] Hg. destruct (fragment_packet_fields _ _ _ Hmax Hg) as [Hid Htot].
  pose proof (fragment_packet_tiles data id Hmax Hne) as Ht.
  unfold Reassembler_insert. rewrite Hid, Htot, Hb. cbn [rb_total_length rb_chunks rb_created_at].
  rewrite Z.eqb_refl. cbn [negb].
  assert (Hc : chunks_insert (fragment_offset g) (fr_payload g)
                 (List.filter (received fs) (map chunk_of (fragment_packet data id))) =
               List.filter (received (g :: fs)) (map chunk_of (fragment_packet data id))).
  { pose proof (chunks_insert_filter (received fs) _ (chunk_of g) (tiles_sorted _ _ _ Ht)) as Hi.
    etrans; [apply Hi, list_elem_of_fmap; eauto|]. apply filter_ext. intros. apply received_cons. }
  rewrite Hc, try_reassemble_tiles by done. cbn [obind].
  eexists {| ra_timeout := ra_timeout r; ra_buffers := <[id := _]> (ra_buffers r) |}.
  split; [exists t; cbn [ra_buffers]; by rewrite lookup_insert_eq|].
  cbn [ra_buffers ra_timeout]. rewrite delete_insert_eq. by destruct (forallb _ _).
Qed.

Lemma insert_incomplete fs1 fs2 last r :
  holds fs1 r → (∀ g, g ∈ fs2 → g ∈ fragment_packet data id) → last ∈ fragment_packet data id →
  chunk_of last ∉ map chunk_of (fs1 ++ fs2) →
  ∃ r', insert_all now fs2 r = Ok ([], r') ∧ holds (rev fs2 ++ fs1) r' ∧
    delete id (ra_buffers r') = delete id (ra_buffers r) ∧ ra_timeout r' = ra_timeout r.
Proof.
  revert fs1 r. induction fs2 as [|g fs2 IH]; intros fs1 r Hh Hin Hlast Hnin; cbn [insert_all rev]; [by exists r|].
  destruct (insert_fragment fs1 g r Hh) as (r1 & Hh1 & Hd1 & Ht1 & ->); [apply Hin, list_elem_of_here|].
  assert (forallb (received (g :: fs1)) (map chunk_of (fragment_packet data id)) = false) as ->.
  { apply not_true_iff_false. rewrite forallb_forall. intros Hall.
    specialize (Hall (chunk_of last)). unfold received in Hall. rewrite bool_decide_eq_true in Hall.
    apply Hnin. rewrite map_app, elem_of_app. cbn [map] in *. rewrite elem_of_cons in *.
    destruct Hall as [->|Hl]; [by apply in_map, list_elem_of_In|by right; left|by left]. }
  cbn [obind]. destruct (IH (g :: fs1) r1 Hh1) as (r' & -> & Hh' & Hd' & Ht').
  - intros g' Hg'. by apply Hin, list_elem_of_further.
  - done.
  - rewrite map_app, elem_of_app in Hnin |- *. cbn [map] in *. rewrite elem_of_cons in *. intuition.
  - exists r'. rewrite <- app_assoc. cbn [app obind]. repeat split; try done; congruence.
Qed.
End Reassembly.

Lemma reassemble_fragments (now : Z) (data : list Z) (id : Z) (fs : list FragmentFrame)
    (last : FragmentFrame) (r : Reassembler) :
  Z.of_nat (length data) < 2 ^ 16 → data ≠ [] → ra_buffers r !! id = None →
  (∀ g, g ∈ fs → g ∈ fragment_packet data id) → last ∈ fragment_packet data id → last ∉ fs →
  (∀ g, g ∈ fragment_packet data id → g ∈ fs ∨ g = last) →
  insert_all now (fs ++ [last]) r = Ok ([data], r).
Proof.
  intros Hmax Hne Hnone Hin Hlast Hnin Hall.
  assert (Hch : chunk_of last ∉ map chunk_of fs).
  { rewrite list_elem_of_fmap. intros (g & Heq & Hg).
    destruct (fragment_packet_fields _ _ _ Hmax Hlast) as [Hl1 Hl2].
    destruct (fragment_packet_fields _ _ _ Hmax (Hin g Hg)) as [Hg1 Hg2].
    apply Hnin. destruct last, g; unfold chunk_of in Heq; cbn in *. by simplify_eq. }
  destruct (insert_incomplete now data id Hmax Hne [] fs last r) as (r1 & Hr1 & Hh & Hd & Ht);
    [by apply holds_nil|done..|].
  rewrite app_nil_r in Hh.
  destruct (insert_fragment now data id Hmax Hne _ last r1 Hh Hlast) as (r2 & _ & _ & _ & Hi).
  assert (forallb (received (last :: rev fs)) (map chunk_of (fragment_packet data id)) = true) as Hf.
  { apply forallb_forall. intros c Hc. unfold received. apply bool_decide_eq_true.
    apply list_elem_of_In, list_elem_of_fmap in Hc as (g & -> & Hg). apply list_elem_of_fmap. exists g.
    split; [done|]. rewrite elem_of_cons, !list_elem_of_In, <- in_rev, <- list_elem_of_In. destruct (Hall g Hg); auto. }
  rewrite Hf in Hi. rewrite Ht, Hd, delete_id in Hi by done.
  rewrite insert_all_app, Hr1. cbn [obind insert_all]. rewrite Hi. cbn [obind app]. by destruct r.
Qed.

(** ** Properties *)

(** what a reassembly returns is made of received bytes only.  Whatever
    chunks a buffer holds, reassembling does not panic, and a packet it returns
    has the declared length and each of its bytes is the byte some received
    chunk has at that position. *)
Theorem reassemble_sound (b : ReassemblyBuffer) :
  try_reassemble b ≠ Panic ∧
  ∀ pkt, try_reassemble b = Ok (Some pkt) →
    length pkt = Z.to_nat (rb_total_length b) ∧
    ∀ p, (p < length pkt)%nat →
      ∃ o c, (o, c) ∈ rb_chunks b ∧ covers p (o, c) ∧ pkt !! p = c !! (p - Z.to_nat o)%nat.
Proof.
  split; [apply try_reassemble_total|]. intros pkt. unfold try_reassemble.
  destruct (covered _ _ _) as [c|] eqn:Hc; [|done]. case_bool_decide as Heq; [|done]. cbn [negb].
  apply covered_spec in Hc as (_ & _ & Hcov & Hl); [|lia].
  destruct (copy_chunks_spec (rb_chunks b) (replicate (Z.to_nat (rb_total_length b)) 0))
    as (out & -> & Hlen & Hp); [by rewrite length_replicate|].
  cbn [obind]. intros [= <-]. rewrite length_replicate in Hlen. split; [done|]. intros p Hlt.
  destruct (Hp p) as [[_ Hn]|([o ch] & Hin & Hcv & Heq')]; [|by exists o, ch].
  destruct Hn. apply Hcov; lia.
Qed.

(** C30: fragmentation followed by reassembly is the identity, in any order and
    with any duplicates.  If [fs] are fragments of one packet of at most 65535
    bytes, each as often as wanted, and [last] is the only one missing, then
    feeding [fs] and then [last] to a reassembler that knows nothing of the
    packet's identifier returns exactly one packet, the original, when [last]
    arrives, and leaves the reassembler as it was. *)
Theorem reassembly_any_order (now : Z) (data : list Z) (id : Z) (fs : list FragmentFrame)
    (last : FragmentFrame) (r : Reassembler) :
  Z.of_nat (length data) < 2 ^ 16 → data ≠ [] → ra_buffers r !! id = None →
  (∀ g, g ∈ fs → g ∈ fragment_packet data id) → last ∈ fragment_packet data id → last ∉ fs →
  (∀ g, g ∈ fragment_packet data id → g ∈ fs ∨ g = last) →
  insert_all now (fs ++ [last]) r = Ok ([data], r).
Proof. apply reassemble_fragments. Qed.

Lemma reassembly_any_order_witness :
  let data := replicate 2500 42 in
  let frag i := nth i (fragment_packet data 5) {| fragment_id := 0; fragment_offset := 0; total_length := 0; fr_payload := [] |} in
  insert_all 0 ([frag 2%nat; frag 0%nat; frag 2%nat] ++ [frag 1%nat]) Reassembler_new = Ok ([data], Reassembler_new).
Proof.
  intros data frag.
  assert (Hall : fragment_packet data 5 = [frag 0%nat; frag 1%nat; frag 2%nat]) by (vm_compute; reflexivity).
  assert (H0 : fragment_offset (frag 0%nat) = 0) by (vm_compute; reflexivity).
  assert (H1 : fragment_offset (frag 1%nat) = 1200) by (vm_compute; reflexivity).
  assert (H2 : fragment_offset (frag 2%nat) = 2400) by (vm_compute; reflexivity).
  assert (Hlen : Z.of_nat (length data) < 2 ^ 16) by (vm_compute; reflexivity).
  assert (Hne : data ≠ []) by done. clearbody frag data.
  apply (reassembly_any_order 0 data 5); rewrite ?Hall; [done|done|done|set_solver|set_solver| |set_solver].
  rewrite !not_elem_of_cons. split_and!; try (intros Heq; rewrite Heq in H1; lia). apply not_elem_of_nil.
Defined.
