(* ===== verification/MeshAddress.v ===== *)
(** * Deterministic mesh addresses (crates/pim-core/src/mesh_address.rs)

    Addresses are the integers behind [Ipv4Addr] (32 bits) and [Ipv6Addr]
    (128 bits).  The keyed BLAKE3 digest of a node identifier is code of the
    [blake3] crate: [digest] is a parameter, of which only the documented
    length of 32 bytes matters. *)

From S2P Require Import Prelude Core.

Record Ipv4Prefix := { v4_network : Z; v4_prefix_len : Z }.
Record Ipv6Prefix := { v6_network : Z; v6_prefix_len : Z }.

Definition u32_max : Z := 2 ^ 32 - 1.
Definition u128_max : Z := 2 ^ 128 - 1.
(** Bitwise complement at a width. *)
Definition not_u32 (z : Z) : Z := u32_max - z.
Definition not_u128 (z : Z) : Z := u128_max - z.

Definition ipv4_netmask (prefix_len : Z) : Z :=
  if prefix_len =? 0 then 0
  else if 32 <=? prefix_len then u32_max
  else not_u32 (Z.shiftl 1 (32 - prefix_len) - 1).

Definition ipv6_netmask (prefix_len : Z) : Z :=
  if prefix_len =? 0 then 0
  else if 128 <=? prefix_len then u128_max
  else not_u128 (Z.shiftl 1 (128 - prefix_len) - 1).

Section Derivation.
Context (digest : NodeId → list Z).

Definition derive_mesh_ipv4 (node_id : NodeId) (prefix : Ipv4Prefix) : Z :=
  let host_bits := saturating_sub 32 (v4_prefix_len prefix) in
  let host_mask :=
    if host_bits =? 0 then 0
    else if 32 <=? host_bits then u32_max
    else Z.shiftl 1 host_bits - 1 in
  if host_bits =? 0 then v4_network prefix else
  let raw := be_value (take 4 (digest node_id)) in
  let host := Z.land raw host_mask in
  let host :=
    if 2 <=? host_bits then
      if host =? 0 then 1
      else if host =? host_mask then host_mask - 1
      else host
    else host in
  let network := Z.land (v4_network prefix) (not_u32 host_mask) in
  Z.lor network host.

Definition derive_mesh_ipv6 (node_id : NodeId) (prefix : Ipv6Prefix) : Z :=
  let host_bits := saturating_sub 128 (v6_prefix_len prefix) in
  let host_mask :=
    if host_bits =? 0 then 0
    else if 128 <=? host_bits then u128_max
    else Z.shiftl 1 host_bits - 1 in
  if host_bits =? 0 then v6_network prefix else
  let raw := be_value (take 16 (digest node_id)) in
  let host := Z.land raw host_mask in
  let host :=
    if 2 <=? host_bits then
      if host =? 0 then 1
      else if host =? host_mask then host_mask - 1
      else host
    else host in
  let network := Z.land (v6_network prefix) (not_u128 host_mask) in
  Z.lor network host.

Definition verify_mesh_ipv4 (node_id : NodeId) (claimed : Z) (prefix : Ipv4Prefix) : bool :=
  derive_mesh_ipv4 node_id prefix =? claimed.
Definition verify_mesh_ipv6 (node_id : NodeId) (claimed : Z) (prefix : Ipv6Prefix) : bool :=
  derive_mesh_ipv6 node_id prefix =? claimed.
End Derivation.

(** ** Text form of IPv4 prefixes

    Strings are lists of ASCII codes; [46] is a dot and [47] a slash. *)
Fixpoint split_once (sep : Z) (s : list Z) : option (list Z * list Z) :=
  match s with
  | [] => None
  | c :: s' =>
    if c =? sep then Some ([], s')
    else match split_once sep s' with Some (a, b) => Some (c :: a, b) | None => None end
  end.

(** An octet of [Ipv4Addr::from_str]: one to three decimal digits, no leading
    zero, at most 255. *)
Definition parse_octet (cs : list Z) : option Z :=
  if forallb (in_range 48 57) cs && bool_decide (0 < length cs ≤ 3)%nat
     && negb (bool_decide (1 < length cs)%nat && bool_decide (head cs = Some 48))
  then digits_u8 10 cs 0 else None.

Definition parse_ipv4 (s : list Z) : option Z :=
  match split_once 46 s with None => None | Some (a, s) =>
  match split_once 46 s with None => None | Some (b, s) =>
  match split_once 46 s with None => None | Some (c, d) =>
  match parse_octet a, parse_octet b, parse_octet c, parse_octet d with
  | Some a, Some b, Some c, Some d => Some (be_value [a; b; c; d])
  | _, _, _, _ => None
  end end end end.

Definition Ipv4Prefix_parse (s : list Z) : outcome PimError Ipv4Prefix :=
  let? (ip_str, prefix_str) := ok_or (split_once 47 s) (Config CidrMissingSlash) in
  let? ip := ok_or (parse_ipv4 ip_str) (Config CidrInvalidAddress) in
  let? prefix_len := ok_or (from_str_radix_u8 prefix_str 10) (Config CidrInvalidPrefixLength) in
  if 32 <? prefix_len then Err (Config CidrPrefixTooLong) else
  let mask := ipv4_netmask prefix_len in
  Ok {| v4_network := Z.land ip mask; v4_prefix_len := prefix_len |}.

(** Decimal form of a byte, and [Display] of [Ipv4Addr]. *)
Definition dec_u8 (z : Z) : list Z :=
  if z <? 10 then [48 + z]
  else if z <? 100 then [48 + z / 10; 48 + z mod 10]
  else [48 + z / 100; 48 + z / 10 mod 10; 48 + z mod 10].

Definition fmt_ipv4 (ip : Z) : list Z :=
  match be_bytes 4 ip with
  | [a; b; c; d] => dec_u8 a ++ [46] ++ dec_u8 b ++ [46] ++ dec_u8 c ++ [46] ++ dec_u8 d
  | _ => []
  end.

Definition Ipv4Prefix_to_cidr_string (p : Ipv4Prefix) : list Z :=
  fmt_ipv4 (v4_network p) ++ [47] ++ dec_u8 (v4_prefix_len p).

(** ** Lemmas: masks are powers of two *)
Lemma land_ones_mod z h : 0 ≤ h → Z.land z (2 ^ h - 1) = z mod 2 ^ h.
Proof. intros. rewrite <- Z.land_ones by lia. f_equal. rewrite Z.ones_equiv. lia. Qed.

Lemma testbit_high z w n : 0 ≤ w ≤ n → 0 ≤ z < 2 ^ w → Z.testbit z n = false.
Proof.
  intros Hn Hz. rewrite <- (Z.mod_small z (2 ^ w)) by done. apply Z.mod_pow2_bits_high. lia.
Qed.

Lemma land_high_mask z h w :
  0 ≤ h ≤ w → 0 ≤ z < 2 ^ w → Z.land z (2 ^ w - 1 - (2 ^ h - 1)) = z - z mod 2 ^ h.
Proof.
  intros Hh Hz. replace (2 ^ w - 1 - (2 ^ h - 1)) with (Z.ldiff (Z.ones w) (Z.ones h)).
  2:{ rewrite <- Z.sub_nocarry_ldiff; [rewrite !Z.ones_equiv; lia|].
      apply Z.bits_inj'. intros n Hn. rewrite Z.ldiff_spec, Z.bits_0, !Z.testbit_ones_nonneg by lia.
      destruct (Z.ltb_spec n h), (Z.ltb_spec n w); cbn; (done || lia). }
  transitivity (Z.ldiff z (Z.ones h)).
  - apply Z.bits_inj'. intros n Hn. rewrite Z.land_spec, !Z.ldiff_spec, !Z.testbit_ones_nonneg by lia.
    destruct (Z.ltb_spec n w); [done|]. by rewrite (testbit_high z w n) by lia.
  - rewrite Z.ldiff_ones_r, Z.shiftl_mul_pow2, Z.shiftr_div_pow2 by lia.
    pose proof (Z.div_mod z (2 ^ h)). lia.
Qed.

Lemma lor_disjoint a b h : 0 ≤ h → a mod 2 ^ h = 0 → 0 ≤ b < 2 ^ h → Z.lor a b = a + b.
Proof.
  intros Hh Ha Hb. rewrite <- Z.lor_comm, Z.add_comm. symmetry. apply Z.add_nocarry_lor.
  apply Z.bits_inj'. intros n Hn. rewrite Z.land_spec, Z.bits_0.
  destruct (Z.ltb_spec n h).
  - assert (Z.testbit a n = false) as ->; [|apply andb_false_r].
    rewrite <- (Z.mod_pow2_bits_low a h n) by lia. by rewrite Ha, Z.bits_0.
  - by rewrite (testbit_high b h n) by lia.
Qed.

(** The derivation at any width [w]: the network bits above [h] host bits, and
    a host part that avoids the all-zeros and all-ones hosts when it can. *)
Definition pick_host (h raw : Z) : Z :=
  let host := raw mod 2 ^ h in
  if 2 <=? h then
    if host =? 0 then 1 else if host =? 2 ^ h - 1 then 2 ^ h - 2 else host
  else host.

Definition derive_addr (h network raw : Z) : Z := (network - network mod 2 ^ h) + pick_host h raw.

Lemma pick_host_range h raw : 1 ≤ h → 0 ≤ pick_host h raw < 2 ^ h.
Proof.
  intros Hh. unfold pick_host. pose proof (Z.mod_pos_bound raw (2 ^ h)).
  assert (2 ≤ 2 ^ h) by (change 2 with (2 ^ 1) at 1; apply Z.pow_le_mono_r; lia).
  destruct (Z.leb_spec 2 h); [|lia]. destruct (Z.eqb_spec (raw mod 2 ^ h) 0); [lia|].
  destruct (Z.eqb_spec (raw mod 2 ^ h) (2 ^ h - 1)); lia.
Qed.

Lemma pick_host_usable h raw : 2 ≤ h → pick_host h raw ≠ 0 ∧ pick_host h raw ≠ 2 ^ h - 1.
Proof.
  intros Hh. unfold pick_host. rewrite (proj2 (Z.leb_le 2 h)) by lia.
  assert (4 ≤ 2 ^ h) by (change 4 with (2 ^ 2) at 1; apply Z.pow_le_mono_r; lia).
  destruct (Z.eqb_spec (raw mod 2 ^ h) 0); [lia|].
  destruct (Z.eqb_spec (raw mod 2 ^ h) (2 ^ h - 1)); lia.
Qed.

Lemma derive_body w h network raw :
  1 ≤ h ≤ w → 0 ≤ network < 2 ^ w →
  Z.lor (Z.land network (2 ^ w - 1 - (2 ^ h - 1)))
    (let host := Z.land raw (2 ^ h - 1) in
     if 2 <=? h then if host =? 0 then 1 else if host =? 2 ^ h - 1 then 2 ^ h - 1 - 1 else host else host)
  = derive_addr h network raw.
Proof.
  intros Hh Hn. rewrite land_high_mask, land_ones_mod by lia. unfold derive_addr.
  replace (2 ^ h - 1 - 1) with (2 ^ h - 2) by lia. apply (lor_disjoint _ _ h); [lia| |exact (pick_host_range h raw ltac:(lia))].
  rewrite Zminus_mod, Z.mod_mod, Z.sub_diag, Z.mod_0_l by lia. done.
Qed.

Lemma derive_mesh_ipv4_spec digest id p :
  0 ≤ v4_prefix_len p < 32 → 0 ≤ v4_network p < 2 ^ 32 →
  derive_mesh_ipv4 digest id p =
    derive_addr (32 - v4_prefix_len p) (v4_network p) (be_value (take 4 (digest id))).
Proof.
  intros Hp Hn. unfold derive_mesh_ipv4, saturating_sub, not_u32, u32_max. set (h := 32 - v4_prefix_len p).
  rewrite Z.max_r by lia. rewrite (proj2 (Z.eqb_neq h 0)) by lia.
  rewrite Z.shiftl_1_l.
  assert ((if 32 <=? h then 2 ^ 32 - 1 else 2 ^ h - 1) = 2 ^ h - 1) as ->.
  { destruct (Z.leb_spec 32 h); [|done]. by replace h with 32 by lia. }
  apply (derive_body 32 h); lia.
Qed.

Lemma derive_mesh_ipv6_spec digest id p :
  0 ≤ v6_prefix_len p < 128 → 0 ≤ v6_network p < 2 ^ 128 →
  derive_mesh_ipv6 digest id p =
    derive_addr (128 - v6_prefix_len p) (v6_network p) (be_value (take 16 (digest id))).
Proof.
  intros Hp Hn. unfold derive_mesh_ipv6, saturating_sub, not_u128, u128_max. set (h := 128 - v6_prefix_len p).
  rewrite Z.max_r by lia. rewrite (proj2 (Z.eqb_neq h 0)) by lia.
  rewrite Z.shiftl_1_l.
  assert ((if 128 <=? h then 2 ^ 128 - 1 else 2 ^ h - 1) = 2 ^ h - 1) as ->.
  { destruct (Z.leb_spec 128 h); [|done]. by replace h with 128 by lia. }
  apply (derive_body 128 h); lia.
Qed.

Lemma derive_addr_network h network raw :
  1 ≤ h → derive_addr h network raw / 2 ^ h = network / 2 ^ h ∧ derive_addr h network raw mod 2 ^ h = pick_host h raw.
Proof.
  intros Hh. unfold derive_addr. pose proof (pick_host_range h raw Hh) as Hr.
  replace (network - network mod 2 ^ h) with (network / 2 ^ h * 2 ^ h) by (pose proof (Z.div_mod network (2 ^ h)); lia).
  rewrite Z.div_add_l by lia. rewrite (Z.div_small (pick_host h raw)), Z.add_0_r by lia. split; [done|].
  rewrite Z.add_comm, Z.mod_add, Z.mod_small by lia. done.
Qed.

(** ** Properties *)

(** every derived IPv4 mesh address lies in the configured prefix and, when
    the prefix leaves two host bits or more, is neither its network nor its
    broadcast address. *)
Theorem derive_mesh_ipv4_in_prefix (digest : NodeId → list Z) (id : NodeId) (p : Ipv4Prefix) :
  0 ≤ v4_prefix_len p ≤ 32 → u32_ok (v4_network p) →
  let h := 32 - v4_prefix_len p in
  derive_mesh_ipv4 digest id p / 2 ^ h = v4_network p / 2 ^ h ∧
  (2 ≤ h → derive_mesh_ipv4 digest id p mod 2 ^ h ≠ 0 ∧ derive_mesh_ipv4 digest id p mod 2 ^ h ≠ 2 ^ h - 1).
Proof.
  intros Hp Hn h. unfold u32_ok in Hn. destruct (decide (v4_prefix_len p = 32)) as [Heq|].
  { unfold derive_mesh_ipv4, saturating_sub. rewrite Heq. split; [by rewrite Z.max_r|lia]. }
  rewrite derive_mesh_ipv4_spec by lia. fold h.
  destruct (derive_addr_network h (v4_network p) (be_value (take 4 (digest id)))) as [-> ->]; [lia|].
  split; [done|]. apply pick_host_usable.
Qed.

Lemma derive_mesh_ipv4_in_prefix_witness :
  let p := {| v4_network := 0x0a4d0000; v4_prefix_len := 16 |} in
  derive_mesh_ipv4 (λ id, as_bytes id ++ as_bytes id) (sample_id 9) p / 2 ^ 16 = 0x0a4d.
Proof. intros p. by apply (derive_mesh_ipv4_in_prefix (λ id, as_bytes id ++ as_bytes id) (sample_id 9) p). Defined.

(** the same for IPv6. *)
Theorem derive_mesh_ipv6_in_prefix (digest : NodeId → list Z) (id : NodeId) (p : Ipv6Prefix) :
  0 ≤ v6_prefix_len p ≤ 128 → 0 ≤ v6_network p < 2 ^ 128 →
  let h := 128 - v6_prefix_len p in
  derive_mesh_ipv6 digest id p / 2 ^ h = v6_network p / 2 ^ h ∧
  (2 ≤ h → derive_mesh_ipv6 digest id p mod 2 ^ h ≠ 0 ∧ derive_mesh_ipv6 digest id p mod 2 ^ h ≠ 2 ^ h - 1).
Proof.
  intros Hp Hn h. destruct (decide (v6_prefix_len p = 128)) as [Heq|].
  { unfold derive_mesh_ipv6, saturating_sub. rewrite Heq. split; [by rewrite Z.max_r|lia]. }
  rewrite derive_mesh_ipv6_spec by lia. fold h.
  destruct (derive_addr_network h (v6_network p) (be_value (take 16 (digest id)))) as [-> ->]; [lia|].
  split; [done|]. apply pick_host_usable.
Qed.

Lemma derive_mesh_ipv6_in_prefix_witness :
  let p := {| v6_network := 0xfd77 * 2 ^ 112; v6_prefix_len := 64 |} in
  derive_mesh_ipv6 (λ id, as_bytes id ++ as_bytes id) (sample_id 9) p / 2 ^ 64 = 0xfd77 * 2 ^ 48.
Proof. intros p. by apply (derive_mesh_ipv6_in_prefix (λ id, as_bytes id ++ as_bytes id) (sample_id 9) p). Defined.

(** ** Lemmas: the text form *)
Definition no_sep (sep : Z) (s : list Z) : bool := forallb (λ c, negb (c =? sep)) s.

Lemma split_once_app sep a b : no_sep sep a = true → split_once sep (a ++ sep :: b) = Some (a, b).
Proof.
  induction a as [|c a IH]; cbn [no_sep forallb app split_once]; [by rewrite Z.eqb_refl|].
  intros [Hc Ha]%andb_true_iff. apply negb_true_iff in Hc. by rewrite Hc, IH.
Qed.

Lemma no_sep_app sep a b : no_sep sep (a ++ b) = no_sep sep a && no_sep sep b.
Proof. apply forallb_app. Qed.

Lemma dec_u8_spec b : u8_ok b →
  parse_octet (dec_u8 b) = Some b ∧ from_str_radix_u8 (dec_u8 b) 10 = Some b ∧
  no_sep 46 (dec_u8 b) = true ∧ no_sep 47 (dec_u8 b) = true.
Proof.
  apply (u8_forall (λ b, parse_octet (dec_u8 b) = Some b ∧ from_str_radix_u8 (dec_u8 b) 10 = Some b ∧
    no_sep 46 (dec_u8 b) = true ∧ no_sep 47 (dec_u8 b) = true)). by vm_compute.
Qed.

Lemma fmt_ipv4_spec ip : u32_ok ip → parse_ipv4 (fmt_ipv4 ip) = Some ip ∧ no_sep 47 (fmt_ipv4 ip) = true.
Proof.
  intros Hip. unfold fmt_ipv4, u32_ok in *.
  pose proof (be_bytes_ok 4 ip) as Hok. pose proof (be_value_be_bytes 4 ip ltac:(lia)) as Hv.
  destruct (be_bytes 4 ip) as [|a [|b [|c [|d [|]]]]] eqn:E; try (apply (f_equal length) in E; by rewrite length_be_bytes in E).
  unfold bytes_ok in Hok. rewrite !Forall_cons in Hok. destruct Hok as (Ha & Hb & Hc & Hd & _).
  destruct (dec_u8_spec a Ha) as (Pa & _ & Sa & Ta), (dec_u8_spec b Hb) as (Pb & _ & Sb & Tb),
    (dec_u8_spec c Hc) as (Pc & _ & Sc & Tc), (dec_u8_spec d Hd) as (Pd & _ & Sd & Td).
  split; [|by rewrite !no_sep_app, Ta, Tb, Tc, Td].
  unfold parse_ipv4. cbn [app]. do 3 rewrite split_once_app by done. by rewrite Pa, Pb, Pc, Pd, Hv.
Qed.

Lemma ipv4_netmask_land ip n : 0 ≤ n ≤ 32 → 0 ≤ ip < 2 ^ 32 → Z.land ip (ipv4_netmask n) = ip - ip mod 2 ^ (32 - n).
Proof.
  intros Hn Hip. unfold ipv4_netmask, not_u32, u32_max. destruct (Z.eqb_spec n 0) as [->|].
  { rewrite Z.land_0_r, Z.mod_small by lia. lia. }
  destruct (Z.leb_spec 32 n).
  - replace n with 32 by lia. rewrite land_ones_mod, Z.mod_small, Z.sub_diag, Z.mod_1_r by lia. lia.
  - rewrite Z.shiftl_1_l. apply land_high_mask; lia.
Qed.

(** A prefix as [Ipv4Prefix::parse] builds them: host bits zeroed. *)
Definition Ipv4Prefix_wf (p : Ipv4Prefix) : Prop :=
  0 ≤ v4_prefix_len p ≤ 32 ∧ u32_ok (v4_network p) ∧ v4_network p mod 2 ^ (32 - v4_prefix_len p) = 0.

(** printing a prefix and parsing it back gives the prefix. *)
Theorem ipv4_prefix_roundtrip (p : Ipv4Prefix) :
  Ipv4Prefix_wf p → Ipv4Prefix_parse (Ipv4Prefix_to_cidr_string p) = Ok p.
Proof.
  intros (Hl & Hn & Hz). unfold Ipv4Prefix_parse, Ipv4Prefix_to_cidr_string.
  destruct (fmt_ipv4_spec _ Hn) as [Hp Hs].
  destruct (dec_u8_spec (v4_prefix_len p)) as (_ & Hd & _ & _); [unfold u8_ok; lia|].
  cbn [app]. rewrite split_once_app by done. cbn [ok_or obind]. rewrite Hp. cbn [ok_or obind].
  rewrite Hd. cbn [ok_or obind]. rewrite (proj2 (Z.ltb_ge _ _)) by lia. unfold u32_ok in Hn.
  rewrite ipv4_netmask_land, Hz, Z.sub_0_r by lia. by destruct p.
Qed.

Lemma ipv4_prefix_roundtrip_witness :
  let p := {| v4_network := 0x0a4d0000; v4_prefix_len := 16 |} in
  Ipv4Prefix_parse (Ipv4Prefix_to_cidr_string p) = Ok p.
Proof. intros p. by apply (ipv4_prefix_roundtrip p). Defined.
