(* ===== verification/Routing.v ===== *)
(** * The distance-vector routing table (crates/pim-routing/src/table.rs)

    A [HashMap] is a [gmap] and a [HashSet] a [gset].  Where the source
    iterates a [HashMap] and the order can be observed, the operation takes the
    iteration as an argument, any permutation of the map's entries; where it
    cannot be observed (collecting keys to remove), the model uses one order.
    [now] is what [Instant::now()] returns during the call. *)

From S2P Require Import Prelude Core MeshAddress Frames.

Definition INFINITY : Z := 16.

Record RouteTableEntry := {
  rt_next_hop : NodeId;
  rt_hops : Z;
  rt_is_gateway : bool;
  rt_last_seen : Z;
  rt_learned_from : NodeId;
  rt_sequence : Z;
  rt_gateway_load : Z;
  rt_rtt_ms : option Z;
  rt_mesh_ip : option Z;
}.
#[export] Instance RouteTableEntry_eq_dec : EqDecision RouteTableEntry.
Proof. solve_decision. Defined.

(** Plain additions on [u32]: an overflow panics in debug builds and wraps in
    release builds; [gateway_score_no_overflow] shows there is none. *)
Definition gateway_score (hops load : Z) (rtt_ms : option Z) : Z :=
  hops * 100 + load / 2 + unwrap_or rtt_ms 0 / 10.

Definition entry_is_expired (e : RouteTableEntry) (max_age now : Z) : bool :=
  max_age <? elapsed now (rt_last_seen e).

(** [Ipv4Addr::UNSPECIFIED] is the address 0. *)
Definition decode_mesh_ip (octets : list Z) : option Z :=
  let ip := be_value octets in if negb (ip =? 0) then Some ip else None.
Definition encode_mesh_ip (ip : option Z) : list Z := be_bytes 4 (unwrap_or ip 0).

Inductive UpdateResult := Changed | Unchanged.
#[export] Instance UpdateResult_eq_dec : EqDecision UpdateResult.
Proof. solve_decision. Defined.

Record RoutingTable := {
  self_id : NodeId;
  is_gateway : bool;
  routes : gmap NodeId RouteTableEntry;
  direct_peers : gset NodeId;
  sequence : Z;
  peer_max_seq : gmap NodeId Z;
  blacklisted_peers : gset NodeId;
  self_mesh_ip : option Z;
  mesh_ip_index : gmap Z NodeId;
  ipv4_prefix : Ipv4Prefix;
  mesh_ip_collisions_total : Z;
}.

Definition RoutingTable_new (id : NodeId) (gw : bool) (prefix : Ipv4Prefix) : RoutingTable :=
  {| self_id := id; is_gateway := gw; routes := ∅; direct_peers := ∅; sequence := 0;
     peer_max_seq := ∅; blacklisted_peers := ∅; self_mesh_ip := None; mesh_ip_index := ∅;
     ipv4_prefix := prefix; mesh_ip_collisions_total := 0 |}.

(** Field updates. *)
Definition set_routes (m : gmap NodeId RouteTableEntry) (t : RoutingTable) : RoutingTable :=
  {| self_id := self_id t; is_gateway := is_gateway t; routes := m; direct_peers := direct_peers t;
     sequence := sequence t; peer_max_seq := peer_max_seq t; blacklisted_peers := blacklisted_peers t;
     self_mesh_ip := self_mesh_ip t; mesh_ip_index := mesh_ip_index t; ipv4_prefix := ipv4_prefix t;
     mesh_ip_collisions_total := mesh_ip_collisions_total t |}.
Definition set_index (m : gmap Z NodeId) (t : RoutingTable) : RoutingTable :=
  {| self_id := self_id t; is_gateway := is_gateway t; routes := routes t; direct_peers := direct_peers t;
     sequence := sequence t; peer_max_seq := peer_max_seq t; blacklisted_peers := blacklisted_peers t;
     self_mesh_ip := self_mesh_ip t; mesh_ip_index := m; ipv4_prefix := ipv4_prefix t;
     mesh_ip_collisions_total := mesh_ip_collisions_total t |}.
Definition set_peer_max_seq (m : gmap NodeId Z) (t : RoutingTable) : RoutingTable :=
  {| self_id := self_id t; is_gateway := is_gateway t; routes := routes t; direct_peers := direct_peers t;
     sequence := sequence t; peer_max_seq := m; blacklisted_peers := blacklisted_peers t;
     self_mesh_ip := self_mesh_ip t; mesh_ip_index := mesh_ip_index t; ipv4_prefix := ipv4_prefix t;
     mesh_ip_collisions_total := mesh_ip_collisions_total t |}.
Definition set_direct_peers (s : gset NodeId) (t : RoutingTable) : RoutingTable :=
  {| self_id := self_id t; is_gateway := is_gateway t; routes := routes t; direct_peers := s;
     sequence := sequence t; peer_max_seq := peer_max_seq t; blacklisted_peers := blacklisted_peers t;
     self_mesh_ip := self_mesh_ip t; mesh_ip_index := mesh_ip_index t; ipv4_prefix := ipv4_prefix t;
     mesh_ip_collisions_total := mesh_ip_collisions_total t |}.
Definition set_blacklist (s : gset NodeId) (t : RoutingTable) : RoutingTable :=
  {| self_id := self_id t; is_gateway := is_gateway t; routes := routes t; direct_peers := direct_peers t;
     sequence := sequence t; peer_max_seq := peer_max_seq t; blacklisted_peers := s;
     self_mesh_ip := self_mesh_ip t; mesh_ip_index := mesh_ip_index t; ipv4_prefix := ipv4_prefix t;
     mesh_ip_collisions_total := mesh_ip_collisions_total t |}.
Definition set_collisions (n : Z) (t : RoutingTable) : RoutingTable :=
  {| self_id := self_id t; is_gateway := is_gateway t; routes := routes t; direct_peers := direct_peers t;
     sequence := sequence t; peer_max_seq := peer_max_seq t; blacklisted_peers := blacklisted_peers t;
     self_mesh_ip := self_mesh_ip t; mesh_ip_index := mesh_ip_index t; ipv4_prefix := ipv4_prefix t;
     mesh_ip_collisions_total := n |}.
Definition set_sequence (n : Z) (t : RoutingTable) : RoutingTable :=
  {| self_id := self_id t; is_gateway := is_gateway t; routes := routes t; direct_peers := direct_peers t;
     sequence := n; peer_max_seq := peer_max_seq t; blacklisted_peers := blacklisted_peers t;
     self_mesh_ip := self_mesh_ip t; mesh_ip_index := mesh_ip_index t; ipv4_prefix := ipv4_prefix t;
     mesh_ip_collisions_total := mesh_ip_collisions_total t |}.

Definition set_ipv4_prefix (p : Ipv4Prefix) (t : RoutingTable) : RoutingTable :=
  {| self_id := self_id t; is_gateway := is_gateway t; routes := routes t; direct_peers := direct_peers t;
     sequence := sequence t; peer_max_seq := peer_max_seq t; blacklisted_peers := blacklisted_peers t;
     self_mesh_ip := self_mesh_ip t; mesh_ip_index := mesh_ip_index t; ipv4_prefix := p;
     mesh_ip_collisions_total := mesh_ip_collisions_total t |}.
Definition set_self_mesh_ip (ip : Z) (t : RoutingTable) : RoutingTable :=
  {| self_id := self_id t; is_gateway := is_gateway t; routes := routes t; direct_peers := direct_peers t;
     sequence := sequence t; peer_max_seq := peer_max_seq t; blacklisted_peers := blacklisted_peers t;
     self_mesh_ip := Some ip; mesh_ip_index := mesh_ip_index t; ipv4_prefix := ipv4_prefix t;
     mesh_ip_collisions_total := mesh_ip_collisions_total t |}.

Definition with_mesh_ip (ip : option Z) (e : RouteTableEntry) : RouteTableEntry :=
  {| rt_next_hop := rt_next_hop e; rt_hops := rt_hops e; rt_is_gateway := rt_is_gateway e;
     rt_last_seen := rt_last_seen e; rt_learned_from := rt_learned_from e; rt_sequence := rt_sequence e;
     rt_gateway_load := rt_gateway_load e; rt_rtt_ms := rt_rtt_ms e; rt_mesh_ip := ip |}.
Definition with_last_seen (now : Z) (e : RouteTableEntry) : RouteTableEntry :=
  {| rt_next_hop := rt_next_hop e; rt_hops := rt_hops e; rt_is_gateway := rt_is_gateway e;
     rt_last_seen := now; rt_learned_from := rt_learned_from e; rt_sequence := rt_sequence e;
     rt_gateway_load := rt_gateway_load e; rt_rtt_ms := rt_rtt_ms e; rt_mesh_ip := rt_mesh_ip e |}.
Definition with_gateway_load (load : Z) (e : RouteTableEntry) : RouteTableEntry :=
  {| rt_next_hop := rt_next_hop e; rt_hops := rt_hops e; rt_is_gateway := rt_is_gateway e;
     rt_last_seen := rt_last_seen e; rt_learned_from := rt_learned_from e; rt_sequence := rt_sequence e;
     rt_gateway_load := load; rt_rtt_ms := rt_rtt_ms e; rt_mesh_ip := rt_mesh_ip e |}.
Definition with_rtt_ms (rtt : Z) (e : RouteTableEntry) : RouteTableEntry :=
  {| rt_next_hop := rt_next_hop e; rt_hops := rt_hops e; rt_is_gateway := rt_is_gateway e;
     rt_last_seen := rt_last_seen e; rt_learned_from := rt_learned_from e; rt_sequence := rt_sequence e;
     rt_gateway_load := rt_gateway_load e; rt_rtt_ms := Some rtt; rt_mesh_ip := rt_mesh_ip e |}.

Section Table.
Context (digest : NodeId → list Z).

(** ** Installing and removing routes *)
Definition insert_route (dst : NodeId) (entry : RouteTableEntry) (t : RoutingTable) : RoutingTable :=
  let derived := derive_mesh_ipv4 digest dst (ipv4_prefix t) in
  let entry := with_mesh_ip (Some derived) entry in
  let t :=
    match routes t !! dst with
    | Some old =>
      if negb (bool_decide (rt_mesh_ip old = Some derived)) then
        match rt_mesh_ip old with
        | Some old_ip => set_index (delete old_ip (mesh_ip_index t)) t
        | None => t
        end
      else t
    | None => t
    end in
  let t :=
    match mesh_ip_index t !! derived with
    | Some existing =>
      if negb (bool_decide (existing = dst))
      then set_collisions (as_u64 (mesh_ip_collisions_total t + 1)) t
      else set_index (<[derived := dst]> (mesh_ip_index t)) t
    | None => set_index (<[derived := dst]> (mesh_ip_index t)) t
    end in
  set_routes (<[dst := entry]> (routes t)) t.

Definition remove_route (dst : NodeId) (t : RoutingTable) : option RouteTableEntry * RoutingTable :=
  match routes t !! dst with
  | None => (None, t)
  | Some entry =>
    let t := set_routes (delete dst (routes t)) t in
    let t :=
      match rt_mesh_ip entry with
      | Some ip =>
        if bool_decide (mesh_ip_index t !! ip = Some dst)
        then set_index (delete ip (mesh_ip_index t)) t else t
      | None => t
      end in
    (Some entry, t)
  end.

Definition remove_routes (dsts : list NodeId) (t : RoutingTable) : RoutingTable :=
  fold_left (λ t dst, (remove_route dst t).2) dsts t.

(** Keys of the routes that satisfy a test. *)
Definition keys_where (P : NodeId → RouteTableEntry → bool) (t : RoutingTable) : list NodeId :=
  map fst (List.filter (λ '(dst, e), P dst e) (map_to_list (routes t))).

Definition remove_where (P : NodeId → RouteTableEntry → bool) (t : RoutingTable)
  : UpdateResult * RoutingTable :=
  match keys_where P t with
  | [] => (Unchanged, t)
  | dsts => (Changed, remove_routes dsts t)
  end.

Definition expire_stale (now max_age : Z) (t : RoutingTable) : UpdateResult * RoutingTable :=
  remove_where (λ _ e, entry_is_expired e max_age now) t.

Definition remove_routes_via (peer : NodeId) (t : RoutingTable) : UpdateResult * RoutingTable :=
  remove_where (λ _ e, bool_decide (rt_next_hop e = peer)) t.

(** ** Peers *)
Definition peer_entry (now : Z) (peer_id : NodeId) (seq : Z) : RouteTableEntry :=
  {| rt_next_hop := peer_id; rt_hops := 1; rt_is_gateway := false; rt_last_seen := now;
     rt_learned_from := peer_id; rt_sequence := seq; rt_gateway_load := 0; rt_rtt_ms := None;
     rt_mesh_ip := None |}.

Definition add_peer (now : Z) (peer_id : NodeId) (t : RoutingTable) : RoutingTable :=
  insert_route peer_id (peer_entry now peer_id 0) (set_direct_peers ({[peer_id]} ∪ direct_peers t) t).

Definition remove_peer (peer_id : NodeId) (t : RoutingTable) : UpdateResult * RoutingTable :=
  let t := set_direct_peers (direct_peers t ∖ {[peer_id]}) t in
  let t := set_peer_max_seq (delete peer_id (peer_max_seq t)) t in
  remove_routes_via peer_id t.

Definition blacklist_peer (peer_id : NodeId) (t : RoutingTable) : UpdateResult * RoutingTable :=
  remove_routes_via peer_id (set_blacklist ({[peer_id]} ∪ blacklisted_peers t) t).

Definition unblacklist_peer (peer_id : NodeId) (t : RoutingTable) : RoutingTable :=
  set_blacklist (blacklisted_peers t ∖ {[peer_id]}) t.

Definition is_blacklisted (peer_id : NodeId) (t : RoutingTable) : bool :=
  bool_decide (peer_id ∈ blacklisted_peers t).

(** ** Route advertisement processing *)

(** One iteration of [for advertised in &update.entries]. *)
Definition apply_entry (now : Z) (seq : Z) (from_peer : NodeId)
    (st : bool * RoutingTable) (advertised : RouteEntry) : bool * RoutingTable :=
  let '(changed, t) := st in
  let dst := re_destination advertised in
  if bool_decide (dst = self_id t) then (changed, t) else
  let new_hops := Z.min (re_hops advertised + 1) INFINITY in
  if INFINITY <=? new_hops then
    match routes t !! dst with
    | Some existing =>
      if bool_decide (rt_next_hop existing = from_peer)
      then (true, (remove_route dst t).2) else (changed, t)
    | None => (changed, t)
    end
  else
  let is_gw := RouteEntry_is_gateway advertised in
  let mk load rtt :=
    {| rt_next_hop := from_peer; rt_hops := new_hops; rt_is_gateway := is_gw; rt_last_seen := now;
       rt_learned_from := from_peer; rt_sequence := seq; rt_gateway_load := load; rt_rtt_ms := rtt;
       rt_mesh_ip := None |} in
  match routes t !! dst with
  | None => (true, insert_route dst (mk 0 None) t)
  | Some existing =>
    let better_path := new_hops <? rt_hops existing in
    let same_peer_refresh := bool_decide (rt_next_hop existing = from_peer) in
    let newer_seq := (rt_sequence existing <? seq) && same_peer_refresh in
    if better_path || newer_seq then
      let gateway_flag_flipped := negb (Bool.eqb (rt_is_gateway existing) is_gw) in
      let '(prev_load, prev_rtt) :=
        if rt_is_gateway existing && negb better_path
        then (rt_gateway_load existing, rt_rtt_ms existing) else (0, None) in
      (changed || better_path || gateway_flag_flipped, insert_route dst (mk prev_load prev_rtt) t)
    else (changed, t)
  end.

(** [last_seen] of the sender, or a new 1-hop route to it. *)
Definition touch_sender (now : Z) (seq : Z) (from_peer : NodeId) (t : RoutingTable) : bool * RoutingTable :=
  match routes t !! from_peer with
  | Some entry => (false, set_routes (<[from_peer := with_last_seen now entry]> (routes t)) t)
  | None => (true, insert_route from_peer (peer_entry now from_peer seq) t)
  end.

Definition apply_update (now : Z) (update : RouteUpdateFrame) (from_peer : NodeId) (t : RoutingTable)
  : UpdateResult * RoutingTable :=
  if negb (bool_decide (ru_origin_id update = from_peer)) then (Unchanged, t) else
  let last_seq := default 0 (peer_max_seq t !! from_peer) in
  if ru_sequence update <=? last_seq then (Unchanged, t) else
  let t := set_peer_max_seq (<[from_peer := ru_sequence update]> (peer_max_seq t)) t in
  let suspicious := existsb (λ e, (re_hops e =? 0) && negb (bool_decide (re_destination e = ru_origin_id update)))
                      (ru_entries update) in
  if suspicious then (Unchanged, t) else
  let advertised_destinations : gset NodeId := list_to_set (map re_destination (ru_entries update)) in
  let st := touch_sender now (ru_sequence update) from_peer t in
  let '(changed, t) := fold_left (apply_entry now (ru_sequence update) from_peer) (ru_entries update) st in
  let withdrawn := keys_where (λ dst e,
    bool_decide (rt_learned_from e = from_peer) && negb (bool_decide (dst = from_peer))
    && negb (bool_decide (dst ∈ advertised_destinations))) t in
  let '(changed, t) :=
    match withdrawn with
    | [] => (changed, t)
    | _ => (true, remove_routes withdrawn t)
    end in
  (if (changed : bool) then Changed else Unchanged, t).

(** ** Advertisement generation

    [iter] is the iteration of [routes]. *)
Definition advertise_entry (to_peer : NodeId) (dst : NodeId) (entry : RouteTableEntry) : RouteEntry :=
  {| re_destination := dst;
     re_hops := if bool_decide (rt_learned_from entry = to_peer) then INFINITY else rt_hops entry;
     re_flags := if rt_is_gateway entry then 1 else 0;
     re_mesh_ip := encode_mesh_ip (rt_mesh_ip entry) |}.

Definition self_entry (t : RoutingTable) : RouteEntry :=
  {| re_destination := self_id t; re_hops := 0; re_flags := if is_gateway t then 1 else 0;
     re_mesh_ip := encode_mesh_ip (self_mesh_ip t) |}.

Definition generate_advertisement (iter : list (NodeId * RouteTableEntry)) (to_peer : NodeId) (t : RoutingTable)
  : RouteUpdateFrame * RoutingTable :=
  let t := set_sequence (as_u64 (sequence t + 1)) t in
  let entries := self_entry t ::
    map (λ '(dst, e), advertise_entry to_peer dst e)
      (List.filter (λ '(dst, _), negb (bool_decide (dst = to_peer))) iter) in
  ({| ru_origin_id := self_id t; ru_sequence := sequence t; ru_entries := entries;
      ru_signature := replicate 64 0 |}, t).

(** [peers] is the iteration of [direct_peers]; the routes do not change
    between the calls, so each call iterates them as [iter]. *)
Fixpoint generate_all_advertisements (iter : list (NodeId * RouteTableEntry)) (peers : list NodeId)
    (t : RoutingTable) : list (NodeId * RouteUpdateFrame) * RoutingTable :=
  match peers with
  | [] => ([], t)
  | peer :: peers =>
    let '(frame, t) := generate_advertisement iter peer t in
    let '(rest, t) := generate_all_advertisements iter peers t in
    ((peer, frame) :: rest, t)
  end.

(** ** Lookups *)
Definition lookup_route (dst : NodeId) (t : RoutingTable) : option NodeId :=
  if bool_decide (dst = self_id t) then None else
  match routes t !! dst with
  | Some e => if negb (bool_decide (rt_next_hop e ∈ blacklisted_peers t)) then Some (rt_next_hop e) else None
  | None => None
  end.

Definition lookup_mesh_ip (mesh_ip : Z) (t : RoutingTable) : option (NodeId * NodeId) :=
  match mesh_ip_index t !! mesh_ip with
  | None => None
  | Some dst =>
    match routes t !! dst with
    | None => None
    | Some entry =>
      if bool_decide (rt_next_hop entry ∈ blacklisted_peers t) then None
      else Some (dst, rt_next_hop entry)
    end
  end.

Definition entry_score (e : RouteTableEntry) : Z := gateway_score (rt_hops e) (rt_gateway_load e) (rt_rtt_ms e).

Definition eligible (t : RoutingTable) (e : RouteTableEntry) : bool :=
  rt_is_gateway e && (rt_hops e <? INFINITY) && negb (bool_decide (rt_next_hop e ∈ blacklisted_peers t)).

(** [Iterator::min_by_key]: the first of the least elements. *)
Fixpoint min_by_key {A} (key : A → Z) (l : list A) : option A :=
  match l with
  | [] => None
  | x :: l' =>
    match min_by_key key l' with
    | None => Some x
    | Some y => if key y <? key x then Some y else Some x
    end
  end.

Definition best_gateway_entry (iter : list (NodeId * RouteTableEntry)) (t : RoutingTable)
  : option (NodeId * RouteTableEntry) :=
  min_by_key (λ p, entry_score p.2) (List.filter (λ p, eligible t p.2) iter).

Definition nearest_gateway (iter : list (NodeId * RouteTableEntry)) (t : RoutingTable) : option (NodeId * Z) :=
  if is_gateway t then None
  else option_map (λ p, (rt_next_hop p.2, rt_hops p.2)) (best_gateway_entry iter t).

Definition nearest_gateway_route (iter : list (NodeId * RouteTableEntry)) (t : RoutingTable)
  : option (NodeId * NodeId) :=
  if is_gateway t then None
  else option_map (λ p, (p.1, rt_next_hop p.2)) (best_gateway_entry iter t).

Definition nearest_gateway_mesh_ip (iter : list (NodeId * RouteTableEntry)) (t : RoutingTable) : option Z :=
  if is_gateway t then None
  else match best_gateway_entry iter t with Some p => rt_mesh_ip p.2 | None => None end.

(** [slice::sort_by_key] is a stable sort. *)
Fixpoint insert_by_key {A} (key : A → Z) (x : A) (l : list A) : list A :=
  match l with
  | [] => [x]
  | y :: l' => if key x <=? key y then x :: y :: l' else y :: insert_by_key key x l'
  end.
Definition sort_by_key {A} (key : A → Z) (l : list A) : list A := foldr (insert_by_key key) [] l.

(** [self.routes[dst]] panics on a missing key; the keys sorted here come from
    the same map. *)
Definition all_gateways (iter : list (NodeId * RouteTableEntry)) (t : RoutingTable) : list (NodeId * Z) :=
  let gateways := map (λ p, (p.1, rt_hops p.2))
    (List.filter (λ p, rt_is_gateway p.2 && (rt_hops p.2 <? INFINITY)) iter) in
  sort_by_key (λ p, match routes t !! p.1 with Some e => entry_score e | None => 0 end) gateways.

(** ** Gateway metrics *)
Definition update_gateway_load (gw_id : NodeId) (load : Z) (t : RoutingTable) : RoutingTable :=
  match routes t !! gw_id with
  | Some entry =>
    if rt_is_gateway entry then set_routes (<[gw_id := with_gateway_load load entry]> (routes t)) t else t
  | None => t
  end.

Definition update_gateway_rtt (gw_id : NodeId) (rtt_ms : Z) (t : RoutingTable) : RoutingTable :=
  match routes t !! gw_id with
  | Some entry =>
    if rt_is_gateway entry then set_routes (<[gw_id := with_rtt_ms rtt_ms entry]> (routes t)) t else t
  | None => t
  end.

Definition route_count (t : RoutingTable) : nat := size (routes t).
End Table.
