(* ===== verification/RoutingProofs.v ===== *)
(** * Properties of the routing table

    What each operation changes and leaves alone, the table invariant and its
    preservation by every operation, and the tables the daemon can reach. *)

From S2P Require Import Prelude Core MeshAddress Frames Routing.

(** ** Frames: what the operations on routes leave alone *)
Record same_config (t t' : RoutingTable) : Prop := {
  sc_self_id : self_id t' = self_id t;
  sc_is_gateway : is_gateway t' = is_gateway t;
  sc_direct_peers : direct_peers t' = direct_peers t;
  sc_sequence : sequence t' = sequence t;
  sc_peer_max_seq : peer_max_seq t' = peer_max_seq t;
  sc_blacklist : blacklisted_peers t' = blacklisted_peers t;
  sc_self_mesh_ip : self_mesh_ip t' = self_mesh_ip t;
  sc_prefix : ipv4_prefix t' = ipv4_prefix t;
}.

#[export] Instance same_config_preorder : PreOrder same_config.
Proof.
  split; [by intros t|]. intros t1 t2 t3 [] []. split; congruence.
Qed.

Lemma same_config_routes m t : same_config t (set_routes m t).
Proof. done. Qed.
Lemma same_config_index m t : same_config t (set_index m t).
Proof. done. Qed.
Lemma same_config_collisions n t : same_config t (set_collisions n t).
Proof. done. Qed.
#[export] Hint Resolve same_config_routes same_config_index same_config_collisions : pim.

Section Proofs.
Context (digest : NodeId → list Z).
Implicit Types (t : RoutingTable) (e : RouteTableEntry) (dst p : NodeId).

Definition derived t dst : Z := derive_mesh_ipv4 digest dst (ipv4_prefix t).

(** ** Lemmas on insert_route and remove_route *)
Lemma insert_route_routes dst e t :
  routes (insert_route digest dst e t) = <[dst := with_mesh_ip (Some (derived t dst)) e]> (routes t).
Proof.
  unfold insert_route, derived. cbn [routes set_routes].
  repeat (case_match; cbn [routes set_index set_collisions mesh_ip_index]; try done).
Qed.

Lemma insert_route_config dst e t : same_config t (insert_route digest dst e t).
Proof. unfold insert_route. split; repeat (case_match; try done). Qed.

(** The index after an insertion: every entry was there before, or is the new
    route's own. *)
Lemma insert_route_index dst e t ip d :
  mesh_ip_index (insert_route digest dst e t) !! ip = Some d →
  (d = dst ∧ ip = derived t dst) ∨
  (mesh_ip_index t !! ip = Some d ∧ ip ≠ derived t dst ∧
     ∀ old, routes t !! dst = Some old → rt_mesh_ip old ≠ Some (derived t dst) → rt_mesh_ip old ≠ Some ip) ∨
  (mesh_ip_index t !! ip = Some d ∧ ip = derived t dst ∧ d ≠ dst).
Proof.
  unfold insert_route. fold (derived t dst). set (dv := derived t dst). cbn [mesh_ip_index set_routes].
  set (t1 := match routes t !! dst with Some _ => _ | None => t end).
  assert (Hsub : ∀ i x, mesh_ip_index t1 !! i = Some x → mesh_ip_index t !! i = Some x ∧
    ∀ old, routes t !! dst = Some old → rt_mesh_ip old ≠ Some dv → rt_mesh_ip old ≠ Some i).
  { intros i x. subst t1. destruct (routes t !! dst) as [old|]; [|done].
    case_bool_decide as Hdv; cbn [negb]; [intros ?; split; [done|]; by intros old' [= <-]|].
    destruct (rt_mesh_ip old) as [oip|] eqn:Ho; [|intros ?; split; [done|]; intros old' [= <-]; by rewrite Ho].
    cbn [mesh_ip_index set_index]. rewrite lookup_delete_Some. intros [Hne Hi]. split; [done|].
    intros old' [= <-] _. rewrite Ho. congruence. }
  intros Hi. destruct (mesh_ip_index t1 !! dv) as [ex|] eqn:Hex.
  - case_bool_decide as Hexd; cbn [negb mesh_ip_index set_collisions set_index] in Hi.
    + apply lookup_insert_Some in Hi as [[<- <-]|[Hne Hi]]; [by left|]. right; left. destruct (Hsub _ _ Hi). done.
    + destruct (decide (ip = dv)) as [->|]; [|right; left; destruct (Hsub _ _ Hi); done].
      right; right. destruct (Hsub _ _ Hi). split; [done|]. split; [done|]. congruence.
  - cbn [mesh_ip_index set_index] in Hi.
    apply lookup_insert_Some in Hi as [[<- <-]|[Hne Hi]]; [by left|]. right; left. destruct (Hsub _ _ Hi). done.
Qed.

Lemma remove_route_routes dst t : routes (remove_route dst t).2 = delete dst (routes t).
Proof.
  unfold remove_route. destruct (routes t !! dst) as [e|] eqn:E; cbn [snd].
  - destruct (rt_mesh_ip e); [case_bool_decide|]; done.
  - by rewrite delete_id.
Qed.

Lemma remove_route_config dst t : same_config t (remove_route dst t).2.
Proof. unfold remove_route. repeat (case_match; cbn [snd]; try done). Qed.

Lemma remove_route_index dst t ip d :
  mesh_ip_index (remove_route dst t).2 !! ip = Some d →
  mesh_ip_index t !! ip = Some d ∧ ∀ e, routes t !! dst = Some e → rt_mesh_ip e = Some ip → d ≠ dst.
Proof.
  unfold remove_route. destruct (routes t !! dst) as [e|] eqn:E; cbn [snd]; [|done].
  destruct (rt_mesh_ip e) as [eip|] eqn:Ei.
  - case_bool_decide as Hd; cbn [mesh_ip_index set_routes set_index] in *.
    + rewrite lookup_delete_Some. intros [Hne Hi]. split; [done|]. intros e' [= <-]. congruence.
    + intros Hi. split; [done|]. intros e' [= <-] Hip ->. rewrite Ei in Hip. simplify_eq.
  - cbn [mesh_ip_index set_routes]. intros Hi. split; [done|]. intros e' [= <-]. congruence.
Qed.

Lemma remove_routes_lookup dsts t x :
  routes (remove_routes dsts t) !! x = if bool_decide (x ∈ dsts) then None else routes t !! x.
Proof.
  clear digest. unfold remove_routes. revert t.
  induction dsts as [|d dsts IH]; intros t; cbn [fold_left]; [done|]. rewrite IH, remove_route_routes.
  repeat case_bool_decide; rewrite ?elem_of_cons in *; try tauto.
  - destruct (decide (x = d)) as [->|]; [by rewrite lookup_delete_eq|tauto].
  - rewrite lookup_delete_ne; [done|]. intros ->. tauto.
Qed.

Lemma remove_routes_config dsts t : same_config t (remove_routes dsts t).
Proof.
  unfold remove_routes. revert t. induction dsts as [|d dsts IH]; intros t; cbn [fold_left]; [done|].
  etrans; [apply remove_route_config|apply IH].
Qed.

Lemma elem_of_keys_where P t dst :
  dst ∈ keys_where P t ↔ ∃ e, routes t !! dst = Some e ∧ P dst e = true.
Proof.
  unfold keys_where. rewrite list_elem_of_fmap. split.
  - intros ([d e] & -> & Hin). apply list_elem_of_In, filter_In in Hin as [Hin HP].
    exists e. split; [|done]. by apply elem_of_map_to_list, list_elem_of_In.
  - intros (e & He & HP). exists (dst, e). split; [done|]. apply list_elem_of_In, filter_In. split; [|done].
    by apply list_elem_of_In, elem_of_map_to_list.
Qed.

Lemma remove_where_lookup P t dst :
  routes (remove_where P t).2 !! dst =
  match routes t !! dst with Some e => if P dst e then None else Some e | None => None end.
Proof.
  assert (Hk : routes (remove_routes (keys_where P t) t) !! dst =
    match routes t !! dst with Some e => if P dst e then None else Some e | None => None end).
  { rewrite remove_routes_lookup. case_bool_decide as Hin.
    - apply elem_of_keys_where in Hin as (e & -> & ->). done.
    - destruct (routes t !! dst) as [e|] eqn:E; [|done]. destruct (P dst e) eqn:HP; [|done].
      destruct Hin. apply elem_of_keys_where. eauto. }
  unfold remove_where. by destruct (keys_where P t).
Qed.

Lemma remove_where_config P t : same_config t (remove_where P t).2.
Proof. unfold remove_where. destruct (keys_where P t); [done|]. apply remove_routes_config. Qed.

(** ** The table invariant *)

(** Every address of the reverse index belongs to an installed route. *)
Definition index_ok t : Prop :=
  ∀ ip dst, mesh_ip_index t !! ip = Some dst → ∃ e, routes t !! dst = Some e ∧ rt_mesh_ip e = Some ip.

(** What holds of every installed route; one to the node itself is the direct
    route to a peer that presented the node's own identifier. *)
Definition route_ok t dst e : Prop :=
  (dst = self_id t → rt_next_hop e = dst) ∧ 1 ≤ rt_hops e < INFINITY ∧ rt_next_hop e = rt_learned_from e ∧
  is_Some (rt_mesh_ip e) ∧ 0 ≤ rt_sequence e ≤ default 0 (peer_max_seq t !! rt_learned_from e).

Record table_ok t : Prop := {
  to_index : index_ok t;
  to_routes : map_Forall (route_ok t) (routes t);
  to_seqs : map_Forall (λ _ s, 0 ≤ s) (peer_max_seq t);
}.

Lemma route_ok_config t t' dst e : same_config t t' → route_ok t dst e → route_ok t' dst e.
Proof. intros [Hs _ _ _ Hq _ _ _] H. unfold route_ok in *. by rewrite Hs, Hq. Qed.

Lemma insert_route_ok dst e t :
  table_ok t → route_ok t dst (with_mesh_ip (Some (derived t dst)) e) → table_ok (insert_route digest dst e t).
Proof.
  intros [Hi Hr Hq] He. pose proof (insert_route_config dst e t) as Hc. split.
  - intros ip d Hd. rewrite insert_route_routes.
    apply insert_route_index in Hd as [[-> ->]|[(Hd & Hne & Hold)|(Hd & -> & Hne)]].
    + exists (with_mesh_ip (Some (derived t dst)) e). by rewrite lookup_insert_eq.
    + destruct (Hi _ _ Hd) as (e' & He' & Hip). destruct (decide (d = dst)) as [->|].
      * destruct (Hold e' He'); [|done]. congruence.
      * exists e'. by rewrite lookup_insert_ne.
    + destruct (Hi _ _ Hd) as (e' & He' & Hip). exists e'. by rewrite lookup_insert_ne.
  - rewrite insert_route_routes. apply map_Forall_insert_2; [by apply (route_ok_config t)|].
    eapply map_Forall_impl; [exact Hr|]. intros. by apply (route_ok_config t).
  - by rewrite (sc_peer_max_seq _ _ Hc).
Qed.

Lemma remove_route_index_ok dst t : index_ok t → index_ok (remove_route dst t).2.
Proof.
  intros Hi ip d [Hd Hne]%remove_route_index. rewrite remove_route_routes.
  destruct (Hi _ _ Hd) as (e & He & Hip). exists e. split; [|done].
  rewrite lookup_delete_ne; [done|]. intros <-. by apply (Hne e).
Qed.

Lemma remove_where_index_ok P t : index_ok t → index_ok (remove_where P t).2.
Proof.
  unfold remove_where. destruct (keys_where P t) as [|k ks]; [done|]. cbn [snd]. generalize (k :: ks).
  clear k ks. intros dsts. unfold remove_routes. revert t.
  induction dsts as [|d dsts IH]; intros t Ht; cbn [fold_left]; [done|].
  by apply IH, remove_route_index_ok.
Qed.

Lemma remove_route_ok dst t : table_ok t → table_ok (remove_route dst t).2.
Proof.
  intros [Hi Hr Hq]. pose proof (remove_route_config dst t) as Hc. split.
  - by apply remove_route_index_ok.
  - rewrite remove_route_routes. apply map_Forall_delete.
    eapply map_Forall_impl; [exact Hr|]. intros. by apply (route_ok_config t).
  - by rewrite (sc_peer_max_seq _ _ Hc).
Qed.

Lemma remove_routes_ok dsts t : table_ok t → table_ok (remove_routes dsts t).
Proof.
  unfold remove_routes. revert t. induction dsts as [|d dsts IH]; intros t Ht; cbn [fold_left]; [done|].
  by apply IH, remove_route_ok.
Qed.

Lemma remove_where_ok P t : table_ok t → table_ok (remove_where P t).2.
Proof. intros Ht. unfold remove_where. destruct (keys_where P t); [done|]. by apply remove_routes_ok. Qed.

(** Replacing a route by one with the same address and a larger claim on
    nothing keeps the invariant: the metric updates and [last_seen]. *)
Lemma update_entry_ok dst e e' t :
  table_ok t → routes t !! dst = Some e → rt_mesh_ip e' = rt_mesh_ip e → route_ok t dst e' →
  table_ok (set_routes (<[dst := e']> (routes t)) t).
Proof.
  intros [Hi Hr Hq] He Hm Ho. split; cbn [mesh_ip_index routes set_routes peer_max_seq].
  - intros ip d Hd. cbn [mesh_ip_index routes set_routes] in *. destruct (Hi _ _ Hd) as (e0 & He0 & Hip).
    destruct (decide (d = dst)) as [->|]; [|exists e0; by rewrite lookup_insert_ne].
    exists e'. rewrite lookup_insert_eq. split; [done|]. congruence.
  - by apply map_Forall_insert_2.
  - done.
Qed.

Lemma peer_entry_ok now p s t :
  table_ok t → 0 ≤ s ≤ default 0 (peer_max_seq t !! p) →
  route_ok t p (with_mesh_ip (Some (derived t p)) (peer_entry now p s)).
Proof. intros Ht Hs. unfold route_ok. cbn. split_and!; try done; lia. Qed.

Lemma seq_default_nonneg p t : table_ok t → 0 ≤ default 0 (peer_max_seq t !! p).
Proof.
  intros [_ _ Hq]. destruct (peer_max_seq t !! p) as [s|] eqn:E; cbn; [|lia]. by apply (Hq p).
Qed.

Lemma add_peer_ok now p t : table_ok t → table_ok (add_peer digest now p t).
Proof.
  intros Ht. pose proof (seq_default_nonneg p t Ht). apply insert_route_ok.
  - destruct Ht. by split.
  - apply (peer_entry_ok now p 0 t); [done|lia].
Qed.

(** A peer that leaves takes its routes and its sequence number with it. *)
Lemma remove_peer_ok p t : table_ok t → table_ok (remove_peer p t).2.
Proof.
  intros [Hi Hr Hq]. unfold remove_peer, remove_routes_via.
  match goal with |- table_ok (remove_where ?P ?t2).2 =>
    pose proof (remove_where_config P t2) as Hc; pose proof (remove_where_lookup P t2) as Hl;
    pose proof (remove_where_index_ok P t2 Hi) as Hi'; set (t' := (remove_where P t2).2) in * end.
  clearbody t'. cbn [routes set_peer_max_seq set_direct_peers] in Hl. split; [done| |].
  - intros d e He. rewrite Hl in He. destruct (routes t !! d) as [e0|] eqn:E; [|done].
    case_bool_decide as Hp; [done|]. simplify_eq. destruct (Hr _ _ E) as (? & ? & Hn & ? & ?).
    destruct Hc as [Hs _ _ _ Hm _ _ _]. cbn in Hs, Hm. unfold route_ok. rewrite Hs, Hm.
    rewrite lookup_delete_ne by congruence. split_and!; try done; lia.
  - rewrite (sc_peer_max_seq _ _ Hc). cbn. by apply map_Forall_delete.
Qed.

Lemma blacklist_peer_ok p t : table_ok t → table_ok (blacklist_peer p t).2.
Proof. intros [Hi Hr Hq]. apply remove_where_ok. by split. Qed.

Lemma update_gateway_load_ok gw load t : table_ok t → table_ok (update_gateway_load gw load t).
Proof.
  intros Ht. unfold update_gateway_load. destruct (routes t !! gw) as [e|] eqn:E; [|done].
  destruct (rt_is_gateway e); [|done]. eapply update_entry_ok; [done|done|done|]. apply (to_routes t Ht _ _ E).
Qed.

Lemma update_gateway_rtt_ok gw rtt t : table_ok t → table_ok (update_gateway_rtt gw rtt t).
Proof.
  intros Ht. unfold update_gateway_rtt. destruct (routes t !! gw) as [e|] eqn:E; [|done].
  destruct (rt_is_gateway e); [|done]. eapply update_entry_ok; [done|done|done|]. apply (to_routes t Ht _ _ E).
Qed.

(** ** Route updates *)

(** A larger sequence number of a peer keeps the routes well formed. *)
Lemma set_peer_max_seq_ok p s t :
  table_ok t → default 0 (peer_max_seq t !! p) ≤ s → table_ok (set_peer_max_seq (<[p := s]> (peer_max_seq t)) t).
Proof.
  intros Ht Hs. pose proof (seq_default_nonneg p t Ht). destruct Ht as [Hi Hr Hq]. split; [done| |].
  - intros d e He. destruct (Hr d e He) as (? & ? & ? & ? & ?). unfold route_ok. cbn.
    split_and!; try done; try lia. destruct (decide (rt_learned_from e = p)) as [<-|].
    + rewrite lookup_insert_eq. cbn. lia.
    + rewrite lookup_insert_ne by done. lia.
  - cbn. apply map_Forall_insert_2; [lia|done].
Qed.

Lemma touch_sender_config now s p t : same_config t (touch_sender digest now s p t).2.
Proof. unfold touch_sender. destruct (routes t !! p); [done|]. apply insert_route_config. Qed.

Lemma touch_sender_ok now s p t :
  table_ok t → 0 ≤ s ≤ default 0 (peer_max_seq t !! p) →
  table_ok (touch_sender digest now s p t).2.
Proof.
  intros Ht Hs. unfold touch_sender. destruct (routes t !! p) as [e|] eqn:E; cbn [snd].
  - eapply update_entry_ok; [done|done|done|]. apply (to_routes t Ht _ _ E).
  - apply insert_route_ok; [done|]. by apply peer_entry_ok.
Qed.

Lemma apply_entry_config now s p st a : same_config st.2 (apply_entry digest now s p st a).2.
Proof.
  destruct st as [c t]. unfold apply_entry. cbn [snd].
  repeat (case_match; cbn [snd]; try done);
    first [apply insert_route_config | apply remove_route_config].
Qed.

Lemma apply_entry_ok now s p st a :
  table_ok st.2 → 0 ≤ re_hops a → 0 ≤ s ≤ default 0 (peer_max_seq st.2 !! p) →
  table_ok (apply_entry digest now s p st a).2.
Proof.
  destruct st as [c t]. unfold apply_entry. cbn [snd]. intros Ht Ha Hs.
  case_bool_decide as Hself; [done|]. destruct (Z.leb_spec INFINITY (Z.min (re_hops a + 1) INFINITY)).
  - destruct (routes t !! re_destination a); [|done]. case_bool_decide; [|done]. by apply remove_route_ok.
  - assert (∀ load rtt, table_ok (insert_route digest (re_destination a)
      {| rt_next_hop := p; rt_hops := Z.min (re_hops a + 1) INFINITY; rt_is_gateway := RouteEntry_is_gateway a;
         rt_last_seen := now; rt_learned_from := p; rt_sequence := s; rt_gateway_load := load;
         rt_rtt_ms := rtt; rt_mesh_ip := None |} t)) as Hins.
    { intros. apply insert_route_ok; [done|]. unfold route_ok. cbn. unfold INFINITY in *.
      split_and!; try done; lia. }
    destruct (routes t !! re_destination a); [|apply Hins]. case_match; [|done]. case_match. apply Hins.
Qed.

Lemma apply_entries_config now s p l st :
  same_config st.2 (fold_left (apply_entry digest now s p) l st).2.
Proof.
  revert st. induction l as [|a l IH]; intros st; cbn [fold_left]; [done|].
  etrans; [apply apply_entry_config|apply IH].
Qed.

Lemma apply_entries_ok now s p l st :
  table_ok st.2 → Forall (λ a, 0 ≤ re_hops a) l → 0 ≤ s ≤ default 0 (peer_max_seq st.2 !! p) →
  table_ok (fold_left (apply_entry digest now s p) l st).2.
Proof.
  intros Ht Hl. revert st Ht. induction Hl as [|a l Ha _ IH]; intros st Ht Hs; cbn [fold_left]; [done|].
  apply IH; [by apply apply_entry_ok|]. by rewrite (sc_peer_max_seq _ _ (apply_entry_config now s p st a)).
Qed.

(** The three tests [apply_update] makes before it looks at the routes. *)
Definition is_suspicious (u : RouteUpdateFrame) : bool :=
  existsb (λ a, (re_hops a =? 0) && negb (bool_decide (re_destination a = ru_origin_id u))) (ru_entries u).
Definition accepts (u : RouteUpdateFrame) p t : Prop :=
  ru_origin_id u = p ∧ default 0 (peer_max_seq t !! p) < ru_sequence u ∧ is_suspicious u = false.
Definition destinations (u : RouteUpdateFrame) : list NodeId := map re_destination (ru_entries u).
Definition withdrawn (u : RouteUpdateFrame) p dst e : bool :=
  bool_decide (rt_learned_from e = p) && negb (bool_decide (dst = p))
  && negb (bool_decide (dst ∈ (list_to_set (destinations u) : gset NodeId))).
Definition bump p s t := set_peer_max_seq (<[p := s]> (peer_max_seq t)) t.

Lemma apply_update_accepted now u p t :
  accepts u p t →
  (apply_update digest now u p t).2 =
  (remove_where (withdrawn u p)
     (fold_left (apply_entry digest now (ru_sequence u) p) (ru_entries u)
        (touch_sender digest now (ru_sequence u) p (bump p (ru_sequence u) t))).2).2.
Proof.
  intros (Ho & Hs & Hz). unfold apply_update. rewrite bool_decide_eq_true_2 by done. cbn [negb].
  destruct (Z.leb_spec (ru_sequence u) (default 0 (peer_max_seq t !! p))); [lia|].
  fold (is_suspicious u). rewrite Hz. fold (bump p (ru_sequence u) t).
  destruct (fold_left _ _ _) as [c t']. fold (destinations u). fold (withdrawn u p). cbn [snd].
  unfold remove_where. by destruct (keys_where (withdrawn u p) t').
Qed.

(** The three ways an update is turned away. *)
Lemma apply_update_rejected now u p t :
  ¬ accepts u p t →
  (apply_update digest now u p t).1 = Unchanged ∧
  ((apply_update digest now u p t).2 = t ∨
   (ru_origin_id u = p ∧ default 0 (peer_max_seq t !! p) < ru_sequence u ∧
    (apply_update digest now u p t).2 = bump p (ru_sequence u) t)).
Proof.
  intros Hn. unfold apply_update. case_bool_decide as Ho; cbn [negb]; [|by split; [|left]].
  destruct (Z.leb_spec (ru_sequence u) (default 0 (peer_max_seq t !! p))); [by split; [|left]|].
  fold (is_suspicious u). destruct (is_suspicious u) eqn:Hz; [by split; [|right]|]. by destruct Hn.
Qed.

Lemma accepts_dec u p t : accepts u p t ∨ ¬ accepts u p t.
Proof.
  clear digest. unfold accepts. destruct (decide (ru_origin_id u = p)); [|tauto].
  destruct (decide (default 0 (peer_max_seq t !! p) < ru_sequence u)); [|tauto].
  destruct (is_suspicious u); intuition congruence.
Qed.

Lemma bump_seq p s t : default 0 (peer_max_seq (bump p s t) !! p) = s.
Proof. cbn. by rewrite lookup_insert_eq. Qed.

Lemma apply_update_self now u p t : self_id (apply_update digest now u p t).2 = self_id t.
Proof.
  destruct (accepts_dec u p t) as [Ha|Hn].
  - rewrite apply_update_accepted by done. rewrite (sc_self_id _ _ (remove_where_config _ _)).
    rewrite (sc_self_id _ _ (apply_entries_config _ _ _ _ _)), (sc_self_id _ _ (touch_sender_config _ _ _ _)). done.
  - destruct (apply_update_rejected now u p t Hn) as [_ [->|(_ & _ & ->)]]; done.
Qed.

Lemma apply_update_ok now u p t :
  table_ok t → Forall (λ a, 0 ≤ re_hops a) (ru_entries u) →
  table_ok (apply_update digest now u p t).2.
Proof.
  intros Ht Hh. destruct (accepts_dec u p t) as [Ha|Hn].
  - pose proof (seq_default_nonneg p t Ht). destruct Ha as (Ho & Hs & Hz).
    rewrite apply_update_accepted by done. apply remove_where_ok.
    assert (table_ok (bump p (ru_sequence u) t)) by (apply set_peer_max_seq_ok; [done|lia]).
    apply apply_entries_ok; [|done|].
    + apply touch_sender_ok; [done|]. rewrite bump_seq. lia.
    + rewrite (sc_peer_max_seq _ _ (touch_sender_config _ _ _ _)), bump_seq. lia.
  - destruct (apply_update_rejected now u p t Hn) as [_ [->|(_ & ? & ->)]]; [done|].
    apply set_peer_max_seq_ok; [done|lia].
Qed.

(** ** Where the routes come from

    Every route of [t'] was one of [t], with that address, or has the address
    derived from its destination; only one to [p] itself may lead to the node. *)
Record comes_from p t t' : Prop := {
  cmf_self : self_id t' = self_id t;
  cmf_prefix : ipv4_prefix t' = ipv4_prefix t;
  cmf_routes : ∀ d e', routes t' !! d = Some e' →
    (∃ e, routes t !! d = Some e ∧ rt_mesh_ip e' = rt_mesh_ip e) ∨ (rt_mesh_ip e' = Some (derived t d) ∧ (d = self_id t → p = d));
}.
#[local] Instance comes_from_preorder p : PreOrder (comes_from p).
Proof.
  split; [intros t; split; eauto|]. intros t1 t2 t3 [S1 P1 R1] [S2 P2 R2]. split; [congruence..|].
  intros d e3 [(e2 & He2 & H32)|[Hip Hp]]%R2; [|right; unfold derived in *; by rewrite <- P1, <- S1].
  destruct (R1 _ _ He2) as [(e1 & He1 & H21)|[Hip Hp]]; [left; exists e1; split; [done|congruence]|right; split; [congruence|done]].
Qed.

Lemma comes_from_sub p t t' : same_config t t' → (∀ d e, routes t' !! d = Some e → routes t !! d = Some e) → comes_from p t t'.
Proof. intros [] Hsub. split; [done..|]. eauto. Qed.

Lemma comes_from_insert p dst e t : (dst = self_id t → p = dst) → comes_from p t (insert_route digest dst e t).
Proof.
  intros Hp. destruct (insert_route_config dst e t). split; [done..|]. intros d e'. rewrite insert_route_routes.
  intros [[<- <-]|[_ He]]%lookup_insert_Some; [by right|eauto].
Qed.

Lemma comes_from_update p dst e e' t :
  routes t !! dst = Some e → rt_mesh_ip e' = rt_mesh_ip e → comes_from p t (set_routes (<[dst := e']> (routes t)) t).
Proof. intros He Hip. split; [done..|]. intros d e2. cbn. intros [[<- <-]|[_ He2]]%lookup_insert_Some; eauto. Qed.

Lemma comes_from_remove_where p P t : comes_from p t (remove_where P t).2.
Proof.
  apply comes_from_sub; [apply remove_where_config|]. intros d e. rewrite remove_where_lookup.
  destruct (routes t !! d); [|done]. by destruct (P _ _).
Qed.

Lemma comes_from_touch now s p t : comes_from p t (touch_sender digest now s p t).2.
Proof.
  unfold touch_sender. destruct (routes t !! p) as [e|] eqn:E; cbn [snd]; [by eapply comes_from_update|by apply comes_from_insert].
Qed.

Lemma comes_from_entry now s p st a : comes_from p st.2 (apply_entry digest now s p st a).2.
Proof.
  destruct st as [c t]. unfold apply_entry. cbn [snd]. case_bool_decide as Hself; [done|].
  repeat (case_match; cbn [snd]; try done); try by apply comes_from_insert.
  apply comes_from_sub; [apply remove_route_config|]. intros d e. rewrite remove_route_routes, lookup_delete_Some. tauto.
Qed.

Lemma comes_from_entries now s p l st : comes_from p st.2 (fold_left (apply_entry digest now s p) l st).2.
Proof. revert st. induction l as [|a l IH]; intros st; cbn [fold_left]; [done|]. etrans; [apply comes_from_entry|apply IH]. Qed.

Lemma comes_from_bump p q s t : comes_from q t (bump p s t).
Proof. split; [done..|]. eauto. Qed.

Lemma comes_from_apply_update now u p t : comes_from p t (apply_update digest now u p t).2.
Proof.
  destruct (accepts_dec u p t) as [Ha|Hn].
  - rewrite apply_update_accepted by done. etrans; [|apply comes_from_remove_where]. etrans; [|apply comes_from_entries].
    etrans; [|apply comes_from_touch]. apply comes_from_bump.
  - destruct (apply_update_rejected now u p t Hn) as [_ [->|(_ & _ & ->)]]; [done|apply comes_from_bump].
Qed.

Lemma comes_from_add_peer now p t : comes_from p t (add_peer digest now p t).
Proof. unfold add_peer. etrans; [|by apply comes_from_insert]. split; [done..|]. eauto. Qed.

(** No peer but [p] brings a route to the node itself. *)
Lemma comes_from_no_self p t t' : comes_from p t t' → p ≠ self_id t → routes t !! self_id t = None → routes t' !! self_id t = None.
Proof.
  intros [_ _ Hr] Hp Hn. destruct (routes t' !! self_id t) as [e|] eqn:E; [|done].
  destruct (Hr _ _ E) as [(e0 & He0 & _)|[_ Heq]]; [congruence|]. by destruct Hp, (Heq eq_refl).
Qed.

(** ** Reachable tables *)
Section Reachable.
(** The identifiers peers present, and the prefixes the table is given. *)
Context (presents : NodeId → Prop) (prefixes : Ipv4Prefix → Prop).

(** Every operation on the table; a decoded hop count is a byte. *)
Inductive routing_step : RoutingTable → RoutingTable → Prop :=
| StepAddPeer now p t : presents p → routing_step t (add_peer digest now p t)
| StepRemovePeer p t : routing_step t (remove_peer p t).2
| StepBlacklist p t : routing_step t (blacklist_peer p t).2
| StepUnblacklist p t : routing_step t (unblacklist_peer p t)
| StepUpdate now u p t :
    presents p → Forall (λ a, u8_ok (re_hops a)) (ru_entries u) →
    routing_step t (apply_update digest now u p t).2
| StepExpire now age t : routing_step t (expire_stale now age t).2
| StepAdvertise iter p t : iter ≡ₚ map_to_list (routes t) → routing_step t (generate_advertisement iter p t).2
| StepLoad gw load t : routing_step t (update_gateway_load gw load t)
| StepRtt gw rtt t : routing_step t (update_gateway_rtt gw rtt t)
| StepPrefix prefix t : prefixes prefix → routing_step t (set_ipv4_prefix prefix t)
| StepSelfIp ip t : routing_step t (set_self_mesh_ip ip t).

Definition reachable t : Prop := ∃ id gw prefix, prefixes prefix ∧ rtc routing_step (RoutingTable_new id gw prefix) t.

(** Addresses are derived, under a prefix the table has had. *)
Definition addresses_ok t : Prop :=
  prefixes (ipv4_prefix t) ∧
  map_Forall (λ d e, ∃ prefix, prefixes prefix ∧ rt_mesh_ip e = Some (derive_mesh_ipv4 digest d prefix)) (routes t).
(** No route to the node itself unless a peer presented its identifier. *)
Definition self_ok t : Prop := ¬ presents (self_id t) → routes t !! self_id t = None.

Lemma comes_from_facts p t t' : comes_from p t t' → (p = self_id t → presents p) → addresses_ok t ∧ self_ok t → addresses_ok t' ∧ self_ok t'.
Proof.
  intros Hc Hp [[Hpre Ha] Hs]. split; [split|].
  - by rewrite (cmf_prefix _ _ _ Hc).
  - intros d e [(e0 & He0 & ->)|[-> _]]%(cmf_routes _ _ _ Hc); [by eapply Ha|]. by exists (ipv4_prefix t).
  - unfold self_ok. rewrite (cmf_self _ _ _ Hc). intros Hn. eapply comes_from_no_self; [done| |auto].
    intros Heq. apply Hn. rewrite <- Heq. auto.
Qed.

Lemma same_routes_facts t t' :
  ipv4_prefix t' = ipv4_prefix t → self_id t' = self_id t → routes t' = routes t → addresses_ok t ∧ self_ok t → addresses_ok t' ∧ self_ok t'.
Proof. intros H1 H2 H3. unfold addresses_ok, self_ok. by rewrite H1, H2, H3. Qed.

Lemma remove_where_facts P t : addresses_ok t ∧ self_ok t → addresses_ok (remove_where P t).2 ∧ self_ok (remove_where P t).2.
Proof.
  intros Ht. destruct Ht as [[Hpre Ha] Hs]. pose proof (remove_where_config P t) as Hc. split; [split|].
  - by rewrite (sc_prefix _ _ Hc).
  - intros d e. rewrite remove_where_lookup. destruct (routes t !! d) as [e0|] eqn:E; [|done]. destruct (P d e0); [done|].
    intros [= <-]. by eapply Ha.
  - unfold self_ok. rewrite (sc_self_id _ _ Hc), remove_where_lookup. intros Hn. by rewrite (Hs Hn).
Qed.

Lemma update_entry_facts dst e e' t :
  routes t !! dst = Some e → rt_mesh_ip e' = rt_mesh_ip e → addresses_ok t ∧ self_ok t →
  addresses_ok (set_routes (<[dst := e']> (routes t)) t) ∧ self_ok (set_routes (<[dst := e']> (routes t)) t).
Proof.
  intros He Hip [[Hpre Ha] Hs]. split; [split|]; [done| |].
  - cbn. apply map_Forall_insert_2; [rewrite Hip; by apply (Ha dst e)|done].
  - unfold self_ok. cbn. intros Hn. rewrite lookup_insert_ne; [auto|]. intros ->. by rewrite (Hs Hn) in He.
Qed.

Lemma routing_step_facts t t' : routing_step t t' → addresses_ok t ∧ self_ok t → addresses_ok t' ∧ self_ok t'.
Proof.
  destruct 1 as [now p t Hp|p t|p t|p t|now u p t Hp Hh|now age t|iter p t Hi|gw load t|gw rtt t|prefix t Hpre|ip t].
  - eapply comes_from_facts; [apply comes_from_add_peer|done].
  - intros Ht. unfold remove_peer, remove_routes_via. apply remove_where_facts. by apply (same_routes_facts t).
  - intros Ht. unfold blacklist_peer, remove_routes_via. apply remove_where_facts. by apply (same_routes_facts t).
  - by apply same_routes_facts.
  - eapply comes_from_facts; [apply comes_from_apply_update|done].
  - apply remove_where_facts.
  - by apply same_routes_facts.
  - unfold update_gateway_load. destruct (routes t !! gw) as [e|] eqn:E; [|done]. destruct (rt_is_gateway e); [by eapply update_entry_facts|done].
  - unfold update_gateway_rtt. destruct (routes t !! gw) as [e|] eqn:E; [|done]. destruct (rt_is_gateway e); [by eapply update_entry_facts|done].
  - by intros [[_ Ha] Hs].
  - by apply same_routes_facts.
Qed.

Lemma routing_step_ok t t' : routing_step t t' → table_ok t → table_ok t'.
Proof.
  destruct 1; intros Ht; eauto using add_peer_ok, remove_peer_ok, blacklist_peer_ok, update_gateway_load_ok,
    update_gateway_rtt_ok; try (destruct Ht; by split).
  - apply apply_update_ok; [done|]. eapply Forall_impl; [done|]. intros a [? _]. done.
  - by apply remove_where_ok.
Qed.

Lemma table_ok_new id gw prefix : table_ok (RoutingTable_new id gw prefix).
Proof. split; cbn; [by intros ??|apply map_Forall_empty|apply map_Forall_empty]. Qed.

Lemma reachable_table_ok t : reachable t → table_ok t.
Proof.
  intros (id & gw & prefix & _ & Hr). pose proof (table_ok_new id gw prefix) as H0. revert H0.
  induction Hr as [|t1 t2 t3 Hs _ IH]; eauto using routing_step_ok.
Qed.

Lemma reachable_facts t : reachable t → addresses_ok t ∧ self_ok t.
Proof.
  intros (id & gw & prefix & Hp & Hr).
  assert (H0 : addresses_ok (RoutingTable_new id gw prefix) ∧ self_ok (RoutingTable_new id gw prefix)).
  { split; [split; [done|apply map_Forall_empty]|by intros _]. }
  revert H0. clear Hp. induction Hr as [|t1 t2 t3 Hs _ IH]; eauto using routing_step_facts.
Qed.
End Reachable.
End Proofs.
