(* ===== verification/RoutingSpec.v ===== *)
(** * What the routing table promises

    [apply_update] as one relaxation of the distance-vector algorithm, split
    horizon with poisoned reverse, replay protection, the lookups and the
    choice of gateway. *)

From S2P Require Import Prelude Core MeshAddress Frames Routing RoutingProofs.

(** ** The distance-vector relaxation, abstractly *)

(** What routing decides on: the next hop, the distance and the gateway flag. *)
Record hop := { h_next : NodeId; h_hops : Z; h_gateway : bool }.
Definition hop_of (e : RouteTableEntry) : hop :=
  {| h_next := rt_next_hop e; h_hops := rt_hops e; h_gateway := rt_is_gateway e |}.
Definition hops_of (o : option RouteTableEntry) : option hop := option_map hop_of o.

Definition advertised (u : RouteUpdateFrame) (d : NodeId) : option RouteEntry :=
  List.find (λ a, bool_decide (re_destination a = d)) (ru_entries u).

(** The distance to a destination through the sender; [INFINITY] when the
    sender does not advertise it. *)
Definition dv_metric (adv : option RouteEntry) : Z :=
  match adv with Some a => Z.min (re_hops a + 1) INFINITY | None => INFINITY end.

(** One relaxation: a route through another neighbour stays unless the sender
    offers a strictly shorter one; a route through the sender follows the
    sender, up or down. *)
Definition dv_relax (p : NodeId) (cur : option hop) (adv : option RouteEntry) : option hop :=
  let m := dv_metric adv in
  let candidate :=
    match adv with
    | Some a => if m <? INFINITY
                then Some {| h_next := p; h_hops := m; h_gateway := RouteEntry_is_gateway a |} else None
    | None => None
    end in
  match cur with
  | Some h => if negb (bool_decide (h_next h = p)) && (h_hops h <=? m) then cur else candidate
  | None => candidate
  end.

(** What an accepted update makes of the route to [d]: a relaxation, except for
    the sender itself.  Its route is not withdrawn when it does not list itself;
    and while it has none, it gets the direct one, whatever it says of itself,
    unless it poisons it. *)
Definition dv_update (p d : NodeId) (cur : option hop) (adv : option RouteEntry) : option hop :=
  let direct := Some {| h_next := p; h_hops := 1; h_gateway := false |} in
  if bool_decide (d = p) then
    match cur, adv with
    | Some _, Some _ => dv_relax p cur adv
    | Some _, None => cur
    | None, Some _ => if dv_metric adv <? INFINITY then direct else None
    | None, None => direct
    end
  else dv_relax p cur adv.

Section Spec.
Context (digest : NodeId → list Z).
Implicit Types (t : RoutingTable) (e : RouteTableEntry) (d p : NodeId).

Lemma apply_entry_other now s p st a d :
  re_destination a ≠ d → routes (apply_entry digest now s p st a).2 !! d = routes st.2 !! d.
Proof.
  destruct st as [c t]. intros Hd. unfold apply_entry. cbn [snd].
  repeat (case_match; cbn [snd]; try done);
    rewrite ?insert_route_routes, ?remove_route_routes, ?lookup_insert_ne, ?lookup_delete_ne by done; done.
Qed.

Lemma apply_entry_self now s p c t a :
  re_destination a ≠ self_id t →
  (∀ e, routes t !! re_destination a = Some e → rt_hops e < INFINITY ∧ (rt_next_hop e = p → rt_sequence e < s)) →
  hops_of (routes (apply_entry digest now s p (c, t) a).2 !! re_destination a) =
  dv_relax p (hops_of (routes t !! re_destination a)) (Some a).
Proof.
  intros Hself Hold. unfold apply_entry, dv_relax, dv_metric. rewrite bool_decide_eq_false_2 by done.
  set (m := Z.min (re_hops a + 1) INFINITY). destruct (routes t !! re_destination a) as [e|] eqn:E.
  - destruct (Hold e eq_refl) as [Hh Hs]. cbn [hops_of option_map hop_of h_next h_hops].
    destruct (Z.leb_spec INFINITY m) as [Hm|Hm].
    + rewrite (proj2 (Z.ltb_ge m INFINITY)) by lia. rewrite (proj2 (Z.leb_le (rt_hops e) m)) by lia.
      rewrite andb_true_r. case_bool_decide; cbn [negb snd].
      * by rewrite remove_route_routes, lookup_delete_eq.
      * by rewrite E.
    + rewrite (proj2 (Z.ltb_lt m INFINITY)) by lia. case_bool_decide as Hp; cbn [negb andb].
      * rewrite (proj2 (Z.ltb_lt (rt_sequence e) s)) by auto. cbn [andb]. rewrite orb_true_r.
        case_match. cbn [snd]. by rewrite insert_route_routes, lookup_insert_eq.
      * rewrite andb_false_r, orb_false_r. destruct (Z.ltb_spec m (rt_hops e)).
        -- rewrite (proj2 (Z.leb_gt (rt_hops e) m)) by lia. case_match. cbn [snd].
           by rewrite insert_route_routes, lookup_insert_eq.
        -- rewrite (proj2 (Z.leb_le (rt_hops e) m)) by lia. cbn [snd]. by rewrite E.
  - cbn [hops_of option_map]. destruct (Z.leb_spec INFINITY m).
    + rewrite (proj2 (Z.ltb_ge m INFINITY)) by lia. cbn [snd]. by rewrite E.
    + rewrite (proj2 (Z.ltb_lt m INFINITY)) by lia. cbn [snd]. by rewrite insert_route_routes, lookup_insert_eq.
Qed.

Lemma apply_entries_other now s p l st d :
  d ∉ map re_destination l →
  routes (fold_left (apply_entry digest now s p) l st).2 !! d = routes st.2 !! d.
Proof.
  revert st. induction l as [|a l IH]; intros st Hd; cbn [fold_left]; [done|].
  cbn [map] in Hd. apply not_elem_of_cons in Hd as [Hd1 Hd2]. rewrite IH by done. by apply apply_entry_other.
Qed.

(** With one entry per destination, the route to [d] is handled once. *)
Lemma apply_entries_once now s p l st d a :
  NoDup (map re_destination l) → List.find (λ a, bool_decide (re_destination a = d)) l = Some a →
  ∃ c t, routes t !! d = routes st.2 !! d ∧ self_id t = self_id st.2 ∧ re_destination a = d ∧
    routes (fold_left (apply_entry digest now s p) l st).2 !! d = routes (apply_entry digest now s p (c, t) a).2 !! d.
Proof.
  revert st. induction l as [|b l IH]; intros st Hnd Hf; [done|]. cbn [map List.find fold_left] in *.
  apply NoDup_cons in Hnd as [Hb Hnd]. case_bool_decide as Hd.
  - injection Hf as ->. subst d. rewrite apply_entries_other by done. destruct st as [c t]. by exists c, t.
  - destruct (IH (apply_entry digest now s p st b) Hnd Hf) as (c & t & Hr & Hs & Ha & Heq). exists c, t.
    rewrite Hr, Hs, apply_entry_other by done. split_and!; try done. apply (sc_self_id _ _ (apply_entry_config digest now s p st b)).
Qed.

Lemma find_in (l : list RouteEntry) d :
  d ∈ map re_destination l → ∃ a, List.find (λ a, bool_decide (re_destination a = d)) l = Some a ∧ a ∈ l.
Proof.
  induction l as [|b l IH]; cbn [map List.find]; [by intros ?%elem_of_nil|]. case_bool_decide as Hd; intros Hin.
  - exists b. split; [done|by left].
  - apply elem_of_cons in Hin as [->|Hin]; [done|]. destruct (IH Hin) as (a & ? & ?). exists a. split; [done|by right].
Qed.

Lemma find_not_in (l : list RouteEntry) d :
  d ∉ map re_destination l → List.find (λ a, bool_decide (re_destination a = d)) l = None.
Proof.
  induction l as [|a l IH]; [done|]. cbn [map List.find]. intros [Hne Hni]%not_elem_of_cons.
  rewrite bool_decide_eq_false_2 by done. auto.
Qed.

Lemma touch_sender_other now s p t d :
  d ≠ p → routes (touch_sender digest now s p t).2 !! d = routes t !! d.
Proof.
  intros Hd. unfold touch_sender. destruct (routes t !! p); cbn [snd routes set_routes];
    rewrite ?insert_route_routes, lookup_insert_ne by done; done.
Qed.

Lemma remove_where_keep P t d e :
  routes t !! d = Some e → P d e = false → routes (remove_where P t).2 !! d = Some e.
Proof. intros He HP. by rewrite remove_where_lookup, He, HP. Qed.

(** A listed destination is not withdrawn. *)
Lemma advertised_kept u p d (o : option RouteTableEntry) :
  d ∈ destinations u → match o with Some e => if withdrawn u p d e then None else Some e | None => None end = o.
Proof.
  intros Hin. destruct o as [e|]; [|done]. unfold withdrawn.
  by rewrite (bool_decide_eq_true_2 (d ∈ _)), andb_false_r by (by apply elem_of_list_to_set).
Qed.

(** An accepted update relaxes every destination once. *)
Lemma apply_update_relax now u p t d :
  table_ok t → accepts u p t → NoDup (destinations u) → d ≠ self_id t →
  (d = p → is_Some (routes t !! p) ∧ p ∈ destinations u) →
  hops_of (routes (apply_update digest now u p t).2 !! d) =
  dv_relax p (hops_of (routes t !! d)) (advertised u d).
Proof.
  intros Ht Ha Hnd Hd Hdp. rewrite apply_update_accepted by done. destruct Ha as (Ho & Hs & _).
  set (t1 := bump p (ru_sequence u) t). set (st := touch_sender digest now (ru_sequence u) p t1).
  assert (Hst : hops_of (routes st.2 !! d) = hops_of (routes t !! d) ∧
    ∀ e, routes st.2 !! d = Some e →
      rt_hops e < INFINITY ∧ rt_next_hop e = rt_learned_from e ∧ (rt_next_hop e = p → rt_sequence e < ru_sequence u)).
  { assert (Hold : ∀ e, routes t !! d = Some e → rt_hops e < INFINITY ∧ rt_next_hop e = rt_learned_from e ∧
      (rt_next_hop e = p → rt_sequence e < ru_sequence u)).
    { intros e He. destruct (to_routes t Ht _ _ He) as (_ & [_ ?] & Hl & _ & Hq). split_and!; [done..|].
      intros Hn. rewrite <- Hl, Hn in Hq. lia. }
    destruct (decide (d = p)) as [->|Hne]; [|subst st; by rewrite touch_sender_other].
    destruct (Hdp eq_refl) as [[e He] _]. subst st. unfold touch_sender. cbn [routes t1 bump set_peer_max_seq].
    rewrite He. cbn [snd routes set_routes]. rewrite lookup_insert_eq. split; [done|].
    intros e' [= <-]. exact (Hold e He). }
  destruct Hst as [Hst Hold]. rewrite <- Hst.
  assert (Hself : self_id st.2 = self_id t) by (subst st; by rewrite (sc_self_id _ _ (touch_sender_config digest _ _ _ _))).
  rewrite remove_where_lookup. unfold advertised. destruct (decide (d ∈ destinations u)) as [Hin|Hni].
  - destruct (find_in _ _ Hin) as (a & Hf & _). rewrite Hf, advertised_kept by done.
    destruct (apply_entries_once now (ru_sequence u) p _ st d a Hnd Hf) as (c & t' & Hr & Hs' & Had & ->). rewrite <- Hr, <- Had.
    apply apply_entry_self; [congruence|]. rewrite Had, Hr. intros e He. split; by apply Hold.
  - rewrite apply_entries_other, find_not_in by done. unfold dv_relax, dv_metric.
    destruct (routes st.2 !! d) as [e|] eqn:E; [|done]. destruct (Hold e eq_refl) as (Hh & Hl & _).
    unfold withdrawn. rewrite (bool_decide_eq_false_2 (d ∈ _)) by (by rewrite elem_of_list_to_set).
    rewrite (bool_decide_eq_false_2 (d = p)) by (intros ->; by destruct (Hdp eq_refl)).
    cbn [hops_of option_map hop_of h_next h_hops]. rewrite Hl, (proj2 (Z.leb_le _ _)) by lia.
    case_bool_decide; done.
Qed.

(** The direct route of the sender, when it is new, stays unless it is poisoned. *)
Lemma apply_entry_direct now s p c t a e :
  re_destination a = p → p ≠ self_id t → 0 ≤ re_hops a → routes t !! p = Some e → rt_next_hop e = p → rt_hops e = 1 → rt_sequence e = s →
  routes (apply_entry digest now s p (c, t) a).2 !! p = if dv_metric (Some a) <? INFINITY then Some e else None.
Proof.
  intros <- Hself Ha He Hn Hh Hs. unfold apply_entry, dv_metric. rewrite bool_decide_eq_false_2, He by done.
  rewrite (bool_decide_eq_true_2 _ Hn), Hh, Hs, Z.ltb_irrefl. cbn [andb].
  rewrite (proj2 (Z.ltb_ge (Z.min (re_hops a + 1) INFINITY) 1)) by (unfold INFINITY; lia).
  destruct (Z.leb_spec INFINITY (Z.min (re_hops a + 1) INFINITY)) as [Hle|Hlt]; cbn [orb snd].
  - by rewrite (proj2 (Z.ltb_ge _ _)), remove_route_routes, lookup_delete_eq by done.
  - by rewrite (proj2 (Z.ltb_lt _ _)) by done.
Qed.

Lemma apply_update_sender now u p t :
  accepts u p t → NoDup (destinations u) → Forall (λ a, 0 ≤ re_hops a) (ru_entries u) → p ≠ self_id t →
  routes t !! p = None ∨ p ∉ destinations u →
  hops_of (routes (apply_update digest now u p t).2 !! p) = dv_update p p (hops_of (routes t !! p)) (advertised u p).
Proof.
  intros Ha Hnd Hh Hp Hor. rewrite apply_update_accepted by done. unfold dv_update. rewrite bool_decide_eq_true_2 by done.
  set (t1 := bump p (ru_sequence u) t). set (st := touch_sender digest now (ru_sequence u) p t1).
  assert (Hself : self_id st.2 = self_id t) by (subst st; by rewrite (sc_self_id _ _ (touch_sender_config digest _ _ _ _))).
  rewrite remove_where_lookup. unfold advertised. destruct (decide (p ∈ destinations u)) as [Hin|Hni].
  - destruct Hor as [Hno|?]; [|done]. destruct (find_in _ _ Hin) as (a & Hf & Hal). rewrite Hno, Hf, advertised_kept by done. cbn [hops_of option_map].
    destruct (apply_entries_once now (ru_sequence u) p _ st p a Hnd Hf) as (c & t' & Hr & Hs' & Had & ->).
    subst st. unfold touch_sender in Hr, Hself, Hs'. cbn [t1 bump routes set_peer_max_seq] in Hr, Hself, Hs'. rewrite Hno in Hr, Hself, Hs'. cbn [snd] in Hr, Hself, Hs'.
    rewrite insert_route_routes, lookup_insert_eq in Hr. rewrite Forall_forall in Hh.
    erewrite apply_entry_direct; [|done|by rewrite Hs', Hself|by apply Hh|exact Hr|done..]. by destruct (_ <? _).
  - rewrite apply_entries_other, find_not_in by done. subst st. unfold touch_sender. cbn [t1 bump routes set_peer_max_seq].
    assert (Hk : ∀ o : option RouteTableEntry, match o with Some e => if withdrawn u p p e then None else Some e | None => None end = o).
    { intros [e|]; [|done]. unfold withdrawn. by rewrite (bool_decide_eq_true_2 (p = p)), andb_false_r by done. }
    rewrite Hk. destruct (routes t !! p) as [e|]; cbn [snd routes set_routes]; [by rewrite lookup_insert_eq|].
    by rewrite insert_route_routes, lookup_insert_eq.
Qed.

(** ** Advertisements *)

Lemma generate_frame iter p t :
  let u := (generate_advertisement iter p t).1 in
  ru_origin_id u = self_id t ∧ ru_sequence u = as_u64 (sequence t + 1) ∧
  destinations u = self_id t :: List.filter (λ d, negb (bool_decide (d = p))) iter.*1.
Proof.
  cbn. split_and!; [done|done|]. f_equal. unfold destinations. cbn. rewrite !map_map.
  induction iter as [|[d e] iter IH]; [done|]. cbn. case_bool_decide; cbn; by rewrite ?IH.
Qed.

Lemma generate_nodup iter p t :
  routes t !! self_id t = None → iter ≡ₚ map_to_list (routes t) → NoDup (destinations (generate_advertisement iter p t).1).
Proof.
  intros Ht Hi. destruct (generate_frame iter p t) as (_ & _ & ->). constructor.
  - rewrite list_elem_of_In, filter_In. intros [Hin _]. rewrite <- list_elem_of_In, Hi in Hin.
    apply list_elem_of_fmap in Hin as ([d e] & Hd & Hin). apply elem_of_map_to_list in Hin.
    cbn in Hd. congruence.
  - apply NoDup_ListNoDup, List.NoDup_filter, NoDup_ListNoDup. rewrite Hi. apply NoDup_fst_map_to_list.
Qed.

Lemma find_unique (l : list RouteEntry) a :
  NoDup (map re_destination l) → a ∈ l →
  List.find (λ b, bool_decide (re_destination b = re_destination a)) l = Some a.
Proof.
  induction l as [|b l IH]; intros Hnd Hin; [by apply elem_of_nil in Hin|]. cbn [map List.find] in *.
  apply NoDup_cons in Hnd as [Hb Hnd]. apply elem_of_cons in Hin as [->|Hin].
  - by rewrite bool_decide_eq_true_2.
  - rewrite bool_decide_eq_false_2; [by apply IH|]. intros Heq. destruct Hb. rewrite Heq.
    apply list_elem_of_fmap. eauto.
Qed.

(** What a node tells [p] about a destination it has a route to. *)
Lemma generate_advertised iter p t d e :
  routes t !! self_id t = None → iter ≡ₚ map_to_list (routes t) → routes t !! d = Some e → d ≠ p →
  advertised (generate_advertisement iter p t).1 d = Some (advertise_entry p d e).
Proof.
  intros Ht Hi He Hp. unfold advertised.
  change d with (re_destination (advertise_entry p d e)) at 1. apply find_unique; [by apply generate_nodup|].
  cbn. apply elem_of_cons. right. apply list_elem_of_fmap. exists (d, e). split; [done|].
  apply list_elem_of_In, filter_In. rewrite bool_decide_eq_false_2 by done. split; [|done].
  apply list_elem_of_In. rewrite Hi. by apply elem_of_map_to_list.
Qed.

Lemma generate_advertises_self iter p t :
  advertised (generate_advertisement iter p t).1 (self_id t) = Some (self_entry t).
Proof. unfold advertised. cbn. by rewrite bool_decide_eq_true_2. Qed.

Lemma generate_unadvertised iter p t d :
  iter ≡ₚ map_to_list (routes t) → routes t !! d = None → d ≠ self_id t →
  advertised (generate_advertisement iter p t).1 d = None.
Proof.
  intros Hi He Hd. apply find_not_in. fold (destinations (generate_advertisement iter p t).1).
  destruct (generate_frame iter p t) as (_ & _ & ->). intros [->|Hin]%elem_of_cons; [done|].
  apply list_elem_of_In, filter_In in Hin as [Hin _]. rewrite <- list_elem_of_In, Hi in Hin.
  apply list_elem_of_fmap in Hin as ([d' e] & -> & Hin). apply elem_of_map_to_list in Hin. cbn in He. congruence.
Qed.

(** The only entry with no hops is the node's own. *)
Lemma generate_not_suspicious iter p t :
  table_ok t → iter ≡ₚ map_to_list (routes t) → is_suspicious (generate_advertisement iter p t).1 = false.
Proof.
  intros Ht Hi. unfold is_suspicious. apply not_true_is_false. intros (a & Hin & Ha)%existsb_exists.
  apply andb_true_iff in Ha as [Hz Hd]. apply Z.eqb_eq in Hz. apply negb_true_iff, bool_decide_eq_false in Hd.
  cbn in Hin, Hd. destruct Hin as [<-|Hin]; [done|]. apply in_map_iff in Hin as ([d e] & <- & Hin).
  apply filter_In in Hin as [Hin _]. rewrite <- list_elem_of_In, Hi in Hin. apply elem_of_map_to_list in Hin.
  destruct (to_routes t Ht _ _ Hin) as (_ & ? & _). cbn in Hz. case_bool_decide; unfold INFINITY in *; lia.
Qed.

Lemma generate_hops_nonneg iter p t :
  table_ok t → iter ≡ₚ map_to_list (routes t) →
  Forall (λ a, 0 ≤ re_hops a) (ru_entries (generate_advertisement iter p t).1).
Proof.
  intros Ht Hi. apply Forall_forall. intros a Ha. cbn in Ha.
  apply elem_of_cons in Ha as [->|Ha]; [done|]. apply list_elem_of_fmap in Ha as ([d' e'] & -> & Ha).
  apply list_elem_of_In, filter_In in Ha as [Ha _]. rewrite <- list_elem_of_In, Hi in Ha.
  apply elem_of_map_to_list in Ha. destruct (to_routes t Ht _ _ Ha) as (_ & ? & _). cbn.
  case_bool_decide; unfold INFINITY; lia.
Qed.

Lemma dv_relax_poisoned p cur (a : RouteEntry) :
  (INFINITY ≤ re_hops a + 1) → ∀ h, dv_relax p cur (Some a) = Some h → h_next h ≠ p.
Proof.
  intros Ha h. unfold dv_relax, dv_metric. rewrite (proj2 (Z.ltb_ge _ _)) by lia.
  destruct cur as [c|]; [|done]. case_bool_decide; cbn [negb andb]; [done|].
  destruct (h_hops c <=? _); [|done]. by intros [= <-].
Qed.

(** ** Gateway selection *)

Lemma min_by_key_Some {A} (key : A → Z) l x :
  min_by_key key l = Some x → x ∈ l ∧ ∀ y, y ∈ l → key x ≤ key y.
Proof.
  revert x. induction l as [|a l IH]; intros x; cbn [min_by_key]; [done|].
  destruct (min_by_key key l) as [m|] eqn:E.
  - destruct (IH m eq_refl) as [Hm Hmin]. destruct (Z.ltb_spec (key m) (key a)); intros [= <-]; split.
    + by right.
    + intros y [->|Hy]%elem_of_cons; [lia|auto].
    + by left.
    + intros y [->|Hy]%elem_of_cons; [lia|]. specialize (Hmin y Hy). lia.
  - intros [= <-]. destruct l as [|b l]; [|cbn in E; repeat case_match; done]. split; [by left|].
    intros y [->|[]%elem_of_nil]%elem_of_cons. lia.
Qed.

Lemma min_by_key_None {A} (key : A → Z) l : min_by_key key l = None → l = [].
Proof. destruct l as [|a l]; [done|]. cbn. repeat case_match; done. Qed.

Lemma elem_of_eligible iter t d e :
  iter ≡ₚ map_to_list (routes t) →
  (d, e) ∈ List.filter (λ q, eligible t q.2) iter ↔ routes t !! d = Some e ∧ eligible t e = true.
Proof.
  intros Hi. rewrite list_elem_of_In, filter_In, <- list_elem_of_In, Hi, elem_of_map_to_list. done.
Qed.

(** ** The theorems *)

(** C10: Every table reachable from an empty one by its operations satisfies the
    invariant: hop counts in 1..15, next hop and source of a route agree, the
    sequence number of a route never exceeds the highest one accepted from its
    source, and the reverse address index only names installed routes with that
    address; the address of every route is the one derived from its destination
    under a prefix the table was given; and there is no route to the node
    itself, unless a peer presented the node's own identifier (which nothing
    checks), and then it is the direct one to that peer. *)
Theorem reachable_invariant presents prefixes t :
  reachable digest presents prefixes t →
  table_ok t ∧ (¬ presents (self_id t) → routes t !! self_id t = None) ∧
  ∀ d e, routes t !! d = Some e → ∃ prefix, prefixes prefix ∧ rt_mesh_ip e = Some (derive_mesh_ipv4 digest d prefix).
Proof. intros Hr. destruct (reachable_facts _ _ _ _ Hr) as [[_ Ha] Hs]. split; [by eapply reachable_table_ok|]. by split. Qed.

(** C7: Distance vector: an accepted update that lists each destination once is
    exactly one relaxation.  For every destination other than the node itself,
    the route after [apply_update] (next hop, hop count, gateway flag) is what
    [dv_update] gives from the old route and the sender's advertisement:
    refreshes, better paths, poisoned routes, implicit withdrawals and the
    direct route to a new sender included. *)
Theorem apply_update_relaxes now u p t d :
  table_ok t → accepts u p t → NoDup (destinations u) → Forall (λ a, 0 ≤ re_hops a) (ru_entries u) → d ≠ self_id t →
  hops_of (routes (apply_update digest now u p t).2 !! d) =
  dv_update p d (hops_of (routes t !! d)) (advertised u d).
Proof.
  intros Ht Ha Hnd Hh Hd. destruct (decide (d = p)) as [->|Hdp].
  - destruct (routes t !! p) as [e|] eqn:E; [destruct (decide (p ∈ destinations u)) as [Hin|Hni]|].
    + rewrite apply_update_relax, E by (try done; eauto). unfold dv_update. rewrite bool_decide_eq_true_2 by done.
      destruct (find_in _ _ Hin) as (a & Hf & _). unfold advertised. by rewrite Hf.
    + rewrite apply_update_sender, E by auto. done.
    + rewrite apply_update_sender, E by auto. done.
  - rewrite apply_update_relax by done. unfold dv_update. by rewrite bool_decide_eq_false_2.
Qed.

(** Split horizon with poisoned reverse: when A reaches [d] through B, the
    advertisement A generates for B never makes B route [d] through A, so the
    exchange creates no two-node loop, whatever B's table holds. *)
Theorem split_horizon iter now tA tB d eA :
  table_ok tA → routes tA !! self_id tA = None → table_ok tB → routes tB !! self_id tB = None → self_id tA ≠ self_id tB → iter ≡ₚ map_to_list (routes tA) →
  routes tA !! d = Some eA → rt_next_hop eA = self_id tB →
  let u := (generate_advertisement iter (self_id tB) tA).1 in
  accepts u (self_id tA) tB →
  ∀ eB, routes (apply_update digest now u (self_id tA) tB).2 !! d = Some eB → rt_next_hop eB ≠ self_id tA.
Proof.
  intros HtA HsA HtB HsB Hne Hi HeA Hvia u Hacc eB HeB.
  destruct (to_routes tA HtA _ _ HeA) as (_ & _ & Hlf & _).
  assert (HdB : d ≠ self_id tB).
  { intros ->. by rewrite (comes_from_no_self digest (self_id tA) tB) in HeB by auto using comes_from_apply_update. }
  assert (HdA : d ≠ self_id tA) by (intros ->; congruence).
  assert (Hr : hops_of (routes (apply_update digest now u (self_id tA) tB).2 !! d) =
    dv_relax (self_id tA) (hops_of (routes tB !! d)) (advertised u d)).
  { apply apply_update_relax; try done. by apply generate_nodup. }
  rewrite HeB in Hr. unfold u in Hr. erewrite generate_advertised in Hr by done.
  symmetry in Hr. apply dv_relax_poisoned in Hr; [done|]. cbn. rewrite bool_decide_eq_true_2 by congruence. done.
Qed.

(** Replay: an update whose sequence number is not above the last one
    accepted from its sender, or whose origin is not its sender, changes
    nothing; in particular a second delivery of any update changes nothing. *)
Theorem apply_update_replay now now' u p t :
  (ru_origin_id u ≠ p ∨ ru_sequence u ≤ default 0 (peer_max_seq t !! p) →
   apply_update digest now u p t = (Unchanged, t)) ∧
  let t' := (apply_update digest now u p t).2 in apply_update digest now' u p t' = (Unchanged, t').
Proof.
  assert (Hno : ∀ n t, ru_origin_id u ≠ p ∨ ru_sequence u ≤ default 0 (peer_max_seq t !! p) →
    apply_update digest n u p t = (Unchanged, t)).
  { intros n t0 Hor. unfold apply_update. case_bool_decide; cbn [negb]; [|done].
    by rewrite (proj2 (Z.leb_le _ _)) by (destruct Hor; [done|lia]). }
  split; [apply Hno|]. cbn. apply Hno. destruct (decide (ru_origin_id u = p)) as [Ho|]; [right|by left].
  destruct (accepts_dec u p t) as [Ha|Hn].
  - rewrite apply_update_accepted by done.
    rewrite (sc_peer_max_seq _ _ (remove_where_config _ _)), (sc_peer_max_seq _ _ (apply_entries_config _ _ _ _ _ _)),
      (sc_peer_max_seq _ _ (touch_sender_config _ _ _ _ _)), bump_seq. lia.
  - destruct (decide (ru_sequence u ≤ default 0 (peer_max_seq t !! p))) as [Hle|Hgt].
    + rewrite Hno by (by right). done.
    + destruct (apply_update_rejected digest now u p t Hn) as [_ [Heq|(_ & _ & ->)]]; [|rewrite bump_seq; lia].
      exfalso. revert Heq. unfold apply_update. rewrite bool_decide_eq_true_2 by done. cbn [negb].
      rewrite (proj2 (Z.leb_gt _ _)) by lia. fold (is_suspicious u).
      destruct (is_suspicious u) eqn:Hz; [|destruct Hn; split_and!; [done|lia|done]].
      cbn [snd]. intros Heq. apply (f_equal (λ t, default 0 (peer_max_seq t !! p))) in Heq.
      cbn in Heq. rewrite lookup_insert_eq in Heq. cbn in Heq. lia.
Qed.

(** Gateway selection: a node that is not a gateway sends to the gateway
    with the least score among all routes that are gateways, reachable and
    not behind a blacklisted next hop, whatever order the map is iterated in,
    and finds none only when there is none. *)
Theorem nearest_gateway_optimal iter t :
  iter ≡ₚ map_to_list (routes t) → is_gateway t = false →
  match nearest_gateway_route iter t with
  | Some (gw, via) => ∃ e, routes t !! gw = Some e ∧ rt_next_hop e = via ∧ eligible t e = true ∧
      (∀ d e', routes t !! d = Some e' → eligible t e' = true → entry_score e ≤ entry_score e') ∧
      nearest_gateway iter t = Some (via, rt_hops e) ∧ nearest_gateway_mesh_ip iter t = rt_mesh_ip e
  | None => ∀ d e, routes t !! d = Some e → eligible t e = false
  end.
Proof.
  intros Hi Hg. unfold nearest_gateway_route, nearest_gateway, nearest_gateway_mesh_ip. rewrite Hg.
  destruct (best_gateway_entry iter t) as [[d e]|] eqn:E; unfold best_gateway_entry in E; cbn [option_map].
  - apply min_by_key_Some in E as [Hin Hmin]. apply elem_of_eligible in Hin as [He Hel]; [|done].
    exists e. split_and!; try done. intros d' e' He' Hel'. apply (Hmin (d', e')). by apply elem_of_eligible.
  - apply min_by_key_None in E. intros d e He. apply not_true_is_false. intros Hel.
    assert (Hin : (d, e) ∈ List.filter (λ q, eligible t q.2) iter) by (by apply elem_of_eligible).
    rewrite E in Hin. by apply elem_of_nil in Hin.
Qed.

(** The gateway score of any route of a reachable table, with a one-byte
    load and a 32-bit round-trip time, fits the [u32] it is computed in. *)
Theorem gateway_score_no_overflow t d e :
  table_ok t → routes t !! d = Some e → u8_ok (rt_gateway_load e) →
  (∀ r, rt_rtt_ms e = Some r → u32_ok r) → u32_ok (entry_score e).
Proof using Type.
  clear digest.
  intros Ht He Hl Hr. destruct (to_routes t Ht _ _ He) as (_ & Hh & _). unfold entry_score, gateway_score, u32_ok, u8_ok, INFINITY in *.
  assert (0 ≤ unwrap_or (rt_rtt_ms e) 0 < 2 ^ 32).
  { destruct (rt_rtt_ms e) as [r|]; cbn; [by apply Hr|lia]. }
  change (2 ^ 32) with 4294967296 in *. change (2 ^ 8) with 256 in *.
  Z.to_euclidean_division_equations. lia.
Qed.

(** Packet forwarding by address is sound: what [lookup_mesh_ip] returns on
    a reachable table is an installed route whose own mesh address is the one
    looked up, and a next hop that is not blacklisted. *)
Theorem lookup_mesh_ip_sound presents prefixes ip t d nh :
  reachable digest presents prefixes t → lookup_mesh_ip ip t = Some (d, nh) →
  ∃ e, routes t !! d = Some e ∧ rt_mesh_ip e = Some ip ∧ rt_next_hop e = nh ∧
    nh ∉ blacklisted_peers t ∧ (¬ presents (self_id t) → d ≠ self_id t).
Proof.
  intros Hreach. pose proof (reachable_table_ok _ _ _ _ Hreach) as Hr. destruct (reachable_facts _ _ _ _ Hreach) as [_ Hs]. unfold lookup_mesh_ip.
  destruct (mesh_ip_index t !! ip) as [d'|] eqn:Ei; [|done].
  destruct (routes t !! d') as [e|] eqn:E; [|done]. case_bool_decide; [done|]. intros [= -> <-].
  destruct (to_index t Hr _ _ Ei) as (e' & He' & Hip).
  exists e'. simplify_eq. split_and!; try done. intros Hn ->. specialize (Hs Hn). congruence.
Qed.

(** A blacklisted peer is cut off: after [blacklist_peer p], no route goes
    through [p], and neither of the lookups nor the choice of gateway can
    return it as the next hop. *)
Theorem blacklisted_never_used iter p t :
  let t' := (blacklist_peer p t).2 in
  iter ≡ₚ map_to_list (routes t') →
  (∀ d e, routes t' !! d = Some e → rt_next_hop e ≠ p ∧ routes t !! d = Some e) ∧
  (∀ d e, routes t !! d = Some e → rt_next_hop e ≠ p → routes t' !! d = Some e) ∧
  (∀ d, lookup_route d t' ≠ Some p) ∧ (∀ ip d, lookup_mesh_ip ip t' ≠ Some (d, p)) ∧
  (∀ gw, nearest_gateway_route iter t' ≠ Some (gw, p)).
Proof using Type.
  clear digest.
  intros t' Hi.
  assert (Hl : ∀ d e, routes t' !! d = Some e ↔ routes t !! d = Some e ∧ rt_next_hop e ≠ p).
  { intros d e. unfold t', blacklist_peer, remove_routes_via. rewrite remove_where_lookup. cbn [routes set_blacklist].
    destruct (routes t !! d) as [e0|]; [|naive_solver]. case_bool_decide; naive_solver. }
  assert (Hb : p ∈ blacklisted_peers t').
  { unfold t', blacklist_peer, remove_routes_via. rewrite (sc_blacklist _ _ (remove_where_config _ _)). cbn. set_solver. }
  split_and!; [intros d e; rewrite Hl; naive_solver|intros; by apply Hl| | |].
  - intros d. unfold lookup_route. repeat (case_match || case_bool_decide); naive_solver.
  - intros ip d. unfold lookup_mesh_ip. repeat (case_match || case_bool_decide); naive_solver.
  - intros gw. unfold nearest_gateway_route. destruct (is_gateway t'); [done|].
    destruct (best_gateway_entry iter t') as [[d e]|] eqn:E; [|done]. cbn. intros [= _ Hp].
    apply min_by_key_Some in E as [Hin _]. apply elem_of_eligible in Hin as [He _]; [|done].
    apply Hl in He as [_ ?]. done.
Qed.
End Spec.

(** ** Concrete tables

    Node 1 knows its peer 2, which advertised the gateway 3; node 2 knows its
    peer 1 only. *)
Definition sample_prefix : Ipv4Prefix := {| v4_network := 0x0a4d0000; v4_prefix_len := 16 |}.
Definition sample_update : RouteUpdateFrame :=
  {| ru_origin_id := sample_id 2; ru_sequence := 1;
     ru_entries := [{| re_destination := sample_id 2; re_hops := 0; re_flags := 0; re_mesh_ip := [0; 0; 0; 0] |};
                    {| re_destination := sample_id 3; re_hops := 1; re_flags := 1; re_mesh_ip := [0; 0; 0; 0] |}];
     ru_signature := replicate 64 0 |}.
Definition sample_table0 : RoutingTable :=
  add_peer sample_digest 0 (sample_id 2) (RoutingTable_new (sample_id 1) false sample_prefix).
Definition sample_table : RoutingTable := (apply_update sample_digest 5 sample_update (sample_id 2) sample_table0).2.
Definition sample_table2 : RoutingTable :=
  add_peer sample_digest 0 (sample_id 1) (RoutingTable_new (sample_id 2) false sample_prefix).

(** Peers that do not present the identifier [n]; one prefix. *)
Definition others (n p : NodeId) : Prop := p ≠ n.

Lemma sample_table0_reachable : reachable sample_digest (others (sample_id 1)) (eq sample_prefix) sample_table0.
Proof. exists (sample_id 1), false, sample_prefix. split; [done|]. apply rtc_once, StepAddPeer. done. Qed.
Lemma sample_table_reachable : reachable sample_digest (others (sample_id 1)) (eq sample_prefix) sample_table.
Proof.
  exists (sample_id 1), false, sample_prefix. split; [done|]. eapply rtc_l; [by apply (StepAddPeer sample_digest _ _ 0 (sample_id 2))|].
  apply rtc_once, StepUpdate; [done|]. by apply (bool_decide_unpack _); vm_compute.
Qed.
Lemma sample_table2_reachable : reachable sample_digest (others (sample_id 2)) (eq sample_prefix) sample_table2.
Proof. exists (sample_id 2), false, sample_prefix. split; [done|]. apply rtc_once, StepAddPeer. done. Qed.

Lemma reachable_invariant_witness :
  table_ok sample_table ∧ routes sample_table !! sample_id 1 = None ∧
  ∃ e, routes sample_table !! sample_id 3 = Some e ∧ rt_mesh_ip e = Some (derive_mesh_ipv4 sample_digest (sample_id 3) sample_prefix).
Proof.
  destruct (reachable_invariant sample_digest (others (sample_id 1)) (eq sample_prefix) sample_table sample_table_reachable) as (Hok & Hself & Haddr).
  split; [exact Hok|]. split; [apply Hself; intros Hn; by apply Hn|].
  destruct (routes sample_table !! sample_id 3) as [e|] eqn:E; [|vm_compute in E; discriminate].
  exists e. split; [reflexivity|]. destruct (Haddr _ _ E) as (prefix & <- & Hip). exact Hip.
Defined.

Lemma apply_update_relaxes_witness :
  hops_of (routes sample_table !! sample_id 3) = Some {| h_next := sample_id 2; h_hops := 2; h_gateway := true |}.
Proof.
  refine (eq_trans (apply_update_relaxes sample_digest 5 sample_update (sample_id 2) sample_table0 (sample_id 3) _ _ _ _ _) _);
    [eapply reachable_table_ok, sample_table0_reachable|unfold accepts; split; [|split]; vm_compute; reflexivity| | |done|by vm_compute];
  by apply (bool_decide_unpack _); vm_compute.
Defined.

Lemma split_horizon_witness :
  let u := (generate_advertisement (map_to_list (routes sample_table)) (self_id sample_table2) sample_table).1 in
  match routes (apply_update sample_digest 9 u (self_id sample_table) sample_table2).2 !! sample_id 3 with
  | Some e => rt_next_hop e ≠ self_id sample_table
  | None => True
  end.
Proof.
  assert (He : ∃ e, routes sample_table !! sample_id 3 = Some e ∧ rt_next_hop e = self_id sample_table2).
  { eexists. split; vm_compute; reflexivity. }
  destruct He as (e & He & Hnext). intros u.
  assert (Hne : self_id sample_table ≠ self_id sample_table2) by (intros Heq; vm_compute in Heq; discriminate).
  assert (Hacc : accepts u (self_id sample_table) sample_table2).
  { unfold accepts. split; [|split]; vm_compute; reflexivity. }
  destruct (routes (apply_update sample_digest 9 u (self_id sample_table) sample_table2).2 !! sample_id 3)
    as [eB|] eqn:EB; [|exact I].
  exact (split_horizon sample_digest (map_to_list (routes sample_table)) 9 sample_table sample_table2 (sample_id 3) e
    (reachable_table_ok sample_digest _ _ _ sample_table_reachable) eq_refl
    (reachable_table_ok sample_digest _ _ _ sample_table2_reachable) eq_refl
    Hne (reflexivity _) He Hnext Hacc eB EB).
Defined.

Lemma nearest_gateway_optimal_witness :
  nearest_gateway_route (map_to_list (routes sample_table)) sample_table = Some (sample_id 3, sample_id 2) ∧
  ∀ d e', routes sample_table !! d = Some e' → eligible sample_table e' = true → 200 ≤ entry_score e'.
Proof.
  split; [by vm_compute|].
  pose proof (nearest_gateway_optimal (map_to_list (routes sample_table)) sample_table (reflexivity _) eq_refl) as H.
  assert (Hn : nearest_gateway_route (map_to_list (routes sample_table)) sample_table = Some (sample_id 3, sample_id 2))
    by by vm_compute.
  rewrite Hn in H. destruct H as (e & He & _ & _ & Hmin & _). intros d e' Hd Hel. specialize (Hmin d e' Hd Hel).
  vm_compute in He. injection He as <-. etransitivity; [|exact Hmin]. by vm_compute.
Defined.

Lemma gateway_score_no_overflow_witness :
  ∃ e, routes sample_table !! sample_id 3 = Some e ∧ u32_ok (entry_score e).
Proof.
  destruct (routes sample_table !! sample_id 3) as [e|] eqn:He; [|vm_compute in He; discriminate].
  exists e. split; [done|]. apply (gateway_score_no_overflow sample_table (sample_id 3)); [|done| |].
  - eapply reachable_table_ok, sample_table_reachable.
  - vm_compute in He. by injection He as <-.
  - vm_compute in He. by injection He as <-.
Defined.

Lemma lookup_mesh_ip_sound_witness :
  ∃ ip e, lookup_mesh_ip ip sample_table = Some (sample_id 3, sample_id 2) ∧
    routes sample_table !! sample_id 3 = Some e ∧ rt_mesh_ip e = Some ip.
Proof.
  exists (derive_mesh_ipv4 sample_digest (sample_id 3) sample_prefix).
  assert (Hl : lookup_mesh_ip (derive_mesh_ipv4 sample_digest (sample_id 3) sample_prefix) sample_table =
    Some (sample_id 3, sample_id 2)) by by vm_compute.
  destruct (lookup_mesh_ip_sound sample_digest _ _ _ _ _ _ sample_table_reachable Hl) as (e & He & Hip & _). eauto.
Defined.

Lemma blacklisted_never_used_witness :
  lookup_route (sample_id 3) (blacklist_peer (sample_id 2) sample_table).2 ≠ Some (sample_id 2).
Proof.
  apply (blacklisted_never_used (map_to_list (routes (blacklist_peer (sample_id 2) sample_table).2)) (sample_id 2) sample_table).
  reflexivity.
Defined.
