(* ===== verification/Network.v ===== *)
(** * A network of routing tables

    Nodes with a fixed set of links exchange advertisements: an exchange from
    [a] to [b] is [generate_advertisement] at [a] followed by [apply_update]
    at [b], in any order and any number of times.  Every route ever installed
    is a real path with the hop count it claims, and [k] rounds give every
    node the shortest distance to every destination at most [k + 1] links
    away, as long as it is below [INFINITY]. *)

From S2P Require Import Prelude Core MeshAddress Frames Routing RoutingProofs RoutingSpec.

Definition network := NodeId → RoutingTable.

Definition net_set (n : NodeId) (t : RoutingTable) (net : network) : network :=
  λ m, if bool_decide (m = n) then t else net m.

Lemma net_set_eq n t net : net_set n t net n = t.
Proof. unfold net_set. by rewrite bool_decide_eq_true_2. Qed.
Lemma net_set_ne n t net m : m ≠ n → net_set n t net m = net m.
Proof. intros. unfold net_set. by rewrite bool_decide_eq_false_2. Qed.

(** The table a daemon starts with. *)
Definition started_table (self_id : NodeId) (is_gateway : bool) (prefix : Ipv4Prefix) (mesh_ip : Z) : RoutingTable :=
  set_self_mesh_ip mesh_ip (RoutingTable_new self_id is_gateway prefix).

Section Network.
Context (digest : NodeId → list Z).
Context (link : NodeId → NodeId → Prop).
Implicit Types (net : network) (a b d n : NodeId).

(** [a] advertises to [b], iterating its routes as [iter]. *)
Definition exchange (now : Z) (iter : list (NodeId * RouteTableEntry)) a b net : network :=
  let '(u, ta) := generate_advertisement iter b (net a) in
  let net := net_set a ta net in
  net_set b (apply_update digest now u a (net b)).2 net.

Inductive net_run : network → list (NodeId * NodeId) → network → Prop :=
| RunNil net : net_run net [] net
| RunCons now iter a b net sched net' :
    link b a → iter ≡ₚ map_to_list (routes (net a)) →
    net_run (exchange now iter a b net) sched net' →
    net_run net ((a, b) :: sched) net'.

(** A path of a given number of links. *)
Inductive walk : nat → NodeId → NodeId → Prop :=
| WalkNil n : walk 0 n n
| WalkCons k n m d : link n m → walk k m d → walk (S k) n d.

Definition distance n d (k : nat) : Prop := walk k n d ∧ ∀ j, walk j n d → (k ≤ j)%nat.

(** Links are mutual and join different nodes. *)
Record topology : Prop := {
  link_sym : ∀ a b, link a b → link b a;
  link_irrefl : ∀ a, ¬ link a a;
}.

(** A hop names a real path of the length it claims. *)
Definition real_path n d (h : hop) : Prop :=
  ∃ k, h_hops h = Z.of_nat (S k) ∧ link n (h_next h) ∧ walk k (h_next h) d.

Definition has_hops net n d (k : nat) : Prop :=
  ∃ h, hops_of (routes (net n) !! d) = Some h ∧ h_hops h = Z.of_nat k.

(** The invariant of the network; [sent] bounds the sequence numbers. *)
Record net_ok (sent : Z) net : Prop := {
  no_self : ∀ n, self_id (net n) = n;
  no_table : ∀ n, table_ok (net n);
  no_loop : ∀ n, routes (net n) !! n = None;
  no_real : ∀ n d h, hops_of (routes (net n) !! d) = Some h → real_path n d h;
  no_peers : ∀ n m, link n m → has_hops net n m 1;
  no_seq : ∀ a b, default 0 (peer_max_seq (net b) !! a) ≤ sequence (net a);
  no_sent : ∀ n, 0 ≤ sequence (net n) ≤ sent;
}.

(** Every node starts with its direct peers. *)
Definition net_initial net : Prop :=
  ∀ n, ∃ gw prefix ip now (peers : list NodeId),
    (∀ m, m ∈ peers ↔ link n m) ∧
    net n = foldr (add_peer digest now) (started_table n gw prefix ip) peers.

(** [a]'s advertisement of [d] to [b]. *)
Definition offer net a b d : option RouteEntry :=
  if bool_decide (d = a) then Some (self_entry (net a))
  else option_map (advertise_entry b d) (routes (net a) !! d).

Definition exact_upto (k : nat) net : Prop :=
  ∀ n d j, distance n d j → (1 ≤ j ≤ k)%nat → Z.of_nat j < INFINITY → has_hops net n d j.

(** ** One exchange *)
Section Exchange.
Context (Htopo : topology).
Context (now : Z) (iter : list (NodeId * RouteTableEntry)) (a b : NodeId) (net : network) (sent : Z).
Context (Hok : net_ok sent net) (Hlink : link b a) (Hiter : iter ≡ₚ map_to_list (routes (net a))).
Context (Hsent : sent + 1 < 2 ^ 64).

Let net' := exchange now iter a b net.
Let u := (generate_advertisement iter b (net a)).1.

Lemma exchange_ne : a ≠ b.
Proof. intros Heq. pose proof Hlink as Hl. rewrite Heq in Hl. by apply (link_irrefl Htopo b). Qed.

Lemma peer_present : is_Some (routes (net b) !! a).
Proof. destruct (no_peers _ _ Hok _ _ Hlink) as (h & Hh & _). by destruct (routes (net b) !! a). Qed.

Lemma generate_seq : ru_sequence u = sequence (net a) + 1 ∧ sequence (generate_advertisement iter b (net a)).2 = sequence (net a) + 1.
Proof.
  pose proof (no_sent _ _ Hok a). cbn. unfold as_u64. rewrite Z.mod_small by lia. done.
Qed.

Lemma exchange_accepts : accepts u a (net b).
Proof.
  destruct (generate_frame iter b (net a)) as (Ho & _ & _). destruct generate_seq as [Hs _].
  pose proof (no_seq _ _ Hok a b). split_and!.
  - unfold u. by rewrite Ho, (no_self _ _ Hok).
  - lia.
  - apply generate_not_suspicious; [apply (no_table _ _ Hok)|done].
Qed.

Lemma exchange_receiver : net' b = (apply_update digest now u a (net b)).2.
Proof.
  unfold net', exchange, u. destruct (generate_advertisement iter b (net a)) as [u0 ta]. cbn [fst].
  by rewrite net_set_eq, net_set_ne by apply not_eq_sym, exchange_ne.
Qed.

Lemma exchange_sender : net' a = (generate_advertisement iter b (net a)).2.
Proof.
  unfold net', exchange. destruct (generate_advertisement iter b (net a)) as [u0 ta]. cbn [snd].
  by rewrite net_set_ne, net_set_eq by apply exchange_ne.
Qed.

Lemma exchange_others n : n ≠ a → n ≠ b → net' n = net n.
Proof.
  intros. unfold net', exchange. destruct (generate_advertisement iter b (net a)) as [u0 ta].
  by rewrite !net_set_ne.
Qed.

Lemma offer_advertised d : d ≠ b → advertised u d = offer net a b d.
Proof.
  intros Hd. unfold offer, u. pose proof (no_self _ _ Hok a) as Hs. case_bool_decide as Ha.
  - pose proof (generate_advertises_self iter b (net a)) as Hg. rewrite Hs in Hg. by rewrite Ha.
  - destruct (routes (net a) !! d) as [e|] eqn:E; cbn.
    + apply generate_advertised; [rewrite Hs; apply (no_loop _ _ Hok)|done..].
    + apply generate_unadvertised; [done|done|]. by rewrite Hs.
Qed.

Lemma exchange_relax d :
  d ≠ b → hops_of (routes (net' b) !! d) = dv_relax a (hops_of (routes (net b) !! d)) (offer net a b d).
Proof.
  intros Hd. pose proof (no_self _ _ Hok b) as Hb. rewrite exchange_receiver, <- offer_advertised by done.
  apply apply_update_relax; rewrite ?Hb; try done.
  - apply (no_table _ _ Hok).
  - apply exchange_accepts.
  - apply generate_nodup; [rewrite (no_self _ _ Hok); apply (no_loop _ _ Hok)|done].
  - intros ->. split; [by apply peer_present|]. destruct (generate_frame iter b (net a)) as (_ & _ & Hd').
    unfold u. rewrite Hd', (no_self _ _ Hok). by left.
Qed.

Lemma exchange_same n d : n ≠ b → routes (net' n) !! d = routes (net n) !! d.
Proof.
  intros Hn. destruct (decide (n = a)) as [->|]; [|by rewrite exchange_others]. by rewrite exchange_sender.
Qed.

(** An offer below infinity is a real path from the sender. *)
Lemma offer_real d adv :
  offer net a b d = Some adv → dv_metric (Some adv) < INFINITY → ∃ k, dv_metric (Some adv) = Z.of_nat (S k) ∧ walk k a d.
Proof.
  unfold offer, dv_metric. case_bool_decide as Hd.
  - intros [= <-] _. exists 0%nat. subst d. split; [done|constructor].
  - destruct (routes (net a) !! d) as [e|] eqn:E; [|done]. cbn [option_map]. intros [= <-]. cbn [re_hops advertise_entry].
    case_bool_decide as Hl; [unfold INFINITY; lia|]. intros Hm.
    destruct (no_real _ _ Hok a d (hop_of e)) as (k & Hk & Hlk & Hw); [by rewrite E|]. cbn in Hk, Hlk, Hw.
    exists (S k). split; [lia|]. by econstructor.
Qed.

Lemma dv_relax_real d h :
  d ≠ b → dv_relax a (hops_of (routes (net b) !! d)) (offer net a b d) = Some h → real_path b d h.
Proof.
  intros Hd. unfold dv_relax. pose proof (offer_real d) as Hoff. destruct (offer net a b d) as [adv|].
  - set (m := dv_metric (Some adv)) in *. specialize (Hoff adv eq_refl). fold m in Hoff.
    assert (Hcand : (if m <? INFINITY then Some {| h_next := a; h_hops := m; h_gateway := RouteEntry_is_gateway adv |}
      else None) = Some h → real_path b d h).
    { destruct (Z.ltb_spec m INFINITY) as [Hm|]; [|done]. intros [= <-]. destruct (Hoff Hm) as (k & Hk & Hw).
      by exists k. }
    destruct (hops_of (routes (net b) !! d)) as [c|] eqn:E; [|done].
    destruct (negb _ && _); [|done]. intros [= <-]. by apply (no_real _ _ Hok).
  - destruct (hops_of (routes (net b) !! d)) as [c|] eqn:E; [|done].
    destruct (negb _ && _); [|done]. intros [= <-]. by apply (no_real _ _ Hok).
Qed.

Lemma exchange_self_id n : self_id (net' n) = n.
Proof.
  destruct (decide (n = b)) as [->|Hn].
  - pose proof exchange_accepts as Ha. rewrite exchange_receiver, apply_update_accepted by done.
    rewrite (sc_self_id _ _ (remove_where_config _ _)), (sc_self_id _ _ (apply_entries_config _ _ _ _ _ _)),
      (sc_self_id _ _ (touch_sender_config _ _ _ _ _)). apply (no_self _ _ Hok).
  - destruct (decide (n = a)) as [->|]; [rewrite exchange_sender|rewrite exchange_others by done];
      apply (no_self _ _ Hok).
Qed.

Lemma exchange_seqs n :
  (n ≠ b → peer_max_seq (net' n) = peer_max_seq (net n)) ∧
  (n = b → peer_max_seq (net' n) = <[a := sequence (net a) + 1]> (peer_max_seq (net n))) ∧
  (n ≠ a → sequence (net' n) = sequence (net n)) ∧ (n = a → sequence (net' n) = sequence (net n) + 1).
Proof.
  destruct generate_seq as [Hu Hs]. pose proof exchange_ne as Hne. split_and!.
  - intros Hn. destruct (decide (n = a)) as [->|]; [by rewrite exchange_sender|by rewrite exchange_others].
  - intros ->. pose proof exchange_accepts as Ha. rewrite exchange_receiver, apply_update_accepted by done.
    rewrite (sc_peer_max_seq _ _ (remove_where_config _ _)), (sc_peer_max_seq _ _ (apply_entries_config _ _ _ _ _ _)),
      (sc_peer_max_seq _ _ (touch_sender_config _ _ _ _ _)). cbn [bump peer_max_seq set_peer_max_seq]. by rewrite Hu.
  - intros Hn. destruct (decide (n = b)) as [->|]; [|by rewrite exchange_others].
    pose proof exchange_accepts as Ha. rewrite exchange_receiver, apply_update_accepted by done.
    by rewrite (sc_sequence _ _ (remove_where_config _ _)), (sc_sequence _ _ (apply_entries_config _ _ _ _ _ _)),
      (sc_sequence _ _ (touch_sender_config _ _ _ _ _)).
  - intros ->. by rewrite exchange_sender.
Qed.

Lemma exchange_table_ok n : table_ok (net' n).
Proof.
  pose proof (no_table _ _ Hok) as Ht. destruct (decide (n = b)) as [->|Hn].
  - rewrite exchange_receiver. apply apply_update_ok; [apply Ht|].
    apply generate_hops_nonneg; [apply Ht|done].
  - destruct (decide (n = a)) as [->|]; [rewrite exchange_sender|rewrite exchange_others by done; apply Ht].
    destruct (Ht a). by split.
Qed.

Lemma exchange_no_loop n : routes (net' n) !! n = None.
Proof.
  pose proof (no_loop _ _ Hok n) as Hn. destruct (decide (n = b)) as [->|Hnb].
  - rewrite exchange_receiver. pose proof (comes_from_no_self digest a (net b) _ (comes_from_apply_update digest now u a (net b))) as Hc.
    rewrite (no_self _ _ Hok) in Hc. apply Hc; [apply exchange_ne|done].
  - destruct (decide (n = a)) as [->|]; [by rewrite exchange_sender|by rewrite exchange_others].
Qed.

(** A route with the shortest distance survives an exchange in which the
    sender offers the shortest distance if it is the route's next hop. *)
Lemma relax_keeps_shortest d k h :
  d ≠ b → distance b d (S k) → hops_of (routes (net b) !! d) = Some h → h_hops h = Z.of_nat (S k) →
  (h_next h = a → ∃ adv, offer net a b d = Some adv ∧ dv_metric (Some adv) = Z.of_nat (S k)) →
  Z.of_nat (S k) < INFINITY → has_hops net' b d (S k).
Proof.
  intros Hd [_ Hmin] Hh Hk Hadv Hinf. unfold has_hops. rewrite exchange_relax by done. rewrite Hh. unfold dv_relax.
  case_bool_decide as Hn; cbn [negb andb].
  - destruct (Hadv Hn) as (adv & -> & ->). rewrite (proj2 (Z.ltb_lt _ _)) by done. by eexists.
  - destruct (Z.leb_spec (h_hops h) (dv_metric (offer net a b d))) as [|Hlt]; [eauto|]. exfalso.
    destruct (offer net a b d) as [adv|] eqn:E; [|unfold dv_metric, INFINITY in *; lia].
    destruct (offer_real d adv E) as (j & Hj & Hw); [lia|].
    pose proof (Hmin (S j) (WalkCons _ _ _ _ Hlink Hw)). lia.
Qed.

(** The sender offers the shortest distance when it knows it and is one link
    closer than the receiver: such a route cannot come from the receiver. *)
Lemma closer_sender_offers d k :
  distance b d (S k) → distance a d k → (k = 0%nat ∨ has_hops net a d k) → Z.of_nat (S k) < INFINITY →
  ∃ adv, offer net a b d = Some adv ∧ dv_metric (Some adv) = Z.of_nat (S k).
Proof.
  intros [_ Hmin] [Hw _] Hk Hinf. unfold offer. case_bool_decide as Hda.
  - eexists; split; [done|]. assert (k = 0%nat) as ->; [|done].
    assert (walk 1 b d) as Hw1 by (rewrite Hda; econstructor; [exact Hlink|constructor]).
    specialize (Hmin _ Hw1). lia.
  - destruct Hk as [->|(h & Hh & Hhk)]; [inversion Hw; congruence|].
    destruct (no_real _ _ Hok a d h Hh) as (j & Hj & Hlj & Hwj).
    destruct (routes (net a) !! d) as [e|] eqn:E; [|done]. cbn in Hh. injection Hh as <-. cbn in Hhk, Hj, Hlj, Hwj.
    eexists; split; [done|]. cbn [dv_metric re_hops advertise_entry]. rewrite bool_decide_eq_false_2; [lia|].
    destruct (to_routes _ (no_table _ _ Hok a) _ _ E) as (_ & _ & Hlf & _). rewrite <- Hlf. intros Hb.
    rewrite Hb in Hwj. specialize (Hmin _ Hwj). lia.
Qed.

Lemma distance_ne d k : distance b d (S k) → d ≠ b.
Proof. intros [_ Hmin] ->. specialize (Hmin _ (WalkNil b)). lia. Qed.

(** The next hop of a shortest route is one link closer. *)
Lemma next_hop_closer n d k h :
  distance n d (S k) → hops_of (routes (net n) !! d) = Some h → h_hops h = Z.of_nat (S k) →
  distance (h_next h) d k.
Proof.
  intros [_ Hmin] Hh Hk. destruct (no_real _ _ Hok n d h Hh) as (j & Hj & Hl & Hw).
  replace j with k in * by lia. split; [done|]. intros i Hi. specialize (Hmin _ (WalkCons _ _ _ _ Hl Hi)). lia.
Qed.

Lemma exchange_keeps k n d :
  exact_upto k net → distance n d (S k) → has_hops net n d (S k) → Z.of_nat (S k) < INFINITY →
  has_hops net' n d (S k).
Proof.
  intros Hex Hdist (h & Hh & Hk) Hinf. destruct (decide (n = b)) as [Heq|Hn].
  - rewrite Heq in *. clear n Heq. eapply relax_keeps_shortest; [by eapply distance_ne|done..| |done].
    intros Hna. pose proof (next_hop_closer b d k h Hdist Hh Hk) as Hcl. rewrite Hna in Hcl.
    apply closer_sender_offers; [done|done| |done]. destruct k as [|k]; [by left|right].
    apply Hex; [done|lia|lia].
  - exists h. by rewrite exchange_same.
Qed.

Lemma exchange_keeps_exact k : exact_upto k net → exact_upto k net'.
Proof.
  intros Hex n d j Hj Hjk Hinf. destruct j as [|j]; [lia|]. apply (exchange_keeps j); [|done| |done].
  - intros n' d' i Hi ??. apply Hex; [done|lia|done].
  - apply Hex; [done|lia|done].
Qed.

(** The exchange gives the receiver the next distance. *)
Lemma exchange_learns k d :
  exact_upto k net → distance b d (S k) → distance a d k → Z.of_nat (S k) < INFINITY →
  has_hops net' b d (S k).
Proof.
  intros Hex Hb Ha Hinf. pose proof (distance_ne _ _ Hb) as Hd.
  destruct (closer_sender_offers d k) as (adv & Hadv & Hm); [done|done| |done|].
  { destruct k as [|k]; [by left|right]. apply Hex; [done|lia|lia]. }
  unfold has_hops. rewrite exchange_relax, Hadv by done. unfold dv_relax. rewrite Hm.
  rewrite (proj2 (Z.ltb_lt _ INFINITY)) by done.
  destruct (hops_of (routes (net b) !! d)) as [c|] eqn:E; [|by eexists].
  destruct (negb (bool_decide (h_next c = a)) && (h_hops c <=? Z.of_nat (S k))) eqn:Hc; [|by eexists].
  apply andb_true_iff in Hc as [_ Hc]. apply Z.leb_le in Hc. exists c. split; [done|].
  destruct (no_real _ _ Hok b d c E) as (j & Hj & Hl & Hw). destruct Hb as [_ Hmin].
  specialize (Hmin _ (WalkCons _ _ _ _ Hl Hw)). lia.
Qed.

Lemma link_distance n m : link n m → distance n m 1.
Proof.
  intros Hl. split; [econstructor; [done|constructor]|]. intros [|j] Hw; [|lia].
  inversion Hw; simplify_eq. exfalso. by eapply (link_irrefl Htopo).
Qed.

Lemma exchange_net_ok : net_ok (sent + 1) net'.
Proof.
  split.
  - apply exchange_self_id.
  - apply exchange_table_ok.
  - apply exchange_no_loop.
  - intros n d h. destruct (decide (n = b)) as [->|Hn].
    + destruct (decide (d = b)) as [->|Hd].
      * by rewrite exchange_no_loop.
      * rewrite exchange_relax by done. by apply dv_relax_real.
    + rewrite exchange_same by done. apply (no_real _ _ Hok).
  - intros n m Hl. apply (exchange_keeps 0); [intros ???; lia|by apply link_distance|by apply (no_peers _ _ Hok)|done].
  - intros p n. destruct (exchange_seqs n) as (Hn1 & Hn2 & _ & _). destruct (exchange_seqs p) as (_ & _ & Hp1 & Hp2).
    pose proof (no_seq _ _ Hok p n). assert (sequence (net p) ≤ sequence (net' p)).
    { destruct (decide (p = a)) as [Heq|]; [rewrite Hp2 by done; lia|rewrite Hp1 by done; lia]. }
    destruct (decide (n = b)) as [Heq|]; [|rewrite Hn1 by done; lia]. rewrite Hn2 by done.
    destruct (decide (p = a)) as [->|]; [rewrite lookup_insert_eq, Hp2 by done; cbn; lia|].
    rewrite lookup_insert_ne by done. lia.
  - intros n. pose proof (no_sent _ _ Hok n). destruct (exchange_seqs n) as (_ & _ & Hn1 & Hn2).
    destruct (decide (n = a)) as [Heq|]; [rewrite Hn2 by done; lia|rewrite Hn1 by done; lia].
Qed.
End Exchange.

(** ** Runs *)
Section Runs.
Context (Htopo : topology).

Lemma net_run_ok sent net sched net' :
  net_run net sched net' → net_ok sent net → sent + Z.of_nat (length sched) < 2 ^ 64 →
  net_ok (sent + Z.of_nat (length sched)) net'.
Proof.
  intros Hr. revert sent. induction Hr as [net|now iter a b net sched net' Hl Hi _ IH]; intros sent Hok Hs.
  - cbn. by rewrite Z.add_0_r.
  - cbn [length] in *. replace (sent + _) with (sent + 1 + Z.of_nat (length sched)) by lia. apply IH; [|lia].
    apply exchange_net_ok; [done..|lia].
Qed.

Lemma net_run_app net s1 s2 net' :
  net_run net (s1 ++ s2) net' → ∃ net1, net_run net s1 net1 ∧ net_run net1 s2 net'.
Proof.
  revert net. induction s1 as [|ab s1 IH]; intros net Hr; [by exists net; split; [constructor|]|].
  inversion Hr; simplify_eq. edestruct IH as (net1 & Hr1 & Hr2); [done|]. exists net1. split; [|done]. by econstructor.
Qed.

Lemma net_run_keeps sent net sched net' k :
  net_run net sched net' → net_ok sent net → sent + Z.of_nat (length sched) < 2 ^ 64 → exact_upto k net →
  exact_upto k net' ∧
  ∀ n d, distance n d (S k) → has_hops net n d (S k) → Z.of_nat (S k) < INFINITY → has_hops net' n d (S k).
Proof.
  intros Hr. revert sent. induction Hr as [net|now iter a b net sched net' Hl Hi _ IH]; intros sent Hok Hs Hex; [done|].
  cbn [length] in *. destruct (IH (sent + 1)) as [Hex' Hk]; [apply exchange_net_ok; [done..|lia]|lia| |].
  - eapply exchange_keeps_exact; [done..|lia|done].
  - split; [done|]. intros n d Hd Hh Hinf. apply Hk; [done| |done]. eapply exchange_keeps; [done..|lia|done|done|done|done].
Qed.

(** A round is a schedule in which every link carries an advertisement in
    each direction at least once. *)
Definition is_round (sched : list (NodeId * NodeId)) : Prop := ∀ a b, link b a → (a, b) ∈ sched.

Lemma round_learns sent net sched net' k :
  net_run net sched net' → net_ok sent net → sent + Z.of_nat (length sched) < 2 ^ 64 →
  is_round sched → exact_upto k net → exact_upto (S k) net'.
Proof.
  intros Hr Hok Hs Hround Hex n d j Hj Hjk Hinf.
  destruct (decide (j = S k)) as [->|]; [|apply (net_run_keeps sent net sched net' k); [done..|lia|done]].
  destruct Hj as [Hw Hmin]. inversion Hw as [|k' n' m d' Hl Hwm]; simplify_eq.
  destruct (list_elem_of_split _ _ (Hround _ _ Hl)) as (s1 & s2 & ->). rewrite length_app in Hs. cbn [length] in Hs.
  apply net_run_app in Hr as (net1 & Hr1 & Hr2).
  destruct (net_run_keeps _ _ _ _ k Hr1 Hok) as [Hex1 _]; [lia|done|].
  assert (Hok1 := net_run_ok _ _ _ _ Hr1 Hok ltac:(lia)).
  inversion Hr2 as [|now iter ? ? ? ? ? _ Hi Hr3]; simplify_eq.
  eapply net_run_keeps; [exact Hr3|apply exchange_net_ok; [done..|lia]|lia| |done| |done].
  - eapply exchange_keeps_exact; [done..|lia|done].
  - eapply exchange_learns; [done..|lia|done|done| |done]. split; [done|]. intros i Hi'.
    specialize (Hmin _ (WalkCons _ _ _ _ Hl Hi')). lia.
Qed.

Lemma add_peers_spec now n gw prefix ip peers :
  n ∉ peers →
  let t := foldr (add_peer digest now) (started_table n gw prefix ip) peers in
  self_id t = n ∧ table_ok t ∧ peer_max_seq t = ∅ ∧ sequence t = 0 ∧
  ∀ d, hops_of (routes t !! d) =
       if bool_decide (d ∈ peers) then Some {| h_next := d; h_hops := 1; h_gateway := false |} else None.
Proof.
  induction peers as [|p peers IH]; cbn [foldr]; intros Hn.
  - split_and!; done || apply table_ok_new.
  - apply not_elem_of_cons in Hn as [Hnp Hn]. destruct (IH Hn) as (Hs & Ht & Hq & Hz & Hd).
    set (t := foldr (add_peer digest now) (started_table n gw prefix ip) peers) in *. clearbody t.
    unfold add_peer. pose proof (insert_route_config digest p (peer_entry now p 0)
      (set_direct_peers ({[p]} ∪ direct_peers t) t)) as Hc. split_and!.
    + by rewrite (sc_self_id _ _ Hc).
    + by apply add_peer_ok.
    + by rewrite (sc_peer_max_seq _ _ Hc).
    + by rewrite (sc_sequence _ _ Hc).
    + intros d. rewrite insert_route_routes. destruct (decide (d = p)) as [->|Hne].
      * rewrite lookup_insert_eq, bool_decide_eq_true_2 by set_solver. done.
      * rewrite lookup_insert_ne by done. cbn [routes set_direct_peers]. rewrite Hd.
        repeat case_bool_decide; set_solver.
Qed.

Lemma net_initial_ok net : net_initial net → net_ok 0 net.
Proof.
  intros Hinit.
  assert (Hspec : ∀ n, self_id (net n) = n ∧ table_ok (net n) ∧ peer_max_seq (net n) = ∅ ∧ sequence (net n) = 0 ∧
    ∀ d, (link n d ∧ hops_of (routes (net n) !! d) = Some {| h_next := d; h_hops := 1; h_gateway := false |}) ∨
         (¬ link n d ∧ hops_of (routes (net n) !! d) = None)).
  { intros n. destruct (Hinit n) as (gw & prefix & ip & now & peers & Hp & ->).
    assert (Hn : n ∉ peers) by (rewrite Hp; apply (link_irrefl Htopo)).
    destruct (add_peers_spec now n gw prefix ip peers Hn) as (? & ? & ? & ? & Hd). split_and!; try done.
    intros d. rewrite Hd, <- Hp. case_bool_decide; tauto. }
  split; intros n; destruct (Hspec n) as (Hs & Ht & Hq & Hz & Hd); [done|done| | | | |lia].
  - destruct (Hd n) as [[Hl _]|[_ Hr]]; [by apply (link_irrefl Htopo) in Hl|]. by destruct (routes (net n) !! n).
  - intros d h Hh. destruct (Hd d) as [[Hl Hr]|[_ Hr]]; rewrite Hr in Hh; simplify_eq.
    exists 0%nat. split; [done|]. split; [done|constructor].
  - intros m Hl. destruct (Hd m) as [[_ Hr]|[Hnl _]]; [|done]. eexists. split; [exact Hr|done].
  - intros m. destruct (Hspec m) as (_ & _ & -> & _ & _). rewrite lookup_empty. cbn. lia.
Qed.

Lemma initial_exact net sent : net_ok sent net → exact_upto 1 net.
Proof.
  intros Hok n d j [Hw _] Hj _. replace j with 1%nat in * by lia. inversion Hw as [|k n' m d' Hl Hw0]; simplify_eq.
  inversion Hw0; simplify_eq. by apply (no_peers _ _ Hok).
Qed.

Lemma rounds_learn rounds : ∀ sent k net net',
  net_run net (concat rounds) net' → Forall is_round rounds → net_ok sent net →
  sent + Z.of_nat (length (concat rounds)) < 2 ^ 64 → exact_upto k net →
  exact_upto (length rounds + k) net'.
Proof.
  induction rounds as [|r rounds IH]; intros sent k net net' Hr Hf Hok Hs Hex.
  - cbn in Hr. by inversion Hr; simplify_eq.
  - cbn [concat] in *. rewrite length_app in Hs. apply net_run_app in Hr as (net1 & Hr1 & Hr2).
    apply Forall_cons in Hf as [Hf1 Hf2]. cbn [length].
    replace (S (length rounds) + k)%nat with (length rounds + S k)%nat by lia.
    eapply (IH (sent + Z.of_nat (length r))); [exact Hr2|done| |lia|].
    + eapply net_run_ok; [done|done|lia].
    + eapply round_learns; [exact Hr1|done|lia|done|done].
Qed.

(** ** The theorems *)

(** C12: No phantom routes: in a network of nodes with fixed links that started
    from their direct peers, whatever advertisements were exchanged in
    whatever order, every installed route is the first link of a real path
    with exactly the advertised number of hops. *)
Theorem routes_are_real_paths net sched net' n d e :
  net_initial net → net_run net sched net' → Z.of_nat (length sched) < 2 ^ 64 →
  routes (net' n) !! d = Some e →
  ∃ k, rt_hops e = Z.of_nat (S k) ∧ link n (rt_next_hop e) ∧ walk k (rt_next_hop e) d.
Proof.
  intros Hinit Hr Hs He. apply (no_real _ _ (net_run_ok _ _ _ _ Hr (net_initial_ok _ Hinit) Hs) n d (hop_of e)).
  by rewrite He.
Qed.

(** Convergence: after [k] rounds in which every link carries an
    advertisement each way, in any order and with any further exchanges in
    between, every node has a route to every destination at most [k + 1]
    links away (and fewer than [INFINITY]), with the shortest distance as its
    hop count and a next hop that is one link closer. *)
Theorem routing_converges net rounds net' n d j :
  net_initial net → Forall is_round rounds → net_run net (concat rounds) net' →
  Z.of_nat (length (concat rounds)) < 2 ^ 64 →
  distance n d (S j) → (j ≤ length rounds)%nat → Z.of_nat (S j) < INFINITY →
  ∃ e, routes (net' n) !! d = Some e ∧ rt_hops e = Z.of_nat (S j) ∧ distance (rt_next_hop e) d j.
Proof.
  intros Hinit Hrounds Hr Hs Hd Hj Hinf. pose proof (net_initial_ok _ Hinit) as Hok.
  assert (Hok' := net_run_ok _ _ _ _ Hr Hok Hs).
  destruct (rounds_learn rounds 0 1 net net' Hr Hrounds Hok Hs (initial_exact _ _ Hok) n d (S j) Hd)
    as (h & Hh & Hk); [lia|done|].
  pose proof (next_hop_closer _ _ Hok' n d j h Hd Hh Hk) as Hcl.
  destruct (routes (net' n) !! d) as [e|]; [|done]. cbn in Hh. injection Hh as <-. eauto.
Qed.
End Runs.
End Network.

(** ** A concrete network: three nodes in a line, one round. *)
Definition line_peers (n : NodeId) : list NodeId :=
  if bool_decide (n = sample_id 1) then [sample_id 2]
  else if bool_decide (n = sample_id 2) then [sample_id 1; sample_id 3]
  else if bool_decide (n = sample_id 3) then [sample_id 2] else [].
Definition line_link (a b : NodeId) : Prop := b ∈ line_peers a.
#[export] Instance line_link_dec a b : Decision (line_link a b).
Proof. unfold line_link. apply _. Defined.
Definition line_net : network := λ n,
  foldr (add_peer sample_digest 0) (started_table n false sample_prefix (derive_mesh_ipv4 sample_digest n sample_prefix)) (line_peers n).
Definition line_round : list (NodeId * NodeId) :=
  [(sample_id 1, sample_id 2); (sample_id 2, sample_id 1); (sample_id 2, sample_id 3); (sample_id 3, sample_id 2)].

Lemma line_link_pairs a b : line_link b a → (a, b) ∈ line_round.
Proof. unfold line_link, line_peers. repeat case_bool_decide; subst; set_solver. Qed.

Lemma line_topology : topology line_link.
Proof.
  split.
  - intros a b H%line_link_pairs. unfold line_round in H. set_unfold.
    destruct H as [[= -> ->]|[[= -> ->]|[[= -> ->]|[[= -> ->]|[]]]]]; by apply (bool_decide_unpack _); vm_compute.
  - intros a H%line_link_pairs. unfold line_round in H. set_unfold. naive_solver.
Qed.

Lemma line_initial : net_initial sample_digest line_link line_net.
Proof. intros n. exists false, sample_prefix, (derive_mesh_ipv4 sample_digest n sample_prefix), 0, (line_peers n). done. Qed.

(** The network after a schedule, every node iterating its map in its own order. *)
Definition run_sched (sched : list (NodeId * NodeId)) (net : network) : network :=
  fold_left (λ net p, exchange sample_digest 0 (map_to_list (routes (net p.1))) p.1 p.2 net) sched net.

Lemma run_sched_run sched net :
  Forall (λ p, line_link p.2 p.1) sched → net_run sample_digest line_link net sched (run_sched sched net).
Proof.
  revert net. induction sched as [|[a b] sched IH]; intros net Hs; [constructor|].
  apply Forall_cons in Hs as [Hl Hs]. eapply RunCons; [done|reflexivity|]. by apply IH.
Qed.

Lemma line_round_links : Forall (λ p, line_link p.2 p.1) line_round.
Proof. by apply (bool_decide_unpack _); vm_compute. Qed.

Lemma line_distance : distance line_link (sample_id 1) (sample_id 3) 2.
Proof.
  split.
  - apply (WalkCons _ 1 _ (sample_id 2)); [by apply (bool_decide_unpack _); vm_compute|].
    apply (WalkCons _ 0 _ (sample_id 3)); [by apply (bool_decide_unpack _); vm_compute|]. constructor.
  - intros j Hw. inversion Hw as [|k n m d Hl Hw']; simplify_eq. apply line_link_pairs in Hl. unfold line_round in Hl.
    set_unfold. destruct Hl as [Hl|[Hl|[Hl|[Hl|[]]]]]; simplify_eq. inversion Hw'; simplify_eq. lia.
Qed.

Lemma routes_are_real_paths_witness :
  ∃ e k, routes (run_sched line_round line_net (sample_id 1)) !! sample_id 3 = Some e ∧ rt_hops e = Z.of_nat (S k) ∧
    line_link (sample_id 1) (rt_next_hop e) ∧ walk line_link k (rt_next_hop e) (sample_id 3).
Proof.
  assert (He : is_Some (routes (run_sched line_round line_net (sample_id 1)) !! sample_id 3)).
  { eexists. vm_compute. reflexivity. }
  destruct He as [e He]. exists e.
  destruct (routes_are_real_paths sample_digest line_link line_topology line_net line_round _ _ _ e line_initial
    (run_sched_run line_round line_net line_round_links) eq_refl He) as (k & Hk). eauto.
Defined.

Lemma routing_converges_witness :
  ∃ e, routes (run_sched line_round line_net (sample_id 1)) !! sample_id 3 = Some e ∧ rt_hops e = 2 ∧
    distance line_link (rt_next_hop e) (sample_id 3) 1.
Proof.
  apply (routing_converges sample_digest line_link line_topology line_net [line_round] _ (sample_id 1) (sample_id 3) 1 line_initial).
  - apply Forall_singleton. intros a b. apply line_link_pairs.
  - exact (run_sched_run line_round line_net line_round_links).
  - reflexivity.
  - exact line_distance.
  - cbn. lia.
  - reflexivity.
Defined.
