(* ===== verification/Session.v ===== *)
(** * Session encryption (crates/pim-crypto/src/session.rs, crates/pim-daemon/src/session.rs)

    AES-256-GCM is third-party code: it is the parameter [Aead], and what the
    session relies on is [LawfulAead].  The two atomics of [SessionCipher] are
    fields of its state, and a method returns the new state. *)

From S2P Require Import Prelude Core Frames.

(** ** Authenticated encryption *)

(** Key, nonce and text to the ciphertext, with the tag apart
    ([encrypt_in_place_detached], [decrypt_in_place_detached]) or appended
    ([encrypt], [decrypt]). *)
Class Aead := {
  aead_seal : list Z → list Z → list Z → option (list Z * list Z);
  aead_open : list Z → list Z → list Z → list Z → option (list Z);
  aead_encrypt : list Z → list Z → list Z → option (list Z);
  aead_decrypt : list Z → list Z → list Z → option (list Z);
}.

Class LawfulAead (A : Aead) : Prop := {
  aead_open_seal : ∀ k n p c t, aead_seal k n p = Some (c, t) → aead_open k n c t = Some p;
  aead_decrypt_encrypt : ∀ k n p c, aead_encrypt k n p = Some c → aead_decrypt k n c = Some p;
  aead_seal_length : ∀ k n p c t, aead_seal k n p = Some (c, t) → length c = length p ∧ length t = 16%nat;
  aead_seal_bytes : ∀ k n p c t, aead_seal k n p = Some (c, t) → bytes_ok p → bytes_ok c ∧ bytes_ok t;
}.

(** An instance to evaluate on: no secrecy, and a tag that must be zero. *)
Definition null_tag : list Z := replicate 16 0.
Definition null_aead : Aead := {|
  aead_seal k n p := Some (p, null_tag);
  aead_open k n c t := if bool_decide (t = null_tag) then Some c else None;
  aead_encrypt k n p := Some (null_tag ++ p);
  aead_decrypt k n c := if bool_decide (take 16 c = null_tag) then Some (drop 16 c) else None;
|}.

#[export] Instance null_aead_lawful : LawfulAead null_aead.
Proof.
  split; cbn.
  - intros k n p c t [= <- <-]. done.
  - intros k n p c [= <-]. done.
  - intros k n p c t [= <- <-]. done.
  - intros k n p c t [= <- <-] Hp. split; [done|].
    change (bytes_ok (replicate 16 0)). by apply Forall_replicate.
Qed.

Inductive SessionError :=
| InvalidNonce | NonceExhausted | EncryptionFailed | DecryptionFailed | ReplayedNonce.
#[export] Instance SessionError_eq_dec : EqDecision SessionError.
Proof. solve_decision. Defined.

Record EncryptedFrame := { ef_nonce : list Z; ef_ciphertext : list Z }.

Record SessionCipher := {
  sc_cipher : list Z;
  nonce_prefix : list Z;
  sc_counter : Z;
  last_recv_counter : Z;
}.

Definition MAX_NONCE_COUNTER : Z := 2 ^ 32 - 1 - 1.
Definition u64_MAX : Z := 2 ^ 64 - 1.

Definition SessionCipher_new (key prefix : list Z) : SessionCipher :=
  {| sc_cipher := key; nonce_prefix := prefix; sc_counter := 0; last_recv_counter := u64_MAX |}.

(** [AtomicU32::fetch_add] returns the old value and wraps around. *)
Definition fetch_add_counter (s : SessionCipher) : Z * SessionCipher :=
  (sc_counter s,
   {| sc_cipher := sc_cipher s; nonce_prefix := nonce_prefix s; sc_counter := as_u32 (sc_counter s + 1);
      last_recv_counter := last_recv_counter s |}).

Definition store_last_recv (c : Z) (s : SessionCipher) : SessionCipher :=
  {| sc_cipher := sc_cipher s; nonce_prefix := nonce_prefix s; sc_counter := sc_counter s;
     last_recv_counter := c |}.

(** Both copies are in range: 8 prefix bytes and 4 counter bytes into 12. *)
Definition build_nonce (s : SessionCipher) (counter : Z) : list Z :=
  nonce_prefix s ++ be_bytes 4 counter.

(** [nonce.get(8..12)] is [None] beyond the end. *)
Definition nonce_counter (nonce : list Z) : outcome SessionError Z :=
  if bool_decide (12 ≤ length nonce)%nat then Ok (be_value (take 4 (drop 8 nonce))) else Err InvalidNonce.

(** ** The daemon's per-peer session *)
Record Session := { session_peer_id : NodeId; session_send : SessionCipher; session_recv : SessionCipher }.

Definition with_send (c : SessionCipher) (s : Session) : Session :=
  {| session_peer_id := session_peer_id s; session_send := c; session_recv := session_recv s |}.
Definition with_recv (c : SessionCipher) (s : Session) : Session :=
  {| session_peer_id := session_peer_id s; session_send := session_send s; session_recv := c |}.

(** [session::nonce_prefix]. *)
Definition session_nonce_prefix (session_key : list Z) (is_initiator : bool) : list Z :=
  if is_initiator then take 8 session_key else take 8 (drop 8 session_key).

(** The sessions the two ends of a handshake install (handshake.rs). *)
Definition initiator_session (key : list Z) (peer : NodeId) : Session :=
  {| session_peer_id := peer; session_send := SessionCipher_new key (session_nonce_prefix key true);
     session_recv := SessionCipher_new key (session_nonce_prefix key false) |}.
Definition responder_session (key : list Z) (peer : NodeId) : Session :=
  {| session_peer_id := peer; session_send := SessionCipher_new key (session_nonce_prefix key false);
     session_recv := SessionCipher_new key (session_nonce_prefix key true) |}.

Section Cipher.
Context {A : Aead}.

(** The state is updated before the frame is sealed, so an error keeps it. *)
Definition SessionCipher_encrypt (plaintext : list Z) (s : SessionCipher)
  : outcome SessionError EncryptedFrame * SessionCipher :=
  let '(count, s) := fetch_add_counter s in
  if MAX_NONCE_COUNTER <=? count then (Err NonceExhausted, s) else
  let nonce := build_nonce s count in
  match aead_encrypt (sc_cipher s) nonce plaintext with
  | None => (Err EncryptionFailed, s)
  | Some ciphertext => (Ok {| ef_nonce := nonce; ef_ciphertext := ciphertext |}, s)
  end.

Definition SessionCipher_decrypt (frame : EncryptedFrame) (s : SessionCipher)
  : outcome SessionError (list Z) * SessionCipher :=
  match nonce_counter (ef_nonce frame) with
  | Ok counter =>
    let last := last_recv_counter s in
    if negb (last =? u64_MAX) && (counter <=? last) then (Err ReplayedNonce, s) else
    match aead_decrypt (sc_cipher s) (ef_nonce frame) (ef_ciphertext frame) with
    | None => (Err DecryptionFailed, s)
    | Some plaintext => (Ok plaintext, store_last_recv counter s)
    end
  | Err e => (Err e, s)
  | Panic => (Panic, s)
  end.

(** The payload is overwritten: the result carries it with nonce and tag. *)
Definition encrypt_in_place_detached (payload : list Z) (s : SessionCipher)
  : outcome SessionError (list Z * list Z * list Z) * SessionCipher :=
  let '(count, s) := fetch_add_counter s in
  if MAX_NONCE_COUNTER <=? count then (Err NonceExhausted, s) else
  let nonce := build_nonce s count in
  match aead_seal (sc_cipher s) nonce payload with
  | None => (Err EncryptionFailed, s)
  | Some (payload, tag) => (Ok (nonce, tag, payload), s)
  end.

Definition decrypt_in_place_detached (nonce payload tag : list Z) (s : SessionCipher)
  : outcome SessionError (list Z) * SessionCipher :=
  match nonce_counter nonce with
  | Ok counter =>
    let last := last_recv_counter s in
    if negb (last =? u64_MAX) && (counter <=? last) then (Err ReplayedNonce, s) else
    match aead_open (sc_cipher s) nonce payload tag with
    | None => (Err DecryptionFailed, s)
    | Some payload => (Ok payload, store_last_recv counter s)
    end
  | Err e => (Err e, s)
  | Panic => (Panic, s)
  end.

Definition encrypt_frame (plaintext : list Z) (s : Session) : outcome SessionError TransportFrame * Session :=
  let '(r, c) := encrypt_in_place_detached plaintext (session_send s) in
  let s := with_send c s in
  match r with
  | Ok (nonce, tag, payload) =>
    (Ok {| tf_frame_type := FrameData; tf_nonce := nonce; tf_payload := payload; tf_tag := tag |}, s)
  | Err e => (Err e, s)
  | Panic => (Panic, s)
  end.

Definition decrypt_frame (frame : TransportFrame) (s : Session) : outcome SessionError TransportFrame * Session :=
  let '(r, c) := decrypt_in_place_detached (tf_nonce frame) (tf_payload frame) (tf_tag frame) (session_recv s) in
  let s := with_recv c s in
  match r with
  | Ok payload =>
    (Ok {| tf_frame_type := tf_frame_type frame; tf_nonce := tf_nonce frame; tf_payload := payload;
           tf_tag := tf_tag frame |}, s)
  | Err e => (Err e, s)
  | Panic => (Panic, s)
  end.

(** Frames sealed or opened one after the other. *)
Fixpoint encrypt_all (plaintexts : list (list Z)) (s : Session) : list (outcome SessionError TransportFrame) * Session :=
  match plaintexts with
  | [] => ([], s)
  | p :: ps =>
    let '(r, s) := encrypt_frame p s in
    let '(rs, s) := encrypt_all ps s in (r :: rs, s)
  end.

Fixpoint decrypt_all (frames : list TransportFrame) (s : Session) : list (outcome SessionError TransportFrame) * Session :=
  match frames with
  | [] => ([], s)
  | f :: fs =>
    let '(r, s) := decrypt_frame f s in
    let '(rs, s) := decrypt_all fs s in (r :: rs, s)
  end.
End Cipher.

(** ** Lemmas *)
Section Lemmas.
Context {A : Aead}.

Lemma encrypt_frame_state p s :
  let c := session_send (encrypt_frame p s).2 in
  sc_cipher c = sc_cipher (session_send s) ∧ nonce_prefix c = nonce_prefix (session_send s) ∧
  sc_counter c = as_u32 (sc_counter (session_send s) + 1).
Proof.
  unfold encrypt_frame, encrypt_in_place_detached, fetch_add_counter.
  repeat (case_match; simplify_eq/=); done.
Qed.

Lemma encrypt_frame_Ok p s f s' :
  encrypt_frame p s = (Ok f, s') →
  sc_counter (session_send s) < MAX_NONCE_COUNTER ∧
  tf_nonce f = nonce_prefix (session_send s) ++ be_bytes 4 (sc_counter (session_send s)) ∧
  tf_frame_type f = FrameData ∧
  aead_seal (sc_cipher (session_send s)) (tf_nonce f) p = Some (tf_payload f, tf_tag f).
Proof.
  unfold encrypt_frame, encrypt_in_place_detached, fetch_add_counter, build_nonce.
  destruct (Z.leb_spec MAX_NONCE_COUNTER (sc_counter (session_send s))); [done|]. cbn [sc_cipher nonce_prefix].
  destruct (aead_seal _ _ _) as [[c t]|] eqn:E; [|done]. intros [= <- <-]. cbn. done.
Qed.

(** The nonce of the [i]-th frame of a run holds the counter it started from
    plus [i], while the counter does not wrap. *)
Lemma encrypt_all_nth ps s rs s' i f :
  encrypt_all ps s = (rs, s') → 0 ≤ sc_counter (session_send s) →
  sc_counter (session_send s) + Z.of_nat (length ps) ≤ 2 ^ 32 → rs !! i = Some (Ok f) →
  let c := sc_counter (session_send s) + Z.of_nat i in
  c < MAX_NONCE_COUNTER ∧ tf_nonce f = nonce_prefix (session_send s) ++ be_bytes 4 c ∧
  ∃ p, ps !! i = Some p ∧ aead_seal (sc_cipher (session_send s)) (tf_nonce f) p = Some (tf_payload f, tf_tag f).
Proof.
  revert s rs s' i. induction ps as [|p ps IH]; intros s rs s' i; cbn [encrypt_all length]; [by intros [= <- <-]|].
  destruct (encrypt_frame p s) as [r s1] eqn:E1. destruct (encrypt_all ps s1) as [rs1 s2] eqn:E2.
  intros [= <- <-] H0 Hlen. pose proof (encrypt_frame_state p s) as Hst. rewrite E1 in Hst. cbn [snd] in Hst.
  destruct Hst as (Hc & Hp & Hn). destruct i as [|i]; cbn [lookup list_lookup].
  - intros [= ->]. destruct (encrypt_frame_Ok _ _ _ _ E1) as (? & Hnon & _ & ?).
    rewrite Z.add_0_r. eauto.
  - intros Hi. destruct ps as [|p' ps]; [cbn in E2; simplify_eq; done|]. cbn [length] in Hlen.
    rewrite as_u32_small in Hn by (unfold u32_ok; lia).
    destruct (IH _ _ _ i E2) as (? & Hnon & q & ? & ?); [lia|cbn [length]; lia|done|].
    rewrite Hc, Hp, Hn in *. replace (sc_counter (session_send s) + Z.of_nat (S i))
      with (sc_counter (session_send s) + 1 + Z.of_nat i) by lia. eauto.
Qed.

Lemma be_bytes4_inj a b : u32_ok a → u32_ok b → be_bytes 4 a = be_bytes 4 b → a = b.
Proof.
  intros Ha Hb Heq. apply (f_equal be_value) in Heq. by rewrite !be_value_be_bytes in Heq.
Qed.

Lemma nonce_counter_build prefix c :
  length prefix = 8%nat → u32_ok c → nonce_counter (prefix ++ be_bytes 4 c) = Ok c.
Proof.
  intros Hp Hc. unfold nonce_counter. rewrite bool_decide_eq_true_2 by (rewrite length_app, length_be_bytes; lia).
  rewrite drop_app_length' by done. rewrite take_ge by (rewrite length_be_bytes; lia).
  by rewrite be_value_be_bytes.
Qed.

Lemma nonce_counter_ok n c : bytes_ok n → nonce_counter n = Ok c → u32_ok c.
Proof.
  intros Hn. unfold nonce_counter. case_bool_decide; [|done]. intros [= <-].
  assert (Hl : length (take 4 (drop 8 n)) = 4%nat) by (rewrite length_take, length_drop; lia).
  pose proof (be_value_bound (take 4 (drop 8 n))) as Hv. rewrite Hl in Hv.
  apply Hv. by apply Forall_take, Forall_drop.
Qed.

Lemma decrypt_frame_Ok f s g s' :
  decrypt_frame f s = (Ok g, s') →
  ∃ c, nonce_counter (tf_nonce f) = Ok c ∧
    (last_recv_counter (session_recv s) = u64_MAX ∨ last_recv_counter (session_recv s) < c) ∧
    s' = with_recv (store_last_recv c (session_recv s)) s ∧
    aead_open (sc_cipher (session_recv s)) (tf_nonce f) (tf_payload f) (tf_tag f) = Some (tf_payload g).
Proof.
  unfold decrypt_frame, decrypt_in_place_detached. destruct (nonce_counter (tf_nonce f)) as [c| |]; [|done..].
  destruct (Z.eqb_spec (last_recv_counter (session_recv s)) u64_MAX); cbn [negb andb].
  2: destruct (Z.leb_spec c (last_recv_counter (session_recv s))); [done|].
  all: destruct (aead_open _ _ _ _) eqn:E; [|done]; intros [= <- <-]; exists c; split_and!; try done; first [by left|by right].
Qed.

Lemma decrypt_frame_not_Ok f s r s' :
  decrypt_frame f s = (r, s') → is_ok r = false → session_recv s' = session_recv s.
Proof.
  unfold decrypt_frame, decrypt_in_place_detached. repeat (case_match; simplify_eq/=); intros [= <- <-]; done.
Qed.

(** The receiver's counter never goes back, and an accepted frame is above it. *)
Lemma decrypt_all_above fs : ∀ s rs s' i f g c,
  Forall (λ f, bytes_ok (tf_nonce f)) fs → decrypt_all fs s = (rs, s') →
  last_recv_counter (session_recv s) ≠ u64_MAX →
  fs !! i = Some f → rs !! i = Some (Ok g) → nonce_counter (tf_nonce f) = Ok c →
  last_recv_counter (session_recv s) < c.
Proof.
  induction fs as [|f0 fs IH]; intros s rs s' i f g c Hb; cbn [decrypt_all]; [done|].
  apply Forall_cons in Hb as [Hb0 Hb]. destruct (decrypt_frame f0 s) as [r s1] eqn:E1.
  destruct (decrypt_all fs s1) as [rs1 s2] eqn:E2. intros [= <- <-] Hl. destruct i as [|i]; cbn [lookup list_lookup].
  - intros [= ->] [= ->] Hc. destruct (decrypt_frame_Ok _ _ _ _ E1) as (c' & Hc' & [?|?] & _); [done|]. assert (c = c') by congruence. lia.
  - intros Hf Hg Hc. destruct r as [g0|e|].
    + destruct (decrypt_frame_Ok _ _ _ _ E1) as (c' & Hc' & [?|Hlt] & -> & _); [done|].
      pose proof (nonce_counter_ok _ _ Hb0 Hc') as [? ?].
      pose proof (IH _ _ _ i f g c Hb E2) as IH'. cbn in IH'. specialize (IH' ltac:(unfold u64_MAX; lia) Hf Hg Hc). lia.
    + rewrite <- (decrypt_frame_not_Ok _ _ _ _ E1 eq_refl) in *. eauto.
    + rewrite <- (decrypt_frame_not_Ok _ _ _ _ E1 eq_refl) in *. eauto.
Qed.

Lemma decrypt_all_counter fs s rs s' j g g' :
  decrypt_all fs s = (rs, s') → fs !! j = Some g → rs !! j = Some (Ok g') →
  ∃ c, nonce_counter (tf_nonce g) = Ok c.
Proof.
  revert s rs s' j. induction fs as [|h hs IH]; intros s rs s' j; cbn [decrypt_all]; [done|].
  destruct (decrypt_frame h s) as [r s1] eqn:E1. destruct (decrypt_all hs s1) as [rs1 s2] eqn:E2.
  intros [= <- <-]. destruct j as [|j]; cbn [lookup list_lookup]; [|by eapply IH].
  intros [= ->] [= ->]. destruct (decrypt_frame_Ok _ _ _ _ E1) as (? & ? & _). eauto.
Qed.
End Lemmas.

(** ** The theorems *)
Section Theorems.
Context {A : Aead}.

Lemma encrypt_cipher_state p c :
  (encrypt_in_place_detached p c).2 =
  {| sc_cipher := sc_cipher c; nonce_prefix := nonce_prefix c; sc_counter := as_u32 (sc_counter c + 1);
     last_recv_counter := last_recv_counter c |}.
Proof. unfold encrypt_in_place_detached, fetch_add_counter. repeat (case_match; simplify_eq/=); done. Qed.

Lemma encrypt_cipher_iter p n key prefix :
  Nat.iter n (λ c, (encrypt_in_place_detached p c).2) (SessionCipher_new key prefix) =
  {| sc_cipher := key; nonce_prefix := prefix; sc_counter := as_u32 (Z.of_nat n); last_recv_counter := u64_MAX |}.
Proof.
  induction n as [|n IH]; [done|]. rewrite Nat.iter_succ, IH, encrypt_cipher_state. cbn [sc_cipher nonce_prefix sc_counter last_recv_counter].
  f_equal. unfold as_u32. rewrite Zplus_mod_idemp_l. f_equal. lia.
Qed.

(** Nonce uniqueness: of the frames one direction of a session seals
    before its counter has been incremented 2^32 times, no two carry the same
    nonce, and each carries the counter value it was sealed at. *)
Theorem session_nonces_unique ps s rs s' i j f g :
  encrypt_all ps s = (rs, s') → u32_ok (sc_counter (session_send s)) →
  sc_counter (session_send s) + Z.of_nat (length ps) ≤ 2 ^ 32 →
  rs !! i = Some (Ok f) → rs !! j = Some (Ok g) → i ≠ j → tf_nonce f ≠ tf_nonce g.
Proof.
  intros Hrun [H0 _] Hlen Hi Hj Hne Heq.
  destruct (encrypt_all_nth _ _ _ _ _ _ Hrun H0 Hlen Hi) as (Hci & Hni & _).
  destruct (encrypt_all_nth _ _ _ _ _ _ Hrun H0 Hlen Hj) as (Hcj & Hnj & _).
  rewrite Hni, Hnj in Heq. apply app_inv_head in Heq. unfold MAX_NONCE_COUNTER in *.
  apply be_bytes4_inj in Heq; unfold u32_ok; lia.
Qed.

(** The counter wraps: the error [NonceExhausted] does not stop the
    session.  After 2^32 calls (two of which fail) the next frame is sealed
    under the nonce of the first one, with the same key. *)
Theorem nonce_reuse_after_exhaustion key prefix p q c t :
  aead_seal key (prefix ++ be_bytes 4 0) q = Some (c, t) →
  let s0 := SessionCipher_new key prefix in
  let used n := Nat.iter n (λ s, (encrypt_in_place_detached p s).2) s0 in
  (encrypt_in_place_detached p (used (Z.to_nat (2 ^ 32 - 2)))).1 = Err NonceExhausted ∧
  (encrypt_in_place_detached p (used (Z.to_nat (2 ^ 32 - 1)))).1 = Err NonceExhausted ∧
  (encrypt_in_place_detached q s0).1 = Ok (prefix ++ be_bytes 4 0, t, c) ∧
  (encrypt_in_place_detached q (used (Z.to_nat (2 ^ 32)))).1 = Ok (prefix ++ be_bytes 4 0, t, c).
Proof.
  intros Hs s0 used. unfold used, s0. rewrite !encrypt_cipher_iter, !Z2Nat.id by lia.
  unfold encrypt_in_place_detached, fetch_add_counter, SessionCipher_new, build_nonce.
  cbn [sc_cipher nonce_prefix sc_counter last_recv_counter].
  change (as_u32 (2 ^ 32 - 2)) with (2 ^ 32 - 2). change (as_u32 (2 ^ 32 - 1)) with (2 ^ 32 - 1).
  change (as_u32 (2 ^ 32)) with 0. change (MAX_NONCE_COUNTER <=? 0) with false.
  change (MAX_NONCE_COUNTER <=? 2 ^ 32 - 2) with true. change (MAX_NONCE_COUNTER <=? 2 ^ 32 - 1) with true.
  cbv iota. by rewrite Hs.
Qed.

(** C9: Replay protection: whatever frames arrive, in whatever order, the
    frames a session accepts carry strictly increasing counters, so no frame
    is accepted twice and none is accepted after a later one. *)
Theorem session_no_replay fs s rs s' i j f g f' g' :
  Forall (λ f, bytes_ok (tf_nonce f)) fs → decrypt_all fs s = (rs, s') → (i < j)%nat →
  fs !! i = Some f → rs !! i = Some (Ok f') → fs !! j = Some g → rs !! j = Some (Ok g') →
  ∃ ci cj, nonce_counter (tf_nonce f) = Ok ci ∧ nonce_counter (tf_nonce g) = Ok cj ∧ ci < cj.
Proof.
  revert s rs s' i j. induction fs as [|f0 fs IH]; intros s rs s' i j Hb; cbn [decrypt_all]; [done|].
  apply Forall_cons in Hb as [Hb0 Hb]. destruct (decrypt_frame f0 s) as [r s1] eqn:E1.
  destruct (decrypt_all fs s1) as [rs1 s2] eqn:E2. intros [= <- <-] Hij. destruct j as [|j]; [lia|].
  destruct i as [|i]; cbn [lookup list_lookup]; [|eapply IH; [done|done|lia]].
  intros [= ->] [= ->] Hg Hg'. destruct (decrypt_frame_Ok _ _ _ _ E1) as (c & Hc & _ & -> & _).
  destruct (decrypt_all_counter _ _ _ _ _ _ _ E2 Hg Hg') as [cg Hcg].
  exists c, cg. split_and!; [done|done|].
  pose proof (nonce_counter_ok _ _ Hb0 Hc) as [_ Hu].
  eapply (decrypt_all_above fs _ _ _ j g g' cg Hb E2); [cbn; unfold u64_MAX; lia|done..].
Qed.

(** The nonces of a session carry its key: the prefix is not random but
    the first (initiator) or second (responder) eight bytes of the session
    key, so one frame in each direction shows half of the key to the wire. *)
Theorem nonce_prefix_is_key_material key a b p q f g s s' :
  length key = 32%nat →
  encrypt_frame p (initiator_session key a) = (Ok f, s) →
  encrypt_frame q (responder_session key b) = (Ok g, s') →
  take 8 (tf_nonce f) ++ take 8 (tf_nonce g) = take 16 key.
Proof.
  intros Hk Hf Hg. apply encrypt_frame_Ok in Hf as (_ & -> & _ & _). apply encrypt_frame_Ok in Hg as (_ & -> & _ & _).
  cbn [initiator_session responder_session session_send nonce_prefix SessionCipher_new session_nonce_prefix].
  rewrite !take_app_le by (rewrite length_take, ?length_drop; lia). rewrite !take_take. change (8 `min` 8)%nat with 8%nat.
  change 16%nat with (8 + 8)%nat. apply take_take_drop.
Qed.
End Theorems.

(** ** Concrete sessions *)
Definition sample_key : list Z := map Z.of_nat (seq 1 32).
Definition sample_initiator : Session := initiator_session sample_key (sample_id 2).
Definition sample_responder : Session := responder_session sample_key (sample_id 1).
Definition sample_frames : list TransportFrame :=
  omap (λ r, match r with Ok f => Some f | _ => None end)
    (encrypt_all (A:=null_aead) [[1; 2]; [3]] sample_initiator).1.

Lemma session_nonces_unique_witness :
  ∃ f g, sample_frames = [f; g] ∧ tf_nonce f ≠ tf_nonce g.
Proof.
  eexists _, _. split; [vm_compute; reflexivity|].
  eapply (session_nonces_unique (A:=null_aead) [[1; 2]; [3]] sample_initiator _ _ 0 1);
    [vm_compute; reflexivity|by vm_compute|by vm_compute|reflexivity|reflexivity|lia].
Defined.

Lemma nonce_reuse_after_exhaustion_witness :
  let s0 := SessionCipher_new sample_key (take 8 sample_key) in
  let used n := Nat.iter n (λ s, (encrypt_in_place_detached (A:=null_aead) [] s).2) s0 in
  (encrypt_in_place_detached (A:=null_aead) [7] (used (Z.to_nat (2 ^ 32)))).1 =
  (encrypt_in_place_detached (A:=null_aead) [7] s0).1.
Proof.
  intros s0 used.
  destruct (nonce_reuse_after_exhaustion (A:=null_aead) sample_key (take 8 sample_key) [] [7] [7] null_tag eq_refl)
    as (_ & _ & H1 & H2).
  exact (eq_trans H2 (eq_sym H1)).
Defined.

Lemma session_no_replay_witness :
  let f i := nth i sample_frames {| tf_frame_type := FrameData; tf_nonce := []; tf_payload := []; tf_tag := [] |} in
  ∃ ci cj, nonce_counter (tf_nonce (f 0%nat)) = Ok ci ∧ nonce_counter (tf_nonce (f 1%nat)) = Ok cj ∧ ci < cj.
Proof.
  intros f. set (res := decrypt_all (A:=null_aead) sample_frames sample_responder).
  apply (session_no_replay (A:=null_aead) sample_frames sample_responder res.1 res.2 0 1 (f 0%nat) (f 1%nat) (f 0%nat) (f 1%nat));
    [by apply (bool_decide_unpack _); vm_compute|apply surjective_pairing|lia|vm_compute; reflexivity..].
Defined.

Lemma nonce_prefix_is_key_material_witness :
  ∃ f g s s', encrypt_frame (A:=null_aead) [1] sample_initiator = (Ok f, s) ∧
    encrypt_frame (A:=null_aead) [2] sample_responder = (Ok g, s') ∧
    take 8 (tf_nonce f) ++ take 8 (tf_nonce g) = take 16 sample_key.
Proof.
  eexists _, _, _, _. split; [vm_compute; reflexivity|]. split; [vm_compute; reflexivity|].
  eapply (nonce_prefix_is_key_material (A:=null_aead) sample_key (sample_id 2) (sample_id 1) [1] [2]);
    [reflexivity|vm_compute; reflexivity|vm_compute; reflexivity].
Defined.
