(* ===== verification/DataPlane.v ===== *)
(** * The data plane (crates/pim-daemon/src/data_plane.rs, crates/pim-daemon/src/app/event_loop.rs)

    Sending a packet over the mesh (fragmentation, the mesh header, session
    encryption) and the [FrameType::Data] branch of the event loop up to the
    packet it delivers or the frame it relays.  [state.sessions] is a map of
    shared sessions: using one writes it back. *)

From S2P Require Import Prelude Core MeshAddress Frames Control Stream Fragment Routing Session.

(** The part of [DaemonState] the data plane works on. *)
Record DataState := {
  ds_self_id : NodeId;
  ds_frag_id : Z;
  ds_reassemblers : gmap NodeId Reassembler;
  ds_sessions : gmap NodeId Session;
  ds_routing : RoutingTable;
  ds_packets_forwarded : Z;
  ds_bytes_forwarded : Z;
  ds_packets_dropped : Z;
}.

Definition set_sessions (m : gmap NodeId Session) (st : DataState) : DataState :=
  {| ds_self_id := ds_self_id st; ds_frag_id := ds_frag_id st; ds_reassemblers := ds_reassemblers st;
     ds_sessions := m; ds_routing := ds_routing st; ds_packets_forwarded := ds_packets_forwarded st;
     ds_bytes_forwarded := ds_bytes_forwarded st; ds_packets_dropped := ds_packets_dropped st |}.
Definition set_reassemblers (m : gmap NodeId Reassembler) (st : DataState) : DataState :=
  {| ds_self_id := ds_self_id st; ds_frag_id := ds_frag_id st; ds_reassemblers := m;
     ds_sessions := ds_sessions st; ds_routing := ds_routing st; ds_packets_forwarded := ds_packets_forwarded st;
     ds_bytes_forwarded := ds_bytes_forwarded st; ds_packets_dropped := ds_packets_dropped st |}.

(** [fetch_add] on the forwarding counters, which are [AtomicU64]s. *)
Definition count_forwarded (bytes : nat) (st : DataState) : DataState :=
  {| ds_self_id := ds_self_id st; ds_frag_id := ds_frag_id st; ds_reassemblers := ds_reassemblers st;
     ds_sessions := ds_sessions st; ds_routing := ds_routing st;
     ds_packets_forwarded := as_u64 (ds_packets_forwarded st + 1);
     ds_bytes_forwarded := as_u64 (ds_bytes_forwarded st + Z.of_nat bytes);
     ds_packets_dropped := ds_packets_dropped st |}.
Definition count_dropped (st : DataState) : DataState :=
  {| ds_self_id := ds_self_id st; ds_frag_id := ds_frag_id st; ds_reassemblers := ds_reassemblers st;
     ds_sessions := ds_sessions st; ds_routing := ds_routing st;
     ds_packets_forwarded := ds_packets_forwarded st; ds_bytes_forwarded := ds_bytes_forwarded st;
     ds_packets_dropped := as_u64 (ds_packets_dropped st + 1) |}.

(** [AtomicU32::fetch_add]. *)
Definition next_frag_id (st : DataState) : Z * DataState :=
  (ds_frag_id st,
   {| ds_self_id := ds_self_id st; ds_frag_id := as_u32 (ds_frag_id st + 1);
      ds_reassemblers := ds_reassemblers st; ds_sessions := ds_sessions st; ds_routing := ds_routing st;
      ds_packets_forwarded := ds_packets_forwarded st; ds_bytes_forwarded := ds_bytes_forwarded st;
      ds_packets_dropped := ds_packets_dropped st |}).

Section DataPlane.
Context {A : Aead}.

(** ** Sending

    The frames handed to [send_frame_buffered], in order; a frame that cannot
    be sealed is logged and skipped. *)
Definition send_single_mesh (session : Session) (src_id dst_id : NodeId) (ttl flags : Z) (payload : list Z)
  : list TransportFrame * Session :=
  let mesh_buf := MeshDataFrame_encode
    {| md_src_id := src_id; md_dst_id := dst_id; md_session_id := 0; md_ttl := ttl; md_flags := flags;
       md_payload := payload |} [] in
  match encrypt_frame mesh_buf session with
  | (Ok frame, session) => ([frame], session)
  | (_, session) => ([], session)
  end.

(** The [for frag in fragment_packet(..)] loop. *)
Fixpoint send_fragments (frags : list FragmentFrame) (session : Session) (src_id dst_id : NodeId) (ttl flags : Z)
  : list TransportFrame * Session :=
  match frags with
  | [] => ([], session)
  | frag :: frags =>
    let frag_bytes := FragmentFrame_serialize frag in
    let mesh_flags := Z.lor flags IS_FRAGMENT in
    let '(out, session) := send_single_mesh session src_id dst_id ttl mesh_flags frag_bytes in
    let '(outs, session) := send_fragments frags session src_id dst_id ttl flags in
    (out ++ outs, session)
  end.

Definition send_mesh_data (session : Session) (src_id dst_id : NodeId) (ttl flags : Z) (payload : list Z)
    (st : DataState) : list TransportFrame * Session * DataState :=
  let threshold := (MAX_FRAGMENT_PAYLOAD - 40)%nat in
  if bool_decide (threshold < length payload)%nat then
    let '(frag_id, st) := next_frag_id st in
    (send_fragments (fragment_packet payload frag_id) session src_id dst_id ttl flags, st)
  else (send_single_mesh session src_id dst_id ttl flags payload, st).

(** ** Receiving *)

(** [None] while fragments are missing, and for a fragment that does not parse. *)
Definition reassemble_or_deliver (now : Z) (src_id : NodeId) (flags : Z) (payload : list Z) (st : DataState)
  : outcome PimError (option (list Z) * DataState) :=
  if flags_contains flags IS_FRAGMENT then
    match FragmentFrame_deserialize payload with
    | Ok frag =>
      let r := default Reassembler_new (ds_reassemblers st !! src_id) in
      let? (res, r) := Reassembler_insert now frag r in
      Ok (res, set_reassemblers (<[src_id := r]> (ds_reassemblers st)) st)
    | Err _ => Ok (None, st)
    | Panic => Panic
    end
  else Ok (Some payload, st).

(** [run_reassembly_gc], one tick. *)
Definition reassembly_gc (now : Z) (st : DataState) : DataState :=
  let m := Reassembler_expire_stale now <$> ds_reassemblers st in
  set_reassemblers (filter (λ '(_, r), (0 < buffer_count r)%nat) m) st.

(** What becomes of a data frame. *)
Inductive DataEvent :=
| NoSession
| DecryptError (e : SessionError)
| DecodeError (e : PimError)
| RoutedControl (src : NodeId) (frame : outcome PimError (ControlFrame * list Z))
| Waiting
| Deliver (src : NodeId) (flags : Z) (packet : list Z)
| TtlExpired
| NoRoute
| NoRelaySession
| Relay (next_hop : NodeId) (frames : list TransportFrame).

(** The branch for a frame that has reached its destination. *)
Definition deliver_mesh (now : Z) (mesh : MeshDataFrame) (st : DataState) : outcome PimError (DataEvent * DataState) :=
  if flags_contains (md_flags mesh) IS_CONTROL then
    Ok (RoutedControl (md_src_id mesh) (ControlFrame_decode (md_payload mesh)), st)
  else
    let st := count_forwarded (length (md_payload mesh)) st in
    let? (res, st) := reassemble_or_deliver now (md_src_id mesh) (md_flags mesh) (md_payload mesh) st in
    match res with
    | Some packet => Ok (Deliver (md_src_id mesh) (md_flags mesh) packet, st)
    | None => Ok (Waiting, st)
    end.

(** The relay branch; [ttl - 1] does not underflow, a zero ttl has left. *)
Definition relay_mesh (mesh : MeshDataFrame) (st : DataState) : DataEvent * DataState :=
  if md_ttl mesh =? 0 then (TtlExpired, count_dropped st) else
  match lookup_route (md_dst_id mesh) (ds_routing st) with
  | None => (NoRoute, count_dropped st)
  | Some next_hop =>
    match ds_sessions st !! next_hop with
    | None => (NoRelaySession, count_dropped st)
    | Some fwd_session =>
      let '(frames, fwd_session) :=
        send_single_mesh fwd_session (md_src_id mesh) (md_dst_id mesh) (md_ttl mesh - 1) (md_flags mesh)
          (md_payload mesh) in
      let st := set_sessions (<[next_hop := fwd_session]> (ds_sessions st)) st in
      (Relay next_hop frames, count_forwarded (length (md_payload mesh)) st)
    end
  end.

(** [FrameType::Data]. *)
Definition handle_data (now : Z) (from_peer : NodeId) (frame : TransportFrame) (st : DataState)
  : outcome PimError (DataEvent * DataState) :=
  match ds_sessions st !! from_peer with
  | None => Ok (NoSession, st)
  | Some session =>
    let '(r, session) := decrypt_frame frame session in
    let st := set_sessions (<[from_peer := session]> (ds_sessions st)) st in
    match r with
    | Err e => Ok (DecryptError e, st)
    | Panic => Panic
    | Ok frame =>
      match MeshDataFrame_decode (tf_payload frame) with
      | Err e => Ok (DecodeError e, st)
      | Panic => Panic
      | Ok (mesh, _) =>
        if bool_decide (md_dst_id mesh = ds_self_id st) then deliver_mesh now mesh st
        else Ok (relay_mesh mesh st)
      end
    end
  end.

(** Frames handled one after the other. *)
Fixpoint handle_all (now : Z) (from_peer : NodeId) (frames : list TransportFrame) (st : DataState)
  : outcome PimError (list DataEvent * DataState) :=
  match frames with
  | [] => Ok ([], st)
  | f :: fs =>
    let? (e, st) := handle_data now from_peer f st in
    let? (es, st) := handle_all now from_peer fs st in
    Ok (e :: es, st)
  end.

(** The nodes of a network, one of them changed. *)
Definition at_node (n : NodeId) (st : DataState) (net : NodeId → DataState) : NodeId → DataState :=
  λ k, if bool_decide (k = n) then st else net k.

(** A frame that [from] has sent to [to], in a network of nodes: a node that
    relays it changes its state and hands it to the next hop it chose, for at
    most [fuel] nodes. The node where it stops, and what becomes of it there. *)
Fixpoint travel (fuel : nat) (now : Z) (net : NodeId → DataState) (from to : NodeId) (frame : TransportFrame)
  : outcome PimError (option (NodeId * DataEvent)) :=
  match fuel with
  | O => Ok None
  | S fuel =>
    let? (e, st) := handle_data now from frame (net to) in
    match e with
    | Relay next_hop [frame] => travel fuel now (at_node to st net) to next_hop frame
    | e => Ok (Some (to, e))
    end
  end.
End DataPlane.

(** ** Lemmas: one frame from a session to its peer *)

(** AES-GCM refuses only messages far above any frame. *)
Class TotalAead (A : Aead) : Prop :=
  aead_seal_total : ∀ k n p, Z.of_nat (length p) < 2 ^ 20 → is_Some (aead_seal k n p).
#[export] Instance null_aead_total : TotalAead null_aead.
Proof. intros k n p _. cbn. eauto. Qed.

Section Proofs.
Context {A : Aead} {Hlaw : LawfulAead A} {Htot : TotalAead A}.
Implicit Types (s r : Session) (st : DataState).

(** [r] can open what [s] seals next. *)
Definition paired s r : Prop :=
  sc_cipher (session_recv r) = sc_cipher (session_send s) ∧
  length (nonce_prefix (session_send s)) = 8%nat ∧
  (last_recv_counter (session_recv r) = u64_MAX ∨
   last_recv_counter (session_recv r) < sc_counter (session_send s)).

Lemma transfer_one p s r :
  paired s r → 0 ≤ sc_counter (session_send s) < MAX_NONCE_COUNTER → Z.of_nat (length p) < 2 ^ 20 - 36 →
  ∃ f s' r', encrypt_frame p s = (Ok f, s') ∧ wire_fits f ∧
    decrypt_frame f r = (Ok {| tf_frame_type := FrameData; tf_nonce := tf_nonce f; tf_payload := p;
                               tf_tag := tf_tag f |}, r') ∧
    paired s' r' ∧ sc_counter (session_send s') = sc_counter (session_send s) + 1 ∧
    session_recv s' = session_recv s ∧ session_send r' = session_send r.
Proof.
  intros (Hk & Hp & Hl) Hc Hlen. unfold MAX_NONCE_COUNTER in Hc. set (c := sc_counter (session_send s)) in *.
  destruct (aead_seal_total (sc_cipher (session_send s)) (nonce_prefix (session_send s) ++ be_bytes 4 c) p)
    as [[ct tag] Hs]; [lia|].
  destruct (aead_seal_length _ _ _ _ _ Hs) as [Hlc Hlt].
  set (f := {| tf_frame_type := FrameData; tf_nonce := nonce_prefix (session_send s) ++ be_bytes 4 c;
               tf_payload := ct; tf_tag := tag |}).
  assert (He : encrypt_frame p s = (Ok f, with_send (fetch_add_counter (session_send s)).2 s)).
  { unfold encrypt_frame, encrypt_in_place_detached, fetch_add_counter, build_nonce. fold c.
    rewrite (proj2 (Z.leb_gt _ _)) by (unfold MAX_NONCE_COUNTER; lia). cbn [sc_cipher nonce_prefix]. by rewrite Hs. }
  assert (Hd : decrypt_frame f r = (Ok {| tf_frame_type := FrameData; tf_nonce := tf_nonce f; tf_payload := p;
      tf_tag := tf_tag f |}, with_recv (store_last_recv c (session_recv r)) r)).
  { unfold decrypt_frame, decrypt_in_place_detached. cbn [tf_nonce f].
    rewrite nonce_counter_build by (try done; unfold u32_ok; lia).
    assert (negb (last_recv_counter (session_recv r) =? u64_MAX) && (c <=? last_recv_counter (session_recv r)) = false) as ->.
    { destruct Hl as [->|Hl]; [by rewrite Z.eqb_refl|]. rewrite (proj2 (Z.leb_gt _ _)) by lia. apply andb_false_r. }
    cbn [tf_payload tf_tag f]. by rewrite Hk, (aead_open_seal _ _ _ _ _ Hs). }
  eexists f, _, _. split; [exact He|]. split; [|split; [exact Hd|]].
  - unfold wire_fits, TransportFrame_wf, MAX_FRAME_SIZE, MAX_PAYLOAD_SIZE. cbn [tf_nonce tf_tag tf_payload f].
    rewrite length_app, length_be_bytes. lia.
  - cbn. rewrite as_u32_small by (unfold u32_ok; lia). split; [|done]. split_and!; try done. right. cbn. lia.
Qed.

(** The halves of the two sessions that a transfer does not use. *)
Definition same_back (s s' r r' : Session) : Prop := session_recv s' = session_recv s ∧ session_send r' = session_send r.

(** ** Lemmas: a mesh frame at its destination *)
Lemma length_mesh_encode mesh : MeshDataFrame_wf mesh →
  length (MeshDataFrame_encode mesh []) = (40 + length (md_payload mesh))%nat.
Proof.
  intros (Hs & Hd & _). rewrite MeshDataFrame_encode_segs. cbn [app]. rewrite length_concat_segs. seg_lia.
Qed.

Lemma send_single_delivers now from src dst ttl flags payload s r st :
  let mesh := {| md_src_id := src; md_dst_id := dst; md_session_id := 0; md_ttl := ttl; md_flags := flags;
                 md_payload := payload |} in
  ds_sessions st !! from = Some r → paired s r → 0 ≤ sc_counter (session_send s) < MAX_NONCE_COUNTER →
  MeshDataFrame_wf mesh →
  ∃ f s' r', send_single_mesh s src dst ttl flags payload = ([f], s') ∧ wire_fits f ∧ paired s' r' ∧
    sc_counter (session_send s') = sc_counter (session_send s) + 1 ∧ same_back s s' r r' ∧
    handle_data now from f st =
      let st' := set_sessions (<[from := r']> (ds_sessions st)) st in
      if bool_decide (dst = ds_self_id st) then deliver_mesh now mesh st' else Ok (relay_mesh mesh st').
Proof.
  intros mesh Hr Hp Hc Hwf. pose proof (length_mesh_encode mesh Hwf) as Hl.
  destruct (transfer_one (MeshDataFrame_encode mesh []) s r Hp Hc) as (f & s' & r' & He & Hfit & Hd & Hp' & Hc' & Hback).
  { destruct Hwf as (_ & _ & _ & _ & Hpl). lia. }
  exists f, s', r'. split_and!; try done.
  - unfold send_single_mesh. fold mesh. by rewrite He.
  - unfold handle_data. rewrite Hr, Hd. cbn [tf_payload].
    pose proof (MeshDataFrame_roundtrip mesh [] Hwf) as Hrt. rewrite app_nil_r in Hrt. by rewrite Hrt.
Qed.

(** ** Lemmas: a fragmented packet at its destination *)

(** The packets a run delivers, with their source and flags. *)
Fixpoint delivered (es : list DataEvent) : list (NodeId * Z * list Z) :=
  match es with
  | [] => []
  | Deliver src flags packet :: es => (src, flags, packet) :: delivered es
  | _ :: es => delivered es
  end.

Lemma lor_flag flags : flags_contains (Z.lor flags IS_FRAGMENT) IS_FRAGMENT = true.
Proof.
  unfold flags_contains. apply Z.eqb_eq. rewrite Z.land_comm. apply Z.bits_inj'. intros n _.
  rewrite Z.land_spec, Z.lor_spec. by destruct (Z.testbit flags n), (Z.testbit IS_FRAGMENT n).
Qed.

Lemma lor_flag_control flags :
  flags_contains flags IS_CONTROL = false → flags_contains (Z.lor flags IS_FRAGMENT) IS_CONTROL = false.
Proof.
  unfold flags_contains. rewrite !Z.eqb_neq, Z.land_lor_distr_l. change (Z.land IS_FRAGMENT IS_CONTROL) with 0.
  by rewrite Z.lor_0_r.
Qed.

Lemma truncate_lor_fragment flags :
  from_bits_truncate flags = flags → from_bits_truncate (Z.lor flags IS_FRAGMENT) = Z.lor flags IS_FRAGMENT.
Proof.
  unfold from_bits_truncate. intros Hf. rewrite Z.land_lor_distr_l, Hf. done.
Qed.

Lemma length_serialize f : length (FragmentFrame_serialize f) = (8 + length (fr_payload f))%nat.
Proof. unfold FragmentFrame_serialize. rewrite !length_app, !length_be_bytes. lia. Qed.

(** What every fragment of a packet satisfies. *)
Definition frag_ok (g : FragmentFrame) : Prop :=
  FragmentFrame_wf g ∧ (length (fr_payload g) ≤ MAX_FRAGMENT_PAYLOAD)%nat.

(** What receiving frames from [from] leaves alone. *)
Record only_from (from : NodeId) (st st' : DataState) : Prop := {
  of_self : ds_self_id st' = ds_self_id st;
  of_frag : ds_frag_id st' = ds_frag_id st;
  of_routing : ds_routing st' = ds_routing st;
  of_sessions : ∀ p, p ≠ from → ds_sessions st' !! p = ds_sessions st !! p;
}.

Lemma only_from_refl from st : only_from from st st.
Proof. by split. Qed.
Lemma only_from_trans from st1 st2 st3 : only_from from st1 st2 → only_from from st2 st3 → only_from from st1 st3.
Proof.
  intros [H1 H2 H3 H4] [G1 G2 G3 G4]. split; [congruence..|]. intros p Hp. rewrite G4, H4 by done. done.
Qed.

(** What a run of fragments does: an event per frame, the packets completed. *)
Definition fragment_event (e : DataEvent) : Prop := e = Waiting ∨ ∃ src flags p, e = Deliver src flags p.

Lemma delivered_none es : Forall fragment_event es → delivered es = [] → Forall (λ e, e = Waiting) es.
Proof. induction 1 as [|e es [->|(? & ? & ? & ->)] _ IH]; cbn; [constructor|constructor; auto|done]. Qed.

Lemma send_fragments_deliver now from src dst ttl flags frags s r st ra pkts ra' :
  ds_sessions st !! from = Some r → paired s r →
  0 ≤ sc_counter (session_send s) → sc_counter (session_send s) + Z.of_nat (length frags) ≤ MAX_NONCE_COUNTER →
  node_id_wf src → node_id_wf dst → from_bits_truncate flags = flags → flags_contains flags IS_CONTROL = false →
  dst = ds_self_id st → Forall frag_ok frags →
  default Reassembler_new (ds_reassemblers st !! src) = ra → insert_all now frags ra = Ok (pkts, ra') →
  ∃ fs s' r' st' es, send_fragments frags s src dst ttl flags = (fs, s') ∧ Forall wire_fits fs ∧
    handle_all now from fs st = Ok (es, st') ∧
    delivered es = map (λ p, (src, Z.lor flags IS_FRAGMENT, p)) pkts ∧
    ds_sessions st' !! from = Some r' ∧ paired s' r' ∧
    sc_counter (session_send s') = sc_counter (session_send s) + Z.of_nat (length frags) ∧
    Forall fragment_event es ∧ only_from from st st' ∧ same_back s s' r r' ∧ default Reassembler_new (ds_reassemblers st' !! src) = ra'.
Proof.
  intros Hr Hp Hc Hmax Hsrc Hdst Hfl Hctl Hself Hok. revert s r st ra pkts Hr Hp Hc Hmax Hself.
  induction Hok as [|g frags [Hgwf Hglen] _ IH]; intros s r st ra pkts Hr Hp Hc Hmax Hself Hra Hins; cbn [insert_all send_fragments] in *.
  { simplify_eq. exists [], s, r, st, []. split_and!; try done. cbn. lia. }
  apply obind_Ok_inv in Hins as ([res ra1] & Hins1 & Hins). apply obind_Ok_inv in Hins as ([pkts1 ra2] & Hins2 & [= <- <-]).
  cbn [length] in Hmax. pose proof (length_serialize g) as Hls. unfold MAX_FRAGMENT_PAYLOAD in Hglen.
  destruct (send_single_delivers now from src dst ttl (Z.lor flags IS_FRAGMENT) (FragmentFrame_serialize g) s r st)
    as (f & s1 & r1 & Hsend & Hfit & Hp1 & Hc1 & Hb1 & Hh); [done|done|lia| |].
  { unfold MeshDataFrame_wf. cbn. split_and!; [apply Hsrc|apply Hdst|done|by apply truncate_lor_fragment|lia]. }
  rewrite bool_decide_eq_true_2 in Hh by done. unfold deliver_mesh in Hh. cbn [md_flags md_payload md_src_id] in Hh.
  rewrite lor_flag_control in Hh by done. unfold reassemble_or_deliver in Hh.
  rewrite lor_flag, FragmentFrame_roundtrip in Hh by done. cbn [ds_reassemblers count_forwarded set_sessions] in Hh.
  rewrite Hra, Hins1 in Hh. cbn [obind] in Hh.
  match type of Hh with _ = match _ with Some _ => Ok (_, ?st1) | None => _ end => set (st1' := st1) in Hh end.
  edestruct (IH s1 r1 st1' ra1 pkts1) as (fs & s' & r' & st' & es & Hs' & Hfits & Hes & Hdel & Hr' & Hp' & Hc' & Hev & Hof & Hb' & Hra').
  { subst st1'. cbn. by rewrite lookup_insert_eq. }
  { done. } { lia. } { lia. } { done. } { subst st1'. cbn. by rewrite lookup_insert_eq. } { done. }
  assert (Hof' : only_from from st st').
  { eapply only_from_trans; [|exact Hof]. subst st1'. split; try done. intros p Hpf. cbn. by rewrite lookup_insert_ne. }
  assert (Hback : same_back s s' r r') by (destruct Hb1, Hb'; split; congruence).
  rewrite Hsend, Hs'. destruct res as [pkt|].
  - exists ([f] ++ fs), s', r', st', (Deliver src (Z.lor flags IS_FRAGMENT) pkt :: es). split_and!; try done.
    + by constructor.
    + cbn [app handle_all]. rewrite Hh. cbn [obind]. by rewrite Hes.
    + cbn [delivered map]. by rewrite Hdel.
    + cbn [length]. lia.
    + constructor; [right; eauto|done].
  - exists ([f] ++ fs), s', r', st', (Waiting :: es). split_and!; try done.
    + by constructor.
    + cbn [app handle_all]. rewrite Hh. cbn [obind]. by rewrite Hes.
    + cbn [length]. lia.
    + constructor; [by left|done].
Qed.

Lemma fragment_packet_ok data id :
  Z.of_nat (length data) < 2 ^ 16 → data ≠ [] → u32_ok id →
  Forall frag_ok (fragment_packet data id) ∧ NoDup (map chunk_of (fragment_packet data id)) ∧
  (length (fragment_packet data id) ≤ length data)%nat.
Proof.
  intros Hmax Hne Hid. pose proof (fragment_packet_tiles data id Hmax Hne) as Ht.
  assert (Hlen : ∀ o l, tiles data o l →
    Forall (λ c, 0 ≤ c.1 ∧ c.1 + Z.of_nat (length c.2) ≤ Z.of_nat (length data)) l ∧ NoDup l ∧ (length l ≤ length data - o)%nat).
  { induction 1 as [|o e l Hoe He Hl IH]; [split_and!; [constructor|constructor|cbn; lia]|].
    destruct IH as (IH1 & IH2 & IH3). cbn [length]. split_and!; [|constructor; [|done]|lia].
    - constructor; [|done]. cbn. rewrite length_take, length_drop. lia.
    - intros Hin. apply tiles_keys in Hl. rewrite Forall_forall in Hl. specialize (Hl _ Hin). cbn in Hl. lia. }
  destruct (Hlen _ _ Ht) as (Hf & Hnd & Hl). rewrite length_map in Hl. split_and!; [|done|lia].
  apply Forall_forall. intros g Hg. destruct (fragment_packet_fields _ _ _ Hmax Hg) as [Hgid Hgtot].
  rewrite Forall_forall in Hf. specialize (Hf (chunk_of g)). cbn in Hf.
  destruct Hf as [Ho He]; [apply list_elem_of_fmap; eauto|].
  split; [unfold FragmentFrame_wf, u16_ok; rewrite Hgid, Hgtot; split_and!; try done; lia|].
  clear -Hg. unfold fragment_packet in Hg. destruct data as [|z data]; [by apply elem_of_nil in Hg|].
  revert Hg. generalize 0%nat, (as_u16 (Z.of_nat (length (z :: data)))).
  generalize (length (z :: data)) at 1. intros fuel. induction fuel as [|fuel IH]; intros o t Hg; cbn [fragment_loop] in Hg.
  { by apply elem_of_nil in Hg. }
  case_bool_decide; [|by apply elem_of_nil in Hg]. apply elem_of_cons in Hg as [->|Hg]; [|by eapply IH].
  cbn [fr_payload]. rewrite length_take. lia.
Qed.

Lemma fragments_reassemble now data id ra :
  Z.of_nat (length data) < 2 ^ 16 → data ≠ [] → u32_ok id → ra_buffers ra !! id = None →
  insert_all now (fragment_packet data id) ra = Ok ([data], ra).
Proof.
  intros Hmax Hne Hid Hnone. destruct (fragment_packet_ok data id Hmax Hne Hid) as (_ & Hnd & _).
  destruct (exists_last (l := fragment_packet data id)) as (fs & last & Heq).
  { intros Hnil. pose proof (fragment_packet_tiles data id Hmax Hne) as Ht. rewrite Hnil in Ht.
    inversion Ht as [Hz|]. destruct data; done. }
  rewrite Heq. apply (reassemble_fragments now data id); try done.
  - intros g Hg. rewrite Heq. set_solver.
  - rewrite Heq. set_solver.
  - rewrite Heq, map_app in Hnd. apply NoDup_app in Hnd as (_ & Hd & _). intros Hin.
    apply (Hd (chunk_of last)); [apply list_elem_of_fmap; eauto|]. cbn. set_solver.
  - intros g. rewrite Heq. set_solver.
Qed.

(** In order, the last fragment completes the packet. *)
Lemma fragments_last now data id ra :
  Z.of_nat (length data) < 2 ^ 16 → data ≠ [] → u32_ok id → ra_buffers ra !! id = None →
  ∃ fs last ra1, fragment_packet data id = fs ++ [last] ∧ insert_all now fs ra = Ok ([], ra1) ∧
    insert_all now [last] ra1 = Ok ([data], ra).
Proof.
  intros Hmax Hne Hid Hnone. pose proof (fragments_reassemble now data id ra Hmax Hne Hid Hnone) as Hall.
  destruct (fragment_packet_ok data id Hmax Hne Hid) as (_ & Hnd & _).
  destruct (exists_last (l := fragment_packet data id)) as (fs & last & Heq); [by intros Hnil; rewrite Hnil in Hall|].
  rewrite Heq, insert_all_app in Hall. rewrite Heq, map_app in Hnd. apply NoDup_app in Hnd as (_ & Hd & _).
  destruct (insert_incomplete now data id Hmax Hne [] fs last ra) as (r1 & Hr1 & _); [by apply holds_nil|..].
  { intros g Hg. rewrite Heq. set_solver. } { rewrite Heq. set_solver. }
  { cbn [app]. intros Hin. apply (Hd _ Hin). cbn [map]. set_solver. }
  rewrite Hr1 in Hall. cbn [obind] in Hall. apply obind_Ok_inv in Hall as ([p2 r2] & H2 & [= -> ->]). by exists fs, last, r1.
Qed.

(** A packet over a link, frame by frame: the receiver waits until the last
    frame, and then delivers. *)
Lemma send_mesh_data_arrives now from src dst ttl flags payload s r snd rcv :
  ds_sessions rcv !! from = Some r → paired s r →
  0 ≤ sc_counter (session_send s) → sc_counter (session_send s) + 2 ^ 16 ≤ MAX_NONCE_COUNTER →
  node_id_wf src → node_id_wf dst → dst = ds_self_id rcv →
  from_bits_truncate flags = flags → flags_contains flags IS_CONTROL = false →
  flags_contains flags IS_FRAGMENT = false →
  Z.of_nat (length payload) < 2 ^ 16 → u32_ok (ds_frag_id snd) →
  ra_buffers (default Reassembler_new (ds_reassemblers rcv !! src)) !! ds_frag_id snd = None →
  ∃ fs f s' snd' r' es rcv1 rcv2 fl,
    send_mesh_data s src dst ttl flags payload snd = (fs ++ [f], s', snd') ∧ Forall wire_fits (fs ++ [f]) ∧
    ds_sessions snd' = ds_sessions snd ∧ ds_routing snd' = ds_routing snd ∧ ds_self_id snd' = ds_self_id snd ∧
    ds_reassemblers snd' = ds_reassemblers snd ∧
    handle_all now from fs rcv = Ok (es, rcv1) ∧ Forall (λ e, e = Waiting) es ∧
    handle_data now from f rcv1 = Ok (Deliver src fl payload, rcv2) ∧ (fl = flags ∨ fl = Z.lor flags IS_FRAGMENT) ∧
    only_from from rcv rcv2 ∧ ds_sessions rcv2 !! from = Some r' ∧ paired s' r' ∧ same_back s s' r r'.
Proof.
  intros Hr Hp Hc Hmax Hsrc Hdst Hself Hfl Hctl Hfrag Hlen Hid Hnone. unfold send_mesh_data. case_bool_decide as Hbig.
  - unfold next_frag_id. assert (Hne : payload ≠ []) by (intros ->; cbn in Hbig; lia).
    destruct (fragment_packet_ok payload (ds_frag_id snd) Hlen Hne Hid) as (Hok & _ & Hcount).
    destruct (fragments_last now payload (ds_frag_id snd) _ Hlen Hne Hid Hnone) as (gs & g & ra1 & Heq & Hi1 & Hi2).
    rewrite Heq in Hok, Hcount |- *. apply Forall_app in Hok as [Hok1 Hok2]. rewrite length_app in Hcount. cbn [length] in Hcount.
    destruct (send_fragments_deliver now from src dst ttl flags gs s r rcv (default Reassembler_new (ds_reassemblers rcv !! src)) [] ra1 Hr Hp Hc) as
      (fs & s1 & r1 & rcv1 & es & Hs1 & Hf1 & Hh1 & Hd1 & Hr1 & Hp1 & Hc1 & Hev1 & Hof1 & Hb1 & Hra1); [lia|done..|].
    destruct (send_fragments_deliver now from src dst ttl flags [g] s1 r1 rcv1 ra1 [payload]
      (default Reassembler_new (ds_reassemblers rcv !! src)) Hr1 Hp1) as
      (fs2 & s2 & r2 & rcv2 & es2 & Hs2 & Hf2 & Hh2 & Hd2 & Hr2 & Hp2 & Hc2 & Hev2 & Hof2 & Hb2 & Hra2);
      [lia|cbn [length]; lia|done..|by rewrite (of_self _ _ _ Hof1)|done|done|done|].
    assert (Hsplit : send_fragments (gs ++ [g]) s src dst ttl flags = (fs ++ fs2, s2)).
    { clear -Hs1 Hs2. revert s fs Hs1. induction gs as [|x gs IH]; intros s fs Hs1.
      - cbn [send_fragments] in Hs1. by injection Hs1 as <- <-.
      - cbn [app send_fragments] in *. destruct (send_single_mesh s _ _ _ _ _) as [o sx].
        destruct (send_fragments gs sx _ _ _ _) as [os sy] eqn:E. injection Hs1 as <- ->. rewrite (IH _ _ E). by rewrite app_assoc. }
    rewrite Hsplit. cbn [send_fragments] in Hs2. destruct (send_single_mesh s1 _ _ _ _ _) as [o sx] eqn:Eo.
    injection Hs2 as <- <-. rewrite app_nil_r in *.
    destruct es2 as [|e2 es2]; [done|]. destruct o as [|f o]; [by cbn in Hh2|]. cbn [handle_all] in Hh2.
    apply obind_Ok_inv in Hh2 as ([e3 rcv3] & Hf3 & Hrest). apply obind_Ok_inv in Hrest as ([es3 rcv4] & Hrest & [= -> -> ->]).
    assert (o = []) as -> by (unfold send_single_mesh in Eo; destruct (encrypt_frame _ _) as [[]]; by simplify_eq).
    cbn [handle_all] in Hrest. injection Hrest as <- <-.
    assert (e2 = Deliver src (Z.lor flags IS_FRAGMENT) payload) as ->.
    { apply Forall_inv in Hev2 as [->|(a & b & c & ->)]; cbn [delivered map] in Hd2; [done|by simplify_eq]. }
    eexists fs, f, sx, _, r2, es, rcv1, rcv3, (Z.lor flags IS_FRAGMENT). split_and!; try done.
    + by apply Forall_app.
    + by apply delivered_none.
    + by right.
    + by eapply only_from_trans.
    + destruct Hb1, Hb2. split; congruence.
  - destruct (send_single_delivers now from src dst ttl flags payload s r rcv)
      as (f & s1 & r1 & Hsend & Hfit & Hp1 & _ & Hb1 & Hh); [done|done|lia| |].
    { unfold MeshDataFrame_wf. cbn. split_and!; [apply Hsrc|apply Hdst|done|done|lia]. }
    rewrite bool_decide_eq_true_2 in Hh by done. unfold deliver_mesh, reassemble_or_deliver in Hh.
    cbn [md_flags md_payload md_src_id] in Hh. rewrite Hctl, Hfrag in Hh. cbn [obind] in Hh.
    eexists [], f, s1, snd, r1, [], rcv, _, flags. rewrite Hsend. split_and!; try done.
    + by constructor.
    + by left.
    + split; try done. intros p Hpf. cbn. by rewrite lookup_insert_ne.
    + cbn. by rewrite lookup_insert_eq.
Qed.

(** ** The theorems *)

(** C2: End-to-end delivery over a link: a packet of less than 64 KiB given to
    [send_mesh_data] is fragmented if need be, sealed frame by frame, written
    to the stream, cut into arbitrary reads, reframed, opened, decoded and
    reassembled by the peer, which delivers exactly that packet, once, with
    its source. *)
Theorem mesh_packet_delivery now from src dst ttl flags payload s r snd rcv chunks :
  ds_sessions rcv !! from = Some r → paired s r →
  0 ≤ sc_counter (session_send s) → sc_counter (session_send s) + 2 ^ 16 ≤ MAX_NONCE_COUNTER →
  node_id_wf src → node_id_wf dst → dst = ds_self_id rcv →
  from_bits_truncate flags = flags → flags_contains flags IS_CONTROL = false →
  flags_contains flags IS_FRAGMENT = false →
  Z.of_nat (length payload) < 2 ^ 16 → u32_ok (ds_frag_id snd) →
  ra_buffers (default Reassembler_new (ds_reassemblers rcv !! src)) !! ds_frag_id snd = None →
  let '(frames, _, _) := send_mesh_data s src dst ttl flags payload snd in
  concat chunks = concat (map wire_frame frames) →
  ∃ es rcv' fl, handle_all now from (read_task chunks []).1 rcv = Ok (es, rcv') ∧
    delivered es = [(src, fl, payload)] ∧ (fl = flags ∨ fl = Z.lor flags IS_FRAGMENT).
Proof.
  intros Hr Hp Hc Hmax Hsrc Hdst Hself Hfl Hctl Hfrag Hlen Hid Hnone. unfold send_mesh_data. case_bool_decide as Hbig.
  - unfold next_frag_id. assert (Hne : payload ≠ []) by (intros ->; cbn in Hbig; lia).
    destruct (fragment_packet_ok payload (ds_frag_id snd) Hlen Hne Hid) as (Hok & _ & Hcount).
    destruct (send_fragments_deliver now from src dst ttl flags (fragment_packet payload (ds_frag_id snd)) s r rcv
      (default Reassembler_new (ds_reassemblers rcv !! src)) [payload]
      (default Reassembler_new (ds_reassemblers rcv !! src)) Hr Hp Hc) as (fs & s' & r' & rcv' & es & -> & Hfit & Hes & Hdel & _);
      [lia|done..|by apply fragments_reassemble|].
    intros Hch. rewrite (read_task_frames fs chunks Hfit Hch). cbn [fst]. exists es, rcv', (Z.lor flags IS_FRAGMENT). auto.
  - destruct (send_single_delivers now from src dst ttl flags payload s r rcv)
      as (f & s1 & r1 & -> & Hfit & _ & _ & _ & Hh); [done|done|lia| |].
    { unfold MeshDataFrame_wf. cbn. split_and!; [apply Hsrc|apply Hdst|done|done|lia]. }
    intros Hch. rewrite (read_task_frames [f] chunks); [|by constructor|done]. cbn [fst handle_all].
    rewrite Hh, bool_decide_eq_true_2 by done. unfold deliver_mesh, reassemble_or_deliver. cbn [md_flags md_payload md_src_id].
    rewrite Hctl, Hfrag. cbn [obind]. eexists _, _, flags. split; [done|]. split; [done|by left].
Qed.

(** The nodes a frame for [dst] visits, sent by [from] under session [s]: each
    of them but the last routes [dst] to the next one, over sessions that match. *)
Inductive chain (net : NodeId → DataState) (dst : NodeId) : NodeId → Session → list NodeId → Prop :=
| chain_end from s r :
    ds_sessions (net dst) !! from = Some r → paired s r → 0 ≤ sc_counter (session_send s) < MAX_NONCE_COUNTER →
    ds_self_id (net dst) = dst → chain net dst from s [dst]
| chain_relay from s r n next fwd path :
    ds_sessions (net n) !! from = Some r → paired s r → 0 ≤ sc_counter (session_send s) < MAX_NONCE_COUNTER →
    dst ≠ ds_self_id (net n) → lookup_route dst (ds_routing (net n)) = Some next → next ≠ from →
    ds_sessions (net n) !! next = Some fwd → chain net dst n fwd (next :: path) → chain net dst from s (n :: next :: path).

Lemma chain_ext net net' dst from s path :
  (∀ n, n ∈ path → net' n = net n) → chain net dst from s path → chain net' dst from s path.
Proof.
  intros Hext Hch. revert Hext. induction Hch as [from s r|from s r n next fwd path Hr Hp Hc Hself Hroute Hnf Hfwd Hch IH]; intros Hext.
  - eapply chain_end; rewrite ?Hext by set_solver; done.
  - assert (Hn : net' n = net n) by (apply Hext; set_solver). eapply chain_relay; rewrite ?Hn; try done. apply IH. set_solver.
Qed.

(** What becomes of a frame on a chain that visits no node twice. *)
Lemma chain_delivers now net src dst ttl flags payload from s n path :
  chain net dst from s (n :: path) → NoDup (n :: path) → 0 ≤ ttl →
  MeshDataFrame_wf {| md_src_id := src; md_dst_id := dst; md_session_id := 0; md_ttl := ttl; md_flags := flags;
                      md_payload := payload |} →
  flags_contains flags IS_CONTROL = false → flags_contains flags IS_FRAGMENT = false →
  ∃ f, (send_single_mesh s src dst ttl flags payload).1 = [f] ∧
    travel (S (length path)) now net from n f =
      Ok (Some (if Z.of_nat (length path) <=? ttl then (dst, Deliver src flags payload)
                else (nth (Z.to_nat ttl) (n :: path) dst, TtlExpired))).
Proof.
  intros Hch Hnd Httl Hwf Hctl Hfrag. revert net from s n Hch Hnd ttl Httl Hwf.
  induction path as [|next path IH]; intros net from s n Hch Hnd ttl Httl Hwf.
  - inversion Hch as [? ? r Hr Hp Hc Hself|]; subst.
    destruct (send_single_delivers now from src n ttl flags payload s r (net n) Hr Hp Hc Hwf) as (f & ? & ? & -> & _ & _ & _ & _ & Hh).
    exists f. split; [done|]. cbn [travel length]. rewrite Hh, bool_decide_eq_true_2 by done.
    unfold deliver_mesh, reassemble_or_deliver. cbn [md_flags md_payload md_src_id]. rewrite Hctl, Hfrag. cbn [obind].
    by rewrite (proj2 (Z.leb_le _ _)) by lia.
  - inversion Hch as [|? ? r ? ? fwd ? Hr Hp Hc Hself Hroute Hnf Hfwd Hch']; subst.
    destruct (send_single_delivers now from src dst ttl flags payload s r (net n) Hr Hp Hc Hwf) as (f & ? & ? & -> & _ & _ & _ & _ & Hh).
    exists f. split; [done|]. cbn [travel]. rewrite Hh, bool_decide_eq_false_2 by done. unfold relay_mesh.
    cbn [md_ttl md_dst_id md_src_id md_flags md_payload]. destruct (Z.eqb_spec ttl 0) as [->|Hpos]; cbn [obind].
    { cbn [length]. by rewrite (proj2 (Z.leb_gt _ _)) by lia. }
    cbn [ds_routing set_sessions ds_sessions]. rewrite Hroute, lookup_insert_ne, Hfwd by done.
    apply NoDup_cons in Hnd as [Hn Hnd].
    destruct (send_single_mesh fwd _ _ _ _ _) as [fs fwd'] eqn:Es. cbn [obind]. set (st := count_forwarded _ _).
    assert (Hch'' : chain (at_node n st net) dst n fwd (next :: path)).
    { eapply chain_ext; [|done]. intros k Hk. unfold at_node. rewrite bool_decide_eq_false_2; [done|]. by intros ->. }
    destruct (IH _ _ _ _ Hch'' Hnd (ttl - 1)) as (g & Hg & Ht); [lia|exact Hwf|].
    rewrite Es in Hg. cbn [fst] in Hg. subst fs. cbn [length]. rewrite Ht.
    replace (Z.to_nat ttl) with (S (Z.to_nat (ttl - 1))) by lia. cbn [nth].
    destruct (Z.leb_spec (Z.of_nat (length path)) (ttl - 1)), (Z.leb_spec (Z.of_nat (S (length path))) ttl); done || lia.
Qed.

(** Multi-hop delivery: a frame sealed by its source travels along any chain
    of relays whose routes lead to the destination, is opened and sealed again
    at each of them, and is delivered there unchanged when its TTL is at least
    the number of relays; with a lower TTL it is dropped by the relay that
    finds it used up. *)
Theorem multi_hop_delivery now net src dst ttl flags payload from s n path :
  chain net dst from s (n :: path) → NoDup (n :: path) → 0 ≤ ttl →
  MeshDataFrame_wf {| md_src_id := src; md_dst_id := dst; md_session_id := 0; md_ttl := ttl; md_flags := flags;
                      md_payload := payload |} →
  flags_contains flags IS_CONTROL = false → flags_contains flags IS_FRAGMENT = false →
  ∃ f, (send_single_mesh s src dst ttl flags payload).1 = [f] ∧
    travel (S (length path)) now net from n f =
      Ok (Some (if Z.of_nat (length path) <=? ttl then (dst, Deliver src flags payload)
                else (nth (Z.to_nat ttl) (n :: path) dst, TtlExpired))).
Proof. apply chain_delivers. Qed.

(** Relaying is safe at every node and on any frame, honest or not: only a
    frame that is not for this node and has TTL left is relayed, never through
    a blacklisted next hop, and what is sealed for the next hop is the same
    packet with the TTL one lower, so a routing loop cannot keep it alive. *)
Theorem relay_safe now from f st e st' next frames r r' p mesh rest :
  ds_sessions st !! from = Some r → decrypt_frame f r = (Ok p, r') →
  MeshDataFrame_decode (tf_payload p) = Ok (mesh, rest) →
  handle_data now from f st = Ok (e, st') → e = Relay next frames →
  md_ttl mesh ≠ 0 ∧ md_dst_id mesh ≠ ds_self_id st ∧
  next ∉ blacklisted_peers (ds_routing st) ∧ ds_packets_dropped st' = ds_packets_dropped st ∧
  ∃ fwd, frames = (send_single_mesh fwd (md_src_id mesh) (md_dst_id mesh) (md_ttl mesh - 1) (md_flags mesh)
                     (md_payload mesh)).1.
Proof.
  intros Hr Hd Hm. unfold handle_data. rewrite Hr, Hd, Hm. case_bool_decide as Hself; cbn [ds_self_id set_sessions] in Hself.
  - unfold deliver_mesh. intros Hh ->. destruct (flags_contains _ _); [done|].
    apply obind_Ok_inv in Hh as ([res st1] & _ & Hh). by destruct res.
  - intros [= Hh] ->. unfold relay_mesh in Hh. destruct (Z.eqb_spec (md_ttl mesh) 0); [done|].
    cbn [ds_routing set_sessions ds_sessions] in Hh. unfold lookup_route in Hh. case_bool_decide; [done|].
    destruct (routes (ds_routing st) !! md_dst_id mesh) as [e|]; [|done]. case_bool_decide; cbn [negb] in Hh; [done|].
    destruct (_ !! rt_next_hop e) as [fwd|]; [|done]. destruct (send_single_mesh fwd _ _ _ _ _) as [fs fwd'] eqn:Es.
    simplify_eq. split_and!; try done. exists fwd. by rewrite Es.
Qed.
End Proofs.

(** ** A concrete pair of nodes and a concrete chain *)
Definition sample_state (self : NodeId) (sessions : list (NodeId * Session)) (routing : RoutingTable) : DataState :=
  {| ds_self_id := self; ds_frag_id := 0; ds_reassemblers := ∅; ds_sessions := list_to_map sessions;
     ds_routing := routing; ds_packets_forwarded := 0; ds_bytes_forwarded := 0; ds_packets_dropped := 0 |}.

Definition sample_routing1 : RoutingTable := RoutingTable_new (sample_id 1) false
  {| v4_network := 0x0a4d0000; v4_prefix_len := 16 |}.
Definition sample_receiver : DataState :=
  sample_state (sample_id 2) [(sample_id 1, sample_responder)] sample_routing1.
Definition sample_sender : DataState :=
  sample_state (sample_id 1) [(sample_id 2, sample_initiator)] sample_routing1.
Definition sample_relay : DataState :=
  sample_state (sample_id 2) [(sample_id 1, sample_responder); (sample_id 3, initiator_session sample_key (sample_id 3))]
    (add_peer sample_digest 0 (sample_id 3) sample_routing1).
Definition sample_end : DataState :=
  sample_state (sample_id 3) [(sample_id 2, responder_session sample_key (sample_id 2))] sample_routing1.

Lemma sample_paired a b : paired (initiator_session sample_key a) (responder_session sample_key b).
Proof. split; [done|]. split; [done|]. by left. Qed.

Lemma mesh_packet_delivery_witness :
  let payload := replicate 1500 7 in
  let frames := (send_mesh_data (A:=null_aead) sample_initiator (sample_id 1) (sample_id 2) 8 0 payload sample_sender).1.1 in
  ∃ es rcv' fl, handle_all (A:=null_aead) 0 (sample_id 1) (read_task [concat (map wire_frame frames)] []).1 sample_receiver
      = Ok (es, rcv') ∧ delivered es = [(sample_id 1, fl, payload)] ∧ (fl = 0 ∨ fl = Z.lor 0 IS_FRAGMENT).
Proof.
  intros payload frames.
  pose proof (mesh_packet_delivery (A:=null_aead) 0 (sample_id 1) (sample_id 1) (sample_id 2) 8 0 payload sample_initiator
    sample_responder sample_sender sample_receiver [concat (map wire_frame frames)]) as H.
  revert H. unfold frames. destruct (send_mesh_data (A:=null_aead) sample_initiator (sample_id 1) (sample_id 2) 8 0 payload sample_sender)
    as [[frames0 s1] st1]. cbn [fst]. intros H.
  apply H; [reflexivity|apply sample_paired|reflexivity|by vm_compute|by apply (bool_decide_unpack _); vm_compute|by apply (bool_decide_unpack _); vm_compute
    |reflexivity|reflexivity|reflexivity|reflexivity|by vm_compute|by vm_compute|reflexivity|cbn; by rewrite app_nil_r].
Defined.

Definition sample_net : NodeId → DataState :=
  at_node (sample_id 2) sample_relay (at_node (sample_id 3) sample_end (λ _, sample_sender)).

Lemma multi_hop_delivery_witness :
  ∃ f, (send_single_mesh (A:=null_aead) sample_initiator (sample_id 1) (sample_id 3) 8 0 [1; 2; 3]).1 = [f] ∧
    travel (A:=null_aead) 2 0 sample_net (sample_id 1) (sample_id 2) f = Ok (Some (sample_id 3, Deliver (sample_id 1) 0 [1; 2; 3])).
Proof.
  apply (multi_hop_delivery (A:=null_aead) 0 sample_net (sample_id 1) (sample_id 3) 8 0 [1; 2; 3] (sample_id 1) sample_initiator (sample_id 2) [sample_id 3]).
  - eapply chain_relay; [vm_compute; reflexivity|apply sample_paired|by vm_compute|by vm_compute|vm_compute; reflexivity
      |by vm_compute|vm_compute; reflexivity|].
    eapply chain_end; [vm_compute; reflexivity|apply sample_paired|by vm_compute|reflexivity].
  - by apply (bool_decide_unpack _); vm_compute.
  - lia.
  - by apply (bool_decide_unpack _); vm_compute.
  - reflexivity.
  - reflexivity.
Defined.

Definition sample_mesh_frame : TransportFrame :=
  nth 0 (send_single_mesh (A:=null_aead) sample_initiator (sample_id 1) (sample_id 3) 8 0 [1; 2; 3]).1
    {| tf_frame_type := FrameData; tf_nonce := []; tf_payload := []; tf_tag := [] |}.

Lemma relay_safe_witness :
  ∃ e st' next frames, handle_data (A:=null_aead) 0 (sample_id 1) sample_mesh_frame sample_relay = Ok (e, st') ∧
    e = Relay next frames ∧ next ∉ blacklisted_peers (ds_routing sample_relay).
Proof.
  eexists _, _, _, _. split; [vm_compute; reflexivity|]. split; [reflexivity|].
  eapply (relay_safe (A:=null_aead) 0 (sample_id 1) sample_mesh_frame sample_relay);
    [vm_compute; reflexivity|vm_compute; reflexivity|vm_compute; reflexivity|vm_compute; reflexivity|reflexivity].
Defined.
