(* ===== verification/Packet.v ===== *)
(** * IPv4 packets at the gateway (crates/pim-gateway/src/engine/packet.rs)

    Parsing, rewriting and checksums.  A packet is its bytes; an address is
    the integer of its four octets. *)

From S2P Require Import Prelude.

Inductive GatewayError :=
| PacketTooShort (n : nat)
| NotIpv4
| UnsupportedProtocol (p : Z)
| NoConntrackEntry (proto port : Z)
| ConntrackFull
| CommandFailed (msg : string)
| Io (msg : string).

Definition PROTO_ICMP : Z := 1.
Definition PROTO_TCP : Z := 6.
Definition PROTO_UDP : Z := 17.

(** ** Parsing *)
Definition IP_HEADER_MIN : nat := 20.

Definition ip_ihl (packet : list Z) : outcome GatewayError nat :=
  let? b := index 0 packet in Ok (Z.to_nat (Z.land b 0x0f) * 4)%nat.

Definition ip_protocol (packet : list Z) : outcome GatewayError Z :=
  if bool_decide (length packet < IP_HEADER_MIN)%nat then Err (PacketTooShort (length packet)) else
  let? b := index 0 packet in
  if negb (Z.shiftr b 4 =? 4) then Err NotIpv4 else index 9 packet.

(** [u16::from_be_bytes([packet[i], packet[i + 1]])]. *)
Definition read_u16 (i : nat) (packet : list Z) : outcome GatewayError Z :=
  let? a := index i packet in let? b := index (i + 1) packet in Ok (be_value [a; b]).

(** [Ipv4Addr::new(packet[i], .., packet[i + 3])]. *)
Definition read_addr (i : nat) (packet : list Z) : outcome GatewayError Z :=
  let? a := index i packet in let? b := index (i + 1) packet in
  let? c := index (i + 2) packet in let? d := index (i + 3) packet in
  Ok (be_value [a; b; c; d]).

Definition is_tcp_udp (proto : Z) : bool := (proto =? PROTO_TCP) || (proto =? PROTO_UDP).

Definition parse_flow (packet : list Z) : outcome GatewayError (Z * Z * Z) :=
  let? proto := ip_protocol packet in
  let? ihl := ip_ihl packet in
  let? src_ip := read_addr 12 packet in
  let? src_port :=
    if is_tcp_udp proto then
      if bool_decide (length packet < ihl + 4)%nat then Err (PacketTooShort (length packet))
      else read_u16 ihl packet
    else if proto =? PROTO_ICMP then
      if bool_decide (length packet < ihl + 8)%nat then Err (PacketTooShort (length packet))
      else read_u16 (ihl + 4) packet
    else Err (UnsupportedProtocol proto) in
  Ok (proto, src_ip, src_port).

Definition transport_dst_port (packet : list Z) (proto : Z) : outcome GatewayError Z :=
  let? ihl := ip_ihl packet in
  if is_tcp_udp proto then
    if bool_decide (length packet < ihl + 4)%nat then Err (PacketTooShort (length packet))
    else read_u16 (ihl + 2) packet
  else if proto =? PROTO_ICMP then
    if bool_decide (length packet < ihl + 8)%nat then Err (PacketTooShort (length packet))
    else read_u16 (ihl + 4) packet
  else Err (UnsupportedProtocol proto).

(** ** Checksums *)

(** The sum of 16-bit words, an odd last byte padded.  The [u32] accumulator
    does not overflow on a packet of at most 2^16 words
    ([ones_complement_sum_bound]). *)
Fixpoint ones_complement_sum (data : list Z) : Z :=
  match data with
  | a :: b :: rest => be_value [a; b] + ones_complement_sum rest
  | [a] => Z.shiftl a 8
  | [] => 0
  end.

(** [!x] on [u16]. *)
Definition not_u16 (x : Z) : Z := 65535 - x.

(** The [while sum >> 16 != 0] loop; on a [u32] two turns are enough
    ([fold_loop_small]). *)
Fixpoint fold_loop (fuel : nat) (sum : Z) : Z :=
  match fuel with
  | O => sum
  | S fuel => if Z.shiftr sum 16 =? 0 then sum
              else fold_loop fuel (Z.land sum 0xffff + Z.shiftr sum 16)
  end.
Definition fold_checksum (sum : Z) : Z := not_u16 (as_u16 (fold_loop 3 sum)).

Definition recalc_ip_checksum (packet : list Z) : outcome GatewayError (list Z) :=
  let? ihl := ip_ihl packet in
  let? packet := index_set 10 0 packet in
  let? packet := index_set 11 0 packet in
  let? header := slice 0 ihl packet in
  let sum := fold_checksum (ones_complement_sum header) in
  copy_from_slice 10 12 (be_bytes 2 sum) packet.

Definition recalc_transport_checksum (packet : list Z) (proto : Z) (ihl : nat) (old_addr new_addr old_port new_port : Z)
  : outcome GatewayError (list Z) :=
  let offset :=
    if proto =? PROTO_TCP then Some (ihl + 16)%nat
    else if proto =? PROTO_UDP then Some (ihl + 6)%nat
    else if proto =? PROTO_ICMP then Some (ihl + 2)%nat else None in
  match offset with
  | None => Ok packet
  | Some cksum_offset =>
    if bool_decide (length packet < cksum_offset + 2)%nat then Ok packet else
    if proto =? PROTO_ICMP then
      let? packet := index_set cksum_offset 0 packet in
      let? packet := index_set (cksum_offset + 1) 0 packet in
      let? body := slice ihl (length packet) packet in
      let sum := fold_checksum (ones_complement_sum body) in
      copy_from_slice cksum_offset (cksum_offset + 2) (be_bytes 2 sum) packet
    else
    let? old_cksum := read_u16 cksum_offset packet in
    if (old_cksum =? 0) && (proto =? PROTO_UDP) then Ok packet else
    let hi a := a / 65536 in
    let lo a := a mod 65536 in
    let cksum := not_u16 old_cksum in
    let cksum := as_u32 (cksum + not_u16 (hi old_addr)) in
    let cksum := as_u32 (cksum + hi new_addr) in
    let cksum := as_u32 (cksum + not_u16 (lo old_addr)) in
    let cksum := as_u32 (cksum + lo new_addr) in
    let cksum := as_u32 (cksum + not_u16 old_port) in
    let cksum := as_u32 (cksum + new_port) in
    let new_cksum := fold_checksum cksum in
    copy_from_slice cksum_offset (cksum_offset + 2) (be_bytes 2 new_cksum) packet
  end.

(** ** Rewriting

    [rewrite_src] and [rewrite_dst] are the same code at different offsets:
    [addr] is where the address is, [port] the port's place in a TCP or UDP
    header.  An ICMP packet carries its id at offset 4 both ways. *)
Definition rewrite_at (addr port : nat) (packet : list Z) (new_addr new_port : Z) : outcome GatewayError (list Z) :=
  let? proto := ip_protocol packet in
  let? ihl := ip_ihl packet in
  let? old_addr := read_addr addr packet in
  let? old_port :=
    if is_tcp_udp proto then
      if bool_decide (length packet < ihl + 4)%nat then Err (PacketTooShort (length packet))
      else read_u16 (ihl + port) packet
    else if proto =? PROTO_ICMP then
      if bool_decide (length packet < ihl + 8)%nat then Err (PacketTooShort (length packet))
      else read_u16 (ihl + 4) packet
    else Err (UnsupportedProtocol proto) in
  let? packet := copy_from_slice addr (addr + 4) (be_bytes 4 new_addr) packet in
  let? packet :=
    if is_tcp_udp proto then
      copy_from_slice (ihl + port) (ihl + port + 2) (be_bytes 2 new_port) packet
    else if proto =? PROTO_ICMP then
      copy_from_slice (ihl + 4) (ihl + 6) (be_bytes 2 new_port) packet
    else Ok packet in
  let? packet := recalc_ip_checksum packet in
  recalc_transport_checksum packet proto ihl old_addr new_addr old_port new_port.

Definition rewrite_src (packet : list Z) (new_src new_port : Z) : outcome GatewayError (list Z) :=
  rewrite_at 12 0 packet new_src new_port.
Definition rewrite_dst (packet : list Z) (new_dst new_port : Z) : outcome GatewayError (list Z) :=
  rewrite_at 16 2 packet new_dst new_port.

(** ** Lemmas: one's complement arithmetic *)

(** Folding keeps the value modulo 65535 and maps only zero to zero. *)
Definition ones_norm (x : Z) : Z := if x =? 0 then 0 else (x - 1) mod 65535 + 1.

Lemma fold_step x : Z.land x 0xffff + Z.shiftr x 16 = x mod 65536 + x / 65536.
Proof.
  change 0xffff with (Z.ones 16). rewrite Z.land_ones, Z.shiftr_div_pow2 by lia. done.
Qed.

Lemma ones_norm_step x : 0 < x → ones_norm (x mod 65536 + x / 65536) = ones_norm x.
Proof.
  intros Hx. unfold ones_norm. pose proof (Z.div_mod x 65536). pose proof (Z.mod_pos_bound x 65536).
  pose proof (Z.div_pos x 65536). rewrite !(proj2 (Z.eqb_neq _ _)) by lia. f_equal.
  replace (x - 1) with (x mod 65536 + x / 65536 - 1 + (x / 65536) * 65535) by lia. by rewrite Z.mod_add.
Qed.

Lemma ones_norm_small x : 0 ≤ x < 65536 → ones_norm x = x.
Proof. intros Hx. unfold ones_norm. destruct (Z.eqb_spec x 0); [lia|]. rewrite Z.mod_small by lia. lia. Qed.

Lemma fold_loop_small sum : u32_ok sum → fold_loop 3 sum = ones_norm sum.
Proof.
  unfold u32_ok. intros Hs. cbn [fold_loop].
  assert (Hsh : ∀ x, 0 ≤ x → (Z.shiftr x 16 =? 0) = bool_decide (x < 65536)).
  { intros x Hx. rewrite Z.shiftr_div_pow2 by lia. change (2 ^ 16) with 65536.
    case_bool_decide; [apply Z.eqb_eq, Z.div_small; lia|]. apply Z.eqb_neq.
    pose proof (Z.div_le_lower_bound x 65536 1). lia. }
  pose proof (Z.mod_pos_bound sum 65536). pose proof (Z.div_pos sum 65536). pose proof (Z.div_lt_upper_bound sum 65536 65536).
  rewrite Hsh by lia. case_bool_decide; [by rewrite ones_norm_small by lia|].
  rewrite fold_step. set (s1 := sum mod 65536 + sum / 65536).
  assert (0 < s1 ≤ 131070). { pose proof (Z.div_le_lower_bound sum 65536 1). lia. }
  rewrite <- ones_norm_step by lia. fold s1. rewrite Hsh by lia. case_bool_decide; [by rewrite ones_norm_small by lia|].
  rewrite fold_step. assert (Hd : s1 / 65536 = 1) by (symmetry; apply (Z.div_unique s1 65536 1 (s1 - 65536)); lia).
  assert (Hm : s1 mod 65536 = s1 - 65536) by (rewrite Z.mod_eq, Hd by lia; lia).
  rewrite <- ones_norm_step by lia. rewrite Hd, Hm. rewrite Hsh, bool_decide_eq_true_2 by lia.
  by rewrite ones_norm_small by lia.
Qed.

Lemma ones_norm_mod x : 0 ≤ x → ones_norm x mod 65535 = x mod 65535.
Proof.
  intros Hx. unfold ones_norm. destruct (Z.eqb_spec x 0) as [->|]; [done|].
  rewrite Zplus_mod_idemp_l. f_equal. lia.
Qed.

Lemma ones_norm_range x : 0 ≤ x → 0 ≤ ones_norm x < 65536.
Proof.
  intros Hx. unfold ones_norm. destruct (x =? 0); [lia|]. pose proof (Z.mod_pos_bound (x - 1) 65535). lia.
Qed.

Lemma fold_checksum_eq sum : u32_ok sum → fold_checksum sum = 65535 - ones_norm sum.
Proof.
  intros Hs. unfold fold_checksum, not_u16. pose proof (ones_norm_range sum). destruct Hs.
  rewrite fold_loop_small by done. rewrite as_u16_small; [done|]. unfold u16_ok. lia.
Qed.

Lemma fold_checksum_range sum : u32_ok sum → u16_ok (fold_checksum sum).
Proof.
  intros Hs. rewrite fold_checksum_eq by done. destruct Hs. pose proof (ones_norm_range sum). unfold u16_ok. lia.
Qed.

(** Adding the checksum to the sum it was computed from verifies. *)
Lemma fold_checksum_verifies sum : 0 ≤ sum → sum < 2 ^ 31 → fold_checksum (sum + fold_checksum sum) = 0.
Proof.
  intros H0 H1. pose proof (fold_checksum_range sum) as Hr. unfold u32_ok, u16_ok in Hr.
  rewrite (fold_checksum_eq (sum + _)) by (unfold u32_ok; lia). rewrite fold_checksum_eq by (unfold u32_ok; lia).
  unfold ones_norm at 1. rewrite (proj2 (Z.eqb_neq _ _)) by (pose proof (ones_norm_range sum); unfold ones_norm in *;
    destruct (Z.eqb_spec sum 0); lia).
  assert (Hm : (sum + (65535 - ones_norm sum) - 1) mod 65535 = 65534); [|lia].
  replace (sum + (65535 - ones_norm sum) - 1) with (sum - ones_norm sum + 65534) by lia.
  rewrite Zplus_mod, Zminus_mod, ones_norm_mod, Z.sub_diag by lia. done.
Qed.

(** ** Lemmas: word sums *)
Lemma sum_app n a b : length a = (n + n)%nat → ones_complement_sum (a ++ b) = ones_complement_sum a + ones_complement_sum b.
Proof.
  revert a. induction n as [|n IH]; intros a Ha.
  - by destruct a.
  - destruct a as [|x [|y a]]; cbn in Ha; [lia|lia|]. cbn [app ones_complement_sum]. rewrite IH by lia. lia.
Qed.

Lemma ones_complement_sum_bound data :
  bytes_ok data → 0 ≤ ones_complement_sum data ∧ 2 * ones_complement_sum data ≤ 65535 * (Z.of_nat (length data) + 1).
Proof.
  assert (Hgen : ∀ n data, (length data ≤ n)%nat → bytes_ok data → 0 ≤ ones_complement_sum data ∧ 2 * ones_complement_sum data ≤ 65535 * (Z.of_nat (length data) + 1)).
  { induction n as [|n IH]; intros l Hl Hb; [by destruct l; [cbn; lia|cbn in Hl; lia]|].
    destruct l as [|x [|y l]]; cbn [ones_complement_sum length] in *; [lia| |].
    - apply Forall_cons in Hb as [[? ?] _]. rewrite Z.shiftl_mul_pow2 by lia. lia.
    - apply Forall_cons in Hb as [Hx Hb]. apply Forall_cons in Hb as [Hy Hb].
      pose proof (be_value_bound [x; y]) as Hv. cbn [length] in Hv. specialize (Hv ltac:(repeat (constructor; try done))).
      specialize (IH l). change (256 ^ Z.of_nat 2) with 65536 in Hv. assert (length l ≤ n)%nat as Hl' by lia. specialize (IH Hl' Hb). lia. }
  by apply (Hgen (length data)).
Qed.

Lemma sum_be_bytes v rest : u16_ok v → ones_complement_sum (be_bytes 2 v ++ rest) = v + ones_complement_sum rest.
Proof.
  intros Hv. cbn [be_bytes app ones_complement_sum]. f_equal.
  change (be_value (be_bytes 2 v) = v). by apply be_value_be_bytes.
Qed.

(** Overwriting one word changes the sum by the difference of the words. *)
Lemma sum_splice n l x y v :
  l !! (n + n)%nat = Some x → l !! (n + n + 1)%nat = Some y → u16_ok v →
  ones_complement_sum (take (n + n) l ++ be_bytes 2 v ++ drop (n + n + 2) l) =
  ones_complement_sum l - be_value [x; y] + v.
Proof.
  intros Hx Hy Hv. pose proof (lookup_lt_Some _ _ _ Hy) as Hlt.
  assert (Hl : l = take (n + n) l ++ [x; y] ++ drop (n + n + 2) l).
  { rewrite <- (take_drop (n + n) l) at 1. f_equal. rewrite (drop_S _ _ _ Hx).
    replace (S (n + n)) with (n + n + 1)%nat by lia. rewrite (drop_S _ _ _ Hy). cbn. do 3 f_equal. lia. }
  rewrite (sum_app n) by (rewrite length_take; lia). rewrite sum_be_bytes by done.
  rewrite Hl at 3. rewrite (sum_app n) by (rewrite length_take; lia). cbn [app ones_complement_sum]. lia.
Qed.

(** ** Lemmas: overwriting part of a packet *)
Definition splice (a : nat) (src l : list Z) : list Z := take a l ++ src ++ drop (a + length src) l.

Lemma length_splice' a src l : (a + length src ≤ length l)%nat → length (splice a src l) = length l.
Proof. intros. unfold splice. apply length_splice; lia. Qed.

Lemma lookup_splice' a src l p :
  (a + length src ≤ length l)%nat →
  splice a src l !! p = if bool_decide (a ≤ p ∧ p < a + length src)%nat then src !! (p - a)%nat else l !! p.
Proof. intros. unfold splice. apply lookup_splice; lia. Qed.

Lemma lookup_splice_other a src l p :
  (a + length src ≤ length l)%nat → (p < a ∨ a + length src ≤ p)%nat → splice a src l !! p = l !! p.
Proof. intros Hl Hp. rewrite lookup_splice' by done. by rewrite bool_decide_eq_false_2 by lia. Qed.

Lemma lookup_splice_in a src l i :
  (a + length src ≤ length l)%nat → (i < length src)%nat → splice a src l !! (a + i)%nat = src !! i.
Proof.
  intros Hl Hi. rewrite lookup_splice' by done. rewrite bool_decide_eq_true_2 by lia. f_equal. lia.
Qed.

Lemma copy_splice {E} a b src l :
  b = (a + length src)%nat → (b ≤ length l)%nat → copy_from_slice (E:=E) a b src l = Ok (splice a src l).
Proof. intros -> Hl. by rewrite copy_from_slice_Ok by lia. Qed.

Lemma splice_bytes_ok a src l : bytes_ok src → bytes_ok l → bytes_ok (splice a src l).
Proof. intros. unfold splice. apply Forall_app; split; [by apply Forall_take|]. apply Forall_app; split; [done|by apply Forall_drop]. Qed.

Lemma splice_app_l a src l r : (a + length src ≤ length l)%nat → splice a src (l ++ r) = splice a src l ++ r.
Proof.
  intros. unfold splice. rewrite take_app_le, drop_app_le by lia. by rewrite <- !app_assoc.
Qed.

Lemma splice_app_r a src l r : splice (length l + a) src (l ++ r) = l ++ splice a src r.
Proof.
  unfold splice. rewrite take_app_add, <- Nat.add_assoc, drop_app_add. by rewrite <- app_assoc.
Qed.

Lemma splice_splice a src src' l :
  length src = length src' → (a + length src ≤ length l)%nat → splice a src' (splice a src l) = splice a src' l.
Proof.
  intros Hs Hl. apply list_eq. intros p. rewrite !lookup_splice' by (rewrite ?length_splice'; lia). rewrite Hs.
  case_bool_decide; done.
Qed.

Lemma zero_word i l :
  (i + 2 ≤ length l)%nat →
  (let? l := index_set (E:=GatewayError) i 0 l in index_set (i + 1) 0 l) = Ok (splice i (be_bytes 2 0) l).
Proof.
  intros Hi. unfold index_set. rewrite bool_decide_eq_true_2 by lia. cbn [obind].
  rewrite bool_decide_eq_true_2 by (rewrite length_insert; lia). f_equal.
  apply list_eq. intros p. rewrite lookup_splice' by done. change (length (be_bytes 2 0)) with 2%nat.
  destruct (decide (p = i + 1)%nat) as [->|H1].
  { rewrite list_lookup_insert_eq by (rewrite length_insert; lia). rewrite bool_decide_eq_true_2 by lia.
    by replace (i + 1 - i)%nat with 1%nat by lia. }
  rewrite list_lookup_insert_ne by done. destruct (decide (p = i)) as [->|H0].
  { rewrite list_lookup_insert_eq by lia. rewrite bool_decide_eq_true_2 by lia. by rewrite Nat.sub_diag. }
  rewrite list_lookup_insert_ne by done. by rewrite bool_decide_eq_false_2 by lia.
Qed.

Lemma sum_splice2 n l x y v :
  l !! (n + n)%nat = Some x → l !! (n + n + 1)%nat = Some y → u16_ok v →
  ones_complement_sum (splice (n + n) (be_bytes 2 v) l) = ones_complement_sum l - be_value [x; y] + v.
Proof. apply sum_splice. Qed.

(** ** Lemmas: the checksums after a rewrite *)
Definition header_ok (hdr : list Z) : Prop :=
  (20 ≤ length hdr)%nat ∧ bytes_ok hdr ∧ ∃ b, hdr !! 0%nat = Some b ∧ length hdr = (Z.to_nat (Z.land b 0x0f) * 4)%nat ∧
  Z.shiftr b 4 = 4.

Lemma header_ihl hdr seg : header_ok hdr → ip_ihl (hdr ++ seg) = Ok (length hdr).
Proof.
  intros (Hl & _ & b & Hb & Hlen & _). unfold ip_ihl. rewrite (index_lookup 0 _ b) by (by rewrite lookup_app_l by lia).
  cbn [obind]. by rewrite <- Hlen.
Qed.

Lemma header_splice a src hdr :
  header_ok hdr → bytes_ok src → (1 ≤ a)%nat → (a + length src ≤ length hdr)%nat → header_ok (splice a src hdr).
Proof.
  intros (Hl & Hb & b & Hb0 & Hlen & Hv) Hs Ha Hle. unfold header_ok. rewrite length_splice' by done.
  split_and!; [done|by apply splice_bytes_ok|]. exists b. by rewrite lookup_splice_other by lia.
Qed.

Lemma header_length hdr : header_ok hdr → (length hdr ≤ 60)%nat ∧ ∃ k, length hdr = (k + k)%nat.
Proof.
  intros (_ & Hby & b & Hb & -> & _). assert (Hu : u8_ok b) by (by eapply Forall_lookup_1).
  pose proof (Z.land_nonneg b 0x0f). assert (Z.land b 0x0f ≤ 15).
  { pose proof (Z.land_ones b 4) as Hlo. change (Z.ones 4) with 15 in Hlo. rewrite Hlo by lia.
    change (2 ^ 4) with 16. pose proof (Z.mod_pos_bound b 16). lia. }
  split; [lia|]. exists (Z.to_nat (Z.land b 0x0f) * 2)%nat. lia.
Qed.

(** [recalc_ip_checksum] overwrites the checksum so that the header verifies. *)
Lemma recalc_ip_spec hdr :
  header_ok hdr →
  ∃ ck, u16_ok ck ∧ (∀ seg, recalc_ip_checksum (hdr ++ seg) = Ok (splice 10 (be_bytes 2 ck) hdr ++ seg)) ∧
    fold_checksum (ones_complement_sum (splice 10 (be_bytes 2 ck) hdr)) = 0.
Proof.
  intros Hok. pose proof (header_length hdr Hok) as [Hle [k Hk]]. pose proof Hok as (Hl & Hb & _).
  set (h0 := splice 10 (be_bytes 2 0) hdr).
  assert (Hl0 : length h0 = length hdr) by (apply length_splice'; cbn; lia).
  assert (Hb0 : bytes_ok h0) by (apply splice_bytes_ok; [apply be_bytes_ok|done]).
  pose proof (ones_complement_sum_bound h0 Hb0) as Hbound.
  assert (Hsu : u32_ok (ones_complement_sum h0)) by (unfold u32_ok; lia).
  exists (fold_checksum (ones_complement_sum h0)). split; [by apply fold_checksum_range|]. split.
  - intros seg. unfold recalc_ip_checksum. rewrite header_ihl by done. cbn [obind].
    pose proof (zero_word 10 (hdr ++ seg)) as Hz. rewrite length_app in Hz. specialize (Hz ltac:(lia)).
    rewrite splice_app_l in Hz by (cbn; lia). fold h0 in Hz. unfold obind in Hz |- *.
    destruct (index_set 10 0 (hdr ++ seg)) as [p1| |]; [|done..]. cbn [Nat.add] in Hz.
    destruct (index_set 11 0 p1) as [p2| |]; [|done..]. injection Hz as ->.
    rewrite slice_Ok by (rewrite ?length_app; lia). rewrite Nat.sub_0_r, drop_0, <- Hl0, take_app_length.
    rewrite copy_splice by (rewrite ?length_app, ?length_be_bytes; lia). f_equal.
    rewrite splice_app_l by (rewrite length_be_bytes; lia). f_equal. unfold h0. apply splice_splice; [done|cbn; lia].
  - assert (Hsum : ones_complement_sum (splice 10 (be_bytes 2 (fold_checksum (ones_complement_sum h0))) hdr) =
      ones_complement_sum h0 + fold_checksum (ones_complement_sum h0)).
    { unfold h0 at 1. rewrite <- (splice_splice 10 (be_bytes 2 0)) by (cbn; lia). fold h0.
      change 10%nat with (5 + 5)%nat. rewrite (sum_splice2 5 h0 0 0).
      - cbn. lia.
      - unfold h0. by rewrite (lookup_splice_in 10 _ _ 0) by (cbn; lia).
      - unfold h0. by rewrite (lookup_splice_in 10 _ _ 1) by (cbn; lia).
      - by apply fold_checksum_range. }
    rewrite Hsum. apply fold_checksum_verifies; lia.
Qed.

Definition cksum_place (proto : Z) : nat := if proto =? PROTO_TCP then 16 else 6.

Lemma read_u16_lookup i l x y :
  l !! i = Some x → l !! (i + 1)%nat = Some y → read_u16 i l = Ok (be_value [x; y]).
Proof. intros Hx Hy. unfold read_u16. by rewrite (index_lookup _ _ _ Hx), (index_lookup _ _ _ Hy). Qed.

(** Word difference made by the incremental update. *)
Definition rewrite_delta (old_addr new_addr old_port new_port : Z) : Z :=
  (new_addr / 65536 - old_addr / 65536) + (new_addr mod 65536 - old_addr mod 65536) + (new_port - old_port).

Lemma incremental_checksum old_cksum old_addr new_addr old_port new_port :
  u16_ok old_cksum → u32_ok old_addr → u32_ok new_addr → u16_ok old_port → u16_ok new_port →
  let c0 := not_u16 old_cksum in
  let c1 := as_u32 (c0 + not_u16 (old_addr / 65536)) in let c2 := as_u32 (c1 + new_addr / 65536) in
  let c3 := as_u32 (c2 + not_u16 (old_addr mod 65536)) in let c4 := as_u32 (c3 + new_addr mod 65536) in
  let c5 := as_u32 (c4 + not_u16 old_port) in let c6 := as_u32 (c5 + new_port) in
  u16_ok (fold_checksum c6) ∧
  (fold_checksum c6 - old_cksum + rewrite_delta old_addr new_addr old_port new_port) mod 65535 = 0.
Proof.
  unfold u16_ok, u32_ok. intros Hck Ho Hn Hop Hnp.
  pose proof (Z.mod_pos_bound old_addr 65536). pose proof (Z.mod_pos_bound new_addr 65536).
  pose proof (Z.div_pos old_addr 65536). pose proof (Z.div_pos new_addr 65536).
  pose proof (Z.div_lt_upper_bound old_addr 65536 65536). pose proof (Z.div_lt_upper_bound new_addr 65536 65536).
  cbn zeta. unfold not_u16. change (2 ^ 16) with 65536 in *. change (2 ^ 32) with 4294967296 in *.
  assert (Hsmall : ∀ x, 0 ≤ x < 1000000 → as_u32 x = x) by (intros x Hx; apply as_u32_small; unfold u32_ok; lia).
  repeat match goal with |- context [as_u32 ?x] =>
    lazymatch x with context [as_u32 _] => fail | _ => rewrite (Hsmall x) by lia end end.
  match goal with |- context [fold_checksum ?c] => set (sum := c) end.
  assert (Hs : u32_ok sum) by (unfold u32_ok, sum; lia). split; [by apply fold_checksum_range|].
  rewrite fold_checksum_eq by done. destruct Hs as [Hs _]. pose proof (ones_norm_mod sum Hs) as Hm.
  unfold rewrite_delta. apply Z.mod_divide; [lia|].
  assert (Hdiv : (65535 | sum - ones_norm sum)).
  { apply Z.mod_divide; [lia|]. by rewrite Zminus_mod, Hm, Z.sub_diag. }
  destruct Hdiv as [q Hq]. exists (q - 3). unfold sum in Hq at 1. lia.
Qed.

Lemma read_u16_app i hdr seg x y :
  seg !! i = Some x → seg !! (i + 1)%nat = Some y → read_u16 (length hdr + i) (hdr ++ seg) = Ok (be_value [x; y]).
Proof.
  intros Hx Hy. apply read_u16_lookup; rewrite lookup_app_r by lia;
    [replace (length hdr + i - length hdr)%nat with i by lia|replace (length hdr + i + 1 - length hdr)%nat with (i + 1)%nat by lia];
    done.
Qed.

Lemma be_value2_ok (x y : Z) l i j : bytes_ok l → l !! i = Some x → l !! j = Some y → u16_ok (be_value [x; y]).
Proof.
  intros Hb Hx Hy. pose proof (Forall_lookup_1 _ _ _ _ Hb Hx). pose proof (Forall_lookup_1 _ _ _ _ Hb Hy).
  assert (Hbb : bytes_ok [x; y]) by (repeat (constructor; try done)). exact (be_value_bound [x; y] Hbb).
Qed.

(** TCP and UDP: the checksum word moves so that the sum of the segment and
    the pseudo-header keeps its value modulo 65535. *)
Lemma recalc_transport_spec hdr seg proto old_addr new_addr old_port new_port :
  is_tcp_udp proto = true → bytes_ok seg →
  u32_ok old_addr → u32_ok new_addr → u16_ok old_port → u16_ok new_port →
  let co := cksum_place proto in
  let r := recalc_transport_checksum (hdr ++ seg) proto (length hdr) old_addr new_addr old_port new_port in
  (((length seg < co + 2)%nat ∨ (proto = PROTO_UDP ∧ seg !! co = Some 0 ∧ seg !! (co + 1)%nat = Some 0)) ∧ r = Ok (hdr ++ seg)) ∨
  (∃ ck, (co + 2 ≤ length seg)%nat ∧ u16_ok ck ∧ r = Ok (hdr ++ splice co (be_bytes 2 ck) seg) ∧
     (ones_complement_sum (splice co (be_bytes 2 ck) seg) - ones_complement_sum seg +
      rewrite_delta old_addr new_addr old_port new_port) mod 65535 = 0).
Proof.
  intros Hproto Hb Ho Hn Hop Hnp co r.
  assert (Hoff : (if proto =? PROTO_TCP then Some (length hdr + 16)%nat else if proto =? PROTO_UDP then Some (length hdr + 6)%nat
    else if proto =? PROTO_ICMP then Some (length hdr + 2)%nat else None) = Some (length hdr + co)%nat).
  { unfold is_tcp_udp in Hproto. unfold co, cksum_place. destruct (Z.eqb_spec proto PROTO_TCP); [done|].
    by destruct (Z.eqb_spec proto PROTO_UDP). }
  assert (Hicmp : proto =? PROTO_ICMP = false).
  { apply Z.eqb_neq. intros ->. by vm_compute in Hproto. }
  subst r. unfold recalc_transport_checksum. rewrite Hoff, Hicmp, length_app. case_bool_decide as Hlen.
  { left. split; [left; lia|done]. }
  destruct (lookup_lt_is_Some_2 seg co) as [x Hx]; [lia|].
  destruct (lookup_lt_is_Some_2 seg (co + 1)%nat) as [y Hy]; [lia|].
  rewrite (read_u16_app _ _ _ _ _ Hx Hy). cbn [obind].
  pose proof (be_value2_ok _ _ _ _ _ Hb Hx Hy) as Hck.
  destruct ((be_value [x; y] =? 0) && (proto =? PROTO_UDP)) eqn:Hz.
  { left. apply andb_true_iff in Hz as [Hz ->%Z.eqb_eq]. apply Z.eqb_eq in Hz. split; [|done]. right.
    pose proof (Forall_lookup_1 _ _ _ _ Hb Hx) as [? ?]. pose proof (Forall_lookup_1 _ _ _ _ Hb Hy) as [? ?].
    unfold be_value in Hz. cbn in Hz. split_and!; [done|rewrite Hx; f_equal; lia|rewrite Hy; f_equal; lia]. }
  right. destruct (incremental_checksum _ _ _ _ _ Hck Ho Hn Hop Hnp) as [Hnew Hmod]. cbn zeta in Hnew, Hmod.
  match type of Hnew with u16_ok ?ck => set (nck := ck) in * end.
  exists nck. split; [lia|]. split; [done|]. split.
  - rewrite copy_splice by (rewrite ?length_app, ?length_be_bytes; lia). by rewrite splice_app_r.
  - assert (Heven : co = (co / 2 + co / 2)%nat) by (unfold co, cksum_place; by destruct (proto =? PROTO_TCP)).
    rewrite Heven in Hx, Hy |- *. rewrite (sum_splice2 _ _ _ _ _ Hx Hy Hnew).
    rewrite <- Hmod. f_equal. lia.
Qed.

(** The address words of the pseudo-header. *)
Lemma be4_words a b c d : be_value [a; b; c; d] = be_value [a; b] * 65536 + be_value [c; d].
Proof. change [a; b; c; d] with ([a; b] ++ [c; d]). rewrite be_value_app. done. Qed.

Lemma be_bytes4_words v : u32_ok v → be_bytes 4 v = be_bytes 2 (v / 65536) ++ be_bytes 2 (v mod 65536).
Proof.
  intros Hv. unfold u32_ok in Hv.
  assert (Hb : bytes_ok (be_bytes 2 (v / 65536) ++ be_bytes 2 (v mod 65536))) by (apply Forall_app; split; apply be_bytes_ok).
  pose proof (be_bytes_be_value _ Hb) as He. rewrite length_app, !length_be_bytes in He. rewrite <- He. f_equal.
  pose proof (Z.mod_pos_bound v 65536). pose proof (Z.div_pos v 65536). pose proof (Z.div_lt_upper_bound v 65536 65536).
  rewrite be_value_app, length_be_bytes, !be_value_be_bytes by (change (256 ^ Z.of_nat 2) with 65536; lia).
  change (256 ^ Z.of_nat 2) with 65536. pose proof (Z.div_mod v 65536). lia.
Qed.

Lemma sum_splice4 n l a b c d v :
  l !! (n + n)%nat = Some a → l !! (n + n + 1)%nat = Some b → l !! (n + n + 2)%nat = Some c → l !! (n + n + 3)%nat = Some d →
  bytes_ok l → u32_ok v →
  ones_complement_sum (splice (n + n) (be_bytes 4 v) l) =
  ones_complement_sum l + rewrite_delta (be_value [a; b; c; d]) v 0 0.
Proof.
  intros Ha Hb Hc Hd Hl Hv. pose proof (lookup_lt_Some _ _ _ Hd) as Hlt.
  pose proof (be_value2_ok _ _ _ _ _ Hl Ha Hb) as Hw1. pose proof (be_value2_ok _ _ _ _ _ Hl Hc Hd) as Hw2. unfold u16_ok in *.
  assert (Hsp : splice (n + n) (be_bytes 4 v) l =
    splice (S n + S n) (be_bytes 2 (v mod 65536)) (splice (n + n) (be_bytes 2 (v / 65536)) l)).
  { rewrite be_bytes4_words by done. apply list_eq. intros p.
    rewrite !lookup_splice' by (rewrite ?length_splice', ?length_app, ?length_be_bytes; rewrite ?length_be_bytes; lia).
    rewrite length_app, !length_be_bytes. repeat case_bool_decide; try lia.
    - rewrite lookup_app_r by (rewrite length_be_bytes; lia). rewrite length_be_bytes. f_equal. lia.
    - by rewrite lookup_app_l by (rewrite length_be_bytes; lia).
    - done. }
  unfold u32_ok in Hv. pose proof (Z.mod_pos_bound v 65536). pose proof (Z.div_pos v 65536). pose proof (Z.div_lt_upper_bound v 65536 65536).
  rewrite Hsp. rewrite (sum_splice2 (S n) _ c d).
  - rewrite (sum_splice2 n _ a b) by (try done; unfold u16_ok; lia). rewrite be4_words. unfold rewrite_delta.
    change (2 ^ 16) with 65536 in *. set (h := be_value [a; b]) in *. set (w := be_value [c; d]) in *.
    assert (Hh : (h * 65536 + w) / 65536 = h) by (rewrite Z.div_add_l, Z.div_small by lia; lia).
    assert (Hw : (h * 65536 + w) mod 65536 = w) by (rewrite Z.add_comm, Z.mod_add, Z.mod_small by lia; lia).
    rewrite Hh, Hw. lia.
  - rewrite lookup_splice_other by (rewrite length_be_bytes; lia). rewrite <- Hc. f_equal. lia.
  - rewrite lookup_splice_other by (rewrite length_be_bytes; lia). rewrite <- Hd. f_equal. lia.
  - unfold u16_ok. lia.
Qed.

(** What the receiver of a TCP or UDP packet adds up: the pseudo-header
    (addresses, protocol, segment length) and the segment. *)
Definition transport_sum (ihl : nat) (p : list Z) : Z :=
  ones_complement_sum (take 8 (drop 12 p)) + nth 9 p 0 + Z.of_nat (length p - ihl) + ones_complement_sum (drop ihl p).

Lemma ip_protocol_ok hdr seg proto :
  header_ok hdr → hdr !! 9%nat = Some proto → ip_protocol (hdr ++ seg) = Ok proto.
Proof.
  intros (Hl & _ & b & Hb & _ & Hv) Hp. unfold ip_protocol, IP_HEADER_MIN. rewrite length_app.
  rewrite bool_decide_eq_false_2 by lia. rewrite (index_lookup 0 _ b) by (by rewrite lookup_app_l by lia).
  cbn [obind]. rewrite Hv. cbn. apply index_lookup. by rewrite lookup_app_l by lia.
Qed.

Lemma read_addr_ok i hdr seg :
  bytes_ok hdr → (i + 4 ≤ length hdr)%nat →
  ∃ a b c d, hdr !! i = Some a ∧ hdr !! (i + 1)%nat = Some b ∧ hdr !! (i + 2)%nat = Some c ∧ hdr !! (i + 3)%nat = Some d ∧
    read_addr i (hdr ++ seg) = Ok (be_value [a; b; c; d]) ∧ u32_ok (be_value [a; b; c; d]).
Proof.
  intros Hb Hi. destruct (lookup_lt_is_Some_2 hdr i) as [a Ha]; [lia|].
  destruct (lookup_lt_is_Some_2 hdr (i + 1)) as [b Hb']; [lia|]. destruct (lookup_lt_is_Some_2 hdr (i + 2)) as [c Hc]; [lia|].
  destruct (lookup_lt_is_Some_2 hdr (i + 3)) as [d Hd]; [lia|]. exists a, b, c, d. split_and!; try done.
  - unfold read_addr. rewrite !(index_lookup _ (hdr ++ seg) _) by (rewrite lookup_app_l by lia; eassumption). done.
  - assert (Hbb : bytes_ok [a; b; c; d]).
    { repeat (constructor; [eapply Forall_lookup_1; eassumption|]). constructor. }
    pose proof (be_value_bound _ Hbb) as [? ?]. split; [done|]. done.
Qed.

(** The rewriting in terms of splices. *)
Definition new_header (addr : nat) (new_addr ck : Z) (hdr : list Z) : list Z :=
  splice 10 (be_bytes 2 ck) (splice addr (be_bytes 4 new_addr) hdr).

Lemma pseudo_header_sum addr n new_addr ck hdr a b c d :
  header_ok hdr → addr = (12 + (n + n))%nat → (n = 0 ∨ n = 2)%nat → u32_ok new_addr →
  hdr !! addr = Some a → hdr !! (addr + 1)%nat = Some b → hdr !! (addr + 2)%nat = Some c → hdr !! (addr + 3)%nat = Some d →
  ones_complement_sum (take 8 (drop 12 (new_header addr new_addr ck hdr))) =
  ones_complement_sum (take 8 (drop 12 hdr)) + rewrite_delta (be_value [a; b; c; d]) new_addr 0 0.
Proof.
  intros (Hl & Hby & _) -> Hn Hnew Ha Hb Hc Hd.
  assert (Hx : ∀ i, (i < 8)%nat → take 8 (drop 12 hdr) !! i = hdr !! (12 + i)%nat).
  { intros i Hi. rewrite lookup_take_lt by done. by rewrite lookup_drop. }
  rewrite <- (sum_splice4 n _ a b c d).
  - f_equal. unfold new_header. apply list_eq. intros p. destruct (decide (p < 8)%nat) as [Hp|Hp].
    + rewrite lookup_take_lt, lookup_drop by done.
      rewrite lookup_splice_other by (rewrite ?length_splice', ?length_be_bytes; rewrite ?length_be_bytes; lia).
      rewrite !lookup_splice' by (rewrite ?length_take, ?length_drop, ?length_be_bytes; lia). rewrite length_be_bytes.
      repeat case_bool_decide; try lia; [f_equal; lia|by rewrite Hx].
    + rewrite !lookup_ge_None_2; [done| |].
      * rewrite length_splice' by (rewrite length_take, length_drop, length_be_bytes; lia). rewrite length_take. lia.
      * rewrite length_take. lia.
  - rewrite Hx by lia. done.
  - rewrite Hx by lia. rewrite <- Hb. f_equal; lia.
  - rewrite Hx by lia. rewrite <- Hc. f_equal; lia.
  - rewrite Hx by lia. rewrite <- Hd. f_equal; lia.
  - by apply Forall_take, Forall_drop.
  - done.
Qed.

Record header_rewritten (addr : nat) (new_addr : Z) (hdr hdr' : list Z) : Prop := {
  hr_ok : header_ok hdr';
  hr_length : length hdr' = length hdr;
  hr_verifies : fold_checksum (ones_complement_sum hdr') = 0;
  hr_same : ∀ p, (p < 10 ∨ 12 ≤ p)%nat → (p < addr ∨ addr + 4 ≤ p)%nat → hdr' !! p = hdr !! p;
  hr_addr : ∀ i, (i < 4)%nat → hdr' !! (addr + i)%nat = be_bytes 4 new_addr !! i;
}.

Section Rewrite.
Context (addr port n : nat) (hdr seg : list Z) (proto new_addr new_port : Z).
Context (Haddr : addr = (12 + (n + n))%nat) (Hn : (n = 0 ∨ n = 2)%nat) (Hport : (port = 0 ∨ port = 2)%nat).
Context (Hhdr : header_ok hdr) (Hseg : bytes_ok seg).
Context (Hproto : hdr !! 9%nat = Some proto).
Context (Hnew : u32_ok new_addr) (Hnport : u16_ok new_port).

(** The header part, for every protocol. *)
Lemma new_header_spec :
  ∃ ck, u16_ok ck ∧
    (∀ seg', recalc_ip_checksum (splice addr (be_bytes 4 new_addr) hdr ++ seg') = Ok (new_header addr new_addr ck hdr ++ seg')) ∧
    header_rewritten addr new_addr hdr (new_header addr new_addr ck hdr).
Proof.
  pose proof Hhdr as (Hl & Hb & _).
  assert (Hh1 : header_ok (splice addr (be_bytes 4 new_addr) hdr)).
  { apply header_splice; [done|apply be_bytes_ok|lia|rewrite length_be_bytes; lia]. }
  assert (Hl1 : length (splice addr (be_bytes 4 new_addr) hdr) = length hdr).
  { apply length_splice'. rewrite length_be_bytes. lia. }
  destruct (recalc_ip_spec _ Hh1) as (ck & Hck & Hr & Hv). exists ck. unfold new_header.
  assert (Hlen : length (splice 10 (be_bytes 2 ck) (splice addr (be_bytes 4 new_addr) hdr)) = length hdr).
  { rewrite length_splice' by (rewrite length_be_bytes; lia). done. }
  split; [done|]. split; [done|]. split; try done.
  - apply header_splice; [done|apply be_bytes_ok|lia|rewrite length_be_bytes; lia].
  - intros p H1 H2. rewrite lookup_splice_other by (rewrite length_be_bytes; lia).
    by rewrite lookup_splice_other by (rewrite length_be_bytes; lia).
  - intros i Hi. rewrite lookup_splice_other by (rewrite length_be_bytes; lia).
    by rewrite lookup_splice_in by (rewrite length_be_bytes; lia).
Qed.

(** The port word of a segment. *)
Lemma port_word at_ :
  (at_ + 2 ≤ length seg)%nat →
  ∃ x y, seg !! at_ = Some x ∧ seg !! (at_ + 1)%nat = Some y ∧
    read_u16 (length hdr + at_) (hdr ++ seg) = Ok (be_value [x; y]) ∧ u16_ok (be_value [x; y]).
Proof.
  intros Hl. destruct (lookup_lt_is_Some_2 seg at_) as [x Hx]; [lia|].
  destruct (lookup_lt_is_Some_2 seg (at_ + 1)) as [y Hy]; [lia|]. exists x, y. split_and!; try done.
  - by apply read_u16_app.
  - by eapply be_value2_ok.
Qed.

Lemma copy_addr {E} : 
  copy_from_slice (E:=E) addr (addr + 4) (be_bytes 4 new_addr) (hdr ++ seg) =
  Ok (splice addr (be_bytes 4 new_addr) hdr ++ seg).
Proof.
  pose proof Hhdr as (Hl & _). rewrite copy_splice by (rewrite ?length_app, ?length_be_bytes; lia).
  rewrite splice_app_l by (rewrite length_be_bytes; lia). done.
Qed.

Lemma copy_port {E} at_ h :
  length h = length hdr → (at_ + 2 ≤ length seg)%nat →
  copy_from_slice (E:=E) (length hdr + at_) (length hdr + at_ + 2) (be_bytes 2 new_port) (h ++ seg) =
  Ok (h ++ splice at_ (be_bytes 2 new_port) seg).
Proof.
  intros Hh Hl. rewrite copy_splice by (rewrite ?length_app, ?length_be_bytes; lia).
  rewrite <- Hh. by rewrite splice_app_r.
Qed.

Lemma length_new_addr : length (splice addr (be_bytes 4 new_addr) hdr) = length hdr.
Proof. pose proof Hhdr as (Hl & _). apply length_splice'. rewrite length_be_bytes. lia. Qed.

(** TCP and UDP. *)
Lemma rewrite_tcp_udp :
  is_tcp_udp proto = true → (4 ≤ length seg)%nat →
  ∃ hdr' seg', rewrite_at addr port (hdr ++ seg) new_addr new_port = Ok (hdr' ++ seg') ∧
    header_rewritten addr new_addr hdr hdr' ∧ length seg' = length seg ∧
    (∀ i, (i < 2)%nat → seg' !! (port + i)%nat = be_bytes 2 new_port !! i) ∧
    (∀ p, (p < port ∨ port + 2 ≤ p)%nat → (p < cksum_place proto ∨ cksum_place proto + 2 ≤ p)%nat → seg' !! p = seg !! p) ∧
    ((cksum_place proto + 2 ≤ length seg)%nat →
     ¬ (proto = PROTO_UDP ∧ seg !! cksum_place proto = Some 0 ∧ seg !! (cksum_place proto + 1)%nat = Some 0) →
     transport_sum (length hdr) (hdr' ++ seg') mod 65535 =
     transport_sum (length hdr) (hdr ++ seg) mod 65535).
Proof.
  intros Htu Hlen. pose proof Hhdr as (Hl & Hb & _).
  destruct new_header_spec as (ck & Hck & Hip & Hhr). pose proof Hhr as [Hnok Hnl _ Hnsame _].
  destruct (read_addr_ok addr hdr seg Hb) as (a & b & c & d & Ha & Hb' & Hc & Hd & Hread & Hold); [lia|].
  destruct (port_word port) as (x & y & Hx & Hy & Hrp & Hop); [lia|].
  set (seg1 := splice port (be_bytes 2 new_port) seg).
  assert (Hl1 : length seg1 = length seg) by (apply length_splice'; rewrite length_be_bytes; lia).
  assert (Hb1 : bytes_ok seg1) by (apply splice_bytes_ok; [apply be_bytes_ok|done]).
  assert (Hco : (cksum_place proto = 6 ∨ cksum_place proto = 16)%nat) by (unfold cksum_place; destruct (proto =? PROTO_TCP); auto).
  assert (Hport1 : ∀ i, (i < 2)%nat → seg1 !! (port + i)%nat = be_bytes 2 new_port !! i).
  { intros i Hi. apply lookup_splice_in; rewrite length_be_bytes; lia. }
  assert (Hother1 : ∀ p, (p < port ∨ port + 2 ≤ p)%nat → seg1 !! p = seg !! p).
  { intros p Hp. apply lookup_splice_other; rewrite length_be_bytes; lia. }
  assert (Hrw : rewrite_at addr port (hdr ++ seg) new_addr new_port =
    recalc_transport_checksum (new_header addr new_addr ck hdr ++ seg1) proto (length (new_header addr new_addr ck hdr))
      (be_value [a; b; c; d]) new_addr (be_value [x; y]) new_port).
  { unfold rewrite_at. rewrite (ip_protocol_ok _ _ _ Hhdr Hproto), (header_ihl _ _ Hhdr), Hread. cbn [obind].
    rewrite Htu, length_app, bool_decide_eq_false_2 by lia. rewrite Hrp. cbn [obind]. rewrite copy_addr. cbn [obind].
    rewrite copy_port by (try apply length_new_addr; lia). cbn [obind]. rewrite Hip, Hnl. done. }
  destruct (recalc_transport_spec (new_header addr new_addr ck hdr) seg1 proto _ _ _ _ Htu Hb1 Hold Hnew Hop Hnport)
    as [[Hno Hr]|(ck' & Hsz & Hck' & Hr & Hmod)]; rewrite Hr in Hrw; exists (new_header addr new_addr ck hdr).
  - exists seg1. split_and!; try done; [intros p H1 _; by apply Hother1|]. intros Hfit Hnz. exfalso.
    destruct Hno as [Hno|(Hu & H0 & H1)]; [lia|]. apply Hnz. rewrite <- !Hother1 by lia. done.
  - exists (splice (cksum_place proto) (be_bytes 2 ck') seg1). rewrite length_splice' by (rewrite length_be_bytes; lia).
    split_and!; try done.
    + intros i Hi. rewrite lookup_splice_other by (rewrite length_be_bytes; lia). by apply Hport1.
    + intros p H1 H2. rewrite lookup_splice_other by (rewrite length_be_bytes; lia). by apply Hother1.
    + intros _ _. unfold transport_sum. rewrite !length_app, length_splice', Hnl, Hl1 by (rewrite length_be_bytes; lia).
      rewrite <- Hnl at 3. rewrite !drop_app_length. rewrite !drop_app_le, !take_app_le by (rewrite ?length_drop; lia).
      rewrite (pseudo_header_sum addr n new_addr ck hdr a b c d) by done.
      rewrite !(nth_lookup_Some _ 9 _ proto) by (rewrite lookup_app_l by lia; rewrite ?Hnsame by lia; done).
      assert (Hs1 : ones_complement_sum seg1 = ones_complement_sum seg - be_value [x; y] + new_port).
      { assert (He : port = (port / 2 + port / 2)%nat) by (destruct Hport as [->| ->]; done).
        unfold seg1. rewrite He in Hx, Hy |- *. by apply sum_splice2. }
      apply Z.mod_divide in Hmod as [q Hq]; [|lia]. unfold rewrite_delta in *.
      match goal with |- ?l mod _ = ?r mod _ => replace l with (r + q * 65535) by lia end.
      by rewrite Z.mod_add.
Qed.

(** ICMP: the whole message is summed again. *)
Lemma rewrite_icmp :
  proto = PROTO_ICMP → (8 ≤ length seg)%nat → Z.of_nat (length seg) < 2 ^ 16 →
  ∃ hdr' seg', rewrite_at addr port (hdr ++ seg) new_addr new_port = Ok (hdr' ++ seg') ∧
    header_rewritten addr new_addr hdr hdr' ∧ length seg' = length seg ∧
    (∀ i, (i < 2)%nat → seg' !! (4 + i)%nat = be_bytes 2 new_port !! i) ∧
    (∀ p, (p < 2 ∨ 6 ≤ p)%nat → seg' !! p = seg !! p) ∧
    fold_checksum (ones_complement_sum seg') = 0.
Proof.
  intros Hicmp Hlen Hmax. pose proof Hhdr as (Hl & Hb & _).
  destruct new_header_spec as (ck & Hck & Hip & Hhr). pose proof Hhr as [Hnok Hnl _ Hnsame _].
  destruct (read_addr_ok addr hdr seg Hb) as (a & b & c & d & Ha & Hb' & Hc & Hd & Hread & Hold); [lia|].
  destruct (port_word 4) as (x & y & Hx & Hy & Hrp & Hop); [lia|].
  set (seg1 := splice 4 (be_bytes 2 new_port) seg).
  assert (Hl1 : length seg1 = length seg) by (apply length_splice'; rewrite length_be_bytes; lia).
  assert (Hb1 : bytes_ok seg1) by (apply splice_bytes_ok; [apply be_bytes_ok|done]).
  set (seg0 := splice 2 (be_bytes 2 0) seg1).
  assert (Hl0 : length seg0 = length seg) by (unfold seg0; rewrite length_splice' by (rewrite length_be_bytes; lia); done).
  assert (Hb0 : bytes_ok seg0) by (apply splice_bytes_ok; [apply be_bytes_ok|done]).
  pose proof (ones_complement_sum_bound seg0 Hb0) as [Hs0 Hs1]. rewrite Hl0 in Hs1.
  set (nck := fold_checksum (ones_complement_sum seg0)).
  assert (Hnck : u16_ok nck) by (apply fold_checksum_range; unfold u32_ok; lia).
  exists (new_header addr new_addr ck hdr), (splice 2 (be_bytes 2 nck) seg1). rewrite length_splice' by (rewrite length_be_bytes; lia). split_and!; try done.
  - unfold rewrite_at. rewrite (ip_protocol_ok _ _ _ Hhdr Hproto), (header_ihl _ _ Hhdr), Hread. cbn [obind].
    rewrite Hicmp. change (is_tcp_udp PROTO_ICMP) with false. change (PROTO_ICMP =? PROTO_ICMP) with true. cbv iota.
    rewrite length_app, bool_decide_eq_false_2 by lia. rewrite Hrp. cbn [obind]. rewrite copy_addr. cbn [obind].
    replace (length hdr + 6)%nat with (length hdr + 4 + 2)%nat by lia.
    rewrite copy_port by (try apply length_new_addr; lia). cbn [obind]. rewrite Hip. cbn [obind]. fold seg1.
    unfold recalc_transport_checksum. change (PROTO_ICMP =? PROTO_TCP) with false. change (PROTO_ICMP =? PROTO_UDP) with false.
    change (PROTO_ICMP =? PROTO_ICMP) with true. cbv iota. rewrite length_app, bool_decide_eq_false_2 by lia.
    pose proof (zero_word (length hdr + 2) (new_header addr new_addr ck hdr ++ seg1)) as Hz.
    rewrite length_app in Hz. specialize (Hz ltac:(lia)). rewrite <- Hnl, splice_app_r in Hz. fold seg0 in Hz.
    rewrite <- Hnl. unfold obind in Hz |- *.
    destruct (index_set (length (new_header addr new_addr ck hdr) + 2) 0 _) as [p1| |]; [|done..].
    destruct (index_set (length (new_header addr new_addr ck hdr) + 2 + 1) 0 p1) as [p2| |]; [|done..]. injection Hz as ->.
    rewrite slice_Ok by (rewrite ?length_app; lia). rewrite drop_app_length.
    rewrite take_ge by (rewrite length_app; lia). fold nck.
    rewrite copy_splice by (rewrite ?length_app, ?length_be_bytes; lia). rewrite splice_app_r. do 2 f_equal.
    unfold seg0. apply splice_splice; [done|rewrite length_be_bytes; lia].
  - intros i Hi. rewrite lookup_splice_other by (rewrite length_be_bytes; lia).
    apply lookup_splice_in; rewrite length_be_bytes; lia.
  - intros p Hp. rewrite lookup_splice_other by (rewrite length_be_bytes; lia).
    apply lookup_splice_other; rewrite length_be_bytes; lia.
  - assert (Hsum : ones_complement_sum (splice 2 (be_bytes 2 nck) seg1) = ones_complement_sum seg0 + nck).
    { rewrite <- (splice_splice 2 (be_bytes 2 0)) by (rewrite ?length_be_bytes; lia). fold seg0.
      change 2%nat with (1 + 1)%nat at 1. rewrite (sum_splice2 1 seg0 0 0); [cbn; lia| | |done].
      - unfold seg0. by rewrite (lookup_splice_in 2 _ _ 0) by (rewrite length_be_bytes; lia).
      - unfold seg0. by rewrite (lookup_splice_in 2 _ _ 1) by (rewrite length_be_bytes; lia). }
    rewrite Hsum. apply fold_checksum_verifies; lia.
Qed.
End Rewrite.

(** ** Whole packets *)

(** What a network stack emits: bytes, at most 64 KiB, and a header length of
    at least five words. *)
Definition packet_wf (p : list Z) : Prop :=
  bytes_ok p ∧ Z.of_nat (length p) < 2 ^ 16 ∧ ∃ b, p !! 0%nat = Some b ∧ 5 ≤ Z.land b 0x0f.

(** The transport header the translation needs is there. *)
Definition flow_fits (proto : Z) (seg : list Z) : Prop :=
  (is_tcp_udp proto = true ∧ 4 ≤ length seg)%nat ∨ (proto = PROTO_ICMP ∧ 8 ≤ length seg)%nat.

Lemma split_packet p proto ihl :
  packet_wf p → ip_protocol p = Ok proto → ip_ihl p = Ok ihl → (ihl ≤ length p)%nat →
  ∃ hdr seg, p = hdr ++ seg ∧ length hdr = ihl ∧ header_ok hdr ∧ hdr !! 9%nat = Some proto ∧ bytes_ok seg.
Proof.
  intros (Hb & _ & b & Hb0 & H5) Hproto Hihl Hle. exists (take ihl p), (drop ihl p).
  unfold ip_ihl in Hihl. rewrite (index_lookup _ _ _ Hb0) in Hihl. cbn [obind] in Hihl. injection Hihl as Hihl.
  assert (20 ≤ ihl)%nat by lia. revert Hproto. unfold ip_protocol. case_bool_decide; [done|].
  rewrite (index_lookup _ _ _ Hb0). cbn [obind]. destruct (Z.eqb_spec (Z.shiftr b 4) 4) as [Hv|]; [|done]. cbn [negb].
  unfold index. destruct (p !! 9%nat) as [pr|] eqn:H9; [|done]. intros [= <-].
  split_and!; [by rewrite take_drop|rewrite length_take; lia| |rewrite lookup_take_lt by lia; done|by apply Forall_drop].
  unfold header_ok. rewrite length_take. split_and!; [lia|by apply Forall_take|]. exists b.
  rewrite lookup_take_lt by lia. split_and!; [done|lia|done].
Qed.

Lemma ip_ihl_some p : (0 < length p)%nat → ∃ ihl, ip_ihl p = Ok ihl.
Proof. intros Hl. unfold ip_ihl. destruct (index_Ok (E:=GatewayError) 0 p Hl) as (x & -> & _). cbn. eauto. Qed.

Lemma ip_protocol_length p proto : ip_protocol p = Ok proto → (20 ≤ length p)%nat.
Proof. unfold ip_protocol, IP_HEADER_MIN. case_bool_decide; [done|]. lia. Qed.

Lemma parse_flow_inv p proto src port :
  packet_wf p → parse_flow p = Ok (proto, src, port) →
  ∃ hdr seg, p = hdr ++ seg ∧ header_ok hdr ∧ hdr !! 9%nat = Some proto ∧ bytes_ok seg ∧ flow_fits proto seg.
Proof.
  intros Hwf Hpf. unfold parse_flow in Hpf. apply obind_Ok_inv in Hpf as (pr & Hpr & Hpf).
  apply obind_Ok_inv in Hpf as (ihl & Hihl & Hpf). apply obind_Ok_inv in Hpf as (a & _ & Hpf).
  apply obind_Ok_inv in Hpf as (pt & Hpt & [= -> -> ->]).
  assert (Hlen : (is_tcp_udp proto = true ∧ ihl + 4 ≤ length p)%nat ∨ (proto = PROTO_ICMP ∧ ihl + 8 ≤ length p)%nat).
  { destruct (is_tcp_udp proto); [case_bool_decide; [done|]; left; split; [done|lia]|].
    destruct (Z.eqb_spec proto PROTO_ICMP); [case_bool_decide; [done|]; right; split; [done|lia]|done]. }
  destruct (split_packet p proto ihl Hwf Hpr Hihl) as (hdr & seg & -> & Hh & Hok & H9 & Hseg); [lia|].
  exists hdr, seg. split_and!; try done. rewrite length_app in Hlen. unfold flow_fits.
  destruct Hlen as [[? ?]|[? ?]]; [left|right]; split; [done|lia|done|lia].
Qed.

Lemma dst_port_inv p proto port :
  packet_wf p → ip_protocol p = Ok proto → transport_dst_port p proto = Ok port →
  ∃ hdr seg, p = hdr ++ seg ∧ header_ok hdr ∧ hdr !! 9%nat = Some proto ∧ bytes_ok seg ∧ flow_fits proto seg.
Proof.
  intros Hwf Hpr Hpf. unfold transport_dst_port in Hpf. apply obind_Ok_inv in Hpf as (ihl & Hihl & Hpf).
  assert (Hlen : (is_tcp_udp proto = true ∧ ihl + 4 ≤ length p)%nat ∨ (proto = PROTO_ICMP ∧ ihl + 8 ≤ length p)%nat).
  { destruct (is_tcp_udp proto); [case_bool_decide; [done|]; left; split; [done|lia]|].
    destruct (Z.eqb_spec proto PROTO_ICMP); [case_bool_decide; [done|]; right; split; [done|lia]|done]. }
  destruct (split_packet p proto ihl Hwf Hpr Hihl) as (hdr & seg & -> & Hh & Hok & H9 & Hseg); [lia|].
  exists hdr, seg. split_and!; try done. rewrite length_app in Hlen. unfold flow_fits.
  destruct Hlen as [[? ?]|[? ?]]; [left|right]; split; [done|lia|done|lia].
Qed.

Lemma read_u16_value i l v :
  u16_ok v → (∀ j, (j < 2)%nat → l !! (i + j)%nat = be_bytes 2 v !! j) → read_u16 i l = Ok v.
Proof.
  intros Hv Hl. pose proof (Hl 0%nat ltac:(lia)) as H0. pose proof (Hl 1%nat ltac:(lia)) as H1. rewrite Nat.add_0_r in H0.
  cbn in H0, H1. rewrite (read_u16_lookup i l _ _ H0 H1). f_equal. change (be_value (be_bytes 2 v) = v).
  by apply be_value_be_bytes.
Qed.

Lemma read_addr_value i l v :
  u32_ok v → (∀ j, (j < 4)%nat → l !! (i + j)%nat = be_bytes 4 v !! j) → read_addr i l = Ok v.
Proof.
  intros Hv Hl. pose proof (Hl 0%nat ltac:(lia)) as H0. pose proof (Hl 1%nat ltac:(lia)) as H1.
  pose proof (Hl 2%nat ltac:(lia)) as H2. pose proof (Hl 3%nat ltac:(lia)) as H3. rewrite Nat.add_0_r in H0.
  cbn in H0, H1, H2, H3. unfold read_addr.
  rewrite (index_lookup _ _ _ H0), (index_lookup _ _ _ H1), (index_lookup _ _ _ H2), (index_lookup _ _ _ H3). cbn [obind].
  f_equal. change (be_value (be_bytes 4 v) = v). by apply be_value_be_bytes.
Qed.

(** [rewrite_src] and [rewrite_dst] on a packet with a transport header: the
    address and port are the new ones, the checksums are right, and the other
    address, the protocol and the payload are untouched. *)
Record rewritten (addr port : nat) (p p' : list Z) (ihl : nat) (proto new_addr new_port : Z) : Prop := {
  rw_length : length p' = length p;
  rw_ihl : ip_ihl p' = Ok ihl;
  rw_proto : ip_protocol p' = Ok proto;
  rw_addr : read_addr addr p' = Ok new_addr;
  rw_port : read_u16 (ihl + (if is_tcp_udp proto then port else 4)) p' = Ok new_port;
  rw_header : fold_checksum (ones_complement_sum (take ihl p')) = 0;
  rw_icmp : proto = PROTO_ICMP → fold_checksum (ones_complement_sum (drop ihl p')) = 0;
  rw_transport :
    is_tcp_udp proto = true → (ihl + cksum_place proto + 2 ≤ length p)%nat →
    ¬ (proto = PROTO_UDP ∧ read_u16 (ihl + cksum_place proto) p = Ok 0) →
    transport_sum ihl p' mod 65535 = transport_sum ihl p mod 65535;
  rw_other_addr : ∀ i, (i < 10 ∨ 12 ≤ i)%nat → (i < addr ∨ addr + 4 ≤ i)%nat → (i < ihl)%nat → p' !! i = p !! i;
  rw_payload : ∀ i, (ihl + 20 ≤ i)%nat → p' !! i = p !! i;
}.

Lemma rewrite_at_spec addr port hdr seg proto new_addr new_port :
  (addr = 12 ∨ addr = 16)%nat → (port = 0 ∨ port = 2)%nat → header_ok hdr → bytes_ok seg → hdr !! 9%nat = Some proto →
  flow_fits proto seg → Z.of_nat (length seg) < 2 ^ 16 → u32_ok new_addr → u16_ok new_port →
  ∃ p', rewrite_at addr port (hdr ++ seg) new_addr new_port = Ok p' ∧
    rewritten addr port (hdr ++ seg) p' (length hdr) proto new_addr new_port.
Proof.
  intros Haddr Hport Hhdr Hseg H9 Hfit Hmax Hna Hnp. pose proof Hhdr as (Hl & Hb & _).
  assert (Hn : ∃ n, addr = (12 + (n + n))%nat ∧ (n = 0 ∨ n = 2)%nat).
  { destruct Haddr as [->| ->]; [exists 0%nat|exists 2%nat]; auto. }
  destruct Hn as (n & Hae & Hn).
  assert (Hgen : ∀ hdr' seg', header_rewritten addr new_addr hdr hdr' → length seg' = length seg →
    ∀ (place : nat), (∀ i, (i < 2)%nat → seg' !! (place + i)%nat = be_bytes 2 new_port !! i) →
    length (hdr' ++ seg') = length (hdr ++ seg) ∧ ip_ihl (hdr' ++ seg') = Ok (length hdr) ∧
    ip_protocol (hdr' ++ seg') = Ok proto ∧ read_addr addr (hdr' ++ seg') = Ok new_addr ∧
    read_u16 (length hdr + place) (hdr' ++ seg') = Ok new_port ∧
    fold_checksum (ones_complement_sum (take (length hdr) (hdr' ++ seg'))) = 0 ∧
    (∀ i, (i < 10 ∨ 12 ≤ i)%nat → (i < addr ∨ addr + 4 ≤ i)%nat → (i < length hdr)%nat → (hdr' ++ seg') !! i = (hdr ++ seg) !! i)).
  { intros hdr' seg' [Hok' Hl' Hv' Hsame' Haddr'] Hsl place Hplace. split_and!.
    - rewrite !length_app. lia.
    - by rewrite header_ihl, Hl'.
    - apply ip_protocol_ok; [done|]. by rewrite Hsame' by lia.
    - apply read_addr_value; [done|]. intros j Hj. rewrite lookup_app_l by lia. by apply Haddr'.
    - apply read_u16_value; [done|]. intros j Hj. rewrite lookup_app_r by lia. rewrite Hl'.
      replace (length hdr + place + j - length hdr)%nat with (place + j)%nat by lia. by apply Hplace.
    - by rewrite <- Hl', take_app_length.
    - intros i H1 H2 H3. rewrite !lookup_app_l by lia. by apply Hsame'. }
  destruct Hfit as [[Htu Hlen]|[Hicmp Hlen]].
  - destruct (rewrite_tcp_udp addr port n hdr seg proto new_addr new_port) as (hdr' & seg' & Hrw & Hhr & Hsl & Hpl & Hoth & Hsum);
      try done. destruct (Hgen hdr' seg' Hhr Hsl port Hpl) as (? & ? & ? & ? & ? & ? & ?). pose proof (hr_length _ _ _ _ Hhr).
    exists (hdr' ++ seg'). split; [done|]. split; rewrite ?Htu; try done.
    + intros ->. by vm_compute in Htu.
    + intros _ Hcl Hnz. apply Hsum; [rewrite length_app in Hcl; lia|]. intros (Hu & Hz0 & Hz1). apply Hnz. split; [done|].
      by rewrite (read_u16_app _ _ _ 0 0).
    + intros i Hi. rewrite !lookup_app_r by lia. rewrite H6. apply Hoth; unfold cksum_place; destruct (proto =? PROTO_TCP); lia.
  - destruct (rewrite_icmp addr port n hdr seg proto new_addr new_port) as (hdr' & seg' & Hrw & Hhr & Hsl & Hpl & Hoth & Hsum);
      try done. destruct (Hgen hdr' seg' Hhr Hsl 4%nat Hpl) as (? & ? & ? & ? & ? & ? & ?). pose proof (hr_length _ _ _ _ Hhr).
    exists (hdr' ++ seg'). split; [done|]. split; rewrite ?Hicmp; try done.
    + by rewrite <- Hicmp.
    + intros _. by rewrite <- H6, drop_app_length.
    + intros i Hi. rewrite !lookup_app_r by lia. rewrite H6. apply Hoth. lia.
Qed.

(** The rewritten packet parses to the new flow. *)
Lemma rewritten_parses hdr seg p' proto new_src new_port :
  flow_fits proto seg → rewritten 12 0 (hdr ++ seg) p' (length hdr) proto new_src new_port →
  parse_flow p' = Ok (proto, new_src, new_port).
Proof.
  intros Hfit [Hl Hihl Hpr Ha Hpt _ _ _ _ _]. unfold parse_flow. rewrite Hpr, Hihl, Ha. cbn [obind]. rewrite Hl, length_app.
  destruct Hfit as [[Htu ?]|[-> ?]].
  - rewrite Htu in *. rewrite bool_decide_eq_false_2 by lia. rewrite Nat.add_0_r in Hpt. by rewrite Hpt.
  - change (is_tcp_udp PROTO_ICMP) with false in *. change (PROTO_ICMP =? PROTO_ICMP) with true. cbv iota in Hpt |- *.
    rewrite bool_decide_eq_false_2 by lia. by rewrite Hpt.
Qed.

(** ** The theorems *)

(** Source rewriting: on any packet whose flow parses and whose header
    length is legal, [rewrite_src] succeeds, the result parses to the new
    address and port, its IP header checksum verifies, an ICMP checksum
    verifies, a TCP or UDP checksum is valid exactly when it was (the
    incremental update keeps the pseudo-header sum), and the destination, the
    options and the payload are untouched. *)
Theorem rewrite_src_correct p proto src port new_src new_port :
  packet_wf p → parse_flow p = Ok (proto, src, port) → u32_ok new_src → u16_ok new_port →
  ∃ p' ihl, rewrite_src p new_src new_port = Ok p' ∧ rewritten 12 0 p p' ihl proto new_src new_port ∧
    parse_flow p' = Ok (proto, new_src, new_port).
Proof.
  intros Hwf Hpf Hns Hnp. pose proof (parse_flow_inv p proto src port Hwf Hpf) as (hdr & seg & -> & Hok & H9 & Hseg & Hfit).
  destruct Hwf as (_ & Hlen & _). rewrite length_app in Hlen.
  destruct (rewrite_at_spec 12 0 hdr seg proto new_src new_port) as (p' & Hrw & Hr); try done; [by left|by left|lia|].
  exists p', (length hdr). split; [done|]. split; [done|]. by eapply rewritten_parses.
Qed.

(** A packet that claims a header length of zero passes the parser, but the
    rewrite stores the port over the version byte and then reads a header
    longer than the packet: the gateway panics. *)
Theorem zero_header_length_panics :
  let p := [0x40; 0; 0; 20; 0; 0; 0; 0; 64; 6; 0; 0; 10; 77; 0; 2; 1; 1; 1; 1] in
  parse_flow p = Ok (PROTO_TCP, 0x0a4d0002, 0x4000) ∧ rewrite_src p 0xc0a8010a 30208 = Panic.
Proof. vm_compute. done. Qed.

(** The incremental update can give a UDP datagram the checksum zero, which
    on the wire means that it has none: RFC 768 sends 0xffff instead. *)
Theorem udp_checksum_becomes_zero :
  let p := [0x45; 0; 0; 28; 0; 0; 0; 0; 64; 17; 0; 0; 10; 77; 0; 2; 1; 1; 1; 1;
            0x30; 0x39; 0; 53; 0; 8; 0xfc; 0x5a] in
  ∃ p', rewrite_src p 0xc0a8010a 30000 = Ok p' ∧ read_u16 26 p = Ok 0xfc5a ∧ read_u16 26 p' = Ok 0.
Proof. vm_compute. eexists. split; [reflexivity|]. done. Qed.

(** ** A concrete packet: UDP from 10.77.0.2:12345 to 1.1.1.1:53, no payload. *)
Definition sample_packet : list Z :=
  [0x45; 0; 0; 28; 0; 0; 0; 0; 64; 17; 0; 0; 10; 77; 0; 2; 1; 1; 1; 1; 0x30; 0x39; 0; 53; 0; 8; 0xfc; 0x5a].

Lemma sample_packet_wf : packet_wf sample_packet.
Proof.
  split; [by apply (bool_decide_unpack _); vm_compute|]. split; [by vm_compute|]. exists 0x45. split; [done|by vm_compute].
Qed.

Lemma rewrite_src_correct_witness :
  ∃ p' ihl, rewrite_src sample_packet 0xc0a8010a 30001 = Ok p' ∧
    rewritten 12 0 sample_packet p' ihl PROTO_UDP 0xc0a8010a 30001 ∧ parse_flow p' = Ok (PROTO_UDP, 0xc0a8010a, 30001).
Proof.
  apply (rewrite_src_correct sample_packet PROTO_UDP 0x0a4d0002 12345);
    [exact sample_packet_wf|vm_compute; reflexivity|by vm_compute|by vm_compute].
Defined.
