(* ===== verification/Conntrack.v ===== *)
(** * Connection tables

    What the IPv4 and the IPv6 translator have in common: a map from flows to
    entries, a reverse map from protocol and external port to the flow, and
    the set of ports in use.  The translators differ in the type of their keys
    and entries; this file has the invariant and its preservation for any. *)

From S2P Require Import Prelude.

Section Table.
Context {K E : Type} `{Countable K}.
(** The external port and the protocol of an entry, and that an entry belongs
    to a key. *)
Context (port proto : E → Z) (belongs : K → E → Prop).
Implicit Types (fwd : gmap K E) (rev : gmap (Z * Z) K) (used : gset Z).

Record flows_ok fwd rev used : Prop := {
  fl_entry : ∀ k e, fwd !! k = Some e → belongs k e ∧ port e ∈ used;
  fl_reverse : ∀ k p x, rev !! (p, x) = Some k ↔ ∃ e, fwd !! k = Some e ∧ proto e = p ∧ port e = x;
  fl_unique : ∀ k k' e e', fwd !! k = Some e → fwd !! k' = Some e' → port e = port e' → k = k';
  fl_no_leak : ∀ x, x ∈ used → ∃ k e, fwd !! k = Some e ∧ port e = x;
}.

Lemma flows_ok_empty : flows_ok ∅ ∅ ∅.
Proof.
  split; try (intros; by rewrite lookup_empty in *); [|set_solver].
  intros k p x. rewrite lookup_empty. split; [done|]. intros (e & He & _). by rewrite lookup_empty in He.
Qed.

(** An entry is replaced by one with the same port and protocol. *)
Lemma flows_ok_touch fwd rev used k e e' :
  flows_ok fwd rev used → fwd !! k = Some e → port e' = port e → proto e' = proto e → belongs k e' →
  flows_ok (<[k := e']> fwd) rev used.
Proof.
  intros [He Hr Hu Hl] Hk Hport Hproto Hbel.
  assert (Hlook : ∀ k1 e1, <[k := e']> fwd !! k1 = Some e1 →
    ∃ e0, fwd !! k1 = Some e0 ∧ proto e1 = proto e0 ∧ port e1 = port e0 ∧ belongs k1 e1).
  { intros k1 e1 [[<- <-]|[? H1]]%lookup_insert_Some; [by exists e|]. exists e1. split_and!; try done. by apply He. }
  assert (Hback : ∀ k1 e0, fwd !! k1 = Some e0 → ∃ e1, <[k := e']> fwd !! k1 = Some e1 ∧ proto e1 = proto e0 ∧ port e1 = port e0).
  { intros k1 e0 H0. destruct (decide (k = k1)) as [<-|]; [exists e'; rewrite lookup_insert_eq; by simplify_eq|].
    exists e0. by rewrite lookup_insert_ne. }
  split.
  - intros k1 e1 (e0 & H0 & _ & -> & ?)%Hlook. split; [done|]. by eapply He.
  - intros k1 p x. rewrite Hr. split.
    + intros (e0 & H0 & Hp & Hx). destruct (Hback _ _ H0) as (e1 & ? & ? & ?). exists e1. split_and!; congruence.
    + intros (e1 & (e0 & H0 & Hp & Hx & _)%Hlook & ? & ?). exists e0. split_and!; congruence.
  - intros k1 k2 e1 e2 (f1 & H1 & _ & Hx1 & _)%Hlook (f2 & H2 & _ & Hx2 & _)%Hlook Heq. eapply Hu; [exact H1|exact H2|congruence].
  - intros x (k1 & e0 & H0 & Hx)%Hl. destruct (Hback _ _ H0) as (e1 & ? & ? & ?). exists k1, e1. split; congruence.
Qed.

(** A new flow under a port that was free. *)
Lemma flows_ok_insert fwd rev used k e :
  flows_ok fwd rev used → fwd !! k = None → port e ∉ used → belongs k e →
  flows_ok (<[k := e]> fwd) (<[(proto e, port e) := k]> rev) ({[port e]} ∪ used).
Proof.
  intros [He Hr Hu Hl] Hk Hfresh Hbel.
  assert (Hnew : ∀ k' e', fwd !! k' = Some e' → port e' ≠ port e).
  { intros k' e' H' Heq. apply Hfresh. rewrite <- Heq. by eapply He. }
  split.
  - intros k' e' [[<- <-]|[Hne H']]%lookup_insert_Some; [set_solver|]. apply He in H' as [? ?]. set_solver.
  - intros k' p x. rewrite lookup_insert_Some. split.
    + intros [[[= <- <-] <-]|[Hne H']].
      * exists e. rewrite lookup_insert_eq. by split_and!.
      * apply Hr in H' as (e' & H' & <- & <-). exists e'. rewrite lookup_insert_ne by congruence. done.
    + intros (e' & [[<- <-]|[Hne H']]%lookup_insert_Some & <- & <-); [by left|]. right.
      split; [|by apply Hr; eauto]. intros [= _ Hx]. by apply (Hnew _ _ H').
  - intros k1 k2 e1 e2 [[<- <-]|[? H1]]%lookup_insert_Some [[<- <-]|[? H2]]%lookup_insert_Some Heq; try done.
    + by destruct (Hnew _ _ H2).
    + by destruct (Hnew _ _ H1).
    + by eapply Hu.
  - intros x [->%elem_of_singleton|Hx]%elem_of_union.
    + exists k, e. by rewrite lookup_insert_eq.
    + apply Hl in Hx as (k' & e' & H' & Hx). exists k', e'. by rewrite lookup_insert_ne by congruence.
Qed.

(** A flow ends. *)
Lemma flows_ok_delete fwd rev used k e :
  flows_ok fwd rev used → fwd !! k = Some e →
  flows_ok (delete k fwd) (delete (proto e, port e) rev) (used ∖ {[port e]}).
Proof.
  intros [He Hr Hu Hl] Hk. split.
  - intros k' e' [Hne H']%lookup_delete_Some. destruct (He _ _ H') as [? ?]. split; [done|].
    apply elem_of_difference. split; [done|]. intros Hx%elem_of_singleton. apply Hne. by eapply Hu.
  - intros k' p x. rewrite lookup_delete_Some, Hr. split.
    + intros [Hne (e' & H' & <- & <-)]. exists e'. split_and!; try done. rewrite lookup_delete_Some. split; [|done].
      intros <-. simplify_eq.
    + intros (e' & [Hne H']%lookup_delete_Some & <- & <-). split; [|eauto]. intros [= _ Hx]. apply Hne. by eapply Hu.
  - intros k1 k2 e1 e2 [? H1]%lookup_delete_Some [? H2]%lookup_delete_Some. by apply Hu.
  - intros x [Hx Hne]%elem_of_difference. apply Hl in Hx as (k' & e' & H' & Hx). exists k', e'. split; [|done].
    rewrite lookup_delete_Some. split; [|done]. intros <-. simplify_eq. set_solver.
Qed.

(** The ports in use are those of the flows, one each. *)
Lemma flows_ok_size fwd rev used : flows_ok fwd rev used → size used = size fwd.
Proof.
  intros [He _ Hu Hl].
  assert (Heq : used = list_to_set (map (λ ke, port ke.2) (map_to_list fwd))).
  { apply set_eq. intros x. rewrite elem_of_list_to_set, list_elem_of_fmap. split.
    - intros (k & e & Hk & Hx)%Hl. exists (k, e). split; [done|]. by apply elem_of_map_to_list.
    - intros ([k e] & -> & Hk%elem_of_map_to_list). by destruct (He _ _ Hk). }
  rewrite Heq, size_list_to_set.
  - rewrite length_map. apply length_map_to_list.
  - apply NoDup_fmap_2_strong; [|apply NoDup_map_to_list]. intros [k1 e1] [k2 e2] H1 H2 Hx.
    apply elem_of_map_to_list in H1, H2. cbn in Hx. pose proof (Hu _ _ _ _ H1 H2 Hx) as <-. by simplify_eq.
Qed.

(** The reverse lookup finds the flow that holds the port. *)
Lemma flows_ok_lookup fwd rev used k e :
  flows_ok fwd rev used → fwd !! k = Some e → rev !! (proto e, port e) = Some k.
Proof. intros Hok Hk. apply (fl_reverse _ _ _ Hok). eauto. Qed.
End Table.

(** ** Expiry: the keys whose entry satisfies a test, in the order of iteration *)
Definition expired_keys {K E} `{Countable K} (dead : E → bool) (m : gmap K E) : list K :=
  map fst (List.filter (λ '(_, e), dead e) (map_to_list m)).

Lemma elem_of_expired_keys {K E} `{Countable K} (dead : E → bool) (m : gmap K E) k :
  k ∈ expired_keys dead m ↔ ∃ e, m !! k = Some e ∧ dead e = true.
Proof.
  unfold expired_keys. rewrite list_elem_of_fmap. split.
  - intros ([k1 e] & -> & Hin). apply list_elem_of_In, filter_In in Hin as [Hin Hd].
    apply list_elem_of_In, elem_of_map_to_list in Hin. eauto.
  - intros (e & He & Hd). exists (k, e). split; [done|]. apply list_elem_of_In, filter_In.
    split; [by apply list_elem_of_In, elem_of_map_to_list|done].
Qed.

Lemma NoDup_expired_keys {K E} `{Countable K} (dead : E → bool) (m : gmap K E) : NoDup (expired_keys dead m).
Proof.
  unfold expired_keys. pose proof (NoDup_fst_map_to_list m) as Hnd. revert Hnd.
  generalize (map_to_list m). intros l. induction l as [|[k1 e1] l IH]; [constructor|].
  cbn [fmap list_fmap fst List.filter map]. intros [Hni Hnd]%NoDup_cons. destruct (dead e1); [|auto].
  cbn [map fst]. constructor; [|auto]. intros Hin. apply Hni. apply list_elem_of_fmap in Hin as ([k2 e2] & -> & Hin).
  apply list_elem_of_In, filter_In in Hin as [Hin _]. apply list_elem_of_fmap. exists (k2, e2). split; [done|].
  by apply list_elem_of_In.
Qed.
