(* ===== verification/Gateway.v ===== *)
(** * The NAT engine (crates/pim-gateway/src/engine.rs)

    The connection table, the pool of external ports and the two directions
    of translation.  Every method locks one mutex for its whole body, so a
    method is one step on [Inner]; [now] is its [Instant::now()]. *)

From S2P Require Import Prelude Packet Conntrack.

Record ConntrackKey := { ck_proto : Z; ck_orig_src : Z; ck_orig_port : Z }.
#[export] Instance ConntrackKey_eq_dec : EqDecision ConntrackKey.
Proof. solve_decision. Defined.
#[export] Instance ConntrackKey_countable : Countable ConntrackKey.
Proof.
  refine (inj_countable' (λ k, (ck_proto k, ck_orig_src k, ck_orig_port k))
    (λ '(p, s, o), {| ck_proto := p; ck_orig_src := s; ck_orig_port := o |}) _). by intros [].
Defined.

Record ConntrackEntry := {
  ce_ext_port : Z;
  ce_last_seen : Z;
  ce_orig_src : Z;
  ce_orig_port : Z;
  ce_proto : Z;
}.

(** Seconds. *)
Definition idle_timeout (e : ConntrackEntry) : Z :=
  if ce_proto e =? PROTO_TCP then 300
  else if ce_proto e =? PROTO_UDP then 30
  else if ce_proto e =? PROTO_ICMP then 10 else 30.

Definition ConntrackEntry_is_expired (e : ConntrackEntry) (now : Z) : bool :=
  idle_timeout e <? elapsed now (ce_last_seen e).

Definition touch_entry (now : Z) (e : ConntrackEntry) : ConntrackEntry :=
  {| ce_ext_port := ce_ext_port e; ce_last_seen := now; ce_orig_src := ce_orig_src e;
     ce_orig_port := ce_orig_port e; ce_proto := ce_proto e |}.

(** ** The port pool *)
Definition PORT_MIN : Z := 30000.
Definition PORT_MAX : Z := 59999.

Record PortPool := { pool_next : Z; in_use : gset Z }.
Definition PortPool_new : PortPool := {| pool_next := PORT_MIN; in_use := ∅ |}.

Definition advance_port (n : Z) : Z := if PORT_MAX <=? n then PORT_MIN else n + 1.

(** The [loop] of [allocate]: [None] is out of fuel, which 30000 turns never
    are ([allocate_terminates]). *)
Fixpoint allocate_loop (fuel : nat) (start : Z) (p : PortPool) : option (option Z * PortPool) :=
  match fuel with
  | O => None
  | S fuel =>
    let port := pool_next p in
    let p := {| pool_next := advance_port port; in_use := in_use p |} in
    if negb (bool_decide (port ∈ in_use p)) then
      Some (Some port, {| pool_next := pool_next p; in_use := {[port]} ∪ in_use p |})
    else if pool_next p =? start then Some (None, p)
    else allocate_loop fuel start p
  end.

Definition pool_size : nat := Z.to_nat (PORT_MAX - PORT_MIN + 1).
Definition allocate (p : PortPool) : option (option Z * PortPool) := allocate_loop pool_size (pool_next p) p.

Definition release (port : Z) (p : PortPool) : PortPool :=
  {| pool_next := pool_next p; in_use := in_use p ∖ {[port]} |}.

(** ** The engine *)
Record Inner := {
  forward : gmap ConntrackKey ConntrackEntry;
  reverse : gmap (Z * Z) ConntrackKey;
  ports : PortPool;
}.
Record GatewayEngine := { external_ip : Z; inner : Inner }.

Definition Inner_new : Inner := {| forward := ∅; reverse := ∅; ports := PortPool_new |}.
Definition GatewayEngine_new (ip : Z) : GatewayEngine := {| external_ip := ip; inner := Inner_new |}.

Definition set_forward (m : gmap ConntrackKey ConntrackEntry) (i : Inner) : Inner :=
  {| forward := m; reverse := reverse i; ports := ports i |}.

(** Look up or create the conntrack entry of a flow. *)
Definition conntrack_port (now : Z) (key : ConntrackKey) (i : Inner) : option (outcome GatewayError Z * Inner) :=
  match forward i !! key with
  | Some entry => Some (Ok (ce_ext_port entry), set_forward (<[key := touch_entry now entry]> (forward i)) i)
  | None =>
    match allocate (ports i) with
    | None => None
    | Some (None, p) => Some (Err ConntrackFull, {| forward := forward i; reverse := reverse i; ports := p |})
    | Some (Some ext_port, p) =>
      let entry := {| ce_ext_port := ext_port; ce_last_seen := now; ce_orig_src := ck_orig_src key;
                      ce_orig_port := ck_orig_port key; ce_proto := ck_proto key |} in
      Some (Ok ext_port,
        {| forward := <[key := entry]> (forward i); reverse := <[(ck_proto key, ext_port) := key]> (reverse i);
           ports := p |})
    end
  end.

(** The result: the external port and the packet, which is rewritten in place.
    The outer [None] is the divergence of [allocate]. *)
Definition translate_outbound (now : Z) (packet : list Z) (g : GatewayEngine)
  : option (outcome GatewayError (Z * list Z) * GatewayEngine) :=
  match parse_flow packet with
  | Err e => Some (Err e, g)
  | Panic => Some (Panic, g)
  | Ok (proto, src_ip, src_port) =>
    let key := {| ck_proto := proto; ck_orig_src := src_ip; ck_orig_port := src_port |} in
    match conntrack_port now key (inner g) with
    | None => None
    | Some (res, i) =>
      let g := {| external_ip := external_ip g; inner := i |} in
      Some (let? ext_port := res in
            let? packet := rewrite_src packet (external_ip g) ext_port in
            Ok (ext_port, packet), g)
    end
  end.

Definition translate_inbound (now : Z) (packet : list Z) (g : GatewayEngine)
  : outcome GatewayError (Z * list Z) * GatewayEngine :=
  match (let? proto := ip_protocol packet in let? dst_port := transport_dst_port packet proto in Ok (proto, dst_port)) with
  | Err e => (Err e, g)
  | Panic => (Panic, g)
  | Ok (proto, dst_port) =>
    match reverse (inner g) !! (proto, dst_port) with
    | None => (Err (NoConntrackEntry proto dst_port), g)
    | Some key =>
      match forward (inner g) !! key with
      | None => (Err (NoConntrackEntry proto dst_port), g)
      | Some entry =>
        let i := set_forward (<[key := touch_entry now entry]> (forward (inner g))) (inner g) in
        let g := {| external_ip := external_ip g; inner := i |} in
        (let? packet := rewrite_dst packet (ce_orig_src entry) (ce_orig_port entry) in
         Ok (ce_orig_src entry, packet), g)
      end
    end
  end.

(** One turn of the [for key in expired] loop. *)
Definition expire_key (i : Inner) (key : ConntrackKey) : Inner :=
  match forward i !! key with
  | Some entry =>
    {| forward := delete key (forward i); reverse := delete (ce_proto entry, ce_ext_port entry) (reverse i);
       ports := release (ce_ext_port entry) (ports i) |}
  | None => i
  end.

(** The order of the expired keys cannot be observed. *)
Definition cleanup_expired (now : Z) (g : GatewayEngine) : GatewayEngine :=
  let expired := expired_keys (λ e, ConntrackEntry_is_expired e now) (forward (inner g)) in
  {| external_ip := external_ip g; inner := fold_left expire_key expired (inner g) |}.

Definition conntrack_size (g : GatewayEngine) : nat := size (forward (inner g)).

(** ** The invariant *)
Record conntrack_ok (i : Inner) : Prop := {
  co_next : PORT_MIN ≤ pool_next (ports i) ≤ PORT_MAX;
  co_entry : ∀ k e, forward i !! k = Some e →
    ce_proto e = ck_proto k ∧ ce_orig_src e = ck_orig_src k ∧ ce_orig_port e = ck_orig_port k ∧
    ce_ext_port e ∈ in_use (ports i) ∧ PORT_MIN ≤ ce_ext_port e ≤ PORT_MAX;
  co_reverse : ∀ k p x, reverse i !! (p, x) = Some k ↔
    ∃ e, forward i !! k = Some e ∧ ce_proto e = p ∧ ce_ext_port e = x;
  co_unique : ∀ k k' e e', forward i !! k = Some e → forward i !! k' = Some e' → ce_ext_port e = ce_ext_port e' → k = k';
  co_no_leak : ∀ x, x ∈ in_use (ports i) → ∃ k e, forward i !! k = Some e ∧ ce_ext_port e = x;
}.

(** ** Lemmas: allocation *)

(** Turns left before the loop is back at [start], and how many turns from
    [n] until port [x] is tried. *)
Definition turns_left (n start : Z) : Z := if n <? start then start - n else start - n + 30000.
Definition turns_to (n x : Z) : Z := if n <=? x then x - n else x - n + 30000.

Definition pool_range (n : Z) : Prop := PORT_MIN ≤ n ≤ PORT_MAX.

Lemma advance_port_range n : pool_range n → pool_range (advance_port n).
Proof. unfold pool_range, advance_port, PORT_MIN, PORT_MAX. intros. destruct (Z.leb_spec 59999 n); lia. Qed.

Lemma advance_port_turns n start :
  pool_range n → pool_range start → advance_port n ≠ start →
  turns_left (advance_port n) start = turns_left n start - 1.
Proof.
  unfold pool_range, advance_port, turns_left, PORT_MIN, PORT_MAX. intros Hn Hs Hne.
  destruct (Z.leb_spec 59999 n); repeat match goal with |- context [?a <? ?b] => destruct (Z.ltb_spec a b) end; lia.
Qed.

Lemma advance_port_last n start x :
  pool_range n → pool_range x → advance_port n = start → turns_to n x < turns_left n start → x = n.
Proof.
  unfold pool_range, advance_port, turns_left, turns_to, PORT_MIN, PORT_MAX. intros Hn Hx He.
  destruct (Z.leb_spec 59999 n); destruct (Z.ltb_spec n start); destruct (Z.leb_spec n x); lia.
Qed.

Lemma advance_port_turns_to n x :
  pool_range n → pool_range x → x ≠ n → turns_to (advance_port n) x = turns_to n x - 1.
Proof.
  unfold pool_range, advance_port, turns_to, PORT_MIN, PORT_MAX. intros Hn Hx Hne.
  destruct (Z.leb_spec 59999 n); repeat match goal with |- context [?a <=? ?b] => destruct (Z.leb_spec a b) end; lia.
Qed.

Lemma allocate_loop_spec fuel start p :
  pool_range (pool_next p) → pool_range start → turns_left (pool_next p) start ≤ Z.of_nat fuel →
  ∃ r p', allocate_loop fuel start p = Some (r, p') ∧ pool_range (pool_next p') ∧
    match r with
    | Some port => pool_range port ∧ port ∉ in_use p ∧ in_use p' = {[port]} ∪ in_use p
    | None => in_use p' = in_use p ∧
        ∀ x, pool_range x → turns_to (pool_next p) x < turns_left (pool_next p) start → x ∈ in_use p
    end.
Proof.
  revert p. induction fuel as [|fuel IH]; intros p Hn Hs Hf.
  { unfold pool_range, turns_left, PORT_MIN, PORT_MAX in *. destruct (Z.ltb_spec (pool_next p) start); lia. }
  cbn [allocate_loop pool_next in_use]. case_bool_decide as Hin; cbn [negb].
  - destruct (Z.eqb_spec (advance_port (pool_next p)) start) as [He|He].
    + exists None, {| pool_next := advance_port (pool_next p); in_use := in_use p |}. cbn [pool_next in_use].
      split_and!; try done; [by apply advance_port_range|]. intros x Hx Ht.
      by rewrite (advance_port_last _ _ _ Hn Hx He Ht).
    + destruct (IH {| pool_next := advance_port (pool_next p); in_use := in_use p |}) as (r & p' & Hr & Hp' & Hres);
        cbn [pool_next in_use] in *; [by apply advance_port_range|done|rewrite advance_port_turns by done; lia|].
      exists r, p'. split_and!; try done. destruct r as [port|]; [done|]. destruct Hres as [Hi Hall]. split; [done|].
      intros x Hx Ht. destruct (decide (x = pool_next p)) as [->|Hne]; [done|]. apply Hall; [done|].
      rewrite advance_port_turns_to, advance_port_turns by done. lia.
  - eexists (Some _), _. split; [done|]. cbn [pool_next in_use]. split_and!; try done. by apply advance_port_range.
Qed.

Lemma turns_full n : turns_left n n = 30000.
Proof. unfold turns_left. rewrite Z.ltb_irrefl. lia. Qed.

Lemma turns_to_bound n x : pool_range n → pool_range x → turns_to n x < 30000.
Proof. unfold pool_range, turns_to, PORT_MIN, PORT_MAX. destruct (Z.leb_spec n x); lia. Qed.

Lemma allocate_spec p :
  pool_range (pool_next p) →
  ∃ r p', allocate p = Some (r, p') ∧ pool_range (pool_next p') ∧
    match r with
    | Some port => pool_range port ∧ port ∉ in_use p ∧ in_use p' = {[port]} ∪ in_use p
    | None => in_use p' = in_use p ∧ ∀ x, pool_range x → x ∈ in_use p
    end.
Proof.
  intros Hn. unfold allocate. destruct (allocate_loop_spec pool_size (pool_next p) p Hn Hn) as (r & p' & Hr & Hp' & Hres).
  { rewrite turns_full. unfold pool_size. rewrite Z2Nat.id; done. }
  exists r, p'. split_and!; try done. destruct r as [port|]; [done|]. destruct Hres as [Hi Hall]. split; [done|].
  intros x Hx. apply Hall; [done|]. rewrite turns_full. by apply turns_to_bound.
Qed.

(** ** Lemmas: every operation keeps the invariant *)
(** The flow an entry belongs to. *)
Definition entry_of (k : ConntrackKey) (e : ConntrackEntry) : Prop :=
  ce_proto e = ck_proto k ∧ ce_orig_src e = ck_orig_src k ∧ ce_orig_port e = ck_orig_port k ∧ PORT_MIN ≤ ce_ext_port e ≤ PORT_MAX.

(** The invariant is that of connection tables, with the pool in range. *)
Lemma conntrack_ok_flows i :
  conntrack_ok i ↔ pool_range (pool_next (ports i)) ∧
    flows_ok ce_ext_port ce_proto entry_of (forward i) (reverse i) (in_use (ports i)).
Proof.
  split.
  - intros [Hn He Hr Hu Hl]. split; [done|]. split; try done. intros k e Hk. unfold entry_of.
    by destruct (He _ _ Hk) as (? & ? & ? & ? & ?).
  - intros [Hn [He Hr Hu Hl]]. split; try done. intros k e Hk. destruct (He _ _ Hk) as [(? & ? & ? & ?) ?]. tauto.
Qed.

Lemma conntrack_ok_new : conntrack_ok Inner_new.
Proof.
  apply conntrack_ok_flows. split; [by vm_compute|]. exact (flows_ok_empty _ _ _).
Qed.

(** Refreshing an entry. *)
Lemma touch_ok now k e i :
  conntrack_ok i → forward i !! k = Some e → conntrack_ok (set_forward (<[k := touch_entry now e]> (forward i)) i).
Proof.
  rewrite !conntrack_ok_flows. intros [Hn Hf] Hk. split; [done|]. eapply flows_ok_touch; try done.
  by destruct (fl_entry _ _ _ _ _ _ Hf _ _ Hk) as [? _].
Qed.

Lemma conntrack_port_ok now k i :
  conntrack_ok i →
  ∃ res i', conntrack_port now k i = Some (res, i') ∧ conntrack_ok i' ∧
    match res with
    | Ok x => ∃ e, forward i' !! k = Some e ∧ ce_ext_port e = x ∧
                (∀ e0, forward i !! k = Some e0 → ce_ext_port e0 = x)
    | Err e => e = ConntrackFull ∧ forward i' = forward i ∧ ∀ x, pool_range x → x ∈ in_use (ports i)
    | Panic => False
    end.
Proof.
  intros Hok. unfold conntrack_port. destruct (forward i !! k) as [e|] eqn:Hk.
  { eexists _, _. split; [done|]. split; [by apply touch_ok|]. exists (touch_entry now e). cbn.
    rewrite lookup_insert_eq. split_and!; try done. by intros e0 [= <-]. }
  apply conntrack_ok_flows in Hok as [Hn Hf].
  destruct (allocate_spec (ports i) Hn) as (r & p' & -> & Hp' & Hres). destruct r as [port|].
  2:{ destruct Hres as [Hi Hall]. eexists _, _. split; [done|]. split; [|done].
      apply conntrack_ok_flows. cbn [forward reverse ports]. by rewrite Hi. }
  destruct Hres as (Hrange & Hfresh & Hi). eexists _, _. split; [done|]. split.
  - apply conntrack_ok_flows. cbn [forward reverse ports]. split; [done|]. rewrite Hi.
    by apply (flows_ok_insert ce_ext_port ce_proto entry_of _ _ _ k
      {| ce_ext_port := port; ce_last_seen := now; ce_orig_src := ck_orig_src k; ce_orig_port := ck_orig_port k; ce_proto := ck_proto k |}).
  - eexists. cbn [forward]. rewrite lookup_insert_eq. split_and!; done.
Qed.

Lemma expire_key_ok i k : conntrack_ok i → conntrack_ok (expire_key i k).
Proof.
  intros Hok. unfold expire_key. destruct (forward i !! k) as [e|] eqn:Hk; [|done].
  apply conntrack_ok_flows in Hok as [Hn Hf]. apply conntrack_ok_flows. split; [done|]. by apply (flows_ok_delete _ _ entry_of).
Qed.

Lemma expire_keys_ok ks i : conntrack_ok i → conntrack_ok (fold_left expire_key ks i).
Proof. revert i. induction ks; intros i Hi; cbn [fold_left]; [done|]. auto using expire_key_ok. Qed.

Lemma expire_keys_forward ks i k :
  NoDup ks →
  forward (fold_left expire_key ks i) !! k = if bool_decide (k ∈ ks) then None else forward i !! k.
Proof.
  revert i. induction ks as [|k' ks IH]; intros i Hnd; cbn [fold_left]; [done|]. apply NoDup_cons in Hnd as [Hk Hnd].
  rewrite IH by done. assert (Hd : ∀ x, forward (expire_key i k') !! x = delete k' (forward i) !! x).
  { intros x. unfold expire_key. destruct (forward i !! k') eqn:E; [done|]. by rewrite delete_id. }
  rewrite Hd. destruct (decide (k = k')) as [->|Hne].
  - rewrite lookup_delete_eq, (bool_decide_eq_true_2 (k' ∈ k' :: ks)) by set_solver. by case_bool_decide.
  - rewrite lookup_delete_ne by done. repeat case_bool_decide; set_solver.
Qed.

Lemma be_values_ok l : bytes_ok l → 0 ≤ be_value l < 256 ^ Z.of_nat (length l).
Proof. apply be_value_bound. Qed.

Lemma read_u16_ok i p v : bytes_ok p → read_u16 i p = Ok v → u16_ok v.
Proof.
  intros Hb. unfold read_u16. intros (a & Ha & (b & Hb' & [= <-])%obind_Ok_inv)%obind_Ok_inv.
  apply (be_value_bound [a; b]). constructor; [by eapply index_u8_ok|]. constructor; [by eapply index_u8_ok|done].
Qed.

Lemma read_addr_u32 i p v : bytes_ok p → read_addr i p = Ok v → u32_ok v.
Proof.
  intros Hb. unfold read_addr.
  intros (a & ? & (b & ? & (c & ? & (d & ? & [= <-])%obind_Ok_inv)%obind_Ok_inv)%obind_Ok_inv)%obind_Ok_inv.
  apply (be_value_bound [a; b; c; d]). repeat (constructor; [by eapply index_u8_ok|]). constructor.
Qed.

Lemma parse_flow_bounds p proto src port :
  bytes_ok p → parse_flow p = Ok (proto, src, port) → u32_ok src ∧ u16_ok port.
Proof.
  intros Hb. unfold parse_flow. intros (pr & _ & Hpf)%obind_Ok_inv. apply obind_Ok_inv in Hpf as (ihl & _ & Hpf).
  apply obind_Ok_inv in Hpf as (a & Ha & Hpf). apply obind_Ok_inv in Hpf as (pt & Hpt & [= -> -> ->]).
  split; [by eapply read_addr_u32|]. repeat case_match; try done; by eapply read_u16_ok.
Qed.

(** ** Steps of the engine *)

(** A packet of the mesh or of the internet; what the translation returns does
    not matter here, errors included. *)
Inductive traffic_step : GatewayEngine → GatewayEngine → Prop :=
| StepOutbound now p g r g' : translate_outbound now p g = Some (r, g') → traffic_step g g'
| StepInbound now p g : traffic_step g (translate_inbound now p g).2.

Inductive gateway_step : GatewayEngine → GatewayEngine → Prop :=
| StepTraffic g g' : traffic_step g g' → gateway_step g g'
| StepCleanup now g : gateway_step g (cleanup_expired now g).

Definition gateway_reachable (g : GatewayEngine) : Prop := ∃ ip, rtc gateway_step (GatewayEngine_new ip) g.

(** What an entry never changes while traffic flows. *)
Definition same_flow (e e' : ConntrackEntry) : Prop :=
  ce_ext_port e' = ce_ext_port e ∧ ce_orig_src e' = ce_orig_src e ∧ ce_orig_port e' = ce_orig_port e ∧ ce_proto e' = ce_proto e.

Lemma touch_same_flow now k e (m : gmap ConntrackKey ConntrackEntry) k' e' :
  m !! k = Some e → m !! k' = Some e' →
  ∃ e'', <[k := touch_entry now e]> m !! k' = Some e'' ∧ same_flow e' e''.
Proof.
  intros Hk Hk'. destruct (decide (k = k')) as [<-|Hne].
  - exists (touch_entry now e). rewrite lookup_insert_eq. by simplify_eq.
  - exists e'. rewrite lookup_insert_ne by done. done.
Qed.

Lemma traffic_step_ok g g' :
  traffic_step g g' → conntrack_ok (inner g) →
  conntrack_ok (inner g') ∧ external_ip g' = external_ip g ∧
  ∀ k e, forward (inner g) !! k = Some e → ∃ e', forward (inner g') !! k = Some e' ∧ same_flow e e'.
Proof.
  intros Hs Hok. assert (Hid : conntrack_ok (inner g) ∧ external_ip g = external_ip g ∧
    ∀ k e, forward (inner g) !! k = Some e → ∃ e', forward (inner g) !! k = Some e' ∧ same_flow e e').
  { split_and!; [done|done|]. intros k e He. by exists e. }
  destruct Hs as [now p g r g' Ht|now p g].
  - unfold translate_outbound in Ht. destruct (parse_flow p) as [[[proto src] port]| |]; [|by simplify_eq..].
    destruct (conntrack_port_ok now {| ck_proto := proto; ck_orig_src := src; ck_orig_port := port |} _ Hok)
      as (res & i' & Hc & Hok' & Hres). rewrite Hc in Ht. simplify_eq. cbn [inner external_ip]. split_and!; [done|done|].
    intros k e He. unfold conntrack_port in Hc. destruct (forward (inner g) !! _) as [e0|] eqn:E0.
    + simplify_eq. cbn [forward set_forward]. by apply touch_same_flow.
    + destruct (allocate _) as [[[x|] p']|]; simplify_eq; cbn [forward]; [|by exists e].
      exists e. rewrite lookup_insert_ne by congruence. done.
  - unfold translate_inbound. destruct (obind _ _) as [[proto x]| |]; [|done..].
    destruct (reverse (inner g) !! (proto, x)) as [k|]; [|done]. destruct (forward (inner g) !! k) as [e|] eqn:Ek; [|done].
    cbn [snd inner external_ip]. split_and!; [by apply touch_ok|done|]. intros k' e' He'. by apply touch_same_flow.
Qed.

Lemma gateway_step_ok g g' : gateway_step g g' → conntrack_ok (inner g) → conntrack_ok (inner g').
Proof.
  destruct 1 as [g g' Ht|now g]; intros Hok; [by eapply traffic_step_ok|]. by apply expire_keys_ok.
Qed.

Lemma gateway_reachable_ok g : gateway_reachable g → conntrack_ok (inner g).
Proof.
  intros [ip Hr]. assert (H0 : conntrack_ok (inner (GatewayEngine_new ip))) by apply conntrack_ok_new.
  revert H0. induction Hr; eauto using gateway_step_ok.
Qed.

Lemma traffic_keeps_flow g g' k e :
  rtc traffic_step g g' → conntrack_ok (inner g) → forward (inner g) !! k = Some e →
  conntrack_ok (inner g') ∧ ∃ e', forward (inner g') !! k = Some e' ∧ same_flow e e'.
Proof.
  intros Hr. revert e. induction Hr as [g|g1 g2 g3 Hs _ IH]; intros e Hok He; [split; [done|]; by exists e|].
  destruct (traffic_step_ok _ _ Hs Hok) as (Hok2 & _ & Hk). destruct (Hk _ _ He) as (e2 & He2 & Hsame).
  destruct (IH e2 Hok2 He2) as (Hok3 & e3 & He3 & Hsame3). split; [done|]. exists e3. split; [done|].
  unfold same_flow in *. intuition congruence.
Qed.

(** The ports in use are those of the flows, one each. *)
Lemma ports_are_flows i : conntrack_ok i → size (in_use (ports i)) = size (forward i).
Proof. intros [_ Hf]%conntrack_ok_flows. by eapply flows_ok_size. Qed.

(** ** The theorems *)

(** Allocation terminates and is fair: from any state of the pool the loop
    returns within its 30000 turns; it returns a port of the range that was
    free and marks it, and gives up only when all 30000 ports are taken. *)
Theorem allocate_terminates p :
  pool_range (pool_next p) →
  ∃ r p', allocate p = Some (r, p') ∧ pool_range (pool_next p') ∧
    match r with
    | Some port => pool_range port ∧ port ∉ in_use p ∧ in_use p' = {[port]} ∪ in_use p
    | None => in_use p' = in_use p ∧ ∀ x, pool_range x → x ∈ in_use p
    end.
Proof. apply allocate_spec. Qed.

(** C25: The connection table of every reachable gateway is a bijection between
    its flows and the ports in use: forward and reverse maps agree, no two
    flows share an external port, and no port is leaked, so there are as many
    ports in use as flows. *)
Theorem gateway_invariant g :
  gateway_reachable g → conntrack_ok (inner g) ∧ size (in_use (ports (inner g))) = conntrack_size g.
Proof. intros Hok%gateway_reachable_ok. split; [done|]. by apply ports_are_flows. Qed.

(** The entry behind a translated packet. *)
Lemma outbound_flow now p proto src port g x p' g1 :
  gateway_reachable g → parse_flow p = Ok (proto, src, port) → translate_outbound now p g = Some (Ok (x, p'), g1) →
  conntrack_ok (inner g1) ∧
  ∃ e, forward (inner g1) !! {| ck_proto := proto; ck_orig_src := src; ck_orig_port := port |} = Some e ∧ ce_ext_port e = x.
Proof.
  intros Hg%gateway_reachable_ok Hpf Hout. unfold translate_outbound in Hout. rewrite Hpf in Hout.
  destruct (conntrack_port_ok now {| ck_proto := proto; ck_orig_src := src; ck_orig_port := port |} _ Hg) as (res & i' & Hc & Hok' & Hres).
  rewrite Hc in Hout. destruct res as [x0| |]; [|by simplify_eq..]. destruct Hres as (e & He & Hx & _).
  injection Hout as Hout Hg1. apply obind_Ok_inv in Hout as (q & _ & [= <- <-]). subst g1. eauto.
Qed.

(** A reply to the port of a flow that was in the table before some traffic. *)
Lemma inbound_translated now' r proto x g1 g2 k e :
  conntrack_ok (inner g1) → forward (inner g1) !! k = Some e → ck_proto k = proto → ce_ext_port e = x →
  u32_ok (ck_orig_src k) → u16_ok (ck_orig_port k) → rtc traffic_step g1 g2 →
  packet_wf r → ip_protocol r = Ok proto → transport_dst_port r proto = Ok x →
  ∃ r' ihl, (translate_inbound now' r g2).1 = Ok (ck_orig_src k, r') ∧ rewritten 16 2 r r' ihl proto (ck_orig_src k) (ck_orig_port k).
Proof.
  intros Hok1 He1 Hkp Hx Hsrc Hport Htr Hwfr Hpr Hdst.
  destruct (traffic_keeps_flow _ _ _ _ Htr Hok1 He1) as (Hok2 & e2 & He2 & Hsame).
  pose proof (co_entry _ Hok2 _ _ He2) as (Hp2 & Hs2 & Ho2 & _).
  assert (Hrev : reverse (inner g2) !! (proto, x) = Some k).
  { apply (co_reverse _ Hok2). exists e2. split_and!; [done|congruence|]. by rewrite (proj1 Hsame). }
  destruct (dst_port_inv r proto x Hwfr Hpr Hdst) as (hdr & seg & -> & Hok & H9 & Hseg & Hfit).
  destruct Hwfr as (_ & Hlen & _). rewrite length_app in Hlen.
  destruct (rewrite_at_spec 16 2 hdr seg proto (ck_orig_src k) (ck_orig_port k)) as (r' & Hrw & Hr'); try done; [by right|by right|lia|].
  exists r', (length hdr). split; [|done]. unfold translate_inbound. rewrite Hpr. cbn [obind]. rewrite Hdst. cbn [obind].
  rewrite Hrev, He2. cbn [fst]. unfold rewrite_dst. by rewrite Hs2, Ho2, Hrw.
Qed.

(** C6: NAT round trip: after a packet of a flow went out under external port
    [x], and after any further traffic in both directions, a reply to [x]
    under the same protocol comes back rewritten to the flow's own address
    and port, with valid checksums, whatever the reply is. *)
Theorem nat_roundtrip now p proto src port g x p' g1 g2 now' r :
  gateway_reachable g → packet_wf p → parse_flow p = Ok (proto, src, port) →
  translate_outbound now p g = Some (Ok (x, p'), g1) → rtc traffic_step g1 g2 →
  packet_wf r → ip_protocol r = Ok proto → transport_dst_port r proto = Ok x →
  ∃ r' ihl, (translate_inbound now' r g2).1 = Ok (src, r') ∧ rewritten 16 2 r r' ihl proto src port.
Proof.
  intros Hg Hwf Hpf Hout. destruct (parse_flow_bounds p proto src port) as [Hsrc Hport]; [apply Hwf|done|].
  destruct (outbound_flow _ _ _ _ _ _ _ _ _ Hg Hpf Hout) as (Hok1 & e & He & Hx). intros.
  by apply (inbound_translated now' r proto x g1 g2 {| ck_proto := proto; ck_orig_src := src; ck_orig_port := port |} e).
Qed.

Lemma outbound_translated now p proto src port g :
  gateway_reachable g → packet_wf p → parse_flow p = Ok (proto, src, port) → u32_ok (external_ip g) →
  ∃ res g', translate_outbound now p g = Some (res, g') ∧
    match res with
    | Ok (x, p') =>
        pool_range x ∧ parse_flow p' = Ok (proto, external_ip g, x) ∧
        reverse (inner g') !! (proto, x) = Some {| ck_proto := proto; ck_orig_src := src; ck_orig_port := port |}
    | Err e => e = ConntrackFull ∧
        ∀ y, pool_range y → ∃ k e, forward (inner g) !! k = Some e ∧ ce_ext_port e = y
    | Panic => False
    end.
Proof.
  intros Hg Hwf Hpf Hip. apply gateway_reachable_ok in Hg. unfold translate_outbound. rewrite Hpf.
  set (k := {| ck_proto := proto; ck_orig_src := src; ck_orig_port := port |}).
  destruct (conntrack_port_ok now k _ Hg) as (res & i' & -> & Hok' & Hres). eexists _, _. split; [done|].
  destruct res as [x|e|]; cbn [obind external_ip inner].
  - destruct Hres as (e & He & Hx & _). pose proof (co_entry _ Hok' _ _ He) as (Hp & _ & _ & _ & Hr).
    assert (Hxr : u16_ok x) by (unfold u16_ok, PORT_MIN, PORT_MAX in *; lia).
    pose proof (parse_flow_inv p proto src port Hwf Hpf) as (hdr & seg & -> & Hok & H9 & Hseg & Hfit).
    destruct Hwf as (_ & Hlen & _). rewrite length_app in Hlen.
    destruct (rewrite_at_spec 12 0 hdr seg proto (external_ip g) x) as (p' & Hrw & Hr'); try done; [by left|by left|lia|].
    unfold rewrite_src. rewrite Hrw. cbn [obind]. split_and!.
    + unfold pool_range. lia.
    + by eapply rewritten_parses.
    + apply (co_reverse _ Hok'). eauto.
  - destruct Hres as (-> & _ & Hall). split; [done|]. intros y Hy. by apply (co_no_leak _ Hg), Hall.
  - done.
Qed.

(** Outbound translation is total on packets whose flow parses: the packet
    leaves with the external address and a port that no other flow holds, or
    the table is full, which happens only with a flow on each of the 30000
    ports. *)
Theorem translate_outbound_total now p proto src port g :
  gateway_reachable g → packet_wf p → parse_flow p = Ok (proto, src, port) → u32_ok (external_ip g) →
  ∃ res g', translate_outbound now p g = Some (res, g') ∧
    match res with
    | Ok (x, p') =>
        pool_range x ∧ parse_flow p' = Ok (proto, external_ip g, x) ∧
        reverse (inner g') !! (proto, x) = Some {| ck_proto := proto; ck_orig_src := src; ck_orig_port := port |}
    | Err e => e = ConntrackFull ∧
        ∀ y, pool_range y → ∃ k e, forward (inner g) !! k = Some e ∧ ce_ext_port e = y
    | Panic => False
    end.
Proof. apply outbound_translated. Qed.

(** Cleanup removes the expired flows and nothing else, and frees exactly
    their ports. *)
Theorem cleanup_exact now g k x :
  gateway_reachable g →
  forward (inner (cleanup_expired now g)) !! k =
    match forward (inner g) !! k with
    | Some e => if ConntrackEntry_is_expired e now then None else Some e
    | None => None
    end ∧
  (x ∈ in_use (ports (inner (cleanup_expired now g))) ↔
   ∃ k e, forward (inner g) !! k = Some e ∧ ce_ext_port e = x ∧ ConntrackEntry_is_expired e now = false).
Proof.
  intros Hok%gateway_reachable_ok.
  assert (Hf : ∀ k, forward (inner (cleanup_expired now g)) !! k =
    match forward (inner g) !! k with
    | Some e => if ConntrackEntry_is_expired e now then None else Some e | None => None end).
  { intros k0. unfold cleanup_expired. cbn [inner]. rewrite expire_keys_forward.
    - case_bool_decide as Hin; rewrite elem_of_expired_keys in Hin.
      + destruct Hin as (e & -> & ->). done.
      + destruct (forward (inner g) !! k0) as [e|]; [|done]. destruct (ConntrackEntry_is_expired e now) eqn:Hex; [|done].
        destruct Hin. eauto.
    - apply NoDup_expired_keys. }
  split; [apply Hf|]. pose proof (expire_keys_ok (expired_keys (λ e, ConntrackEntry_is_expired e now)
    (forward (inner g))) _ Hok) as Hok'. split.
  - intros (k0 & e0 & Hk0 & Hx)%(co_no_leak _ Hok'). pose proof (Hf k0) as Hfk. unfold cleanup_expired in Hfk. cbn [inner] in Hfk.
    rewrite Hk0 in Hfk. destruct (forward (inner g) !! k0) as [e|] eqn:E; [|done].
    destruct (ConntrackEntry_is_expired e now) eqn:Hex; [done|]. simplify_eq. eauto.
  - intros (k0 & e0 & Hk0 & <- & Hex). specialize (Hf k0). rewrite Hk0, Hex in Hf.
    by destruct (co_entry _ Hok' _ _ Hf) as (_ & _ & _ & ? & _).
Qed.

(** ** A concrete gateway: one flow out, its reply back. *)
Definition sample_gateway : GatewayEngine := GatewayEngine_new 0xc0a8010a.
Definition sample_reply : list Z :=
  [0x45; 0; 0; 28; 0; 0; 0; 0; 64; 17; 0; 0; 1; 1; 1; 1; 192; 168; 1; 10; 0; 53; 0x75; 0x30; 0; 8; 0; 0].
Definition sample_out : outcome GatewayError (Z * list Z) * GatewayEngine :=
  default (Panic, sample_gateway) (translate_outbound 0 sample_packet sample_gateway).

Lemma sample_gateway_reachable : gateway_reachable sample_gateway.
Proof. exists 0xc0a8010a. apply rtc_refl. Qed.

Lemma sample_out_eq : translate_outbound 0 sample_packet sample_gateway = Some sample_out.
Proof. vm_compute. reflexivity. Qed.

Lemma sample_out_reachable : gateway_reachable sample_out.2.
Proof.
  exists 0xc0a8010a. apply rtc_once, StepTraffic, (StepOutbound 0 sample_packet _ sample_out.1). exact sample_out_eq.
Qed.

Lemma sample_reply_wf : packet_wf sample_reply.
Proof.
  split; [by apply (bool_decide_unpack _); vm_compute|]. split; [by vm_compute|]. exists 0x45. split; [done|by vm_compute].
Qed.

Lemma allocate_terminates_witness : ∃ r p', allocate PortPool_new = Some (r, p') ∧ pool_range (pool_next p').
Proof.
  destruct (allocate_terminates PortPool_new) as (r & p' & Ha & Hp & _); [by vm_compute|]. eauto.
Defined.

Lemma gateway_invariant_witness :
  conntrack_ok (inner sample_out.2) ∧ size (in_use (ports (inner sample_out.2))) = 1%nat.
Proof.
  destruct (gateway_invariant sample_out.2 sample_out_reachable) as [Hok Hs]. split; [exact Hok|].
  rewrite Hs. vm_compute. reflexivity.
Defined.

Lemma nat_roundtrip_witness :
  ∃ r' ihl, (translate_inbound 1 sample_reply sample_out.2).1 = Ok (0x0a4d0002, r') ∧
    rewritten 16 2 sample_reply r' ihl PROTO_UDP 0x0a4d0002 12345.
Proof.
  eassert (Hx : sample_out.1 = Ok (30000, _)) by (vm_compute; reflexivity).
  eapply (nat_roundtrip 0 sample_packet PROTO_UDP 0x0a4d0002 12345 sample_gateway 30000);
    [exact sample_gateway_reachable|exact sample_packet_wf|vm_compute; reflexivity
    |rewrite sample_out_eq, (surjective_pairing sample_out), Hx; reflexivity|apply rtc_refl|exact sample_reply_wf
    |vm_compute; reflexivity|vm_compute; reflexivity].
Defined.

Lemma translate_outbound_total_witness :
  ∃ res g', translate_outbound 0 sample_packet sample_gateway = Some (res, g') ∧ res ≠ Panic.
Proof.
  destruct (translate_outbound_total 0 sample_packet PROTO_UDP 0x0a4d0002 12345 sample_gateway)
    as (res & g' & Ht & Hres); [exact sample_gateway_reachable|exact sample_packet_wf|vm_compute; reflexivity|by vm_compute|].
  exists res, g'. split; [exact Ht|]. by destruct res.
Defined.

Lemma cleanup_exact_witness :
  let k := {| ck_proto := PROTO_UDP; ck_orig_src := 0x0a4d0002; ck_orig_port := 12345 |} in
  forward (inner (cleanup_expired 1000000 sample_out.2)) !! k = None.
Proof.
  intros k. destruct (cleanup_exact 1000000 sample_out.2 k 0 sample_out_reachable) as [-> _]. vm_compute. reflexivity.
Defined.
