(* ===== verification/Gateway6.v ===== *)
(** * The IPv6 translator (crates/pim-gateway/src/ipv6.rs)

    NAT66: flows are told apart by the mesh node they come from as well, and a
    reply is addressed to that node.  The transport checksum is computed anew
    over the pseudo-header and the segment.  An address is the integer of its
    sixteen octets.  [ones_complement_sum] and [fold_checksum] are written out
    a second time in this source file; they are those of [Packet]. *)

From S2P Require Import Prelude Core Packet Conntrack Gateway.

Definition PROTO_ICMPV6 : Z := 58.
Definition IPV6_HEADER_LEN : nat := 40.

Record ConntrackKeyV6 := { ck6_src_id : NodeId; ck6_proto : Z; ck6_orig_src : Z; ck6_orig_port : Z }.
#[export] Instance ConntrackKeyV6_eq_dec : EqDecision ConntrackKeyV6.
Proof. solve_decision. Defined.
#[export] Instance ConntrackKeyV6_countable : Countable ConntrackKeyV6.
Proof.
  refine (inj_countable' (λ k, (ck6_src_id k, ck6_proto k, ck6_orig_src k, ck6_orig_port k))
    (λ '(i, p, s, o), {| ck6_src_id := i; ck6_proto := p; ck6_orig_src := s; ck6_orig_port := o |}) _). by intros [].
Defined.

Record ConntrackEntryV6 := {
  ce6_src_id : NodeId;
  ce6_ext_port : Z;
  ce6_last_seen : Z;
  ce6_orig_src : Z;
  ce6_orig_port : Z;
  ce6_proto : Z;
}.

(** Seconds. *)
Definition idle_timeout_v6 (e : ConntrackEntryV6) : Z :=
  if ce6_proto e =? PROTO_TCP then 300
  else if ce6_proto e =? PROTO_UDP then 30
  else if ce6_proto e =? PROTO_ICMPV6 then 10 else 30.
Definition is_expired_v6 (e : ConntrackEntryV6) (now : Z) : bool := idle_timeout_v6 e <? elapsed now (ce6_last_seen e).
Definition touch_entry_v6 (now : Z) (e : ConntrackEntryV6) : ConntrackEntryV6 :=
  {| ce6_src_id := ce6_src_id e; ce6_ext_port := ce6_ext_port e; ce6_last_seen := now; ce6_orig_src := ce6_orig_src e;
     ce6_orig_port := ce6_orig_port e; ce6_proto := ce6_proto e |}.

(** ** The port pool: [for _ in 0..total] *)
Fixpoint allocate_turns_v6 (turns : nat) (p : PortPool) : option Z * PortPool :=
  match turns with
  | O => (None, p)
  | S turns =>
    let port := pool_next p in
    let p := {| pool_next := advance_port port; in_use := in_use p |} in
    if negb (bool_decide (port ∈ in_use p))
    then (Some port, {| pool_next := pool_next p; in_use := {[port]} ∪ in_use p |})
    else allocate_turns_v6 turns p
  end.
Definition allocate_v6 (p : PortPool) : option Z * PortPool := allocate_turns_v6 pool_size p.

(** ** Packets *)
Definition ipv6_next_header (packet : list Z) : outcome GatewayError Z :=
  if bool_decide (length packet < IPV6_HEADER_LEN)%nat then Err (PacketTooShort (length packet)) else
  let? b := index 0 packet in
  if negb (Z.shiftr b 4 =? 6) then Err (CommandFailed "not an IPv6 packet") else index 6 packet.

Definition icmpv6_id (packet : list Z) : outcome GatewayError Z :=
  if bool_decide (length packet < IPV6_HEADER_LEN + 8)%nat then Err (PacketTooShort (length packet))
  else read_u16 44 packet.

(** The port at offset [i], or the ICMPv6 identifier. *)
Definition transport_port_v6 (i : nat) (packet : list Z) (proto : Z) : outcome GatewayError Z :=
  if is_tcp_udp proto then
    if bool_decide (length packet < IPV6_HEADER_LEN + 4)%nat then Err (PacketTooShort (length packet)) else read_u16 i packet
  else if proto =? PROTO_ICMPV6 then icmpv6_id packet
  else Err (UnsupportedProtocol proto).

Definition parse_flow_v6 (packet : list Z) : outcome GatewayError (Z * Z * Z) :=
  let? proto := ipv6_next_header packet in
  let? src := slice 8 24 packet in
  let? src_port := transport_port_v6 40 packet proto in
  Ok (proto, be_value src, src_port).

Definition transport_dst_port_v6 (packet : list Z) (proto : Z) : outcome GatewayError Z := transport_port_v6 42 packet proto.

Definition recalc_transport_checksum_v6 (packet : list Z) (proto : Z) : outcome GatewayError (list Z) :=
  if bool_decide (length packet < IPV6_HEADER_LEN)%nat then Err (PacketTooShort (length packet)) else
  let offset :=
    if proto =? PROTO_TCP then Some (IPV6_HEADER_LEN + 16)%nat
    else if proto =? PROTO_UDP then Some (IPV6_HEADER_LEN + 6)%nat
    else if proto =? PROTO_ICMPV6 then Some (IPV6_HEADER_LEN + 2)%nat else None in
  match offset with
  | None => Err (UnsupportedProtocol proto)
  | Some checksum_offset =>
    if bool_decide (length packet < checksum_offset + 2)%nat then Err (PacketTooShort (length packet)) else
    let? packet := index_set checksum_offset 0 packet in
    let? packet := index_set (checksum_offset + 1) 0 packet in
    let payload_len := Z.of_nat (length packet - IPV6_HEADER_LEN) in
    let? src := slice 8 24 packet in
    let? dst := slice 24 40 packet in
    let? payload := slice IPV6_HEADER_LEN (length packet) packet in
    let pseudo := src ++ dst ++ be_bytes 4 (as_u32 payload_len) ++ [0; 0; 0; proto] ++ payload in
    let checksum := fold_checksum (ones_complement_sum pseudo) in
    copy_from_slice checksum_offset (checksum_offset + 2) (be_bytes 2 checksum) packet
  end.

(** [rewrite_transport_src] at 40 and [rewrite_transport_dst] at 42. *)
Definition rewrite_transport_v6 (i : nat) (packet : list Z) (proto new_port : Z) : outcome GatewayError (list Z) :=
  if is_tcp_udp proto then
    if bool_decide (length packet < IPV6_HEADER_LEN + 4)%nat then Err (PacketTooShort (length packet))
    else copy_from_slice i (i + 2) (be_bytes 2 new_port) packet
  else if proto =? PROTO_ICMPV6 then
    if bool_decide (length packet < IPV6_HEADER_LEN + 8)%nat then Err (PacketTooShort (length packet))
    else copy_from_slice 44 46 (be_bytes 2 new_port) packet
  else Err (UnsupportedProtocol proto).

(** [rewrite_src_v6] and [rewrite_dst_v6] are the same code at different
    offsets: [addr] is where the address is, [i] where the port is. *)
Definition rewrite_at_v6 (addr i : nat) (packet : list Z) (new_addr new_port : Z) : outcome GatewayError (list Z) :=
  let? proto := ipv6_next_header packet in
  let? packet := copy_from_slice addr (addr + 16) (be_bytes 16 new_addr) packet in
  let? packet := rewrite_transport_v6 i packet proto new_port in
  recalc_transport_checksum_v6 packet proto.
Definition rewrite_src_v6 (packet : list Z) (new_src new_port : Z) : outcome GatewayError (list Z) :=
  rewrite_at_v6 8 40 packet new_src new_port.
Definition rewrite_dst_v6 (packet : list Z) (new_dst new_port : Z) : outcome GatewayError (list Z) :=
  rewrite_at_v6 24 42 packet new_dst new_port.

(** ** The engine *)
Record InnerV6 := {
  forward6 : gmap ConntrackKeyV6 ConntrackEntryV6;
  reverse6 : gmap (Z * Z) ConntrackKeyV6;
  ports6 : PortPool;
}.
Record GatewayEngineV6 := { external_ip6 : Z; inner6 : InnerV6 }.
Definition InnerV6_new : InnerV6 := {| forward6 := ∅; reverse6 := ∅; ports6 := PortPool_new |}.
Definition GatewayEngineV6_new (ip : Z) : GatewayEngineV6 := {| external_ip6 := ip; inner6 := InnerV6_new |}.

Definition set_forward6 (m : gmap ConntrackKeyV6 ConntrackEntryV6) (i : InnerV6) : InnerV6 :=
  {| forward6 := m; reverse6 := reverse6 i; ports6 := ports6 i |}.

Definition conntrack_port_v6 (now : Z) (key : ConntrackKeyV6) (i : InnerV6) : outcome GatewayError Z * InnerV6 :=
  match forward6 i !! key with
  | Some entry => (Ok (ce6_ext_port entry), set_forward6 (<[key := touch_entry_v6 now entry]> (forward6 i)) i)
  | None =>
    match allocate_v6 (ports6 i) with
    | (None, p) => (Err ConntrackFull, {| forward6 := forward6 i; reverse6 := reverse6 i; ports6 := p |})
    | (Some ext_port, p) =>
      let entry := {| ce6_src_id := ck6_src_id key; ce6_ext_port := ext_port; ce6_last_seen := now;
                      ce6_orig_src := ck6_orig_src key; ce6_orig_port := ck6_orig_port key; ce6_proto := ck6_proto key |} in
      (Ok ext_port,
       {| forward6 := <[key := entry]> (forward6 i); reverse6 := <[(ck6_proto key, ext_port) := key]> (reverse6 i); ports6 := p |})
    end
  end.

Definition translate_outbound_v6 (now : Z) (src_id : NodeId) (packet : list Z) (g : GatewayEngineV6)
  : outcome GatewayError (Z * list Z) * GatewayEngineV6 :=
  match parse_flow_v6 packet with
  | Err e => (Err e, g)
  | Panic => (Panic, g)
  | Ok (proto, src_ip, src_port) =>
    let key := {| ck6_src_id := src_id; ck6_proto := proto; ck6_orig_src := src_ip; ck6_orig_port := src_port |} in
    let '(res, i) := conntrack_port_v6 now key (inner6 g) in
    let g := {| external_ip6 := external_ip6 g; inner6 := i |} in
    (let? ext_port := res in
     let? packet := rewrite_src_v6 packet (external_ip6 g) ext_port in
     Ok (ext_port, packet), g)
  end.

Definition translate_inbound_v6 (now : Z) (packet : list Z) (g : GatewayEngineV6)
  : outcome GatewayError (NodeId * list Z) * GatewayEngineV6 :=
  match (let? proto := ipv6_next_header packet in let? dst_port := transport_dst_port_v6 packet proto in Ok (proto, dst_port)) with
  | Err e => (Err e, g)
  | Panic => (Panic, g)
  | Ok (proto, dst_port) =>
    match reverse6 (inner6 g) !! (proto, dst_port) with
    | None => (Err (NoConntrackEntry proto dst_port), g)
    | Some key =>
      match forward6 (inner6 g) !! key with
      | None => (Err (NoConntrackEntry proto dst_port), g)
      | Some entry =>
        let i := set_forward6 (<[key := touch_entry_v6 now entry]> (forward6 (inner6 g))) (inner6 g) in
        let g := {| external_ip6 := external_ip6 g; inner6 := i |} in
        (let? packet := rewrite_dst_v6 packet (ce6_orig_src entry) (ce6_orig_port entry) in
         Ok (ce6_src_id entry, packet), g)
      end
    end
  end.

Definition expire_key_v6 (i : InnerV6) (key : ConntrackKeyV6) : InnerV6 :=
  match forward6 i !! key with
  | Some entry =>
    {| forward6 := delete key (forward6 i); reverse6 := delete (ce6_proto entry, ce6_ext_port entry) (reverse6 i);
       ports6 := release (ce6_ext_port entry) (ports6 i) |}
  | None => i
  end.
Definition cleanup_expired_v6 (now : Z) (g : GatewayEngineV6) : GatewayEngineV6 :=
  let expired := expired_keys (λ e, is_expired_v6 e now) (forward6 (inner6 g)) in
  {| external_ip6 := external_ip6 g; inner6 := fold_left expire_key_v6 expired (inner6 g) |}.
Definition conntrack_size_v6 (g : GatewayEngineV6) : nat := size (forward6 (inner6 g)).

(** ** Lemmas: allocation *)
Lemma allocate_turns_v6_spec turns p :
  pool_range (pool_next p) →
  let '(r, p') := allocate_turns_v6 turns p in
  pool_range (pool_next p') ∧
  match r with
  | Some port => pool_range port ∧ port ∉ in_use p ∧ in_use p' = {[port]} ∪ in_use p
  | None => in_use p' = in_use p ∧ ∀ x, pool_range x → turns_to (pool_next p) x < Z.of_nat turns → x ∈ in_use p
  end.
Proof.
  revert p. induction turns as [|turns IH]; intros p Hn; cbn [allocate_turns_v6].
  { split_and!; try done. unfold turns_to, pool_range, PORT_MIN, PORT_MAX in *. intros x ? ?.
    destruct (Z.leb_spec (pool_next p) x); lia. }
  cbn [in_use pool_next]. case_bool_decide as Hin; cbn [negb].
  2:{ split; [by apply advance_port_range|]. split_and!; try done. }
  specialize (IH {| pool_next := advance_port (pool_next p); in_use := in_use p |} (advance_port_range _ Hn)).
  destruct (allocate_turns_v6 turns _) as [r p']. cbn [pool_next in_use] in IH. destruct IH as [Hp' Hr]. split; [done|].
  destruct r as [port|]; [done|]. destruct Hr as [Hi Hall]. split; [done|]. intros x Hx Ht.
  destruct (decide (x = pool_next p)) as [->|Hne]; [done|]. apply Hall; [done|]. rewrite advance_port_turns_to by done. lia.
Qed.

Lemma allocate_v6_spec p :
  pool_range (pool_next p) →
  let '(r, p') := allocate_v6 p in
  pool_range (pool_next p') ∧
  match r with
  | Some port => pool_range port ∧ port ∉ in_use p ∧ in_use p' = {[port]} ∪ in_use p
  | None => in_use p' = in_use p ∧ ∀ x, pool_range x → x ∈ in_use p
  end.
Proof.
  intros Hn. unfold allocate_v6. pose proof (allocate_turns_v6_spec pool_size p Hn) as H.
  destruct (allocate_turns_v6 pool_size p) as [[port|] p']; [done|]. destruct H as (Hp & Hi & Hall). split_and!; try done.
  intros x Hx. apply Hall; [done|]. unfold pool_size. rewrite Z2Nat.id by done. by apply turns_to_bound.
Qed.

(** ** The invariant *)
Definition entry_of_v6 (k : ConntrackKeyV6) (e : ConntrackEntryV6) : Prop :=
  ce6_src_id e = ck6_src_id k ∧ ce6_proto e = ck6_proto k ∧ ce6_orig_src e = ck6_orig_src k ∧
  ce6_orig_port e = ck6_orig_port k ∧ pool_range (ce6_ext_port e).

Definition conntrack6_ok (i : InnerV6) : Prop :=
  pool_range (pool_next (ports6 i)) ∧
  flows_ok ce6_ext_port ce6_proto entry_of_v6 (forward6 i) (reverse6 i) (in_use (ports6 i)).

Lemma touch6_ok now k e i :
  conntrack6_ok i → forward6 i !! k = Some e → conntrack6_ok (set_forward6 (<[k := touch_entry_v6 now e]> (forward6 i)) i).
Proof.
  intros [Hn Hf] Hk. split; [done|]. eapply flows_ok_touch; try done. by destruct (fl_entry _ _ _ _ _ _ Hf _ _ Hk) as [? _].
Qed.

Lemma conntrack_port_v6_ok now k i :
  conntrack6_ok i →
  let '(res, i') := conntrack_port_v6 now k i in
  conntrack6_ok i' ∧ (∀ k' e, forward6 i !! k' = Some e → ∃ e', forward6 i' !! k' = Some e' ∧ ce6_ext_port e' = ce6_ext_port e) ∧
  match res with
  | Ok x => ∃ e, forward6 i' !! k = Some e ∧ ce6_ext_port e = x
  | Err e => e = ConntrackFull ∧ forward6 i' = forward6 i ∧ ∀ x, pool_range x → x ∈ in_use (ports6 i)
  | Panic => False
  end.
Proof.
  intros Hok. unfold conntrack_port_v6. destruct (forward6 i !! k) as [e|] eqn:Hk.
  { split; [by apply touch6_ok|]. cbn [set_forward6 forward6]. split.
    - intros k' e' Hk'. destruct (decide (k = k')) as [<-|]; [exists (touch_entry_v6 now e)|exists e'].
      + rewrite lookup_insert_eq. by simplify_eq.
      + by rewrite lookup_insert_ne.
    - exists (touch_entry_v6 now e). by rewrite lookup_insert_eq. }
  destruct Hok as [Hn Hf]. pose proof (allocate_v6_spec (ports6 i) Hn) as Ha.
  destruct (allocate_v6 (ports6 i)) as [[port|] p']; destruct Ha as [Hp' Hres].
  - destruct Hres as (Hrange & Hfresh & Hi). split; [|split].
    + split; [done|]. cbn [forward6 reverse6 ports6]. rewrite Hi.
      by apply (flows_ok_insert ce6_ext_port ce6_proto entry_of_v6 _ _ _ k {| ce6_src_id := ck6_src_id k; ce6_ext_port := port;
        ce6_last_seen := now; ce6_orig_src := ck6_orig_src k; ce6_orig_port := ck6_orig_port k; ce6_proto := ck6_proto k |}).
    + intros k' e' Hk'. exists e'. cbn [forward6]. rewrite lookup_insert_ne by congruence. done.
    + eexists. cbn [forward6]. by rewrite lookup_insert_eq.
  - destruct Hres as [Hi Hall]. split; [|split; [eauto|done]]. split; [done|]. cbn [forward6 reverse6 ports6]. by rewrite Hi.
Qed.

Lemma expire_key_v6_ok i k : conntrack6_ok i → conntrack6_ok (expire_key_v6 i k).
Proof.
  intros [Hn Hf]. unfold expire_key_v6. destruct (forward6 i !! k) as [e|] eqn:Hk; [|done]. split; [done|].
  by apply (flows_ok_delete _ _ entry_of_v6).
Qed.

Lemma expire_keys_v6_ok ks i : conntrack6_ok i → conntrack6_ok (fold_left expire_key_v6 ks i).
Proof. revert i. induction ks; intros i Hi; cbn [fold_left]; [done|]. auto using expire_key_v6_ok. Qed.

(** ** Steps of the engine *)
Inductive traffic6_step : GatewayEngineV6 → GatewayEngineV6 → Prop :=
| Step6Outbound now src_id p g : traffic6_step g (translate_outbound_v6 now src_id p g).2
| Step6Inbound now p g : traffic6_step g (translate_inbound_v6 now p g).2.
Inductive gateway6_step : GatewayEngineV6 → GatewayEngineV6 → Prop :=
| Step6Traffic g g' : traffic6_step g g' → gateway6_step g g'
| Step6Cleanup now g : gateway6_step g (cleanup_expired_v6 now g).
Definition gateway6_reachable (g : GatewayEngineV6) : Prop := ∃ ip, rtc gateway6_step (GatewayEngineV6_new ip) g.

Lemma traffic6_step_ok g g' :
  traffic6_step g g' → conntrack6_ok (inner6 g) →
  conntrack6_ok (inner6 g') ∧
  ∀ k e, forward6 (inner6 g) !! k = Some e → ∃ e', forward6 (inner6 g') !! k = Some e' ∧ ce6_ext_port e' = ce6_ext_port e.
Proof.
  intros [now src_id p g0|now p g0] Hok.
  - unfold translate_outbound_v6. destruct (parse_flow_v6 p) as [[[proto src] port]| |]; [|eauto..].
    pose proof (conntrack_port_v6_ok now {| ck6_src_id := src_id; ck6_proto := proto; ck6_orig_src := src; ck6_orig_port := port |} _ Hok) as H.
    destruct (conntrack_port_v6 _ _ _) as [res i']. cbn [snd inner6]. naive_solver.
  - unfold translate_inbound_v6. destruct (obind _ _) as [[proto x]| |]; [|eauto..].
    destruct (reverse6 (inner6 g0) !! (proto, x)) as [k|]; [|eauto]. destruct (forward6 (inner6 g0) !! k) as [e|] eqn:Ek; [|eauto].
    cbn [snd inner6]. split; [by apply touch6_ok|]. intros k' e' He'. cbn [set_forward6 forward6].
    destruct (decide (k = k')) as [<-|]; [exists (touch_entry_v6 now e)|exists e'].
    + rewrite lookup_insert_eq. by simplify_eq.
    + by rewrite lookup_insert_ne.
Qed.

Lemma gateway6_step_ok g g' : gateway6_step g g' → conntrack6_ok (inner6 g) → conntrack6_ok (inner6 g').
Proof. intros [g1 g2 Ht|now g1] Hok; [by eapply traffic6_step_ok|by apply expire_keys_v6_ok]. Qed.

Lemma gateway6_reachable_ok g : gateway6_reachable g → conntrack6_ok (inner6 g).
Proof.
  intros [ip Hr]. assert (H0 : conntrack6_ok (inner6 (GatewayEngineV6_new ip))) by (split; [done|exact (flows_ok_empty _ _ _)]).
  revert H0. induction Hr; eauto using gateway6_step_ok.
Qed.

Lemma traffic6_keeps_flow g g' k e :
  rtc traffic6_step g g' → conntrack6_ok (inner6 g) → forward6 (inner6 g) !! k = Some e →
  conntrack6_ok (inner6 g') ∧ ∃ e', forward6 (inner6 g') !! k = Some e' ∧ ce6_ext_port e' = ce6_ext_port e.
Proof.
  intros Hr. revert e. induction Hr as [g|g1 g2 g3 Hs _ IH]; intros e Hok He; [eauto|].
  destruct (traffic6_step_ok _ _ Hs Hok) as (Hok2 & Hk). destruct (Hk _ _ He) as (e2 & He2 & Hp).
  destruct (IH e2 Hok2 He2) as (Hok3 & e3 & He3 & Hp3). split; [done|]. exists e3. split; congruence.
Qed.

(** ** Lemmas: packets *)

(** What the transport checksum covers. *)
Definition pseudo6_header (proto : Z) (p : list Z) : list Z :=
  take 16 (drop 8 p) ++ take 16 (drop 24 p) ++ be_bytes 4 (as_u32 (Z.of_nat (length p - 40))) ++ [0; 0; 0; proto].
Definition pseudo6 (proto : Z) (p : list Z) : list Z := pseudo6_header proto p ++ drop 40 p.
Definition cksum_offset6 (proto : Z) : nat :=
  if proto =? PROTO_TCP then 56 else if proto =? PROTO_UDP then 46 else 42.
(** Where the port, or the ICMPv6 identifier, is. *)
Definition port_offset6 (i : nat) (proto : Z) : nat := if is_tcp_udp proto then i else 44.
Definition supported6 (proto : Z) : Prop := proto = PROTO_TCP ∨ proto = PROTO_UDP ∨ proto = PROTO_ICMPV6.
(** Long enough for its ports and its checksum. *)
Definition fits6 (proto : Z) (p : list Z) : Prop := (48 ≤ length p ∧ cksum_offset6 proto + 2 ≤ length p)%nat.
Definition packet6_ok (p : list Z) : Prop := bytes_ok p ∧ Z.of_nat (length p) ≤ 65536.

Lemma length_pseudo6_header proto p : (40 ≤ length p)%nat → length (pseudo6_header proto p) = 40%nat.
Proof. intros Hl. unfold pseudo6_header. rewrite !length_app, !length_take, !length_drop, length_be_bytes. cbn [length]. lia. Qed.

Lemma length_pseudo6 proto p : (40 ≤ length p)%nat → length (pseudo6 proto p) = length p.
Proof. intros Hl. unfold pseudo6. rewrite length_app, length_drop, length_pseudo6_header by done. lia. Qed.

(** Overwriting the segment overwrites the pseudo packet at the same place. *)
Lemma pseudo6_splice proto a src p :
  (40 ≤ a)%nat → (a + length src ≤ length p)%nat → pseudo6 proto (splice a src p) = splice a src (pseudo6 proto p).
Proof.
  intros Ha Hl. assert (Hhead : take 40 (splice a src p) = take 40 p).
  { unfold splice. rewrite take_app_le by (rewrite length_take; lia). by rewrite take_take, Nat.min_l by lia. }
  assert (Htail : drop 40 (splice a src p) = splice (a - 40) src (drop 40 p)).
  { unfold splice. rewrite drop_app_le by (rewrite length_take; lia). rewrite skipn_firstn_comm, drop_drop. do 3 f_equal. lia. }
  assert (Hsub : ∀ i, (i + 16 ≤ 40)%nat → take 16 (drop i (splice a src p)) = take 16 (drop i p)).
  { intros i Hi. rewrite !take_drop_commute. f_equal. replace (i + 16)%nat with (Nat.min (i + 16) 40) by lia.
    by rewrite <- !take_take, Hhead. }
  assert (Hpre : pseudo6_header proto (splice a src p) = pseudo6_header proto p).
  { unfold pseudo6_header. by rewrite !Hsub, length_splice' by lia. }
  unfold pseudo6. rewrite Hpre, Htail.
  replace a with (length (pseudo6_header proto p) + (a - 40))%nat at 2 by (rewrite length_pseudo6_header; lia).
  by rewrite splice_app_r.
Qed.

Lemma pseudo6_bytes_ok proto p : u8_ok proto → bytes_ok p → bytes_ok (pseudo6 proto p).
Proof.
  intros Hp Hb. unfold pseudo6, pseudo6_header. repeat (apply Forall_app; split).
  - by apply Forall_take, Forall_drop.
  - by apply Forall_take, Forall_drop.
  - apply be_bytes_ok.
  - repeat constructor; done || apply Hp.
  - by apply Forall_drop.
Qed.

Lemma cksum_offset6_even proto : ∃ n, cksum_offset6 proto = (n + n)%nat ∧ (20 < n)%nat.
Proof.
  unfold cksum_offset6. destruct (proto =? PROTO_TCP); [exists 28%nat; lia|]. destruct (proto =? PROTO_UDP); [exists 23%nat; lia|exists 21%nat; lia].
Qed.

(** The checksum is overwritten so that the packet verifies. *)
Lemma recalc6_spec proto p :
  supported6 proto → packet6_ok p → fits6 proto p →
  ∃ ck, u16_ok ck ∧ recalc_transport_checksum_v6 p proto = Ok (splice (cksum_offset6 proto) (be_bytes 2 ck) p) ∧
    fold_checksum (ones_complement_sum (pseudo6 proto (splice (cksum_offset6 proto) (be_bytes 2 ck) p))) = 0.
Proof.
  intros Hsup [Hb Hlen] [H48 Hfit]. set (co := cksum_offset6 proto) in *.
  destruct (cksum_offset6_even proto) as (n & Hco & Hn20). fold co in Hco.
  assert (Hp8 : u8_ok proto) by (destruct Hsup as [->|[->| ->]]; by vm_compute).
  set (p0 := splice co (be_bytes 2 0) p).
  assert (Hl0 : length p0 = length p) by (apply length_splice'; rewrite length_be_bytes; lia).
  assert (Hb0 : bytes_ok p0) by (apply splice_bytes_ok; [apply be_bytes_ok|done]).
  pose proof (ones_complement_sum_bound (pseudo6 proto p0) (pseudo6_bytes_ok _ _ Hp8 Hb0)) as Hbound.
  rewrite length_pseudo6 in Hbound by lia. set (sum := ones_complement_sum (pseudo6 proto p0)) in *.
  assert (Hs : u32_ok sum) by (unfold u32_ok; lia).
  exists (fold_checksum sum). split; [by apply fold_checksum_range|]. split.
  - unfold recalc_transport_checksum_v6, IPV6_HEADER_LEN. rewrite bool_decide_eq_false_2 by lia. cbn [Nat.add].
    assert (Hoff : (if proto =? PROTO_TCP then Some 56%nat else if proto =? PROTO_UDP then Some 46%nat
      else if proto =? PROTO_ICMPV6 then Some 42%nat else None) = Some co) by (destruct Hsup as [->|[->| ->]]; done).
    rewrite Hoff, bool_decide_eq_false_2 by lia. pose proof (zero_word co p ltac:(lia)) as Hz. fold p0 in Hz.
    unfold obind in Hz |- *. destruct (index_set co 0 p) as [p1| |]; [|done..].
    destruct (index_set (co + 1) 0 p1) as [p2| |]; [|done..]. injection Hz as ->.
    rewrite !slice_Ok by lia. rewrite (take_ge (drop 40 p0)) by (rewrite length_drop; lia).
    change (24 - 8)%nat with 16%nat. change (40 - 24)%nat with 16%nat.
    match goal with |- context [ones_complement_sum ?l] => replace l with (pseudo6 proto p0) by
      (unfold pseudo6, pseudo6_header; by rewrite <- !app_assoc) end. fold sum.
    rewrite copy_splice by (rewrite ?length_be_bytes; lia). f_equal. unfold p0. apply splice_splice; rewrite ?length_be_bytes; lia.
  - rewrite <- (splice_splice co (be_bytes 2 0)) by (rewrite ?length_be_bytes; lia). fold p0.
    assert (Hzero : ∀ i, (i < 2)%nat → pseudo6 proto p0 !! (co + i)%nat = be_bytes 2 0 !! i).
    { intros i Hi. unfold p0. rewrite pseudo6_splice by (rewrite ?length_be_bytes; lia).
      apply lookup_splice_in; rewrite ?length_pseudo6, length_be_bytes; lia. }
    rewrite pseudo6_splice by (rewrite ?length_be_bytes; lia). rewrite Hco, (sum_splice2 n (pseudo6 proto p0) 0 0).
    + fold sum. change (be_value [0; 0]) with 0. rewrite Z.sub_0_r. apply fold_checksum_verifies; lia.
    + rewrite <- Hco. by rewrite <- (Nat.add_0_r co), (Hzero 0%nat) by lia.
    + rewrite <- Hco. by rewrite (Hzero 1%nat) by lia.
    + by apply fold_checksum_range.
Qed.

(** What a rewrite does: address, port and checksum, and nothing else. *)
Record rewritten6 (addr i : nat) (p p' : list Z) (proto new_addr new_port : Z) : Prop := {
  rw6_length : length p' = length p;
  rw6_addr : take 16 (drop addr p') = be_bytes 16 new_addr;
  rw6_port : read_u16 (port_offset6 i proto) p' = Ok new_port;
  rw6_checksum : fold_checksum (ones_complement_sum (pseudo6 proto p')) = 0;
  rw6_rest : ∀ j, (j < addr ∨ addr + 16 ≤ j)%nat → (j < port_offset6 i proto ∨ port_offset6 i proto + 2 ≤ j)%nat →
    (j < cksum_offset6 proto ∨ cksum_offset6 proto + 2 ≤ j)%nat → p' !! j = p !! j;
}.

Lemma take_drop_eq (n a : nat) (l r : list Z) :
  length r = n → (∀ i, (i < n)%nat → l !! (a + i)%nat = r !! i) → take n (drop a l) = r.
Proof.
  intros Hn Heq. apply list_eq. intros i. destruct (decide (i < n)%nat).
  - rewrite lookup_take_lt, lookup_drop by done. by apply Heq.
  - rewrite lookup_take_ge by lia. symmetry. apply lookup_ge_None. lia.
Qed.

(** The two directions. *)
Definition direction6 (addr i : nat) : Prop := (addr = 8 ∧ i = 40)%nat ∨ (addr = 24 ∧ i = 42)%nat.

Lemma port_offset6_range addr i proto :
  direction6 addr i → (40 ≤ port_offset6 i proto ∧ port_offset6 i proto + 2 ≤ 46)%nat ∧
  (supported6 proto → port_offset6 i proto + 2 ≤ cksum_offset6 proto ∨ cksum_offset6 proto + 2 ≤ port_offset6 i proto)%nat.
Proof.
  intros Hd. unfold port_offset6, cksum_offset6. split; [destruct (is_tcp_udp proto), Hd as [[? ?]|[? ?]]; lia|].
  intros [->|[->| ->]]; cbn; destruct Hd as [[? ?]|[? ?]]; lia.
Qed.

Lemma rewrite_at_v6_spec addr i p proto new_addr new_port :
  direction6 addr i → supported6 proto → packet6_ok p → fits6 proto p → ipv6_next_header p = Ok proto → u16_ok new_port →
  ∃ p', rewrite_at_v6 addr i p new_addr new_port = Ok p' ∧ rewritten6 addr i p p' proto new_addr new_port.
Proof.
  intros Hd Hsup [Hb Hlen] Hfit Hnh Hport. pose proof Hfit as [H48 Hco].
  destruct (port_offset6_range addr i proto Hd) as [Hpo Hdis]. specialize (Hdis Hsup). set (po := port_offset6 i proto) in *.
  assert (Haddr : (8 ≤ addr ∧ addr + 16 ≤ 40)%nat) by (destruct Hd as [[? ?]|[? ?]]; lia).
  set (p1 := splice addr (be_bytes 16 new_addr) p).
  assert (Hl1 : length p1 = length p) by (apply length_splice'; rewrite length_be_bytes; lia).
  set (p2 := splice po (be_bytes 2 new_port) p1).
  assert (Hl2 : length p2 = length p) by (unfold p2; rewrite length_splice'; rewrite ?length_be_bytes; lia).
  assert (Hok2 : packet6_ok p2).
  { split; [|lia]. unfold p2, p1. apply splice_bytes_ok; [apply be_bytes_ok|]. apply splice_bytes_ok; [apply be_bytes_ok|done]. }
  destruct (recalc6_spec proto p2 Hsup Hok2) as (ck & Hck & Hrec & Hver); [unfold fits6; lia|].
  destruct (cksum_offset6_even proto) as (n & Hn & _). set (co := cksum_offset6 proto) in *.
  exists (splice co (be_bytes 2 ck) p2). split.
  - unfold rewrite_at_v6. rewrite Hnh. cbn [obind]. rewrite copy_splice by (rewrite ?length_be_bytes; lia). cbn [obind]. fold p1.
    assert (Htr : rewrite_transport_v6 i p1 proto new_port = Ok p2); [|by rewrite Htr; cbn [obind]].
    unfold rewrite_transport_v6, IPV6_HEADER_LEN, p2, po, port_offset6 in *. rewrite Hl1.
    destruct Hsup as [->|[->| ->]]; cbn [is_tcp_udp PROTO_TCP PROTO_UDP PROTO_ICMPV6 Z.eqb orb Pos.eqb] in *;
      (rewrite bool_decide_eq_false_2 by lia; apply copy_splice; rewrite ?length_be_bytes; lia).
  - assert (H2o : ∀ j, (j < po ∨ po + 2 ≤ j)%nat → p2 !! j = p1 !! j)
      by (intros j Hj; apply lookup_splice_other; rewrite length_be_bytes; lia).
    assert (Hco' : ∀ j, (j < co ∨ co + 2 ≤ j)%nat → splice co (be_bytes 2 ck) p2 !! j = p2 !! j)
      by (intros j Hj; apply lookup_splice_other; rewrite length_be_bytes; lia).
    assert (H40 : (40 ≤ co)%nat) by (unfold co, cksum_offset6; repeat case_match; lia).
    split; try done.
    + by rewrite length_splice' by (rewrite length_be_bytes; lia).
    + apply take_drop_eq; [by rewrite length_be_bytes|]. intros j Hj. rewrite Hco', H2o by lia. apply lookup_splice_in; rewrite length_be_bytes; lia.
    + assert (Hin : ∀ j, (j < 2)%nat → splice co (be_bytes 2 ck) p2 !! (po + j)%nat = be_bytes 2 new_port !! j).
      { intros j Hj. rewrite Hco' by lia. apply lookup_splice_in; rewrite length_be_bytes; lia. }
      pose proof (Hin 0%nat ltac:(lia)) as H0. rewrite Nat.add_0_r in H0. pose proof (Hin 1%nat ltac:(lia)) as H1.
      fold po. rewrite (read_u16_lookup po _ _ _ H0 H1). f_equal. exact (be_value_be_bytes 2 new_port Hport).
    + intros j Hj1 Hj2 Hj3. rewrite Hco', H2o by done. apply lookup_splice_other; rewrite length_be_bytes; lia.
Qed.

Lemma transport_port_v6_Ok i p proto x :
  transport_port_v6 i p proto = Ok x → supported6 proto.
Proof.
  unfold transport_port_v6, is_tcp_udp, supported6. destruct (Z.eqb_spec proto PROTO_TCP); [auto|]. destruct (Z.eqb_spec proto PROTO_UDP); [auto|].
  cbn [orb]. destruct (Z.eqb_spec proto PROTO_ICMPV6); [auto|done].
Qed.

Lemma transport_port_v6_u16 i p proto x : bytes_ok p → transport_port_v6 i p proto = Ok x → u16_ok x.
Proof. intros Hb. unfold transport_port_v6, icmpv6_id. repeat case_match; try done; by apply read_u16_ok. Qed.

Lemma parse_flow_v6_inv p proto src port :
  bytes_ok p → parse_flow_v6 p = Ok (proto, src, port) → ipv6_next_header p = Ok proto ∧ supported6 proto ∧ u16_ok port.
Proof.
  intros Hb. unfold parse_flow_v6. intros (pr & Hn & Hp)%obind_Ok_inv. apply obind_Ok_inv in Hp as (s & _ & Hp).
  apply obind_Ok_inv in Hp as (x & Hx & [= -> <- ->]). split_and!; [done|by eapply transport_port_v6_Ok|by eapply transport_port_v6_u16].
Qed.

(** ** The theorems *)

(** The IPv6 translator's table is a bijection between flows and ports in
    use in every reachable state, and there are as many of one as of the
    other. *)
Theorem gateway6_invariant g :
  gateway6_reachable g → conntrack6_ok (inner6 g) ∧ size (in_use (ports6 (inner6 g))) = conntrack_size_v6 g.
Proof. intros Hok%gateway6_reachable_ok. split; [done|]. destruct Hok as [_ Hf]. by eapply flows_ok_size. Qed.

(** C26: NAT66 round trip: a packet of a flow of a mesh node leaves with the
    external address, a port of its own and a valid checksum; and after any
    further traffic a reply to that port is handed to that very node,
    rewritten to the flow's address and port with a valid checksum, everything
    else of both packets being untouched.  The only error on the way out is a
    full table, with a flow on each of the 30000 ports. *)
Theorem nat66_roundtrip now node p proto src port g :
  gateway6_reachable g → packet6_ok p → fits6 proto p → parse_flow_v6 p = Ok (proto, src, port) →
  let '(res, g1) := translate_outbound_v6 now node p g in
  match res with
  | Ok (x, p') =>
      pool_range x ∧ rewritten6 8 40 p p' proto (external_ip6 g) x ∧
      ∀ g2 now' r, rtc traffic6_step g1 g2 → packet6_ok r → fits6 proto r → ipv6_next_header r = Ok proto →
        transport_dst_port_v6 r proto = Ok x →
        ∃ r', (translate_inbound_v6 now' r g2).1 = Ok (node, r') ∧ rewritten6 24 42 r r' proto src port
  | Err e => e = ConntrackFull ∧ ∀ y, pool_range y → ∃ k e, forward6 (inner6 g) !! k = Some e ∧ ce6_ext_port e = y
  | Panic => False
  end.
Proof.
  intros Hg Hwf Hfit Hpf. apply gateway6_reachable_ok in Hg. destruct (parse_flow_v6_inv _ _ _ _ (proj1 Hwf) Hpf) as (Hnh & Hsup & Hport).
  unfold translate_outbound_v6. rewrite Hpf.
  set (k := {| ck6_src_id := node; ck6_proto := proto; ck6_orig_src := src; ck6_orig_port := port |}).
  pose proof (conntrack_port_v6_ok now k _ Hg) as Hc. destruct (conntrack_port_v6 now k (inner6 g)) as [res i'].
  destruct Hc as (Hok' & _ & Hres). destruct res as [x|e|]; cbn [obind external_ip6]; [|..].
  2:{ destruct Hres as (-> & _ & Hall). split; [done|]. intros y Hy%Hall. by apply (fl_no_leak _ _ _ _ _ _ (proj2 Hg)). }
  2: done.
  destruct Hres as (e & He & Hx). destruct (fl_entry _ _ _ _ _ _ (proj2 Hok') _ _ He) as [(_ & _ & _ & _ & Hr) _]. rewrite Hx in Hr.
  assert (Hxr : u16_ok x) by (unfold pool_range, u16_ok, PORT_MIN, PORT_MAX in *; lia).
  destruct (rewrite_at_v6_spec 8 40 p proto (external_ip6 g) x) as (p' & Hrw & Hr'); try done; [by left|].
  unfold rewrite_src_v6. rewrite Hrw. cbn [obind]. split_and!; [done|done|].
  intros g2 now' r Htr Hwfr Hfitr Hnr Hdst.
  destruct (traffic6_keeps_flow _ _ k e Htr Hok' He) as (Hok2 & e2 & He2 & Hsame).
  destruct (fl_entry _ _ _ _ _ _ (proj2 Hok2) _ _ He2) as [(Hn2 & Hp2 & Hs2 & Ho2 & _) _].
  cbn in Hn2, Hp2, Hs2, Ho2. pose proof (flows_ok_lookup _ _ _ _ _ _ _ _ (proj2 Hok2) He2) as Hrev. rewrite Hp2, Hsame, Hx in Hrev.
  destruct (rewrite_at_v6_spec 24 42 r proto src port) as (r' & Hrwr & Hrr); try done; [by right|].
  exists r'. split; [|done]. unfold translate_inbound_v6. rewrite Hnr. cbn [obind]. rewrite Hdst. cbn [obind].
  rewrite Hrev, He2. cbn [fst]. unfold rewrite_dst_v6. rewrite Hs2, Ho2, Hn2. by rewrite Hrwr.
Qed.

(** ** A concrete gateway *)
Definition sample_gateway6 : GatewayEngineV6 := GatewayEngineV6_new 0x20010db8000000000000000000000001.
Definition sample_packet6 : list Z :=
  [0x60; 0; 0; 0; 0; 8; 17; 64] ++ be_bytes 16 0xfd000000000000000000000000000002 ++ be_bytes 16 0x20010db8000000000000000000000099 ++
  [0x30; 0x39; 0; 53; 0; 8; 0; 0].
Definition sample_reply6 : list Z :=
  [0x60; 0; 0; 0; 0; 8; 17; 64] ++ be_bytes 16 0x20010db8000000000000000000000099 ++ be_bytes 16 0x20010db8000000000000000000000001 ++
  [0; 53; 0x75; 0x30; 0; 8; 0; 0].

Lemma sample_gateway6_reachable : gateway6_reachable sample_gateway6.
Proof. eexists. apply rtc_refl. Qed.

Lemma gateway6_invariant_witness : conntrack6_ok (inner6 sample_gateway6).
Proof. exact (proj1 (gateway6_invariant sample_gateway6 sample_gateway6_reachable)). Defined.

Lemma nat66_roundtrip_witness :
  let g1 := (translate_outbound_v6 0 (sample_id 7) sample_packet6 sample_gateway6).2 in
  ∃ r', (translate_inbound_v6 5 sample_reply6 g1).1 = Ok (sample_id 7, r') ∧
    rewritten6 24 42 sample_reply6 r' PROTO_UDP 0xfd000000000000000000000000000002 12345.
Proof.
  pose proof (nat66_roundtrip 0 (sample_id 7) sample_packet6 PROTO_UDP 0xfd000000000000000000000000000002 12345 sample_gateway6
    sample_gateway6_reachable) as H.
  specialize (H ltac:(split; [by apply (bool_decide_unpack _); vm_compute|vm_compute; discriminate])).
  specialize (H ltac:(split; by apply (bool_decide_unpack _); vm_compute) ltac:(vm_compute; reflexivity)).
  destruct (translate_outbound_v6 0 (sample_id 7) sample_packet6 sample_gateway6) as [res g1] eqn:E.
  assert (Hres : ∃ p', res = Ok (30000, p')) by (apply (f_equal fst) in E; vm_compute in E; subst res; eexists; reflexivity).
  destruct Hres as [p' ->]. destruct H as (_ & _ & H). cbn zeta beta. cbn [snd].
  apply H; [apply rtc_refl|split; [by apply (bool_decide_unpack _); vm_compute|vm_compute; discriminate]
    |split; by apply (bool_decide_unpack _); vm_compute|vm_compute; reflexivity|vm_compute; reflexivity].
Defined.
