(* ===== verification/SendBuffer.v ===== *)
(** * The store-and-forward buffer (crates/pim-daemon/src/send_buffer.rs)

    Bounded per-peer queues ordered by priority and age, and the sending
    helpers that use them (crates/pim-daemon/src/peer_tasks.rs).  [push] reads
    the clock twice: [now] is the first reading and [now'] the second. *)

From S2P Require Import Prelude Core Frames.

Inductive Priority := PriControl | PriRoute | PriData.
#[export] Instance Priority_eq_dec : EqDecision Priority.
Proof. solve_decision. Defined.

(** The discriminant, which the derived [Ord] compares. *)
Definition priority_rank (p : Priority) : Z :=
  match p with PriControl => 0 | PriRoute => 1 | PriData => 2 end.

Definition Priority_of (t : FrameType) : Priority :=
  match t with
  | FrameControl | FrameHandshake => PriControl
  | FrameRouteUpdate => PriRoute
  | _ => PriData
  end.

Definition DEFAULT_CAPACITY : nat := 256.
Definition DEFAULT_TIMEOUT : Z := 30000.

Record BufferedFrame := { bf_enqueued_at : Z; bf_priority : Priority; bf_frame : TransportFrame }.

Record PeerBuffer := { pb_frames : list BufferedFrame; pb_capacity : nat; pb_timeout : Z }.
Definition PeerBuffer_new (capacity : nat) (timeout : Z) : PeerBuffer :=
  {| pb_frames := []; pb_capacity := capacity; pb_timeout := timeout |}.
Definition with_frames (l : list BufferedFrame) (b : PeerBuffer) : PeerBuffer :=
  {| pb_frames := l; pb_capacity := pb_capacity b; pb_timeout := pb_timeout b |}.

(** [now.duration_since(f.enqueued_at) < timeout]. *)
Definition alive (now timeout : Z) (f : BufferedFrame) : bool := elapsed now (bf_enqueued_at f) <? timeout.

(** [partition_point]: on a list that the predicate splits into a true prefix
    and a false rest, the length of the prefix; the list is split that way
    ([push_sorted]), which is what the binary search needs. *)
Fixpoint partition_point {A} (P : A → bool) (l : list A) : nat :=
  match l with
  | [] => 0
  | x :: l => if P x then S (partition_point P l) else 0
  end.

(** [Vec::insert]. *)
Definition vec_insert {A} (pos : nat) (x : A) (l : list A) : list A := take pos l ++ [x] ++ drop pos l.

Definition goes_before (bf f : BufferedFrame) : bool :=
  (priority_rank (bf_priority f) <? priority_rank (bf_priority bf))
  || (bool_decide (bf_priority f = bf_priority bf) && (bf_enqueued_at f <=? bf_enqueued_at bf)).

Definition PeerBuffer_push (now now' : Z) (priority : Priority) (frame : TransportFrame) (b : PeerBuffer) : PeerBuffer :=
  let frames := List.filter (alive now (pb_timeout b)) (pb_frames b) in
  let insert l :=
    let bf := {| bf_enqueued_at := now'; bf_priority := priority; bf_frame := frame |} in
    with_frames (vec_insert (partition_point (goes_before bf) l) bf l) b in
  if bool_decide (pb_capacity b ≤ length frames)%nat then
    match last frames with
    | Some w =>
      if priority_rank priority <=? priority_rank (bf_priority w)
      then insert (take (length frames - 1) frames)
      else with_frames frames b
    | None => with_frames frames b
    end
  else insert frames.

Definition PeerBuffer_drain (now : Z) (b : PeerBuffer) : list TransportFrame * PeerBuffer :=
  (map bf_frame (List.filter (alive now (pb_timeout b)) (pb_frames b)), with_frames [] b).

Definition PeerBuffer_expire (now : Z) (b : PeerBuffer) : nat * PeerBuffer :=
  let kept := List.filter (alive now (pb_timeout b)) (pb_frames b) in
  ((length (pb_frames b) - length kept)%nat, with_frames kept b).

Definition PeerBuffer_is_empty (b : PeerBuffer) : bool :=
  match pb_frames b with [] => true | _ => false end.

(** ** The buffer of all peers *)
Record SendBuffer := { sb_peers : gmap NodeId PeerBuffer; sb_capacity_per_peer : nat; sb_timeout : Z }.
Definition SendBuffer_new (capacity : nat) (timeout : Z) : SendBuffer :=
  {| sb_peers := ∅; sb_capacity_per_peer := capacity; sb_timeout := timeout |}.
Definition set_peers (m : gmap NodeId PeerBuffer) (s : SendBuffer) : SendBuffer :=
  {| sb_peers := m; sb_capacity_per_peer := sb_capacity_per_peer s; sb_timeout := sb_timeout s |}.

Definition SendBuffer_push (now now' : Z) (peer : NodeId) (priority : Priority) (frame : TransportFrame) (s : SendBuffer)
  : SendBuffer :=
  let b := default (PeerBuffer_new (sb_capacity_per_peer s) (sb_timeout s)) (sb_peers s !! peer) in
  set_peers (<[peer := PeerBuffer_push now now' priority frame b]> (sb_peers s)) s.

Definition SendBuffer_drain (now : Z) (peer : NodeId) (s : SendBuffer) : list TransportFrame * SendBuffer :=
  match sb_peers s !! peer with
  | None => ([], s)
  | Some b =>
    let '(frames, b) := PeerBuffer_drain now b in
    (frames, set_peers (if PeerBuffer_is_empty b then delete peer (sb_peers s) else <[peer := b]> (sb_peers s)) s)
  end.

Definition SendBuffer_expire_all (now : Z) (s : SendBuffer) : nat * SendBuffer :=
  let total := map_fold (λ _ b acc, ((PeerBuffer_expire now b).1 + acc)%nat) 0%nat (sb_peers s) in
  let m := (λ b, (PeerBuffer_expire now b).2) <$> sb_peers s in
  (total, set_peers (filter (λ '(_, b), PeerBuffer_is_empty b = false) m) s).

Definition peer_count (s : SendBuffer) : nat := size (sb_peers s).
Definition frame_count (peer : NodeId) (s : SendBuffer) : nat :=
  match sb_peers s !! peer with Some b => length (pb_frames b) | None => 0 end.

(** ** Sending through the buffer (peer_tasks.rs)

    What the transport answers is an argument. *)
Inductive SendResult := SendOk | PeerNotConnected | Congested | SendFailed.

Definition should_buffer_under_congestion (t : FrameType) : bool :=
  priority_rank (Priority_of t) <? priority_rank PriData.

(** The buffer and the number of frames dropped under congestion. *)
Definition send_frame_buffered (now now' : Z) (peer : NodeId) (frame : TransportFrame) (result : SendResult)
    (st : SendBuffer * Z) : SendBuffer * Z :=
  let '(s, drops) := st in
  let buffered := SendBuffer_push now now' peer (Priority_of (tf_frame_type frame)) frame s in
  match result with
  | SendOk => (s, drops)
  | PeerNotConnected => (buffered, drops)
  | Congested =>
    if should_buffer_under_congestion (tf_frame_type frame) then (buffered, drops)
    else (s, as_u64 (drops + 1))
  | SendFailed => (s, drops)
  end.

(** One peer's turn of [run_buffer_flush]: [answer] is what the transport says
    to each attempted send.  Returns the frames to queue again. *)
Fixpoint flush_loop (answer : TransportFrame → SendResult) (congested : bool) (buffered : list TransportFrame)
  : list TransportFrame :=
  match buffered with
  | [] => []
  | frame :: rest =>
    if congested then frame :: flush_loop answer congested rest else
    match answer frame with
    | SendOk => flush_loop answer congested rest
    | Congested => frame :: flush_loop answer true rest
    | PeerNotConnected => frame :: flush_loop answer congested rest
    | SendFailed => flush_loop answer congested rest
    end
  end.

Definition flush_peer (now now' : Z) (answer : TransportFrame → SendResult) (peer : NodeId) (s : SendBuffer) : SendBuffer :=
  let '(buffered, s) := SendBuffer_drain now peer s in
  fold_left (λ s frame, SendBuffer_push now' now' peer (Priority_of (tf_frame_type frame)) frame s)
    (flush_loop answer false buffered) s.

(** ** The invariant *)

(** Ascending by priority, then by age. *)
Definition frame_le (f g : BufferedFrame) : Prop :=
  priority_rank (bf_priority f) < priority_rank (bf_priority g) ∨
  (bf_priority f = bf_priority g ∧ bf_enqueued_at f ≤ bf_enqueued_at g).

Record buffer_ok (now : Z) (b : PeerBuffer) : Prop := {
  bo_sorted : StronglySorted frame_le (pb_frames b);
  bo_past : Forall (λ f, bf_enqueued_at f ≤ now) (pb_frames b);
  bo_bounded : (length (pb_frames b) ≤ pb_capacity b)%nat;
}.

Lemma priority_rank_inj p q : priority_rank p = priority_rank q → p = q.
Proof. by destruct p, q. Qed.

Lemma goes_before_spec bf f : goes_before bf f = true ↔ frame_le f bf.
Proof.
  unfold goes_before, frame_le. rewrite orb_true_iff, andb_true_iff, Z.ltb_lt, Z.leb_le, bool_decide_eq_true. done.
Qed.

Lemma not_goes_before bf f : bf_enqueued_at f ≤ bf_enqueued_at bf → goes_before bf f = false → frame_le bf f.
Proof.
  intros Ht Hf. destruct (Z.lt_trichotomy (priority_rank (bf_priority bf)) (priority_rank (bf_priority f))) as [?|[Heq|?]].
  - by left.
  - apply priority_rank_inj in Heq. exfalso. apply not_true_iff_false in Hf. apply Hf, goes_before_spec. right. split; [by rewrite Heq|lia].
  - exfalso. apply not_true_iff_false in Hf. apply Hf, goes_before_spec. left. lia.
Qed.

Lemma frame_le_trans f g h : frame_le f g → frame_le g h → frame_le f h.
Proof. unfold frame_le. intros [?|[-> ?]] [?|[<- ?]]; [left; lia|by left|by left|right; split; [done|lia]]. Qed.

(** Inserting at the partition point keeps the list sorted. *)
Lemma push_sorted bf l :
  StronglySorted frame_le l → Forall (λ f, bf_enqueued_at f ≤ bf_enqueued_at bf) l →
  StronglySorted frame_le (vec_insert (partition_point (goes_before bf) l) bf l).
Proof.
  unfold vec_insert. induction 1 as [|f l Hs IH Hf]; intros Hp; cbn [partition_point]; [by repeat constructor|].
  apply Forall_cons in Hp as [Hfp Hp]. destruct (goes_before bf f) eqn:Hg; cbn [take drop app].
  - constructor; [by apply IH|]. specialize (IH Hp). apply goes_before_spec in Hg. rewrite <- (take_drop (partition_point (goes_before bf) l) l) in Hf.
    apply Forall_app in Hf as [Hf1 Hf2]. apply Forall_app. split; [done|]. by constructor.
  - constructor; [by constructor|]. apply not_goes_before in Hg; [|done]. constructor; [done|].
    eapply Forall_impl; [exact Hf|]. intros g Hfg. by eapply frame_le_trans.
Qed.

Lemma sorted_filter {A} (R : A → A → Prop) (P : A → bool) l : StronglySorted R l → StronglySorted R (List.filter P l).
Proof.
  induction 1 as [|a l Hs IH Hf]; cbn [List.filter]; [constructor|]. destruct (P a); [|done]. constructor; [done|].
  apply Forall_forall. intros x Hx. rewrite Forall_forall in Hf. apply Hf. apply list_elem_of_In in Hx. apply filter_In in Hx as [Hx _].
  by apply list_elem_of_In.
Qed.

Lemma sorted_take {A} (R : A → A → Prop) n l : StronglySorted R l → StronglySorted R (take n l).
Proof.
  intros Hs. revert n. induction Hs as [|a l Hs IH Hf]; intros [|n]; cbn [take]; try constructor; [apply IH|by apply Forall_take].
Qed.

Lemma Forall_filter {A} (Q : A → Prop) (P : A → bool) l : Forall Q l → Forall Q (List.filter P l).
Proof. induction 1; cbn [List.filter]; [constructor|]. case_match; [by constructor|done]. Qed.

Lemma length_filter_le {A} (P : A → bool) l : (length (List.filter P l) ≤ length l)%nat.
Proof. induction l; cbn; [done|]. case_match; cbn; lia. Qed.

Lemma length_vec_insert {A} pos (x : A) l : length (vec_insert pos x l) = S (length l).
Proof. unfold vec_insert. rewrite !length_app, length_take, length_drop. cbn. lia. Qed.

Lemma Forall_vec_insert {A} (Q : A → Prop) pos x l : Q x → Forall Q l → Forall Q (vec_insert pos x l).
Proof.
  intros Hx Hl. unfold vec_insert. apply Forall_app. split; [by apply Forall_take|]. constructor; [done|by apply Forall_drop].
Qed.

Lemma push_ok now now' p f b :
  buffer_ok now b → now ≤ now' → buffer_ok now' (PeerBuffer_push now now' p f b).
Proof.
  intros [Hs Hp Hb] Hle. unfold PeerBuffer_push. set (l := List.filter _ _).
  assert (Hsl : StronglySorted frame_le l) by (by apply sorted_filter).
  assert (Hpl : Forall (λ f, bf_enqueued_at f ≤ now') l).
  { apply Forall_filter. eapply Forall_impl; [exact Hp|]. cbn. intros; lia. }
  assert (Hbl : (length l ≤ pb_capacity b)%nat) by (pose proof (length_filter_le (alive now (pb_timeout b)) (pb_frames b)); fold l in H; lia).
  assert (Hkeep : buffer_ok now' (with_frames l b)) by (by split).
  assert (Hins : ∀ l', StronglySorted frame_le l' → Forall (λ f, bf_enqueued_at f ≤ now') l' → (length l' < pb_capacity b)%nat →
    buffer_ok now' (with_frames (vec_insert (partition_point (goes_before
      {| bf_enqueued_at := now'; bf_priority := p; bf_frame := f |}) l') {| bf_enqueued_at := now'; bf_priority := p; bf_frame := f |} l') b)).
  { intros l' H1 H2 H3. split; cbn [pb_frames with_frames pb_capacity].
    - by apply push_sorted.
    - by apply Forall_vec_insert.
    - rewrite length_vec_insert. lia. }
  case_bool_decide as Hcap; [|apply Hins; [done|done|lia]].
  destruct (last l) as [w|] eqn:Hlast; [|done]. destruct (_ <=? _); [|done].
  apply Hins; [by apply sorted_take|by apply Forall_take|]. rewrite length_take.
  destruct l; [done|]. cbn [length] in *. lia.
Qed.

(** What a push keeps, evicts and adds. *)
Lemma push_contents now now' p f b :
  let bf := {| bf_enqueued_at := now'; bf_priority := p; bf_frame := f |} in
  let kept := List.filter (alive now (pb_timeout b)) (pb_frames b) in
  pb_frames (PeerBuffer_push now now' p f b) = kept ∧ (pb_capacity b ≤ length kept)%nat ∧
    (∀ w, last kept = Some w → priority_rank (bf_priority w) < priority_rank p) ∨
  pb_frames (PeerBuffer_push now now' p f b) ≡ₚ bf :: kept ∧ (length kept < pb_capacity b)%nat ∨
  ∃ w rest, kept = rest ++ [w] ∧ priority_rank p ≤ priority_rank (bf_priority w) ∧
    pb_frames (PeerBuffer_push now now' p f b) ≡ₚ bf :: rest.
Proof.
  intros bf kept. unfold PeerBuffer_push. fold kept. fold bf.
  assert (Hins : ∀ l, vec_insert (partition_point (goes_before bf) l) bf l ≡ₚ bf :: l).
  { intros l. unfold vec_insert. generalize (partition_point (goes_before bf) l). intros n. cbn [app].
    rewrite <- Permutation_middle. by rewrite take_drop. }
  case_bool_decide as Hcap; [|right; left; cbn; split; [apply Hins|lia]].
  destruct (last kept) as [w|] eqn:Hlast.
  - destruct (Z.leb_spec (priority_rank p) (priority_rank (bf_priority w))).
    + right; right. apply last_Some in Hlast as [rest Hrest]. exists w, rest. split_and!; [done|done|]. cbn [pb_frames with_frames].
      rewrite Hins, Hrest, length_app. cbn [length]. replace (length rest + 1 - 1)%nat with (length rest) by lia. by rewrite take_app_length.
    + left. cbn. split_and!; [done|done|]. by intros w' [= <-].
  - left. cbn. split_and!; [done|done|done].
Qed.

Lemma sorted_last_max l w :
  StronglySorted frame_le l → last l = Some w → Forall (λ g, priority_rank (bf_priority g) ≤ priority_rank (bf_priority w)) l.
Proof.
  induction 1 as [|f l Hs IH Hf]; [done|]. destruct l as [|g l]; [intros [= ->]; constructor; [lia|constructor]|].
  cbn [last]. intros Hw. specialize (IH Hw). constructor; [|done].
  apply last_Some_elem_of in Hw. rewrite Forall_forall in Hf. destruct (Hf w Hw) as [?|[-> _]]; lia.
Qed.

Lemma push_capacity now now' p f b : pb_capacity (PeerBuffer_push now now' p f b) = pb_capacity b.
Proof.
  unfold PeerBuffer_push. case_bool_decide; [|done]. destruct (last _); [|done]. by destruct (_ <=? _).
Qed.

(** Every peer's buffer. *)
Definition sendbuf_ok (now : Z) (s : SendBuffer) : Prop :=
  map_Forall (λ _ b, buffer_ok now b ∧ pb_capacity b = sb_capacity_per_peer s) (sb_peers s).

Lemma buffer_ok_later now now' b : buffer_ok now b → now ≤ now' → buffer_ok now' b.
Proof. intros [? Hp ?] Hle. split; try done. eapply Forall_impl; [exact Hp|]. cbn. intros; lia. Qed.

Lemma sendbuf_push_ok now now' peer p f s :
  sendbuf_ok now s → now ≤ now' → sendbuf_ok now' (SendBuffer_push now now' peer p f s).
Proof.
  intros Hok Hle. unfold sendbuf_ok, SendBuffer_push. cbn [sb_peers set_peers sb_capacity_per_peer].
  apply map_Forall_insert_2.
  - assert (Hb : buffer_ok now (default (PeerBuffer_new (sb_capacity_per_peer s) (sb_timeout s)) (sb_peers s !! peer)) ∧
      pb_capacity (default (PeerBuffer_new (sb_capacity_per_peer s) (sb_timeout s)) (sb_peers s !! peer)) = sb_capacity_per_peer s).
    { destruct (sb_peers s !! peer) as [b|] eqn:E; [exact (Hok _ _ E)|]. split; [|done]. split; cbn; [constructor|constructor|lia]. }
    destruct Hb as [Hb Hc]. split; [by apply push_ok|]. by rewrite push_capacity.
  - eapply map_Forall_impl; [exact Hok|]. intros k b [Hb ?]. split; [by eapply buffer_ok_later|done].
Qed.

Lemma drain_ok now peer s : sendbuf_ok now s → sendbuf_ok now (SendBuffer_drain now peer s).2.
Proof.
  intros Hok. unfold SendBuffer_drain. destruct (sb_peers s !! peer) as [b|]; [|done]. cbn. by apply map_Forall_delete.
Qed.

Lemma expire_all_ok now s : sendbuf_ok now s → sendbuf_ok now (SendBuffer_expire_all now s).2.
Proof.
  intros Hok k b. cbn. rewrite map_lookup_filter_Some, lookup_fmap_Some. intros [(b0 & <- & Hb0) _].
  destruct (Hok _ _ Hb0) as [[Hs Hp Hc] Hcap]. split; [|done]. cbn. split; cbn.
  - by apply sorted_filter.
  - by apply Forall_filter.
  - pose proof (length_filter_le (alive now (pb_timeout b0)) (pb_frames b0)). lia.
Qed.

(** ** The theorems *)

(** A run of the buffer: operations at non-decreasing times. *)
Inductive sendbuf_run : Z → SendBuffer → Prop :=
| RunNew now capacity timeout : sendbuf_run now (SendBuffer_new capacity timeout)
| RunPush now now1 now2 peer p f s :
    sendbuf_run now s → now ≤ now1 → now1 ≤ now2 → sendbuf_run now2 (SendBuffer_push now1 now2 peer p f s)
| RunDrain now now1 peer s : sendbuf_run now s → now ≤ now1 → sendbuf_run now1 (SendBuffer_drain now1 peer s).2
| RunExpire now now1 s : sendbuf_run now s → now ≤ now1 → sendbuf_run now1 (SendBuffer_expire_all now1 s).2.

Lemma sendbuf_run_ok now s : sendbuf_run now s → sendbuf_ok now s.
Proof.
  assert (Hlater : ∀ n n' s, sendbuf_ok n s → n ≤ n' → sendbuf_ok n' s).
  { intros n n' s0 Hok Hle. eapply map_Forall_impl; [exact Hok|]. intros k b [Hb ?]. split; [by eapply buffer_ok_later|done]. }
  induction 1 as [| | |]; eauto using sendbuf_push_ok, drain_ok, expire_all_ok. apply map_Forall_empty.
Qed.

(** Whatever is pushed, drained and expired, every peer's buffer stays
    within the capacity, and a drain delivers its frames in order of
    priority, and first-in first-out within a priority, none of them older
    than the timeout. *)
Theorem send_buffer_order now s now1 peer b :
  sendbuf_run now s → now ≤ now1 → sb_peers s !! peer = Some b →
  (length (pb_frames b) ≤ sb_capacity_per_peer s)%nat ∧
  ∃ fs, (SendBuffer_drain now1 peer s).1 = map bf_frame fs ∧ StronglySorted frame_le fs ∧
    Forall (λ f, elapsed now1 (bf_enqueued_at f) < pb_timeout b) fs ∧
    frame_count peer (SendBuffer_drain now1 peer s).2 = 0%nat.
Proof.
  intros Hrun Hle Hb. destruct (sendbuf_run_ok _ _ Hrun _ _ Hb) as [[Hs _ Hc] Hcap]. split; [lia|].
  unfold SendBuffer_drain. rewrite Hb. cbn [PeerBuffer_drain fst snd].
  exists (List.filter (alive now1 (pb_timeout b)) (pb_frames b)). split_and!; [done|by apply sorted_filter| |].
  - apply Forall_forall. intros f Hf%list_elem_of_In. apply filter_In in Hf as [_ Hf]. by apply Z.ltb_lt.
  - unfold frame_count. cbn. by rewrite lookup_delete_eq.
Qed.

(** Overflow: a push keeps every live frame and adds the new one when there
    is room; at capacity it either replaces the last frame, which is of no
    higher priority than the new one, or refuses the new frame, and then
    everything buffered is of a higher priority. *)
Theorem push_evicts_lowest now now' p f b :
  buffer_ok now b →
  let bf := {| bf_enqueued_at := now'; bf_priority := p; bf_frame := f |} in
  let kept := List.filter (alive now (pb_timeout b)) (pb_frames b) in
  let frames := pb_frames (PeerBuffer_push now now' p f b) in
  ((length kept < pb_capacity b)%nat ∧ frames ≡ₚ bf :: kept) ∨
  (∃ w rest, kept = rest ++ [w] ∧ priority_rank p ≤ priority_rank (bf_priority w) ∧ frames ≡ₚ bf :: rest) ∨
  ((pb_capacity b ≤ length kept)%nat ∧ frames = kept ∧
   Forall (λ g, priority_rank (bf_priority g) < priority_rank p) kept).
Proof.
  intros [Hs _ _] bf kept frames.
  destruct (push_contents now now' p f b) as [(Hf & Hcap & Hw)|[[Hf Hcap]|(w & rest & Heq & Hw & Hf)]].
  - right; right. split_and!; [done|done|]. fold kept in Hw.
    assert (Hsk : StronglySorted frame_le kept) by (by apply sorted_filter). clear -Hsk Hw.
    destruct (last kept) as [w|] eqn:Hlast; [|apply last_None in Hlast as ->; constructor].
    specialize (Hw w eq_refl). apply Forall_forall. intros g Hg.
    pose proof (sorted_last_max kept w Hsk Hlast) as Hmax. rewrite Forall_forall in Hmax. specialize (Hmax g Hg). cbn in Hmax. lia.
  - left. done.
  - right; left. by exists w, rest.
Qed.

(** Under congestion a flush loses nothing: the frames that could not be
    sent are queued again in their order, and no frame is attempted after the
    first congested answer. *)
Theorem flush_keeps_unsent answer frames :
  (∀ f, f ∈ flush_loop answer false frames → f ∈ frames) ∧
  (∀ f, f ∈ frames → answer f = PeerNotConnected ∨ answer f = Congested → f ∈ flush_loop answer false frames) ∧
  (∀ l f r, frames = l ++ f :: r → answer f = Congested →
     ∃ l', flush_loop answer false frames = l' ++ f :: r ∧ ∀ x, x ∈ l' → x ∈ l).
Proof.
  assert (Hcong : ∀ l, flush_loop answer true l = l) by (induction l as [|x l IH]; cbn; congruence).
  assert (Hsub : ∀ l f, f ∈ flush_loop answer false l → f ∈ l).
  { induction l as [|x l IH]; intros f; cbn [flush_loop]; [done|]. rewrite elem_of_cons. destruct (answer x); rewrite ?elem_of_cons, ?Hcong; naive_solver. }
  split_and!; [apply Hsub| |].
  - induction frames as [|x l IH]; intros f Hf Ha; cbn [flush_loop]; [done|].
    apply elem_of_cons in Hf as [->|Hf]; [destruct Ha as [->| ->]; by left|].
    destruct (answer x); rewrite ?elem_of_cons, ?Hcong; auto.
  - revert frames. intros frames l. revert frames. induction l as [|x l IH]; intros frames f r -> Ha; cbn [app flush_loop].
    + rewrite Ha, Hcong. by exists [].
    + destruct (IH _ f r eq_refl Ha) as (l' & Hl' & Hin). destruct (answer x); rewrite ?Hl', ?Hcong.
      * exists l'. split; [done|]. intros y Hy. right. auto.
      * exists (x :: l'). split; [done|]. intros y [->|Hy]%elem_of_cons; [by left|right; auto].
      * exists (x :: l). split; [done|done].
      * exists l'. split; [done|]. intros y Hy. right. auto.
Qed.

(** ** A concrete buffer: data, then a heartbeat, then more data, with room for two. *)
Definition sample_frame (k : Z) : TransportFrame :=
  {| tf_frame_type := FrameData; tf_nonce := replicate 12 0; tf_payload := [k]; tf_tag := replicate 16 0 |}.
Definition sample_buffer : SendBuffer :=
  SendBuffer_push 2 2 (sample_id 2) PriControl (sample_frame 2)
    (SendBuffer_push 1 1 (sample_id 2) PriData (sample_frame 1) (SendBuffer_new 2 100)).
Definition sample_peer_buffer : PeerBuffer := default (PeerBuffer_new 2 100) (sb_peers sample_buffer !! sample_id 2).

Lemma sample_buffer_run : sendbuf_run 2 sample_buffer.
Proof. eapply RunPush; [eapply RunPush; [apply (RunNew 0)|lia|lia]|lia|lia]. Qed.

Lemma send_buffer_order_witness :
  ∃ fs, (SendBuffer_drain 50 (sample_id 2) sample_buffer).1 = map bf_frame fs ∧ StronglySorted frame_le fs ∧
    map bf_frame fs = [sample_frame 2; sample_frame 1].
Proof.
  destruct (send_buffer_order 2 sample_buffer 50 (sample_id 2) sample_peer_buffer sample_buffer_run)
    as (_ & fs & Hd & Hs & _); [lia|vm_compute; reflexivity|].
  exists fs. split; [exact Hd|]. split; [exact Hs|]. rewrite <- Hd. vm_compute. reflexivity.
Defined.

Lemma push_evicts_lowest_witness :
  let frames := pb_frames (PeerBuffer_push 3 3 PriControl (sample_frame 3) sample_peer_buffer) in
  (length frames ≤ 2)%nat.
Proof.
  intros frames. assert (Hb : buffer_ok 2 sample_peer_buffer).
  { apply (sendbuf_run_ok 2 sample_buffer sample_buffer_run (sample_id 2)). vm_compute. reflexivity. }
  destruct (push_evicts_lowest 3 3 PriControl (sample_frame 3) sample_peer_buffer (buffer_ok_later 2 3 _ Hb ltac:(lia)))
    as [[Hlt _]|[(w & rest & Hk & _ & H)|(_ & H & _)]].
  - vm_compute in Hlt. lia.
  - apply Permutation_length in H. apply (f_equal length) in Hk. rewrite length_app in Hk. unfold frames. rewrite H.
    assert (Hl : length (List.filter (alive 3 (pb_timeout sample_peer_buffer)) (pb_frames sample_peer_buffer)) = 2%nat)
      by (vm_compute; reflexivity).
    rewrite Hl in Hk. cbn [length] in *. lia.
  - unfold frames. rewrite H. vm_compute. lia.
Defined.
