(* ===== verification/Transport.v ===== *)
(** * The TCP transport (crates/pim-transport/src/tcp.rs)

    The map of connected peers and, for each connection, the task that writes
    frames to its socket and the one that reads them.  A connection is a number;
    its [Arc<RwLock<NodeId>>], which both tasks and the map's entry share, is
    the field [cn_id] of its record, so that two entries are [ptr_eq] when they
    name the same connection.  Events are interleaved in any order.  Registering
    a connection takes two, since its tasks run before the map is locked, and
    the end of a read task takes two, since it first looks at the identity and
    only then locks the map; a read task takes the identity once for the frames
    of one read, which the code looks at again for each.  The channel to the
    daemon only delays the read tasks, so it is a list. *)

From S2P Require Import Prelude Core Frames Stream SendBuffer.

Definition WRITE_QUEUE : nat := 64.

Inductive Reader := Reading (buf : list Z) | Leaving (id : NodeId) | Gone.
Record Conn := MkConn {
  cn_id : NodeId;
  cn_queue : list (list Z);
  cn_writer : bool;        (* the write task runs *)
  cn_written : list Z;     (* what went to the socket *)
  cn_reader : Reader;
}.
Record PeerWriter := MkWriter { pw_conn : nat; pw_remote_addr : Z * Z }.
Record TcpTransport := MkTcp {
  tt_node_id : NodeId;
  tt_peers : gmap NodeId PeerWriter;
  tt_conns : gmap nat Conn;
  tt_incoming : list (NodeId * TransportFrame);
  tt_registering : gmap nat (NodeId * (Z * Z));   (* tasks spawned, entry not stored yet *)
}.
Definition TcpTransport_new (node_id : NodeId) : TcpTransport := MkTcp node_id ∅ ∅ [] ∅.

Definition set_peers (m : gmap NodeId PeerWriter) (t : TcpTransport) : TcpTransport :=
  MkTcp (tt_node_id t) m (tt_conns t) (tt_incoming t) (tt_registering t).
Definition set_conn (c : nat) (cn : Conn) (t : TcpTransport) : TcpTransport :=
  MkTcp (tt_node_id t) (tt_peers t) (<[c := cn]> (tt_conns t)) (tt_incoming t) (tt_registering t).
Definition set_registering (m : gmap nat (NodeId * (Z * Z))) (t : TcpTransport) : TcpTransport :=
  MkTcp (tt_node_id t) (tt_peers t) (tt_conns t) (tt_incoming t) m.

(** The two halves of [register_peer]: the tasks are spawned, then the map is
    locked and the entry stored, over one that was there.  [written] is what was
    written before the stream was split. *)
Definition spawn_tasks (c : nat) (peer_id : NodeId) (remote_addr : Z * Z) (written : list Z) (t : TcpTransport) : TcpTransport :=
  set_registering (<[c := (peer_id, remote_addr)]> (tt_registering t))
    (set_conn c (MkConn peer_id [] true written (Reading [])) t).
Definition store_writer (c : nat) (t : TcpTransport) : TcpTransport :=
  match tt_registering t !! c with
  | Some (peer_id, remote_addr) =>
    set_registering (delete c (tt_registering t)) (set_peers (<[peer_id := MkWriter c remote_addr]> (tt_peers t)) t)
  | None => t
  end.
Definition register_peer (c : nat) (peer_id : NodeId) (remote_addr : Z * Z) (written : list Z) (t : TcpTransport) : TcpTransport :=
  store_writer c (spawn_tasks c peer_id remote_addr written t).

(** The first sixteen bytes of the stream are taken for the peer's identity. *)
Definition handle_incoming (c : nat) (id_buf : list Z) (remote_addr : Z * Z) (t : TcpTransport) : TcpTransport :=
  register_peer c (from_bytes id_buf) remote_addr [] t.
Definition connect (c : nat) (node_id : NodeId) (addr : Z * Z) (t : TcpTransport) : TcpTransport :=
  register_peer c node_id addr (as_bytes (tt_node_id t)) t.

Definition rename_peer (old_id new_id : NodeId) (t : TcpTransport) : TcpTransport :=
  match tt_peers t !! old_id with
  | None => t
  | Some writer =>
    let t := set_peers (delete old_id (tt_peers t)) t in
    let t := match tt_conns t !! pw_conn writer with
             | Some cn => set_conn (pw_conn writer) (MkConn new_id (cn_queue cn) (cn_writer cn) (cn_written cn) (cn_reader cn)) t
             | None => t
             end in
    set_peers (<[new_id := writer]> (tt_peers t)) t
  end.

Definition peer_addr (peer_id : NodeId) (t : TcpTransport) : option (Z * Z) := pw_remote_addr <$> tt_peers t !! peer_id.

Definition disconnect (peer : NodeId) (t : TcpTransport) : TcpTransport * bool :=
  match tt_peers t !! peer with
  | Some _ => (set_peers (delete peer (tt_peers t)) t, true)
  | None => (t, false)
  end.

Definition connected_peers (t : TcpTransport) : gset NodeId := dom (tt_peers t).

Definition send (peer : NodeId) (frame : TransportFrame) (t : TcpTransport) : TcpTransport * SendResult :=
  match tt_peers t !! peer with
  | None => (t, PeerNotConnected)
  | Some writer =>
    match tt_conns t !! pw_conn writer with
    | None => (t, SendFailed)
    | Some cn =>
      if negb (cn_writer cn) then (t, SendFailed)
      else if bool_decide (WRITE_QUEUE ≤ length (cn_queue cn))%nat then (t, Congested)
      else (set_conn (pw_conn writer)
              (MkConn (cn_id cn) (cn_queue cn ++ [wire_frame frame]) (cn_writer cn) (cn_written cn) (cn_reader cn)) t, SendOk)
    end
  end.

Definition recv (t : TcpTransport) : option (NodeId * TransportFrame) * TcpTransport :=
  match tt_incoming t with
  | [] => (None, t)
  | p :: rest => (Some p, MkTcp (tt_node_id t) (tt_peers t) (tt_conns t) rest (tt_registering t))
  end.

(** A turn of the write task: with nothing queued it waits, and ends once
    neither an entry of the map nor a registration under way holds its channel.
    [failed] is the error of [write_all], which may come after some of the
    bytes went to the socket. *)
Definition referenced (c : nat) (t : TcpTransport) : bool :=
  bool_decide (map_Exists (λ _ w, pw_conn w = c) (tt_peers t)) || bool_decide (is_Some (tt_registering t !! c)).
Definition write_turn (c : nat) (failed : option nat) (t : TcpTransport) : TcpTransport :=
  match tt_conns t !! c with
  | Some cn =>
    if negb (cn_writer cn) then t else
    match cn_queue cn with
    | data :: rest =>
      set_conn c (match failed with
                  | None => MkConn (cn_id cn) rest true (cn_written cn ++ data) (cn_reader cn)
                  | Some n => MkConn (cn_id cn) rest false (cn_written cn ++ take n data) (cn_reader cn)
                  end) t
    | [] => if referenced c t then t else set_conn c (MkConn (cn_id cn) [] false (cn_written cn) (cn_reader cn)) t
    end
  | None => t
  end.

(** A turn of the read task, and its end. *)
Definition read_turn (c : nat) (chunk : list Z) (t : TcpTransport) : TcpTransport * list (NodeId * TransportFrame) :=
  match tt_conns t !! c with
  | Some (MkConn id queue writer written (Reading buf)) =>
    let '(frames, buf) := read_step chunk buf in
    let delivered := (λ f, (id, f)) <$> frames in
    let t := set_conn c (MkConn id queue writer written (Reading buf)) t in
    (MkTcp (tt_node_id t) (tt_peers t) (tt_conns t) (tt_incoming t ++ delivered) (tt_registering t), delivered)
  | _ => (t, [])
  end.
Definition read_end (c : nat) (t : TcpTransport) : TcpTransport :=
  match tt_conns t !! c with
  | Some (MkConn id queue writer written (Reading _)) => set_conn c (MkConn id queue writer written (Leaving id)) t
  | _ => t
  end.
Definition read_cleanup (c : nat) (t : TcpTransport) : TcpTransport :=
  match tt_conns t !! c with
  | Some (MkConn cell queue writer written (Leaving id)) =>
    let t := set_conn c (MkConn cell queue writer written Gone) t in
    match tt_peers t !! id with
    | Some w => if bool_decide (pw_conn w = c) then set_peers (delete id (tt_peers t)) t else t
    | None => t
    end
  | _ => t
  end.

(** ** Interleavings *)
Inductive TcpEvent :=
| Accepted (c : nat) (id_buf : list Z) (addr : Z * Z)
| Connected (c : nat) (id : NodeId) (addr : Z * Z)
| Registered (c : nat)
| Rename (old_id new_id : NodeId)
| Disconnect (peer : NodeId)
| Send (peer : NodeId) (frame : TransportFrame)
| Recv
| WriteTurn (c : nat) (failed : option nat)
| ReadTurn (c : nat) (chunk : list Z)
| ReadEnd (c : nat)
| ReadCleanup (c : nat).

(** Both [handle_incoming] and [connect] are two events.  What is seen of an event: a frame that entered the queue of a connection,
    or frames that a connection gave to the daemon. *)
Inductive TcpOut := Queued (c : nat) (frame : TransportFrame) | Delivered (c : nat) (l : list (NodeId * TransportFrame)) | Nothing.

Definition tcp_step (t : TcpTransport) (e : TcpEvent) : TcpTransport * TcpOut :=
  match e with
  | Accepted c id_buf addr => (spawn_tasks c (from_bytes id_buf) addr [] t, Nothing)
  | Connected c id addr => (spawn_tasks c id addr (as_bytes (tt_node_id t)) t, Nothing)
  | Registered c => (store_writer c t, Nothing)
  | Rename old_id new_id => (rename_peer old_id new_id t, Nothing)
  | Disconnect peer => ((disconnect peer t).1, Nothing)
  | Send peer frame =>
    match send peer frame t, tt_peers t !! peer with
    | (t, SendOk), Some w => (t, Queued (pw_conn w) frame)
    | (t, _), _ => (t, Nothing)
    end
  | Recv => ((recv t).2, Nothing)
  | WriteTurn c failed => (write_turn c failed t, Nothing)
  | ReadTurn c chunk => let '(t, l) := read_turn c chunk t in (t, Delivered c l)
  | ReadEnd c => (read_end c t, Nothing)
  | ReadCleanup c => (read_cleanup c t, Nothing)
  end.
(** A new connection is one that was never used; only a running task reads. *)
Definition tcp_enabled (t : TcpTransport) (e : TcpEvent) : Prop :=
  match e with
  | Accepted c _ _ | Connected c _ _ => tt_conns t !! c = None
  | ReadTurn c _ => ∃ cn buf, tt_conns t !! c = Some cn ∧ cn_reader cn = Reading buf
  | _ => True
  end.

Inductive tcp_run : TcpTransport → list (TcpEvent * TcpOut) → TcpTransport → Prop :=
| run_nil t : tcp_run t [] t
| run_snoc t tr t1 e : tcp_run t tr t1 → tcp_enabled t1 e →
    tcp_run t (tr ++ [(e, (tcp_step t1 e).2)]) (tcp_step t1 e).1.

(** What a trace says of a connection. *)
Definition queued_on (c : nat) (tr : list (TcpEvent * TcpOut)) : list TransportFrame :=
  omap (λ p, match p.2 with Queued c' f => if bool_decide (c' = c) then Some f else None | _ => None end) tr.
Definition delivered_by (c : nat) (tr : list (TcpEvent * TcpOut)) : list (NodeId * TransportFrame) :=
  tr ≫= (λ p, match p.2 with Delivered c' l => if bool_decide (c' = c) then l else [] | _ => [] end).
Definition chunks_on (c : nat) (tr : list (TcpEvent * TcpOut)) : list (list Z) :=
  omap (λ p, match p.1 with ReadTurn c' b => if bool_decide (c' = c) then Some b else None | _ => None end) tr.
(** Who dialled begins with its identity. *)
Definition preamble (me : NodeId) (c : nat) (tr : list (TcpEvent * TcpOut)) : list Z :=
  tr ≫= (λ p, match p.1 with Connected c' _ _ => if bool_decide (c' = c) then as_bytes me else [] | _ => [] end).

(** ** Invariants *)
Record tcp_ok (t : TcpTransport) : Prop := {
  to_entry id w : tt_peers t !! id = Some w → ∃ cn, tt_conns t !! pw_conn w = Some cn ∧ cn_id cn = id;
  to_queue c cn : tt_conns t !! c = Some cn → (length (cn_queue cn) ≤ WRITE_QUEUE)%nat;
  to_registering c id addr : tt_registering t !! c = Some (id, addr) → ∃ cn, tt_conns t !! c = Some cn ∧ cn_id cn = id;
  to_one c id w : is_Some (tt_registering t !! c) → tt_peers t !! id = Some w → pw_conn w ≠ c;
}.

Lemma tcp_ok_conn c cn cn' t : tcp_ok t → tt_conns t !! c = Some cn → cn_id cn' = cn_id cn →
  (length (cn_queue cn') ≤ WRITE_QUEUE)%nat → tcp_ok (set_conn c cn' t).
Proof.
  intros [Hp Hq Hr Ho] Hc Hid Hl.
  assert (∀ k id, (∃ cn0, tt_conns t !! k = Some cn0 ∧ cn_id cn0 = id) → ∃ cn0, <[c := cn']> (tt_conns t) !! k = Some cn0 ∧ cn_id cn0 = id) as Hk.
  { intros k id (cn0 & H0 & Hi). destruct (decide (k = c)) as [->|Hne].
    - exists cn'. rewrite lookup_insert_eq. split; [done|]. congruence.
    - exists cn0. by rewrite lookup_insert_ne. }
  split; cbn [tt_peers tt_conns tt_registering set_conn].
  - intros id w Hw. by apply Hk, Hp.
  - intros c' cn0. destruct (decide (c = c')) as [->|]; [rewrite lookup_insert_eq; by intros [= <-]|].
    rewrite lookup_insert_ne by done. apply Hq.
  - intros k id addr Hreg. by apply Hk, (Hr k id addr).
  - exact Ho.
Qed.

Lemma tcp_ok_delete id t : tcp_ok t → tcp_ok (set_peers (delete id (tt_peers t)) t).
Proof.
  intros [Hp Hq Hr Ho]. split; cbn [tt_peers tt_conns tt_registering set_peers]; [|exact Hq|exact Hr|].
  - intros i w [_ Hw]%lookup_delete_Some. by apply Hp.
  - intros c i w Hc [_ Hw]%lookup_delete_Some. by apply (Ho c i).
Qed.

Lemma tcp_ok_spawn c id addr written t : tcp_ok t → tt_conns t !! c = None → tcp_ok (spawn_tasks c id addr written t).
Proof.
  intros [Hp Hq Hr Ho] Hc. split; cbn [spawn_tasks tt_peers tt_conns tt_registering set_registering set_conn].
  - intros i w (cn & H0 & Hi)%Hp. exists cn. rewrite lookup_insert_ne; [done|]. congruence.
  - intros c' cn. destruct (decide (c = c')) as [->|]; [rewrite lookup_insert_eq; intros [= <-]; cbn; unfold WRITE_QUEUE; lia|].
    rewrite lookup_insert_ne by done. apply Hq.
  - intros c' i a. destruct (decide (c = c')) as [->|]; [rewrite !lookup_insert_eq; intros [= <- <-]; by eexists|].
    rewrite !lookup_insert_ne by done. apply Hr.
  - intros c' i w Hreg Hw. destruct (decide (c = c')) as [->|]; [destruct (Hp _ _ Hw) as (cn & H0 & _); congruence|].
    rewrite lookup_insert_ne in Hreg by done. by apply (Ho c' i).
Qed.

Lemma tcp_ok_store c t : tcp_ok t → tcp_ok (store_writer c t).
Proof.
  intros Hok. pose proof Hok as [Hp Hq Hr Ho]. unfold store_writer. destruct (tt_registering t !! c) as [[id addr]|] eqn:Ec; [|done].
  split; cbn [tt_peers tt_conns tt_registering set_registering set_peers]; [|exact Hq| |].
  - intros i w. destruct (decide (id = i)) as [->|]; [rewrite lookup_insert_eq; intros [= <-]; by apply (Hr c i addr)|].
    rewrite lookup_insert_ne by done. apply Hp.
  - intros c' i a [_ Hreg]%lookup_delete_Some. by apply (Hr c' i a).
  - intros c' i w [x [Hne Hreg]%lookup_delete_Some]. destruct (decide (id = i)) as [->|].
    + rewrite lookup_insert_eq. by intros [= <-].
    + rewrite lookup_insert_ne by done. apply Ho. by exists x.
Qed.

Lemma tcp_ok_rename old_id new_id t : tcp_ok t → tcp_ok (rename_peer old_id new_id t).
Proof.
  intros [Hp Hq Hr Ho]. unfold rename_peer. destruct (tt_peers t !! old_id) as [w|] eqn:Ew; [|done].
  destruct (Hp _ _ Ew) as (cn & Hc & Hi). cbn [tt_conns set_peers]. rewrite Hc.
  split; cbn [tt_peers tt_conns tt_registering set_peers set_conn].
  - intros i w'. destruct (decide (new_id = i)) as [->|Hne].
    + rewrite lookup_insert_eq. intros [= <-]. eexists. rewrite lookup_insert_eq. done.
    + rewrite lookup_insert_ne by done. intros [Hne0 Hw]%lookup_delete_Some. destruct (Hp _ _ Hw) as (cn' & Hc' & Hi').
      exists cn'. rewrite lookup_insert_ne; [done|]. congruence.
  - intros c' cn'. destruct (decide (pw_conn w = c')) as [<-|]; [rewrite lookup_insert_eq; intros [= <-]; by apply (Hq (pw_conn w) cn)|].
    rewrite lookup_insert_ne by done. apply Hq.
  - intros c' i a Hreg. destruct (Hr c' i a Hreg) as (cn' & Hc' & Hi'). exists cn'. rewrite lookup_insert_ne; [done|].
    apply (Ho c' old_id w); [by eexists|done].
  - intros c' i w' Hreg. destruct (decide (new_id = i)) as [->|]; [rewrite lookup_insert_eq; intros [= <-]; by apply (Ho c' old_id)|].
    rewrite lookup_insert_ne by done. intros [_ Hw]%lookup_delete_Some. by apply (Ho c' i).
Qed.

Lemma tcp_ok_step t e : tcp_ok t → tcp_enabled t e → tcp_ok (tcp_step t e).1.
Proof.
  intros Hok He. pose proof (to_queue t Hok) as Hq. destruct e; cbn [tcp_step fst tcp_enabled] in *.
  - by apply tcp_ok_spawn.
  - by apply tcp_ok_spawn.
  - by apply tcp_ok_store.
  - by apply tcp_ok_rename.
  - unfold disconnect. case_match; [by apply tcp_ok_delete|done].
  - unfold send. destruct (tt_peers t !! peer) as [w|] eqn:Ew; [|done]. destruct (tt_conns t !! pw_conn w) as [cn|] eqn:Ec; [|done].
    destruct (cn_writer cn); [|done]. cbn [negb]. case_bool_decide; [done|]. cbn. eapply tcp_ok_conn; [done|done|done|].
    cbn. rewrite length_app. cbn. lia.
  - unfold recv. destruct Hok. by destruct (tt_incoming t).
  - unfold write_turn. destruct (tt_conns t !! c) as [cn|] eqn:Ec; [|done]. destruct (cn_writer cn); [|done]. cbn [negb].
    specialize (Hq _ _ Ec). destruct (cn_queue cn) as [|d rest] eqn:Eq; cbn in Hq.
    + destruct (referenced c t); [done|]. eapply tcp_ok_conn; [done|done|done|cbn; lia].
    + destruct failed; (eapply tcp_ok_conn; [done|done|done|cbn; lia]).
  - destruct (read_turn c chunk t) as [t' l] eqn:E. revert E. unfold read_turn.
    destruct (tt_conns t !! c) as [[id q wr wt [buf| |]]|] eqn:Ec; try (by intros [= <- _]).
    destruct (read_step chunk buf) as [fs b]. intros [= <- _]. cbn [fst]. pose proof (Hq _ _ Ec).
    by destruct (tcp_ok_conn c _ (MkConn id q wr wt (Reading b)) t Hok Ec eq_refl ltac:(done)).
  - unfold read_end. destruct (tt_conns t !! c) as [[id q wr wt [buf| |]]|] eqn:Ec; try done.
    eapply tcp_ok_conn; [done|done|done|by apply (Hq _ _ Ec)].
  - unfold read_cleanup. destruct (tt_conns t !! c) as [[id q wr wt [buf|i|]]|] eqn:Ec; try done.
    assert (tcp_ok (set_conn c (MkConn id q wr wt Gone) t)) by (eapply tcp_ok_conn; [done|done|done|by apply (Hq _ _ Ec)]).
    cbn [tt_peers set_conn]. destruct (tt_peers t !! i); [|done]. case_bool_decide; [|done]. by apply (tcp_ok_delete i (set_conn c _ t)).
Qed.

(** ** Traces *)
Lemma queued_on_snoc c tr p : queued_on c (tr ++ [p]) = queued_on c tr ++ queued_on c [p].
Proof. apply omap_app. Qed.
Lemma chunks_on_snoc c tr p : chunks_on c (tr ++ [p]) = chunks_on c tr ++ chunks_on c [p].
Proof. apply omap_app. Qed.
Lemma delivered_by_snoc c tr p : delivered_by c (tr ++ [p]) = delivered_by c tr ++ delivered_by c [p].
Proof. apply bind_app. Qed.
Lemma preamble_snoc me c tr p : preamble me c (tr ++ [p]) = preamble me c tr ++ preamble me c [p].
Proof. apply bind_app. Qed.

Lemma read_task_snoc cs b buf :
  read_task (cs ++ [b]) buf = let '(fs, r) := read_task cs buf in let '(fs', r') := read_step b r in (fs ++ fs', r').
Proof.
  revert buf. induction cs as [|c cs IH]; intros buf; cbn [app read_task].
  { destruct (read_step b buf) as [fs r]. by rewrite app_nil_r. }
  destruct (read_step c buf) as [fs r]. rewrite IH. destruct (read_task cs r) as [fs' r'].
  destruct (read_step b r') as [fs'' r'']. by rewrite app_assoc.
Qed.

(** What a connection has done, by the trace: its socket has a prefix of the
    frames it took, all of them but the queue while its write task runs; and
    what it delivered is what the read loop makes of the chunks. *)
Definition wire_upto (me : NodeId) (c : nat) (tr : list (TcpEvent * TcpOut)) : list Z :=
  preamble me c tr ++ concat (map wire_frame (queued_on c tr)).
Definition conn_ok (me : NodeId) (c : nat) (tr : list (TcpEvent * TcpOut)) (cn : Conn) : Prop :=
  cn_written cn `prefix_of` wire_upto me c tr ∧
  (cn_writer cn = true → cn_written cn ++ concat (cn_queue cn) = wire_upto me c tr) ∧
  (read_task (chunks_on c tr) []).1 = (delivered_by c tr).*2 ∧
  (∀ buf, cn_reader cn = Reading buf → (read_task (chunks_on c tr) []).2 = buf).
Definition trace_ok (me : NodeId) (tr : list (TcpEvent * TcpOut)) (t : TcpTransport) : Prop :=
  tt_node_id t = me ∧ ∀ c, match tt_conns t !! c with
    | Some cn => conn_ok me c tr cn
    | None => wire_upto me c tr = [] ∧ chunks_on c tr = [] ∧ delivered_by c tr = []
    end.

(** An event that says nothing of a connection. *)
Definition silent (me : NodeId) (c : nat) (p : TcpEvent * TcpOut) : Prop :=
  queued_on c [p] = [] ∧ chunks_on c [p] = [] ∧ delivered_by c [p] = [] ∧ preamble me c [p] = [].
Lemma conn_ok_silent me c tr p cn : silent me c p → conn_ok me c tr cn → conn_ok me c (tr ++ [p]) cn.
Proof.
  intros (H1 & H2 & H3 & H4). unfold conn_ok, wire_upto.
  by rewrite queued_on_snoc, chunks_on_snoc, delivered_by_snoc, preamble_snoc, H1, H2, H3, H4, !app_nil_r.
Qed.
Lemma none_silent me c tr p : silent me c p →
  wire_upto me c tr = [] ∧ chunks_on c tr = [] ∧ delivered_by c tr = [] →
  wire_upto me c (tr ++ [p]) = [] ∧ chunks_on c (tr ++ [p]) = [] ∧ delivered_by c (tr ++ [p]) = [].
Proof.
  intros (H1 & H2 & H3 & H4). unfold wire_upto.
  by rewrite queued_on_snoc, chunks_on_snoc, delivered_by_snoc, preamble_snoc, H1, H2, H3, H4, !app_nil_r.
Qed.

(** If an event changes one connection, only that one is to be checked. *)
Lemma trace_ok_one me tr t p t' c : trace_ok me tr t → tt_node_id t' = tt_node_id t →
  (∀ c', c' ≠ c → silent me c' p ∧ tt_conns t' !! c' = tt_conns t !! c') →
  match tt_conns t' !! c with
  | Some cn => conn_ok me c (tr ++ [p]) cn
  | None => wire_upto me c (tr ++ [p]) = [] ∧ chunks_on c (tr ++ [p]) = [] ∧ delivered_by c (tr ++ [p]) = []
  end → trace_ok me (tr ++ [p]) t'.
Proof.
  intros [Hm Ht] Hn Ho Hc. split; [congruence|]. intros c'. destruct (decide (c' = c)) as [->|Hne]; [done|].
  destruct (Ho c' Hne) as [Hs ->]. specialize (Ht c'). destruct (tt_conns t !! c'); [by apply conn_ok_silent|by apply none_silent].
Qed.
Lemma trace_ok_same me tr t p t' : trace_ok me tr t → tt_node_id t' = tt_node_id t → tt_conns t' = tt_conns t →
  (∀ c, silent me c p) → trace_ok me (tr ++ [p]) t'.
Proof.
  intros Ht Hn Hc Hs. pose proof Ht as [_ H0]. apply (trace_ok_one me tr t p t' 0); [done|done|by rewrite Hc|].
  rewrite Hc. specialize (H0 0%nat). destruct (tt_conns t !! 0%nat); [by apply conn_ok_silent|by apply none_silent].
Qed.

Ltac silent_event := split_and!; cbn; try done; by rewrite bool_decide_eq_false_2 by congruence.

Lemma trace_ok_spawn me tr t c p id addr written : trace_ok me tr t → tt_conns t !! c = None →
  (∀ c', c' ≠ c → silent me c' p) → queued_on c [p] = [] → chunks_on c [p] = [] → delivered_by c [p] = [] →
  preamble me c [p] = written → trace_ok me (tr ++ [p]) (spawn_tasks c id addr written t).
Proof.
  intros Ht Hn Hs H1 H2 H3 H4. pose proof Ht as [_ H0]. specialize (H0 c). rewrite Hn in H0. destruct H0 as (W & C & D).
  apply (trace_ok_one me tr t p _ c); [done|done| |]; cbn [spawn_tasks tt_conns set_registering set_conn].
  { intros c' Hc'. by rewrite lookup_insert_ne by done; split; [apply Hs|]. }
  rewrite lookup_insert_eq. unfold conn_ok, wire_upto in *. apply app_nil in W as [W1 W2].
  rewrite queued_on_snoc, chunks_on_snoc, delivered_by_snoc, preamble_snoc, H1, H2, H3, H4, W1, C, D, !app_nil_r, W2. cbn.
  rewrite ?app_nil_r. by split_and!; [|..|intros buf [= <-]].
Qed.

(** A change of a connection that the trace says nothing of. *)
Lemma trace_ok_update me tr t p t' c cn cn' : trace_ok me tr t → tt_node_id t' = tt_node_id t →
  (∀ c', silent me c' p) → tt_conns t !! c = Some cn → tt_conns t' = <[c := cn']> (tt_conns t) →
  (conn_ok me c tr cn → conn_ok me c tr cn') → trace_ok me (tr ++ [p]) t'.
Proof.
  intros Ht Hn Hs Hc Hc' Himp. pose proof Ht as [_ H0]. specialize (H0 c). rewrite Hc in H0.
  apply (trace_ok_one me tr t p t' c); [done|done| |]; rewrite Hc'.
  - intros c0 Hne. by rewrite lookup_insert_ne by done.
  - rewrite lookup_insert_eq. apply conn_ok_silent; [done|]. by apply Himp.
Qed.

Lemma trace_ok_send me tr t peer frame : trace_ok me tr t → 
  trace_ok me (tr ++ [(Send peer frame, (tcp_step t (Send peer frame)).2)]) (tcp_step t (Send peer frame)).1.
Proof.
  intros Ht. pose proof Ht as [_ H0]. cbn [tcp_step]. unfold send.
  destruct (tt_peers t !! peer) as [w|] eqn:Ew; [|by apply (trace_ok_same me tr t)].
  destruct (tt_conns t !! pw_conn w) as [cn|] eqn:Ec; [|by apply (trace_ok_same me tr t)].
  destruct (cn_writer cn) eqn:Ewr; [|by apply (trace_ok_same me tr t)]. cbn [negb].
  case_bool_decide; [by apply (trace_ok_same me tr t)|]. cbn [fst snd].
  specialize (H0 (pw_conn w)). rewrite Ec in H0. destruct H0 as (A & B & C & D). specialize (B Ewr).
  apply (trace_ok_one me tr t _ _ (pw_conn w)); [done|done| |]; cbn [tt_conns set_conn].
  { intros c' Hne. rewrite lookup_insert_ne by done. split; [silent_event|done]. }
  rewrite lookup_insert_eq.
  assert (wire_upto me (pw_conn w) (tr ++ [(Send peer frame, Queued (pw_conn w) frame)])
    = wire_upto me (pw_conn w) tr ++ wire_frame frame) as E.
  { unfold wire_upto. rewrite queued_on_snoc, preamble_snoc. cbn. rewrite bool_decide_eq_true_2 by done. cbn.
    by rewrite map_app, concat_app, !app_nil_r, app_assoc; cbn; rewrite app_nil_r. }
  unfold conn_ok. rewrite E, chunks_on_snoc, delivered_by_snoc. cbn. rewrite !app_nil_r. split_and!; [|intros _|done|done].
  - by apply prefix_app_r.
  - by rewrite concat_app, app_assoc, B; cbn; rewrite app_nil_r.
Qed.

Lemma trace_ok_write me tr t c failed : trace_ok me tr t → trace_ok me (tr ++ [(WriteTurn c failed, Nothing)]) (write_turn c failed t).
Proof.
  intros Ht. unfold write_turn. destruct (tt_conns t !! c) as [cn|] eqn:Ec; [|by apply (trace_ok_same me tr t)].
  destruct (cn_writer cn) eqn:Ew; [|by apply (trace_ok_same me tr t)]. cbn [negb].
  destruct (cn_queue cn) as [|d rest] eqn:Eq.
  - destruct (referenced c t); [by apply (trace_ok_same me tr t)|].
    eapply (trace_ok_update me tr t _ _ c cn); [done|done|done|done|done|]. intros (A & B & C & D). by split_and!.
  - destruct failed as [n|]; (eapply (trace_ok_update me tr t _ _ c cn); [done|done|done|done|done|]);
      intros (A & B & C & D); specialize (B Ew); rewrite Eq in B; cbn [concat] in B; split_and!; cbn; try done.
    + rewrite <- B. apply prefix_app. exists (drop n d ++ concat rest). by rewrite app_assoc, take_drop.
    + rewrite <- B. exists (concat rest). by rewrite app_assoc.
    + intros _. by rewrite <- app_assoc.
Qed.

Lemma trace_ok_read me tr t c chunk : trace_ok me tr t → tcp_enabled t (ReadTurn c chunk) →
  trace_ok me (tr ++ [(ReadTurn c chunk, (tcp_step t (ReadTurn c chunk)).2)]) (tcp_step t (ReadTurn c chunk)).1.
Proof.
  intros Ht (cn & buf & Hc & Hr). pose proof Ht as [_ H0]. cbn [tcp_step]. unfold read_turn. rewrite Hc.
  destruct cn as [id q wr wt rd]. cbn in Hr. subst rd. destruct (read_step chunk buf) as [fs b] eqn:Es. cbn [fst snd].
  specialize (H0 c). rewrite Hc in H0. destruct H0 as (A & B & C & D). specialize (D buf eq_refl).
  apply (trace_ok_one me tr t _ _ c); [done|done| |]; cbn [tt_conns set_conn].
  { intros c' Hne. rewrite lookup_insert_ne by done. split; [silent_event|done]. }
  rewrite lookup_insert_eq. unfold conn_ok, wire_upto in *. rewrite queued_on_snoc, preamble_snoc, chunks_on_snoc, delivered_by_snoc.
  cbn [queued_on preamble chunks_on delivered_by omap list_omap mbind list_bind fst snd].
  rewrite !bool_decide_eq_true_2 by done. cbn [omap list_omap]. rewrite !app_nil_r, read_task_snoc.
  destruct (read_task (chunks_on c tr) []) as [fs0 b0]. cbn in C, D. subst b0 fs0. rewrite Es. cbn.
  split_and!; [done|done| |by intros ? [= <-]]. rewrite fmap_app. f_equal. rewrite <- list_fmap_compose. symmetry. apply list_fmap_id.
Qed.

Lemma trace_ok_step me tr t e : trace_ok me tr t → tcp_ok t → tcp_enabled t e →
  trace_ok me (tr ++ [(e, (tcp_step t e).2)]) (tcp_step t e).1.
Proof.
  intros Ht Hok He. pose proof (proj1 Ht) as Hme. destruct e; cbn [tcp_step tcp_enabled fst snd] in *.
  - apply trace_ok_spawn; try done.
  - rewrite Hme. apply trace_ok_spawn; try done; [intros; silent_event|].
    cbn. rewrite bool_decide_eq_true_2 by done. by rewrite app_nil_r.
  - unfold store_writer. destruct (tt_registering t !! c) as [[id addr]|]; by apply (trace_ok_same me tr t).
  - unfold rename_peer. destruct (tt_peers t !! old_id) as [w|] eqn:Ew; [|by apply (trace_ok_same me tr t)].
    cbn [tt_conns set_peers]. destruct (tt_conns t !! pw_conn w) as [cn|] eqn:Ec; [|by apply (trace_ok_same me tr t)].
    by eapply (trace_ok_update me tr t _ _ (pw_conn w) cn).
  - unfold disconnect. destruct (tt_peers t !! peer); by apply (trace_ok_same me tr t).
  - by apply trace_ok_send.
  - unfold recv. destruct (tt_incoming t); by apply (trace_ok_same me tr t).
  - by apply trace_ok_write.
  - by apply trace_ok_read.
  - unfold read_end. destruct (tt_conns t !! c) as [[id q wr wt [buf|i|]]|] eqn:Ec; try (by apply (trace_ok_same me tr t)).
    eapply (trace_ok_update me tr t); [done|done|done|done|done|]. intros (A & B & C & D). by split_and!.
  - unfold read_cleanup. destruct (tt_conns t !! c) as [[id q wr wt [buf|i|]]|] eqn:Ec; try (by apply (trace_ok_same me tr t)).
    set (t1 := set_conn c _ t).
    assert (∀ t', tt_node_id t' = tt_node_id t → tt_conns t' = tt_conns t1 → trace_ok me (tr ++ [(ReadCleanup c, Nothing)]) t') as Hg.
    { intros t' Hn Hc'. eapply (trace_ok_update me tr t); [done|done|done|done|exact Hc'|]. intros (A & B & C & D). by split_and!. }
    destruct (tt_peers t1 !! i); [|by apply Hg]. case_bool_decide; by apply Hg.
Qed.

Lemma run_ok me tr t : tcp_run (TcpTransport_new me) tr t → tcp_ok t ∧ trace_ok me tr t.
Proof.
  intros Hr. remember (TcpTransport_new me) as t0. induction Hr as [t|t tr t1 e Hr IH He]; subst.
  - split; [by split|]. by split.
  - destruct (IH eq_refl). split; [by apply tcp_ok_step|by apply trace_ok_step].
Qed.

(** A registration with nothing in between. *)
Lemma register_peer_eq c id addr written t : register_peer c id addr written t =
  set_peers (<[id := MkWriter c addr]> (tt_peers t))
    (set_conn c (MkConn id [] true written (Reading [])) (set_registering (delete c (tt_registering t)) t)).
Proof.
  unfold register_peer, store_writer, spawn_tasks. cbn [tt_registering set_registering]. rewrite lookup_insert_eq.
  unfold set_registering, set_peers, set_conn. cbn. by rewrite delete_insert_eq.
Qed.

(** ** Theorems *)
Lemma drain_prefix a b : a `prefix_of` b → (drain a).1 `prefix_of` (drain b).1.
Proof.
  intros [c ->]. rewrite drain_app. destruct (drain a) as [fs r]. destruct (drain (r ++ c)) as [fs' r']. by exists fs'.
Qed.
Lemma drain_frames fs : Forall wire_fits fs → drain (concat (map wire_frame fs)) = (fs, []).
Proof. induction 1 as [|f fs Hf _ IH]; [done|]. cbn [map concat]. by rewrite drain_wire_frame, IH. Qed.

(** C18: what one transport sends over a connection, the other delivers in order:
    under every interleaving of both, whatever the sockets do, a write that
    fails halfway included, the frames that one side's connection has delivered
    are a prefix of those the other side queued on it, and all of them once the
    queue is written and read.  The frames fit the length prefix ([wire_fits]),
    and the reads of one side are what the other wrote, less the identity. *)
Theorem tcp_fifo me trA A a cnA you trB B b cnB :
  tcp_run (TcpTransport_new me) trA A → tt_conns A !! a = Some cnA →
  tcp_run (TcpTransport_new you) trB B → tt_conns B !! b = Some cnB →
  Forall wire_fits (queued_on a trA) →
  preamble me a trA ++ concat (chunks_on b trB) `prefix_of` cn_written cnA →
  (delivered_by b trB).*2 `prefix_of` queued_on a trA ∧
  (cn_writer cnA = true → cn_queue cnA = [] → preamble me a trA ++ concat (chunks_on b trB) = cn_written cnA →
   (delivered_by b trB).*2 = queued_on a trA).
Proof.
  intros [_ [_ HA]]%run_ok Ha [_ [_ HB]]%run_ok Hb Hfit Hpre. specialize (HA a). rewrite Ha in HA. specialize (HB b).
  rewrite Hb in HB. destruct HA as (A1 & A2 & _), HB as (_ & _ & B3 & _). rewrite <- B3, read_task_drain by done. cbn [app].
  pose proof (drain_frames _ Hfit) as Hd. split.
  - assert (concat (chunks_on b trB) `prefix_of` concat (map wire_frame (queued_on a trA))) as Hp.
    { eapply prefix_app_inv. etrans; [exact Hpre|exact A1]. }
    apply drain_prefix in Hp. by rewrite Hd in Hp.
  - intros Hw Hq Heq. specialize (A2 Hw). rewrite Hq in A2. cbn [concat] in A2. rewrite app_nil_r, <- Heq in A2.
    unfold wire_upto in A2. apply app_inv_head in A2. by rewrite A2, Hd.
Qed.

(** C20: the map of peers under every interleaving, the tasks of a connection
    starting before its entry is stored: each entry is registered under
    the identity its connection's tasks use, no connection has two, and no
    write queue is longer than its channel. *)
Theorem tcp_registered me tr t : tcp_run (TcpTransport_new me) tr t →
  (∀ id w, tt_peers t !! id = Some w → ∃ cn, tt_conns t !! pw_conn w = Some cn ∧ cn_id cn = id) ∧
  (∀ id id' w w', tt_peers t !! id = Some w → tt_peers t !! id' = Some w' → pw_conn w = pw_conn w' → id = id') ∧
  (∀ c cn, tt_conns t !! c = Some cn → (length (cn_queue cn) ≤ WRITE_QUEUE)%nat).
Proof.
  intros [[Hp Hq _ _] _]%run_ok. split_and!; [done| |done]. intros id id' w w' Hw Hw' E.
  destruct (Hp _ _ Hw) as (cn & H1 & H2), (Hp _ _ Hw') as (cn' & H1' & H2'). congruence.
Qed.

(** the end of a read task never takes the slot of another connection, and
    gives up its own unless it was renamed since it looked. *)
Theorem exit_spares_others me tr t c cn id : tcp_run (TcpTransport_new me) tr t →
  tt_conns t !! c = Some cn → cn_reader cn = Leaving id →
  (∀ i w, tt_peers t !! i = Some w → pw_conn w ≠ c → tt_peers (read_cleanup c t) !! i = Some w) ∧
  (cn_id cn = id → ∀ i w, tt_peers (read_cleanup c t) !! i = Some w → pw_conn w ≠ c).
Proof.
  intros [[Hp _ _ _] _]%run_ok Hc Hr. unfold read_cleanup. rewrite Hc. destruct cn as [cell q wr wt rd]. cbn in Hr. subst rd.
  cbn [tt_peers set_conn cn_id]. split.
  - intros i w Hw Hne. destruct (tt_peers t !! id) as [w0|] eqn:E0; [|done]. case_bool_decide as Ec; [|done]. cbn.
    rewrite lookup_delete_ne; [done|]. intros ->. congruence.
  - intros -> i w Hw Ew. assert (tt_peers t !! i = Some w) as Hi.
    { revert Hw. destruct (tt_peers t !! id); [|done]. case_bool_decide; [|done]. cbn. by intros [_ ?]%lookup_delete_Some. }
    destruct (Hp _ _ Hi) as (cn & H1 & H2). rewrite Ew, Hc in H1. injection H1 as <-. cbn in H2. subst i.
    revert Hw. rewrite Hi, bool_decide_eq_true_2 by done. cbn. by rewrite lookup_delete_eq.
Qed.

(** whoever connects and states a peer's identity takes its place: from then
    on frames for that peer are queued for the new connection, while the old
    one, no longer addressed, still delivers in the peer's name. *)
Theorem stated_identity_takes_over t c cn buf c' id_buf addr f chunk :
  tt_conns t !! c = Some cn → cn_id cn = from_bytes id_buf → cn_reader cn = Reading buf → tt_conns t !! c' = None →
  let t' := handle_incoming c' id_buf addr t in
  (tcp_step t' (Send (from_bytes id_buf) f)).2 = Queued c' f ∧
  (read_turn c chunk t').2 = (λ f, (from_bytes id_buf, f)) <$> (read_step chunk buf).1.
Proof.
  intros Hc Hid Hr Hn t'. subst t'. split.
  - cbn [tcp_step]. unfold send, handle_incoming. rewrite register_peer_eq. cbn [tt_peers set_peers]. rewrite lookup_insert_eq.
    cbn [pw_conn tt_conns set_peers set_conn]. by rewrite lookup_insert_eq.
  - unfold read_turn, handle_incoming. rewrite register_peer_eq. cbn [tt_conns set_peers set_conn set_registering].
    rewrite lookup_insert_ne by congruence. rewrite Hc. destruct cn as [cell q wr wt rd]. cbn in *. subst.
    by destruct (read_step chunk buf) as [fs b].
Qed.

(** after [disconnect] the peer is no longer addressed, but its connection is
    still read and its frames still reach the daemon in its name. *)
Theorem disconnect_keeps_reading t id w cn buf chunk f :
  tt_peers t !! id = Some w → tt_conns t !! pw_conn w = Some cn → cn_id cn = id → cn_reader cn = Reading buf →
  let t' := (disconnect id t).1 in
  (send id f t').2 = PeerNotConnected ∧
  (read_turn (pw_conn w) chunk t').2 = (λ f, (id, f)) <$> (read_step chunk buf).1.
Proof.
  intros Hw Hc Hid Hr t'. subst t'. unfold disconnect. rewrite Hw. cbn [fst]. split.
  - unfold send. cbn [tt_peers set_peers]. by rewrite lookup_delete_eq.
  - unfold read_turn. cbn [tt_conns set_peers]. rewrite Hc. destruct cn as [cell q wr wt rd]. cbn in *. subst.
    by destruct (read_step chunk buf) as [fs b].
Qed.

(** a connection that ends while it is being renamed stays registered for
    good: its read task looked at the old identity, finds nothing there, and
    nobody removes the entry under the new one; frames for the peer go into
    the queue of a dead connection. *)
Theorem rename_races_with_exit t c cn old_id new_id w f :
  tt_peers t !! old_id = Some w → pw_conn w = c → tt_conns t !! c = Some cn → cn_reader cn = Leaving old_id →
  cn_writer cn = true → (length (cn_queue cn) < WRITE_QUEUE)%nat → old_id ≠ new_id →
  let t' := read_cleanup c (rename_peer old_id new_id t) in
  tt_peers t' !! new_id = Some w ∧ (cn_reader <$> tt_conns t' !! c) = Some Gone ∧ (tcp_step t' (Send new_id f)).2 = Queued c f.
Proof.
  intros Hw <- Hc Hr Hwr Hq Hne. cbv zeta.
  assert (read_cleanup (pw_conn w) (rename_peer old_id new_id t) =
    set_peers (<[new_id := w]> (delete old_id (tt_peers t)))
      (set_conn (pw_conn w) (MkConn new_id (cn_queue cn) (cn_writer cn) (cn_written cn) Gone) t)) as ->.
  { unfold rename_peer. rewrite Hw. cbn [tt_conns set_peers]. rewrite Hc. unfold read_cleanup.
    cbn [tt_conns set_peers set_conn tt_peers]. rewrite lookup_insert_eq, Hr, lookup_insert_ne, lookup_delete_eq by done.
    unfold set_conn, set_peers. cbn. by rewrite insert_insert_eq. }
  cbn [tt_peers tt_conns set_peers set_conn]. rewrite !lookup_insert_eq. split_and!; [done|done|].
  cbn [tcp_step]. unfold send. cbn [tt_peers set_peers tt_conns set_conn]. rewrite !lookup_insert_eq. cbn [cn_writer cn_queue].
  rewrite Hwr. cbn [negb]. by rewrite bool_decide_eq_false_2 by lia.
Qed.

(** a connection that ends before its entry is stored is registered all the
    same, and stays so: its read task has cleaned up already. *)
Theorem exit_before_registration t c id addr written f : tt_conns t !! c = None → tt_peers t !! id = None →
  let t' := store_writer c (read_cleanup c (read_end c (spawn_tasks c id addr written t))) in
  tt_peers t' !! id = Some (MkWriter c addr) ∧ (cn_reader <$> tt_conns t' !! c) = Some Gone ∧ (tcp_step t' (Send id f)).2 = Queued c f.
Proof.
  intros Hc Hid. cbv zeta.
  assert (read_cleanup c (read_end c (spawn_tasks c id addr written t)) =
    set_registering (<[c := (id, addr)]> (tt_registering t)) (set_conn c (MkConn id [] true written Gone) t)) as ->.
  { unfold read_end. cbn [spawn_tasks set_registering set_conn tt_conns]. rewrite lookup_insert_eq. unfold read_cleanup.
    cbn [set_registering set_conn tt_conns tt_peers]. rewrite lookup_insert_eq.
    cbn [tt_peers spawn_tasks set_registering set_conn]. rewrite Hid.
    unfold set_registering, set_conn. cbn. by rewrite !insert_insert_eq. }
  unfold store_writer. cbn [tt_registering set_registering]. rewrite lookup_insert_eq.
  cbn [tt_peers tt_conns set_peers set_conn set_registering]. rewrite !lookup_insert_eq. split_and!; [done|done|].
  cbn [tcp_step]. unfold send. cbn [tt_peers set_peers tt_conns set_conn set_registering]. by rewrite !lookup_insert_eq.
Qed.

(** ** Concrete runs *)
Definition tcp_enabledb (t : TcpTransport) (e : TcpEvent) : bool :=
  match e with
  | Accepted c _ _ | Connected c _ _ => match tt_conns t !! c with None => true | Some _ => false end
  | ReadTurn c _ => match tt_conns t !! c with Some (MkConn _ _ _ _ (Reading _)) => true | _ => false end
  | _ => true
  end.
Lemma tcp_enabledb_sound t e : tcp_enabledb t e = true → tcp_enabled t e.
Proof.
  destruct e; cbn; try done; try (by destruct (tt_conns t !! c)).
  destruct (tt_conns t !! c) as [[id q wr wt [buf| |]]|]; try done. by eexists _, _.
Qed.
Fixpoint tcp_exec (evs : list TcpEvent) (tr : list (TcpEvent * TcpOut)) (t : TcpTransport) : option (list (TcpEvent * TcpOut) * TcpTransport) :=
  match evs with
  | [] => Some (tr, t)
  | e :: evs => if tcp_enabledb t e then tcp_exec evs (tr ++ [(e, (tcp_step t e).2)]) (tcp_step t e).1 else None
  end.
Lemma tcp_exec_run t0 evs tr t tr' t' : tcp_run t0 tr t → tcp_exec evs tr t = Some (tr', t') → tcp_run t0 tr' t'.
Proof.
  revert tr t. induction evs as [|e evs IH]; intros tr t Hr; cbn [tcp_exec]; [by intros [= <- <-]|].
  destruct (tcp_enabledb t e) eqn:E; [|done]. apply IH, run_snoc; [done|by apply tcp_enabledb_sound].
Qed.

Definition sample_tcp_frame (n : Z) : TransportFrame :=
  {| tf_frame_type := FrameData; tf_nonce := replicate 12 1; tf_payload := [n]; tf_tag := replicate 16 2 |}.
Definition sample_dialler : list TcpEvent :=
  [Connected 0 (sample_id 9) (1, 2); Registered 0; Send (sample_id 9) (sample_tcp_frame 1); Rename (sample_id 9) (sample_id 2);
   WriteTurn 0 None; Send (sample_id 2) (sample_tcp_frame 2); WriteTurn 0 None].
Definition sample_wire : list Z := wire_frame (sample_tcp_frame 1) ++ wire_frame (sample_tcp_frame 2).
Definition sample_acceptor : list TcpEvent :=
  [Accepted 0 (as_bytes (sample_id 1)) (3, 4); ReadTurn 0 (take 7 sample_wire); Registered 0; ReadTurn 0 (drop 7 sample_wire)].

Lemma tcp_fifo_witness :
  match tcp_exec sample_dialler [] (TcpTransport_new (sample_id 1)), tcp_exec sample_acceptor [] (TcpTransport_new (sample_id 2)) with
  | Some (trA, A), Some (trB, B) => (delivered_by 0 trB).*2 = queued_on 0 trA ∧ length (queued_on 0 trA) = 2%nat
  | _, _ => False
  end.
Proof.
  destruct (tcp_exec sample_dialler [] _) as [[trA A]|] eqn:EA; [|by vm_compute in EA].
  destruct (tcp_exec sample_acceptor [] _) as [[trB B]|] eqn:EB; [|by vm_compute in EB].
  pose proof (tcp_exec_run _ _ _ _ _ _ (run_nil _) EA) as RA. pose proof (tcp_exec_run _ _ _ _ _ _ (run_nil _) EB) as RB.
  vm_compute in EA. injection EA as <- <-. vm_compute in EB. injection EB as <- <-.
  split; [|done].
  eapply (tcp_fifo _ _ _ 0 _ _ _ _ 0 _ RA eq_refl RB eq_refl);
    [by apply (bool_decide_unpack _); vm_compute|by apply (bool_decide_unpack _); vm_compute|by vm_compute..].
Defined.

Lemma tcp_registered_witness :
  match tcp_exec sample_dialler [] (TcpTransport_new (sample_id 1)) with
  | Some (tr, t) => ∃ cn, tt_conns t !! 0%nat = Some cn ∧ cn_id cn = sample_id 2
  | None => False
  end.
Proof.
  destruct (tcp_exec sample_dialler [] _) as [[tr t]|] eqn:E; [|by vm_compute in E].
  pose proof (tcp_exec_run _ _ _ _ _ _ (run_nil _) E) as R. destruct (tcp_registered _ _ _ R) as (H & _ & _).
  apply (H _ (MkWriter 0 (1, 2))). vm_compute in E. by injection E as _ <-.
Defined.

(** A newer connection of the same peer survives the end of the older one. *)
Lemma exit_spares_others_witness :
  match tcp_exec [Accepted 0 (as_bytes (sample_id 2)) (1, 2); Registered 0; Accepted 1 (as_bytes (sample_id 2)) (3, 4); Registered 1; ReadEnd 0] []
          (TcpTransport_new (sample_id 1)) with
  | Some (tr, t) => tt_peers (read_cleanup 0 t) !! sample_id 2 = Some (MkWriter 1 (3, 4))
  | None => False
  end.
Proof.
  destruct (tcp_exec _ [] _) as [[tr t]|] eqn:E; [|by vm_compute in E].
  pose proof (tcp_exec_run _ _ _ _ _ _ (run_nil _) E) as R.
  assert (tt_conns t !! 0%nat = Some (MkConn (sample_id 2) [] true [] (Leaving (sample_id 2)))
    ∧ tt_peers t !! sample_id 2 = Some (MkWriter 1 (3, 4))) as [H0 H1].
  { vm_compute in E. by injection E as _ <-. }
  destruct (exit_spares_others _ _ _ 0 _ _ R H0 eq_refl) as [H _]. by apply H.
Defined.

Definition sample_tcp : TcpTransport := register_peer 0 (sample_id 2) (1, 2) [] (TcpTransport_new (sample_id 1)).

Lemma stated_identity_takes_over_witness :
  (tcp_step (handle_incoming 1 (as_bytes (sample_id 2)) (3, 4) sample_tcp) (Send (sample_id 2) (sample_tcp_frame 1))).2
    = Queued 1 (sample_tcp_frame 1).
Proof.
  by apply (stated_identity_takes_over sample_tcp 0 (MkConn (sample_id 2) [] true [] (Reading [])) [] 1 (as_bytes (sample_id 2)) (3, 4)
    (sample_tcp_frame 1) []).
Defined.

Lemma disconnect_keeps_reading_witness :
  (read_turn 0 (wire_frame (sample_tcp_frame 1)) (disconnect (sample_id 2) sample_tcp).1).2 = [(sample_id 2, sample_tcp_frame 1)].
Proof.
  destruct (disconnect_keeps_reading sample_tcp (sample_id 2) (MkWriter 0 (1, 2)) (MkConn (sample_id 2) [] true [] (Reading [])) []
    (wire_frame (sample_tcp_frame 1)) (sample_tcp_frame 1)) as [_ H]; [done..|].
  etrans; [exact H|]. by vm_compute.
Defined.

Lemma rename_races_with_exit_witness :
  tt_peers (read_cleanup 0 (rename_peer (sample_id 2) (sample_id 5) (read_end 0 sample_tcp))) !! sample_id 5 = Some (MkWriter 0 (1, 2)).
Proof.
  apply (rename_races_with_exit (read_end 0 sample_tcp) 0 (MkConn (sample_id 2) [] true [] (Leaving (sample_id 2))) (sample_id 2)
    (sample_id 5) (MkWriter 0 (1, 2)) (sample_tcp_frame 1)); [done..|unfold WRITE_QUEUE; cbn; lia|done].
Defined.

Lemma exit_before_registration_witness :
  tt_peers (store_writer 0 (read_cleanup 0 (read_end 0 (spawn_tasks 0 (sample_id 2) (1, 2) [] (TcpTransport_new (sample_id 1)))))) !! sample_id 2
    = Some (MkWriter 0 (1, 2)).
Proof. by apply (exit_before_registration (TcpTransport_new (sample_id 1)) 0 (sample_id 2) (1, 2) [] (sample_tcp_frame 1)). Defined.
