(* ===== verification/Trust.v ===== *)
(** * Who is believed

    Signed route updates (crates/pim-routing/src/signing.rs), peer
    authorization (crates/pim-daemon/src/auth.rs) and reputation
    (crates/pim-daemon/src/reputation.rs).  Ed25519 is a parameter. *)

From S2P Require Import Prelude Core Frames.

(** ** Signing of route updates *)
Fixpoint signing_entries (entries : list RouteEntry) : list Z :=
  match entries with
  | [] => []
  | e :: es => as_bytes (re_destination e) ++ [re_hops e] ++ [re_flags e] ++ re_mesh_ip e ++ signing_entries es
  end.

Definition signing_bytes (f : RouteUpdateFrame) : list Z :=
  as_bytes (ru_origin_id f) ++ be_bytes 8 (ru_sequence f) ++
  be_bytes 2 (as_u16 (Z.of_nat (length (ru_entries f)))) ++ signing_entries (ru_entries f).

Definition with_signature (sig : list Z) (f : RouteUpdateFrame) : RouteUpdateFrame :=
  {| ru_origin_id := ru_origin_id f; ru_sequence := ru_sequence f; ru_entries := ru_entries f; ru_signature := sig |}.

Section Signing.
Context {SigningKey VerifyingKey : Type}.
Context (sign : SigningKey → list Z → list Z) (verify : VerifyingKey → list Z → list Z → bool).

Definition sign_route_update (f : RouteUpdateFrame) (key : SigningKey) : RouteUpdateFrame :=
  with_signature (sign key (signing_bytes f)) f.

Definition verify_route_update (f : RouteUpdateFrame) (key : VerifyingKey) : bool :=
  if bool_decide (ru_signature f = replicate 64 0) then false
  else verify key (signing_bytes f) (ru_signature f).

(** ** Lemmas *)
Lemma signing_entries_inj es es' :
  Forall RouteEntry_wf es → Forall RouteEntry_wf es' → length es = length es' →
  signing_entries es = signing_entries es' → es = es'.
Proof.
  revert es'. induction es as [|e es IH]; intros [|e' es'] Hw Hw' Hl Heq; cbn in Hl; try done.
  apply Forall_cons in Hw as [[Hd Hm] Hw]. apply Forall_cons in Hw' as [[Hd' Hm'] Hw'].
  cbn [signing_entries] in Heq. apply app_inj_1 in Heq as [E1 Heq]; [|congruence].
  cbn [app] in Heq. injection Heq as E2 E3 Heq. apply app_inj_1 in Heq as [E4 Heq]; [|congruence].
  f_equal; [|apply IH; [done|done|lia|done]].
  destruct e as [[d] h fl ip], e' as [[d'] h' fl' ip']. cbn in *. by subst.
Qed.

Lemma be_bytes_inj n a b : 0 ≤ a < 256 ^ Z.of_nat n → 0 ≤ b < 256 ^ Z.of_nat n → be_bytes n a = be_bytes n b → a = b.
Proof. intros Ha Hb Heq. apply (f_equal be_value) in Heq. by rewrite !be_value_be_bytes in Heq. Qed.

(** The bytes that are signed determine the update. *)
Lemma signing_bytes_determine f f' :
  RouteUpdateFrame_wf f → RouteUpdateFrame_wf f' → signing_bytes f = signing_bytes f' →
  f' = with_signature (ru_signature f') f.
Proof.
  intros (Ho & Hs & He & Hn & _) (Ho' & Hs' & He' & Hn' & _) Heq. unfold signing_bytes in Heq.
  apply app_inj_1 in Heq as [E1 Heq]; [|congruence]. apply app_inj_1 in Heq as [E2 Heq]; [|by rewrite !length_be_bytes].
  apply app_inj_1 in Heq as [E3 Heq]; [|by rewrite !length_be_bytes].
  unfold u64_ok, MAX_ENTRIES in *. rewrite !as_u16_small in E3 by (unfold u16_ok; lia).
  apply be_bytes_inj in E2; [|change (256 ^ Z.of_nat 8) with (2 ^ 64); lia..].
  apply be_bytes_inj in E3; [|change (256 ^ Z.of_nat 2) with (2 ^ 16); lia..].
  apply signing_entries_inj in Heq; [|done|done|lia].
  destruct f as [[o] q es sg], f' as [[o'] q' es' sg']. unfold with_signature. cbn in *. by subst.
Qed.

(** Integrity of route updates: if the only messages that verify under a
    peer's key are those the peer signed, then an update that
    [verify_route_update] accepts has the origin, the sequence number and the
    very entries of an update the peer signed; the zero signature is never
    accepted. *)
Theorem verified_update_is_authentic f key issued :
  RouteUpdateFrame_wf f → Forall RouteUpdateFrame_wf issued →
  (∀ msg sig, verify key msg sig = true → ∃ g, g ∈ issued ∧ msg = signing_bytes g) →
  verify_route_update f key = true →
  ru_signature f ≠ replicate 64 0 ∧
  ∃ g, g ∈ issued ∧ ru_origin_id f = ru_origin_id g ∧ ru_sequence f = ru_sequence g ∧ ru_entries f = ru_entries g.
Proof.
  intros Hf Hi Hun. unfold verify_route_update. case_bool_decide as Hz; [done|]. intros (g & Hg & Heq)%Hun. split; [done|].
  exists g. rewrite Forall_forall in Hi. rewrite (signing_bytes_determine g f) by (try done; auto). done.
Qed.
End Signing.

(** A scheme in which exactly one frame was signed. *)
Definition sample_signed : RouteUpdateFrame :=
  {| ru_origin_id := sample_id 1; ru_sequence := 7;
     ru_entries := [{| re_destination := sample_id 1; re_hops := 0; re_flags := 1; re_mesh_ip := [10; 77; 0; 1] |}];
     ru_signature := replicate 64 1 |}.
Definition sample_verify (key : unit) (msg sig : list Z) : bool := bool_decide (msg = signing_bytes sample_signed).

Lemma verified_update_is_authentic_witness :
  ru_signature sample_signed ≠ replicate 64 0 ∧
  ∃ g, g ∈ [sample_signed] ∧ ru_origin_id sample_signed = ru_origin_id g ∧ ru_sequence sample_signed = ru_sequence g ∧
    ru_entries sample_signed = ru_entries g.
Proof.
  assert (Hwf : RouteUpdateFrame_wf sample_signed) by (by apply (bool_decide_unpack _); vm_compute).
  apply (verified_update_is_authentic sample_verify sample_signed () [sample_signed]).
  - exact Hwf.
  - by apply Forall_singleton.
  - intros msg sig Hv%bool_decide_eq_true. exists sample_signed. split; [by left|exact Hv].
  - vm_compute. reflexivity.
Defined.

(** ** Authorization *)
Inductive AuthorizationPolicy := AllowAll | AllowList | TrustOnFirstUse.
#[export] Instance AuthorizationPolicy_eq_dec : EqDecision AuthorizationPolicy.
Proof. solve_decision. Defined.

Inductive AuthorizationDecision := Allowed | TrustedOnFirstUse | Rejected.

Record AuthorizationManager := {
  am_policy : AuthorizationPolicy;
  am_allow_list : gset NodeId;
  am_trusted_peers : gset NodeId;
}.

(** [loaded] is what the trust store held. *)
Definition AuthorizationManager_new (policy : AuthorizationPolicy) (allow loaded : gset NodeId) : AuthorizationManager :=
  {| am_policy := policy; am_allow_list := allow;
     am_trusted_peers := if bool_decide (policy = TrustOnFirstUse) then loaded else ∅ |}.

Definition set_trusted (s : gset NodeId) (m : AuthorizationManager) : AuthorizationManager :=
  {| am_policy := am_policy m; am_allow_list := am_allow_list m; am_trusted_peers := s |}.

Definition authorize_discovered_peer (peer : NodeId) (m : AuthorizationManager) : bool :=
  match am_policy m with
  | AllowAll | TrustOnFirstUse => true
  | AllowList => bool_decide (peer ∈ am_allow_list m)
  end.

(** [persisted] is whether writing the trust store succeeded. *)
Definition authorize_authenticated_peer (persisted : bool) (peer : NodeId) (m : AuthorizationManager)
  : outcome unit AuthorizationDecision * AuthorizationManager :=
  match am_policy m with
  | AllowAll => (Ok Allowed, m)
  | AllowList => (Ok (if bool_decide (peer ∈ am_allow_list m) then Allowed else Rejected), m)
  | TrustOnFirstUse =>
    if bool_decide (peer ∈ am_trusted_peers m) then (Ok Allowed, m) else
    let m := set_trusted ({[peer]} ∪ am_trusted_peers m) m in
    if negb persisted then (Err tt, set_trusted (am_trusted_peers m ∖ {[peer]}) m)
    else (Ok TrustedOnFirstUse, m)
  end.

Definition is_accepted (d : outcome unit AuthorizationDecision) : bool :=
  match d with Ok Allowed | Ok TrustedOnFirstUse => true | _ => false end.

(** Peers authorized one after the other. *)
Fixpoint authorize_all (requests : list (bool * NodeId)) (m : AuthorizationManager)
  : list (outcome unit AuthorizationDecision) * AuthorizationManager :=
  match requests with
  | [] => ([], m)
  | (persisted, peer) :: rs =>
    let '(d, m) := authorize_authenticated_peer persisted peer m in
    let '(ds, m) := authorize_all rs m in (d :: ds, m)
  end.

Lemma authorize_policy persisted peer m :
  am_policy (authorize_authenticated_peer persisted peer m).2 = am_policy m ∧
  am_allow_list (authorize_authenticated_peer persisted peer m).2 = am_allow_list m ∧
  am_trusted_peers m ⊆ am_trusted_peers (authorize_authenticated_peer persisted peer m).2.
Proof.
  unfold authorize_authenticated_peer. destruct (am_policy m) eqn:E; cbn; try (by rewrite ?E).
  case_bool_decide as Hp; cbn; [by rewrite E|]. destruct persisted; cbn; rewrite E; split_and!; try done; set_solver.
Qed.

(** Authorization: with an allow list a peer is accepted exactly when it is
    listed; under trust on first use a peer that was once accepted is
    accepted ever after, whatever other peers ask in between, and a peer is
    remembered only when the trust store was written. *)
Theorem authorization_policy m persisted peer rs persisted' :
  let '(d, m1) := authorize_authenticated_peer persisted peer m in
  let m2 := (authorize_all rs m1).2 in
  (am_policy m = AllowList → (is_accepted d = true ↔ peer ∈ am_allow_list m) ∧ m1 = m) ∧
  (is_accepted d = true → is_accepted (authorize_authenticated_peer persisted' peer m2).1 = true) ∧
  (is_accepted d = false → m1 = m).
Proof.
  destruct (authorize_authenticated_peer persisted peer m) as [d m1] eqn:E. intros m2.
  pose proof (authorize_policy persisted peer m) as Hpol. rewrite E in Hpol. cbn [snd] in Hpol. destruct Hpol as (Hp1 & Ha1 & Ht1).
  assert (Hkeep : ∀ rs m, am_policy (authorize_all rs m).2 = am_policy m ∧ am_allow_list (authorize_all rs m).2 = am_allow_list m ∧
    am_trusted_peers m ⊆ am_trusted_peers (authorize_all rs m).2).
  { induction rs0 as [|[b q] rs0 IH]; intros m0; cbn [authorize_all]; [done|].
    destruct (authorize_authenticated_peer b q m0) as [d0 m0'] eqn:E0. pose proof (authorize_policy b q m0) as (H1 & H2 & H3).
    rewrite E0 in H1, H2, H3. cbn [snd] in *. destruct (IH m0') as (H4 & H5 & H6). destruct (authorize_all rs0 m0'). cbn in *.
    split_and!; [congruence|congruence|set_solver]. }
  destruct (Hkeep rs m1) as (Hp2 & Ha2 & Ht2). fold m2 in Hp2, Ha2, Ht2. unfold authorize_authenticated_peer in *.
  rewrite Hp2, Hp1. destruct (am_policy m) eqn:Epol; try rewrite Epol in E; split_and!; try done.
  - intros _. by simplify_eq.
  - intros _. simplify_eq. case_bool_decide; cbn; naive_solver.
  - simplify_eq. rewrite Ha2. cbn. case_bool_decide; done.
  - simplify_eq. done.
  - intros Hacc. assert (Hin : peer ∈ am_trusted_peers m1).
    { case_bool_decide; [by simplify_eq|]. destruct persisted; cbn [negb] in E; injection E as <- <-; [cbn; set_solver|done]. }
    rewrite bool_decide_eq_true_2 by set_solver. done.
  - intros Hrej. case_bool_decide; [by simplify_eq|]. destruct persisted; cbn [negb] in E; injection E as <- <-; [done|].
    destruct m as [pol al tp]. cbn in *. unfold set_trusted. cbn. f_equal. apply set_eq. intros x. set_solver.
Qed.

(** ** Reputation *)
Definition BLACKLIST_THRESHOLD : Z := 10.
Definition u32_MAX : Z := 2 ^ 32 - 1.
Notation scores := (gmap NodeId Z).

Definition record_failure (peer : NodeId) (s : scores) : bool * scores :=
  let score := Z.min (default 0 (s !! peer) + 1) u32_MAX in
  (score =? BLACKLIST_THRESHOLD, <[peer := score]> s).

Definition record_success (peer : NodeId) (s : scores) : scores :=
  match s !! peer with
  | Some score => <[peer := saturating_sub score 1]> s
  | None => s
  end.

Definition reputation_is_blacklisted (peer : NodeId) (s : scores) : bool :=
  BLACKLIST_THRESHOLD <=? default 0 (s !! peer).

Definition pardon (peer : NodeId) (s : scores) : scores := delete peer s.

(** Reputation: a score stays within 32 bits and reflects the history: each
    failure adds one (up to the maximum), each success takes one away but not
    below zero, other peers are untouched, and [record_failure] reports
    exactly the crossing of the blacklist threshold. *)
Theorem reputation_threshold peer s :
  0 ≤ default 0 (s !! peer) ≤ u32_MAX →
  let '(newly, s') := record_failure peer s in
  (newly = true ↔ reputation_is_blacklisted peer s = false ∧ reputation_is_blacklisted peer s' = true) ∧
  0 ≤ default 0 (s' !! peer) ≤ u32_MAX ∧
  default 0 (record_success peer s !! peer) = Z.max 0 (default 0 (s !! peer) - 1) ∧
  (∀ q, q ≠ peer → s' !! q = s !! q ∧ record_success peer s !! q = s !! q).
Proof.
  intros Hs. unfold record_failure, record_success, reputation_is_blacklisted, BLACKLIST_THRESHOLD, u32_MAX, saturating_sub in *.
  cbv beta iota zeta. rewrite !lookup_insert_eq.
  change (2 ^ 32 - 1) with 4294967295 in *. split_and!.
  - change (default 0 (Some ?x)) with x. rewrite Z.eqb_eq, Z.leb_le, Z.leb_gt. lia.
  - change (default 0 (Some ?x)) with x. lia.
  - change (default 0 (Some ?x)) with x. lia.
  - destruct (s !! peer) as [x|] eqn:E; [rewrite lookup_insert_eq|rewrite E]; cbn in *; lia.
  - intros q Hq. rewrite lookup_insert_ne by done. split; [done|]. destruct (s !! peer); [|done]. by rewrite lookup_insert_ne.
Qed.

Lemma reputation_threshold_witness :
  (record_failure (sample_id 1) {[ sample_id 1 := BLACKLIST_THRESHOLD - 1 ]}).1 = true.
Proof.
  pose proof (reputation_threshold (sample_id 1) {[ sample_id 1 := BLACKLIST_THRESHOLD - 1 ]}) as H.
  destruct (record_failure _ _) as [newly s'] eqn:E. destruct H as [H _]; [by vm_compute|].
  apply H. vm_compute in E. injection E as _ <-. split; vm_compute; reflexivity.
Defined.
