(* ===== verification/RateLimiter.v ===== *)
(** * The rate limiter (crates/pim-daemon/src/rate_limiter.rs)

    A token bucket per peer, in the binary64 arithmetic the code computes with
    ([SpecFloat] of the Standard Library, precision 53, exponents up to 1024).
    An [Instant] is a number of nanoseconds. *)

From Stdlib Require Import Floats.SpecFloat.
From S2P Require Import Prelude Core.

(** ** f64 *)
Notation f64 := spec_float.
Definition f64_add : f64 → f64 → f64 := SFadd 53 1024.
Definition f64_sub : f64 → f64 → f64 := SFsub 53 1024.
Definition f64_mul : f64 → f64 → f64 := SFmul 53 1024.
Definition f64_div : f64 → f64 → f64 := SFdiv 53 1024.
(** [n as f64]. *)
Definition as_f64 (n : Z) : f64 := binary_normalize 53 1024 n 0 false.
(** [f64::min]: the other operand when one is not a number. *)
Definition f64_min (a b : f64) : f64 :=
  match a, b with
  | S754_nan, _ => b
  | _, S754_nan => a
  | _, _ => if SFltb b a then b else a
  end.
Definition f64_ge (a b : f64) : bool := SFleb b a.
(** [Duration::as_secs_f64]. *)
Definition as_secs_f64 (nanos : Z) : f64 := f64_add (as_f64 (nanos / 10 ^ 9)) (f64_div (as_f64 (nanos mod 10 ^ 9)) (as_f64 (10 ^ 9))).

(** ** Buckets *)
Definition DEFAULT_BURST : Z := 500.
Definition DEFAULT_RATE : f64 := as_f64 200.
Record TokenBucket := MkBucket { tb_capacity : Z; tb_tokens : f64; tb_refill_rate : f64; tb_last_refill : Z }.
Definition TokenBucket_new (now capacity : Z) (refill_rate : f64) : TokenBucket := MkBucket capacity (as_f64 capacity) refill_rate now.
(** [duration_since] of an earlier instant is zero. *)
Definition try_consume (now : Z) (b : TokenBucket) : bool * TokenBucket :=
  let elapsed := as_secs_f64 (Z.max 0 (now - tb_last_refill b)) in
  let tokens := f64_min (f64_add (tb_tokens b) (f64_mul elapsed (tb_refill_rate b))) (as_f64 (tb_capacity b)) in
  if f64_ge tokens (as_f64 1) then (true, MkBucket (tb_capacity b) (f64_sub tokens (as_f64 1)) (tb_refill_rate b) now)
  else (false, MkBucket (tb_capacity b) tokens (tb_refill_rate b) now).

(** ** The limiter *)
Record RateLimiter := MkLimiter { rl_buckets : gmap NodeId TokenBucket; rl_capacity : Z; rl_refill_rate : f64 }.
Definition RateLimiter_new (capacity : Z) (refill_rate : f64) : RateLimiter := MkLimiter ∅ capacity refill_rate.
Definition set_buckets (m : gmap NodeId TokenBucket) (l : RateLimiter) : RateLimiter := MkLimiter m (rl_capacity l) (rl_refill_rate l).
Definition allow (now : Z) (peer_id : NodeId) (l : RateLimiter) : bool * RateLimiter :=
  let b := default (TokenBucket_new now (rl_capacity l) (rl_refill_rate l)) (rl_buckets l !! peer_id) in
  let '(ok, b) := try_consume now b in
  (ok, set_buckets (<[peer_id := b]> (rl_buckets l)) l).
Definition rl_remove_peer (peer_id : NodeId) (l : RateLimiter) : RateLimiter := set_buckets (delete peer_id (rl_buckets l)) l.

(** What happens to a limiter, in the order of its lock. *)
Inductive LimiterEvent := FrameFrom (now : Z) (peer : NodeId) | PeerGone (peer : NodeId).
Definition event_peer (e : LimiterEvent) : NodeId := match e with FrameFrom _ p | PeerGone p => p end.
(** The answers, each with the peer whose frame it is about. *)
Fixpoint limiter_run (es : list LimiterEvent) (l : RateLimiter) : list (NodeId * bool) :=
  match es with
  | [] => []
  | FrameFrom now p :: es => let '(ok, l) := allow now p l in (p, ok) :: limiter_run es l
  | PeerGone p :: es => limiter_run es (rl_remove_peer p l)
  end.

(** ** One peer's answers are its own *)
Definition agree (p : NodeId) (l l' : RateLimiter) : Prop :=
  rl_buckets l !! p = rl_buckets l' !! p ∧ rl_capacity l = rl_capacity l' ∧ rl_refill_rate l = rl_refill_rate l'.
Lemma allow_agree now p l l' : agree p l l' → (allow now p l).1 = (allow now p l').1 ∧ agree p (allow now p l).2 (allow now p l').2.
Proof.
  intros (Hb & Hc & Hr). unfold allow. rewrite Hb, Hc, Hr. destruct (try_consume _ _) as [ok b]. split; [done|]. split_and!; [|done|done]. cbn. by rewrite !lookup_insert_eq.
Qed.
Lemma allow_other now p q l l' : p ≠ q → agree p l l' → agree p (allow now q l).2 l'.
Proof.
  intros Hne (Hb & Hc & Hr). unfold allow. destruct (try_consume _ _) as [ok b]. split_and!; [|done|done]. cbn. by rewrite lookup_insert_ne by done.
Qed.
Lemma run_agree p es l l' : agree p l l' →
  filter (λ a, a.1 = p) (limiter_run es l) = limiter_run (filter (λ e, event_peer e = p) es) l'.
Proof.
  revert l l'. induction es as [|[now q|q] es IH]; intros l l' Ha; [done|..]; cbn [limiter_run]; rewrite (filter_cons _ _ es); cbn [event_peer].
  - destruct (decide (q = p)) as [->|Hne].
    + destruct (allow_agree now p l l' Ha) as [Ho Ha']. cbn [limiter_run]. destruct (allow now p l) as [ok l1], (allow now p l') as [ok' l1']. cbn [fst snd] in *. subst ok'.
      rewrite filter_cons, decide_True by done. f_equal. by apply IH.
    + pose proof (allow_other now p q l l' ltac:(done) Ha) as Ha'. destruct (allow now q l) as [ok l1]. cbn [fst snd] in *.
      rewrite filter_cons, decide_False by done. by apply IH.
  - destruct (decide (q = p)) as [->|Hne]; cbn [limiter_run]; apply IH; destruct Ha as (Hb & Hc & Hr); (split_and!; [|done|done]); cbn.
    + by rewrite !lookup_delete_eq.
    + by rewrite lookup_delete_ne.
Qed.

(** ** The burst *)
Fixpoint consume_n (n : nat) (now : Z) (b : TokenBucket) : list bool * TokenBucket :=
  match n with
  | O => ([], b)
  | S n => let '(ok, b) := try_consume now b in let '(oks, b) := consume_n n now b in (ok :: oks, b)
  end.
Lemma consume_app m n now b : consume_n (m + n) now b =
  let '(oks, b) := consume_n m now b in let '(oks', b) := consume_n n now b in (oks ++ oks', b).
Proof.
  revert b. induction m as [|m IH]; intros b; cbn [consume_n Nat.add]; [by destruct (consume_n n now b)|].
  destruct (try_consume now b) as [ok b1]. rewrite IH. destruct (consume_n m now b1) as [oks b2]. by destruct (consume_n n now b2).
Qed.
Lemma consume_length n now b : length (consume_n n now b).1 = n.
Proof. revert b. induction n as [|n IH]; intros b; [done|]. cbn [consume_n]. destruct (try_consume now b) as [ok b1]. specialize (IH b1). destruct (consume_n n now b1). cbn in *. by rewrite IH. Qed.
(** Without time passing only the tokens matter. *)
Definition step_tokens (t : f64) : bool * f64 :=
  let tokens := f64_min (f64_add t (f64_mul (as_secs_f64 0) DEFAULT_RATE)) (as_f64 DEFAULT_BURST) in
  if f64_ge tokens (as_f64 1) then (true, f64_sub tokens (as_f64 1)) else (false, tokens).
Fixpoint tokens_n (n : nat) (t : f64) : list bool * f64 :=
  match n with
  | O => ([], t)
  | S n => let '(ok, t) := step_tokens t in let '(oks, t) := tokens_n n t in (ok :: oks, t)
  end.
Lemma try_consume_now now t : try_consume now (MkBucket DEFAULT_BURST t DEFAULT_RATE now) = let '(ok, t) := step_tokens t in (ok, MkBucket DEFAULT_BURST t DEFAULT_RATE now).
Proof.
  unfold try_consume, step_tokens. cbn [tb_tokens tb_capacity tb_refill_rate tb_last_refill]. rewrite Z.sub_diag. change (Z.max 0 0) with 0. by destruct (f64_ge _ _).
Qed.
Lemma consume_now n now t : consume_n n now (MkBucket DEFAULT_BURST t DEFAULT_RATE now) = let '(oks, t) := tokens_n n t in (oks, MkBucket DEFAULT_BURST t DEFAULT_RATE now).
Proof.
  revert t. induction n as [|n IH]; intros t; [done|]. cbn [consume_n tokens_n]. rewrite try_consume_now. destruct (step_tokens t) as [ok t1]. rewrite IH. by destruct (tokens_n n t1).
Qed.
Lemma burst_tokens : tokens_n 500 (as_f64 DEFAULT_BURST) = (replicate 500 true, S754_zero false).
Proof. by vm_compute. Qed.
Lemma empty_tokens n : tokens_n n (S754_zero false) = (replicate n false, S754_zero false).
Proof. induction n as [|n IH]; [done|]. cbn [tokens_n]. change (step_tokens (S754_zero false)) with (false, S754_zero false). cbv beta iota. by rewrite IH. Qed.
Lemma replicate_prefix {X} n (x : X) a b : a ++ b = replicate n x → a = replicate (length a) x.
Proof. revert n. induction a as [|y a IH]; intros [|n]; [done..|]. cbn [app replicate length]. intros [= -> E]. f_equal. by eapply IH. Qed.
Lemma burst_answers n now : (consume_n n now (TokenBucket_new now DEFAULT_BURST DEFAULT_RATE)).1 = replicate (n `min` 500) true ++ replicate (n - 500) false.
Proof.
  unfold TokenBucket_new. destruct (decide (n ≤ 500)%nat) as [Hn|Hn].
  - assert (Hall := consume_now 500 now (as_f64 DEFAULT_BURST)). rewrite burst_tokens in Hall. replace 500%nat with (n + (500 - n))%nat in Hall at 1 by lia. rewrite consume_app in Hall.
    pose proof (consume_length n now (MkBucket DEFAULT_BURST (as_f64 DEFAULT_BURST) DEFAULT_RATE now)) as Hl.
    destruct (consume_n n now _) as [oks b]. destruct (consume_n (500 - n) now b) as [oks' b']. apply (f_equal fst) in Hall. cbn [fst] in *.
    replace (n - 500)%nat with 0%nat by lia. rewrite Nat.min_l by done. rewrite app_nil_r, <- Hl. by eapply replicate_prefix.
  - replace n with (500 + (n - 500))%nat at 1 by lia. rewrite consume_app, consume_now, burst_tokens. cbv beta iota. rewrite consume_now, empty_tokens. cbv beta iota. cbn [fst].
    rewrite Nat.min_r by lia. done.
Qed.

Lemma run_consume p n now b l : rl_buckets l !! p = Some b → (limiter_run (replicate n (FrameFrom now p)) l).*2 = (consume_n n now b).1.
Proof.
  revert b l. induction n as [|n IH]; intros b l Hb; [done|]. cbn [replicate limiter_run consume_n]. unfold allow. rewrite Hb. cbn [default from_option id].
  destruct (try_consume now b) as [ok b1]. cbn [fmap list_fmap snd]. rewrite (IH b1) by apply lookup_insert_eq. by destruct (consume_n n now b1).
Qed.

(** ** Theorems *)

(** However the frames of other peers fall in between, and whenever those
    come or go, a peer's frames are passed or dropped as if it were alone. *)
Theorem peers_independent p es capacity rate :
  filter (λ a, a.1 = p) (limiter_run es (RateLimiter_new capacity rate)) =
  limiter_run (filter (λ e, event_peer e = p) es) (RateLimiter_new capacity rate).
Proof. by apply run_agree. Qed.

(** C37: A peer that sends at one instant gets the burst through and not a frame
    more, whatever the other peers do meanwhile. *)
Theorem burst_limited p es now n :
  filter (λ e, event_peer e = p) es = replicate n (FrameFrom now p) →
  (filter (λ a, a.1 = p) (limiter_run es (RateLimiter_new DEFAULT_BURST DEFAULT_RATE))).*2 = replicate (n `min` 500) true ++ replicate (n - 500) false.
Proof.
  intros He. rewrite (run_agree p es _ (RateLimiter_new DEFAULT_BURST DEFAULT_RATE)), He by done. rewrite <- burst_answers with (now := now).
  destruct n as [|n]; [done|]. cbn [replicate limiter_run consume_n]. unfold allow at 1. cbn [rl_buckets RateLimiter_new]. rewrite lookup_empty. cbn [default from_option id rl_capacity rl_refill_rate].
  destruct (try_consume now _) as [ok b1]. cbn [fmap list_fmap snd]. rewrite (run_consume p n now b1) by apply lookup_insert_eq. by destruct (consume_n n now b1).
Qed.

Lemma burst_limited_witness :
  let es := flat_map (λ i : nat, [FrameFrom 0 (sample_id 1); FrameFrom (Z.of_nat i * 10 ^ 9) (sample_id 2); PeerGone (sample_id 3)]) (seq 0 600) in
  (filter (λ a, a.1 = sample_id 1) (limiter_run es (RateLimiter_new DEFAULT_BURST DEFAULT_RATE))).*2 = replicate 500 true ++ replicate 100 false.
Proof. intros es. apply (burst_limited (sample_id 1) es 0 600). by vm_compute. Defined.
(** A drained bucket passes 200 frames more for each second, up to the burst. *)
Example refill_per_second :
  let b := (consume_n 500 0 (TokenBucket_new 0 DEFAULT_BURST DEFAULT_RATE)).2 in
  map (λ s : Z, length (List.filter id (consume_n 600 (s * 10 ^ 9) b).1)) [0; 1; 2; 3; 60] = [0; 200; 400; 500; 500]%nat.
Proof. by vm_compute. Qed.
