(* ===== verification/E2e.v ===== *)
(** * End-to-end encryption (crates/pim-crypto/src/e2e.rs)

    ECIES between a client and its gateway.  X25519 and HKDF are third-party
    code and so parameters, with the symmetry of Diffie-Hellman as their law;
    the ephemeral secret and the nonce, drawn at random by the code, are
    arguments.  The messaging bodies that carry such ciphertexts
    (crates/pim-messaging/src/wire.rs) are here too. *)

From S2P Require Import Prelude Core Session.

Class Ecdh := {
  x25519_public : list Z → list Z;
  diffie_hellman : list Z → list Z → list Z;
  hkdf32 : list Z → string → list Z;
}.

Class LawfulEcdh (D : Ecdh) : Prop := {
  dh_comm : ∀ a b, diffie_hellman a (x25519_public b) = diffie_hellman b (x25519_public a);
  public_length : ∀ a, length (x25519_public a) = 32%nat;
}.

Inductive E2eError := TooShort | E2eDecryptionFailed | E2eEncryptionFailed.

Definition EPHEMERAL_PUB_SIZE : nat := 32.
Definition E2E_NONCE_SIZE : nat := 12.
Definition E2E_TAG_SIZE : nat := 16.
Definition E2E_HEADER_SIZE : nat := EPHEMERAL_PUB_SIZE + E2E_NONCE_SIZE.

Section E2e.
Context {A : Aead} {D : Ecdh}.

Definition derive_e2e_cipher (shared_secret : list Z) : list Z := hkdf32 shared_secret "pim-e2e-v1".
Definition x25519_from_seed (seed : list Z) : list Z := hkdf32 seed "pim-x25519-identity-v1".
Definition x25519_public_from_seed (seed : list Z) : list Z := x25519_public (x25519_from_seed seed).

Definition e2e_encrypt (ephemeral_secret nonce plaintext gateway_pub : list Z) : outcome E2eError (list Z) :=
  let ephemeral_pub := x25519_public ephemeral_secret in
  let shared_secret := diffie_hellman ephemeral_secret gateway_pub in
  let cipher := derive_e2e_cipher shared_secret in
  match aead_seal cipher nonce plaintext with
  | None => Err E2eEncryptionFailed
  | Some (ciphertext, tag) => Ok (ephemeral_pub ++ nonce ++ ciphertext ++ tag)
  end.

(** [&mut ciphertext[HEADER_SIZE..tag_start]] is decrypted where it lies. *)
Definition e2e_decrypt (ciphertext seed : list Z) : outcome E2eError (list Z) :=
  if bool_decide (length ciphertext < E2E_HEADER_SIZE + E2E_TAG_SIZE)%nat then Err TooShort else
  let? ephemeral_pub := slice 0 32 ciphertext in
  let? nonce := slice 32 44 ciphertext in
  let gw_secret := x25519_from_seed seed in
  let cipher := derive_e2e_cipher (diffie_hellman gw_secret ephemeral_pub) in
  let tag_start := (length ciphertext - E2E_TAG_SIZE)%nat in
  let? tag := slice tag_start (length ciphertext) ciphertext in
  let? payload := slice E2E_HEADER_SIZE tag_start ciphertext in
  match aead_open cipher nonce payload tag with
  | None => Err E2eDecryptionFailed
  | Some plaintext => Ok plaintext
  end.

(** [copy_within] moves the ciphertext to the front, [truncate] cuts the rest. *)
Definition e2e_decrypt_in_place (buffer seed : list Z) : outcome E2eError (list Z) :=
  if bool_decide (length buffer < E2E_HEADER_SIZE + E2E_TAG_SIZE)%nat then Err TooShort else
  let? ephemeral_pub := slice 0 32 buffer in
  let? nonce := slice 32 44 buffer in
  let gw_secret := x25519_from_seed seed in
  let cipher := derive_e2e_cipher (diffie_hellman gw_secret ephemeral_pub) in
  let ct_len := (length buffer - E2E_HEADER_SIZE - E2E_TAG_SIZE)%nat in
  let? tag := slice (length buffer - E2E_TAG_SIZE) (length buffer) buffer in
  let? moved := slice E2E_HEADER_SIZE (E2E_HEADER_SIZE + ct_len) buffer in
  let? buffer := copy_from_slice 0 ct_len moved buffer in
  let buffer := take ct_len buffer in
  match aead_open cipher nonce buffer tag with
  | None => Err E2eDecryptionFailed
  | Some plaintext => Ok plaintext
  end.

Context {HA : LawfulAead A} {HD : LawfulEcdh D}.

Lemma e2e_opens ephemeral nonce plaintext seed out :
  length nonce = 12%nat →
  e2e_encrypt ephemeral nonce plaintext (x25519_public_from_seed seed) = Ok out →
  e2e_decrypt out seed = Ok plaintext.
Proof using HA HD.
  intros Hn. unfold e2e_encrypt. destruct (aead_seal _ _ _) as [[ct tag]|] eqn:Es; [|done]. intros [= <-].
  pose proof (aead_seal_length _ _ _ _ _ Es) as [_ Ht]. pose proof (public_length ephemeral) as Hp.
  set (segs := [x25519_public ephemeral; nonce; ct; tag]).
  assert (He : x25519_public ephemeral ++ nonce ++ ct ++ tag = concat segs ++ []).
  { unfold segs. cbn [concat]. by rewrite !app_nil_r. }
  assert (Hl : length (concat segs ++ []) = (60 + length ct)%nat).
  { rewrite app_nil_r, length_concat_segs. unfold segs. seg_lia. }
  rewrite He. clear He. subst segs. unfold e2e_decrypt, E2E_HEADER_SIZE, E2E_TAG_SIZE, EPHEMERAL_PUB_SIZE, E2E_NONCE_SIZE. rewrite Hl.
  rewrite bool_decide_eq_false_2 by lia. seg 0%nat. seg 1%nat. seg 3%nat. seg 2%nat.
  unfold x25519_public_from_seed in Es. rewrite dh_comm in Es. by rewrite (aead_open_seal _ _ _ _ _ Es).
Qed.

(** End-to-end round trip: what a client seals for a gateway's public key
    with any ephemeral secret and nonce, the gateway opens with the seed that
    key was derived from, and gets the packet back. *)
Theorem e2e_roundtrip ephemeral nonce plaintext seed out :
  length nonce = 12%nat →
  e2e_encrypt ephemeral nonce plaintext (x25519_public_from_seed seed) = Ok out →
  e2e_decrypt out seed = Ok plaintext.
Proof using HA HD. apply e2e_opens. Qed.

(** The in-place decryption used by the event loop agrees with the
    allocating one on every buffer, errors included, and neither panics. *)
Theorem e2e_in_place_agrees buffer seed :
  e2e_decrypt_in_place buffer seed = e2e_decrypt buffer seed ∧ e2e_decrypt buffer seed ≠ Panic.
Proof using Type.
  unfold e2e_decrypt_in_place, e2e_decrypt, E2E_HEADER_SIZE, E2E_TAG_SIZE, EPHEMERAL_PUB_SIZE, E2E_NONCE_SIZE.
  case_bool_decide as Hlen; [done|]. rewrite !slice_Ok by lia. cbn [obind].
  rewrite copy_from_slice_Ok by (rewrite ?length_take, ?length_drop; lia). cbn [obind take app].
  set (n := (length buffer - (32 + 12) - 16)%nat).
  replace (32 + 12 + n - (32 + 12))%nat with n by lia.
  replace (length buffer - 16 - (32 + 12))%nat with n by lia.
  rewrite take_0, app_nil_l.
  rewrite (take_app_le (take n (drop (32 + 12) buffer))) by (rewrite length_take, length_drop; lia).
  rewrite take_take, Nat.min_id.
  split; [done|]. by destruct (aead_open _ _ _ _).
Qed.
End E2e.

(** An instance to evaluate on: adding keys byte by byte is commutative. *)
Definition pad32 (k : list Z) : list Z := take 32 (k ++ replicate 32 0).
Definition toy_ecdh : Ecdh := {|
  x25519_public := pad32;
  diffie_hellman a p := zip_with Z.add (pad32 a) p;
  hkdf32 s _ := s;
|}.

#[export] Instance toy_ecdh_lawful : LawfulEcdh toy_ecdh.
Proof.
  split; cbn.
  - intros a b. generalize (pad32 a), (pad32 b). intros l. induction l as [|x l IH]; intros [|y k]; cbn; [done..|].
    by rewrite Z.add_comm, IH.
  - intros a. unfold pad32. rewrite length_take, length_app, length_replicate. lia.
Qed.

Lemma e2e_roundtrip_witness :
  ∃ out, e2e_encrypt (A:=null_aead) (D:=toy_ecdh) [3] (replicate 12 1) [1; 2; 3]
      (x25519_public_from_seed (D:=toy_ecdh) [9]) = Ok out ∧
    e2e_decrypt (A:=null_aead) (D:=toy_ecdh) out [9] = Ok [1; 2; 3].
Proof.
  eexists. split; [vm_compute; reflexivity|].
  apply (e2e_roundtrip (A:=null_aead) (D:=toy_ecdh) [3] (replicate 12 1)); [reflexivity|vm_compute; reflexivity].
Defined.

(** ** Messaging bodies *)
Record DecodedMessage := { dm_message_id : list Z; dm_timestamp_ms : Z; dm_ciphertext : list Z }.
Record DecodedAck := { da_message_id : list Z; da_ack_kind : Z }.

Definition encode_message (message_id : list Z) (timestamp_ms : Z) (ciphertext : list Z) : list Z :=
  put_slice ciphertext (put_u64 timestamp_ms (put_slice message_id [])).

(** The error is a message with the length. *)
Definition decode_message (body : list Z) : outcome nat DecodedMessage :=
  if bool_decide (length body < 24)%nat then Err (length body) else
  let? message_id := slice 0 16 body in
  let? ts := slice 16 24 body in
  let? ciphertext := slice 24 (length body) body in
  Ok {| dm_message_id := message_id; dm_timestamp_ms := be_value ts; dm_ciphertext := ciphertext |}.

Definition encode_ack (message_id : list Z) (ack_kind : Z) : list Z := put_u8 ack_kind (put_slice message_id []).

Definition decode_ack (body : list Z) : outcome nat DecodedAck :=
  if bool_decide (length body < 17)%nat then Err (length body) else
  let? message_id := slice 0 16 body in
  let? kind := index 16 body in
  Ok {| da_message_id := message_id; da_ack_kind := kind |}.

(** Messaging bodies decode to what was encoded, and decoding any body
    returns: a value or an error, never a panic. *)
Theorem messaging_roundtrip id ts ct kind :
  length id = 16%nat → u64_ok ts →
  decode_message (encode_message id ts ct) = Ok {| dm_message_id := id; dm_timestamp_ms := ts; dm_ciphertext := ct |} ∧
  decode_ack (encode_ack id kind) = Ok {| da_message_id := id; da_ack_kind := kind |} ∧
  ∀ body, decode_message body ≠ Panic ∧ decode_ack body ≠ Panic.
Proof.
  intros Hid Hts. split_and!.
  - set (segs := [id; be_bytes 8 ts; ct]).
    assert (He : encode_message id ts ct = concat segs ++ []) by (unfold encode_message, segs; encode_segs).
    assert (Hl : length (concat segs ++ []) = (24 + length ct)%nat).
    { rewrite app_nil_r, length_concat_segs. unfold segs. seg_lia. }
    rewrite He. clear He. subst segs. unfold decode_message. rewrite Hl, bool_decide_eq_false_2 by lia. seg 0%nat. seg 1%nat. seg 2%nat.
    by rewrite be_value_be_bytes.
  - set (segs := [id; [kind]]).
    assert (He : encode_ack id kind = concat segs ++ []) by (unfold encode_ack, segs; encode_segs).
    assert (Hl : length (concat segs ++ []) = 17%nat).
    { rewrite app_nil_r, length_concat_segs. unfold segs. seg_lia. }
    rewrite He. clear He. subst segs. unfold decode_ack. rewrite Hl. seg 0%nat. by seg 1%nat.
  - intros body. unfold decode_message, decode_ack. split; by run.
Qed.

Lemma messaging_roundtrip_witness :
  let id := replicate 16 1 in
  decode_message (encode_message id 1700000000000 [1; 2]) =
    Ok {| dm_message_id := id; dm_timestamp_ms := 1700000000000; dm_ciphertext := [1; 2] |}.
Proof. intros id. apply (messaging_roundtrip id 1700000000000 [1; 2] 1); [reflexivity|by vm_compute]. Defined.
