(* ===== verification/Discovery.v ===== *)
(** * Discovery (crates/pim-discovery/src/advertisement.rs, peer_table.rs)

    The advertisement broadcast on the local network, in the clear or sealed
    under the mesh's discovery key, and the table of discovered peers. *)

From S2P Require Import Prelude Core Session.

Definition DISCOVERY_MAGIC : list Z := [0x50; 0x49; 0x4d; 0x44].
Definition DISCOVERY_VERSION : Z := 0x01.
Definition ENCRYPTED_VERSION : Z := 0x02.
Definition PACKET_SIZE : nat := 56.
Definition ENCRYPTED_PACKET_SIZE : nat := 89.

(** ** Capabilities: a byte of flags *)
Definition CAP_CLIENT : Z := 0x01.
Definition CAP_RELAY : Z := 0x02.
Definition CAP_GATEWAY : Z := 0x04.
Definition caps_client : Z := CAP_CLIENT.
Definition caps_relay : Z := Z.lor CAP_CLIENT CAP_RELAY.
Definition caps_gateway : Z := Z.lor (Z.lor CAP_CLIENT CAP_RELAY) CAP_GATEWAY.
Definition is_client (c : Z) : bool := negb (Z.land c CAP_CLIENT =? 0).
Definition is_relay (c : Z) : bool := negb (Z.land c CAP_RELAY =? 0).
Definition caps_is_gateway (c : Z) : bool := negb (Z.land c CAP_GATEWAY =? 0).

Record DiscoveryAdvertisement := {
  ad_node_id : NodeId;
  ad_public_key : list Z;
  ad_capabilities : Z;
  ad_listen_port : Z;
}.

(** ** Wire formats *)
Definition plaintext_bytes (a : DiscoveryAdvertisement) : list Z :=
  DISCOVERY_MAGIC ++ [DISCOVERY_VERSION] ++ as_bytes (ad_node_id a) ++ ad_public_key a ++
  [ad_capabilities a] ++ be_bytes 2 (ad_listen_port a).

Definition ad_serialize (a : DiscoveryAdvertisement) : list Z := plaintext_bytes a.

Definition deserialize_plaintext_payload (buf : list Z) : outcome unit DiscoveryAdvertisement :=
  if bool_decide (length buf < PACKET_SIZE)%nat then Err tt else
  let? id_bytes := slice 5 21 buf in
  let? public_key := slice 21 53 buf in
  let? caps := index 53 buf in
  let? p0 := index 54 buf in
  let? p1 := index 55 buf in
  Ok {| ad_node_id := from_bytes id_bytes; ad_public_key := public_key; ad_capabilities := caps;
        ad_listen_port := be_value [p0; p1] |}.

Definition ad_deserialize (buf : list Z) : outcome unit DiscoveryAdvertisement :=
  if bool_decide (length buf < PACKET_SIZE)%nat then Err tt else
  let? magic := slice 0 4 buf in
  if negb (bool_decide (magic = DISCOVERY_MAGIC)) then Err tt else
  let? version := index 4 buf in
  if negb (version =? DISCOVERY_VERSION) then Err tt else
  let? payload := slice 0 PACKET_SIZE buf in
  deserialize_plaintext_payload payload.

Section Encrypted.
Context {A : Aead}.

(** The nonce, drawn at random by the code, is an argument; an encryption
    failure is a failed [expect]. *)
Definition serialize_encrypted (nonce : list Z) (a : DiscoveryAdvertisement) (key : list Z) : outcome unit (list Z) :=
  match aead_seal key nonce (plaintext_bytes a) with
  | None => Panic
  | Some (ciphertext, tag) => Ok (DISCOVERY_MAGIC ++ [ENCRYPTED_VERSION] ++ nonce ++ ciphertext ++ tag)
  end.

Definition deserialize_encrypted (buf key : list Z) : outcome unit DiscoveryAdvertisement :=
  if bool_decide (length buf < ENCRYPTED_PACKET_SIZE)%nat then Err tt else
  let? magic := slice 0 4 buf in
  if negb (bool_decide (magic = DISCOVERY_MAGIC)) then Err tt else
  let? version := index 4 buf in
  if negb (version =? ENCRYPTED_VERSION) then Err tt else
  let? nonce := slice 5 17 buf in
  let? plaintext := slice 17 (17 + PACKET_SIZE) buf in
  let? tag := slice (17 + PACKET_SIZE) (17 + PACKET_SIZE + 16) buf in
  match aead_open key nonce plaintext tag with
  | None => Err tt
  | Some plaintext => deserialize_plaintext_payload plaintext
  end.
End Encrypted.

(** ** The peer table *)
Record PeerRecord := {
  pr_node_id : NodeId;
  pr_public_key : list Z;
  pr_capabilities : Z;
  pr_listen_addr : Z * Z;
  pr_last_seen : Z;
}.

Definition is_stale (max_age now : Z) (p : PeerRecord) : bool := max_age <? elapsed now (pr_last_seen p).

Notation PeerTable := (gmap NodeId PeerRecord).

Definition upsert (record : PeerRecord) (t : PeerTable) : bool * PeerTable :=
  (bool_decide (t !! pr_node_id record = None), <[pr_node_id record := record]> t).

Definition peer_remove (id : NodeId) (t : PeerTable) : option PeerRecord * PeerTable := (t !! id, delete id t).

Definition peer_expire_stale (max_age now : Z) (t : PeerTable) : list NodeId * PeerTable :=
  let stale := map (λ p, pr_node_id p.2) (List.filter (λ p, is_stale max_age now p.2) (map_to_list t)) in
  (stale, fold_left (λ t id, delete id t) stale t).

(** ** Lemmas *)
Definition ad_wf (a : DiscoveryAdvertisement) : Prop :=
  node_id_wf (ad_node_id a) ∧ length (ad_public_key a) = 32%nat ∧ u16_ok (ad_listen_port a).

Definition ad_segs (a : DiscoveryAdvertisement) : list (list Z) :=
  [DISCOVERY_MAGIC; [DISCOVERY_VERSION]; as_bytes (ad_node_id a); ad_public_key a; [ad_capabilities a];
   be_bytes 2 (ad_listen_port a)].
#[export] Hint Unfold ad_segs : segs.

Lemma plaintext_segs a : plaintext_bytes a = concat (ad_segs a).
Proof. unfold plaintext_bytes, ad_segs. cbn [concat]. by rewrite !app_nil_r. Qed.

Lemma index_of_slice {E} {a b : nat} {buf l : list Z} (Hs : slice (E:=E) a b buf = Ok l) k i x :
  k = (a + i)%nat → l !! i = Some x → index (E:=E) k buf = Ok x.
Proof.
  apply slice_inv in Hs as [-> _]. intros -> Hi. apply index_lookup.
  apply lookup_take_Some in Hi as [Hi _]. by rewrite lookup_drop in Hi.
Qed.

Lemma length_plaintext a : ad_wf a → length (plaintext_bytes a) = PACKET_SIZE.
Proof.
  intros ((Hid & _) & Hk & _). unfold plaintext_bytes. rewrite !length_app, Hid, Hk, length_be_bytes. done.
Qed.

Lemma payload_roundtrip a : ad_wf a → deserialize_plaintext_payload (plaintext_bytes a) = Ok a.
Proof.
  intros Hwf. pose proof (length_plaintext a Hwf) as Hl. destruct Hwf as ((Hid & _) & Hk & Hp).
  assert (He : plaintext_bytes a = concat (ad_segs a) ++ []) by by rewrite app_nil_r, plaintext_segs.
  unfold deserialize_plaintext_payload. rewrite Hl, bool_decide_eq_false_2 by lia. rewrite He.
  seg 2%nat. seg 3%nat. seg 4%nat.
  assert (Hs : slice (E:=unit) 54 56 (concat (ad_segs a) ++ []) = Ok (be_bytes 2 (ad_listen_port a))).
  { by seg 5%nat. }
  rewrite (index_of_slice Hs 54 0%nat (Z.land (Z.shiftr (ad_listen_port a) 8) 255)) by done.
  rewrite (index_of_slice Hs 55 1%nat (Z.land (Z.shiftr (ad_listen_port a) 0) 255)) by done. cbn [obind].
  f_equal. destruct a as [[id] k c p]. cbn in *. f_equal.
  change (be_value (be_bytes 2 p) = p). by apply be_value_be_bytes.
Qed.

Lemma ad_roundtrip a rest : ad_wf a → ad_deserialize (ad_serialize a ++ rest) = Ok a.
Proof.
  intros Hwf. pose proof (length_plaintext a Hwf) as Hl.
  unfold ad_deserialize, ad_serialize. rewrite length_app, Hl, bool_decide_eq_false_2 by lia.
  assert (He : plaintext_bytes a ++ rest = concat (ad_segs a) ++ rest) by by rewrite plaintext_segs.
  rewrite He. pose proof Hwf as ((Hid & _) & Hk & Hp).
  seg 0%nat. rewrite bool_decide_eq_true_2 by done. cbn [negb]. seg 1%nat. cbn [negb]. rewrite <- He.
  rewrite Z.eqb_refl. cbn [negb]. rewrite slice_Ok by (rewrite ?length_app; lia). cbn [obind].
  rewrite Nat.sub_0_r, drop_0, <- Hl, take_app_length. by apply payload_roundtrip.
Qed.

(** ** The theorems *)

(** A discovery advertisement survives both wire formats: the clear one,
    with anything behind it, and the sealed one under the same key; and
    reading any datagram returns, it never panics. *)
Theorem discovery_roundtrip {A : Aead} {HA : LawfulAead A} a rest nonce key out :
  ad_wf a → length nonce = 12%nat → serialize_encrypted nonce a key = Ok out →
  ad_deserialize (ad_serialize a ++ rest) = Ok a ∧ deserialize_encrypted (out ++ rest) key = Ok a ∧
  ∀ buf, ad_deserialize buf ≠ Panic ∧ deserialize_encrypted buf key ≠ Panic.
Proof.
  intros Hwf Hn Hs. pose proof (length_plaintext a Hwf) as Hl.
  assert (Htot : ∀ buf, deserialize_plaintext_payload buf ≠ Panic).
  { intros buf. unfold deserialize_plaintext_payload, PACKET_SIZE. by run. }
  split_and!.
  - by apply ad_roundtrip.
  - unfold serialize_encrypted in Hs. destruct (aead_seal _ _ _) as [[ct tag]|] eqn:Es; [|done].
    destruct (aead_seal_length _ _ _ _ _ Es) as [Hct Htag]. rewrite Hl in Hct. unfold PACKET_SIZE in Hct.
    assert (out = concat [DISCOVERY_MAGIC; [ENCRYPTED_VERSION]; nonce; ct; tag]) as ->.
    { injection Hs as <-. cbn [concat]. by rewrite app_nil_r. }
    unfold deserialize_encrypted, PACKET_SIZE, ENCRYPTED_PACKET_SIZE.
    rewrite length_app, length_concat_segs, bool_decide_eq_false_2 by (cbn; lia).
    seg 0%nat. rewrite bool_decide_eq_true_2 by done. cbn [negb]. seg 1%nat. rewrite Z.eqb_refl. cbn [negb].
    seg 2%nat. seg 3%nat. seg 4%nat. rewrite (aead_open_seal _ _ _ _ _ Es). by apply payload_roundtrip.
  - intros buf. split.
    + unfold ad_deserialize, PACKET_SIZE. by run.
    + unfold deserialize_encrypted, PACKET_SIZE, ENCRYPTED_PACKET_SIZE. run; try done. all: case_match; by run.
Qed.

(** Every record is filed under its own id. *)
Definition peer_table_ok (t : PeerTable) : Prop := map_Forall (λ id p, pr_node_id p = id) t.

Inductive peer_table_step : PeerTable → PeerTable → Prop :=
| StepUpsert record t : peer_table_step t (upsert record t).2
| StepRemove id t : peer_table_step t (peer_remove id t).2
| StepExpireStale max_age now t : peer_table_step t (peer_expire_stale max_age now t).2.

Lemma delete_all_lookup ids (t : PeerTable) id :
  fold_left (λ t id, delete id t) ids t !! id = if bool_decide (id ∈ ids) then None else t !! id.
Proof.
  revert t. induction ids as [|i ids IH]; intros t; cbn [fold_left]; [done|]. rewrite IH.
  destruct (decide (id = i)) as [->|Hne].
  - rewrite lookup_delete_eq, (bool_decide_eq_true_2 (i ∈ i :: ids)) by set_solver. by case_bool_decide.
  - rewrite lookup_delete_ne by done. repeat case_bool_decide; set_solver.
Qed.

Lemma peer_table_step_ok t t' : peer_table_step t t' → peer_table_ok t → peer_table_ok t'.
Proof.
  destruct 1; intros Hok; cbn.
  - by apply map_Forall_insert_2.
  - by apply map_Forall_delete.
  - intros id p. rewrite delete_all_lookup. case_bool_decide; [done|]. apply Hok.
Qed.

(** Expiry of discovered peers: on every table reachable from an empty one,
    [expire_stale] removes exactly the peers not heard from within the limit
    and reports exactly those. *)
Theorem peer_expiry_exact t max_age now id :
  rtc peer_table_step ∅ t →
  (peer_expire_stale max_age now t).2 !! id =
    match t !! id with Some p => if is_stale max_age now p then None else Some p | None => None end ∧
  (id ∈ (peer_expire_stale max_age now t).1 ↔ ∃ p, t !! id = Some p ∧ is_stale max_age now p = true).
Proof.
  intros Hr. assert (Hok : peer_table_ok t).
  { assert (H0 : peer_table_ok ∅) by apply map_Forall_empty. revert H0. induction Hr; eauto using peer_table_step_ok. }
  assert (Hin : id ∈ (peer_expire_stale max_age now t).1 ↔ ∃ p, t !! id = Some p ∧ is_stale max_age now p = true).
  { cbn. rewrite list_elem_of_fmap. split.
    - intros ([k p] & -> & Hp%list_elem_of_In). apply filter_In in Hp as [Hp Hs]. apply list_elem_of_In, elem_of_map_to_list in Hp.
      exists p. cbn. by rewrite (Hok _ _ Hp).
    - intros (p & Hp & Hs). exists (id, p). cbn. split; [by rewrite (Hok _ _ Hp)|]. apply list_elem_of_In, filter_In.
      split; [by apply list_elem_of_In, elem_of_map_to_list|done]. }
  split; [|done]. cbn [peer_expire_stale snd]. rewrite delete_all_lookup. case_bool_decide as Hb.
  - apply Hin in Hb as (p & -> & ->). done.
  - destruct (t !! id) as [p|] eqn:E; [|done]. destruct (is_stale max_age now p) eqn:Hs; [|done].
    destruct Hb. apply Hin. eauto.
Qed.

(** ** A concrete advertisement and a concrete table *)
Definition sample_ad : DiscoveryAdvertisement :=
  {| ad_node_id := sample_id 1; ad_public_key := replicate 32 5; ad_capabilities := caps_gateway; ad_listen_port := 9100 |}.
Definition sample_peer : PeerRecord :=
  {| pr_node_id := sample_id 1; pr_public_key := replicate 32 5; pr_capabilities := caps_gateway;
     pr_listen_addr := (0x0a000001, 9100); pr_last_seen := 0 |}.

Lemma discovery_roundtrip_witness :
  ∃ out, serialize_encrypted (A:=null_aead) (replicate 12 1) sample_ad [] = Ok out ∧
    ad_deserialize (ad_serialize sample_ad ++ [7]) = Ok sample_ad ∧
    deserialize_encrypted (A:=null_aead) (out ++ [7]) [] = Ok sample_ad.
Proof.
  destruct (discovery_roundtrip (A:=null_aead) sample_ad [7] (replicate 12 1) []
    (DISCOVERY_MAGIC ++ [ENCRYPTED_VERSION] ++ replicate 12 1 ++ plaintext_bytes sample_ad ++ null_tag)) as (H1 & H2 & _).
  - split; [by apply (bool_decide_unpack _); vm_compute|]. split; [reflexivity|by vm_compute].
  - reflexivity.
  - reflexivity.
  - eexists. split; [reflexivity|]. split; [exact H1|exact H2].
Defined.

Lemma peer_expiry_exact_witness :
  let t := (upsert sample_peer ∅).2 in
  t !! sample_id 1 = Some sample_peer ∧ (peer_expire_stale 100 101 t).2 !! sample_id 1 = None.
Proof.
  intros t. destruct (peer_expiry_exact t 100 101 (sample_id 1)) as [-> _].
  - apply rtc_once, StepUpsert.
  - split; vm_compute; reflexivity.
Defined.
