(* ===== verification/Text.v ===== *)
(** * Text

    What the daemon does with strings: characters of UTF-8 text, hexadecimal
    text, and the byte order SQLite sorts text by. *)

From S2P Require Import Prelude Core MeshAddress.

(** [s.chars().take(n)], on valid UTF-8: bytes up to the next character. *)
Fixpoint take_chars (n : nat) (s : list Z) : list Z :=
  match s with
  | [] => []
  | b :: s =>
    if utf8_cont b then b :: take_chars n s
    else match n with O => [] | S n => b :: take_chars n s end
  end.

(** [s.replace('\n', " ")] *)
Definition replace_newline (s : list Z) : list Z := map (λ b, if b =? 10 then 32 else b) s.

(** [hex_node_id], [hex16] and [hex32]: two lowercase digits per byte. *)
Definition hex (bytes : list Z) : list Z := flat_map hex_byte bytes.
Definition hex_node_id (id : NodeId) : list Z := hex (as_bytes id).
#[global] Arguments hex _ : simpl never.
#[global] Arguments hex_node_id _ : simpl never.

(** [memcmp] order of SQLite's BINARY collation. *)
Fixpoint bytes_le (a b : list Z) : bool :=
  match a, b with
  | [], _ => true
  | _ :: _, [] => false
  | x :: a, y :: b => (x <? y) || (x =? y) && bytes_le a b
  end.


(** ** UTF-8 text is a sequence of characters *)
Inductive utf8_char : list Z → Prop :=
| Char1 b : in_range 0 0x7F b = true → utf8_char [b]
| Char2 b0 b1 : in_range 0xC2 0xDF b0 && utf8_cont b1 = true → utf8_char [b0; b1]
| Char3 b0 b1 b2 : utf8_seq3 b0 b1 b2 = true → utf8_char [b0; b1; b2]
| Char4 b0 b1 b2 b3 : utf8_seq4 b0 b1 b2 b3 = true → utf8_char [b0; b1; b2; b3].

(** Turns the byte tests of the decoder into inequalities. *)
Ltac byte_tests :=
  unfold utf8_seq3, utf8_seq4, utf8_cont, in_range in *;
  repeat match goal with
  | H : context [_ && _ = true] |- _ => rewrite andb_true_iff in H
  | H : context [_ || _ = true] |- _ => rewrite orb_true_iff in H
  | H : context [_ <=? _ = true] |- _ => rewrite Z.leb_le in H
  | H : context [_ =? _ = true] |- _ => rewrite Z.eqb_eq in H
  | H : _ && _ = false |- _ => rewrite andb_false_iff in H
  | H : context [_ <=? _ = false] |- _ => rewrite Z.leb_gt in H
  end.

Lemma utf8_char_shape c : utf8_char c →
  ∃ b cont, c = b :: cont ∧ utf8_cont b = false ∧ Forall (λ x, utf8_cont x = true) cont ∧ (length c ≤ 4)%nat ∧ (b = 10 → cont = []).
Proof.
  intros Hc. assert (Hlead : ∀ b, b < 0x80 ∨ 0xBF < b → utf8_cont b = false).
  { intros b Hb. unfold utf8_cont. destruct (Z.leb_spec 0x80 b), (Z.leb_spec b 0xBF); (done || lia). }
  assert (Hcont : ∀ x, 0x80 ≤ x ≤ 0xBF → utf8_cont x = true).
  { intros x Hx. unfold utf8_cont. by rewrite !(proj2 (Z.leb_le _ _)) by lia. }
  destruct Hc as [b H|b0 b1 H|b0 b1 b2 H|b0 b1 b2 b3 H]; eexists _, _; (split; [reflexivity|]); byte_tests;
    split_and!; try (apply Hlead; lia); repeat constructor; try (apply Hcont; lia); cbn [length]; try lia; intros ->; lia.
Qed.

(** Reading past a character. *)
Lemma from_utf8_char c s : utf8_char c → from_utf8 (c ++ s) = from_utf8 s.
Proof.
  destruct 1 as [b H|b0 b1 H|b0 b1 b2 H|b0 b1 b2 b3 H]; cbn [app from_utf8]; rewrite ?H; try done.
  - destruct (in_range 0 0x7F b0) eqn:E; [byte_tests; lia|done].
  - destruct (in_range 0 0x7F b0) eqn:E; [byte_tests; lia|].
    destruct (in_range 0xC2 0xDF b0 && utf8_cont b1) eqn:E1; [byte_tests; lia|done].
  - destruct (in_range 0 0x7F b0) eqn:E; [byte_tests; lia|].
    destruct (in_range 0xC2 0xDF b0 && utf8_cont b1) eqn:E1; [byte_tests; lia|].
    destruct (utf8_seq3 b0 b1 b2) eqn:E2; [byte_tests; lia|done].
Qed.

Lemma from_utf8_chars cs : Forall utf8_char cs → from_utf8 (concat cs) = true.
Proof. induction 1 as [|c cs Hc _ IH]; [done|]. cbn [concat]. by rewrite from_utf8_char. Qed.

Lemma chars_of s : from_utf8 s = true → ∃ cs, s = concat cs ∧ Forall utf8_char cs.
Proof.
  induction s as [s IH] using (induction_ltof1 _ length). destruct s as [|b0 r0]; [by exists []|]. cbn [from_utf8].
  assert (Hstep : ∀ c r, utf8_char c → (length r < length (b0 :: r0))%nat → b0 :: r0 = c ++ r → from_utf8 r = true →
    ∃ cs, b0 :: r0 = concat cs ∧ Forall utf8_char cs).
  { intros c r Hc Hl -> Hr. destruct (IH r) as (cs & -> & Hcs); [done|done|]. exists (c :: cs). split; [done|by constructor]. }
  destruct (in_range 0 0x7F b0) eqn:E0; [apply (Hstep [b0]); [by constructor|cbn; lia|done]|].
  destruct r0 as [|b1 r1]; [done|]. destruct (in_range 0xC2 0xDF b0 && utf8_cont b1) eqn:E1;
    [apply (Hstep [b0; b1]); [by constructor|cbn; lia|done]|].
  destruct r1 as [|b2 r2]; [done|]. destruct (utf8_seq3 b0 b1 b2) eqn:E2; [apply (Hstep [b0; b1; b2]); [by constructor|cbn; lia|done]|].
  destruct r2 as [|b3 r3]; [done|]. destruct (utf8_seq4 b0 b1 b2 b3) eqn:E3; [|done].
  apply (Hstep [b0; b1; b2; b3]); [by constructor|cbn; lia|done].
Qed.

Lemma take_chars_concat n cs : Forall utf8_char cs → take_chars n (concat cs) = concat (take n cs).
Proof.
  assert (Hcont : ∀ n cont s, Forall (λ x, utf8_cont x = true) cont → take_chars n (cont ++ s) = cont ++ take_chars n s).
  { intros m cont s. induction 1 as [|x cont Hx _ IH]; [done|]. cbn [app take_chars]. by rewrite Hx, IH. }
  intros Hcs. revert n. induction Hcs as [|c cs Hc _ IH]; intros n; [by destruct n|]. cbn [concat].
  destruct (utf8_char_shape c Hc) as (b & cont & -> & Hb & Hco & _). cbn [app take_chars]. rewrite Hb.
  destruct n as [|n]; [done|]. cbn [take concat app]. by rewrite Hcont, IH.
Qed.

Lemma utf8_char_replace c : utf8_char c → utf8_char (replace_newline c).
Proof.
  intros Hc. destruct (decide (c = [10])) as [->|Hne]; [by constructor|].
  replace (replace_newline c) with c; [done|]. destruct (utf8_char_shape c Hc) as (b & cont & -> & Hb & Hco & _ & H10).
  unfold replace_newline. cbn [map]. destruct (Z.eqb_spec b 10) as [->|_]; [by rewrite H10 in Hne|]. f_equal. symmetry.
  clear Hne H10 Hc. induction Hco as [|x cont Hx _ IH]; [done|]. cbn [map]. rewrite IH. destruct (Z.eqb_spec x 10) as [->|]; done.
Qed.

Lemma replace_newline_concat cs : replace_newline (concat cs) = concat (map replace_newline cs).
Proof. unfold replace_newline. by rewrite concat_map. Qed.

(** ** Hexadecimal text *)
Lemma hex_inj a b : bytes_ok a → bytes_ok b → hex a = hex b → a = b.
Proof. intros Ha Hb He. apply parse_hex_flat_map in Ha, Hb. unfold hex in He. congruence. Qed.

Lemma hex_node_id_inj a b : node_id_wf a → node_id_wf b → hex_node_id a = hex_node_id b → a = b.
Proof. destruct a as [a], b as [b]. intros [_ Ha] [_ Hb] He. f_equal. by apply hex_inj. Qed.

(** ** The order of text *)
Lemma bytes_le_refl a : bytes_le a a = true.
Proof. induction a as [|x a IH]; [done|]. cbn. rewrite Z.eqb_refl, IH. by destruct (x <? x). Qed.

Lemma bytes_le_total a b : bytes_le a b = true ∨ bytes_le b a = true.
Proof.
  revert b. induction a as [|x a IH]; intros [|y b]; [by left|by left|by right|]. cbn.
  destruct (Z.ltb_spec x y); [by left|]. destruct (Z.ltb_spec y x); [by right|]. assert (x = y) as -> by lia.
  rewrite Z.eqb_refl. cbn. apply IH.
Qed.

Lemma bytes_le_trans a b c : bytes_le a b = true → bytes_le b c = true → bytes_le a c = true.
Proof.
  revert b c. induction a as [|x a IH]; intros [|y b] [|z c]; cbn; try done.
  destruct (Z.ltb_spec x y), (Z.ltb_spec y z), (Z.ltb_spec x z), (Z.eqb_spec x y), (Z.eqb_spec y z), (Z.eqb_spec x z); cbn;
    intros; (done || lia || by eapply IH).
Qed.

Lemma bytes_le_antisym a b : bytes_le a b = true → bytes_le b a = true → a = b.
Proof.
  revert b. induction a as [|x a IH]; intros [|y b]; cbn; try done.
  destruct (Z.ltb_spec x y), (Z.ltb_spec y x), (Z.eqb_spec x y), (Z.eqb_spec y x); cbn; intros; try (done || lia).
  subst. f_equal. by apply IH.
Qed.

(** A string literal as bytes. *)
Definition str (s : string) : list Z := map (λ c, Z.of_nat (Ascii.nat_of_ascii c)) (String.list_ascii_of_string s).

Lemma str_inj a b : str a = str b → a = b.
Proof.
  revert b. induction a as [|c a IH]; intros [|d b]; try done. unfold str. cbn. intros [= Hc Hs]. f_equal; [|by apply IH].
  apply Nat2Z.inj in Hc. by rewrite <- (Ascii.ascii_nat_embedding c), <- (Ascii.ascii_nat_embedding d), Hc.
Qed.

(** ** Lines and words

    [str::lines]: split at line feeds, without a carriage return before one and
    without an empty last line. *)
Fixpoint split_on (sep : Z) (s : list Z) : list (list Z) :=
  match s with
  | [] => [[]]
  | b :: s =>
    if b =? sep then [] :: split_on sep s
    else match split_on sep s with l :: ls => (b :: l) :: ls | [] => [[b]] end
  end.
Definition strip_cr (l : list Z) : list Z :=
  match last l with Some b => if b =? 13 then removelast l else l | None => l end.
Definition lines (s : list Z) : list (list Z) :=
  let parts := split_on 10 s in
  let n := length parts in
  imap (λ i l, if bool_decide (S i = n) then l else strip_cr l)
    (match last parts with Some [] => removelast parts | _ => parts end).

(** The length of the whitespace character at the front (Unicode White_Space,
    as [char::is_whitespace] has it), zero if there is none. *)
Definition space1 (b : Z) : bool := in_range 9 13 b || (b =? 32).
Definition space2 (a b : Z) : bool := (a =? 0xC2) && ((b =? 0x85) || (b =? 0xA0)).
Definition space3 (a b c : Z) : bool :=
  (a =? 0xE1) && (b =? 0x9A) && (c =? 0x80) || (a =? 0xE2) && (b =? 0x81) && (c =? 0x9F) || (a =? 0xE3) && (b =? 0x80) && (c =? 0x80)
  || (a =? 0xE2) && (b =? 0x80) && (in_range 0x80 0x8A c || (c =? 0xA8) || (c =? 0xA9) || (c =? 0xAF)).
Definition whitespace_front (s : list Z) : nat :=
  if match s with a :: b :: c :: _ => space3 a b c | _ => false end then 3
  else if match s with a :: b :: _ => space2 a b | _ => false end then 2
  else if match s with a :: _ => space1 a | _ => false end then 1 else 0.
Definition whitespace_back (r : list Z) : nat :=
  if match r with c :: b :: a :: _ => space3 a b c | _ => false end then 3
  else if match r with b :: a :: _ => space2 a b | _ => false end then 2
  else if match r with a :: _ => space1 a | _ => false end then 1 else 0.
Fixpoint drop_while_front (f : list Z → nat) (fuel : nat) (s : list Z) : list Z :=
  match fuel with
  | O => s
  | S fuel => match f s with O => s | n => drop_while_front f fuel (drop n s) end
  end.
Definition trim_start (s : list Z) : list Z := drop_while_front whitespace_front (length s) s.
Definition trim_end (s : list Z) : list Z := rev (drop_while_front whitespace_back (length s) (rev s)).
Definition trim (s : list Z) : list Z := trim_end (trim_start s).

Fixpoint strip_prefix (p s : list Z) : option (list Z) :=
  match p, s with
  | [], _ => Some s
  | x :: p, y :: s => if x =? y then strip_prefix p s else None
  | _ :: _, [] => None
  end.

Definition to_ascii_lowercase (s : list Z) : list Z := map (λ b, if in_range 65 90 b then b + 32 else b) s.
Definition eq_ignore_ascii_case (a b : list Z) : bool := bool_decide (to_ascii_lowercase a = to_ascii_lowercase b).
Definition starts_with (p s : list Z) : bool := match strip_prefix p s with Some _ => true | None => false end.

(** [str::contains]. *)
Fixpoint contains (pat s : list Z) : bool :=
  match strip_prefix pat s with
  | Some _ => true
  | None => match s with [] => false | _ :: s => contains pat s end
  end.

(** [str::split_whitespace]; [n] bounds the bytes left. *)
Fixpoint words (n : nat) (word s : list Z) : list (list Z) :=
  match n with
  | O => if bool_decide (word = []) then [] else [word]
  | S n =>
    match s with
    | [] => if bool_decide (word = []) then [] else [word]
    | b :: s' =>
      match whitespace_front s with
      | O => words n (word ++ [b]) s'
      | w => (if bool_decide (word = []) then [] else [word]) ++ words n [] (drop w s)
      end
    end
  end.
Definition split_whitespace (s : list Z) : list (list Z) := words (length s) [] s.

Fixpoint drop_while (f : Z → bool) (s : list Z) : list Z :=
  match s with [] => [] | b :: s' => if f b then drop_while f s' else s end.
Definition trim_matches (f : Z → bool) (s : list Z) : list Z := rev (drop_while f (rev (drop_while f s))).

Lemma strip_prefix_app p s : strip_prefix p (p ++ s) = Some s.
Proof. induction p as [|x p IH]; cbn; [done|]. by rewrite Z.eqb_refl. Qed.
Lemma strip_prefix_Some p s r : strip_prefix p s = Some r → s = p ++ r.
Proof.
  revert s. induction p as [|x p IH]; intros s; cbn; [by intros [= ->]|]. destruct s as [|y s]; [done|].
  destruct (Z.eqb_spec x y) as [->|]; [|done]. intros ->%IH. done.
Qed.

(** [contains] is being a factor. *)
Lemma contains_spec pat s : contains pat s = true ↔ ∃ a b, s = a ++ pat ++ b.
Proof.
  split.
  - induction s as [|x s IH]; cbn; destruct (strip_prefix pat _) as [r|] eqn:E; try done.
    1,2: intros _; apply strip_prefix_Some in E; by exists [], r.
    intros (a & b & ->)%IH. by exists (x :: a), b.
  - intros (a & b & ->). induction a as [|x a IH]; cbn [app].
    + destruct (pat ++ b) eqn:E; cbn [contains]; rewrite <- E, strip_prefix_app; done.
    + cbn [contains]. destruct (strip_prefix _ _); [done|]. apply IH.
Qed.
Lemma contains_suffix a pat s : contains (a ++ pat) s = true → contains pat s = true.
Proof. rewrite !contains_spec. intros (x & y & ->). exists (x ++ a), y. by rewrite <- !app_assoc. Qed.

(** ** Printed text is read back *)
Lemma split_on_app sep a b : Forall (λ x, x ≠ sep) a → split_on sep (a ++ sep :: b) = a :: split_on sep b.
Proof.
  induction 1 as [|x a Hx _ IH]; cbn [app split_on]; [by rewrite Z.eqb_refl|]. rewrite (proj2 (Z.eqb_neq _ _)) by done. by rewrite IH.
Qed.
Lemma split_on_last sep a : Forall (λ x, x ≠ sep) a → split_on sep a = [a].
Proof. induction 1 as [|x a Hx _ IH]; cbn [split_on]; [done|]. rewrite (proj2 (Z.eqb_neq _ _)) by done. by rewrite IH. Qed.

(** Lines of text that end in a line feed. *)
Definition unlines (ls : list (list Z)) : list Z := flat_map (λ l, l ++ [10]) ls.
Definition line_ok (l : list Z) : Prop := Forall (λ b, b ≠ 10 ∧ b ≠ 13) l.

Lemma split_on_unlines ls : Forall line_ok ls → split_on 10 (unlines ls) = ls ++ [[]].
Proof.
  induction 1 as [|l ls Hl _ IH]; [done|]. unfold unlines in *. cbn [flat_map]. rewrite <- app_assoc. cbn [app].
  rewrite split_on_app; [by rewrite IH|]. eapply Forall_impl; [exact Hl|]. by intros ? [? _].
Qed.
Lemma strip_cr_ok l : line_ok l → strip_cr l = l.
Proof.
  intros Hl. unfold strip_cr. destruct (last l) as [b|] eqn:E; [|done]. apply last_Some_elem_of in E.
  unfold line_ok in Hl. rewrite Forall_forall in Hl. destruct (Hl b E). by destruct (Z.eqb_spec b 13).
Qed.
Lemma lines_unlines ls : Forall line_ok ls → lines (unlines ls) = ls.
Proof.
  intros Hl. unfold lines. rewrite split_on_unlines, last_snoc, removelast_last by done. cbv zeta. rewrite length_app, Nat.add_1_r.
  assert (∀ n, (length ls < n)%nat → imap (λ i l, if bool_decide (S i = n) then l else strip_cr l) ls = ls) as ->; [|done|lia].
  induction Hl as [|l ls Hl _ IH]; intros n Hn; [done|]. cbn [length] in Hn. rewrite imap_cons. f_equal.
  - rewrite strip_cr_ok by done. by destruct (bool_decide _).
  - etrans; [|apply (IH (pred n)); lia]. apply imap_ext. intros i x _. cbn. by rewrite (bool_decide_ext (S (S i) = n) (S i = pred n)) by lia.
Qed.

(** Visible ASCII characters. *)
Definition graph (s : list Z) : Prop := Forall (λ b, 33 <= b <= 126) s.
Lemma space_graph b : 33 <= b <= 126 → space1 b = false ∧ (∀ x, space2 b x = false ∧ space2 x b = false) ∧
  (∀ x y, space3 b x y = false ∧ space3 x y b = false).
Proof. intros Hb. unfold space1, space2, space3, in_range. split_and!; intros; [lia|split; lia..]. Qed.
Lemma whitespace_front_graph b s : 33 <= b <= 126 → whitespace_front (b :: s) = O.
Proof.
  intros (H1 & H2 & H3)%space_graph. unfold whitespace_front. rewrite H1.
  by destruct s as [|x [|y s]]; rewrite ?(proj1 (H2 _)), ?(proj1 (H3 _ _)).
Qed.
Lemma whitespace_back_graph b s : 33 <= b <= 126 → whitespace_back (b :: s) = O.
Proof.
  intros (H1 & H2 & H3)%space_graph. unfold whitespace_back. rewrite H1.
  by destruct s as [|x [|y s]]; rewrite ?(proj2 (H2 _)), ?(proj2 (H3 _ _)).
Qed.
(** A text that begins and ends with a visible character is trimmed. *)
Definition visible (b : Z) : Prop := 33 <= b <= 126.
Definition tight (s : list Z) : Prop := (∃ b t, s = b :: t ∧ visible b) ∧ (∃ t b, s = t ++ [b] ∧ visible b).
Lemma trim_tight s : tight s → trim s = s.
Proof.
  intros [(b & t & Hs & Hb) (t' & b' & Hs' & Hb')]. unfold trim. assert (trim_start s = s) as ->.
  { unfold trim_start. rewrite Hs. cbn [length drop_while_front]. by rewrite whitespace_front_graph. }
  unfold trim_end. assert (drop_while_front whitespace_back (length s) (rev s) = rev s) as ->; [|apply rev_involutive].
  rewrite <- length_rev, Hs', rev_app_distr. cbn [rev app length drop_while_front]. by rewrite whitespace_back_graph.
Qed.
Lemma graph_tight s : graph s → s ≠ [] → tight s.
Proof.
  intros Hs Hne. split; [destruct Hs as [|b t Hb]; [done|]; by exists b, t|].
  destruct (exists_last Hne) as (t & b & ->). exists t, b. split; [done|]. unfold graph in Hs. rewrite Forall_app in Hs. destruct Hs as [_ Hs]. by inversion Hs.
Qed.
Lemma tight_app a b c : tight a → tight c → tight (a ++ b ++ c).
Proof.
  intros [(x & t & -> & Hx) _] [_ (t' & y & -> & Hy)]. split; [by exists x, (t ++ b ++ t' ++ [y])|].
  exists (((x :: t) ++ b) ++ t'), y. split; [|done]. by rewrite !app_assoc.
Qed.
Lemma trim_graph s : graph s → trim s = s.
Proof. intros Hs. destruct (decide (s = [])) as [->|]; [done|]. by apply trim_tight, graph_tight. Qed.

(** Words with blanks between them. *)
Fixpoint join (sep : list Z) (ws : list (list Z)) : list Z :=
  match ws with
  | [] => []
  | w :: rest => match rest with [] => w | _ => w ++ sep ++ join sep rest end
  end.
Definition word_ok (w : list Z) : Prop := graph w ∧ w ≠ [].

Lemma words_graph n word w s : graph w → words (length w + n) word (w ++ s) = words n (word ++ w) s.
Proof.
  intros Hw. revert word. induction Hw as [|b w Hb _ IH]; intros word; [by rewrite app_nil_r|].
  cbn [length app Nat.add words]. rewrite whitespace_front_graph, IH by done. by rewrite <- app_assoc.
Qed.
Lemma words_blank n word s : words (S n) word (32 :: s) = (if bool_decide (word = []) then [] else [word]) ++ words n [] s.
Proof. cbn [words]. by destruct s as [|x [|y s]]. Qed.
Lemma words_blanks n k s : words (k + n) [] (replicate k 32 ++ s) = words n [] s.
Proof. induction k as [|k IH]; [done|]. cbn [Nat.add replicate app]. by rewrite words_blank. Qed.
Lemma words_end n word : words n word [] = if bool_decide (word = []) then [] else [word].
Proof. by destruct n. Qed.

Lemma split_whitespace_join k ws : Forall word_ok ws → split_whitespace (join (replicate (S k) 32) ws) = ws.
Proof.
  unfold split_whitespace. induction 1 as [|w ws [Hw Hne] _ IH]; [done|]. cbn [join]. destruct ws as [|w' ws].
  - rewrite <- (app_nil_r w) at 2. rewrite <- (Nat.add_0_r (length w)), words_graph by done. cbn. by rewrite bool_decide_eq_false_2.
  - set (rest := join _ (w' :: ws)) in *. clearbody rest. rewrite !length_app, length_replicate, words_graph by done. cbn [Nat.add replicate app].
    rewrite words_blank, bool_decide_eq_false_2, words_blanks, IH by done. done.
Qed.

Lemma join_tight sep ws : Forall word_ok ws → ws ≠ [] → tight (join sep ws).
Proof.
  induction 1 as [|w ws [Hw Hne] Hws IH]; [done|]. intros _. cbn [join]. destruct ws as [|w' ws]; [by apply graph_tight|].
  apply tight_app; [by apply graph_tight|by apply IH].
Qed.

Lemma split_once_at sep a b : Forall (λ x, x ≠ sep) a → split_once sep (a ++ sep :: b) = Some (a, b).
Proof. induction 1 as [|x a Hx _ IH]; cbn; [by rewrite Z.eqb_refl|]. rewrite (proj2 (Z.eqb_neq _ _)) by done. by rewrite IH. Qed.
Lemma graph_line w : graph w → line_ok w.
Proof. intros Hw. eapply Forall_impl; [exact Hw|]. intros b Hb. cbn in Hb. lia. Qed.
Lemma join_line k ws : Forall word_ok ws → line_ok (join (replicate k 32) ws).
Proof.
  induction 1 as [|w ws [Hw _] _ IH]; [constructor|]. cbn [join]. destruct ws; [by apply graph_line|].
  apply Forall_app. split; [by apply graph_line|]. apply Forall_app. split; [|done]. by apply Forall_replicate.
Qed.
