(* ===== verification/Ipv6Text.v ===== *)
(** * IPv6 addresses as text

    [Display] and [FromStr] of the standard library's [Ipv6Addr], and the CIDR
    form of IPv6 prefixes (crates/pim-core/src/mesh_address.rs).  The parser is
    the library's: groups of at most four digits, one [::], and an IPv4 address
    in the place of the last two groups. *)

From S2P Require Import Prelude Core MeshAddress Text.

(** [Display] of [Ipv6Addr]: the first of the longest runs of zero segments is
    left out, when it is longer than one. *)
Definition segments (ip : Z) : list Z := map (λ i, Z.shiftr ip (16 * (7 - i)) mod 2 ^ 16) (seqZ 0 8).
Fixpoint longest_zeroes (segs : list Z) (i : nat) (current longest : nat * nat) : nat * nat :=
  match segs with
  | [] => longest
  | seg :: segs =>
    if seg =? 0 then
      let current := (if (current.2 =? 0)%nat then i else current.1, S current.2) in
      longest_zeroes segs (S i) current (if (longest.2 <? current.2)%nat then current else longest)
    else longest_zeroes segs (S i) (0, 0)%nat longest
  end.
Definition hex_digits_of (z : Z) : list Z :=
  (if 0x1000 <=? z then [z / 0x1000] else []) ++ (if 0x100 <=? z then [z / 0x100 mod 16] else []) ++
  (if 0x10 <=? z then [z / 0x10 mod 16] else []) ++ [z mod 16].
Fixpoint fmt_subslice (chunk : list Z) : list Z :=
  match chunk with
  | [] => []
  | [seg] => map hex_digit (hex_digits_of seg)
  | seg :: tail => map hex_digit (hex_digits_of seg) ++ [58] ++ fmt_subslice tail
  end.
Definition fmt_ipv6 (ip : Z) : list Z :=
  if Z.shiftr ip 32 =? 0xffff then str "::ffff:" ++ fmt_ipv4 (ip mod 2 ^ 32) else
  let zeroes := longest_zeroes (segments ip) 0 (0, 0)%nat (0, 0)%nat in
  if (1 <? zeroes.2)%nat then fmt_subslice (take zeroes.1 (segments ip)) ++ str "::" ++ fmt_subslice (drop (zeroes.1 + zeroes.2) (segments ip))
  else fmt_subslice (segments ip).

(** ** The parser

    What is read and what is left; [None] leaves everything as it was. *)
Fixpoint read_digits (radix : Z) (more : nat) (acc : Z) (s : list Z) {struct s} : option (Z * list Z) :=
  match s with
  | c :: s' =>
    match digit_value radix c with
    | Some d => match more with O => None | S more => read_digits radix more (acc * radix + d) s' end
    | None => Some (acc, s)
    end
  | [] => Some (acc, [])
  end.
Definition read_number (radix : Z) (max_digits : nat) (limit : Z) (allow_zero_prefix : bool) (s : list Z) : option (Z * list Z) :=
  match read_digits radix max_digits 0 s with
  | None => None
  | Some (v, rest) =>
    let digit_count := (length s - length rest)%nat in
    if bool_decide (digit_count = 0%nat) then None
    else if negb allow_zero_prefix && bool_decide (head s = Some 48) && bool_decide (1 < digit_count)%nat then None
    else if v <? limit then Some (v, rest) else None
  end.
Definition read_given_char (c : Z) (s : list Z) : option (list Z) :=
  match s with x :: s => if x =? c then Some s else None | [] => None end.
Definition read_separator {A} (sep : Z) (first : bool) (inner : list Z → option (A * list Z)) (s : list Z) : option (A * list Z) :=
  if first then inner s else match read_given_char sep s with Some s => inner s | None => None end.
Definition read_octet (first : bool) : list Z → option (Z * list Z) := read_separator 46 first (read_number 10 3 256 false).
Definition read_ipv4_addr (s : list Z) : option (list Z * list Z) :=
  match read_octet true s with None => None | Some (a, s) =>
  match read_octet false s with None => None | Some (b, s) =>
  match read_octet false s with None => None | Some (c, s) =>
  match read_octet false s with None => None | Some (d, s) => Some ([a; b; c; d], s) end end end end.

(** [n] groups may still be read.  The groups, whether the last two were an IPv4
    address, and what is left. *)
Fixpoint read_groups (n : nat) (first : bool) (s : list Z) : list Z * bool * list Z :=
  match n with
  | O => ([], false, s)
  | S n' =>
    match (if (1 <? n)%nat then read_separator 58 first read_ipv4_addr s else None) with
    | Some (octets, s) => ([be_value (take 2 octets); be_value (drop 2 octets)], true, s)
    | None =>
      match read_separator 58 first (read_number 16 4 65536 true) s with
      | Some (g, s) => let '(gs, v4, s) := read_groups n' false s in (g :: gs, v4, s)
      | None => ([], false, s)
      end
    end
  end.
Definition read_ipv6_addr (s : list Z) : option (list Z * list Z) :=
  let '(head, head_ipv4, s) := read_groups 8 true s in
  if bool_decide (length head = 8%nat) then Some (head, s) else
  if head_ipv4 then None else
  match read_given_char 58 s with None => None | Some s =>
  match read_given_char 58 s with None => None | Some s =>
    let '(tail, _, s) := read_groups (8 - (length head + 1)) true s in
    Some (head ++ replicate (8 - length head - length tail) 0 ++ tail, s)
  end end.
Definition of_segments (segs : list Z) : Z := fold_left (λ acc g, acc * 65536 + g) segs 0.
Definition parse_ipv6 (s : list Z) : option Z :=
  match read_ipv6_addr s with Some (segs, []) => Some (of_segments segs) | _ => None end.

(** ** Prefixes *)
Definition Ipv6Prefix_parse (s : list Z) : outcome PimError Ipv6Prefix :=
  let? (ip_str, prefix_str) := ok_or (split_once 47 s) (Config CidrMissingSlash) in
  let? ip := ok_or (parse_ipv6 ip_str) (Config CidrInvalidAddress) in
  let? prefix_len := ok_or (from_str_radix_u8 prefix_str 10) (Config CidrInvalidPrefixLength) in
  if 128 <? prefix_len then Err (Config CidrPrefixTooLong) else
  let mask := ipv6_netmask prefix_len in
  Ok {| v6_network := Z.land ip mask; v6_prefix_len := prefix_len |}.
Definition Ipv6Prefix_to_cidr_string (p : Ipv6Prefix) : list Z := fmt_ipv6 (v6_network p) ++ [47] ++ dec_u8 (v6_prefix_len p).

Example parse_ipv6_forms :
  map parse_ipv6 [str "::"; str "::1"; str "fd77::"; str "1:2:3:4:5:6:7:8"; str "1::8"; str "::ffff:1.2.3.4"; str "1:2:3:4:5:6:7::"] =
  [Some 0; Some 1; Some (0xfd77 * 2 ^ 112); Some 0x00010002000300040005000600070008; Some (2 ^ 112 + 8); Some 0xffff01020304;
   Some 0x00010002000300040005000600070000] ∧
  map parse_ipv6 [str ""; str ":"; str ":::"; str "1:2:3:4:5:6:7:8:9"; str "1::2::3"; str "12345::"; str "1.2.3.4"; str "::1.2.3.256"; str "1:2:3:4:5:6:7:8::"] =
  replicate 9 None.
Proof. split; by vm_compute. Qed.

(** ** Lemmas: reading what was printed *)
Lemma digit_value_hex d : 0 <= d < 16 → digit_value 16 (hex_digit d) = Some d.
Proof.
  intros Hd. assert (Hc : Forall (λ d, digit_value 16 (hex_digit d) = Some d) (seqZ 0 16)) by (by apply (bool_decide_unpack _); vm_compute).
  rewrite Forall_forall in Hc. apply Hc, elem_of_seqZ. lia.
Qed.
Definition no_digit (radix : Z) (s : list Z) : Prop := match s with [] => True | c :: _ => digit_value radix c = None end.

Lemma read_digits_hex ds more acc s : Forall (λ d, 0 <= d < 16) ds → (length ds ≤ more)%nat → no_digit 16 s →
  read_digits 16 more acc (map hex_digit ds ++ s) = Some (fold_left (λ a d, a * 16 + d) ds acc, s).
Proof.
  intros Hds. revert more acc. induction Hds as [|d ds Hd _ IH]; intros more acc Hl Hs; cbn [map app fold_left].
  - destruct s as [|c s]; cbn; [done|]. cbn in Hs. by rewrite Hs.
  - cbn [read_digits]. rewrite digit_value_hex by done. destruct more as [|more]; [cbn in Hl; lia|]. apply IH; [cbn in Hl; lia|done].
Qed.

Lemma hex_digits_of_spec g : 0 <= g < 65536 → Forall (λ d, 0 <= d < 16) (hex_digits_of g) ∧ (0 < length (hex_digits_of g) ≤ 4)%nat ∧
  fold_left (λ a d, a * 16 + d) (hex_digits_of g) 0 = g.
Proof.
  intros Hg. unfold hex_digits_of.
  destruct (Z.leb_spec 0x1000 g), (Z.leb_spec 0x100 g), (Z.leb_spec 0x10 g); try lia; cbn [app length fold_left];
    (split; [repeat (apply Forall_cons; split; [cbn beta; Z.to_euclidean_division_equations; lia|]); apply Forall_nil_2|split; [lia|Z.to_euclidean_division_equations; lia]]).
Qed.
Lemma read_group g s : 0 <= g < 65536 → no_digit 16 s →
  read_number 16 4 65536 true (map hex_digit (hex_digits_of g) ++ s) = Some (g, s).
Proof.
  intros Hg Hs. destruct (hex_digits_of_spec g Hg) as (Hd & Hl & Hv). unfold read_number. rewrite read_digits_hex by (done || lia).
  rewrite Hv, length_app, length_map. rewrite bool_decide_eq_false_2 by lia. cbn [negb andb]. by rewrite (proj2 (Z.ltb_lt _ _)) by lia.
Qed.

(** No IPv4 address can be read where no dot comes before the next colon. *)
Lemma read_digits_rest radix more acc s v rest : read_digits radix more acc s = Some (v, rest) → ∃ ds, s = ds ++ rest ∧ Forall (λ c, is_Some (digit_value radix c)) ds.
Proof.
  revert more acc. induction s as [|c s IH]; intros more acc; cbn [read_digits]; [intros [= <- <-]; by exists []|].
  destruct (digit_value radix c) as [d|] eqn:E; [|intros [= <- <-]; by exists []]. destruct more as [|more]; [done|].
  intros (ds & -> & Hds)%IH. exists (c :: ds). split; [done|]. by constructor.
Qed.
Lemma read_ipv4_no_dot h s : Forall (λ c, c ≠ 46) h → match s with [] => True | c :: _ => c = 58 end → read_ipv4_addr (h ++ s) = None.
Proof.
  intros Hh Hs. unfold read_ipv4_addr. destruct (read_octet true (h ++ s)) as [[v rest]|] eqn:E0; [|done].
  assert (∃ ds, h ++ s = ds ++ rest ∧ Forall (λ c, is_Some (digit_value 10 c)) ds) as (ds & E & Hds).
  { cbn in E0. unfold read_number in E0. destruct (read_digits 10 3 0 (h ++ s)) as [[v' rest']|] eqn:E; [|done].
    apply read_digits_rest in E. do 2 (destruct (_ : bool); [done|]). destruct (v' <? 256); [|done]. by injection E0 as _ <-. }
  assert (read_given_char 46 rest = None) as Hr.
  { destruct rest as [|c rest]; [done|]. cbn. destruct (Z.eqb_spec c 46) as [->|]; [|done]. exfalso.
    apply app_eq_app in E as (l & [[-> Hl]|[-> Hl]]).
    - destruct l as [|x l]; cbn in Hl; [subst s; lia|]. injection Hl as <- Hl. rewrite Forall_app in Hh. destruct Hh as [_ Hh]. by inversion Hh.
    - destruct s as [|y s]; [by destruct l|]. subst y. destruct l as [|x l]; cbn in Hl; [done|]. injection Hl as <- _.
      rewrite Forall_app in Hds. destruct Hds as [_ Hds]. inversion Hds as [|?? [d Hd]]. done. }
  unfold read_octet at 1, read_separator. by rewrite Hr.
Qed.

Definition group_ok (g : Z) : Prop := 0 <= g < 65536.
(** Groups as they stand at the front, and after others. *)
Definition groups_text (first : bool) (l : list Z) : list Z := if first then fmt_subslice l else match l with [] => [] | _ => 58 :: fmt_subslice l end.
Definition group_end (r : list Z) : Prop := r = [] ∨ ∃ s, r = 58 :: 58 :: s.

Lemma fmt_subslice_cons g l : fmt_subslice (g :: l) = map hex_digit (hex_digits_of g) ++ groups_text false l.
Proof. destruct l; cbn; [by rewrite app_nil_r|done]. Qed.
Lemma groups_next l r : group_end r → match groups_text false l ++ r with [] => True | c :: _ => c = 58 end.
Proof. intros [-> |[s ->]]; by destruct l. Qed.
Lemma hex_digits_no_dot g : group_ok g → Forall (λ c, c ≠ 46) (map hex_digit (hex_digits_of g)).
Proof.
  intros Hg. destruct (hex_digits_of_spec g Hg) as [Hd _]. apply Forall_map. eapply Forall_impl; [exact Hd|]. intros d Hb. cbn in *. unfold hex_digit.
  destruct (d <? 10) eqn:E; lia.
Qed.

Lemma read_number_colon radix m lim z s : digit_value radix 58 = None → read_number radix m lim z (58 :: s) = None.
Proof. intros Hd. unfold read_number. cbn [read_digits]. rewrite Hd, Nat.sub_diag. done. Qed.
Lemma read_groups_S n first s : read_groups (S n) first s =
  match (if (1 <? S n)%nat then read_separator 58 first read_ipv4_addr s else None) with
  | Some (octets, s) => ([be_value (take 2 octets); be_value (drop 2 octets)], true, s)
  | None =>
    match read_separator 58 first (read_number 16 4 65536 true) s with
    | Some (g, s) => let '(gs, v4, s) := read_groups n false s in (g :: gs, v4, s)
    | None => ([], false, s)
    end
  end.
Proof. done. Qed.
Lemma read_groups_end n first r : group_end r → read_groups n first r = ([], false, r).
Proof.
  intros Hr. destruct n as [|n]; [done|]. cbn [read_groups].
  destruct Hr as [-> |[s ->]], first; unfold read_separator, read_ipv4_addr, read_octet, read_separator; cbn [read_given_char]; rewrite ?Z.eqb_refl, ?read_number_colon by done;
    by destruct n.
Qed.

Lemma read_groups_fmt l n first r : Forall group_ok l → (length l ≤ n)%nat → group_end r →
  read_groups n first (groups_text first l ++ r) = (l, false, r).
Proof.
  intros Hl. revert n first. induction Hl as [|g l Hg _ IH]; intros n first Hn Hr; [by destruct first; apply read_groups_end|].
  destruct n as [|n]; [cbn in Hn; lia|]. cbn [read_groups length] in *.
  assert (Hsep : ∀ A (inner : list Z → option (A * list Z)), read_separator 58 first inner (groups_text first (g :: l) ++ r) =
    inner (map hex_digit (hex_digits_of g) ++ groups_text false l ++ r)).
  { intros A inner. unfold read_separator. destruct first.
    - change (groups_text true (g :: l)) with (fmt_subslice (g :: l)). by rewrite fmt_subslice_cons, <- app_assoc.
    - change (groups_text false (g :: l)) with (58 :: fmt_subslice (g :: l)). rewrite fmt_subslice_cons. cbn [app read_given_char].
      by rewrite Z.eqb_refl, <- app_assoc. }
  rewrite !Hsep. pose proof (groups_next l r Hr) as Hnext.
  rewrite read_ipv4_no_dot by (by apply hex_digits_no_dot || done). rewrite read_group.
  - destruct (1 <? S n)%nat; rewrite IH by (done || lia); done.
  - done.
  - destruct (groups_text false l ++ r) as [|c s]; [done|]. cbn in Hnext. by subst c.
Qed.

(** ** Lemmas: runs of zeros *)
Definition zero_run (l : list Z) (run : nat * nat) : Prop := ∀ j, (run.1 ≤ j < run.1 + run.2)%nat → l !! j = Some 0.
Lemma longest_zeroes_run l segs i current longest : drop i l = segs → (i + length segs = length l)%nat →
  zero_run l current → zero_run l longest → (current.2 = 0%nat ∨ current.1 + current.2 = i)%nat →
  zero_run l (longest_zeroes segs i current longest).
Proof.
  revert i current longest. induction segs as [|g segs IH]; intros i [cs cl] longest Hd Hlen Hc Hl Hi; cbn [longest_zeroes]; [done|].
  cbn [length fst snd] in *. assert (Hg : l !! i = Some g) by (rewrite <- (Nat.add_0_r i), <- lookup_drop, Hd; done).
  assert (Hd' : drop (S i) l = segs) by (rewrite <- Nat.add_1_r, <- drop_drop, Hd; done).
  destruct (Z.eqb_spec g 0) as [->|].
  - set (cur := (if (cl =? 0)%nat then i else cs, S cl)). assert (Hcur : zero_run l cur).
    { intros j Hj. subst cur. cbn [fst snd] in Hj. destruct (decide (j = i)) as [->|]; [done|]. apply Hc. cbn [fst snd].
      destruct (Nat.eqb_spec cl 0); lia. }
    apply IH; [done|lia|done|by destruct (_ <? _)%nat|]. right. subst cur. cbn. destruct (Nat.eqb_spec cl 0); lia.
  - apply IH; [done|lia| |done|by left]. intros j Hj. cbn in Hj. lia.
Qed.
Lemma zero_run_split l run : zero_run l run → l = take run.1 l ++ replicate (length l - run.1 - length (drop (run.1 + run.2) l)) 0 ++ drop (run.1 + run.2) l.
Proof.
  destruct run as [s n]. intros Hz. cbn [fst snd] in *. rewrite <- (take_drop s l) at 1. f_equal.
  rewrite <- (take_drop n (drop s l)) at 1. rewrite drop_drop. f_equal. rewrite length_drop.
  apply list_eq. intros j. destruct (decide (j < n)%nat) as [Hj|Hj].
  - rewrite lookup_take_lt by lia. rewrite lookup_drop. destruct (decide (s + j < length l)%nat) as [Hs|Hs].
    + rewrite (Hz (s + j)%nat) by (cbn; lia). symmetry. apply lookup_replicate. split; [done|].
      pose proof (lookup_lt_is_Some_2 l (s + n - 1)%nat) as Hlast. destruct (decide (s + n ≤ length l)%nat); [lia|].
      exfalso. pose proof (Hz (s + n - 1)%nat) as Hx. rewrite lookup_ge_None_2 in Hx by lia. by discriminate Hx; cbn; lia.
    + exfalso. pose proof (Hz (s + j)%nat) as Hx. rewrite lookup_ge_None_2 in Hx by lia. by discriminate Hx; cbn; lia.
  - rewrite lookup_take_ge by lia. symmetry. apply lookup_replicate_None. lia.
Qed.

(** ** Lemmas: addresses and their segments *)
Lemma segments_ok ip : Forall group_ok (segments ip) ∧ length (segments ip) = 8%nat.
Proof. split; [|done]. unfold segments. apply Forall_map, Forall_forall. intros i _. unfold group_ok. change 65536 with (2 ^ 16). apply Z.mod_pos_bound. lia. Qed.
Lemma of_segments_segments ip : 0 <= ip < 2 ^ 128 → of_segments (segments ip) = ip.
Proof.
  intros Hip. unfold of_segments, segments. change (seqZ 0 8) with [0; 1; 2; 3; 4; 5; 6; 7]. cbn [map fold_left].
  rewrite !Z.shiftr_div_pow2 by lia. change (2 ^ 16) with 65536.
  assert (Hq : ∀ k, 0 <= k → ip / 2 ^ (16 * (k + 1)) = ip / 2 ^ (16 * k) / 65536).
  { intros k Hk. rewrite Z.div_div by lia. f_equal. change 65536 with (2 ^ 16). rewrite <- Z.pow_add_r by lia. f_equal. lia. }
  pose proof (Hq 0 ltac:(lia)) as Q0. pose proof (Hq 1 ltac:(lia)) as Q1. pose proof (Hq 2 ltac:(lia)) as Q2. pose proof (Hq 3 ltac:(lia)) as Q3.
  pose proof (Hq 4 ltac:(lia)) as Q4. pose proof (Hq 5 ltac:(lia)) as Q5. pose proof (Hq 6 ltac:(lia)) as Q6.
  assert (Htop : 0 <= ip / 2 ^ (16 * 7) < 65536).
  { split; [apply Z.div_pos; lia|]. apply Z.div_lt_upper_bound; [lia|]. change (2 ^ (16 * 7) * 65536) with (2 ^ 128). lia. }
  change (16 * (0 + 1)) with (16 * 1) in *. change (16 * (1 + 1)) with (16 * 2) in *. change (16 * (2 + 1)) with (16 * 3) in *.
  change (16 * (3 + 1)) with (16 * 4) in *. change (16 * (4 + 1)) with (16 * 5) in *. change (16 * (5 + 1)) with (16 * 6) in *.
  change (16 * (6 + 1)) with (16 * 7) in *. change (2 ^ (16 * 0)) with 1 in *. rewrite Z.div_1_r in *.
  change (16 * (7 - 0)) with (16 * 7). change (16 * (7 - 1)) with (16 * 6). change (16 * (7 - 2)) with (16 * 5). change (16 * (7 - 3)) with (16 * 4).
  change (16 * (7 - 4)) with (16 * 3). change (16 * (7 - 5)) with (16 * 2). change (16 * (7 - 6)) with (16 * 1). change (16 * (7 - 7)) with 0.
  change (2 ^ 0) with 1. rewrite ?Z.div_1_r.
  set (q1 := ip / 2 ^ (16 * 1)) in *. set (q2 := ip / 2 ^ (16 * 2)) in *. set (q3 := ip / 2 ^ (16 * 3)) in *. set (q4 := ip / 2 ^ (16 * 4)) in *.
  set (q5 := ip / 2 ^ (16 * 5)) in *. set (q6 := ip / 2 ^ (16 * 6)) in *. set (q7 := ip / 2 ^ (16 * 7)) in *.
  clearbody q1 q2 q3 q4 q5 q6 q7. clear Hq Hip. Z.to_euclidean_division_equations. lia.
Qed.

(** ** Lemmas: embedded IPv4 addresses *)
Lemma read_digits_values radix cs ds more acc s : Forall2 (λ c d, digit_value radix c = Some d) cs ds → (length cs ≤ more)%nat → no_digit radix s →
  read_digits radix more acc (cs ++ s) = Some (fold_left (λ a d, a * radix + d) ds acc, s).
Proof.
  intros Hds. revert more acc. induction Hds as [|c d cs ds Hd _ IH]; intros more acc Hl Hs; cbn [app fold_left].
  - destruct s as [|c s]; cbn; [done|]. cbn in Hs. by rewrite Hs.
  - cbn [read_digits]. rewrite Hd. destruct more as [|more]; [cbn in Hl; lia|]. apply IH; [cbn in Hl; lia|done].
Qed.
Definition octet_printed (b : Z) : bool :=
  match mapM (digit_value 10) (dec_u8 b) with
  | Some ds => (fold_left (λ a d, a * 10 + d) ds 0 =? b) && bool_decide (0 < length (dec_u8 b) ≤ 3)%nat
               && negb (bool_decide (head (dec_u8 b) = Some 48) && bool_decide (1 < length (dec_u8 b))%nat)
  | None => false
  end.
Lemma read_octet_printed b s : u8_ok b → no_digit 10 s → read_number 10 3 256 false (dec_u8 b ++ s) = Some (b, s).
Proof.
  intros Hb Hs. assert (Hp : octet_printed b = true).
  { revert b Hb. apply (u8_forall (λ b, octet_printed b = true)). by vm_compute. }
  unfold octet_printed in Hp. destruct (mapM (digit_value 10) (dec_u8 b)) as [ds|] eqn:E; [|done]. apply mapM_Some in E.
  apply andb_true_iff in Hp as [[Hv%Z.eqb_eq Hl%bool_decide_eq_true]%andb_true_iff Hz%negb_true_iff].
  unfold read_number. rewrite (read_digits_values 10 _ ds) by (done || lia). rewrite Hv, length_app, Nat.add_sub.
  rewrite bool_decide_eq_false_2 by lia. cbn [negb andb].
  assert (head (dec_u8 b ++ s) = head (dec_u8 b)) as -> by (destruct (dec_u8 b); [cbn in Hl; lia|done]).
  rewrite Hz. unfold u8_ok in Hb. by rewrite (proj2 (Z.ltb_lt _ _)) by lia.
Qed.
Lemma read_ipv4_printed v : u32_ok v → read_ipv4_addr (fmt_ipv4 v) = Some (be_bytes 4 v, []).
Proof.
  intros Hv. unfold fmt_ipv4. pose proof (be_bytes_ok 4 v) as Hb. destruct (be_bytes 4 v) as [|a [|b [|c [|d [|]]]]] eqn:E;
    pose proof (length_be_bytes 4 v) as Hl; rewrite E in Hl; try done.
  inversion_clear Hb as [|?? Ha Hb']. inversion_clear Hb' as [|?? Hbb Hb'']. inversion_clear Hb'' as [|?? Hc Hb3]. inversion_clear Hb3 as [|?? Hd _].
  unfold read_ipv4_addr, read_octet, read_separator. cbn [app]. rewrite read_octet_printed by done. cbn [read_given_char]. rewrite Z.eqb_refl.
  rewrite read_octet_printed by done. cbn [read_given_char]. rewrite Z.eqb_refl. rewrite read_octet_printed by done. cbn [read_given_char]. rewrite Z.eqb_refl.
  rewrite <- (app_nil_r (dec_u8 d)). by rewrite read_octet_printed.
Qed.

Lemma parse_mapped v : u32_ok v → parse_ipv6 (str "::ffff:" ++ fmt_ipv4 v) = Some (0xffff * 2 ^ 32 + v).
Proof.
  intros Hv. unfold parse_ipv6, read_ipv6_addr. change (str "::ffff:" ++ fmt_ipv4 v) with (58 :: 58 :: str "ffff" ++ 58 :: fmt_ipv4 v).
  rewrite read_groups_end by (right; eauto). cbn [length]. rewrite bool_decide_eq_false_2 by done. do 2 (cbn [read_given_char]; rewrite Z.eqb_refl).
  change (8 - (0 + 1))%nat with 7%nat. rewrite read_groups_S.
  assert (Hv4 : read_separator 58 true read_ipv4_addr (str "ffff" ++ 58 :: fmt_ipv4 v) = None).
  { cbn [read_separator]. apply read_ipv4_no_dot; [by apply (bool_decide_unpack _); vm_compute|done]. }
  rewrite Hv4. assert (Hg : read_separator 58 true (read_number 16 4 65536 true) (str "ffff" ++ 58 :: fmt_ipv4 v) = Some (0xffff, 58 :: fmt_ipv4 v)).
  { cbn [read_separator]. change (str "ffff") with (map hex_digit (hex_digits_of 0xffff)). by apply read_group. }
  change (1 <? 7)%nat with true. cbv iota. rewrite Hg, read_groups_S. change (1 <? 6)%nat with true. cbv iota.
  assert (Hi : read_separator 58 false read_ipv4_addr (58 :: fmt_ipv4 v) = Some (be_bytes 4 v, [])).
  { unfold read_separator. cbn [read_given_char]. rewrite Z.eqb_refl. by apply read_ipv4_printed. }
  rewrite Hi. cbv beta iota. f_equal.
  pose proof (be_value_be_bytes 4 v Hv) as Hval. rewrite <- (take_drop 2 (be_bytes 4 v)), be_value_app, length_drop, length_be_bytes in Hval.
  change (256 ^ Z.of_nat (4 - 2)) with 65536 in Hval. unfold of_segments. cbn [length Nat.sub app replicate fold_left]. lia.
Qed.

(** ** Theorems *)
Lemma parse_fmt_ipv6 ip : 0 <= ip < 2 ^ 128 → parse_ipv6 (fmt_ipv6 ip) = Some ip.
Proof.
  intros Hip. unfold fmt_ipv6. destruct (Z.eqb_spec (Z.shiftr ip 32) 0xffff) as [Hm|_].
  { rewrite parse_mapped by (unfold u32_ok; apply Z.mod_pos_bound; lia). f_equal. rewrite Z.shiftr_div_pow2 in Hm by lia.
    pose proof (Z.div_mod ip (2 ^ 32)). lia. }
  destruct (segments_ok ip) as [Hok Hlen]. pose proof (of_segments_segments ip Hip) as Hof. set (segs := segments ip) in *. clearbody segs.
  unfold parse_ipv6, read_ipv6_addr.
  set (run := longest_zeroes segs 0 (0, 0)%nat (0, 0)%nat).
  assert (Hz : zero_run segs run). { apply longest_zeroes_run; [by rewrite drop_0|done|intros j Hj; cbn in Hj; lia..|by left]. }
  clearbody run. cbv zeta. destruct (Nat.ltb_spec 1 run.2) as [Hrun|_].
  - assert (Hbound : (run.1 + run.2 ≤ 8)%nat).
    { destruct (decide (run.1 + run.2 ≤ 8)%nat); [done|]. pose proof (Hz (run.1 + run.2 - 1)%nat ltac:(lia)) as Hx. apply lookup_lt_Some in Hx. lia. }
    pose proof (read_groups_fmt (take run.1 segs) 8 true (str "::" ++ fmt_subslice (drop (run.1 + run.2) segs))) as Hh. cbn [groups_text] in Hh.
    rewrite Hh; [|by apply Forall_take|rewrite length_take; lia|right; by eexists]. rewrite length_take.
    rewrite bool_decide_eq_false_2 by lia. change (str "::" ++ ?x) with (58 :: 58 :: x). do 2 (cbn [read_given_char]; rewrite Z.eqb_refl).
    pose proof (read_groups_fmt (drop (run.1 + run.2) segs) (8 - (run.1 `min` length segs + 1)) true []) as Ht. cbn [groups_text] in Ht. rewrite app_nil_r in Ht.
    rewrite Ht; [|by apply Forall_drop|rewrite length_drop; lia|by left].
    replace (run.1 `min` length segs)%nat with run.1 by lia. rewrite <- Hlen. rewrite <- (zero_run_split segs run Hz). by rewrite Hof.
  - pose proof (read_groups_fmt segs 8 true []) as Hh. cbn [groups_text] in Hh. rewrite app_nil_r in Hh. rewrite Hh; [|done|lia|by left].
    rewrite bool_decide_eq_true_2 by done. by rewrite Hof.
Qed.

(** ** The characters of printed addresses: digits, dots and colons *)
Definition addr_char (b : Z) : Prop := b = 46 ∨ 48 <= b <= 58 ∨ 97 <= b <= 102.
Definition addr_text (s : list Z) : Prop := Forall addr_char s ∧ s ≠ [].
#[export] Instance addr_char_dec b : Decision (addr_char b).
Proof. unfold addr_char. apply _. Defined.

Lemma dec_u8_chars b : u8_ok b → addr_text (dec_u8 b).
Proof. apply (u8_forall (λ b, addr_text (dec_u8 b))). by vm_compute. Qed.
Lemma fmt_ipv4_text ip : addr_text (fmt_ipv4 ip).
Proof.
  unfold fmt_ipv4. pose proof (be_bytes_ok 4 ip) as Hb. destruct (be_bytes 4 ip) as [|a [|b [|c [|d [|]]]]] eqn:E;
    pose proof (length_be_bytes 4 ip) as Hl; rewrite E in Hl; try done.
  unfold bytes_ok in Hb. rewrite !Forall_cons in Hb. destruct Hb as (Ha & Hbb & Hc & Hd & _).
  destruct (dec_u8_chars a Ha) as [Ga Na], (dec_u8_chars b Hbb) as [Gb _], (dec_u8_chars c Hc) as [Gc _], (dec_u8_chars d Hd) as [Gd _].
  split; [|by destruct (dec_u8 a)]. assert (Hdot : Forall addr_char [46]) by (constructor; [by left|done]). rewrite !Forall_app. tauto.
Qed.
Lemma hex_chars g : group_ok g → Forall addr_char (map hex_digit (hex_digits_of g)).
Proof.
  intros Hg. destruct (hex_digits_of_spec g Hg) as [Hd _]. apply Forall_map. eapply Forall_impl; [exact Hd|]. intros d Hb. unfold addr_char, hex_digit.
  cbn in *. destruct (d <? 10) eqn:E; lia.
Qed.
Lemma subslice_chars l : Forall group_ok l → Forall addr_char (fmt_subslice l).
Proof.
  induction 1 as [|g l Hg Hl IH]; [constructor|]. rewrite fmt_subslice_cons. apply Forall_app. split; [by apply hex_chars|].
  destruct l; [constructor|]. constructor; [unfold addr_char; lia|done].
Qed.
Lemma fmt_ipv6_text ip : addr_text (fmt_ipv6 ip).
Proof.
  unfold fmt_ipv6. destruct (_ =? _).
  { split; [|done]. apply Forall_app. split; [by apply (bool_decide_unpack _); vm_compute|apply fmt_ipv4_text]. }
  destruct (segments_ok ip) as [Hok Hlen]. cbv zeta. destruct (_ <? _)%nat.
  - split; [|by destruct (fmt_subslice (take _ _))]. rewrite !Forall_app. split_and!; [by apply subslice_chars, Forall_take| |by apply subslice_chars, Forall_drop].
    by apply (bool_decide_unpack _); vm_compute.
  - split; [by apply subslice_chars|]. destruct (segments ip) as [|g l]; [done|]. rewrite fmt_subslice_cons.
    intros [Hx _]%app_eq_nil. inversion_clear Hok as [|?? Hg _]. destruct (hex_digits_of_spec g Hg) as (_ & Hl & _).
    apply (f_equal length) in Hx. rewrite length_map in Hx. cbn in Hx. lia.
Qed.
Lemma addr_text_word s : addr_text s → word_ok s.
Proof. intros [Hs Hne]. split; [|done]. eapply Forall_impl; [exact Hs|]. unfold addr_char. intros b Hb. lia. Qed.
Lemma addr_text_without x s : ~ addr_char x → addr_text s → Forall (λ b, b ≠ x) s.
Proof. intros Hx [Hs _]. eapply Forall_impl; [exact Hs|]. by intros b Hb ->. Qed.
Lemma no_sep_Forall sep s : no_sep sep s = true ↔ Forall (λ x, x ≠ sep) s.
Proof.
  induction s as [|c s IH]; [done|]. cbn. rewrite andb_true_iff, negb_true_iff, Z.eqb_neq, Forall_cons. unfold no_sep in IH. by rewrite IH.
Qed.

(** ** Prefixes *)
Lemma ipv6_netmask_land ip n : 0 ≤ n ≤ 128 → 0 ≤ ip < 2 ^ 128 → Z.land ip (ipv6_netmask n) = ip - ip mod 2 ^ (128 - n).
Proof.
  intros Hn Hip. unfold ipv6_netmask, not_u128, u128_max. destruct (Z.eqb_spec n 0) as [->|].
  { rewrite Z.land_0_r, Z.mod_small by lia. lia. }
  destruct (Z.leb_spec 128 n).
  - replace n with 128 by lia. rewrite land_ones_mod, Z.mod_small, Z.sub_diag, Z.mod_1_r by lia. lia.
  - rewrite Z.shiftl_1_l. apply land_high_mask; lia.
Qed.

(** A prefix as [Ipv6Prefix::parse] builds them: host bits zeroed. *)
Definition Ipv6Prefix_wf (p : Ipv6Prefix) : Prop :=
  0 ≤ v6_prefix_len p ≤ 128 ∧ 0 ≤ v6_network p < 2 ^ 128 ∧ v6_network p mod 2 ^ (128 - v6_prefix_len p) = 0.
#[export] Instance Ipv6Prefix_wf_dec p : Decision (Ipv6Prefix_wf p).
Proof. unfold Ipv6Prefix_wf. apply _. Defined.

(** an IPv6 prefix printed in CIDR form, with its longest run of zero groups
    left out or with an embedded IPv4 address, parses back to the same prefix. *)
Theorem ipv6_prefix_roundtrip (p : Ipv6Prefix) :
  Ipv6Prefix_wf p → Ipv6Prefix_parse (Ipv6Prefix_to_cidr_string p) = Ok p.
Proof.
  intros (Hl & Hn & Hz). unfold Ipv6Prefix_parse, Ipv6Prefix_to_cidr_string.
  destruct (dec_u8_spec (v6_prefix_len p)) as (_ & Hd & _ & _); [unfold u8_ok; lia|].
  cbn [app]. rewrite split_once_app by (by apply no_sep_Forall, addr_text_without; [unfold addr_char; lia|apply fmt_ipv6_text]). cbn [ok_or obind]. rewrite parse_fmt_ipv6 by done. cbn [ok_or obind].
  rewrite Hd. cbn [ok_or obind]. rewrite (proj2 (Z.ltb_ge _ _)) by lia.
  rewrite ipv6_netmask_land, Hz, Z.sub_0_r by lia. by destruct p.
Qed.

Lemma ipv6_prefix_roundtrip_witness :
  let p := {| v6_network := 0xfd77 * 2 ^ 112; v6_prefix_len := 64 |} in
  Ipv6Prefix_parse (Ipv6Prefix_to_cidr_string p) = Ok p.
Proof. intros p. apply (ipv6_prefix_roundtrip p). by apply (bool_decide_unpack _); vm_compute. Defined.
