(* ===== verification/Host.v ===== *)
(** * Commands of the host system

    The daemon asks the host about its interfaces, and changes it, by running
    commands.  The host is not part of the program: [CommandOs] is what running
    a command and reading a file answer, and [Host] the code in between, which
    passes the state of the host along and stops at the first error.  The
    address lookups of crates/pim-daemon/src/net.rs are the first such code;
    [Firewall] and [BluetoothPan] build on the same interface. *)

From S2P Require Import Prelude Core MeshAddress Text Ipv6Text.

(** A command that ran: whether it succeeded, and what it wrote. *)
Record CommandOutput := MkCommandOutput { co_success : bool; co_stdout : list Z; co_stderr : list Z }.

(** [None]: the program cannot be started; the file cannot be read. *)
Class CommandOs (K : Type) := {
  run_command : K → list (list Z) → K * option CommandOutput;
  read_to_string : K → list Z → option (list Z);
}.

(** ** Code that runs commands *)
Definition Host (K E A : Type) : Type := K → K * outcome E A.
Definition host_ret {K E A} (a : A) : Host K E A := λ k, (k, Ok a).
Definition host_err {K E A} (e : E) : Host K E A := λ k, (k, Err e).
Definition host_bind {K E A B} (m : Host K E A) (f : A → Host K E B) : Host K E B := λ k,
  match m k with (k, Ok a) => f a k | (k, Err e) => (k, Err e) | (k, Panic) => (k, Panic) end.
Declare Scope host_scope.
Delimit Scope host_scope with host.
Notation "'do!' x ':=' m 'in' c" := (host_bind m (λ x, c)) (at level 10, x pattern, m at level 100, c at level 200) : host_scope.
#[global] Open Scope host_scope.
(** Code whose result is thrown away, as [let _ =] does. *)
Definition quietly {K E A} (m : Host K E A) (k : K) : K := (m k).1.

(** What such code keeps of the host, whatever it returns. *)
Definition preserves {K E A} (P : K → Prop) (m : Host K E A) : Prop := ∀ k, P k → P (m k).1.
Lemma preserves_bind {K E A B} (P : K → Prop) (m : Host K E A) (f : A → Host K E B) :
  preserves P m → (∀ a, preserves P (f a)) → preserves P (host_bind m f).
Proof. intros Hm Hf k Hk. unfold host_bind. specialize (Hm k Hk). destruct (m k) as [k' [a|e|]]; [by apply Hf|done|done]. Qed.
Lemma preserves_ret {K E A} (P : K → Prop) (a : A) : preserves P (host_ret (K := K) (E := E) a).
Proof. by intros k. Qed.
Lemma preserves_err {K E A} (P : K → Prop) (e : E) : preserves P (host_err (K := K) (A := A) e).
Proof. by intros k. Qed.
Create HintDb host discriminated.
#[export] Hint Resolve preserves_bind preserves_ret preserves_err : host.

(** ** Addresses of interfaces *)
Fixpoint after_keyword (key : list Z) (ws : list (list Z)) : option (list Z) :=
  match ws with
  | a :: (b :: _) as rest => if bool_decide (a = key) then Some b else after_keyword key rest
  | _ => None
  end.
(** [str::split] at a byte never gives an empty iterator. *)
Definition before (sep : Z) (s : list Z) : list Z := hd [] (split_on sep s).

Definition parse_interface_ipv4_output (output : list Z) : option Z :=
  token ← after_keyword (str "inet") (split_whitespace output);
  parse_ipv4 (before 47 token).
Definition parse_interface_ipv6_output (output : list Z) : option Z :=
  token ← after_keyword (str "inet6") (split_whitespace output);
  parse_ipv6 (before 37 (before 47 token)).

Inductive LookupError := LookupSpawn | LookupStatus | LookupUtf8 | LookupNone.

Section Lookup.
Context `{CommandOs K}.

Definition ip_command (args : list (list Z)) : Host K LookupError (list Z) := λ k,
  match run_command k (str "ip" :: args) with
  | (k, None) => (k, Err LookupSpawn)
  | (k, Some out) =>
    if negb (co_success out) then (k, Err LookupStatus)
    else if from_utf8 (co_stdout out) then (k, Ok (co_stdout out)) else (k, Err LookupUtf8)
  end.
Definition lookup_interface_ipv4 (interface : list Z) : Host K LookupError Z :=
  do! stdout := ip_command [str "-4"; str "-o"; str "addr"; str "show"; str "dev"; interface] in
  λ k, (k, ok_or (parse_interface_ipv4_output stdout) LookupNone).
Definition lookup_interface_ipv6 (interface : list Z) : Host K LookupError Z :=
  do! stdout := ip_command [str "-6"; str "-o"; str "addr"; str "show"; str "scope"; str "global"; str "dev"; interface] in
  λ k, (k, ok_or (parse_interface_ipv6_output stdout) LookupNone).

(** The host may change while the code sleeps. *)
Fixpoint lookup_retry (n : nat) (sleep : K → K) (interface : list Z) (last_err : LookupError) : Host K LookupError Z := λ k,
  match n with
  | O => (k, Err last_err)
  | S n =>
    match lookup_interface_ipv6 interface k with
    | (k, Ok ip) => (k, Ok ip)
    | (k, Err e) => lookup_retry n sleep interface e (sleep k)
    | (k, Panic) => (k, Panic)
    end
  end.
Definition lookup_interface_ipv6_with_retry (sleep : K → K) (interface : list Z) : Host K LookupError Z :=
  lookup_retry 8 sleep interface LookupNone.

(** The first usable line; a line with too few words ends the search. *)
Fixpoint uplink_lines (exclude : list (list Z)) (ls : list (list Z)) : option (list Z * Z) :=
  match ls with
  | [] => None
  | line :: ls =>
    match split_whitespace line with
    | _ :: iface :: rest =>
      if bool_decide (iface ∈ exclude) then uplink_lines exclude ls else
      match rest with
      | _ :: addr_cidr :: _ =>
        match parse_ipv6 (before 47 addr_cidr) with
        | Some ip => Some (iface, ip)
        | None => uplink_lines exclude ls
        end
      | _ => None
      end
    | _ => None
    end
  end.
Definition find_any_ipv6_uplink (exclude : list (list Z)) : K → K * option (list Z * Z) := λ k,
  match ip_command [str "-6"; str "-o"; str "addr"; str "show"; str "scope"; str "global"] k with
  | (k, Ok stdout) => (k, uplink_lines exclude (lines stdout))
  | (k, _) => (k, None)
  end.
End Lookup.

(** ** What is read of a listing *)
Lemma after_keyword_at key pre w post : key ∉ pre → after_keyword key (pre ++ key :: w :: post) = Some w.
Proof.
  induction pre as [|p pre IH]; cbn [app after_keyword]; [by rewrite bool_decide_eq_true_2|].
  rewrite not_elem_of_cons. intros [Hne Hin]. destruct (pre ++ key :: w :: post) as [|x l] eqn:E; [by destruct pre|].
  rewrite bool_decide_eq_false_2 by done. by apply IH.
Qed.
Lemma before_app sep a b : Forall (λ x, x ≠ sep) a → before sep (a ++ sep :: b) = a.
Proof. intros Ha. unfold before. by rewrite split_on_app. Qed.
Lemma before_none sep a : Forall (λ x, x ≠ sep) a → before sep a = a.
Proof. intros Ha. unfold before. by rewrite split_on_last. Qed.
(** A line of [ip -o addr]: words, the keyword of the family, the address with
    its prefix, and more words. *)
Definition addr_line (k : nat) (pre : list (list Z)) (key cidr : list Z) (post : list (list Z)) : list Z :=
  join (replicate (S k) 32) (pre ++ key :: cidr :: post).
Lemma keyword_line k pre key cidr post : Forall word_ok pre → Forall word_ok (key :: cidr :: post) → key ∉ pre →
  after_keyword key (split_whitespace (addr_line k pre key cidr post)) = Some cidr.
Proof. intros Hpre Hrest Hkey. unfold addr_line. rewrite split_whitespace_join by (by apply Forall_app). by apply after_keyword_at. Qed.
Lemma cidr_word ip len : addr_text ip → u8_ok len → word_ok (ip ++ 47 :: dec_u8 len).
Proof.
  intros [Hip Hne]%addr_text_word Hl. destruct (addr_text_word _ (dec_u8_chars len Hl)) as [Hd _].
  split; [|by destruct ip]. apply Forall_app. split; [done|]. by constructor.
Qed.

(** the address of an interface is found in what [ip] prints of it, whatever
    words are before the keyword of the family and after the address. *)
Theorem interface_address_read `{CommandOs K} (k k' : K) interface (ip4 ip6 len : Z) sp pre post err :
  u32_ok ip4 → 0 <= ip6 < 2 ^ 128 → u8_ok len → Forall word_ok pre → Forall word_ok post → str "inet" ∉ pre → str "inet6" ∉ pre →
  (∀ out, out = addr_line sp pre (str "inet") (fmt_ipv4 ip4 ++ 47 :: dec_u8 len) post → from_utf8 out = true →
    run_command k [str "ip"; str "-4"; str "-o"; str "addr"; str "show"; str "dev"; interface] = (k', Some (MkCommandOutput true out err)) →
    lookup_interface_ipv4 interface k = (k', Ok ip4)) ∧
  (∀ out, out = addr_line sp pre (str "inet6") (fmt_ipv6 ip6 ++ 47 :: dec_u8 len) post → from_utf8 out = true →
    run_command k [str "ip"; str "-6"; str "-o"; str "addr"; str "show"; str "scope"; str "global"; str "dev"; interface] = (k', Some (MkCommandOutput true out err)) →
    lookup_interface_ipv6 interface k = (k', Ok ip6)).
Proof.
  intros H4 H6 Hlen Hpre Hpost Hk4 Hk6. split; intros out -> Hutf Hrun.
  - unfold lookup_interface_ipv4, host_bind, ip_command. rewrite Hrun. cbn [co_success co_stdout negb]. rewrite Hutf.
    unfold parse_interface_ipv4_output. rewrite keyword_line; [|done| |done].
    2:{ constructor; [by apply (bool_decide_unpack _); vm_compute|]. constructor; [|done]. apply cidr_word; [apply fmt_ipv4_text|done]. }
    cbn [mbind option_bind]. rewrite before_app by (apply addr_text_without; [unfold addr_char; lia|apply fmt_ipv4_text]).
    by rewrite (proj1 (fmt_ipv4_spec ip4 H4)).
  - unfold lookup_interface_ipv6, host_bind, ip_command. rewrite Hrun. cbn [co_success co_stdout negb]. rewrite Hutf.
    unfold parse_interface_ipv6_output. rewrite keyword_line; [|done| |done].
    2:{ constructor; [by apply (bool_decide_unpack _); vm_compute|]. constructor; [|done]. apply cidr_word; [apply fmt_ipv6_text|done]. }
    cbn [mbind option_bind]. rewrite before_app by (apply addr_text_without; [unfold addr_char; lia|apply fmt_ipv6_text]).
    rewrite before_none by (apply addr_text_without; [unfold addr_char; lia|apply fmt_ipv6_text]). by rewrite parse_fmt_ipv6.
Qed.

Example uplink_found :
  uplink_lines [str "eth0"; str "pim0"; str "lo"]
    [str "1: eth0    inet6 2001:db8::5/64 scope global"; str "2: eth1    inet6 2001:db8:1::7/64 scope global dynamic"] =
  Some (str "eth1", 0x20010db8000100000000000000000007).
Proof. by vm_compute. Qed.
