(* ===== verification/Firewall.v ===== *)
(** * Rules of the host (crates/pim-gateway/src/engine.rs, engine/firewall.rs, ipv6.rs)

    What a gateway changes of its host when it starts and takes back when it
    ends: rules of [iptables] and [ip6tables], and the ports the kernel leaves
    alone.  [FirewallOs] says what a state of the host holds of both, and
    [LawfulFirewall] what the commands do to it, for a process with the rights
    to run them; [RevocableFirewall] is a host on which checks, deletions and
    the restoring write do not fail.  A rule is its [-A] form; what counts is how many copies
    of it there are, not where they stand in their chain. *)

From S2P Require Import Prelude Core MeshAddress Text Ipv6Text Host.

Notation Rule := (list (list Z)).

(** ** Commands *)
Inductive GatewaySetupError := CommandFailed (program : list Z).

Definition set_op (op : list Z) (pos : nat) (args : Rule) : Rule := <[pos := op]> args.
(** [position(|a| *a == "-A")]. *)
Fixpoint position_op (args : Rule) : option nat :=
  match args with
  | [] => None
  | a :: args => if bool_decide (a = str "-A") then Some O else S <$> position_op args
  end.
Definition replace_op (op : list Z) (add_args : Rule) : Rule :=
  match position_op add_args with Some pos => set_op op pos add_args | None => add_args end.

Definition input_drop_args (proto iface : list Z) : Rule :=
  [str "-A"; str "INPUT"; str "-i"; iface; str "-p"; proto; str "--dport"; str "30000:59999"; str "-j"; str "DROP"].
Definition masquerade_args (cidr iface : list Z) : Rule :=
  [str "-t"; str "nat"; str "-A"; str "POSTROUTING"; str "-s"; cidr; str "-o"; iface; str "-j"; str "MASQUERADE"].
Definition forward_args (cidr : list Z) : Rule := [str "-A"; str "FORWARD"; str "-s"; cidr; str "-j"; str "ACCEPT"].

Definition RESERVED_PATH : list Z := str "/proc/sys/net/ipv4/ip_local_reserved_ports".
Definition RESERVED_KEY : list Z := str "net.ipv4.ip_local_reserved_ports=".
Definition our_range : list Z := str "30000-59999".

Section Commands.
Context `{CommandOs K}.

Definition run_cmd (program : list Z) (args : list (list Z)) : Host K GatewaySetupError unit := λ k,
  match run_command k (program :: args) with
  | (k, None) => (k, Err (CommandFailed program))
  | (k, Some out) => if co_success out then (k, Ok ()) else (k, Err (CommandFailed program))
  end.
Definition check_cmd_quiet (program : list Z) (args : list (list Z)) : Host K GatewaySetupError bool := λ k,
  match run_command k (program :: args) with
  | (k, None) => (k, Err (CommandFailed program))
  | (k, Some out) => (k, Ok (co_success out))
  end.

(** Eight rounds at most. *)
Fixpoint delete_rounds (n : nat) (program : list Z) (add_args : Rule) (k : K) : K :=
  match n with
  | O => k
  | S n =>
    match run_command k (program :: replace_op (str "-C") add_args) with
    | (k, Some out) =>
      if co_success out then delete_rounds n program add_args (run_command k (program :: replace_op (str "-D") add_args)).1 else k
    | (k, None) => k
    end
  end.
Definition iptables_delete_if_present (program : list Z) (add_args : Rule) (k : K) : K := delete_rounds 8 program add_args k.

(** A rule is added when the check does not find it. *)
Definition ensure_rule (program : list Z) (pos : nat) (rule_args : Rule) : Host K GatewaySetupError unit :=
  do! present := check_cmd_quiet program (set_op (str "-C") pos rule_args) in
  if present then host_ret () else run_cmd program rule_args.

(** ** IPv4 *)
Record GatewayHost := MkGatewayHost { gh_internet_iface : list Z; gh_reserved_ports_backup : option (list Z) }.
Definition set_backup b g := MkGatewayHost (gh_internet_iface g) b.

Definition reserve_nat_ports_from_kernel (g : GatewayHost) (k : K) : K * GatewayHost :=
  match gh_reserved_ports_backup g with
  | Some _ => (k, g)
  | None =>
    let current := default [] (trim <$> read_to_string k RESERVED_PATH) in
    let new_value :=
      if bool_decide (current = []) then our_range
      else if existsb (λ e, bool_decide (trim e = our_range)) (split_on 44 current) then current
      else current ++ 44 :: our_range in
    if bool_decide (new_value = current) then (k, set_backup (Some current) g) else
    match run_cmd (str "sysctl") [str "-w"; RESERVED_KEY ++ new_value] k with
    | (k, Ok _) => (k, set_backup (Some current) g)
    | (k, _) => (k, g)
    end
  end.
Definition restore_nat_ports_from_kernel (g : GatewayHost) (k : K) : K * GatewayHost :=
  match gh_reserved_ports_backup g with
  | None => (k, g)
  | Some orig => (quietly (run_cmd (str "sysctl") [str "-w"; RESERVED_KEY ++ orig]) k, set_backup None g)
  end.

Definition ensure_drops (program iface : list Z) : Host K GatewaySetupError unit :=
  do! _ := ensure_rule program 0 (input_drop_args (str "tcp") iface) in
  ensure_rule program 0 (input_drop_args (str "udp") iface).

Definition setup_masquerade (mesh_cidr : list Z) (g : GatewayHost) (k : K) : K * GatewayHost * outcome GatewaySetupError unit :=
  let k := quietly (run_cmd (str "sysctl") [str "-w"; str "net.ipv4.ip_forward=1"]) k in
  let '(k, g) := reserve_nat_ports_from_kernel g k in
  let '(k, r) :=
    (do! _ := ensure_rule (str "iptables") 2 (masquerade_args mesh_cidr (gh_internet_iface g)) in
     do! _ := ensure_rule (str "iptables") 0 (forward_args mesh_cidr) in
     ensure_drops (str "iptables") (gh_internet_iface g)) k in
  (k, g, r).
Definition teardown_masquerade (mesh_cidr : list Z) (g : GatewayHost) (k : K) : K * GatewayHost :=
  let k := iptables_delete_if_present (str "iptables") (input_drop_args (str "tcp") (gh_internet_iface g)) k in
  let k := iptables_delete_if_present (str "iptables") (input_drop_args (str "udp") (gh_internet_iface g)) k in
  let k := iptables_delete_if_present (str "iptables") (masquerade_args mesh_cidr (gh_internet_iface g)) k in
  let k := iptables_delete_if_present (str "iptables") (forward_args mesh_cidr) k in
  restore_nat_ports_from_kernel g k.

(** ** IPv6 *)
Definition setup_masquerade_v6 (iface : list Z) : Host K GatewaySetupError unit := λ k,
  ensure_drops (str "ip6tables") iface (quietly (run_cmd (str "sysctl") [str "-w"; str "net.ipv6.conf.all.forwarding=1"]) k).
Definition teardown_masquerade_v6 (iface : list Z) (k : K) : K :=
  iptables_delete_if_present (str "ip6tables") (input_drop_args (str "udp") iface)
    (iptables_delete_if_present (str "ip6tables") (input_drop_args (str "tcp") iface) k).

(** ** The daemon (crates/pim-daemon/src/app.rs, gateway_tasks.rs, app/event_loop.rs)

    The engines that were built, with the interface their rules are on. *)
Record GatewayRules := MkGatewayRules { gr_v4 : option GatewayHost; gr_v6 : option (list Z) }.

Definition gateway_external_ip (is_gateway : bool) (nat_interface : list Z) (k : K) : K * option Z :=
  if is_gateway then
    match lookup_interface_ipv4 nat_interface k with (k, Ok ip) => (k, Some ip) | (k, _) => (k, None) end
  else (k, None).
Definition gateway_external_ipv6 (is_gateway : bool) (sleep : K → K) (nat_interface : list Z) (k : K) : K * option Z :=
  if is_gateway then
    match lookup_interface_ipv6_with_retry sleep nat_interface k with
    | (k, Ok ip) => (k, Some ip)
    | (k, _) => let '(k, found) := find_any_ipv6_uplink [nat_interface; str "pim0"; str "lo"] k in (k, snd <$> found)
    end
  else (k, None).

(** [link] says whether the raw sockets can be opened; when they cannot, the
    daemon does not start. *)
Definition gateway_start (is_gateway : bool) (sleep : K → K) (prefix : Ipv4Prefix) (nat_interface : list Z) (link : bool) (k : K) : K * option GatewayRules :=
  let '(k, external_ip) := gateway_external_ip is_gateway nat_interface k in
  let '(k, external_ipv6) := gateway_external_ipv6 is_gateway sleep nat_interface k in
  let '(k, v4) :=
    match is_gateway, external_ip with
    | true, Some _ =>
      let '(k, g, _) := setup_masquerade (Ipv4Prefix_to_cidr_string prefix) (MkGatewayHost nat_interface None) k in (k, Some g)
    | _, _ => (k, None)
    end in
  let '(k, v6) :=
    match is_gateway, external_ipv6 with
    | true, Some _ => (quietly (setup_masquerade_v6 nat_interface) k, Some nat_interface)
    | _, _ => (k, None)
    end in
  if is_gateway && negb link then (k, None) else (k, Some (MkGatewayRules v4 v6)).

(** [ensure_gateway_ipv6_engine], as far as it changes the host. *)
Definition late_ipv6 (configured : option (list Z)) (gr : GatewayRules) (k : K) : K * GatewayRules :=
  match gr_v6 gr, configured with
  | Some _, _ | None, None => (k, gr)
  | None, Some configured =>
    let '(k, found) :=
      match lookup_interface_ipv6 configured k with
      | (k, Ok ip) => (k, Some (configured, ip))
      | (k, _) => find_any_ipv6_uplink [configured; str "pim0"; str "lo"] k
      end in
    match found with
    | None => (k, gr)
    | Some (iface, _) => (quietly (setup_masquerade_v6 iface) k, MkGatewayRules (gr_v4 gr) (Some iface))
    end
  end.

Definition gateway_stop (is_gateway : bool) (prefix : Ipv4Prefix) (gr : GatewayRules) (k : K) : K :=
  if is_gateway then
    let k := match gr_v4 gr with Some g => (teardown_masquerade (Ipv4Prefix_to_cidr_string prefix) g k).1 | None => k end in
    match gr_v6 gr with Some iface => teardown_masquerade_v6 iface k | None => k end
  else k.
End Commands.

(** ** What the host holds *)
Class FirewallOs (K : Type) := {
  fw_count : K → list Z → Rule → nat;        (* program, rule: copies *)
  fw_reserved : K → list Z;
  fw_canonical : list Z → Prop;              (* as the kernel prints them *)
  fw_root : K → Prop;
}.
Definition tables (p : list Z) : Prop := p = str "iptables" ∨ p = str "ip6tables".
(** An argument that is not an operation. *)
Definition plain (a : list Z) : Prop := a ∉ [str "-A"; str "-C"; str "-D"].
Definition rule_ok (pos : nat) (r : Rule) : Prop := r !! pos = Some (str "-A") ∧ Forall plain (take pos r) ∧ Forall plain (drop (S pos) r).
Definition succeeded (o : option CommandOutput) : bool := match o with Some out => co_success out | None => false end.
Definition one (p : list Z) (r : Rule) (q : list Z) (x : Rule) : nat := if bool_decide ((q, x) = (p, r)) then 1 else 0.

(** What the commands do: one that reports success has done it, one that fails
    has changed nothing, and a check finds only what is there. *)
Class LawfulFirewall `{CommandOs K} `{FirewallOs K} : Prop := {
  lf_root (k : K) cmd : fw_root k → fw_root (run_command k cmd).1;
  lf_check (k : K) p pos r : fw_root k → tables p → rule_ok pos r →
    (succeeded (run_command k (p :: set_op (str "-C") pos r)).2 = true → (0 < fw_count k p r)%nat) ∧
    ∀ q x, fw_count (run_command k (p :: set_op (str "-C") pos r)).1 q x = fw_count k q x;
  lf_append (k : K) p pos r : fw_root k → tables p → rule_ok pos r →
    ∀ q x, fw_count (run_command k (p :: r)).1 q x = (fw_count k q x + if succeeded (run_command k (p :: r)).2 then one p r q x else 0)%nat;
  lf_delete (k : K) p pos r : fw_root k → tables p → rule_ok pos r →
    ∀ q x, fw_count (run_command k (p :: set_op (str "-D") pos r)).1 q x =
      (fw_count k q x - if succeeded (run_command k (p :: set_op (str "-D") pos r)).2 then one p r q x else 0)%nat;
  lf_other (k : K) p args q x : ~ tables p → fw_count (run_command k (p :: args)).1 q x = fw_count k q x;
  lf_read (k : K) : fw_root k → trim <$> read_to_string k RESERVED_PATH = Some (fw_reserved k) ∧ fw_canonical (fw_reserved k);
  lf_write (k : K) v : fw_root k → fw_canonical v → succeeded (run_command k [str "sysctl"; str "-w"; RESERVED_KEY ++ v]).2 = true →
    fw_reserved (run_command k [str "sysctl"; str "-w"; RESERVED_KEY ++ v]).1 = v;
  lf_write_fails (k : K) v : fw_root k → succeeded (run_command k [str "sysctl"; str "-w"; RESERVED_KEY ++ v]).2 = false →
    fw_reserved (run_command k [str "sysctl"; str "-w"; RESERVED_KEY ++ v]).1 = fw_reserved k;
  lf_unreserved (k : K) p args : p ≠ str "sysctl" ∨ (∀ v, args ≠ [str "-w"; RESERVED_KEY ++ v]) →
    fw_reserved (run_command k (p :: args)).1 = fw_reserved k;
}.

(** A host on which rules can be looked up and taken back: a check finds a rule
    that is there, a deletion of one succeeds, and the kernel takes a list of
    ports it has printed itself.  The code goes on without a word when one of
    these fails, so that what it should have removed stays. *)
Class RevocableFirewall `{CommandOs K} `{FirewallOs K} : Prop := {
  rf_check (k : K) p pos r : fw_root k → tables p → rule_ok pos r →
    (run_command k (p :: set_op (str "-C") pos r)).2 ≠ None ∧ ((0 < fw_count k p r)%nat → succeeded (run_command k (p :: set_op (str "-C") pos r)).2 = true);
  rf_delete (k : K) p pos r : fw_root k → tables p → rule_ok pos r → (0 < fw_count k p r)%nat →
    succeeded (run_command k (p :: set_op (str "-D") pos r)).2 = true;
  rf_write (k : K) v : fw_root k → fw_canonical v → succeeded (run_command k [str "sysctl"; str "-w"; RESERVED_KEY ++ v]).2 = true;
}.

(** ** Lemmas: rules *)
Section Rules.
Context `{Hcmd : CommandOs K} `{Hfw : FirewallOs K} {Hlaw : LawfulFirewall} {Hrev : RevocableFirewall}.

Lemma check_exact k p pos r : fw_root k → tables p → rule_ok pos r →
  succeeded (run_command k (p :: set_op (str "-C") pos r)).2 = bool_decide (0 < fw_count k p r)%nat ∧
  (run_command k (p :: set_op (str "-C") pos r)).2 ≠ None ∧
  ∀ q x, fw_count (run_command k (p :: set_op (str "-C") pos r)).1 q x = fw_count k q x.
Proof.
  intros Hk Hp Hr. destruct (lf_check k p pos r Hk Hp Hr) as [Hs Hc]. destruct (rf_check k p pos r Hk Hp Hr) as [Hn Hf]. split_and!; [|done|done].
  destruct (succeeded _); [by rewrite bool_decide_eq_true_2 by auto|]. rewrite bool_decide_eq_false_2; [done|]. intros Hpos. by specialize (Hf Hpos).
Qed.

Lemma rule_position pos r : rule_ok pos r → position_op r = Some pos.
Proof.
  intros (Hp & Hb & _). revert pos Hp Hb. induction r as [|a r IH]; intros pos Hp Hb; [done|]. cbn [position_op].
  destruct pos as [|pos]; [injection Hp as ->; by rewrite bool_decide_eq_true_2|]. cbn in *. inversion_clear Hb as [|?? Ha Hb'].
  rewrite bool_decide_eq_false_2 by (intros ->; apply Ha; set_solver). by rewrite (IH pos).
Qed.
Lemma replace_op_at op pos r : rule_ok pos r → replace_op op r = set_op op pos r.
Proof. intros Hr. unfold replace_op. by rewrite (rule_position pos). Qed.

(** What installing rules may do to the host. *)
Definition adds (R : list (list Z * Rule)) (k k' : K) : Prop :=
  fw_root k' ∧ fw_reserved k' = fw_reserved k ∧
  ∀ q x, (fw_count k q x ≤ fw_count k' q x ≤ if bool_decide ((q, x) ∈ R) then 1 `max` fw_count k q x else fw_count k q x)%nat.
Definition installs {E A} (R : list (list Z * Rule)) (m : Host K E A) : Prop := ∀ k, fw_root k → adds R k (m k).1.

Lemma adds_refl R k : fw_root k → adds R k k.
Proof. intros Hk. split_and!; [done|done|]. intros q x. destruct (bool_decide ((q, x) ∈ R)); lia. Qed.
Lemma adds_trans R k1 k2 k3 : adds R k1 k2 → adds R k2 k3 → adds R k1 k3.
Proof. intros (_ & Hs & Hc) (Hr' & Hs' & Hc'). split_and!; [done|congruence|]. intros q x. specialize (Hc q x). specialize (Hc' q x). destruct (bool_decide ((q, x) ∈ R)); lia. Qed.
Lemma installs_bind {E A B} R (m : Host K E A) (f : A → Host K E B) : installs R m → (∀ a, installs R (f a)) → installs R (host_bind m f).
Proof.
  intros Hm Hf k Hk. unfold host_bind. specialize (Hm k Hk). destruct (m k) as [k' [a|e|]]; [|done|done]. cbn in Hm.
  eapply adds_trans; [exact Hm|]. apply Hf, Hm.
Qed.

Lemma tables_not_sysctl p : tables p → p ≠ str "sysctl".
Proof. intros [-> | ->]; by vm_compute. Qed.
Lemma sysctl_not_tables : ~ tables (str "sysctl").
Proof. intros [E|E]; by vm_compute in E. Qed.

Lemma ensure_rule_installs R p pos r : tables p → rule_ok pos r → (p, r) ∈ R → installs R (ensure_rule p pos r).
Proof.
  intros Hp Hr HR k Hk. unfold ensure_rule, host_bind, check_cmd_quiet. pose proof (check_exact k p pos r Hk Hp Hr) as (Hc & Hn & Hf).
  pose proof (lf_root k (p :: set_op (str "-C") pos r) Hk) as Hk1.
  pose proof (lf_unreserved k p (set_op (str "-C") pos r) (or_introl (tables_not_sysctl p Hp))) as Hres.
  destruct (run_command k (p :: set_op (str "-C") pos r)) as [k1 [out|]]; [|done]. cbn [fst snd succeeded] in *.
  assert (Hsame : adds R k k1). { split_and!; [done|done|]. intros q x. rewrite Hf. destruct (bool_decide ((q, x) ∈ R)); lia. }
  destruct (co_success out); [done|]. symmetry in Hc. apply bool_decide_eq_false in Hc. eapply adds_trans; [exact Hsame|].
  unfold run_cmd. pose proof (lf_append k1 p pos r Hk1 Hp Hr) as Ha. pose proof (lf_root k1 (p :: r) Hk1) as Hk2.
  pose proof (lf_unreserved k1 p r (or_introl (tables_not_sysctl p Hp))) as Hres2.
  destruct (run_command k1 (p :: r)) as [k2 o]. cbn in Ha, Hk2, Hres2.
  assert (adds R k1 k2); [|by destruct o as [out'|]; [destruct (co_success out')|]].
  split_and!; [done|done|]. intros q x. rewrite Ha. unfold one. destruct (succeeded o); [|destruct (bool_decide ((q, x) ∈ R)); lia].
  destruct (bool_decide_reflect ((q, x) = (p, r))) as [[= -> ->]|]; [rewrite bool_decide_eq_true_2 by done; rewrite Hf; lia|destruct (bool_decide ((q, x) ∈ R)); lia].
Qed.
Lemma ensure_rule_ok p pos r k k' : tables p → rule_ok pos r → fw_root k → ensure_rule p pos r k = (k', Ok ()) → (0 < fw_count k' p r)%nat.
Proof.
  intros Hp Hr Hk. unfold ensure_rule, host_bind, check_cmd_quiet. pose proof (check_exact k p pos r Hk Hp Hr) as (Hc & Hn & Hf).
  pose proof (lf_root k (p :: set_op (str "-C") pos r) Hk) as Hk1.
  destruct (run_command k (p :: set_op (str "-C") pos r)) as [k1 [out|]]; [|done]. cbn [fst snd succeeded] in *.
  destruct (co_success out).
  - intros [= <-]. symmetry in Hc. apply bool_decide_eq_true in Hc. by rewrite Hf.
  - unfold run_cmd. pose proof (lf_append k1 p pos r Hk1 Hp Hr p r) as Ha. destruct (run_command k1 (p :: r)) as [k2 [out'|]]; [|done]. cbn in Ha.
    destruct (co_success out'); [|done]. intros [= <-]. unfold one in Ha. rewrite bool_decide_eq_true_2 in Ha by done. lia.
Qed.

Lemma delete_rounds_spec n p pos r k : tables p → rule_ok pos r → fw_root k →
  fw_root (delete_rounds n p r k) ∧ fw_reserved (delete_rounds n p r k) = fw_reserved k ∧
  ∀ q x, fw_count (delete_rounds n p r k) q x = (fw_count k q x - n * one p r q x)%nat.
Proof.
  intros Hp Hr. revert k. induction n as [|n IH]; intros k Hk; cbn [delete_rounds]; [split_and!; [done|done|intros; lia]|].
  rewrite !(replace_op_at _ pos) by done. pose proof (check_exact k p pos r Hk Hp Hr) as (Hc & Hn & Hf).
  pose proof (lf_root k (p :: set_op (str "-C") pos r) Hk) as Hk1.
  pose proof (lf_unreserved k p (set_op (str "-C") pos r) (or_introl (tables_not_sysctl p Hp))) as Hres.
  destruct (run_command k (p :: set_op (str "-C") pos r)) as [k1 [out|]]; [|done]. cbn [fst snd succeeded] in *. destruct (co_success out); symmetry in Hc.
  - apply bool_decide_eq_true in Hc. rewrite <- Hf in Hc. pose proof (lf_delete k1 p pos r Hk1 Hp Hr) as Hd. rewrite (rf_delete k1 p pos r Hk1 Hp Hr Hc) in Hd.
    pose proof (lf_root k1 (p :: set_op (str "-D") pos r) Hk1) as Hk2.
    pose proof (lf_unreserved k1 p (set_op (str "-D") pos r) (or_introl (tables_not_sysctl p Hp))) as Hres2.
    destruct (run_command k1 (p :: set_op (str "-D") pos r)) as [k2 o]. cbn [fst snd] in *. destruct (IH k2 Hk2) as (Hr3 & Hs3 & Hc3).
    split_and!; [done|congruence|]. intros q x. rewrite Hc3, Hd, Hf. lia.
  - apply bool_decide_eq_false in Hc. split_and!; [done|done|]. intros q x. rewrite Hf. unfold one.
    destruct (bool_decide_reflect ((q, x) = (p, r))) as [[= -> ->]|]; lia.
Qed.

(** ** Lemmas: the gateway *)
Definition calm (k k' : K) : Prop := fw_root k' ∧ fw_reserved k' = fw_reserved k ∧ ∀ q x, fw_count k' q x = fw_count k q x.
(** As [adds], whatever happens to the reserved ports. *)
Definition grows (R : list (list Z * Rule)) (k k' : K) : Prop :=
  fw_root k' ∧ ∀ q x, (fw_count k q x ≤ fw_count k' q x ≤ if bool_decide ((q, x) ∈ R) then 1 `max` fw_count k q x else fw_count k q x)%nat.

Lemma calm_refl k : fw_root k → calm k k.
Proof. done. Qed.
Lemma calm_trans k1 k2 k3 : calm k1 k2 → calm k2 k3 → calm k1 k3.
Proof. intros (_ & Hs & Hc) (Hr' & Hs' & Hc'). split_and!; [done|congruence|]. intros q x. by rewrite Hc'. Qed.
Lemma adds_grows R k k' : adds R k k' → grows R k k'.
Proof. intros (Hr & _ & Hc). done. Qed.
Lemma calm_grows R k k' : calm k k' → grows R k k'.
Proof. intros (Hr & _ & Hc). split; [done|]. intros q x. rewrite Hc. destruct (bool_decide ((q, x) ∈ R)); lia. Qed.
Lemma grows_trans R k1 k2 k3 : grows R k1 k2 → grows R k2 k3 → grows R k1 k3.
Proof. intros (_ & Hc) (Hr' & Hc'). split; [done|]. intros q x. specialize (Hc q x). specialize (Hc' q x). destruct (bool_decide ((q, x) ∈ R)); lia. Qed.
Lemma grows_weaken R R' k k' : R ⊆ R' → grows R k k' → grows R' k k'.
Proof.
  intros HR (Hr & Hc). split; [done|]. intros q x. specialize (Hc q x). destruct (bool_decide_reflect ((q, x) ∈ R)) as [Hin|].
  - rewrite bool_decide_eq_true_2 by (by apply HR). done.
  - destruct (bool_decide ((q, x) ∈ R')); lia.
Qed.

Lemma ip_command_calm args k : fw_root k → calm k (ip_command args k).1.
Proof.
  intros Hk. unfold ip_command. assert (Hp : ~ tables (str "ip")) by (intros [E|E]; by vm_compute in E).
  assert (calm k (run_command k (str "ip" :: args)).1).
  { split_and!; [by apply lf_root|apply lf_unreserved; left; by vm_compute|]. intros q x. by apply lf_other. }
  destruct (run_command k (str "ip" :: args)) as [k' [out|]]; [|done]. by destruct (negb (co_success out)), (from_utf8 (co_stdout out)).
Qed.
Lemma lookup_ipv4_calm i k : fw_root k → calm k (lookup_interface_ipv4 i k).1.
Proof. intros Hk. unfold lookup_interface_ipv4, host_bind. pose proof (ip_command_calm [str "-4"; str "-o"; str "addr"; str "show"; str "dev"; i] k Hk). by destruct (ip_command _ k) as [k' [o|e|]]. Qed.
Lemma lookup_ipv6_calm i k : fw_root k → calm k (lookup_interface_ipv6 i k).1.
Proof. intros Hk. unfold lookup_interface_ipv6, host_bind. pose proof (ip_command_calm [str "-6"; str "-o"; str "addr"; str "show"; str "scope"; str "global"; str "dev"; i] k Hk). by destruct (ip_command _ k) as [k' [o|e|]]. Qed.
Lemma uplink_calm ex k : fw_root k → calm k (find_any_ipv6_uplink ex k).1.
Proof. intros Hk. unfold find_any_ipv6_uplink. pose proof (ip_command_calm [str "-6"; str "-o"; str "addr"; str "show"; str "scope"; str "global"] k Hk). by destruct (ip_command _ k) as [k' [o|e|]]. Qed.
Lemma retry_calm n sleep i e k : (∀ k, fw_root k → calm k (sleep k)) → fw_root k → calm k (lookup_retry n sleep i e k).1.
Proof.
  intros Hs. revert e k. induction n as [|n IH]; intros e k Hk; [done|]. cbn [lookup_retry]. pose proof (lookup_ipv6_calm i k Hk) as Hl.
  destruct (lookup_interface_ipv6 i k) as [k' [ip|e'|]]; [done| |done]. cbn [fst] in Hl. destruct (Hs k' (proj1 Hl)) as (Hr & Hx).
  eapply calm_trans; [exact Hl|]. eapply calm_trans; [by split|]. by apply IH.
Qed.

Lemma sysctl_calm setting k : fw_root k → (∀ v, setting ≠ RESERVED_KEY ++ v) → calm k (quietly (run_cmd (str "sysctl") [str "-w"; setting]) k).
Proof.
  intros Hk Hn. unfold quietly, run_cmd. assert (calm k (run_command k [str "sysctl"; str "-w"; setting]).1).
  { split_and!; [by apply lf_root|apply lf_unreserved; right; intros v [= E]; by apply (Hn v)|]. intros q x. apply lf_other, sysctl_not_tables. }
  destruct (run_command k _) as [k' [out|]]; [by destruct (co_success out)|done].
Qed.

Definition v4_rules (cidr iface : list Z) : list (list Z * Rule) :=
  (λ r, (str "iptables", r)) <$> [masquerade_args cidr iface; forward_args cidr; input_drop_args (str "tcp") iface; input_drop_args (str "udp") iface].
Definition v6_rules (iface : list Z) : list (list Z * Rule) :=
  (λ r, (str "ip6tables", r)) <$> [input_drop_args (str "tcp") iface; input_drop_args (str "udp") iface].
Lemma drop_rule_ok proto iface : plain proto → plain iface → rule_ok 0 (input_drop_args proto iface).
Proof. intros Hp Hi. split_and!; [done|constructor|]. cbn [drop input_drop_args]. repeat constructor; try done; by apply (bool_decide_unpack _); vm_compute. Qed.
Lemma forward_rule_ok cidr : plain cidr → rule_ok 0 (forward_args cidr).
Proof. intros Hc. split_and!; [done|constructor|]. repeat constructor; try done; by apply (bool_decide_unpack _); vm_compute. Qed.
Lemma masquerade_rule_ok cidr iface : plain cidr → plain iface → rule_ok 2 (masquerade_args cidr iface).
Proof. intros Hc Hi. split_and!; [done|by apply (bool_decide_unpack _); vm_compute|]. repeat constructor; try done; by apply (bool_decide_unpack _); vm_compute. Qed.
Lemma cidr_plain p : plain (Ipv4Prefix_to_cidr_string p).
Proof.
  unfold plain, Ipv4Prefix_to_cidr_string. destruct (fmt_ipv4_text (v4_network p)) as [Hf Hne]. destruct (fmt_ipv4 (v4_network p)) as [|b t]; [done|].
  inversion_clear Hf as [|?? Hb _]. cbn [app]. unfold addr_char in Hb. rewrite !elem_of_cons, elem_of_nil. intros [[= E _]|[[= E _]|[[= E _]|[]]]]; vm_compute in E; lia.
Qed.

Lemma ensure_drops_installs p iface : tables p → plain iface →
  installs ((λ r, (p, r)) <$> [input_drop_args (str "tcp") iface; input_drop_args (str "udp") iface]) (ensure_drops p iface).
Proof.
  intros Hp Hi. apply installs_bind; [|intros _].
  - apply ensure_rule_installs; [done|apply drop_rule_ok; [by apply (bool_decide_unpack _); vm_compute|done]|by left].
  - apply ensure_rule_installs; [done|apply drop_rule_ok; [by apply (bool_decide_unpack _); vm_compute|done]|by right; left].
Qed.
Lemma installs_weaken {E A} R R' (m : Host K E A) : R ⊆ R' → installs R m → installs R' m.
Proof.
  intros HR Hm k Hk. destruct (Hm k Hk) as (Hr & Hs & Hc). split_and!; [done|done|]. apply (grows_weaken R R' k (m k).1 HR). by split.
Qed.
Lemma setup_rules_installs cidr iface : plain cidr → plain iface → installs (v4_rules cidr iface)
  (do! _ := ensure_rule (str "iptables") 2 (masquerade_args cidr iface) in
   do! _ := ensure_rule (str "iptables") 0 (forward_args cidr) in ensure_drops (str "iptables") iface).
Proof.
  intros Hc Hi. assert (Hp : tables (str "iptables")) by (by left). apply installs_bind; [|intros _; apply installs_bind; [|intros _]].
  - apply ensure_rule_installs; [done|by apply masquerade_rule_ok|by left].
  - apply ensure_rule_installs; [done|by apply forward_rule_ok|by right; left].
  - eapply installs_weaken; [|by apply ensure_drops_installs]. unfold v4_rules. cbn [fmap list_fmap]. set_solver.
Qed.

(** On success the rules are there. *)
Definition puts (R : list (list Z * Rule)) (m : Host K GatewaySetupError unit) : Prop :=
  installs R m ∧ ∀ k k', fw_root k → m k = (k', Ok ()) → ∀ p r, (p, r) ∈ R → (0 < fw_count k' p r)%nat.
Lemma ensure_rule_puts p pos r : tables p → rule_ok pos r → puts [(p, r)] (ensure_rule p pos r).
Proof.
  intros Hp Hr. split; [apply ensure_rule_installs; [done|done|by left]|]. intros k k' Hk E q x. rewrite list_elem_of_singleton. intros [= -> ->].
  by eapply ensure_rule_ok.
Qed.
Lemma puts_then R1 R2 m1 m2 : puts R1 m1 → puts R2 m2 → puts (R1 ++ R2) (host_bind m1 (λ _, m2)).
Proof.
  intros [I1 P1] [I2 P2]. split.
  - apply installs_bind; [|intros _]; (eapply installs_weaken; [|done]); set_solver.
  - intros k k' Hk. unfold host_bind. destruct (m1 k) as [k1 [[]|e|]] eqn:E1; [|done|done]. intros E2 p r.
    pose proof (I1 k Hk) as Ha. rewrite E1 in Ha. destruct Ha as (Hk1 & _). pose proof (I2 k1 Hk1) as Hb. rewrite E2 in Hb. destruct Hb as (_ & _ & Hc).
    specialize (Hc p r). cbn [fst] in Hc. rewrite elem_of_app. intros [Hin|Hin]; [pose proof (P1 k k1 Hk E1 p r Hin); lia|by eapply P2].
Qed.
Lemma setup_rules_put cidr iface : plain cidr → plain iface → ∀ k k', fw_root k →
  (do! _ := ensure_rule (str "iptables") 2 (masquerade_args cidr iface) in
   do! _ := ensure_rule (str "iptables") 0 (forward_args cidr) in ensure_drops (str "iptables") iface) k = (k', Ok ()) →
  ∀ p r, (p, r) ∈ v4_rules cidr iface → (0 < fw_count k' p r)%nat.
Proof.
  intros Hc Hi. assert (Hp : tables (str "iptables")) by (by left).
  assert (Hd : ∀ proto, plain proto → rule_ok 0 (input_drop_args proto iface)) by (intros; by apply drop_rule_ok).
  refine (proj2 (puts_then [_] [_; _; _] _ _ (ensure_rule_puts _ 2 _ Hp (masquerade_rule_ok _ _ Hc Hi))
    (puts_then [_] [_; _] _ _ (ensure_rule_puts _ 0 _ Hp (forward_rule_ok _ Hc))
      (puts_then [_] [_] _ _ (ensure_rule_puts _ 0 _ Hp (Hd _ _)) (ensure_rule_puts _ 0 _ Hp (Hd _ _))))));
    by apply (bool_decide_unpack _); vm_compute.
Qed.

(** The saved value is the one to go back to. *)
Definition saved (orig : list Z) (backup : option (list Z)) (k : K) : Prop :=
  match backup with Some b => b = orig | None => fw_reserved k = orig end.
Lemma reserve_spec g k : fw_root k → gh_reserved_ports_backup g = None →
  let '(k', g') := reserve_nat_ports_from_kernel g k in
  fw_root k' ∧ (∀ q x, fw_count k' q x = fw_count k q x) ∧ gh_internet_iface g' = gh_internet_iface g ∧ saved (fw_reserved k) (gh_reserved_ports_backup g') k'.
Proof.
  intros Hk Hb. unfold reserve_nat_ports_from_kernel. rewrite Hb. destruct (lf_read k Hk) as [Hread _]. rewrite Hread. change (default [] (Some (fw_reserved k))) with (fw_reserved k). cbv zeta.
  match goal with |- context [bool_decide (?v = fw_reserved k)] => generalize v; intros new_value end. case_bool_decide; [done|]. unfold run_cmd.
  pose proof (lf_root k [str "sysctl"; str "-w"; RESERVED_KEY ++ new_value] Hk) as Hk'.
  pose proof (λ q x, lf_other k (str "sysctl") [str "-w"; RESERVED_KEY ++ new_value] q x sysctl_not_tables) as Hc.
  pose proof (lf_write_fails k new_value Hk) as Hw.
  destruct (run_command k _) as [k' o]. cbn [fst snd] in *. destruct o as [out|]; [|split_and!; [done|done|done|rewrite Hb; by apply Hw]].
  cbn [succeeded] in Hw. destruct (co_success out); [done|]. split_and!; [done|done|done|]. rewrite Hb. by apply Hw.
Qed.
Lemma restore_spec orig g k : fw_root k → fw_canonical orig → saved orig (gh_reserved_ports_backup g) k →
  let '(k', g') := restore_nat_ports_from_kernel g k in
  fw_root k' ∧ (∀ q x, fw_count k' q x = fw_count k q x) ∧ fw_reserved k' = orig.
Proof.
  intros Hk Ho Hb. unfold restore_nat_ports_from_kernel. destruct (gh_reserved_ports_backup g) as [b|]; [|done]. cbn in Hb. subst b.
  unfold quietly, run_cmd. pose proof (lf_root k [str "sysctl"; str "-w"; RESERVED_KEY ++ orig] Hk) as Hk'.
  pose proof (λ q x, lf_other k (str "sysctl") [str "-w"; RESERVED_KEY ++ orig] q x sysctl_not_tables) as Hc.
  pose proof (lf_write k orig Hk Ho (rf_write k orig Hk Ho)) as Hw. destruct (run_command k _) as [k' [out|]]; [by destruct (co_success out)|done].
Qed.

Lemma setup_masquerade_spec cidr g k : fw_root k → plain cidr → plain (gh_internet_iface g) → gh_reserved_ports_backup g = None →
  let '(k', g', _) := setup_masquerade cidr g k in
  grows (v4_rules cidr (gh_internet_iface g)) k k' ∧ gh_internet_iface g' = gh_internet_iface g ∧ saved (fw_reserved k) (gh_reserved_ports_backup g') k'.
Proof.
  intros Hk Hc Hi Hb. unfold setup_masquerade.
  assert (Hs1 : calm k (quietly (run_cmd (str "sysctl") [str "-w"; str "net.ipv4.ip_forward=1"]) k)).
  { apply sysctl_calm; [done|]. intros v E. by vm_compute in E. }
  set (k1 := quietly _ k) in *. clearbody k1. pose proof (reserve_spec g k1 (proj1 Hs1) Hb) as Hr.
  destruct (reserve_nat_ports_from_kernel g k1) as [k2 g2]. destruct Hr as (Hk2 & Hc2 & Hi2 & Hsv). rewrite Hi2.
  pose proof (setup_rules_installs cidr (gh_internet_iface g) Hc Hi k2 Hk2) as Hin.
  destruct (host_bind _ _ k2) as [k3 r]. cbn [fst] in Hin. destruct Hs1 as (_ & Hs1 & Hc1). split_and!; [|done|].
  - split; [apply Hin|]. intros q x. destruct Hin as (_ & _ & Hin). specialize (Hin q x). by rewrite Hc2, Hc1 in Hin.
  - destruct Hin as (_ & Hres & _). unfold saved in *. rewrite Hs1 in Hsv. destruct (gh_reserved_ports_backup g2); [done|]. by rewrite Hres.
Qed.
Lemma setup_v6_spec iface k : fw_root k → plain iface → adds (v6_rules iface) k (quietly (setup_masquerade_v6 iface) k).
Proof.
  intros Hk Hi. unfold quietly at 1, setup_masquerade_v6.
  assert (Hs1 : calm k (quietly (run_cmd (str "sysctl") [str "-w"; str "net.ipv6.conf.all.forwarding=1"]) k)).
  { apply sysctl_calm; [done|]. intros v E. by vm_compute in E. }
  set (k1 := quietly _ k) in *. clearbody k1. pose proof (ensure_drops_installs (str "ip6tables") iface (or_intror eq_refl) Hi k1 (proj1 Hs1)) as (Hr & Hs & Hc).
  destruct Hs1 as (_ & Hs1 & Hc1). split_and!; [done|congruence|]. intros q x. specialize (Hc q x). by rewrite Hc1 in Hc.
Qed.

Definition owned (prefix : Ipv4Prefix) (gr : GatewayRules) : list (list Z * Rule) :=
  match gr_v4 gr with Some g => v4_rules (Ipv4Prefix_to_cidr_string prefix) (gh_internet_iface g) | None => [] end ++
  match gr_v6 gr with Some iface => v6_rules iface | None => [] end.
(** The host while the daemon runs: as it was at [k0], with more copies of the
    daemon's own rules, and its ports saved. *)
Definition running (prefix : Ipv4Prefix) (k0 : K) (gr : GatewayRules) (k : K) : Prop :=
  grows (owned prefix gr) k0 k ∧ saved (fw_reserved k0) (gr_v4 gr ≫= gh_reserved_ports_backup) k.
Definition plain_host (gr : GatewayRules) : Prop :=
  (∀ g, gr_v4 gr = Some g → plain (gh_internet_iface g)) ∧ (∀ iface, gr_v6 gr = Some iface → plain iface).

Lemma saved_calm orig b k k' : fw_reserved k' = fw_reserved k → saved orig b k → saved orig b k'.
Proof. intros Hr. destruct b; cbn; [done|]. congruence. Qed.
Lemma add_v6_running prefix k0 gr k k1 iface : plain iface → gr_v6 gr = None → running prefix k0 gr k → calm k k1 →
  running prefix k0 (MkGatewayRules (gr_v4 gr) (Some iface)) (quietly (setup_masquerade_v6 iface) k1).
Proof.
  intros Hi Hnone [Hg Hs] Hcalm. pose proof (setup_v6_spec iface k1 (proj1 Hcalm) Hi) as Hadd. split.
  - eapply grows_trans; [eapply grows_weaken; [|exact Hg]; unfold owned; rewrite Hnone, app_nil_r; set_solver|].
    eapply grows_trans; [by apply calm_grows|]. eapply grows_weaken; [|by apply adds_grows]. unfold owned. cbn [gr_v6]. set_solver.
  - eapply saved_calm; [|exact Hs]. destruct Hadd as (_ & -> & _). apply Hcalm.
Qed.
Lemma running_calm prefix k0 gr k k' : calm k k' → running prefix k0 gr k → running prefix k0 gr k'.
Proof. intros Hc [Hg Hs]. split; [eapply grows_trans; [exact Hg|by apply calm_grows]|]. eapply saved_calm; [apply Hc|done]. Qed.

Lemma external_calm g sleep i k : (∀ k, fw_root k → calm k (sleep k)) → fw_root k →
  calm k (gateway_external_ip g i k).1 ∧ calm k (gateway_external_ipv6 g sleep i k).1.
Proof.
  intros Hs Hk. unfold gateway_external_ip, gateway_external_ipv6. destruct g; [|by split; apply calm_refl]. split.
  - pose proof (lookup_ipv4_calm i k Hk). by destruct (lookup_interface_ipv4 i k) as [k' [ip|e|]].
  - unfold lookup_interface_ipv6_with_retry. pose proof (retry_calm 8 sleep i LookupNone k Hs Hk) as Hr.
    destruct (lookup_retry _ _ _ _ k) as [k' [ip|e|]]; cbn [fst] in Hr; [done| |];
      pose proof (uplink_calm [i; str "pim0"; str "lo"] k' (proj1 Hr)) as Hu; destruct (find_any_ipv6_uplink _ k') as [k2 o]; by apply (calm_trans _ k').
Qed.

Lemma start_running g sleep prefix i link k k' gr : (∀ k, fw_root k → calm k (sleep k)) → fw_root k → plain i →
  gateway_start g sleep prefix i link k = (k', Some gr) → running prefix k gr k'.
Proof.
  intros Hs Hk Hi. unfold gateway_start. destruct (external_calm g sleep i k Hs Hk) as [H4 _].
  destruct (gateway_external_ip g i k) as [k1 ip4]. cbn [fst] in H4. destruct (external_calm g sleep i k1 Hs (proj1 H4)) as [_ H6].
  destruct (gateway_external_ipv6 g sleep i k1) as [k2 ip6]. cbn [fst] in H6. assert (H2 : calm k k2) by (by apply (calm_trans _ k1)). clear H4 H6 k1.
  assert (Hv4 : ∃ k3 v4, (match g, ip4 with
    | true, Some _ => let '(k, g, _) := setup_masquerade (Ipv4Prefix_to_cidr_string prefix) (MkGatewayHost i None) k2 in (k, Some g)
    | _, _ => (k2, None) end) = (k3, v4) ∧ running prefix k (MkGatewayRules v4 None) k3).
  { assert (Hnone : running prefix k (MkGatewayRules None None) k2) by (split; [by apply calm_grows|apply H2]).
    destruct g, ip4; try (do 2 eexists; split; [done|exact Hnone]).
    pose proof (setup_masquerade_spec (Ipv4Prefix_to_cidr_string prefix) (MkGatewayHost i None) k2 (proj1 H2) (cidr_plain prefix) Hi eq_refl) as Hsetup.
    destruct (setup_masquerade _ _ k2) as [[k3 g3] r]. destruct Hsetup as (Hg & Hif & Hsv). do 2 eexists. split; [done|].
    cbn [gh_internet_iface] in Hg, Hif. split.
    - eapply grows_trans; [by apply calm_grows|]. unfold owned. cbn [gr_v4 gr_v6]. rewrite Hif, app_nil_r. done.
    - cbn. destruct H2 as (_ & <- & _). done. }
  destruct Hv4 as (k3 & v4 & -> & Hrun). destruct g, ip6; cbn [andb]; try (destruct (negb link); [done|]); intros [= <- <-]; try done.
  apply (add_v6_running prefix k (MkGatewayRules v4 None) k3 k3 i); [done|done|done|]. apply calm_refl, Hrun.
Qed.
Lemma late_running prefix k0 c gr k : (∀ iface, gr_v6 (late_ipv6 c gr k).2 = Some iface → plain iface) →
  running prefix k0 gr k → running prefix k0 (late_ipv6 c gr k).2 (late_ipv6 c gr k).1.
Proof.
  unfold late_ipv6. destruct (gr_v6 gr) as [v6|] eqn:Hv6; [done|]. destruct c as [c|]; [|done]. intros Hplain Hrun.
  assert (Hk : fw_root k) by apply Hrun. pose proof (lookup_ipv6_calm c k Hk) as H1'.
  destruct (lookup_interface_ipv6 c k) as [k1 [ip|e|]]; cbn [fst] in H1';
    [|pose proof (uplink_calm [c; str "pim0"; str "lo"] k1 (proj1 H1')) as Hu; destruct (find_any_ipv6_uplink _ k1) as [k2 [[iface ip]|]]; cbn [fst] in Hu..].
  all: cbn [fst snd] in *; try (eapply running_calm; [|exact Hrun]; by apply (calm_trans _ k1)).
  all: cbn [fst snd gr_v6] in *; apply (add_v6_running prefix k0 gr k); [by apply Hplain|done|done|]; try done; by apply (calm_trans _ k1).
Qed.

(** Eight copies of each rule are gone, and nothing else. *)
Definition clears (R : list (list Z * Rule)) (k k' : K) : Prop :=
  fw_root k' ∧ ∀ q x, if bool_decide ((q, x) ∈ R) then (fw_count k' q x ≤ fw_count k q x - 8)%nat else fw_count k' q x = fw_count k q x.
Lemma clears_trans R R' k1 k2 k3 : clears R k1 k2 → clears R' k2 k3 → clears (R ++ R') k1 k3.
Proof.
  intros (_ & Hc) (Hr' & Hc'). split; [done|]. intros q x. specialize (Hc q x). specialize (Hc' q x).
  destruct (bool_decide_reflect ((q, x) ∈ R)) as [Hin|Hin], (bool_decide_reflect ((q, x) ∈ R')) as [Hin'|Hin'];
    [rewrite bool_decide_eq_true_2 by set_solver; lia..|rewrite bool_decide_eq_false_2 by set_solver; lia].
Qed.
Lemma clears_nil k : fw_root k → clears [] k k.
Proof. intros Hk. split; [done|]. by intros q x. Qed.
Lemma delete_clears p pos r k : tables p → rule_ok pos r → fw_root k →
  clears [(p, r)] k (iptables_delete_if_present p r k) ∧ fw_reserved (iptables_delete_if_present p r k) = fw_reserved k.
Proof.
  intros Hp Hr Hk. destruct (delete_rounds_spec 8 p pos r k Hp Hr Hk) as (Hroot & Hres & Hc). split; [|done]. split; [done|].
  intros q x. unfold iptables_delete_if_present. rewrite Hc. unfold one. destruct (bool_decide_reflect ((q, x) = (p, r))) as [E|E].
  - rewrite E, bool_decide_eq_true_2 by (by left). lia.
  - rewrite bool_decide_eq_false_2 by (by rewrite list_elem_of_singleton). lia.
Qed.

Lemma teardown_spec orig prefix g k : fw_root k → fw_canonical orig → plain (gh_internet_iface g) → saved orig (gh_reserved_ports_backup g) k →
  let k' := (teardown_masquerade (Ipv4Prefix_to_cidr_string prefix) g k).1 in
  clears (v4_rules (Ipv4Prefix_to_cidr_string prefix) (gh_internet_iface g)) k k' ∧ fw_reserved k' = orig.
Proof.
  intros Hk Ho Hi Hs. unfold teardown_masquerade. set (cidr := Ipv4Prefix_to_cidr_string prefix). set (i := gh_internet_iface g) in *.
  assert (Hp : tables (str "iptables")) by (by left). pose proof (cidr_plain prefix) as Hc. fold cidr in Hc.
  destruct (delete_clears (str "iptables") 0 (input_drop_args (str "tcp") i) k Hp) as [C1 R1]; [apply drop_rule_ok; [by apply (bool_decide_unpack _); vm_compute|done]|done|].
  set (k1 := iptables_delete_if_present _ _ k) in *. clearbody k1.
  destruct (delete_clears (str "iptables") 0 (input_drop_args (str "udp") i) k1 Hp) as [C2 R2]; [apply drop_rule_ok; [by apply (bool_decide_unpack _); vm_compute|done]|apply C1|].
  set (k2 := iptables_delete_if_present _ _ k1) in *. clearbody k2.
  destruct (delete_clears (str "iptables") 2 (masquerade_args cidr i) k2 Hp) as [C3 R3]; [by apply masquerade_rule_ok|apply C2|].
  set (k3 := iptables_delete_if_present _ _ k2) in *. clearbody k3.
  destruct (delete_clears (str "iptables") 0 (forward_args cidr) k3 Hp) as [C4 R4]; [by apply forward_rule_ok|apply C3|].
  set (k4 := iptables_delete_if_present _ _ k3) in *. clearbody k4.
  pose proof (restore_spec orig g k4 (proj1 C4) Ho) as Hr. destruct (restore_nat_ports_from_kernel g k4) as [k5 g5]. cbn [fst].
  destruct Hr as (Hk5 & Hc5 & Hres); [eapply saved_calm; [|exact Hs]; congruence|]. split; [|done].
  pose proof (clears_trans _ _ _ _ _ (clears_trans _ _ _ _ _ (clears_trans _ _ _ _ _ C1 C2) C3) C4) as [_ C]. split; [done|]. intros q x.
  specialize (C q x). rewrite Hc5. rewrite (bool_decide_ext _ ((q, x) ∈ (([(str "iptables", input_drop_args (str "tcp") i)] ++ [(str "iptables", input_drop_args (str "udp") i)]) ++
    [(str "iptables", masquerade_args cidr i)]) ++ [(str "iptables", forward_args cidr)])); [done|]. unfold v4_rules. cbn [fmap list_fmap app].
  rewrite !elem_of_cons. tauto.
Qed.
Lemma teardown_v6_spec iface k : fw_root k → plain iface →
  clears (v6_rules iface) k (teardown_masquerade_v6 iface k) ∧ fw_reserved (teardown_masquerade_v6 iface k) = fw_reserved k.
Proof.
  intros Hk Hi. unfold teardown_masquerade_v6. assert (Hp : tables (str "ip6tables")) by (by right).
  destruct (delete_clears (str "ip6tables") 0 (input_drop_args (str "tcp") iface) k Hp) as [C1 R1]; [apply drop_rule_ok; [by apply (bool_decide_unpack _); vm_compute|done]|done|].
  destruct (delete_clears (str "ip6tables") 0 (input_drop_args (str "udp") iface) _ Hp ltac:(apply drop_rule_ok; [by apply (bool_decide_unpack _); vm_compute|done]) (proj1 C1)) as [C2 R2].
  split; [|congruence]. exact (clears_trans _ _ _ _ _ C1 C2).
Qed.
Lemma stop_spec prefix orig gr k : fw_root k → fw_canonical orig → plain_host gr → saved orig (gr_v4 gr ≫= gh_reserved_ports_backup) k →
  clears (owned prefix gr) k (gateway_stop true prefix gr k) ∧ fw_reserved (gateway_stop true prefix gr k) = orig.
Proof.
  intros Hk Ho [Hp4 Hp6] Hs. unfold gateway_stop, owned.
  set (k1 := match gr_v4 gr with Some g => _ | None => k end). set (R := match gr_v4 gr with Some _ => _ | None => [] end).
  assert (C1 : clears R k k1 ∧ fw_reserved k1 = orig).
  { subst R k1. destruct (gr_v4 gr) as [g|]; [by apply teardown_spec; [| |apply Hp4|]|]. split; [by apply clears_nil|done]. }
  clearbody R k1. destruct C1 as [C1 R1]. destruct (gr_v6 gr) as [iface|]; [|by rewrite app_nil_r].
  destruct (teardown_v6_spec iface k1 (proj1 C1) (Hp6 iface eq_refl)) as [C2 R2]. split; [by eapply clears_trans|congruence].
Qed.
End Rules.

(** The IPv6 engine may be built at any time while the daemon runs. *)
Fixpoint lates `{CommandOs K} (n : nat) (configured : option (list Z)) (gr : GatewayRules) (k : K) : K * GatewayRules :=
  match n with
  | O => (k, gr)
  | S n => let '(k, gr) := late_ipv6 configured gr k in lates n configured gr k
  end.

Section Theorems.
Context `{Hcmd : CommandOs K} `{Hfw : FirewallOs K} {Hlaw : LawfulFirewall} {Hrev : RevocableFirewall}.

Lemma lates_keep n c gr k iface : gr_v6 gr = Some iface → lates n c gr k = (k, gr).
Proof. intros Hv. induction n as [|n IH]; [done|]. cbn [lates]. unfold late_ipv6. by rewrite Hv. Qed.
Lemma lates_none n gr k : lates n None gr k = (k, gr).
Proof. induction n as [|n IH]; [done|]. cbn [lates]. unfold late_ipv6. by destruct (gr_v6 gr). Qed.
Lemma late_v4 c gr k : gr_v4 (late_ipv6 c gr k).2 = gr_v4 gr.
Proof. unfold late_ipv6. destruct (gr_v6 gr), c; try done. case_all; done. Qed.
Lemma lates_v4 n c gr k : gr_v4 (lates n c gr k).2 = gr_v4 gr.
Proof. revert gr k. induction n as [|n IH]; intros gr k; [done|]. cbn [lates]. pose proof (late_v4 c gr k) as Hl. destruct (late_ipv6 c gr k) as [k' gr']. by rewrite IH. Qed.
Lemma lates_running prefix k0 n c gr k : (∀ iface, gr_v6 (lates n c gr k).2 = Some iface → plain iface) →
  running prefix k0 gr k → running prefix k0 (lates n c gr k).2 (lates n c gr k).1.
Proof.
  revert gr k. induction n as [|n IH]; intros gr k Hp Hrun; [done|]. cbn [lates] in *. pose proof (late_running prefix k0 c gr k) as Hl.
  destruct (late_ipv6 c gr k) as [k' gr']. cbn [fst snd] in Hl. apply IH; [done|]. apply Hl; [|done].
  intros iface Hv. apply Hp. by rewrite (lates_keep _ _ _ _ iface).
Qed.
Lemma reserve_iface g k : gh_internet_iface (reserve_nat_ports_from_kernel g k).2 = gh_internet_iface g.
Proof.
  unfold reserve_nat_ports_from_kernel. destruct (gh_reserved_ports_backup g); [done|]. cbv zeta. destruct (bool_decide (_ = default _ _)); [done|].
  by destruct (run_cmd _ _ k) as [k' []].
Qed.
Lemma start_iface g sleep prefix i link k k' gr h : gateway_start g sleep prefix i link k = (k', Some gr) → gr_v4 gr = Some h → gh_internet_iface h = i.
Proof.
  unfold gateway_start. destruct (gateway_external_ip g i k) as [k1 ip4], (gateway_external_ipv6 g sleep i k1) as [k2 ip6].
  destruct g, ip4; cbn [andb]; [|by destruct ip6; try (destruct (negb link); [done|]); intros [= <- <-]..].
  assert (gh_internet_iface (setup_masquerade (Ipv4Prefix_to_cidr_string prefix) (MkGatewayHost i None) k2).1.2 = i).
  { unfold setup_masquerade. set (k3 := quietly _ k2). pose proof (reserve_iface (MkGatewayHost i None) k3) as Hr.
    destruct (reserve_nat_ports_from_kernel _ k3) as [k4 g4]. by destruct (host_bind _ _ k4). }
  destruct (setup_masquerade _ _ k2) as [[k3 g3] r]. destruct ip6; (destruct (negb link); [done|]); intros [= <- <-]; by intros [= <-].
Qed.


(** when the set-up of a gateway succeeds, each of its rules is there, once if
    it was not there before, and as often as before if it was; all other rules
    are as they were. *)
Theorem gateway_rules_installed cidr g (k k' : K) g' :
  fw_root k → plain cidr → plain (gh_internet_iface g) → gh_reserved_ports_backup g = None →
  setup_masquerade cidr g k = (k', g', Ok ()) →
  ∀ p x, fw_count k' p x = if bool_decide ((p, x) ∈ v4_rules cidr (gh_internet_iface g)) then (1 `max` fw_count k p x)%nat else fw_count k p x.
Proof.
  intros Hk Hc Hi Hb Hset. pose proof (setup_masquerade_spec cidr g k Hk Hc Hi Hb) as Hspec. rewrite Hset in Hspec.
  destruct Hspec as ([_ Hg] & _ & _). intros p x. specialize (Hg p x).
  destruct (bool_decide_reflect ((p, x) ∈ v4_rules cidr (gh_internet_iface g))) as [Hin|]; [|lia].
  enough (0 < fw_count k' p x)%nat by lia. clear Hg. revert Hset. unfold setup_masquerade.
  assert (Hs1 : calm k (quietly (run_cmd (str "sysctl") [str "-w"; str "net.ipv4.ip_forward=1"]) k)).
  { apply sysctl_calm; [done|]. intros v E. by vm_compute in E. }
  set (k1 := quietly _ k) in *. clearbody k1. pose proof (reserve_spec g k1 (proj1 Hs1) Hb) as Hr.
  destruct (reserve_nat_ports_from_kernel g k1) as [k2 g2]. destruct Hr as (Hk2 & _ & Hi2 & _). rewrite Hi2.
  destruct (host_bind _ _ k2) as [k3 r] eqn:E. intros [= <- _ ->]. by apply (setup_rules_put cidr (gh_internet_iface g) Hc Hi k2 k3 Hk2 E).
Qed.
End Theorems.

(** a start that fails because the raw sockets cannot be opened leaves the host
    as a start that succeeds does: nothing of the rules is taken back. *)
Lemma failed_start_keeps_rules `{CommandOs K} sleep prefix nat_interface (k k' : K) gr :
  gateway_start true sleep prefix nat_interface true k = (k', Some gr) →
  gateway_start true sleep prefix nat_interface false k = (k', None).
Proof.
  unfold gateway_start. destruct (gateway_external_ip true nat_interface k) as [k1 ip4], (gateway_external_ipv6 true sleep nat_interface k1) as [k2 ip6].
  set (c := match ip4 with Some _ => _ | None => (k2, None) end). destruct c as [k3 v4]. by destruct ip6; intros [= <- _].
Qed.

(** ** A host to run on *)
Record FakeHost := MkFakeHost { fh_rules : list (list Z * Rule); fh_reserved : list Z; fh_ipv4 : list Z }.
Fixpoint find_op (args : Rule) : option (nat * list Z) :=
  match args with
  | [] => None
  | a :: args => if bool_decide (a ∈ [str "-A"; str "-C"; str "-D"]) then Some (O, a) else (λ p, (S p.1, p.2)) <$> find_op args
  end.
Fixpoint remove_first (x : list Z * Rule) (l : list (list Z * Rule)) : list (list Z * Rule) :=
  match l with [] => [] | y :: l => if bool_decide (y = x) then l else y :: remove_first x l end.
Definition fake_answer (ok : bool) : option CommandOutput := Some (MkCommandOutput ok [] []).
Definition fake_tables (k : FakeHost) (p : list Z) (args : Rule) : FakeHost * option CommandOutput :=
  match find_op args with
  | None => (k, fake_answer false)
  | Some (pos, op) =>
    let r := (p, <[pos := str "-A"]> args) in
    let set l := MkFakeHost l (fh_reserved k) (fh_ipv4 k) in
    if bool_decide (op = str "-A") then (set (fh_rules k ++ [r]), fake_answer true)
    else if bool_decide (op = str "-C") then (k, fake_answer (bool_decide (r ∈ fh_rules k)))
    else if bool_decide (r ∈ fh_rules k) then (set (remove_first r (fh_rules k)), fake_answer true) else (k, fake_answer false)
  end.
Definition fake_sysctl (k : FakeHost) (args : list (list Z)) : FakeHost * option CommandOutput :=
  match args with
  | [w; setting] =>
    match strip_prefix RESERVED_KEY setting with
    | Some v => if bool_decide (w ≠ str "-w") then (k, fake_answer false) else if bool_decide (trim v = v) then (MkFakeHost (fh_rules k) v (fh_ipv4 k), fake_answer true) else (k, fake_answer false)
    | None => (k, fake_answer true)
    end
  | _ => (k, fake_answer false)
  end.
#[export] Instance tables_dec p : Decision (tables p).
Proof. unfold tables. apply _. Defined.
#[export] Instance fake_host : CommandOs FakeHost := {
  run_command k cmd :=
    match cmd with
    | [] => (k, None)
    | p :: args =>
      if bool_decide (tables p) then fake_tables k p args
      else if bool_decide (p = str "sysctl") then fake_sysctl k args
      else (k, Some (MkCommandOutput true (fh_ipv4 k) []))
    end;
  read_to_string k _ := Some (fh_reserved k);
}.
#[export] Instance fake_firewall : FirewallOs FakeHost := {
  fw_count k p r := length (filter (λ x, x = (p, r)) (fh_rules k));
  fw_reserved := fh_reserved;
  fw_canonical v := trim v = v;
  fw_root k := trim (fh_reserved k) = fh_reserved k;
}.

Lemma find_op_at op pos r : rule_ok pos r → op ∈ [str "-A"; str "-C"; str "-D"] → find_op (<[pos := op]> r) = Some (pos, op).
Proof.
  intros (Hp & Hb & _) Hop. revert pos Hp Hb. induction r as [|a r IH]; intros pos Hp Hb; [done|].
  destruct pos as [|pos]; cbn [find_op]; [cbn; by rewrite bool_decide_eq_true_2|]. cbn in Hp, Hb. inversion_clear Hb as [|?? Ha Hb'].
  change (<[S pos := op]> (a :: r)) with (a :: <[pos := op]> r). cbn [find_op]. rewrite bool_decide_eq_false_2 by done. by rewrite IH.
Qed.
Lemma set_op_back op pos r : rule_ok pos r → <[pos := str "-A"]> (<[pos := op]> r) = r.
Proof. intros (Hp & _). rewrite list_insert_insert_eq. by apply list_insert_id. Qed.
Lemma count_remove x y l : (0 < length (filter (λ z, z = x) l))%nat →
  length (filter (λ z, z = y) (remove_first x l)) = (length (filter (λ z, z = y) l) - if bool_decide (y = x) then 1 else 0)%nat.
Proof.
  induction l as [|z l IH]; cbn [remove_first]; [cbn; lia|]. rewrite !filter_cons. destruct (bool_decide_reflect (z = x)) as [->|Hz].
  - intros _. destruct (decide (x = y)) as [->|]; cbn [length]; [rewrite bool_decide_eq_true_2 by done; lia|]. rewrite bool_decide_eq_false_2 by done. lia.
  - rewrite decide_False by done. intros Hx. rewrite filter_cons. destruct (decide (z = y)) as [->|]; cbn [length]; rewrite IH by done; [|done].
    rewrite bool_decide_eq_false_2 by done. lia.
Qed.
Lemma count_positive (x : list Z * Rule) l : (0 < length (filter (λ z, z = x) l))%nat ↔ x ∈ l.
Proof.
  split.
  - destruct (filter (λ z, z = x) l) as [|y l'] eqn:E; cbn; [lia|]. intros _. assert (Hy : y ∈ filter (λ z, z = x) l) by (rewrite E; by left).
    by apply list_elem_of_filter in Hy as [-> Hy].
  - intros Hx. destruct (filter (λ z, z = x) l) as [|y l'] eqn:E; cbn; [|lia]. assert (Hy : x ∈ filter (λ z, z = x) l) by (by apply list_elem_of_filter).
    rewrite E in Hy. by apply elem_of_nil in Hy.
Qed.

Lemma fake_check k p pos r op : tables p → rule_ok pos r → op ∈ [str "-A"; str "-C"; str "-D"] →
  run_command k (p :: set_op op pos r) =
  let set l := MkFakeHost l (fh_reserved k) (fh_ipv4 k) in
  if bool_decide (op = str "-A") then (set (fh_rules k ++ [(p, r)]), fake_answer true)
  else if bool_decide (op = str "-C") then (k, fake_answer (bool_decide ((p, r) ∈ fh_rules k)))
  else if bool_decide ((p, r) ∈ fh_rules k) then (set (remove_first (p, r) (fh_rules k)), fake_answer true) else (k, fake_answer false).
Proof.
  intros Hp Hr Hop. cbn [run_command fake_host]. rewrite bool_decide_eq_true_2 by done. unfold fake_tables, set_op.
  by rewrite (find_op_at op pos r Hr Hop), (set_op_back op pos r Hr).
Qed.
Lemma fake_write k v : run_command k [str "sysctl"; str "-w"; RESERVED_KEY ++ v] =
  if bool_decide (trim v = v) then (MkFakeHost (fh_rules k) v (fh_ipv4 k), fake_answer true) else (k, fake_answer false).
Proof.
  change (fake_sysctl k [str "-w"; RESERVED_KEY ++ v] = if bool_decide (trim v = v) then (MkFakeHost (fh_rules k) v (fh_ipv4 k), fake_answer true) else (k, fake_answer false)).
  unfold fake_sysctl. by rewrite strip_prefix_app, bool_decide_eq_false_2 by (by intros []).
Qed.
Lemma fake_tables_reserved k p args : fh_reserved (fake_tables k p args).1 = fh_reserved k.
Proof. unfold fake_tables. destruct (find_op args) as [[pos op]|]; [|done]. cbv zeta. destruct (bool_decide (op = str "-A")), (bool_decide (op = str "-C")); try done. by case_bool_decide. Qed.
Lemma fake_sysctl_keeps k args : fh_rules (fake_sysctl k args).1 = fh_rules k ∧
  (trim (fh_reserved k) = fh_reserved k → trim (fh_reserved (fake_sysctl k args).1) = fh_reserved (fake_sysctl k args).1).
Proof.
  unfold fake_sysctl. destruct args as [|w [|setting [|]]]; try done. destruct (strip_prefix RESERVED_KEY setting) as [v|]; [|done]. do 2 (case_bool_decide; [done|]). done.
Qed.

#[export] Instance fake_firewall_lawful : LawfulFirewall (K := FakeHost).
Proof.
  split; cbn [fw_root fw_count fw_reserved fw_canonical fake_firewall].
  - intros k [|p args] Hk; [done|]. cbn [run_command fake_host]. case_bool_decide; [by rewrite fake_tables_reserved|].
    case_bool_decide; [|done]. by apply fake_sysctl_keeps.
  - intros k p pos r _ Hp Hr. rewrite fake_check by (done || by right; left). change (bool_decide (str "-C" = str "-A")) with false.
    change (bool_decide (str "-C" = str "-C")) with true. cbv beta iota zeta. split; [|done]. cbn. by rewrite bool_decide_eq_true, count_positive.
  - intros k p pos r _ Hp Hr q x. assert (Hrun : run_command k (p :: r) = run_command k (p :: set_op (str "-A") pos r)).
    { unfold set_op. by rewrite list_insert_id by apply Hr. }
    rewrite Hrun, fake_check by (done || by left). change (bool_decide (str "-A" = str "-A")) with true. cbn [fst snd succeeded fake_answer co_success fh_rules].
    rewrite filter_app, length_app, filter_cons. unfold one. destruct (decide ((p, r) = (q, x))) as [E|E]; [rewrite E, bool_decide_eq_true_2 by done; done|].
    rewrite bool_decide_eq_false_2 by congruence. done.
  - intros k p pos r _ Hp Hr q x. rewrite fake_check by (done || by right; right; left). change (bool_decide (str "-D" = str "-A")) with false.
    change (bool_decide (str "-D" = str "-C")) with false. cbn [fst snd fh_rules]. destruct (decide (0 < fw_count k p r)%nat) as [Hpos|Hz].
    + rewrite bool_decide_eq_true_2 by (by apply count_positive). cbv beta iota zeta. cbn [fst snd succeeded fake_answer co_success fh_rules fw_count fake_firewall]. by rewrite count_remove.
    + rewrite bool_decide_eq_false_2 by (by rewrite <- count_positive). cbv beta iota zeta. cbn [fst snd succeeded fake_answer co_success]. lia.
  - intros k p args q x Hp. cbn [run_command fake_host]. rewrite bool_decide_eq_false_2 by done. case_bool_decide; [|done].
    by rewrite (proj1 (fake_sysctl_keeps k args)).
  - intros k Hk. cbn. by rewrite Hk.
  - intros k v _ Hv _. rewrite fake_write. by rewrite bool_decide_eq_true_2.
  - intros k v _. rewrite fake_write. by case_bool_decide.
  - intros k p args Hn. cbn [run_command fake_host]. case_bool_decide; [by rewrite fake_tables_reserved|]. case_bool_decide as Hs; [|done]. subst p.
    destruct Hn as [Hn|Hn]; [done|]. unfold fake_sysctl. destruct args as [|w [|setting [|]]]; try done.
    destruct (strip_prefix RESERVED_KEY setting) as [v|] eqn:E; [|done]. apply strip_prefix_Some in E. subst setting.
    destruct (bool_decide_reflect (w ≠ str "-w")) as [|Hw]; [done|]. destruct (decide (w = str "-w")) as [->|]; [|by destruct Hw]. by destruct (Hn v).
Qed.

#[export] Instance fake_firewall_revocable : RevocableFirewall (K := FakeHost).
Proof.
  split; cbn [fw_root fw_count fw_reserved fw_canonical fake_firewall].
  - intros k p pos r _ Hp Hr. rewrite fake_check by (done || by right; left). change (bool_decide (str "-C" = str "-A")) with false.
    change (bool_decide (str "-C" = str "-C")) with true. cbv beta iota zeta. split; [done|]. cbn. by rewrite bool_decide_eq_true, count_positive.
  - intros k p pos r _ Hp Hr Hpos. rewrite fake_check by (done || by right; right; left). change (bool_decide (str "-D" = str "-A")) with false.
    change (bool_decide (str "-D" = str "-C")) with false. cbv beta iota zeta. rewrite bool_decide_eq_true_2 by (by apply count_positive). done.
  - intros k v _ Hv. rewrite fake_write. by rewrite bool_decide_eq_true_2.
Qed.

Definition sample_host : FakeHost :=
  MkFakeHost [(str "iptables", [str "-A"; str "INPUT"; str "-j"; str "ACCEPT"]); (str "iptables", input_drop_args (str "tcp") (str "eth0"))] (str "8080")
    (str "2: eth0    inet 192.0.2.10/24 brd 192.0.2.255 scope global eth0").
Definition sample_prefix : Ipv4Prefix := {| v4_network := 0x0a4d0000; v4_prefix_len := 16 |}.

Lemma gateway_rules_installed_witness :
  let '(k', g', r) := setup_masquerade (str "10.77.0.0/16") (MkGatewayHost (str "eth0") None) sample_host in
  r = Ok () ∧ fw_count k' (str "iptables") (input_drop_args (str "tcp") (str "eth0")) = 1%nat ∧
  fw_count k' (str "iptables") (forward_args (str "10.77.0.0/16")) = 1%nat.
Proof.
  destruct (setup_masquerade (str "10.77.0.0/16") (MkGatewayHost (str "eth0") None) sample_host) as [[k' g'] r] eqn:E.
  assert (r = Ok ()) as -> by (by vm_compute in E; injection E as _ _ <-).
  assert (Hroot : fw_root sample_host) by (vm_compute; reflexivity).
  assert (Hp1 : plain (str "10.77.0.0/16")) by (by apply (bool_decide_unpack _); vm_compute).
  assert (Hp2 : plain (str "eth0")) by (by apply (bool_decide_unpack _); vm_compute).
  pose proof (gateway_rules_installed (str "10.77.0.0/16") (MkGatewayHost (str "eth0") None) sample_host k' g' Hroot Hp1 Hp2 eq_refl E) as Hr.
  split_and!; [done|rewrite Hr; by vm_compute|rewrite Hr; by vm_compute].
Defined.
