(* ===== verification/Json.v ===== *)
(** * JSON values

    [serde_json::Value], with the accessors the program uses on values of other
    programs.  Numbers are integers; an object has one value for a key. *)

From S2P Require Import Prelude.

Inductive Value :=
| Null
| VBool (b : bool)
| VNum (n : Z)
| VStr (s : list Z)
| VArr (l : list Value)
| VObj (fields : list (string * Value)).

Definition opt_value {A} (f : A → Value) (o : option A) : Value := match o with Some a => f a | None => Null end.


Fixpoint fields_get (k : string) (fields : list (string * Value)) : option Value :=
  match fields with
  | [] => None
  | (k', v) :: fields => if bool_decide (k = k') then Some v else fields_get k fields
  end.
Definition value_get (k : string) (v : Value) : option Value :=
  match v with VObj fields => fields_get k fields | _ => None end.
Definition as_str (v : Value) : option (list Z) := match v with VStr s => Some s | _ => None end.
Definition as_u64_value (v : Value) : option Z :=
  match v with VNum n => if bool_decide (u64_ok n) then Some n else None | _ => None end.
Definition as_array (v : Value) : option (list Value) := match v with VArr l => Some l | _ => None end.
