(* ===== verification/Toml.v ===== *)
(** * TOML and serde

    TOML values, the text of which is read and written by third-party code
    ([Toml]), and what [#[derive(Serialize, Deserialize)]] makes of a struct:
    a field that is missing takes its default, if it has one, and a key that no
    field has is ignored; an [Option] is missing when it is [None].  A struct is
    described once, as the list of its fields ([Fields]), which gives both
    directions and their round trip. *)

From S2P Require Import Prelude Core Text.

Inductive TomlValue :=
| TBool (b : bool)
| TInt (n : Z)
| TStr (s : list Z)
| TTable (fields : list (list Z * TomlValue))
| TArr (l : list TomlValue)
| TOther (text : list Z).
Class Toml := { toml_from_str : list Z → option TomlValue; toml_to_string : TomlValue → option (list Z) }.

(** A table has one entry for a key. *)
Fixpoint table_get (k : list Z) (t : list (list Z * TomlValue)) : option TomlValue :=
  match t with [] => None | (k', v) :: t => if bool_decide (k = k') then Some v else table_get k t end.
Fixpoint table_insert (k : list Z) (v : TomlValue) (t : list (list Z * TomlValue)) : list (list Z * TomlValue) :=
  match t with [] => [(k, v)] | (k', v') :: t => if bool_decide (k = k') then (k, v) :: t else (k', v') :: table_insert k v t end.

Lemma table_get_app k a b : table_get k (a ++ b) = match table_get k a with Some v => Some v | None => table_get k b end.
Proof. induction a as [|[k' v] a IH]; cbn; [done|]. by case_bool_decide. Qed.

(** ** Values up to the order of their tables

    A table of the crate is a map sorted by key, so the entries of a table
    that is written come back in another order: two values are the same when
    their tables agree key by key and their arrays element by element. *)
Inductive toml_eqv : TomlValue → TomlValue → Prop :=
| eqv_bool b : toml_eqv (TBool b) (TBool b)
| eqv_int n : toml_eqv (TInt n) (TInt n)
| eqv_str s : toml_eqv (TStr s) (TStr s)
| eqv_other s : toml_eqv (TOther s) (TOther s)
| eqv_table t t' : (∀ k, option_Forall2 toml_eqv (table_get k t) (table_get k t')) → toml_eqv (TTable t) (TTable t')
| eqv_arr l l' : Forall2 toml_eqv l l' → toml_eqv (TArr l) (TArr l').
#[global] Instance toml_equiv : Equiv TomlValue := toml_eqv.

Lemma eqv_text k t t' s : toml_eqv (TTable t) (TTable t') → table_get k t = Some (TStr s) → table_get k t' = Some (TStr s).
Proof.
  intros Ht Hs. inversion Ht as [| | | |? ? Hk|]; subst. specialize (Hk k). rewrite Hs in Hk. inversion Hk as [? ? Hv|]; subst.
  by inversion Hv.
Qed.

(** Induction with a hypothesis for what a table has under each key. *)
Section Induction.
Variable P : TomlValue → Prop.
Hypothesis Pbool : ∀ b, P (TBool b).
Hypothesis Pint : ∀ n, P (TInt n).
Hypothesis Pstr : ∀ s, P (TStr s).
Hypothesis Pother : ∀ s, P (TOther s).
Hypothesis Ptable : ∀ t, (∀ k v, table_get k t = Some v → P v) → P (TTable t).
Hypothesis Parr : ∀ l, Forall P l → P (TArr l).
Fixpoint toml_ind (v : TomlValue) : P v.
Proof.
  destruct v as [b|n|s|t|l|s].
  - apply Pbool.
  - apply Pint.
  - apply Pstr.
  - apply Ptable. induction t as [|[k' v] t IH]; intros k w; cbn; [discriminate|]. case_bool_decide; [|by apply IH].
    intros [= <-]. apply toml_ind.
  - apply Parr. induction l as [|v l IH]; constructor; [apply toml_ind|exact IH].
  - apply Pother.
Qed.
End Induction.

#[global] Instance toml_equiv_equivalence : Equivalence (≡@{TomlValue}).
Proof.
  split.
  - intros v. induction v as [| | | |t IH|l IH] using toml_ind; constructor.
    + intros k. destruct (table_get k t) eqn:E; constructor. by apply (IH k).
    + by apply Forall_Forall2_diag.
  - intros v. induction v as [| | | |t IH|l IH] using toml_ind; intros w Hw; inversion Hw as [| | | |? t' Ht|? l' Hl]; subst; constructor.
    + intros k. specialize (Ht k). specialize (IH k). inversion Ht; constructor. by apply IH.
    + clear Hw. induction Hl as [|a b l l' Hab Hl IHl]; constructor; apply Forall_cons in IH as [Ha IH]; [by apply Ha|by apply IHl].
  - intros v. induction v as [| | | |t IH|l IH] using toml_ind; intros w z Hw Hz; inversion Hw as [| | | |? t' Ht|? l' Hl]; subst;
      inversion Hz as [| | | |? t2 Ht2|? l2 Hl2]; subst; constructor.
    + intros k. specialize (Ht k). specialize (Ht2 k). specialize (IH k). destruct Ht as [a b Hab|]; inversion Ht2; subst; constructor.
      by apply (IH a eq_refl b).
    + clear Hw Hz. revert l2 Hl2. induction Hl as [|a b l l' Hab Hl IHl]; intros l2 Hl2; inversion Hl2; subst; constructor;
        apply Forall_cons in IH as [Ha IH]; [by apply (Ha b)|by apply IHl].
Qed.

(** A scalar is only the same as itself. *)
Lemma equiv_scalar (a : option TomlValue) v : match v with TTable _ | TArr _ => False | _ => True end → a ≡ Some v → a = Some v.
Proof. intros Hs Ha. inversion Ha as [x y Hv|]; subst. by destruct Hv. Qed.

(** What is written is read back, but for the order of the tables.  Nothing is
    said of when writing succeeds: a value the crate cannot read again, by its
    limit on nesting for one, is taken for one it does not write. *)
Class LawfulToml `{!Toml} : Prop :=
  toml_roundtrip : ∀ v s, toml_to_string v = Some s → ∃ v', toml_from_str s = Some v' ∧ v ≡ v'.

(** ** Values *)
Record Codec (A : Type) := MkCodec { cser : A → option TomlValue; cde : TomlValue → option A }.
Arguments cser {A} _ _.
Arguments cde {A} _ _.
(** What is serialized is read back, in whichever order its tables come. *)
Definition codec_ok {A} (c : Codec A) : Prop := ∀ a v v', cser c a = Some v → v ≡ v' → cde c v' = Some a.

Definition bool_codec : Codec bool := MkCodec _ (λ b, Some (TBool b)) (λ v, match v with TBool b => Some b | _ => None end).
Definition text_codec : Codec (list Z) := MkCodec _ (λ s, Some (TStr s)) (λ v, match v with TStr s => Some s | _ => None end).
(** TOML has 64-bit signed integers: a larger [u64] cannot be written. *)
Definition int_codec (w : Z) : Codec Z :=
  MkCodec _ (λ n, if (0 <=? n) && (n <? 2 ^ Z.min w 63) then Some (TInt n) else None)
    (λ v, match v with TInt n => if (0 <=? n) && (n <? 2 ^ Z.min w 63) then Some n else None | _ => None end).
Definition list_codec {A} (c : Codec A) : Codec (list A) :=
  MkCodec _ (λ l, TArr <$> mapM (cser c) l) (λ v, match v with TArr l => mapM (cde c) l | _ => None end).
(** A value through another type: a unit-only enum as its name, a newtype. *)
Definition map_codec {A B} (c : Codec A) (f : B → A) (g : A → option B) : Codec B :=
  MkCodec _ (λ b, cser c (f b)) (λ v, cde c v ≫= g).

Lemma bool_codec_ok : codec_ok bool_codec.
Proof. intros a v v' [= <-] Hv. by inversion Hv. Qed.
Lemma text_codec_ok : codec_ok text_codec.
Proof. intros a v v' [= <-] Hv. by inversion Hv. Qed.
Lemma int_codec_ok w : codec_ok (int_codec w).
Proof. intros n v v'. cbn. destruct (_ && _) eqn:E; [|done]. intros [= <-] Hv. inversion Hv. by rewrite E. Qed.
Lemma list_codec_ok {A} (c : Codec A) : codec_ok c → codec_ok (list_codec c).
Proof.
  intros Hc l v v'. cbn. intros (vs & Hm & ->)%fmap_Some Hv. inversion Hv as [| | | | |? vs' Hvs]; subst. clear Hv.
  revert vs vs' Hm Hvs. induction l as [|a l IH]; intros vs vs'.
  - intros [= <-] Hvs. by inversion Hvs.
  - cbn. intros (w & Hw & Hm)%bind_Some Hvs. apply bind_Some in Hm as (ws & Hws & [= <-]). inversion Hvs; subst. cbn.
    by erewrite (Hc a w), (IH ws).
Qed.
Lemma map_codec_ok {A B} (c : Codec A) (f : B → A) g : codec_ok c → (∀ b, g (f b) = Some b) → codec_ok (map_codec c f g).
Proof. intros Hc Hg b v v' Hv He. cbn in *. rewrite (Hc _ _ _ Hv He). apply Hg. Qed.

(** ** Structs *)
Record Fields (A : Type) := MkFields {
  fkeys : list (list Z);
  fser : A → option (list (list Z * TomlValue));
  fde : list (list Z * TomlValue) → option A;
}.
Arguments fkeys {A} _.
Arguments fser {A} _ _.
Arguments fde {A} _ _.

(** A table read back has what was written under the keys of the struct. *)
Record fields_ok {A} (F : Fields A) : Prop := {
  fo_keys a t k : fser F a = Some t → k ∉ fkeys F → table_get k t = None;
  fo_de a t t' : fser F a = Some t → (∀ k, k ∈ fkeys F → option_Forall2 toml_eqv (table_get k t) (table_get k t')) → fde F t' = Some a;
}.

Definition fnil : Fields unit := MkFields _ [] (λ _, Some []) (λ _, Some ()).
(** A field with its default, [None] if it is required. *)
Definition fcons {A B} (key : list Z) (d : option A) (c : Codec A) (F : Fields B) : Fields (A * B) :=
  MkFields _ (key :: fkeys F)
    (λ p, v ← cser c p.1; t ← fser F p.2; Some ((key, v) :: t))
    (λ t, a ← match table_get key t with Some v => cde c v | None => d end; b ← fde F t; Some (a, b)).
(** A field of type [Option]. *)
Definition fopt {A B} (key : list Z) (c : Codec A) (F : Fields B) : Fields (option A * B) :=
  MkFields _ (key :: fkeys F)
    (λ p, t ← fser F p.2;
          match p.1 with Some a => v ← cser c a; Some ((key, v) :: t) | None => Some t end)
    (λ t, a ← match table_get key t with Some v => Some <$> cde c v | None => Some None end; b ← fde F t; Some (a, b)).
Definition fiso {A B} (f : B → A) (g : A → B) (F : Fields A) : Fields B :=
  MkFields _ (fkeys F) (λ b, fser F (f b)) (λ t, g <$> fde F t).
(** A struct as a value. *)
Definition table_codec {A} (F : Fields A) : Codec A :=
  MkCodec _ (λ a, TTable <$> fser F a) (λ v, match v with TTable t => fde F t | _ => None end).

Lemma fnil_ok : fields_ok fnil.
Proof. split; [by intros [] t k [= <-]|by intros [] t t' _ _]. Qed.

(** The entry of a field, and the entries of the others. *)
Lemma entry_eqv key v t t' keys : key ∉ keys →
  (∀ k, k ∈ key :: keys → option_Forall2 toml_eqv (table_get k ((key, v) :: t)) (table_get k t')) →
  (∃ v', table_get key t' = Some v' ∧ v ≡ v') ∧ ∀ k, k ∈ keys → option_Forall2 toml_eqv (table_get k t) (table_get k t').
Proof.
  intros Hni Hag. split.
  - specialize (Hag key ltac:(set_solver)). cbn in Hag. rewrite bool_decide_eq_true_2 in Hag by done.
    inversion Hag as [? v' Hv Hx Hy|]; subst. by exists v'.
  - intros k Hin. specialize (Hag k ltac:(set_solver)). cbn in Hag. rewrite bool_decide_eq_false_2 in Hag; [done|]. set_solver.
Qed.

Lemma fcons_ok {A B} key d (c : Codec A) (F : Fields B) : codec_ok c → fields_ok F → bool_decide (key ∈ fkeys F) = false →
  fields_ok (fcons key d c F).
Proof.
  intros Hc [Hk Hd] Hni%bool_decide_eq_false. split.
  - intros [a b] t k. cbn. intros (v & Hv & Ht)%bind_Some. apply bind_Some in Ht as (t0 & Ht0 & [= <-]). cbn.
    rewrite not_elem_of_cons. intros [Hne Hin]. rewrite bool_decide_eq_false_2 by done. by apply (Hk b).
  - intros [a b] t t'. cbn. intros (v & Hv & Ht)%bind_Some Hag. apply bind_Some in Ht as (t0 & Ht0 & [= <-]).
    apply entry_eqv in Hag as [(v' & -> & He) Hag]; [|done]. rewrite (Hc _ _ _ Hv He). cbn. by rewrite (Hd b t0 t').
Qed.

Lemma fopt_ok {A B} key (c : Codec A) (F : Fields B) : codec_ok c → fields_ok F → bool_decide (key ∈ fkeys F) = false →
  fields_ok (fopt key c F).
Proof.
  intros Hc [Hk Hd] Hni%bool_decide_eq_false. split.
  - intros [a b] t k. cbn. intros (t0 & Ht0 & Ht)%bind_Some. rewrite not_elem_of_cons. intros [Hne Hin].
    destruct a as [a|]; [apply bind_Some in Ht as (v & Hv & [= <-])|injection Ht as <-; by apply (Hk b)].
    cbn. rewrite bool_decide_eq_false_2 by done. by apply (Hk b).
  - intros [a b] t t'. cbn. intros (t0 & Ht0 & Ht)%bind_Some Hag.
    destruct a as [a|]; [apply bind_Some in Ht as (v & Hv & [= <-])|injection Ht as <-].
    + apply entry_eqv in Hag as [(v' & -> & He) Hag]; [|done]. rewrite (Hc _ _ _ Hv He). cbn. by rewrite (Hd b t0 t').
    + pose proof (Hag key ltac:(set_solver)) as Hkey. rewrite (Hk b t0 key Ht0 Hni) in Hkey. inversion Hkey as [|Hx Hy]. cbn.
      rewrite (Hd b t0 t'); [done|done|]. intros k Hin. apply Hag. set_solver.
Qed.

Lemma fiso_ok {A B} (f : B → A) (g : A → B) F : fields_ok F → (∀ b, g (f b) = b) → fields_ok (fiso f g F).
Proof.
  intros [Hk Hd] Hg. split; cbn.
  - intros b t k Ht. by apply Hk with (f b).
  - intros b t t' Ht Hag. rewrite (Hd (f b) t t' Ht Hag). cbn. by rewrite Hg.
Qed.
Lemma table_codec_ok {A} (F : Fields A) : fields_ok F → codec_ok (table_codec F).
Proof.
  intros [_ Hd] a v v'. cbn. intros (t & Ht & ->)%fmap_Some Hv. inversion Hv as [| | | |? t' Hag|]; subst. by apply (Hd a t t').
Qed.

(** What can be read serializes to a value. *)
Definition codec_total {A} (c : Codec A) : Prop := ∀ v a, cde c v = Some a → is_Some (cser c a).
Definition fields_total {A} (F : Fields A) : Prop := ∀ t a, fde F t = Some a → is_Some (fser F a).

Lemma bool_codec_total : codec_total bool_codec.
Proof. by intros v a _. Qed.
Lemma text_codec_total : codec_total text_codec.
Proof. by intros v a _. Qed.
Lemma int_codec_total w : codec_total (int_codec w).
Proof. intros v n. destruct v; cbn; try done. destruct (_ && _) eqn:E; [|done]. intros [= <-]. by rewrite E. Qed.
Lemma list_codec_total {A} (c : Codec A) : codec_total c → codec_total (list_codec c).
Proof.
  intros Hc [| | | |vs|] l; cbn; try done. intros Hm. apply fmap_is_Some. revert l Hm.
  induction vs as [|v vs IH]; intros l; [by intros [= <-]|]. cbn. intros (a & Ha & Hm)%bind_Some.
  apply bind_Some in Hm as (l' & Hl & [= <-]). cbn. destruct (Hc v a Ha) as [w ->]. cbn. by destruct (IH l' Hl) as [ws ->].
Qed.
Lemma map_codec_total {A B} (c : Codec A) (f : B → A) g : (∀ a, is_Some (cser c a)) → codec_total (map_codec c f g).
Proof. intros Hc v b _. apply Hc. Qed.
Lemma fnil_total : fields_total fnil.
Proof. by intros t a _. Qed.
Lemma fcons_total {A B} key d (c : Codec A) (F : Fields B) : codec_total c → fields_total F →
  match d with Some a => is_Some (cser c a) | None => True end → fields_total (fcons key d c F).
Proof.
  intros Hc HF Hd t [a b]. cbn. intros (a' & Ha & Hb)%bind_Some. apply bind_Some in Hb as (b' & Hb & [= -> ->]).
  destruct (HF t b Hb) as [tb ->]. assert (is_Some (cser c a)) as [v ->]; [|done].
  destruct (table_get key t) as [v|]; [by apply (Hc v)|]. by rewrite Ha in Hd.
Qed.
Lemma fopt_total {A B} key (c : Codec A) (F : Fields B) : codec_total c → fields_total F → fields_total (fopt key c F).
Proof.
  intros Hc HF t [a b]. cbn. intros (a' & Ha & Hb)%bind_Some. apply bind_Some in Hb as (b' & Hb & [= -> ->]).
  destruct (HF t b Hb) as [tb ->]. cbn. destruct a as [a|]; [|done]. destruct (table_get key t) as [v|]; [|done].
  apply fmap_Some in Ha as (a0 & Ha & [= ->]). by destruct (Hc v _ Ha) as [w ->].
Qed.
Lemma fiso_total {A B} (f : B → A) (g : A → B) F : fields_total F → (∀ a, f (g a) = a) → fields_total (fiso f g F).
Proof. intros HF Hf t b. cbn. intros (a & Ha & ->)%fmap_Some. rewrite Hf. by apply (HF t). Qed.
Lemma table_codec_total {A} (F : Fields A) : fields_total F → codec_total (table_codec F).
Proof. intros HF [] a; cbn; try done. intros Ha. apply fmap_is_Some. by apply (HF fields). Qed.

Create HintDb serde.
#[export] Hint Resolve bool_codec_total text_codec_total int_codec_total : serde.
#[export] Hint Resolve bool_codec_ok text_codec_ok int_codec_ok list_codec_ok map_codec_ok fnil_ok fcons_ok fopt_ok fiso_ok table_codec_ok : serde.

(** ** A library of documents

    A [Toml] for concrete examples: the text of a document is its number in a
    list of known ones, and its tables are read sorted by key. *)
Section Documents.
Fixpoint key_before (a b : list Z) : bool :=
  match a, b with
  | _, [] => false
  | [], _ => true
  | x :: a, y :: b => (x <? y) || ((x =? y) && key_before a b)
  end.
Fixpoint sorted_insert (k : list Z) (v : TomlValue) (t : list (list Z * TomlValue)) : list (list Z * TomlValue) :=
  match t with
  | [] => [(k, v)]
  | (k', v') :: t' =>
    if bool_decide (k = k') then (k, v) :: t' else if key_before k k' then (k, v) :: t else (k', v') :: sorted_insert k v t'
  end.
Fixpoint sorted (v : TomlValue) : TomlValue :=
  match v with
  | TTable t => TTable (foldr (λ '(k, v) t, sorted_insert k (sorted v) t) [] t)
  | TArr l => TArr (map sorted l)
  | v => v
  end.

Lemma table_get_sorted_insert k v t k' :
  table_get k' (sorted_insert k v t) = if bool_decide (k' = k) then Some v else table_get k' t.
Proof.
  induction t as [|[k1 v1] t IH]; cbn; [done|]. destruct (bool_decide (k = k1)) eqn:E; cbn.
  - apply bool_decide_eq_true in E as ->. by repeat case_bool_decide.
  - destruct (key_before k k1); cbn; [done|]. rewrite IH. repeat case_bool_decide; congruence.
Qed.
Lemma table_get_sorted k t : table_get k (foldr (λ '(k, v) t, sorted_insert k (sorted v) t) [] t) = sorted <$> table_get k t.
Proof. induction t as [|[k' v] t IH]; cbn; [done|]. rewrite table_get_sorted_insert. by case_bool_decide. Qed.
Lemma sorted_eqv v : v ≡ sorted v.
Proof.
  induction v as [| | | |t IH|l IH] using toml_ind; cbn; constructor.
  - intros k. rewrite table_get_sorted. destruct (table_get k t) eqn:E; constructor. by apply (IH k).
  - induction IH; constructor; done.
Qed.

Fixpoint same_value (a b : TomlValue) {struct a} : bool :=
  match a, b with
  | TBool x, TBool y => Bool.eqb x y
  | TInt x, TInt y => x =? y
  | TStr x, TStr y => bool_decide (x = y)
  | TTable x, TTable y =>
    (fix go (x y : list (list Z * TomlValue)) : bool :=
       match x, y with
       | [], [] => true
       | (k, v) :: x, (k', v') :: y => bool_decide (k = k') && same_value v v' && go x y
       | _, _ => false
       end) x y
  | TArr x, TArr y =>
    (fix go (x y : list TomlValue) : bool :=
       match x, y with [], [] => true | v :: x, v' :: y => same_value v v' && go x y | _, _ => false end) x y
  | TOther x, TOther y => bool_decide (x = y)
  | _, _ => false
  end.

Fixpoint same_value_eq (a : TomlValue) : ∀ b, same_value a b = true → a = b.
Proof.
  destruct a as [x|x|x|x|x|x]; intros [y|y|y|y|y|y]; cbn; try done.
  - by intros ->%Bool.eqb_prop.
  - by intros ->%Z.eqb_eq.
  - by intros ->%bool_decide_eq_true.
  - revert y. induction x as [|[k v] x IH]; intros [|[k' v'] y]; cbn; try done.
    intros [[->%bool_decide_eq_true Hv]%andb_true_iff Hx]%andb_true_iff. apply same_value_eq in Hv as ->.
    specialize (IH y Hx). by injection IH as ->.
  - revert y. induction x as [|v x IH]; intros [|v' y]; cbn; try done.
    intros [Hv Hx]%andb_true_iff. apply same_value_eq in Hv as ->. specialize (IH y Hx). by injection IH as ->.
  - by intros ->%bool_decide_eq_true.
Qed.

Fixpoint doc_number (docs : list TomlValue) (v : TomlValue) : option nat :=
  match docs with
  | [] => None
  | d :: docs => if same_value (sorted d) (sorted v) then Some O else S <$> doc_number docs v
  end.
Lemma doc_number_lookup docs v n : doc_number docs v = Some n → sorted <$> docs !! n = Some (sorted v).
Proof.
  revert n. induction docs as [|d docs IH]; intros n; cbn; [done|]. destruct (same_value (sorted d) (sorted v)) eqn:E.
  - intros [= <-]. cbn. by apply same_value_eq in E as ->.
  - intros (m & Hm & ->)%fmap_Some. by apply IH.
Qed.

Definition documents (docs : list TomlValue) : Toml := {|
  toml_from_str s := match s with [n] => sorted <$> docs !! Z.to_nat n | _ => None end;
  toml_to_string v := (λ n, [Z.of_nat n]) <$> doc_number docs v;
|}.
Lemma documents_lawful docs : @LawfulToml (documents docs).
Proof.
  intros v s. cbn. intros (n & Hn & ->)%fmap_Some. rewrite Nat2Z.id. exists (sorted v).
  split; [by apply doc_number_lookup|apply sorted_eqv].
Qed.
End Documents.
