(* ===== verification/Config.v ===== *)
(** * Configuration (crates/pim-core/src/config)

    The structs of pim.toml, the defaults of their fields and of whole
    sections, and how they are read and written ([Toml] has what serde makes of
    a struct).  Paths and names are text.  The defaults are those of Linux. *)

From S2P Require Import Prelude Core MeshAddress Frames Control Stream Fragment Routing Session DataPlane SendBuffer Trust.
From S2P Require Import Text Toml.

(** ** Defaults *)
Definition default_data_dir : list Z := str "~/.pim".
Definition default_interface_name : list Z := str "pim0".
Definition default_mtu : Z := 1400.
Definition default_discovery_enabled : bool := true.
Definition default_discovery_port : Z := 9101.
Definition default_broadcast_interval_ms : Z := 5000.
Definition default_peer_timeout_ms : Z := 30000.
Definition default_connect_relays : bool := true.
Definition default_connect_gateways : bool := true.
Definition default_transport_type : list Z := str "tcp".
Definition default_listen_port : Z := 9100.
Definition default_max_reconnect_attempts : Z := 20.
Definition default_connect_timeout_ms : Z := 3000.
Definition default_max_hops : Z := 10.
Definition default_route_algorithm : list Z := str "distance-vector".
Definition default_route_expiry_s : Z := 300.
Definition default_dns_servers : list (list Z) := [str "1.1.1.1"; str "1.0.0.1"; str "8.8.8.8"].
Definition default_nat_interface : list Z := str "eth0".
Definition default_max_connections : Z := 200.
Definition default_key_file : list Z := str "~/.pim/node.key".
Definition default_require_encryption : bool := true.
Definition default_trust_store_file : list Z := str "~/.pim/trusted-peers.toml".
Definition default_wfd_interface : list Z := str "wlan0".
Definition default_wfd_go_intent : Z := 7.
Definition default_wfd_listen_channel : Z := 6.
Definition default_wfd_op_channel : Z := 6.
Definition default_wfd_connect_method : list Z := str "pbc".
Definition default_bluetooth_interface : list Z := str "auto".
Definition default_bluetooth_radio_discovery_enabled : bool := true.
Definition default_bluetooth_device_name_prefix : list Z := str "PIM-".
Definition default_bluetooth_connect_pan : bool := true.
Definition default_bluetooth_nap_bridge : list Z := str "br-bt".
Definition default_bluetooth_nap_bridge_addr : list Z := str "192.168.44.1/24".
Definition default_bluetooth_dhcp_enabled : bool := true.
Definition default_bluetooth_dhcp_lease_time : list Z := str "12h".
Definition default_bluetooth_request_dhcp : bool := true.
Definition default_bluetooth_auto_discover_peers : bool := true.
Definition default_bluetooth_poll_interval_ms : Z := 2000.
Definition default_bluetooth_scan_interval_ms : Z := 5000.
Definition default_bluetooth_peer_discovery_interval_ms : Z := 2000.
Definition default_bluetoothctl_timeout_s : Z := 15.
Definition default_bluetooth_discoverable_timeout_s : Z := 180.
Definition default_bluetooth_startup_timeout_ms : Z := 15000.
Definition default_bluetooth_rfcomm_channel : Z := 22.
Definition default_bluetooth_rfcomm_outbound_enabled : bool := true.
Definition default_bluetooth_rfcomm_poll_interval_ms : Z := 30000.
Definition default_bluetooth_rfcomm_bridge_to_tcp : bool := true.
Definition default_bluetooth_rfcomm_discovery_enabled : bool := true.
Definition default_bluetooth_rfcomm_inquiry_interval_ms : Z := 60000.
Definition default_mesh_kdf_m_cost_kib : Z := 65536.
Definition default_mesh_kdf_t_cost : Z := 3.
Definition default_mesh_kdf_p_cost : Z := 1.
Definition default_broadcast_watch_incoming : bool := true.
Definition default_broadcast_min_peer_interval_s : Z := 60.

(** ** Peer clean-up: no field has a default of its own *)
Record PeerCleanupConfig := MkCleanup { pc_enabled : bool; max_unreachable_lifetime_s : Z; cleanup_interval_s : Z }.
Definition bluetooth_default : PeerCleanupConfig := MkCleanup true 7200 3600.
Definition mesh_identity_default : PeerCleanupConfig := MkCleanup true 7776000 86400.
Definition ephemeral_default : PeerCleanupConfig := MkCleanup true 604800 3600.

Notation bool_field key d := (fcons (str key) (Some d) bool_codec).
Notation text_field key d := (fcons (str key) (Some d) text_codec).
Notation int_field w key d := (fcons (str key) (Some d) (int_codec w)).

Definition PeerCleanupConfig_fields : Fields PeerCleanupConfig :=
  fiso (λ c, (pc_enabled c, (max_unreachable_lifetime_s c, (cleanup_interval_s c, ()))))
    (λ '(a, (b, (c, _))), MkCleanup a b c)
    (fcons (str "enabled") None bool_codec (fcons (str "max_unreachable_lifetime_s") None (int_codec 64)
      (fcons (str "cleanup_interval_s") None (int_codec 64) fnil))).
Notation cleanup_field d := (fcons (str "peer_cleanup") (Some d) (table_codec PeerCleanupConfig_fields)).

(** ** Sections *)
Record NodeConfig := MkNode { nc_name : list Z; nc_data_dir : list Z }.
Definition NodeConfig_fields : Fields NodeConfig :=
  fiso (λ c, (nc_name c, (nc_data_dir c, ()))) (λ '(a, (b, _)), MkNode a b)
    (fcons (str "name") None text_codec (text_field "data_dir" default_data_dir fnil)).

Record InterfaceConfig := MkInterface { ic_name : list Z; ic_mtu : Z; ic_mesh_ipv4_prefix : option (list Z); ic_mesh_ipv6_prefix : option (list Z) }.
Definition InterfaceConfig_default : InterfaceConfig := MkInterface default_interface_name default_mtu None None.
Definition InterfaceConfig_fields : Fields InterfaceConfig :=
  fiso (λ c, (ic_name c, (ic_mtu c, (ic_mesh_ipv4_prefix c, (ic_mesh_ipv6_prefix c, ())))))
    (λ '(a, (b, (c, (d, _)))), MkInterface a b c d)
    (text_field "name" default_interface_name (int_field 32 "mtu" default_mtu
      (fopt (str "mesh_ipv4_prefix") text_codec (fopt (str "mesh_ipv6_prefix") text_codec fnil)))).

Record DiscoveryConfig := MkDiscoveryConfig {
  dcf_enabled : bool; dcf_port : Z; dcf_broadcast_interval_ms : Z; dcf_peer_timeout_ms : Z; dcf_connect_relays : bool;
  dcf_connect_gateways : bool;
}.
Definition DiscoveryConfig_default : DiscoveryConfig :=
  MkDiscoveryConfig default_discovery_enabled default_discovery_port default_broadcast_interval_ms default_peer_timeout_ms
    default_connect_relays default_connect_gateways.
Definition DiscoveryConfig_fields : Fields DiscoveryConfig :=
  fiso (λ c, (dcf_enabled c, (dcf_port c, (dcf_broadcast_interval_ms c, (dcf_peer_timeout_ms c, (dcf_connect_relays c,
           (dcf_connect_gateways c, ())))))))
    (λ '(a, (b, (c, (d, (e, (f, _)))))), MkDiscoveryConfig a b c d e f)
    (bool_field "enabled" default_discovery_enabled (int_field 16 "port" default_discovery_port
      (int_field 64 "broadcast_interval_ms" default_broadcast_interval_ms (int_field 64 "peer_timeout_ms" default_peer_timeout_ms
        (bool_field "connect_relays" default_connect_relays (bool_field "connect_gateways" default_connect_gateways fnil)))))).

Inductive MeshMode := Open | Private.
Definition MeshMode_codec : Codec MeshMode :=
  map_codec text_codec (λ m, match m with Open => str "open" | Private => str "private" end)
    (λ s, if bool_decide (s = str "open") then Some Open else if bool_decide (s = str "private") then Some Private else None).

Record MeshKdfConfig := MkKdf { kdf_m_cost_kib : Z; kdf_t_cost : Z; kdf_p_cost : Z }.
Definition MeshKdfConfig_default : MeshKdfConfig := MkKdf default_mesh_kdf_m_cost_kib default_mesh_kdf_t_cost default_mesh_kdf_p_cost.
Definition MeshKdfConfig_fields : Fields MeshKdfConfig :=
  fiso (λ c, (kdf_m_cost_kib c, (kdf_t_cost c, (kdf_p_cost c, ())))) (λ '(a, (b, (c, _))), MkKdf a b c)
    (int_field 32 "m_cost_kib" default_mesh_kdf_m_cost_kib (int_field 32 "t_cost" default_mesh_kdf_t_cost
      (int_field 32 "p_cost" default_mesh_kdf_p_cost fnil))).

Record MeshConfig := MkMesh { mc_mode : MeshMode; mc_passphrase : option (list Z); mc_mesh_id : option (list Z); mc_kdf : MeshKdfConfig }.
Definition MeshConfig_default : MeshConfig := MkMesh Open None None MeshKdfConfig_default.
Definition MeshConfig_fields : Fields MeshConfig :=
  fiso (λ c, (mc_mode c, (mc_passphrase c, (mc_mesh_id c, (mc_kdf c, ()))))) (λ '(a, (b, (c, (d, _)))), MkMesh a b c d)
    (fcons (str "mode") (Some Open) MeshMode_codec (fopt (str "passphrase") text_codec (fopt (str "mesh_id") text_codec
      (fcons (str "kdf") (Some MeshKdfConfig_default) (table_codec MeshKdfConfig_fields) fnil)))).

Record RelayConfig := MkRelay { rc_enabled : bool }.
Definition RelayConfig_default : RelayConfig := MkRelay false.
Definition RelayConfig_fields : Fields RelayConfig := fiso (λ c, (rc_enabled c, ())) (λ '(a, _), MkRelay a) (bool_field "enabled" false fnil).

Record TransportConfig := MkTransport {
  tc_type : list Z; tc_listen_port : Z; tc_max_reconnect_attempts : Z; tc_connect_timeout_ms : Z; tc_peer_cleanup : PeerCleanupConfig;
}.
Definition TransportConfig_default : TransportConfig :=
  MkTransport default_transport_type default_listen_port default_max_reconnect_attempts default_connect_timeout_ms ephemeral_default.
Definition TransportConfig_fields : Fields TransportConfig :=
  fiso (λ c, (tc_type c, (tc_listen_port c, (tc_max_reconnect_attempts c, (tc_connect_timeout_ms c, (tc_peer_cleanup c, ()))))))
    (λ '(a, (b, (c, (d, (e, _))))), MkTransport a b c d e)
    (text_field "type" default_transport_type (int_field 16 "listen_port" default_listen_port
      (int_field 32 "max_reconnect_attempts" default_max_reconnect_attempts
        (int_field 64 "connect_timeout_ms" default_connect_timeout_ms (cleanup_field ephemeral_default fnil))))).

Record RoutingConfig := MkRouting { rg_max_hops : Z; rg_algorithm : list Z; rg_route_expiry_s : Z; rg_dns_servers : list (list Z) }.
Definition RoutingConfig_default : RoutingConfig :=
  MkRouting default_max_hops default_route_algorithm default_route_expiry_s default_dns_servers.
Definition RoutingConfig_fields : Fields RoutingConfig :=
  fiso (λ c, (rg_max_hops c, (rg_algorithm c, (rg_route_expiry_s c, (rg_dns_servers c, ())))))
    (λ '(a, (b, (c, (d, _)))), MkRouting a b c d)
    (int_field 8 "max_hops" default_max_hops (text_field "algorithm" default_route_algorithm
      (int_field 64 "route_expiry_s" default_route_expiry_s
        (fcons (str "dns_servers") (Some default_dns_servers) (list_codec text_codec) fnil)))).

Record GatewayConfig := MkGateway { gc_enabled : bool; gc_nat_interface : list Z; gc_max_connections : Z }.
Definition GatewayConfig_default : GatewayConfig := MkGateway false default_nat_interface default_max_connections.
Definition GatewayConfig_fields : Fields GatewayConfig :=
  fiso (λ c, (gc_enabled c, (gc_nat_interface c, (gc_max_connections c, ())))) (λ '(a, (b, (c, _))), MkGateway a b c)
    (bool_field "enabled" false (text_field "nat_interface" default_nat_interface (int_field 32 "max_connections" default_max_connections fnil))).

Definition AuthorizationPolicy_codec : Codec AuthorizationPolicy :=
  map_codec text_codec
    (λ p, match p with AllowAll => str "allow_all" | AllowList => str "allow_list" | TrustOnFirstUse => str "trust_on_first_use" end)
    (λ s, if bool_decide (s = str "allow_all") then Some AllowAll else if bool_decide (s = str "allow_list") then Some AllowList
          else if bool_decide (s = str "trust_on_first_use") then Some TrustOnFirstUse else None).

(** A [NodeId] is sixteen bytes: what is not cannot be written. *)
Definition NodeId_codec : Codec NodeId :=
  MkCodec _ (λ id, if bool_decide (node_id_wf id) then Some (TStr (to_hex id)) else None)
    (λ v, match v with TStr s => match NodeId_from_str s with Ok id => Some id | _ => None end | _ => None end).

Record SecurityConfig := MkSecurity {
  sc_key_file : list Z; sc_require_encryption : bool; sc_authorization_policy : AuthorizationPolicy; sc_authorized_peers : list NodeId;
  sc_trust_store_file : list Z;
}.
Definition SecurityConfig_default : SecurityConfig :=
  MkSecurity default_key_file default_require_encryption AllowAll [] default_trust_store_file.
Definition SecurityConfig_fields : Fields SecurityConfig :=
  fiso (λ c, (sc_key_file c, (sc_require_encryption c, (sc_authorization_policy c, (sc_authorized_peers c, (sc_trust_store_file c, ()))))))
    (λ '(a, (b, (c, (d, (e, _))))), MkSecurity a b c d e)
    (text_field "key_file" default_key_file (bool_field "require_encryption" default_require_encryption
      (fcons (str "authorization_policy") (Some AllowAll) AuthorizationPolicy_codec
        (fcons (str "authorized_peers") (Some []) (list_codec NodeId_codec) (text_field "trust_store_file" default_trust_store_file fnil))))).

Record WifiDirectConfig := MkWifiDirect {
  wd_enabled : bool; wd_interface : list Z; wd_go_intent : Z; wd_listen_channel : Z; wd_op_channel : Z; wd_connect_method : list Z;
  wd_peer_cleanup : PeerCleanupConfig;
}.
Definition WifiDirectConfig_default : WifiDirectConfig :=
  MkWifiDirect false default_wfd_interface default_wfd_go_intent default_wfd_listen_channel default_wfd_op_channel
    default_wfd_connect_method bluetooth_default.
Definition WifiDirectConfig_fields : Fields WifiDirectConfig :=
  fiso (λ c, (wd_enabled c, (wd_interface c, (wd_go_intent c, (wd_listen_channel c, (wd_op_channel c, (wd_connect_method c,
           (wd_peer_cleanup c, ()))))))))
    (λ '(a, (b, (c, (d, (e, (f, (g, _))))))), MkWifiDirect a b c d e f g)
    (bool_field "enabled" false (text_field "interface" default_wfd_interface (int_field 8 "go_intent" default_wfd_go_intent
      (int_field 8 "listen_channel" default_wfd_listen_channel (int_field 8 "op_channel" default_wfd_op_channel
        (text_field "connect_method" default_wfd_connect_method (cleanup_field bluetooth_default fnil))))))).

Record BluetoothConfig := MkBluetooth {
  bt_enabled : bool; bt_interface : list Z; bt_radio_discovery_enabled : bool; bt_device_name_prefix : list Z; bt_local_alias : list Z;
  bt_connect_pan : bool; bt_serve_nap : bool; bt_nap_bridge : list Z; bt_nap_bridge_addr : list Z; bt_dhcp_enabled : bool;
  bt_dhcp_range : option (list Z); bt_dhcp_lease_time : list Z; bt_dhcp_dns : option (list Z); bt_request_dhcp : bool;
  bt_auto_discover_peers : bool; bt_poll_interval_ms : Z; bt_scan_interval_ms : Z; bt_peer_discovery_interval_ms : Z;
  bt_bluetoothctl_timeout_s : Z; bt_discoverable_timeout_s : Z; bt_startup_timeout_ms : Z; bt_peer_cleanup : PeerCleanupConfig;
}.
Definition BluetoothConfig_default : BluetoothConfig :=
  MkBluetooth false default_bluetooth_interface default_bluetooth_radio_discovery_enabled default_bluetooth_device_name_prefix []
    default_bluetooth_connect_pan false default_bluetooth_nap_bridge default_bluetooth_nap_bridge_addr default_bluetooth_dhcp_enabled
    None default_bluetooth_dhcp_lease_time None default_bluetooth_request_dhcp default_bluetooth_auto_discover_peers
    default_bluetooth_poll_interval_ms default_bluetooth_scan_interval_ms default_bluetooth_peer_discovery_interval_ms
    default_bluetoothctl_timeout_s default_bluetooth_discoverable_timeout_s default_bluetooth_startup_timeout_ms bluetooth_default.
Definition BluetoothConfig_fields : Fields BluetoothConfig :=
  fiso (λ c, (bt_enabled c, (bt_interface c, (bt_radio_discovery_enabled c, (bt_device_name_prefix c, (bt_local_alias c,
         (bt_connect_pan c, (bt_serve_nap c, (bt_nap_bridge c, (bt_nap_bridge_addr c, (bt_dhcp_enabled c, (bt_dhcp_range c,
         (bt_dhcp_lease_time c, (bt_dhcp_dns c, (bt_request_dhcp c, (bt_auto_discover_peers c, (bt_poll_interval_ms c,
         (bt_scan_interval_ms c, (bt_peer_discovery_interval_ms c, (bt_bluetoothctl_timeout_s c, (bt_discoverable_timeout_s c,
         (bt_startup_timeout_ms c, (bt_peer_cleanup c, ())))))))))))))))))))))))
    (λ '(a, (b, (c, (d, (e, (f, (g, (h, (i, (j, (k, (l, (m, (n, (o, (p, (q, (r, (s, (t, (u, (v, _)))))))))))))))))))))),
       MkBluetooth a b c d e f g h i j k l m n o p q r s t u v)
    (bool_field "enabled" false (text_field "interface" default_bluetooth_interface
      (bool_field "radio_discovery_enabled" default_bluetooth_radio_discovery_enabled
      (text_field "device_name_prefix" default_bluetooth_device_name_prefix (text_field "local_alias" []
      (bool_field "connect_pan" default_bluetooth_connect_pan (bool_field "serve_nap" false
      (text_field "nap_bridge" default_bluetooth_nap_bridge (text_field "nap_bridge_addr" default_bluetooth_nap_bridge_addr
      (bool_field "dhcp_enabled" default_bluetooth_dhcp_enabled (fopt (str "dhcp_range") text_codec
      (text_field "dhcp_lease_time" default_bluetooth_dhcp_lease_time (fopt (str "dhcp_dns") text_codec
      (bool_field "request_dhcp" default_bluetooth_request_dhcp (bool_field "auto_discover_peers" default_bluetooth_auto_discover_peers
      (int_field 64 "poll_interval_ms" default_bluetooth_poll_interval_ms (int_field 64 "scan_interval_ms" default_bluetooth_scan_interval_ms
      (int_field 64 "peer_discovery_interval_ms" default_bluetooth_peer_discovery_interval_ms
      (int_field 64 "bluetoothctl_timeout_s" default_bluetoothctl_timeout_s
      (int_field 64 "discoverable_timeout_s" default_bluetooth_discoverable_timeout_s
      (int_field 64 "startup_timeout_ms" default_bluetooth_startup_timeout_ms (cleanup_field bluetooth_default fnil)))))))))))))))))))))).

Record BluetoothRfcommConfig := MkBtRfcomm {
  br_enabled : bool; br_channel : Z; br_device_name_prefix : list Z; br_outbound_enabled : bool; br_poll_interval_ms : Z;
  br_bridge_to_tcp : bool; br_discovery_enabled : bool; br_inquiry_interval_ms : Z; br_peer_cleanup : PeerCleanupConfig;
}.
Definition BluetoothRfcommConfig_default : BluetoothRfcommConfig :=
  MkBtRfcomm false default_bluetooth_rfcomm_channel default_bluetooth_device_name_prefix default_bluetooth_rfcomm_outbound_enabled
    default_bluetooth_rfcomm_poll_interval_ms default_bluetooth_rfcomm_bridge_to_tcp default_bluetooth_rfcomm_discovery_enabled
    default_bluetooth_rfcomm_inquiry_interval_ms bluetooth_default.
Definition BluetoothRfcommConfig_fields : Fields BluetoothRfcommConfig :=
  fiso (λ c, (br_enabled c, (br_channel c, (br_device_name_prefix c, (br_outbound_enabled c, (br_poll_interval_ms c, (br_bridge_to_tcp c,
         (br_discovery_enabled c, (br_inquiry_interval_ms c, (br_peer_cleanup c, ()))))))))))
    (λ '(a, (b, (c, (d, (e, (f, (g, (h, (i, _))))))))), MkBtRfcomm a b c d e f g h i)
    (bool_field "enabled" false (int_field 8 "channel" default_bluetooth_rfcomm_channel
      (text_field "device_name_prefix" default_bluetooth_device_name_prefix
      (bool_field "outbound_enabled" default_bluetooth_rfcomm_outbound_enabled
      (int_field 64 "poll_interval_ms" default_bluetooth_rfcomm_poll_interval_ms
      (bool_field "bridge_to_tcp" default_bluetooth_rfcomm_bridge_to_tcp
      (bool_field "discovery_enabled" default_bluetooth_rfcomm_discovery_enabled
      (int_field 64 "inquiry_interval_ms" default_bluetooth_rfcomm_inquiry_interval_ms (cleanup_field bluetooth_default fnil))))))))).

Record BroadcastConfig := MkBroadcast {
  outgoing_interval_s : option Z; watch_incoming : bool; min_peer_interval_s : Z; bc_peer_cleanup : PeerCleanupConfig;
}.
Definition MIN_OUTGOING_INTERVAL_S : Z := 30.
Definition BroadcastConfig_default : BroadcastConfig :=
  MkBroadcast None default_broadcast_watch_incoming default_broadcast_min_peer_interval_s ephemeral_default.
Definition BroadcastConfig_fields : Fields BroadcastConfig :=
  fiso (λ c, (outgoing_interval_s c, (watch_incoming c, (min_peer_interval_s c, (bc_peer_cleanup c, ())))))
    (λ '(a, (b, (c, (d, _)))), MkBroadcast a b c d)
    (fopt (str "outgoing_interval_s") (int_codec 64) (bool_field "watch_incoming" default_broadcast_watch_incoming
      (int_field 64 "min_peer_interval_s" default_broadcast_min_peer_interval_s (cleanup_field ephemeral_default fnil)))).

Record MessagingConfig := MkMessaging { mg_broadcast : BroadcastConfig; mg_peer_cleanup : PeerCleanupConfig }.
Definition MessagingConfig_default : MessagingConfig := MkMessaging BroadcastConfig_default mesh_identity_default.
Definition MessagingConfig_fields : Fields MessagingConfig :=
  fiso (λ c, (mg_broadcast c, (mg_peer_cleanup c, ()))) (λ '(a, (b, _)), MkMessaging a b)
    (fcons (str "broadcast") (Some BroadcastConfig_default) (table_codec BroadcastConfig_fields) (cleanup_field mesh_identity_default fnil)).

(** ** Static peers *)
Inductive PeerEndpointConfig := Tcp (address : list Z) | Bluetooth (ip : list Z).
Record PeerConfig := MkPeer { pr_label : list Z; pr_endpoint : PeerEndpointConfig }.
(** The endpoint is flattened into the table, its variant under "mechanism". *)
Definition PeerConfig_codec : Codec PeerConfig :=
  MkCodec _
    (λ p, Some (TTable ((str "label", TStr (pr_label p)) ::
       match pr_endpoint p with
       | Tcp address => [(str "mechanism", TStr (str "tcp")); (str "address", TStr address)]
       | Bluetooth ip => [(str "mechanism", TStr (str "bluetooth")); (str "ip", TStr ip)]
       end)))
    (λ v, t ← match v with TTable t => Some t | _ => None end;
       label ← match table_get (str "label") t with Some (TStr s) => Some s | Some _ => None | None => Some [] end;
       mechanism ← match table_get (str "mechanism") t with Some (TStr s) => Some s | _ => None end;
       let field k := match table_get (str k) t with Some (TStr s) => Some s | _ => None end in
       endpoint ← if bool_decide (mechanism = str "tcp") then Tcp <$> field "address"%string
                  else if bool_decide (mechanism = str "bluetooth") then Bluetooth <$> field "ip"%string else None;
       Some (MkPeer label endpoint)).

(** ** The file *)
Record Config := MkConfig {
  cf_node : NodeConfig; cf_interface : InterfaceConfig; cf_discovery : DiscoveryConfig; cf_mesh : MeshConfig;
  cf_transport : TransportConfig; cf_routing : RoutingConfig; cf_gateway : GatewayConfig; cf_relay : RelayConfig;
  cf_security : SecurityConfig; cf_wifi_direct : WifiDirectConfig; cf_bluetooth : BluetoothConfig;
  cf_bluetooth_rfcomm : BluetoothRfcommConfig; cf_messaging : MessagingConfig; cf_peers : list PeerConfig;
}.
Notation section_field key d F := (fcons (str key) (Some d) (table_codec F)).
Definition Config_fields : Fields Config :=
  fiso (λ c, (cf_node c, (cf_interface c, (cf_discovery c, (cf_mesh c, (cf_transport c, (cf_routing c, (cf_gateway c, (cf_relay c,
         (cf_security c, (cf_wifi_direct c, (cf_bluetooth c, (cf_bluetooth_rfcomm c, (cf_messaging c, (cf_peers c, ())))))))))))))))
    (λ '(a, (b, (c, (d, (e, (f, (g, (h, (i, (j, (k, (l, (m, (n, _)))))))))))))), MkConfig a b c d e f g h i j k l m n)
    (fcons (str "node") None (table_codec NodeConfig_fields)
      (section_field "interface" InterfaceConfig_default InterfaceConfig_fields
      (section_field "discovery" DiscoveryConfig_default DiscoveryConfig_fields
      (section_field "mesh" MeshConfig_default MeshConfig_fields
      (section_field "transport" TransportConfig_default TransportConfig_fields
      (section_field "routing" RoutingConfig_default RoutingConfig_fields
      (section_field "gateway" GatewayConfig_default GatewayConfig_fields
      (section_field "relay" RelayConfig_default RelayConfig_fields
      (section_field "security" SecurityConfig_default SecurityConfig_fields
      (section_field "wifi_direct" WifiDirectConfig_default WifiDirectConfig_fields
      (section_field "bluetooth" BluetoothConfig_default BluetoothConfig_fields
      (section_field "bluetooth_rfcomm" BluetoothRfcommConfig_default BluetoothRfcommConfig_fields
      (section_field "messaging" MessagingConfig_default MessagingConfig_fields
      (fcons (str "peers") (Some []) (list_codec PeerConfig_codec) fnil)))))))))))))).

Section File.
Context `{Toml}.
Definition from_toml_str (s : list Z) : option Config := v ← toml_from_str s; cde (table_codec Config_fields) v.
Definition to_toml_string (c : Config) : option (list Z) := v ← cser (table_codec Config_fields) c; toml_to_string v.
Definition Config_load (content : option (list Z)) : option Config := content ≫= from_toml_str.

(** The file with the broadcast section replaced (crates/pim-daemon/src/rpc.rs). *)
Definition set_broadcast (cfg : BroadcastConfig) (c : Config) : Config :=
  MkConfig (cf_node c) (cf_interface c) (cf_discovery c) (cf_mesh c) (cf_transport c) (cf_routing c) (cf_gateway c) (cf_relay c)
    (cf_security c) (cf_wifi_direct c) (cf_bluetooth c) (cf_bluetooth_rfcomm c)
    (MkMessaging cfg (mg_peer_cleanup (cf_messaging c))) (cf_peers c).
Definition splice_broadcast (cfg : BroadcastConfig) (content : list Z) : option (list Z) :=
  c ← from_toml_str content; to_toml_string (set_broadcast cfg c).
End File.

(** ** Every struct is read back as written *)
Ltac struct_ok :=
  repeat first [apply fiso_ok; [|by intros []] | apply fcons_ok; [| |by vm_compute] | apply fopt_ok; [| |by vm_compute] | apply fnil_ok
               | apply table_codec_ok | apply list_codec_ok | solve [eauto with serde]].

Lemma PeerCleanupConfig_ok : fields_ok PeerCleanupConfig_fields.
Proof. struct_ok. Qed.
Lemma MeshMode_codec_ok : codec_ok MeshMode_codec.
Proof. apply map_codec_ok; [apply text_codec_ok|]. by intros []. Qed.
Lemma AuthorizationPolicy_codec_ok : codec_ok AuthorizationPolicy_codec.
Proof. apply map_codec_ok; [apply text_codec_ok|]. by intros []. Qed.
Lemma NodeId_codec_ok : codec_ok NodeId_codec.
Proof.
  intros id v v'. cbn. case_bool_decide as Hwf; [|done]. intros [= <-] Hv. inversion Hv; subst.
  destruct Hwf as [Hl Hb]. unfold NodeId_from_str, to_hex. rewrite length_flat_map_hex, Hl. cbn. rewrite parse_hex_flat_map by done.
  by destruct id.
Qed.
Lemma PeerConfig_codec_ok : codec_ok PeerConfig_codec.
Proof.
  intros [l [a|i]] v v' [= <-] Hv; inversion Hv as [| | | |? t _|]; subst; cbn -[str].
  - rewrite (eqv_text (str "label") _ t l Hv), (eqv_text (str "mechanism") _ t (str "tcp") Hv), (eqv_text (str "address") _ t a Hv); done.
  - rewrite (eqv_text (str "label") _ t l Hv), (eqv_text (str "mechanism") _ t (str "bluetooth") Hv), (eqv_text (str "ip") _ t i Hv); done.
Qed.
#[export] Hint Resolve PeerCleanupConfig_ok MeshMode_codec_ok AuthorizationPolicy_codec_ok NodeId_codec_ok PeerConfig_codec_ok : serde.

Lemma sections_ok :
  fields_ok NodeConfig_fields ∧ fields_ok InterfaceConfig_fields ∧ fields_ok DiscoveryConfig_fields ∧ fields_ok MeshConfig_fields ∧
  fields_ok TransportConfig_fields ∧ fields_ok RoutingConfig_fields ∧ fields_ok GatewayConfig_fields ∧ fields_ok RelayConfig_fields ∧
  fields_ok SecurityConfig_fields ∧ fields_ok WifiDirectConfig_fields ∧ fields_ok BluetoothConfig_fields ∧
  fields_ok BluetoothRfcommConfig_fields ∧ fields_ok MessagingConfig_fields.
Proof. split_and!; struct_ok. Qed.

Lemma Config_ok : fields_ok Config_fields.
Proof.
  destruct sections_ok as (? & ? & ? & ? & ? & ? & ? & ? & ? & ? & ? & ? & ?). struct_ok.
Qed.

(** ** Whatever was read serializes *)
Ltac split_tuple :=
  intros; repeat match goal with x : (_ * _)%type |- _ => destruct x | x : unit |- _ => destruct x end; done.
Ltac struct_total :=
  repeat first [apply fiso_total; [|split_tuple] | apply fcons_total; [| |by vm_compute; eauto]
               | apply fopt_total | apply fnil_total | apply table_codec_total | apply list_codec_total
               | apply map_codec_total; by intros ? | solve [eauto with serde]].

Lemma PeerCleanupConfig_total : fields_total PeerCleanupConfig_fields.
Proof. struct_total. Qed.
Lemma NodeId_codec_total : codec_total NodeId_codec.
Proof.
  intros [] id; cbn; try done. destruct (NodeId_from_str s) as [i| |] eqn:E; try done. intros [= <-].
  rewrite bool_decide_eq_true_2; [done|]. by apply (node_id_from_str_sound s).
Qed.
Lemma PeerConfig_codec_total : codec_total PeerConfig_codec.
Proof. by intros v p _. Qed.
#[export] Hint Resolve PeerCleanupConfig_total NodeId_codec_total PeerConfig_codec_total : serde.

Lemma Config_total : fields_total Config_fields.
Proof. struct_total. Qed.

(** ** Theorems *)
Definition default_config (name : list Z) : Config :=
  MkConfig (MkNode name default_data_dir) InterfaceConfig_default DiscoveryConfig_default MeshConfig_default TransportConfig_default
    RoutingConfig_default GatewayConfig_default RelayConfig_default SecurityConfig_default WifiDirectConfig_default
    BluetoothConfig_default BluetoothRfcommConfig_default MessagingConfig_default [].
Definition section_names : list string :=
  ["interface"; "discovery"; "mesh"; "transport"; "routing"; "gateway"; "relay"; "security"; "wifi_direct"; "bluetooth";
   "bluetooth_rfcomm"; "messaging"]%string.

(** A section that is missing and one that is empty. *)
Lemma section_default {A B} key (d : A) F (G : Fields B) t : fde F [] = Some d →
  table_get key t = None ∨ table_get key t = Some (TTable []) →
  fde (fcons key (Some d) (table_codec F) G) t = (b ← fde G t; Some (d, b)).
Proof. intros HF [Hk|Hk]; cbn [fcons fde]; rewrite Hk; cbn [table_codec cde]; [done|]. by rewrite HF. Qed.

(** C34: the two ways a setting gets its default agree: a configuration that gives
    only the node's name is the same whichever of its sections are left out and
    whichever are there but empty. *)
Theorem defaults_agree name t :
  table_get (str "node") t = Some (TTable [(str "name", TStr name)]) → table_get (str "peers") t = None →
  (∀ s, s ∈ section_names → table_get (str s) t = None ∨ table_get (str s) t = Some (TTable [])) →
  cde (table_codec Config_fields) (TTable t) = Some (default_config name).
Proof.
  intros Hn Hp Hs. cbn [table_codec cde]. unfold Config_fields, fiso. cbn [fde].
  assert (∀ {A} (c : Codec A) d {B} (G : Fields B) a, table_get (str "node") t = Some (TTable [(str "name", TStr name)]) →
    cde c (TTable [(str "name", TStr name)]) = Some a → fde (fcons (str "node") d c G) t = (b ← fde G t; Some (a, b))) as Hnode.
  { intros A c d B G a H Hc. cbn [fcons fde]. rewrite H, Hc. done. }
  erewrite Hnode; [|done|by vm_compute].
  do 12 (rewrite section_default; [|by vm_compute|apply Hs; set_solver]).
  cbn [fcons fde]. rewrite Hp. done.
Qed.

Lemma defaults_agree_witness :
  let node := (str "node", TTable [(str "name", TStr (str "a"))]) in
  cde (table_codec Config_fields) (TTable [node]) = cde (table_codec Config_fields) (TTable [(str "gateway", TTable []); node; (str "mesh", TTable [])]).
Proof.
  intros node. rewrite (defaults_agree (str "a") [node]), (defaults_agree (str "a") [(str "gateway", TTable []); node; (str "mesh", TTable [])]);
    [done|done|done| |done|done|]; intros s Hs; repeat (apply elem_of_cons in Hs as [->|Hs]; [by vm_compute; eauto|]); by apply elem_of_nil in Hs.
Defined.

Section Theorems.
Context `{Toml} {LT : LawfulToml}.

Lemma written_config_read c s : to_toml_string c = Some s → from_toml_str s = Some c.
Proof.
  unfold to_toml_string, from_toml_str. intros (v & Hv & Hs)%bind_Some. destruct (toml_roundtrip v s Hs) as (v' & -> & He).
  cbn [mbind option_bind]. by apply (table_codec_ok _ Config_ok c v v').
Qed.

(** C33: a configuration that is written is read back as it was, in whichever
    order the tables of the file come, and one that was read serializes to a
    value that reads back as it was in any order of its tables, so that what
    it takes to write it is only that the crate prints that value: no setting
    is lost or changed on the way.  Nothing is said of when the crate can
    print a value. *)
Theorem config_roundtrip c s :
  (to_toml_string c = Some s → from_toml_str s = Some c) ∧
  (from_toml_str s = Some c → ∃ v, cser (table_codec Config_fields) c = Some v ∧ to_toml_string c = toml_to_string v ∧
    ∀ v', v ≡ v' → cde (table_codec Config_fields) v' = Some c).
Proof.
  split; [apply written_config_read|]. unfold to_toml_string, from_toml_str. intros (v & Hv & Hc)%bind_Some.
  destruct (table_codec_total _ Config_total v c Hc) as [w Hw]. exists w. rewrite Hw.
  split; [done|]. split; [done|]. intros v' Hv'. by apply (table_codec_ok _ Config_ok c w v').
Qed.

(** saving the broadcast settings changes these settings of the file and
    nothing else. *)
Theorem broadcast_persisted cfg content content' : splice_broadcast cfg content = Some content' →
  ∃ c, from_toml_str content = Some c ∧ from_toml_str content' = Some (set_broadcast cfg c).
Proof.
  unfold splice_broadcast. intros (c & Hc & Hs)%bind_Some. exists c. split; [done|].
  by apply written_config_read.
Qed.
End Theorems.

(** ** Concrete files *)
Definition sample_config : Config := default_config (str "a").
Definition sample_broadcast : BroadcastConfig := MkBroadcast (Some 300) true 60 ephemeral_default.
Definition sample_docs : list TomlValue :=
  omap (cser (table_codec Config_fields)) [sample_config; set_broadcast sample_broadcast sample_config].
#[local] Instance sample_files : Toml := documents sample_docs.

Lemma config_roundtrip_witness : from_toml_str [0] = Some sample_config.
Proof. by apply (proj1 (config_roundtrip (LT := documents_lawful sample_docs) sample_config [0])); vm_compute. Defined.

Lemma broadcast_persisted_witness :
  splice_broadcast sample_broadcast [0] = Some [1] ∧ ∃ c, from_toml_str [1] = Some (set_broadcast sample_broadcast c).
Proof.
  assert (splice_broadcast sample_broadcast [0] = Some [1]) as H by by vm_compute.
  split; [exact H|]. destruct (broadcast_persisted (LT := documents_lawful sample_docs) sample_broadcast [0] [1] H) as (c & _ & ?).
  by exists c.
Defined.
