(* ===== verification/Keys.v ===== *)
(** * Key material

    The node's key file (crates/pim-crypto/src/identity.rs), the secrets of a
    private mesh (crates/pim-crypto/src/mesh.rs) and where they are derived: at
    the start of the daemon (crates/pim-daemon/src/app.rs) and by [pim mesh
    status] (crates/pim-cli/src/commands/mesh.rs).  Ed25519, SHA-256, Argon2 and
    HKDF are parameters; random draws are arguments. *)

From S2P Require Import Prelude Core MeshAddress Frames Control Stream Fragment Routing Session DataPlane SendBuffer Trust Text Toml Config.

(** ** Identities *)
Section Identity.
Context (ed_public sha256 : list Z → list Z).

Record Identity := MkKeyIdentity { id_signing_key : list Z; id_verifying_key : list Z; id_node_id : NodeId }.
Definition from_signing_key (signing_key : list Z) : Identity :=
  MkKeyIdentity signing_key (ed_public signing_key) (from_public_key sha256 (ed_public signing_key)).

(** Errors of the file system; [Denied] is any other than those the code
    looks at. *)
Inductive KeyError := NotFound | AlreadyExists | InvalidData | Denied.

(** A key file is its bytes, [None] when there is none.  [ok] is whether the
    file system lets it be read. *)
Definition load (ok : bool) (file : option (list Z)) : outcome KeyError Identity :=
  if negb ok then Err Denied else
  match file with
  | None => Err NotFound
  | Some bytes => if bool_decide (length bytes = 32%nat) then Ok (from_signing_key bytes) else Err InvalidData
  end.

(** Opening and writing are two calls: another process may look at the file
    in between. *)
Definition open_key (overwrite ok : bool) (file : option (list Z)) : outcome KeyError unit * option (list Z) :=
  if negb ok then (Err Denied, file)
  else if overwrite then (Ok (), Some [])
  else match file with Some _ => (Err AlreadyExists, file) | None => (Ok (), Some []) end.
Definition write_key (identity : Identity) (ok : bool) (file : option (list Z)) : outcome KeyError unit * option (list Z) :=
  if ok then (Ok (), Some (id_signing_key identity)) else (Err Denied, file).
Definition save_internal (identity : Identity) (overwrite ok_open ok_write : bool) (file : option (list Z))
  : outcome KeyError unit * option (list Z) :=
  match open_key overwrite ok_open file with
  | (Ok _, file) => write_key identity ok_write file
  | (r, file) => (r, file)
  end.
Definition save (identity : Identity) (ok_open ok_write : bool) (file : option (list Z)) := save_internal identity true ok_open ok_write file.

(** [load_or_generate] of several processes: each is at the point it reached,
    and a step is one access to the file. *)
Inductive Startup :=
| Starting                             (* before the first load *)
| Generated (identity : Identity)      (* nothing found, identity drawn *)
| Opened (identity : Identity)         (* file created, not yet written *)
| Reloading                            (* someone else created it *)
| Finished (r : outcome KeyError Identity).

Definition startup_step (seed : list Z) (ok : bool) (file : option (list Z)) (s : Startup) : option (list Z) * Startup :=
  match s with
  | Starting =>
    match load ok file with
    | Err NotFound => (file, Generated (from_signing_key seed))
    | r => (file, Finished r)
    end
  | Generated identity =>
    match open_key false ok file with
    | (Ok _, file) => (file, Opened identity)
    | (Err AlreadyExists, file) => (file, Reloading)
    | (Err e, file) => (file, Finished (Err e))
    | (Panic, file) => (file, Finished Panic)
    end
  | Opened identity =>
    match write_key identity ok file with
    | (Ok _, file) => (file, Finished (Ok identity))
    | (Err e, file) => (file, Finished (Err e))
    | (Panic, file) => (file, Finished Panic)
    end
  | Reloading => (file, Finished (load ok file))
  | Finished r => (file, Finished r)
  end.

(** One process on its own. *)
Definition load_or_generate (seed : list Z) (ok : bool) (file : option (list Z)) : option (list Z) * Startup :=
  let step '(f, s) := startup_step seed ok f s in step (step (step (file, Starting))).

Record Startups := MkStartups { su_file : option (list Z); su_procs : gmap nat Startup }.
Inductive startups : Startups → Prop :=
| su_init file procs : map_Forall (λ _ s, s = Starting) procs → startups (MkStartups file procs)
| su_step w p s seed ok : startups w → su_procs w !! p = Some s → length seed = 32%nat →
    startups (MkStartups (startup_step seed ok (su_file w) s).1 (<[p := (startup_step seed ok (su_file w) s).2]> (su_procs w))).

(** ** Lemmas *)
Definition startup_ok (file : option (list Z)) (s : Startup) : Prop :=
  match s with
  | Starting => True
  | Generated i => ∃ seed, length seed = 32%nat ∧ i = from_signing_key seed
  | Opened i => file = Some [] ∧ ∃ seed, length seed = 32%nat ∧ i = from_signing_key seed
  | Reloading => file ≠ None
  | Finished (Ok i) => ∃ seed, file = Some seed ∧ length seed = 32%nat ∧ i = from_signing_key seed
  | Finished _ => True
  end.
Definition startups_ok (w : Startups) : Prop :=
  map_Forall (λ _ s, startup_ok (su_file w) s) (su_procs w) ∧
  (∀ p q i j, su_procs w !! p = Some (Opened i) → su_procs w !! q = Some (Opened j) → p = q).

(** A step leaves the file alone, creates it, or writes what it created. *)
Lemma step_file seed ok file s : startup_ok file s → length seed = 32%nat →
  let '(file', s') := startup_step seed ok file s in
  startup_ok file' s' ∧
  (file' = file ∨ (file = None ∧ file' = Some []) ∨ (∃ i, s = Opened i ∧ file' = Some (id_signing_key i))) ∧
  (∀ i, s' = Opened i → file = None).
Proof.
  intros Hs Hl. destruct s as [|i|i| |r]; cbn [startup_step].
  - unfold load. destruct ok; cbn; [|naive_solver]. destruct file as [b|]; [|naive_solver].
    case_bool_decide; cbn; naive_solver.
  - unfold open_key. destruct ok; cbn; [|naive_solver]. destruct file; cbn in *; naive_solver.
  - unfold write_key. destruct ok; cbn in *; [|naive_solver]. destruct Hs as [-> (sd & Hsd & ->)]. cbn. naive_solver.
  - unfold load. destruct ok; cbn; [|naive_solver]. destruct file as [b|]; [|naive_solver]. case_bool_decide; cbn; naive_solver.
  - naive_solver.
Qed.

Lemma startup_ok_create s : startup_ok None s → startup_ok (Some []) s.
Proof. destruct s as [| | | |[]]; cbn; naive_solver. Qed.
Lemma startup_ok_write s b : startup_ok (Some []) s → (∀ i, s ≠ Opened i) → startup_ok (Some b) s.
Proof. destruct s as [|i|i| |[i| |]]; cbn; try naive_solver. Qed.

Lemma startups_invariant w : startups w → startups_ok w.
Proof.
  induction 1 as [file procs Hp|w p s seed ok Hw IH Hs Hl].
  - split; cbn.
    + intros q s Hq. by rewrite (Hp q s Hq).
    + intros p q i j Hi. by specialize (Hp p _ Hi).
  - destruct IH as [Hok Hone]. pose proof (step_file seed ok (su_file w) s (Hok p s Hs) Hl) as Hst.
    destruct (startup_step seed ok (su_file w) s) as [file' s']. destruct Hst as (Hs' & Hf & Ho). cbn [fst snd]. split; cbn.
    + intros q s0. destruct (decide (p = q)) as [<-|Hne]; [rewrite lookup_insert_eq; by intros [= <-]|].
      rewrite lookup_insert_ne by done. intros Hq. pose proof (Hok q s0 Hq) as Hq'. cbn in Hq'.
      destruct Hf as [->|[[Hn ->]|(i & -> & ->)]]; [done|rewrite Hn in Hq'; by apply startup_ok_create|].
      apply startup_ok_write; [|intros j ->; by apply Hne, (Hone p q i j)].
      pose proof (proj1 (Hok p (Opened i) Hs)) as Hfile. cbn in Hfile. by rewrite Hfile in Hq'.
    + intros a b i j. rewrite !lookup_insert_Some. intros [[<- Ha]|[Hpa Ha]] [[<- Hb]|[Hpb Hb]]; try done.
      * specialize (Ho i Ha). destruct (Hok b _ Hb) as [Hbf _]. congruence.
      * specialize (Ho j Hb). destruct (Hok a _ Ha) as [Haf _]. congruence.
      * by apply (Hone a b i j).
Qed.

(** ** Theorems *)
(** C29: however many processes start at once, and in whatever order their
    accesses to the file fall, all that come up have the same identity, whose
    key is the one in the file, and a key that is in the file is never
    replaced. *)
Theorem identities_agree w : startups w →
  (∀ p q i j, su_procs w !! p = Some (Finished (Ok i)) → su_procs w !! q = Some (Finished (Ok j)) →
     i = j ∧ su_file w = Some (id_signing_key i) ∧ load true (su_file w) = Ok i) ∧
  (∀ p s seed ok b, su_procs w !! p = Some s → su_file w = Some b → length b = 32%nat → length seed = 32%nat →
     (startup_step seed ok (su_file w) s).1 = Some b).
Proof.
  intros [Hok Hone]%startups_invariant. split.
  - intros p q i j Hp Hq. destruct (Hok p _ Hp) as (sd & Hf & Hl & ->), (Hok q _ Hq) as (sd' & Hf' & Hl' & ->).
    assert (sd' = sd) as -> by congruence. cbn. split_and!; [done|done|].
    unfold load. rewrite Hf. cbn [negb]. by rewrite bool_decide_eq_true_2.
  - intros p s seed ok b Hp Hf Hb Hl. pose proof (step_file seed ok (su_file w) s (Hok p s Hp) Hl) as Hst.
    destruct (startup_step seed ok (su_file w) s) as [file' s']. destruct Hst as (_ & [->|[[Hn _]|(i & -> & _)]] & _); [done|congruence|].
    destruct (Hok p _ Hp) as [Hf' _]. rewrite Hf in Hf'. by injection Hf' as ->.
Qed.

(** a node keeps its identity: the first start draws and saves it, every later
    one loads it, and what was saved is loaded as it was. *)
Theorem identity_stable seed : length seed = 32%nat →
  load_or_generate seed true None = (Some seed, Finished (Ok (from_signing_key seed))) ∧
  (∀ seed', load_or_generate seed' true (Some seed) = (Some seed, Finished (Ok (from_signing_key seed)))) ∧
  (∀ file, save (from_signing_key seed) true true file = (Ok (), Some seed)) ∧ load true (Some seed) = Ok (from_signing_key seed).
Proof.
  intros Hl. assert (load true (Some seed) = Ok (from_signing_key seed)) as Hload.
  { unfold load. cbn [negb]. by rewrite bool_decide_eq_true_2. }
  split_and!; [done| |done|done]. intros seed'. unfold load_or_generate. cbn [startup_step]. by rewrite Hload.
Qed.

(** a process that dies between creating the key file and writing it leaves a
    file that no later start accepts or repairs. *)
Theorem half_created_key_refused seed seed' i :
  startup_step seed true None (Generated i) = (Some [], Opened i) ∧
  load_or_generate seed' true (Some []) = (Some [], Finished (Err InvalidData)).
Proof. done. Qed.
End Identity.

(** ** The secrets of a private mesh *)
Record MeshKdfParams := MkKdfParams { kp_m_cost_kib : Z; kp_t_cost : Z; kp_p_cost : Z }.
Definition MeshKdfParams_default : MeshKdfParams := MkKdfParams 65536 3 1.
Record MeshSecret := MkSecret { ms_discovery_key : list Z; ms_handshake_key : list Z; ms_fingerprint : list Z }.
Inductive MeshKdfError := EmptyPassphrase | InvalidParams | Argon2Failed | HkdfFailed.

(** [Params::new] may refuse the costs; [hash_password_into] takes passphrase
    and salt; [expand] takes the label and the length. *)
Class MeshKdf := {
  argon2_params : MeshKdfParams → bool;
  argon2_hash : MeshKdfParams → list Z → list Z → option (list Z);
  hkdf_expand_label : list Z → list Z → nat → option (list Z);
}.

Section MeshSecret.
Context `{MeshKdf}.

Definition derive (passphrase : list Z) (mesh_id : option (list Z)) (params : MeshKdfParams) : outcome MeshKdfError MeshSecret :=
  if bool_decide (passphrase = []) then Err EmptyPassphrase else
  let salt := str "pim-mesh-v1" ++ default [] mesh_id in
  if negb (argon2_params params) then Err InvalidParams else
  let? master := ok_or (argon2_hash params passphrase salt) Argon2Failed in
  let? discovery_key := ok_or (hkdf_expand_label master (str "pim-disco-v1") 32) HkdfFailed in
  let? handshake_key := ok_or (hkdf_expand_label master (str "pim-handshake-v1") 32) HkdfFailed in
  let? fingerprint := ok_or (hkdf_expand_label master (str "pim-fingerprint-v1") 8) HkdfFailed in
  Ok (MkSecret discovery_key handshake_key fingerprint).
Definition fingerprint_hex (s : MeshSecret) : list Z := hex (ms_fingerprint s).

Definition kdf_params (c : MeshKdfConfig) : MeshKdfParams := MkKdfParams (kdf_m_cost_kib c) (kdf_t_cost c) (kdf_p_cost c).
Definition non_empty (s : option (list Z)) : option (list Z) := s ≫= λ s, if bool_decide (s = []) then None else Some s.

Inductive MeshError := NoPassphrase | Kdf (e : MeshKdfError).
Definition as_mesh_error {A} (r : outcome MeshKdfError A) : outcome MeshError A :=
  match r with Ok a => Ok a | Err e => Err (Kdf e) | Panic => Panic end.

Definition build_mesh_secret (mesh : MeshConfig) : outcome MeshError (option MeshSecret) :=
  match mc_mode mesh with
  | Open => Ok None
  | Private =>
    let? passphrase := ok_or (non_empty (mc_passphrase mesh)) NoPassphrase in
    let? secret := as_mesh_error (derive passphrase (mc_mesh_id mesh) (kdf_params (mc_kdf mesh))) in
    Ok (Some secret)
  end.

Record MeshStatusReport := MkStatus { st_mode : MeshMode; st_mesh_id : option (list Z); st_fingerprint_hex : option (list Z) }.
Definition build_mesh_status_report (config : Config) : outcome MeshError MeshStatusReport :=
  let mesh := cf_mesh config in
  match mc_mode mesh with
  | Open => Ok (MkStatus Open (non_empty (mc_mesh_id mesh)) None)
  | Private =>
    let? passphrase := ok_or (non_empty (mc_passphrase mesh)) NoPassphrase in
    let? secret := as_mesh_error (derive passphrase (mc_mesh_id mesh) (kdf_params (mc_kdf mesh))) in
    Ok (MkStatus Private (mc_mesh_id mesh) (Some (fingerprint_hex secret)))
  end.

(** what [pim mesh status] prints is what the daemon runs with: it succeeds on
    exactly the configurations the daemon starts with, and shows the
    fingerprint of the daemon's secret, none on the open mesh. *)
Theorem mesh_status_agrees config :
  match build_mesh_status_report config, build_mesh_secret (cf_mesh config) with
  | Ok r, Ok s => st_fingerprint_hex r = fingerprint_hex <$> s ∧ (st_mode r = Private ↔ is_Some s)
  | Err e, Err e' => e = e'
  | Panic, Panic => True
  | _, _ => False
  end.
Proof.
  unfold build_mesh_status_report, build_mesh_secret. destruct (mc_mode (cf_mesh config)).
  - split; [done|]. split; [done|by intros [? ?]].
  - destruct (non_empty _) as [p|]; cbn [ok_or obind]; [|done]. destruct (derive p _ _); cbn; [|done..]. by split; [|split; [eauto|]].
Qed.
End MeshSecret.

(** ** Concrete runs *)
Definition sample_seed (n : Z) : list Z := replicate 32 n.
Definition toy_public (seed : list Z) : list Z := seed.

(** Two processes find no key; the second creates the file first. *)
Lemma identities_agree_witness :
  let w0 := MkStartups None {[0%nat := Starting; 1%nat := Starting]} in
  let step p seed w := match su_procs w !! p with
    | Some s => MkStartups (startup_step toy_public toy_public seed true (su_file w) s).1
                  (<[p := (startup_step toy_public toy_public seed true (su_file w) s).2]> (su_procs w))
    | None => w end in
  let w := step 0%nat (sample_seed 1) (step 1%nat (sample_seed 2) (step 0%nat (sample_seed 1) (step 1%nat (sample_seed 2)
             (step 1%nat (sample_seed 2) (step 0%nat (sample_seed 1) w0))))) in
  su_procs w !! 0%nat = su_procs w !! 1%nat ∧ su_file w = Some (sample_seed 2).
Proof.
  intros w0 step w.
  assert (∀ p seed w, length seed = 32%nat → startups toy_public toy_public w → startups toy_public toy_public (step p seed w)) as Hstep.
  { intros p seed w1 Hl Hw. unfold step. destruct (su_procs w1 !! p) eqn:E; [|done]. by apply su_step with (s := s). }
  assert (startups toy_public toy_public w) as Hw.
  { unfold w. do 6 (apply Hstep; [done|]). apply su_init. intros k s.
    rewrite lookup_insert_Some, lookup_singleton_Some. by intros [[_ <-]|[_ [_ <-]]]. }
  assert (su_procs w !! 0%nat = Some (Finished (Ok (from_signing_key toy_public toy_public (sample_seed 2)))) ∧
    su_procs w !! 1%nat = Some (Finished (Ok (from_signing_key toy_public toy_public (sample_seed 2))))) as [H0 H1] by by vm_compute.
  destruct (proj1 (identities_agree toy_public toy_public w Hw) _ _ _ _ H0 H1) as (_ & Hf & _). split; [congruence|done].
Defined.

Lemma identity_stable_witness :
  load_or_generate toy_public toy_public (sample_seed 1) true (Some (sample_seed 2))
    = (Some (sample_seed 2), Finished (Ok (from_signing_key toy_public toy_public (sample_seed 2)))).
Proof. by apply (identity_stable toy_public toy_public (sample_seed 2)). Defined.
