(* ===== verification/Rfcomm.v ===== *)
(** * Bluetooth RFCOMM (crates/pim-bluetooth/src/rfcomm)

    The frames of the greeting (frame.rs), the greeting itself and the check
    that both sides are of the same mesh (session.rs), the pipe to the daemon's
    own TCP listener (bridge.rs) and device addresses (mod.rs).  Sockets are
    what they return: a list of reads, an empty one being the end of the
    stream.  [serde_json] and HMAC are parameters. *)

From S2P Require Import Prelude Core Frames Stream SendBuffer Transport Text Json.

(** ** Frames *)
Definition MAX_FRAME_PAYLOAD : Z := 65536.
Inductive FrameError := TooLarge (size : Z) | EmptyFrame.

Definition encode_frame (payload : list Z) : outcome FrameError (list Z) :=
  if bool_decide (payload = []) then Err EmptyFrame
  else if MAX_FRAME_PAYLOAD <? Z.of_nat (length payload) then Err (TooLarge (Z.of_nat (length payload)))
  else Ok (be_bytes 4 (as_u32 (Z.of_nat (length payload))) ++ payload).

(** Each turn of the loop shortens the buffer, whose length bounds them. *)
Fixpoint decode_frames (fuel : nat) (buf : list Z) : outcome FrameError (list (list Z) * list Z) :=
  match fuel with
  | O => Ok ([], buf)
  | S fuel =>
    if bool_decide (length buf < 4)%nat then Ok ([], buf) else
    let n := be_value (take 4 buf) in
    if n =? 0 then Err EmptyFrame
    else if MAX_FRAME_PAYLOAD <? n then Err (TooLarge n)
    else if bool_decide (length buf < 4 + Z.to_nat n)%nat then Ok ([], buf) else
    let payload := take (Z.to_nat n) (drop 4 buf) in
    let? (out, buf) := decode_frames fuel (drop (4 + Z.to_nat n) buf) in
    Ok (payload :: out, buf)
  end.
Definition decode_frame (buf : list Z) : outcome FrameError (list (list Z) * list Z) := decode_frames (S (length buf)) buf.

(** ** Device addresses *)
Definition HEX_digit (n : Z) : Z := if n <? 10 then 48 + n else 55 + n.
Definition HEX_byte (b : Z) : list Z := [HEX_digit (Z.shiftr b 4); HEX_digit (Z.land b 15)].
Definition format_bdaddr (addr : list Z) : list Z :=
  match addr with
  | [a0; a1; a2; a3; a4; a5] =>
    HEX_byte a5 ++ [58] ++ HEX_byte a4 ++ [58] ++ HEX_byte a3 ++ [58] ++ HEX_byte a2 ++ [58] ++ HEX_byte a1 ++ [58] ++ HEX_byte a0
  | _ => []
  end.
Definition parse_bdaddr (s : list Z) : option (list Z) :=
  match split_on 58 s with
  | [p0; p1; p2; p3; p4; p5] =>
    b0 ← from_str_radix_u8 p0 16; b1 ← from_str_radix_u8 p1 16; b2 ← from_str_radix_u8 p2 16;
    b3 ← from_str_radix_u8 p3 16; b4 ← from_str_radix_u8 p4 16; b5 ← from_str_radix_u8 p5 16;
    Some [b5; b4; b3; b2; b1; b0]
  | _ => None
  end.

(** ** The greeting *)
Definition HELLO_VERSION : Z := 1.
Record LocalIdentity := MkLocal {
  li_node_id_hex : list Z;
  li_name : list Z;
  li_caps : list (list Z);
  li_mesh_handshake_key : option (list Z);
}.
Record HelloMsg := MkHello {
  hm_kind : list Z; hm_v : Z; hm_node_id : list Z; hm_name : list Z; hm_platform : list Z; hm_caps : list (list Z);
  hm_mesh_tag : option (list Z);
}.
(** [#[derive(Serialize)]]: what the text of a message is the text of. *)
Definition hello_value (m : HelloMsg) : Value :=
  VObj ([("type", VStr (hm_kind m)); ("v", VNum (hm_v m)); ("node_id", VStr (hm_node_id m)); ("name", VStr (hm_name m));
         ("platform", VStr (hm_platform m)); ("caps", VArr (map VStr (hm_caps m)))]%string
        ++ match hm_mesh_tag m with Some t => [("mesh_tag"%string, VStr t)] | None => [] end).

Class HelloJson := { to_vec : HelloMsg → list Z; from_slice : list Z → option Value }.
Class LawfulHelloJson `{HelloJson} : Prop := from_to_vec m : from_slice (to_vec m) = Some (hello_value m).

(** HMAC-SHA256 of a text under a key. *)
Class HelloMac := compute_rfcomm_hello_tag : list Z → list Z → list Z.

Inductive TagError := TagMismatch | TagMissing | TagPresent.
Inductive HelloError :=
| Eof | Frame (e : FrameError) | NotJson | MissingType | UnexpectedKind (kind : list Z) | VersionMismatch (v : Z)
| Tag (e : TagError) | BadNodeId | WriteFailed.

(** The loop over both slices; [diff] is a byte. *)
Fixpoint ct_diff (a b : list Z) (diff : Z) : Z :=
  match a, b with
  | x :: a, y :: b => ct_diff a b (Z.lor diff (Z.lxor x y))
  | _, _ => diff
  end.
Definition constant_time_eq (a b : list Z) : bool :=
  if negb (bool_decide (length a = length b)) then false else ct_diff a b 0 =? 0.

Definition hex_to_node_id (s : list Z) : option (list Z) :=
  if negb (bool_decide (length s = 32%nat)) then None else
  match parse_hex_chunks s with Ok bs => Some bs | _ => None end.

Record Discovered := MkDiscovered {
  dc_node_id : list Z; dc_name : list Z; dc_platform : list Z; dc_caps : list (list Z); dc_initiator : bool;
}.

Section Session.
Context `{HelloJson} `{HelloMac}.

Definition verify_peer_mesh_tag (local_mesh_key peer_mesh_tag_hex : option (list Z)) (peer_node_id_hex : list Z) : outcome TagError unit :=
  match local_mesh_key, peer_mesh_tag_hex with
  | Some key, Some tag_hex =>
    let expected_hex := hex (compute_rfcomm_hello_tag key peer_node_id_hex) in
    if constant_time_eq expected_hex tag_hex then Ok () else Err TagMismatch
  | Some _, None => Err TagMissing
  | None, Some _ => Err TagPresent
  | None, None => Ok ()
  end.

Definition hello_msg (kind : list Z) (me : LocalIdentity) : HelloMsg :=
  MkHello kind HELLO_VERSION (li_node_id_hex me) (li_name me) (str "linux") (li_caps me)
    ((λ key, hex (compute_rfcomm_hello_tag key (li_node_id_hex me))) <$> li_mesh_handshake_key me).
Definition send_msg (kind : list Z) (me : LocalIdentity) : outcome HelloError (list Z) :=
  match encode_frame (to_vec (hello_msg kind me)) with Ok f => Ok f | Err e => Err (Frame e) | Panic => Panic end.

(** Reads until a frame is there; [None] while more is to come.  What is behind
    the first frame is dropped with the buffer. *)
Fixpoint read_hello (reads : list (list Z)) (buf : list Z) : option (outcome HelloError (list Z * list (list Z))) :=
  match reads with
  | [] => None
  | chunk :: reads =>
    if bool_decide (chunk = []) then Some (Err Eof) else
    match decode_frame (buf ++ chunk) with
    | Ok ([], buf) => read_hello reads buf
    | Ok (payload :: _, _) => Some (Ok (payload, reads))
    | Err e => Some (Err (Frame e))
    | Panic => Some Panic
    end
  end.

Definition get_text (k : string) (d : list Z) (v : Value) : list Z := default d (value_get k v ≫= as_str).

(** What the message of the other side makes of the greeting. *)
Definition check_hello (initiator : bool) (me : LocalIdentity) (payload : list Z) : outcome HelloError Discovered :=
  let? v := ok_or (from_slice payload) NotJson in
  let? kind := ok_or (value_get "type" v ≫= as_str) MissingType in
  if negb (bool_decide (kind = if initiator then str "hello-ack" else str "hello")) then Err (UnexpectedKind kind) else
  let their_v := as_u8 (default 0 (value_get "v" v ≫= as_u64_value)) in
  if negb (their_v =? HELLO_VERSION) then Err (VersionMismatch their_v) else
  let their_node := get_text "node_id" [] v in
  let their_caps := match value_get "caps" v ≫= as_array with Some arr => omap as_str arr | None => [] end in
  match verify_peer_mesh_tag (li_mesh_handshake_key me) (value_get "mesh_tag" v ≫= as_str) their_node with
  | Ok _ => Ok (MkDiscovered their_node (get_text "name" [] v) (get_text "platform" (str "unknown") v) their_caps initiator)
  | Err e => Err (Tag e)
  | Panic => Panic
  end.

(** [writes] is whether the socket takes what is written.  Returns what was
    written and, when it is over, the peer's identity, the event for the
    daemon and the reads that are left for the pipe. *)
Definition handshake (initiator : bool) (me : LocalIdentity) (writes : bool) (reads : list (list Z))
  : list Z * option (outcome HelloError (list Z * Discovered * list (list Z))) :=
  match (if initiator then send_msg (str "hello") me else Ok []) with
  | Err e => ([], Some (Err e))
  | Panic => ([], Some Panic)
  | Ok first =>
    if initiator && negb writes then ([], Some (Err WriteFailed)) else
    match read_hello reads [] with
    | None => (first, None)
    | Some Panic => (first, Some Panic)
    | Some (Err e) => (first, Some (Err e))
    | Some (Ok (payload, rest)) =>
      match check_hello initiator me payload with
      | Panic => (first, Some Panic)
      | Err e => (first, Some (Err e))
      | Ok found =>
        match (if initiator then Ok [] else send_msg (str "hello-ack") me) with
        | Panic => (first, Some Panic)
        | Err e => (first, Some (Err e))
        | Ok ack =>
          if negb initiator && negb writes then (first, Some (Err WriteFailed)) else
          match hex_to_node_id (dc_node_id found) with
          | Some peer_node_id => (first ++ ack, Some (Ok (peer_node_id, found, rest)))
          | None => (first ++ ack, Some (Err BadNodeId))
          end
        end
      end
    end
  end.
End Session.

(** ** The pipe

    What the daemon's listener sees of a bridged channel: the identity the
    greeting gave, then the channel until it ends. *)
Fixpoint until_eof (reads : list (list Z)) : list (list Z) :=
  match reads with
  | [] => []
  | r :: reads => if bool_decide (r = []) then [] else r :: until_eof reads
  end.
Definition bridge_to_tcp (peer_node_id : list Z) (reads : list (list Z)) : list Z := peer_node_id ++ concat (until_eof reads).

(** ** Lemmas: frames *)
Definition frame_of (payload : list Z) : list Z := be_bytes 4 (Z.of_nat (length payload)) ++ payload.
Definition frame_fits (payload : list Z) : Prop := 0 < Z.of_nat (length payload) ≤ MAX_FRAME_PAYLOAD.

Lemma encode_frame_fits payload : frame_fits payload → encode_frame payload = Ok (frame_of payload).
Proof.
  unfold frame_fits, encode_frame, MAX_FRAME_PAYLOAD. intros Hl. rewrite bool_decide_eq_false_2 by (intros ->; cbn in Hl; lia).
  rewrite (proj2 (Z.ltb_ge _ _)) by lia. unfold frame_of. by rewrite as_u32_small by (unfold u32_ok; lia).
Qed.

Lemma frame_head payload rest : Z.of_nat (length payload) ≤ MAX_FRAME_PAYLOAD →
  take 4 (frame_of payload ++ rest) = be_bytes 4 (Z.of_nat (length payload))
  ∧ be_value (take 4 (frame_of payload ++ rest)) = Z.of_nat (length payload) ∧ drop 4 (frame_of payload ++ rest) = payload ++ rest.
Proof.
  unfold MAX_FRAME_PAYLOAD, frame_of. intros Hl. rewrite <- app_assoc.
  assert (length (be_bytes 4 (Z.of_nat (length payload))) = 4%nat) as H4 by apply length_be_bytes.
  rewrite take_app_le, take_ge, drop_app_ge by lia. split_and!; [done| |].
  - rewrite be_value_be_bytes by lia. done.
  - by rewrite H4, Nat.sub_diag, drop_0.
Qed.
Lemma length_frame payload : length (frame_of payload) = (4 + length payload)%nat.
Proof. unfold frame_of. by rewrite length_app, length_be_bytes. Qed.

Lemma decode_frames_step fuel payload rest : frame_fits payload →
  decode_frames (S fuel) (frame_of payload ++ rest)
    = let? (out, buf) := decode_frames fuel rest in Ok (payload :: out, buf).
Proof.
  intros Hf. pose proof Hf as [H0 Hm]. unfold MAX_FRAME_PAYLOAD in Hm. destruct (frame_head payload rest Hm) as (_ & Hv & Hd).
  cbn [decode_frames]. rewrite length_app, length_frame. rewrite bool_decide_eq_false_2 by lia. rewrite Hv, Nat2Z.id.
  rewrite (proj2 (Z.eqb_neq _ _)) by lia. unfold MAX_FRAME_PAYLOAD. rewrite (proj2 (Z.ltb_ge _ _)) by lia.
  rewrite bool_decide_eq_false_2 by lia. rewrite Hd, take_app_length, <- drop_drop, Hd, drop_app_length. done.
Qed.

(** Part of a frame is kept for later. *)
Lemma decode_part payload buf : frame_fits payload → buf `prefix_of` frame_of payload → (length buf < length (frame_of payload))%nat →
  decode_frame buf = Ok ([], buf).
Proof.
  intros [H0 Hm] [rest Hrest] Hlt. unfold MAX_FRAME_PAYLOAD in Hm. unfold decode_frame. cbn [decode_frames].
  case_bool_decide as E4; [done|].
  assert (take 4 buf = take 4 (frame_of payload ++ [])) as -> by (rewrite app_nil_r, Hrest, take_app_le by lia; done).
  destruct (frame_head payload [] Hm) as (_ & -> & _). rewrite (proj2 (Z.eqb_neq _ _)) by lia.
  unfold MAX_FRAME_PAYLOAD. rewrite (proj2 (Z.ltb_ge _ _)) by lia. rewrite length_frame in Hlt.
  by rewrite bool_decide_eq_true_2 by lia.
Qed.

Lemma decode_frames_done fuel : decode_frames fuel [] = Ok ([], []).
Proof. by destruct fuel. Qed.

Lemma decode_frame_all ps : Forall frame_fits ps → decode_frame (concat (map frame_of ps)) = Ok (ps, []).
Proof.
  intros Hps. unfold decode_frame.
  assert (∀ fuel, (length ps ≤ fuel)%nat → decode_frames fuel (concat (map frame_of ps)) = Ok (ps, [])) as Hgen.
  { induction Hps as [|p ps Hp _ IH]; intros fuel Hf; cbn [map concat]; [apply decode_frames_done|].
    destruct fuel as [|fuel]; cbn in Hf; [lia|]. rewrite decode_frames_step by done. by rewrite IH by lia. }
  apply Hgen. clear. induction ps as [|p ps IH]; cbn [map concat length]; [lia|]. rewrite length_app, length_frame. lia.
Qed.

(** Reading a greeting, however it is cut. *)
Lemma read_hello_whole payload cs rest buf : frame_fits payload → Forall (λ c, c ≠ []) cs → cs ≠ [] →
  buf ++ concat cs = frame_of payload → read_hello (cs ++ rest) buf = Some (Ok (payload, rest)).
Proof.
  intros Hf Hcs. revert buf. induction Hcs as [|c cs Hc Hcs IH]; intros buf Hne Hb; [done|]. cbn [app read_hello concat] in *.
  rewrite bool_decide_eq_false_2 by done. destruct cs as [|c' cs].
  - cbn [concat] in Hb. rewrite app_nil_r in Hb. rewrite Hb. pose proof (decode_frame_all [payload]) as H1. cbn [map concat] in H1.
    rewrite app_nil_r in H1. by rewrite H1 by (by constructor).
  - rewrite (decode_part payload (buf ++ c)); [| done| |].
    + apply IH; [done|]. by rewrite <- app_assoc.
    + exists (concat (c' :: cs)). by rewrite <- app_assoc.
    + rewrite <- Hb. inversion Hcs as [|? ? Hc' _]; subst. destruct c' as [|x c']; [done|].
      rewrite !length_app. cbn. lia.
Qed.

(** ** Lemmas: tags and identities *)
Lemma ct_diff_nonneg a b d : bytes_ok a → bytes_ok b → 0 ≤ d → ct_diff a b d = 0 ↔ d = 0 ∧ take (length b) a = take (length a) b.
Proof.
  intros Ha. revert b d. induction Ha as [|x a Hx Ha IH]; intros [|y b] d Hb Hd; cbn [ct_diff length take]; try naive_solver.
  inversion Hb as [|? ? Hy Hb']; subst. unfold u8_ok in *.
  rewrite IH; [|done|]. 2:{ apply Z.lor_nonneg. split; [done|]. apply Z.lxor_nonneg. lia. }
  rewrite Z.lor_eq_0_iff, Z.lxor_eq_0_iff. split; [by intros [[-> ->] ->]|by intros [-> [= -> ->]]].
Qed.

(** The comparison that takes the same time for all is equality. *)
Lemma constant_time_eq_spec a b : bytes_ok a → bytes_ok b → constant_time_eq a b = bool_decide (a = b).
Proof.
  intros Ha Hb. unfold constant_time_eq. case_bool_decide as El; cbn [negb].
  - pose proof (ct_diff_nonneg a b 0 Ha Hb ltac:(lia)) as Hd. rewrite El, (take_ge b), <- El, take_ge in Hd by lia.
    destruct (Z.eqb_spec (ct_diff a b 0) 0) as [E|E]; symmetry; [apply bool_decide_eq_true_2|apply bool_decide_eq_false_2].
    + by apply Hd in E as [_ ?].
    + intros ->. apply E. by apply Hd.
  - symmetry. apply bool_decide_eq_false_2. congruence.
Qed.

Lemma hex_to_node_id_hex id : node_id_wf id → hex_to_node_id (to_hex id) = Some (as_bytes id).
Proof.
  intros [Hl Hb]. unfold hex_to_node_id, to_hex. rewrite length_flat_map_hex, Hl. cbn. by rewrite parse_hex_flat_map.
Qed.

Lemma nonempty_frame payload cs : concat cs = frame_of payload → cs ≠ [].
Proof. intros E ->. apply (f_equal length) in E. rewrite length_frame in E. cbn in E. lia. Qed.

Lemma decode_frames_total fuel buf : decode_frames fuel buf ≠ Panic.
Proof.
  revert buf. induction fuel as [|fuel IH]; intros buf; cbn [decode_frames]; [done|]. repeat case_match; try done.
  specialize (IH (drop (4 + Z.to_nat (be_value (take 4 buf))) buf)).
  destruct (decode_frames fuel _) as [[]| |]; cbn; done.
Qed.

Lemma hex_bytes_ok bs : bytes_ok bs → bytes_ok (hex bs).
Proof.
  induction 1 as [|b bs Hb _ IH]; [constructor|]. unfold hex. cbn [flat_map]. apply Forall_app. split; [|done].
  revert Hb. apply (u8_forall (λ b, bytes_ok (hex_byte b))). by vm_compute.
Qed.

(** ** Theorems *)
Lemma hello_fields m :
  value_get "type" (hello_value m) = Some (VStr (hm_kind m)) ∧ value_get "v" (hello_value m) = Some (VNum (hm_v m)) ∧
  value_get "node_id" (hello_value m) = Some (VStr (hm_node_id m)) ∧ value_get "name" (hello_value m) = Some (VStr (hm_name m)) ∧
  value_get "platform" (hello_value m) = Some (VStr (hm_platform m)) ∧
  value_get "caps" (hello_value m) = Some (VArr (map VStr (hm_caps m))) ∧
  value_get "mesh_tag" (hello_value m) = VStr <$> hm_mesh_tag m.
Proof. destruct m as [k v n nm p c [t|]]; done. Qed.

Lemma omap_VStr l : omap as_str (map VStr l) = l.
Proof. induction l as [|s l IH]; cbn; [done|]. by rewrite IH. Qed.

Section Theorems.
Context `{HelloJson} {LJ : LawfulHelloJson} `{HelloMac}.

(** What the other side's message is taken for. *)
Lemma check_hello_msg (initiator : bool) me m : hm_kind m = (if initiator then str "hello-ack" else str "hello") →
  u64_ok (hm_v m) → as_u8 (hm_v m) = HELLO_VERSION →
  verify_peer_mesh_tag (li_mesh_handshake_key me) (hm_mesh_tag m) (hm_node_id m) = Ok () →
  check_hello initiator me (to_vec m) = Ok (MkDiscovered (hm_node_id m) (hm_name m) (hm_platform m) (hm_caps m) initiator).
Proof.
  intros Hk Hu Hv Ht. unfold check_hello, get_text. rewrite from_to_vec. cbn [ok_or obind].
  destruct (hello_fields m) as (-> & -> & -> & -> & -> & -> & ->). cbn [mbind option_bind as_str ok_or obind as_u64_value as_array].
  rewrite bool_decide_eq_true_2 by done. cbn [negb]. rewrite bool_decide_eq_true_2 by done. cbn [default from_option id].
  rewrite Hv, Z.eqb_refl. cbn [negb].
  replace ((VStr <$> hm_mesh_tag m) ≫= as_str) with (hm_mesh_tag m) by by destruct (hm_mesh_tag m). by rewrite Ht, omap_VStr.
Qed.

Lemma ct_diff_refl a : ct_diff a a 0 = 0.
Proof. induction a as [|x a IH]; cbn; [done|]. by rewrite Z.lxor_nilpotent. Qed.
Lemma own_tag_accepted key node_id :
  verify_peer_mesh_tag key ((λ k, hex (compute_rfcomm_hello_tag k node_id)) <$> key) node_id = Ok ().
Proof.
  destruct key as [k|]; cbn; [|done]. unfold constant_time_eq. rewrite bool_decide_eq_true_2 by done. cbn [negb].
  by rewrite ct_diff_refl.
Qed.

(** C28: two nodes of the same mesh, or both of the open one, whose greetings fit a
    frame and that greet each other over a channel end up with each other's
    identity, however the channel cuts the bytes of a greeting into reads as
    long as no read goes past its last byte ([coalesced_bytes_lost] says what
    happens otherwise), and the daemon's listener then registers the bridged
    connection under it. *)
Theorem rfcomm_meets meA idA meB idB csA restA csB restB t c addr :
  li_node_id_hex meA = to_hex idA → node_id_wf idA → li_node_id_hex meB = to_hex idB → node_id_wf idB →
  li_mesh_handshake_key meA = li_mesh_handshake_key meB →
  frame_fits (to_vec (hello_msg (str "hello") meA)) → frame_fits (to_vec (hello_msg (str "hello-ack") meB)) →
  Forall (λ ch, ch ≠ []) csA → Forall (λ ch, ch ≠ []) csB →
  concat csA = frame_of (to_vec (hello_msg (str "hello-ack") meB)) → concat csB = frame_of (to_vec (hello_msg (str "hello") meA)) →
  handshake true meA true (csA ++ restA)
    = (concat csB, Some (Ok (as_bytes idB, MkDiscovered (to_hex idB) (li_name meB) (str "linux") (li_caps meB) true, restA))) ∧
  handshake false meB true (csB ++ restB)
    = (concat csA, Some (Ok (as_bytes idA, MkDiscovered (to_hex idA) (li_name meA) (str "linux") (li_caps meA) false, restB))) ∧
  tt_peers (handle_incoming c (take 16 (bridge_to_tcp (as_bytes idB) restA)) addr t) !! idB = Some (MkWriter c addr).
Proof.
  intros HA WA HB WB Hkey FA FB CA CB EA EB. unfold handshake, send_msg. rewrite !encode_frame_fits by done. cbn [andb negb].
  rewrite (read_hello_whole _ csA restA [] FB), (read_hello_whole _ csB restB [] FA) by (done || by eapply nonempty_frame).
  rewrite !check_hello_msg; try done.
  2,3: cbn [hello_msg hm_mesh_tag hm_node_id]; (rewrite Hkey || rewrite <- Hkey); apply own_tag_accepted.
  cbn [hello_msg hm_node_id hm_name hm_platform hm_caps dc_node_id]. rewrite HA, HB, !hex_to_node_id_hex by done.
  rewrite EA, EB, app_nil_r. split_and!; [done|done|].
  unfold bridge_to_tcp, handle_incoming. rewrite register_peer_eq. cbn [tt_peers set_peers]. destruct WB as [Hl _].
  rewrite take_app_le, take_ge by lia. destruct idB. by rewrite lookup_insert_eq.
Qed.

(** the gate is the table of the source: a greeting passes exactly when the
    tag it carries is the one this node's mesh key gives for the identity it
    states, and none on the open mesh. *)
Theorem rfcomm_gate key tag node_id :
  (∀ k, key = Some k → bytes_ok (compute_rfcomm_hello_tag k node_id)) → (∀ t, tag = Some t → bytes_ok t) →
  verify_peer_mesh_tag key tag node_id = Ok () ↔ tag = (λ k, hex (compute_rfcomm_hello_tag k node_id)) <$> key.
Proof.
  intros Hk Ht. split; [|intros ->; apply own_tag_accepted].
  destruct key as [k|], tag as [t|]; cbn; try done. rewrite constant_time_eq_spec by (try apply hex_bytes_ok; eauto).
  case_bool_decide as E; [|done]. by rewrite E.
Qed.

(** bytes of the mesh that arrive together with the last greeting are lost:
    the greeting fails, or the pipe starts behind them. *)
Theorem coalesced_bytes_lost initiator me payload extra rest : frame_fits payload →
  match (handshake initiator me true ((frame_of payload ++ extra) :: rest)).2 with
  | Some (Ok (id, _, reads)) => bridge_to_tcp id reads = id ++ concat (until_eof rest)
  | Some _ => True
  | None => False
  end.
Proof.
  intros Hf.
  assert ((∃ e, read_hello ((frame_of payload ++ extra) :: rest) [] = Some (Err e)) ∨
    read_hello ((frame_of payload ++ extra) :: rest) [] = Some (Ok (payload, rest))) as Hr.
  { cbn [read_hello]. rewrite bool_decide_eq_false_2.
    2:{ intros E. apply (f_equal length) in E. rewrite length_app, length_frame in E. cbn in E. lia. }
    rewrite app_nil_l. unfold decode_frame. rewrite decode_frames_step by done. pose proof (decode_frames_total (length (frame_of payload ++ extra)) extra).
    destruct (decode_frames _ extra) as [[out buf]| |]; cbn; [by right|left; by eexists|done]. }
  unfold handshake. destruct (if initiator then _ else Ok []) as [first| |]; [|done..]. rewrite andb_false_r.
  destruct Hr as [[e ->]| ->]; [done|]. destruct (check_hello _ _ _); [|done..].
  destruct (if initiator then Ok [] else _); [|done..]. rewrite andb_false_r. by destruct (hex_to_node_id _).
Qed.

(** the version of a greeting is cut to a byte before it is compared: 257
    passes for 1. *)
Lemma hello_version_cut me m : hm_kind m = str "hello" → hm_v m = 257 →
  verify_peer_mesh_tag (li_mesh_handshake_key me) (hm_mesh_tag m) (hm_node_id m) = Ok () →
  is_ok (check_hello false me (to_vec m)) = true.
Proof. intros Hk Hv Ht. rewrite check_hello_msg; [done|done|by rewrite Hv|by rewrite Hv|done]. Qed.
End Theorems.

(** ** Instances *)
#[export] Instance HelloMsg_eq_dec : EqDecision HelloMsg.
Proof. solve_decision. Defined.
#[export] Instance HelloMsg_countable : Countable HelloMsg.
Proof.
  apply (inj_countable' (λ m, (hm_kind m, hm_v m, hm_node_id m, hm_name m, hm_platform m, hm_caps m, hm_mesh_tag m))
    (λ '(k, v, n, nm, p, c, t), MkHello k v n nm p c t)). by intros [].
Defined.
#[export] Instance sample_json : HelloJson := {
  to_vec m := [Zpos (countable.encode m)];
  from_slice s := match s with [Zpos p] => hello_value <$> (countable.decode p : option HelloMsg) | _ => None end;
}.
#[export] Instance sample_json_lawful : LawfulHelloJson.
Proof. intros m. unfold from_slice, to_vec, sample_json. by rewrite countable.decode_encode. Qed.
#[export] Instance sample_mac : HelloMac := λ key s, take 32 (key ++ s ++ replicate 32 0).

Definition sample_local (n : Z) (key : option (list Z)) : LocalIdentity :=
  MkLocal (to_hex (sample_id n)) (str "PIM-node") [str "mesh-v1"] key.

Lemma rfcomm_meets_witness :
  let a := sample_local 1 (Some [7]) in let b := sample_local 2 (Some [7]) in
  let ack := frame_of (to_vec (hello_msg (str "hello-ack") b)) in let hello := frame_of (to_vec (hello_msg (str "hello") a)) in
  (handshake true a true ([take 2 ack; drop 2 ack] ++ [[1; 2; 3]])).1 = hello ∧
  tt_peers (handle_incoming 0 (take 16 (bridge_to_tcp (as_bytes (sample_id 2)) [[1; 2; 3]])) (1, 2) (TcpTransport_new (sample_id 1)))
    !! sample_id 2 = Some (MkWriter 0 (1, 2)).
Proof.
  intros a b ack hello.
  destruct (rfcomm_meets a (sample_id 1) b (sample_id 2) [take 2 ack; drop 2 ack] [[1; 2; 3]] [hello] []
    (TcpTransport_new (sample_id 1)) 0 (1, 2)) as (H1 & _ & H3).
  1-11: first [done | by apply (bool_decide_unpack _); vm_compute | by cbn; rewrite app_nil_r, ?take_drop | by repeat constructor].
  split; [|done]. rewrite H1. cbn [fst concat]. by rewrite app_nil_r.
Defined.

Lemma rfcomm_gate_witness :
  verify_peer_mesh_tag (Some [7]) (Some (hex (compute_rfcomm_hello_tag [7] (to_hex (sample_id 2))))) (to_hex (sample_id 2)) = Ok ().
Proof.
  apply rfcomm_gate; [| |done]; intros ? [= <-]; by apply (bool_decide_unpack _); vm_compute.
Defined.

(** The acknowledgement and three bytes of the mesh in one read. *)
Lemma coalesced_bytes_lost_witness :
  let a := sample_local 1 None in let ack := frame_of (to_vec (hello_msg (str "hello-ack") (sample_local 2 None))) in
  match (handshake true a true ((ack ++ [1; 2; 3]) :: [[4; 5]])).2 with
  | Some (Ok (id, _, reads)) => bridge_to_tcp id reads = as_bytes (sample_id 2) ++ [4; 5]
  | _ => False
  end.
Proof.
  intros a ack. pose proof (coalesced_bytes_lost true a (to_vec (hello_msg (str "hello-ack") (sample_local 2 None))) [1; 2; 3] [[4; 5]]
    ltac:(done)) as H.
  assert (∃ d, (handshake true a true ((ack ++ [1; 2; 3]) :: [[4; 5]])).2 = Some (Ok (as_bytes (sample_id 2), d, [[4; 5]]))) as [d E].
  { eexists. by vm_compute. }
  fold ack in H. rewrite E in *. exact H.
Defined.

(** ** Device addresses *)
Lemma HEX_byte_spec b : u8_ok b → from_str_radix_u8 (HEX_byte b) 16 = Some b ∧ Forall (λ x, x ≠ 58) (HEX_byte b).
Proof.
  apply (u8_forall (λ b, from_str_radix_u8 (HEX_byte b) 16 = Some b ∧ Forall (λ x, x ≠ 58) (HEX_byte b))). by vm_compute.
Qed.

(** a device address survives being printed and parsed. *)
Theorem bdaddr_roundtrip addr : length addr = 6%nat → bytes_ok addr → parse_bdaddr (format_bdaddr addr) = Some addr.
Proof.
  intros Hl Hb. destruct addr as [|a0 [|a1 [|a2 [|a3 [|a4 [|a5 [|]]]]]]]; try done.
  unfold bytes_ok in Hb. rewrite !Forall_cons in Hb. destruct Hb as (B0 & B1 & B2 & B3 & B4 & B5 & _).
  destruct (HEX_byte_spec a0 B0) as [P0 S0], (HEX_byte_spec a1 B1) as [P1 S1], (HEX_byte_spec a2 B2) as [P2 S2],
    (HEX_byte_spec a3 B3) as [P3 S3], (HEX_byte_spec a4 B4) as [P4 S4], (HEX_byte_spec a5 B5) as [P5 S5].
  unfold parse_bdaddr, format_bdaddr. change (@app Z [58]) with (@cons Z 58). cbv beta.
  rewrite !split_on_app, split_on_last by done. by rewrite P0, P1, P2, P3, P4, P5.
Qed.
Lemma bdaddr_roundtrip_witness : parse_bdaddr (format_bdaddr [1; 35; 69; 103; 137; 171]) = Some [1; 35; 69; 103; 137; 171].
Proof. apply bdaddr_roundtrip; [done|]. by apply (bool_decide_unpack _). Defined.
