(* ===== verification/RfcommService.v ===== *)
(** * The RFCOMM service (crates/pim-bluetooth/src/rfcomm)

    The three tasks of the service and what they share.  The acceptor
    ([listener.rs]) and the loop that dials paired devices ([outbound.rs]) share
    the set of addresses that have a session; every event of theirs is one
    access to that set, so that they interleave as the locks let them.  The
    loop that looks for new devices and pairs with them ([inquiry.rs]) shares
    nothing but [bluetoothctl] and keeps its own table of addresses to leave
    alone for a while. *)

From S2P Require Import Prelude Core MeshAddress Text Json Rfcomm.

(** ** Configuration *)
Record RfcommConfig := MkRfcommConfig {
  rc_enabled : bool;
  rc_channel : Z;
  rc_prefix : list Z;
  rc_poll_interval : Z;
  rc_outbound_enabled : bool;
  rc_bluetoothctl_command : list Z;
  rc_local_bridge_addr : option (Z * Z);
  rc_discovery_enabled : bool;
  rc_inquiry_interval : Z;
}.
Definition DEFAULT_CHANNEL : Z := 22.
Definition DEFAULT_PREFIX : list Z := str "PIM-".
Definition RfcommConfig_default : RfcommConfig :=
  MkRfcommConfig false DEFAULT_CHANNEL DEFAULT_PREFIX 30000 true (str "bluetoothctl") None true 60000.

Inductive RfcommEvent :=
| Listening (channel : Z)
| FoundPeer (bd_addr : list Z) (found : Discovered)
| LostPeer (bd_addr : list Z)
| OpenFailed (bd_addr name : list Z)
| ServiceError (code : Z).

(** ** Listings of [bluetoothctl] *)
Definition parse_devices (stdout prefix : list Z) : list (list Z * list Z) :=
  omap (λ line,
    match strip_prefix (str "Device ") (trim line) with
    | None => None
    | Some rest =>
      match split_once 32 rest with
      | None => None
      | Some (addr, name) => if starts_with prefix name then Some (addr, name) else None
      end
    end) (lines stdout).

Definition parse_paired_yes (stdout : list Z) : bool :=
  match omap (λ line, strip_prefix (str "Paired:") (trim line)) (lines stdout) with
  | rest :: _ => bool_decide (trim rest = str "yes")
  | [] => false
  end.

(** ** Sessions of the acceptor and the dialling loop

    A session is a number; what it does is in [Rfcomm].  The dialling loop is
    waiting for its timer, at the next device of a listing, between its two
    accesses to the set, or connecting. *)
Inductive Outbound :=
| Waiting
| Listed (todo : list (list Z * list Z))
| Checked (bd : list Z) (dev : list Z * list Z) (todo : list (list Z * list Z))
| Connecting (bd : list Z) (dev : list Z * list Z) (todo : list (list Z * list Z)).

Record Service := MkService {
  sv_active : gset (list Z);
  sv_sessions : gmap nat (list Z * bool);   (* peer address, we dialled *)
  sv_outbound : Outbound;
}.
Definition service_start : Service := MkService ∅ ∅ Waiting.

Inductive ServiceEvent :=
| Poll (scan : option (list Z))             (* output of devices Paired *)
| OutCheck
| OutInsert
| OutConnect (c : nat) (ok : bool)
| Accept (c : nat) (peer_addr : list Z)
| SessionEnd (c : nat).

Definition poll (prefix : list Z) (scan : option (list Z)) (s : Service) : Service :=
  match sv_outbound s, scan with
  | Waiting, Some stdout => MkService (sv_active s) (sv_sessions s) (Listed (parse_devices stdout prefix))
  | _, _ => s
  end.
Definition out_check (s : Service) : Service :=
  let go o := MkService (sv_active s) (sv_sessions s) o in
  match sv_outbound s with
  | Listed [] => go Waiting
  | Listed ((bd_addr_str, name) :: todo) =>
    match parse_bdaddr bd_addr_str with
    | None => go (Listed todo)
    | Some bd_addr => if bool_decide (bd_addr ∈ sv_active s) then go (Listed todo) else go (Checked bd_addr (bd_addr_str, name) todo)
    end
  | _ => s
  end.
Definition out_insert (s : Service) : Service :=
  match sv_outbound s with
  | Checked bd dev todo => MkService ({[bd]} ∪ sv_active s) (sv_sessions s) (Connecting bd dev todo)
  | _ => s
  end.
Definition out_connect (c : nat) (ok : bool) (s : Service) : Service * list RfcommEvent :=
  match sv_outbound s with
  | Connecting bd dev todo =>
    if ok then (MkService (sv_active s) (<[c := (bd, true)]> (sv_sessions s)) (Listed todo), [])
    else (MkService (sv_active s ∖ {[bd]}) (sv_sessions s) (Listed todo), [OpenFailed dev.1 dev.2])
  | _ => (s, [])
  end.
Definition accept (c : nat) (peer_addr : list Z) (s : Service) : Service :=
  if bool_decide (peer_addr ∈ sv_active s) then s
  else MkService ({[peer_addr]} ∪ sv_active s) (<[c := (peer_addr, false)]> (sv_sessions s)) (sv_outbound s).
Definition session_end (c : nat) (s : Service) : Service :=
  match sv_sessions s !! c with
  | Some (bd, _) => MkService (sv_active s ∖ {[bd]}) (delete c (sv_sessions s)) (sv_outbound s)
  | None => s
  end.

Definition service_step (prefix : list Z) (e : ServiceEvent) (s : Service) : Service :=
  match e with
  | Poll scan => poll prefix scan s
  | OutCheck => out_check s
  | OutInsert => out_insert s
  | OutConnect c ok => (out_connect c ok s).1
  | Accept c peer => accept c peer s
  | SessionEnd c => session_end c s
  end.
(** A new session has a number of its own. *)
Definition fresh_event (e : ServiceEvent) (s : Service) : Prop :=
  match e with OutConnect c _ | Accept c _ => sv_sessions s !! c = None | _ => True end.
(** No channel of a peer is accepted while the dialling loop is between its two
    accesses for that peer. *)
Definition undisturbed (e : ServiceEvent) (s : Service) : Prop :=
  match e, sv_outbound s with Accept _ peer, Checked bd _ _ => peer ≠ bd | _, _ => True end.
Fixpoint service_run (prefix : list Z) (es : list ServiceEvent) (s : Service) : Service :=
  match es with [] => s | e :: es => service_run prefix es (service_step prefix e s) end.
Fixpoint along (prefix : list Z) (P : ServiceEvent → Service → Prop) (es : list ServiceEvent) (s : Service) : Prop :=
  match es with [] => True | e :: es => P e s ∧ along prefix P es (service_step prefix e s) end.

(** Who keeps an address: a session or the dialling loop. *)
Definition connecting (bd : list Z) (o : Outbound) : Prop := match o with Connecting b _ _ => b = bd | _ => False end.
Definition owned (bd : list Z) (s : Service) : Prop :=
  (∃ c i, sv_sessions s !! c = Some (bd, i)) ∨ connecting bd (sv_outbound s).

(** ** New devices

    What [bluetoothctl] answers in one cycle: whether the inquiry ran, the
    listing of devices, the properties of a device, and whether pairing and
    trusting it worked. *)
Record Inquiry := MkInquiry {
  iq_scan : bool;
  iq_devices : option (list Z);
  iq_info : list Z → option (list Z);
  iq_pair : list Z → bool;
  iq_trust : list Z → bool;
}.
Definition DECLINE_COOLDOWN : Z := 600 * 1000.
Definition SCAN_DURATION_S : Z := 12.

Definition is_paired (bt : Inquiry) (addr : list Z) : option bool := parse_paired_yes <$> iq_info bt addr.
Definition run_pair_trust (bt : Inquiry) (addr : list Z) : bool := iq_pair bt addr && iq_trust bt addr.

(** An attempt to pair: when its cycle looked at the clock, when it was over,
    with whom, and whether it worked. *)
Record Attempt := MkAttempt { at_cycle : Z; at_over : Z; at_addr : list Z; at_ok : bool }.

(** [clock n] is the time when the candidate with [n] more behind it has been
    dealt with. *)
Fixpoint pair_candidates (bt : Inquiry) (now : Z) (clock : nat → Z) (candidates : list (list Z * list Z)) (cooldowns : gmap (list Z) Z)
  : gmap (list Z) Z * list Attempt :=
  match candidates with
  | [] => (cooldowns, [])
  | (addr, _) :: rest =>
    let skip := pair_candidates bt now clock rest cooldowns in
    if match cooldowns !! addr with Some until => now <? until | None => false end then skip else
    match is_paired bt addr with
    | None | Some true => skip
    | Some false =>
      let over := clock (length rest) in
      let ok := run_pair_trust bt addr in
      let cooldowns := if ok then cooldowns else <[addr := over + DECLINE_COOLDOWN]> cooldowns in
      let '(cooldowns, attempts) := pair_candidates bt now clock rest cooldowns in
      (cooldowns, MkAttempt now over addr ok :: attempts)
    end
  end.

Definition run_one_cycle (bt : Inquiry) (prefix : list Z) (now : Z) (clock : nat → Z) (cooldowns : gmap (list Z) Z)
  : gmap (list Z) Z * list Attempt * list RfcommEvent :=
  if negb (iq_scan bt) then (cooldowns, [], [ServiceError (-33010)]) else
  match iq_devices bt with
  | None => (cooldowns, [], [])
  | Some stdout =>
    let cooldowns := filter (λ p, now < p.2) cooldowns in
    (pair_candidates bt now clock (parse_devices stdout prefix) cooldowns, [])
  end.

(** The task: cycle after cycle. *)
Fixpoint inquiry_run (prefix : list Z) (cycles : list (Inquiry * Z * (nat → Z))) (cooldowns : gmap (list Z) Z) : gmap (list Z) Z * list Attempt :=
  match cycles with
  | [] => (cooldowns, [])
  | (bt, now, clock) :: cycles =>
    let '(cooldowns, attempts, _) := run_one_cycle bt prefix now clock cooldowns in
    let '(cooldowns, more) := inquiry_run prefix cycles cooldowns in
    (cooldowns, attempts ++ more)
  end.

(** ** One session *)
Section Run.
Context `{HelloJson} `{HelloMac}.

(** What a session tells the daemon, once it is over. *)
Definition session_events (initiator : bool) (me : LocalIdentity) (bd : list Z) (writes : bool) (reads : list (list Z)) : option (list RfcommEvent) :=
  match (handshake initiator me writes reads).2 with
  | None | Some Panic => None
  | Some (Err _) => Some [LostPeer (format_bdaddr bd)]
  | Some (Ok (_, found, _)) => Some [FoundPeer (format_bdaddr bd) found; LostPeer (format_bdaddr bd)]
  end.

(** A channel that is not bridged is read until it ends: why it did.  [None]
    while it is open, [Some None] at its end, [Some (Some e)] for a bad frame. *)
Fixpoint discovery_only_loop (reads : list (list Z)) (buf : list Z) : option (option FrameError) :=
  match reads with
  | [] => None
  | chunk :: reads =>
    if bool_decide (chunk = []) then Some None else
    match decode_frame (buf ++ chunk) with
    | Ok (_, buf) => discovery_only_loop reads buf
    | Err e => Some (Some e)
    | Panic => None
    end
  end.
End Run.

(** ** Lemmas: slots *)
Definition slots_owned (s : Service) : Prop := ∀ bd, bd ∈ sv_active s → owned bd s.
Record slots_exclusive (s : Service) : Prop := {
  se_owned bd : bd ∈ sv_active s ↔ owned bd s;
  se_one c c' bd i i' : sv_sessions s !! c = Some (bd, i) → sv_sessions s !! c' = Some (bd, i') → c = c';
  se_dial bd c i : connecting bd (sv_outbound s) → sv_sessions s !! c ≠ Some (bd, i);
  se_checked bd name todo : sv_outbound s = Checked bd name todo → bd ∉ sv_active s;
}.

(** Along a run an invariant of the steps holds at the end. *)
Lemma service_run_ind prefix (P : ServiceEvent → Service → Prop) (I : Service → Prop) es s :
  (∀ e s, I s → P e s → I (service_step prefix e s)) → I s → along prefix P es s → I (service_run prefix es s).
Proof. intros Hs. revert s. induction es as [|e es IH]; intros s HI; cbn; [done|]. intros [HP Ha]. apply IH; [by apply Hs|done]. Qed.
Lemma along_impl prefix (P Q : ServiceEvent → Service → Prop) es s : (∀ e s, P e s → Q e s) → along prefix P es s → along prefix Q es s.
Proof. intros Hi. revert s. induction es as [|e es IH]; intros s; cbn; [done|]. intros [HP Ha]. split; [by apply Hi|by apply IH]. Qed.

Lemma slots_owned_step prefix e s : slots_owned s → fresh_event e s → slots_owned (service_step prefix e s).
Proof.
  destruct s as [act ses out]. intros HI Hf bd Hb. specialize (HI bd). unfold owned in *. cbn in *.
  destruct e as [scan| | |c ok|c peer|c]; cbn in *.
  - unfold poll in *. cbn in *. destruct out; cbn in *; try (by apply HI). destruct scan; cbn in *; naive_solver.
  - unfold out_check in *. cbn in *. destruct out as [|[|[a n] todo]|b n todo|b n todo]; cbn in *; try (by apply HI); try naive_solver.
    destruct (parse_bdaddr a); cbn in *; [case_bool_decide; cbn in *|]; naive_solver.
  - unfold out_insert in *. cbn in *. destruct out; cbn in *; try (by apply HI). set_solver.
  - unfold out_connect in *. cbn in *. destruct out as [| | |b n todo]; cbn in *; try (by apply HI). destruct ok; cbn in *.
    + destruct (HI Hb) as [(c' & i & Hc)| ->].
      * left. exists c', i. rewrite lookup_insert_ne; [done|]. congruence.
      * left. exists c, true. by rewrite lookup_insert_eq.
    + apply elem_of_difference in Hb as [Hb Hn]. destruct (HI Hb) as [?| ->]; [by left|set_solver].
  - unfold accept in *. cbn in *. case_bool_decide; cbn in *; [by apply HI|]. apply elem_of_union in Hb as [->%elem_of_singleton|Hb].
    + left. exists c, false. by rewrite lookup_insert_eq.
    + destruct (HI Hb) as [(c' & i & Hc)|?]; [left|by right]. exists c', i. rewrite lookup_insert_ne; [done|]. congruence.
  - unfold session_end in *. cbn in *. destruct (ses !! c) as [[b i]|] eqn:E; cbn in *; [|by apply HI].
    apply elem_of_difference in Hb as [Hb Hn]. destruct (HI Hb) as [(c' & j & Hc)|?]; [left|by right].
    exists c', j. rewrite lookup_delete_ne; [done|]. intros <-. set_solver.
Qed.

Lemma slots_exclusive_start : slots_exclusive service_start.
Proof. split; cbn; [|done..]. intros bd. rewrite elem_of_empty. split; [done|]. intros [(c & i & Hc)|[]]. done. Qed.

Lemma exclusive_quiet act ses out out' :
  slots_exclusive (MkService act ses out) →
  (∀ bd, connecting bd out' ↔ connecting bd out) → (∀ bd name todo, out' = Checked bd name todo → bd ∉ act) →
  slots_exclusive (MkService act ses out').
Proof.
  intros [Ho H1 Hd _] Hc Hk. split; cbn in *; [|done| |done].
  - intros bd. rewrite Ho. unfold owned. cbn. by rewrite Hc.
  - intros bd c i Hb. apply Hd. by apply Hc.
Qed.

(** A session that takes the place of nobody. *)
Lemma exclusive_open c bd i act ses out out' :
  slots_exclusive (MkService act ses out) → ses !! c = None → (∀ c' j, ses !! c' ≠ Some (bd, j)) →
  (∀ b, connecting b out' ↔ connecting b out ∧ b ≠ bd) → (∀ b name todo, out' = Checked b name todo → b ∉ act ∧ b ≠ bd) →
  slots_exclusive (MkService ({[bd]} ∪ act) (<[c := (bd, i)]> ses) out').
Proof.
  intros [Ho H1 Hd _] Hf Hn Hc Hk. split; cbn in *.
  - intros b. rewrite elem_of_union, elem_of_singleton, Ho. unfold owned. cbn. split.
    + intros [-> |[(c' & j & Hb)|Hb]]; [left; exists c, i; by rewrite lookup_insert_eq| |].
      * left. exists c', j. rewrite lookup_insert_ne; [done|]. congruence.
      * destruct (decide (b = bd)) as [-> |Hne]; [left; exists c, i; by rewrite lookup_insert_eq|]. right. by apply Hc.
    + intros [(c' & j & Hb)|Hb].
      * apply lookup_insert_Some in Hb as [[<- [= <- <-]]|[Hne Hb]]; [by left|]. right. left. by exists c', j.
      * right. right. by apply Hc.
  - intros c1 c2 b j j' E1 E2. apply lookup_insert_Some in E1 as [[<- [= <- <-]]|[? E1]], E2 as [[<- E2]|[? E2]]; try done.
    + by apply Hn in E2.
    + injection E2 as <- _. by apply Hn in E1.
    + by eapply H1.
  - intros b c' j [Hb Hbd]%Hc E. apply lookup_insert_Some in E as [[<- [= <- <-]]|[? E]]; [done|]. by apply (Hd b c' j).
  - intros b name todo E. destruct (Hk b name todo E). set_solver.
Qed.

(** The slot of [bd] is given up by its one owner. *)
Lemma exclusive_close bd act ses out ses' out' :
  slots_exclusive (MkService act ses out) →
  (∀ c b i, ses' !! c = Some (b, i) ↔ ses !! c = Some (b, i) ∧ b ≠ bd) →
  (∀ b, connecting b out' ↔ connecting b out ∧ b ≠ bd) →
  (∀ b name todo, out' = Checked b name todo → out = Checked b name todo) →
  slots_exclusive (MkService (act ∖ {[bd]}) ses' out').
Proof.
  intros [Ho H1 Hd Hk] Hs Hc Hk'. split; cbn in *.
  - intros b. rewrite elem_of_difference, elem_of_singleton, Ho. unfold owned. cbn. split.
    + intros [[(c & i & Hb)|Hb] Hne]; [left; exists c, i; by apply Hs|right; by apply Hc].
    + intros [(c & i & [Hb Hne]%Hs)|[Hb Hne]%Hc]; (split; [|done]); [left; by exists c, i|by right].
  - intros c c' b i i' [E1 _]%Hs [E2 _]%Hs. by eapply H1.
  - intros b c i [Hb _]%Hc [E _]%Hs. by apply (Hd b c i).
  - intros b name todo E%Hk'%Hk. set_solver.
Qed.

Lemma slots_exclusive_step prefix e s :
  slots_exclusive s → fresh_event e s ∧ undisturbed e s → slots_exclusive (service_step prefix e s).
Proof.
  destruct s as [act ses out]. intros HI [Hf Hu]. pose proof HI as [Ho H1 Hd Hk]. cbn in *.
  assert (Hnot : ∀ bd, bd ∉ act → (∀ c i, ses !! c ≠ Some (bd, i)) ∧ ¬ connecting bd out).
  { intros bd Hb. rewrite Ho in Hb. unfold owned in Hb. cbn in Hb. split; [|tauto]. intros c i E. apply Hb. left. by exists c, i. }
  destruct e as [scan| | |c ok|c peer|c]; cbn in *.
  - unfold poll. cbn. destruct out; try done. destruct scan; [|done]. by eapply exclusive_quiet.
  - unfold out_check. cbn. destruct out as [|[|[a n] todo]|b n todo|b n todo]; try done.
    destruct (parse_bdaddr a) as [bd|]; [|by eapply exclusive_quiet]. case_bool_decide as Hb; [by eapply exclusive_quiet|].
    eapply exclusive_quiet; [done|done|]. by intros ??? [= <- _ _].
  - unfold out_insert. cbn. destruct out as [| |b n todo|]; try done. destruct (Hnot b) as [Hs _]; [by eapply Hk|].
    split; cbn; [|done| |done].
    + intros bd. rewrite elem_of_union, elem_of_singleton, Ho. unfold owned. cbn. naive_solver.
    + intros bd c i <-. apply Hs.
  - unfold out_connect. cbn. destruct out as [| | |b n todo]; try done. destruct ok; cbn.
    + assert (act = {[b]} ∪ act) as ->. { assert (b ∈ act) by (apply Ho; right; done). set_solver. }
      eapply exclusive_open; [done|done|by intros; apply Hd|cbn; naive_solver|done].
    + eapply exclusive_close; [done| |cbn; naive_solver|done]. intros c' b' i. split; [|by intros []]. intros E. split; [done|].
      intros ->. by apply (Hd b c' i).
  - unfold accept. cbn. case_bool_decide as Hb; [done|]. destruct (Hnot peer Hb) as [Hs Hc].
    eapply exclusive_open; [done|done|done| |].
    + intros b. split; [|by intros []]. intros E. split; [done|]. by intros ->.
    + intros b name todo ->. split; [by eapply Hk|]. cbn in Hu. congruence.
  - unfold session_end. cbn. destruct (ses !! c) as [[b i]|] eqn:E; cbn; [|done].
    eapply exclusive_close; [done| | |done].
    + intros c' b' i'. rewrite lookup_delete_Some. split; [|naive_solver]. intros [Hne E']. split; [done|]. intros ->.
      apply Hne. by eapply H1.
    + intros b'. split; [|by intros []]. intros Hc. split; [done|]. intros ->. by apply (Hd b c i).
Qed.

(** ** Theorems *)
(** an address blocks new channels only as long as somebody uses it, however the
    acceptor and the dialling loop interleave: every address in the shared set
    has a session or is being dialled, so once nothing runs the set is empty
    and every peer can be reached again. *)
Theorem slots_released prefix es : along prefix fresh_event es service_start →
  let s := service_run prefix es service_start in
  (∀ bd, bd ∈ sv_active s → owned bd s) ∧ (sv_sessions s = ∅ → sv_outbound s = Waiting → sv_active s = ∅).
Proof.
  intros Ha s. assert (Ho : slots_owned s) by (eapply service_run_ind; [|by intros ?|exact Ha]; intros; by apply slots_owned_step).
  split; [exact Ho|]. intros Hs Hw. apply set_eq. intros bd. split; [|by intros ?%elem_of_empty]. intros [(c & i & Hc)|Hc]%Ho.
  - by rewrite Hs in Hc.
  - by rewrite Hw in Hc.
Qed.

(** C21: a peer has at most one session, and the shared set is exactly the addresses
    in use, as long as no channel of a peer is accepted just between the two
    accesses of the dialling loop for that peer. *)
Theorem one_session_per_peer prefix es : along prefix (λ e s, fresh_event e s ∧ undisturbed e s) es service_start →
  let s := service_run prefix es service_start in
  (∀ c c' bd i i', sv_sessions s !! c = Some (bd, i) → sv_sessions s !! c' = Some (bd, i') → c = c') ∧
  (∀ bd, bd ∈ sv_active s ↔ owned bd s).
Proof.
  intros Ha s. assert (Ho : slots_exclusive s).
  { eapply service_run_ind; [|apply slots_exclusive_start|exact Ha]. intros; by apply slots_exclusive_step. }
  split; [apply (se_one _ Ho)|apply (se_owned _ Ho)].
Qed.

(** the check and the insertion of the dialling loop are two accesses: a channel
    that is accepted in between gives the peer two sessions, and when the first
    is over the second runs without its address in the set, so that a third can
    be accepted. *)
Theorem check_then_insert_races prefix s bd name todo c1 c2 c3 :
  sv_outbound s = Checked bd name todo → bd ∉ sv_active s → c1 ≠ c2 → c3 ≠ c2 →
  let s2 := service_run prefix [Accept c1 bd; OutInsert; OutConnect c2 true] s in
  let s3 := service_run prefix [SessionEnd c1; Accept c3 bd] s2 in
  (sv_sessions s2 !! c1 = Some (bd, false) ∧ sv_sessions s2 !! c2 = Some (bd, true)) ∧
  bd ∉ sv_active (session_end c1 s2) ∧
  (sv_sessions s3 !! c2 = Some (bd, true) ∧ sv_sessions s3 !! c3 = Some (bd, false)).
Proof.
  destruct s as [act ses out]. cbn. intros -> Hb H12 H32. unfold accept. cbn. rewrite bool_decide_eq_false_2 by done. cbn.
  unfold session_end. cbn. rewrite (lookup_insert_ne _ c2), !lookup_insert_eq by done. cbn.
  rewrite bool_decide_eq_false_2 by set_solver. cbn.
  rewrite (lookup_insert_ne _ c3), lookup_delete_ne, !lookup_insert_eq by done. set_solver.
Qed.

(** ** Lemmas: cooldowns *)
Definition cooling (now : Z) (cooldowns : gmap (list Z) Z) (a : Attempt) : Prop :=
  at_ok a = false →
  at_over a + DECLINE_COOLDOWN <= now ∨ ∃ u, cooldowns !! at_addr a = Some u ∧ at_over a + DECLINE_COOLDOWN <= u.
(** [b], if it comes after [a], comes late enough. *)
Definition spaced (a b : Attempt) : Prop :=
  at_ok a = false → at_addr a = at_addr b → at_over a + DECLINE_COOLDOWN <= at_cycle b.

Lemma pair_candidates_spaced bt now clock candidates cooldowns past :
  Forall (cooling now cooldowns) past →
  let '(cooldowns', attempts) := pair_candidates bt now clock candidates cooldowns in
  Forall (cooling now cooldowns') (past ++ attempts) ∧
  Forall (λ b, Forall (λ a, spaced a b) past) attempts ∧ ForallOrdPairs spaced attempts.
Proof.
  revert cooldowns past. induction candidates as [|[addr name] rest IH]; intros cd past Hp.
  { cbn. rewrite app_nil_r. by split_and!; [|constructor..]. }
  assert (Hskip := IH cd past Hp). cbn [pair_candidates].
  destruct (match cd !! addr with Some until => now <? until | None => false end) eqn:Ecool; [exact Hskip|].
  destruct (is_paired bt addr) as [[]|]; [exact Hskip| |exact Hskip]. clear Hskip. cbv zeta.
  set (b := MkAttempt now (clock (length rest)) addr (run_pair_trust bt addr)).
  assert (Hlate : ∀ a, cooling now cd a → spaced a b).
  { intros a Ha Hf He. cbn in *. destruct (Ha Hf) as [?|(u & Hu & ?)]; [done|]. rewrite He in Hu. rewrite Hu in Ecool. lia. }
  specialize (IH (if run_pair_trust bt addr then cd else <[addr := clock (length rest) + DECLINE_COOLDOWN]> cd) (past ++ [b])).
  destruct (pair_candidates bt now clock rest _) as [cd' more]. destruct IH as (Hc & Hl & Hs).
  { apply Forall_app. split.
    - eapply Forall_impl; [exact Hp|]. intros a Ha Hf. destruct (run_pair_trust bt addr); [by apply Ha|].
      destruct (decide (at_addr a = addr)) as [He|Hne]; [left; apply (Hlate a Ha Hf He)|]. rewrite lookup_insert_ne by done. by apply Ha.
    - constructor; [|done]. intros Hf. cbn in *. rewrite Hf. right. eexists. by rewrite lookup_insert_eq. }
  rewrite <- app_assoc in Hc. split_and!; [done| |].
  - constructor; [eapply Forall_impl; [exact Hp|apply Hlate]|]. eapply Forall_impl; [exact Hl|]. intros b' [? _]%Forall_app. done.
  - constructor; [|done]. eapply Forall_impl; [exact Hl|]. intros b' [_ Hb]%Forall_app. by inversion Hb.
Qed.

Lemma cooling_later now now' cd a : now <= now' → cooling now cd a → cooling now' (filter (λ p, now' < p.2) cd) a.
Proof.
  intros Hn Ha Hf. destruct (Ha Hf) as [?|(u & Hu & ?)]; [left; lia|]. destruct (decide (now' < u)); [right|left; lia].
  exists u. split; [|done]. by apply map_lookup_filter_Some.
Qed.

Lemma FOP_app {A} (R : A → A → Prop) l1 l2 : ForallOrdPairs R l1 → ForallOrdPairs R l2 →
  Forall (λ b, Forall (λ a, R a b) l1) l2 → ForallOrdPairs R (l1 ++ l2).
Proof.
  intros H1 H2 H. induction H1 as [|a l Ha H1 IH]; [done|]. cbn. constructor.
  - apply Forall_app. split; [done|]. eapply Forall_impl; [exact H|]. intros b Hb. by inversion Hb.
  - apply IH. eapply Forall_impl; [exact H|]. intros b Hb. by inversion Hb.
Qed.

Lemma inquiry_spaced prefix cycles cooldowns past t :
  StronglySorted Z.le (t :: map (λ c, c.1.2) cycles) → Forall (cooling t cooldowns) past →
  let attempts := (inquiry_run prefix cycles cooldowns).2 in
  Forall (λ b, Forall (λ a, spaced a b) past) attempts ∧ ForallOrdPairs spaced attempts.
Proof.
  revert cooldowns past t. induction cycles as [|[[bt now] clock] cycles IH]; intros cd past t Hs Hp; [by split; constructor|].
  inversion Hs as [|?? Hs' Ht]; subst. inversion Ht as [|?? Hle _]; subst. cbn [fst snd] in *. cbn [inquiry_run]. unfold run_one_cycle.
  assert (Hp' : Forall (cooling now (filter (λ p, now < p.2) cd)) past).
  { eapply Forall_impl; [exact Hp|]. intros a. by apply cooling_later. }
  assert (Hquiet : ∀ attempts, let '(cd', more) := inquiry_run prefix cycles cd in attempts = [] ++ more →
    Forall (λ b, Forall (λ a, spaced a b) past) attempts ∧ ForallOrdPairs spaced attempts).
  { intros attempts. specialize (IH cd past t). destruct (inquiry_run prefix cycles cd). intros ->. apply IH; [|done].
    inversion Hs' as [|?? Hss Hnow]; subst. constructor; [done|]. inversion Ht; subst. done. }
  destruct (negb (iq_scan bt)). { specialize (Hquiet (inquiry_run prefix cycles cd).2). by destruct (inquiry_run prefix cycles cd); apply Hquiet. }
  destruct (iq_devices bt) as [stdout|]. 2:{ specialize (Hquiet (inquiry_run prefix cycles cd).2). by destruct (inquiry_run prefix cycles cd); apply Hquiet. }
  assert (Hc := pair_candidates_spaced bt now clock (parse_devices stdout prefix) _ past Hp').
  destruct (pair_candidates _ _ _ _ _) as [cd' attempts]. destruct Hc as (Hc & Hl & Ho).
  specialize (IH cd' (past ++ attempts) now Hs' Hc). destruct (inquiry_run prefix cycles cd') as [cd2 more]. cbn [snd] in *.
  destruct IH as [Hl2 Ho2]. split.
  - apply Forall_app. split; [done|]. eapply Forall_impl; [exact Hl2|]. intros b [? _]%Forall_app. done.
  - apply FOP_app; [done|done|]. eapply Forall_impl; [exact Hl2|]. intros b [_ ?]%Forall_app. done.
Qed.

Lemma pair_candidates_sound bt now clock candidates cooldowns a :
  a ∈ (pair_candidates bt now clock candidates cooldowns).2 →
  at_cycle a = now ∧ is_paired bt (at_addr a) = Some false ∧ at_addr a ∈ candidates.*1.
Proof.
  revert cooldowns. induction candidates as [|[addr name] rest IH]; intros cd; cbn [pair_candidates]; [by intros ?%elem_of_nil|].
  assert (Hskip : a ∈ (pair_candidates bt now clock rest cd).2 → at_cycle a = now ∧ is_paired bt (at_addr a) = Some false ∧
    at_addr a ∈ ((addr, name) :: rest).*1). { intros (? & ? & ?)%IH. split_and!; [done..|]. by right. }
  case_match; [exact Hskip|]. destruct (is_paired bt addr) as [[]|] eqn:Ep; [exact Hskip| |exact Hskip]. cbv zeta.
  match goal with |- context [pair_candidates _ _ _ _ ?cd'] => specialize (IH cd') end.
  destruct (pair_candidates bt now clock rest _) as [cd' more]. cbn [snd] in *. intros [-> |Ha]%elem_of_cons.
  - cbn. split_and!; [done|done|]. by left.
  - destruct (IH Ha) as (? & ? & ?). split_and!; [done..|]. by right.
Qed.

(** the loop that pairs with new devices leaves a device alone for ten minutes
    after an attempt that failed, whatever [bluetoothctl] answers and however
    long its commands take; and it pairs only with devices that a listing shows
    under the prefix of the mesh and that are not paired. *)
Theorem cooldown_respected prefix cycles : StronglySorted Z.le (map (λ c, c.1.2) cycles) →
  let attempts := (inquiry_run prefix cycles ∅).2 in
  ForallOrdPairs spaced attempts ∧
  Forall (λ a, ∃ bt clock stdout, (bt, at_cycle a, clock) ∈ cycles ∧ iq_devices bt = Some stdout ∧
    at_addr a ∈ (parse_devices stdout prefix).*1 ∧ is_paired bt (at_addr a) = Some false) attempts.
Proof.
  intros Hs attempts. split.
  - destruct cycles as [|c cycles]; [by constructor|]. eapply (inquiry_spaced prefix (c :: cycles) ∅ [] c.1.2); [|done].
    cbn [map] in *. constructor; [done|]. inversion Hs; subst. by constructor.
  - subst attempts. clear Hs. generalize (∅ : gmap (list Z) Z). induction cycles as [|[[bt now] clock] cycles IH]; intros cd; [done|].
    cbn [inquiry_run]. unfold run_one_cycle.
    assert (IH' : ∀ cd, Forall (λ a, ∃ bt' clock' stdout, (bt', at_cycle a, clock') ∈ (bt, now, clock) :: cycles ∧
      iq_devices bt' = Some stdout ∧ at_addr a ∈ (parse_devices stdout prefix).*1 ∧ is_paired bt' (at_addr a) = Some false)
      (inquiry_run prefix cycles cd).2).
    { intros cd0. eapply Forall_impl; [exact (IH cd0)|]. intros a (b & k & o & Hin & ?). exists b, k, o. split; [|done]. by right. }
    destruct (negb (iq_scan bt)). { specialize (IH' cd). by destruct (inquiry_run prefix cycles cd). }
    destruct (iq_devices bt) as [stdout|] eqn:Ed. 2:{ specialize (IH' cd). by destruct (inquiry_run prefix cycles cd). }
    pose proof (pair_candidates_sound bt now clock (parse_devices stdout prefix) (filter (λ p, now < p.2) cd)) as Hc.
    destruct (pair_candidates _ _ _ _ _) as [cd' attempts]. specialize (IH' cd'). destruct (inquiry_run prefix cycles cd').
    cbn [snd] in *. apply Forall_app. split; [|done]. apply Forall_forall. intros a (Hn & Hp & Hin)%Hc.
    exists bt, clock, stdout. rewrite Hn. split_and!; [by left|done..].
Qed.

(** ** Concrete runs *)
Definition sample_addr : list Z := [0x57; 0x0A; 0x3D; 0x83; 0x15; 0].
Definition sample_listing : list Z :=
  str "Device 00:15:83:3D:0A:57 PIM-gatewaybtonly" ++ [10] ++ str "Device AA:BB:CC:DD:EE:FF Random Speaker" ++ [10].
Example parse_sample_listing : parse_devices sample_listing DEFAULT_PREFIX = [(str "00:15:83:3D:0A:57", str "PIM-gatewaybtonly")].
Proof. by vm_compute. Qed.

(** A device is dialled, and one of its own channels is accepted after that one
    is over. *)
Definition sample_service_run : list ServiceEvent :=
  [Poll (Some sample_listing); OutCheck; OutInsert; Accept 0 sample_addr; OutConnect 1 true; OutCheck; SessionEnd 1; Accept 2 sample_addr].

Lemma slots_released_witness :
  along DEFAULT_PREFIX fresh_event sample_service_run service_start ∧
  (∀ bd, bd ∈ sv_active (service_run DEFAULT_PREFIX sample_service_run service_start) →
    owned bd (service_run DEFAULT_PREFIX sample_service_run service_start)).
Proof.
  assert (H : along DEFAULT_PREFIX fresh_event sample_service_run service_start) by (vm_compute; by repeat split).
  split; [exact H|apply (slots_released DEFAULT_PREFIX sample_service_run H)].
Defined.

Lemma one_session_per_peer_witness :
  along DEFAULT_PREFIX (λ e s, fresh_event e s ∧ undisturbed e s) sample_service_run service_start ∧
  (∀ bd, bd ∈ sv_active (service_run DEFAULT_PREFIX sample_service_run service_start) ↔
    owned bd (service_run DEFAULT_PREFIX sample_service_run service_start)).
Proof.
  assert (H : along DEFAULT_PREFIX (λ e s, fresh_event e s ∧ undisturbed e s) sample_service_run service_start) by (vm_compute; by repeat split).
  split; [exact H|apply (one_session_per_peer DEFAULT_PREFIX sample_service_run H)].
Defined.

Definition sample_checked : Service := service_run DEFAULT_PREFIX [Poll (Some sample_listing); OutCheck] service_start.
Lemma check_then_insert_races_witness :
  sample_addr ∉ sv_active (session_end 0 (service_run DEFAULT_PREFIX [Accept 0 sample_addr; OutInsert; OutConnect 1 true] sample_checked)).
Proof.
  apply (check_then_insert_races DEFAULT_PREFIX sample_checked sample_addr (str "00:15:83:3D:0A:57", str "PIM-gatewaybtonly") [] 0 1 2).
  - by vm_compute.
  - by apply (bool_decide_unpack _); vm_compute.
  - done.
  - done.
Defined.

(** The device declines; it is asked again after ten minutes, not after one. *)
Definition sample_inquiry : Inquiry :=
  MkInquiry true (Some sample_listing) (λ _, Some (str "Paired: no")) (λ _, false) (λ _, true).
Definition sample_cycles : list (Inquiry * Z * (nat → Z)) :=
  map (λ t, (sample_inquiry, t, λ _, t + 20000)) [0; 72000; 620000].
Lemma cooldown_respected_witness :
  at_cycle <$> (inquiry_run DEFAULT_PREFIX sample_cycles ∅).2 = [0; 620000] ∧
  ForallOrdPairs spaced (inquiry_run DEFAULT_PREFIX sample_cycles ∅).2.
Proof.
  split; [by vm_compute|]. apply (cooldown_respected DEFAULT_PREFIX sample_cycles). repeat constructor; cbn; lia.
Defined.
