(* ===== verification/WifiDirect.v ===== *)
(** * Wi-Fi Direct (crates/pim-wifidirect/src)

    Discovery of Wi-Fi Direct devices with [wpa_cli], on Linux: the parsers of
    what the commands print ([wpa_cli.rs]), the addresses of a group
    ([group.rs]) and the loop that connects to every device it has not seen and
    hands the address of its peer to the daemon ([lib.rs]).

    The commands and the clock are those of a system [K].  The loops that wait
    end at a deadline; they are given as many turns as fit, and [None] is what
    they return before that many are over. *)

From S2P Require Import Prelude Core MeshAddress Text Ipv6Text Toml Config.

(** ** What the commands print *)
Record P2pPeerInfo := MkP2pPeer { pp_mac : list Z; pp_device_name : list Z; pp_pri_dev_type : list Z; pp_config_methods : Z }.
Inductive WifiDirectError := WpaCli | GroupFormation.

Definition parse_p2p_peers (output : list Z) : list (list Z) :=
  filter (λ l, l ≠ [] ∧ starts_with (str "Selected") l = false ∧ starts_with (str "p2p_peers") l = false) (map trim (lines output)).
Definition parse_interface_list (output : list Z) : list (list Z) :=
  filter (λ l, l ≠ [] ∧ starts_with (str "Available") l = false ∧ starts_with (str "interface") l = false) (map trim (lines output)).

(** [u16::from_str_radix(_, 16)] *)
Fixpoint digits_u16 (radix : Z) (cs : list Z) (acc : Z) : option Z :=
  match cs with
  | [] => Some acc
  | c :: cs =>
    match digit_value radix c with
    | None => None
    | Some d => let v := acc * radix + d in if v <? 65536 then digits_u16 radix cs v else None
    end
  end.
Definition from_str_radix_u16 (cs : list Z) (radix : Z) : option Z :=
  match cs with
  | [] => None
  | [c] => if (c =? 43) || (c =? 45) then None else digits_u16 radix cs 0
  | c :: cs' => if c =? 43 then digits_u16 radix cs' 0 else digits_u16 radix cs 0
  end.
Fixpoint trim_start_matches (fuel : nat) (pat s : list Z) : list Z :=
  match fuel with
  | O => s
  | S fuel => match strip_prefix pat s with Some s => trim_start_matches fuel pat s | None => s end
  end.

Fixpoint peer_info_lines (ls : list (list Z)) (device_name pri_dev_type : list Z) (config_methods : Z) : list Z * list Z * Z :=
  match ls with
  | [] => (device_name, pri_dev_type, config_methods)
  | line :: ls =>
    let line := trim line in
    match strip_prefix (str "device_name=") line with
    | Some v => peer_info_lines ls v pri_dev_type config_methods
    | None =>
      match strip_prefix (str "pri_dev_type=") line with
      | Some v => peer_info_lines ls device_name v config_methods
      | None =>
        match strip_prefix (str "config_methods=") line with
        | Some v => peer_info_lines ls device_name pri_dev_type (default 0 (from_str_radix_u16 (trim_start_matches (length v) (str "0x") v) 16))
        | None => peer_info_lines ls device_name pri_dev_type config_methods
        end
      end
    end
  end.
Definition parse_p2p_peer_info (mac output : list Z) : outcome WifiDirectError P2pPeerInfo :=
  let '(device_name, pri_dev_type, config_methods) := peer_info_lines (lines output) [] [] 0 in
  if bool_decide (device_name = []) then Err WpaCli else Ok (MkP2pPeer mac device_name pri_dev_type config_methods).

Fixpoint inet_lines (ls : list (list Z)) : option Z :=
  match ls with
  | [] => None
  | line :: ls =>
    match strip_prefix (str "inet ") (trim line) with
    | None => inet_lines ls
    | Some rest =>
      match split_whitespace rest with
      | [] => None
      | addr_part :: _ =>
        match split_on 47 addr_part with
        | [] => None
        | addr_str :: _ => match parse_ipv4 addr_str with Some addr => Some addr | None => inet_lines ls end
        end
      end
    end
  end.
Definition parse_inet_addr (output : list Z) : option Z := inet_lines (lines output).

Definition parse_arp_line (iface line : list Z) : option Z :=
  match split_whitespace line with
  | addr :: _ :: _ :: _ :: _ :: device :: _ => if bool_decide (device = iface) then parse_ipv4 addr else None
  | _ => None
  end.
Definition parse_arp_table (content iface : list Z) : list Z := omap (parse_arp_line iface) (drop 1 (lines content)).

(** ** The system *)
Class WifiOs (K : Type) := {
  wpa_cli : K → list (list Z) → K * option (list Z);   (* what a command that succeeded printed *)
  ip_addr_show : K → list Z → K * option (list Z);
  proc_net_arp : K → K * option (list Z);
  now_ms : K → Z;
  sleep_ms : Z → K → K;
}.
(** Time goes on, by at least what is slept. *)
Class WifiClock `{WifiOs K} : Prop := {
  sleep_law d k : now_ms k + d <= now_ms (sleep_ms d k);
  wpa_cli_law k args : now_ms k <= now_ms (wpa_cli k args).1;
  ip_addr_law k iface : now_ms k <= now_ms (ip_addr_show k iface).1;
  arp_law k : now_ms k <= now_ms (proc_net_arp k).1;
}.

Record WpaCliController := MkController { wc_interface : list Z; wc_wpa_cli_bin : list Z }.
Definition WpaCliController_new (interface : list Z) : WpaCliController := MkController interface (str "wpa_cli").

Inductive GroupRole := Go | Gc.
Definition GO_INTERFACE_IP : Z := be_value [192; 168; 49; 1].
Record WifiDirectGroup := MkGroup { wg_group_iface : list Z; wg_role : GroupRole; wg_own_ip : Z; wg_peer_ip : option Z }.

Inductive WifiOut := WfdSeen (mac : list Z) | WfdGroup (mac : list Z) | WfdPeer (addr : Z * Z).

Section Discovery.
Context `{WifiOs K}.
Variable ctrl : WpaCliController.

(** [None] is a loop that has not come to its end. *)
Definition W (A : Type) : Type := K → K * option (outcome WifiDirectError A).
Definition wret {A} (a : A) : W A := λ k, (k, Some (Ok a)).
Definition wfail {A} (e : WifiDirectError) : W A := λ k, (k, Some (Err e)).
Definition wbind {A B} (m : W A) (f : A → W B) : W B := λ k,
  match m k with
  | (k, Some (Ok a)) => f a k
  | (k, Some (Err e)) => (k, Some (Err e))
  | (k, Some Panic) => (k, Some Panic)
  | (k, None) => (k, None)
  end.

Definition run_cmd (args : list (list Z)) : W (list Z) := λ k,
  match wpa_cli k ([wc_wpa_cli_bin ctrl; str "-i"; wc_interface ctrl] ++ args) with
  | (k, Some out) => (k, Some (Ok out))
  | (k, None) => (k, Some (Err WpaCli))
  end.
(** The commands that answer OK. *)
Definition ok_cmd (args : list (list Z)) : W unit :=
  wbind (run_cmd args) (λ out, if bool_decide (trim out = str "OK") || contains (str "OK") out then wret () else wfail WpaCli).
Definition p2p_find : W unit := ok_cmd [str "p2p_find"].
Definition p2p_stop_find : W unit := ok_cmd [str "p2p_stop_find"].
Definition p2p_connect_pbc (mac : list Z) : W unit := ok_cmd [str "p2p_connect"; mac; str "pbc"].
Definition p2p_connect_pin (mac pin : list Z) : W unit := ok_cmd [str "p2p_connect"; mac; pin].
Definition p2p_group_add : W unit := ok_cmd [str "p2p_group_add"].
Definition p2p_group_remove (group_iface : list Z) : W unit := ok_cmd [str "p2p_group_remove"; group_iface].
Definition p2p_peers : W (list (list Z)) := wbind (run_cmd [str "p2p_peers"]) (λ out, wret (parse_p2p_peers out)).
Definition p2p_peer_info (mac : list Z) : W P2pPeerInfo :=
  wbind (run_cmd [str "p2p_peer"; mac]) (λ out k, (k, Some (parse_p2p_peer_info mac out))).
Definition list_interfaces : W (list (list Z)) := wbind (run_cmd [str "interface"]) (λ out, wret (parse_interface_list out)).
Definition iface_ipv4 (iface : list Z) : W (option Z) := λ k,
  match ip_addr_show k iface with
  | (k, Some text) => (k, Some (Ok (parse_inet_addr text)))
  | (k, None) => (k, Some (Err WpaCli))
  end.
Definition arp_peers_on_iface (iface : list Z) : W (list Z) := λ k,
  match proc_net_arp k with
  | (k, Some content) => (k, Some (Ok (parse_arp_table content iface)))
  | (k, None) => (k, Some (Err WpaCli))
  end.

(** The loops that wait: [look] until it finds something or the time is over.
    What fails finds nothing. *)
Fixpoint poll_until {A} (fuel : nat) (look : K → K * option A) (period deadline : Z) (k : K) : K * option (option A) :=
  match fuel with
  | O => (k, None)
  | S fuel =>
    match look k with
    | (k, Some a) => (k, Some (Some a))
    | (k, None) => if deadline <=? now_ms k then (k, Some None) else poll_until fuel look period deadline (sleep_ms period k)
    end
  end.
Definition found {A B} (m : W A) (f : A → option B) : K → K * option B := λ k,
  match m k with (k, Some (Ok a)) => (k, f a) | (k, _) => (k, None) end.
(** Turns until [timeout] is over, and one more. *)
Definition turns (timeout period : Z) : nat := Z.to_nat (timeout / period) + 2.
Definition wait_for {A} (timeout period : Z) (look : K → K * option A) (k : K) : K * option (option A) :=
  poll_until (turns timeout period) look period (now_ms k + timeout) k.

Definition wait_for_group_iface (timeout : Z) : W (list Z) := λ k,
  match wait_for timeout 500 (found list_interfaces (List.find (starts_with (str "p2p-")))) k with
  | (k, Some (Some iface)) => (k, Some (Ok iface))
  | (k, Some None) => (k, Some (Err GroupFormation))
  | (k, None) => (k, None)
  end.
Definition wait_for_iface_ip (iface : list Z) (timeout : Z) : W Z := λ k,
  match wait_for timeout 500 (found (iface_ipv4 iface) id) k with
  | (k, Some (Some addr)) => (k, Some (Ok addr))
  | (k, Some None) => (k, Some (Err GroupFormation))
  | (k, None) => (k, None)
  end.
Definition poll_arp_for_peer (iface : list Z) (timeout : Z) : W (option Z) := λ k,
  match wait_for timeout 1000 (found (arp_peers_on_iface iface) head) k with
  | (k, Some r) => (k, Some (Ok r))
  | (k, None) => (k, None)
  end.

Definition from_iface (iface : list Z) (role : GroupRole) (arp_timeout : Z) : W WifiDirectGroup :=
  wbind (wait_for_iface_ip iface 15000) (λ own_ip,
  wbind (match role with Gc => wret (Some GO_INTERFACE_IP) | Go => poll_arp_for_peer iface arp_timeout end) (λ peer_ip,
  wret (MkGroup iface role own_ip peer_ip))).

Variable config : WifiDirectConfig.
Variable listen_port : Z.

Definition p2p_connect (mac : list Z) : W unit :=
  if bool_decide (wd_connect_method config = str "pbc") then p2p_connect_pbc mac
  else match strip_prefix (str "pin:") (wd_connect_method config) with
       | Some pin => p2p_connect_pin mac pin
       | None => p2p_connect_pbc mac
       end.

Definition connect_and_emit (mac : list Z) : W (list WifiOut) :=
  wbind (p2p_connect mac) (λ _,
  wbind (wait_for_group_iface 15000) (λ group_iface,
  wbind (from_iface group_iface Gc 10000) (λ group,
  wbind (if wg_own_ip group =? GO_INTERFACE_IP then from_iface group_iface Go 10000 else wret group) (λ group,
  match wg_peer_ip group with
  | None => wfail GroupFormation
  | Some peer_ip => λ k, ((p2p_stop_find k).1, Some (Ok [WfdGroup mac; WfdPeer (peer_ip, listen_port)]))
  end)))).

Fixpoint connect_all (macs : list (list Z)) (seen_macs : gset (list Z)) (k : K) : K * option (gset (list Z) * list WifiOut) :=
  match macs with
  | [] => (k, Some (seen_macs, []))
  | mac :: macs =>
    if bool_decide (mac ∈ seen_macs) then connect_all macs seen_macs k else
    match connect_and_emit mac k with
    | (k, None) => (k, None)
    | (k, Some r) =>
      match connect_all macs ({[mac]} ∪ seen_macs) k with
      | (k, Some (seen_macs, outs)) => (k, Some (seen_macs, WfdSeen mac :: match r with Ok l => l | _ => [] end ++ outs))
      | (k, None) => (k, None)
      end
    end
  end.
Definition poll_and_connect (seen_macs : gset (list Z)) (k : K) : K * option (gset (list Z) * list WifiOut) :=
  match p2p_peers k with
  | (k, Some (Ok peers)) => connect_all peers seen_macs k
  | (k, Some _) => (k, Some (seen_macs, []))
  | (k, None) => (k, None)
  end.

(** [n] ticks of the interval, two seconds apart. *)
Fixpoint wifi_ticks (n : nat) (seen_macs : gset (list Z)) (k : K) : K * option (gset (list Z) * list WifiOut) :=
  match n with
  | O => (k, Some (seen_macs, []))
  | S n =>
    match poll_and_connect seen_macs k with
    | (k, Some (seen_macs, outs)) =>
      match wifi_ticks n seen_macs (sleep_ms 2000 k) with
      | (k, Some (seen_macs, more)) => (k, Some (seen_macs, outs ++ more))
      | (k, None) => (k, None)
      end
    | (k, None) => (k, None)
    end
  end.
Definition wifi_run (n : nat) (k : K) : K * option (list WifiOut) :=
  match p2p_find k with
  | (k, Some (Ok _)) => match wifi_ticks n ∅ k with (k, Some (_, outs)) => (k, Some outs) | (k, None) => (k, None) end
  | (k, Some _) => (k, Some [])
  | (k, None) => (k, None)
  end.
End Discovery.

(** ** Lemmas: waiting ends *)
Section Waiting.
Context `{WifiClock K}.
Variable ctrl : WpaCliController.

Definition forward {A} (look : K → K * option A) : Prop := ∀ k, now_ms k <= now_ms (look k).1.
Definition ends {A} (m : W A) : Prop := ∀ k, now_ms k <= now_ms (m k).1 ∧ (m k).2 ≠ None.

Lemma poll_until_ends {A} fuel (look : K → K * option A) period deadline k :
  forward look → 0 <= period → deadline <= now_ms k + Z.of_nat fuel * period →
  now_ms k <= now_ms (poll_until (S fuel) look period deadline k).1 ∧ (poll_until (S fuel) look period deadline k).2 ≠ None.
Proof.
  intros Hl Hp. revert k. induction fuel as [|fuel IH]; intros k Hd; cbn [poll_until].
  - specialize (Hl k). destruct (look k) as [k' [a|]]; cbn in *; [done|]. rewrite (proj2 (Z.leb_le _ _)) by lia. done.
  - specialize (Hl k). destruct (look k) as [k' [a|]]; cbn [fst] in *; [done|]. destruct (deadline <=? now_ms k'); [done|].
    pose proof (sleep_law period k'). destruct (IH (sleep_ms period k')) as [Hn He]; [lia|]. cbn [poll_until] in Hn, He. split; [lia|done].
Qed.
Lemma wait_for_ends {A} timeout period (look : K → K * option A) k : forward look → 0 < period → 0 <= timeout →
  now_ms k <= now_ms (wait_for timeout period look k).1 ∧ (wait_for timeout period look k).2 ≠ None.
Proof.
  intros Hl Hp Ht. unfold wait_for, turns. rewrite Nat.add_succ_r. apply poll_until_ends; [done|lia|].
  pose proof (Z.mod_pos_bound timeout period). pose proof (Z.div_mod timeout period). pose proof (Z.div_pos timeout period).
  rewrite Nat2Z.inj_add, Z2Nat.id by lia. nia.
Qed.

Lemma wret_ends {A} (a : A) : ends (wret a).
Proof. intros k. by split. Qed.
Lemma wfail_ends {A} e : ends (A := A) (wfail e).
Proof. intros k. by split. Qed.
Lemma wbind_ends {A B} (m : W A) (f : A → W B) : ends m → (∀ a, ends (f a)) → ends (wbind m f).
Proof.
  intros Hm Hf k. unfold wbind. specialize (Hm k). destruct (m k) as [k' [[a|e|]|]]; cbn in *; try (by destruct Hm).
  destruct (Hf a k'). split; [lia|done].
Qed.
Lemma found_forward {A B} (m : W A) (f : A → option B) : ends m → forward (found m f).
Proof. intros Hm k. unfold found. destruct (Hm k) as [? _]. by destruct (m k) as [k' [[]|]]. Qed.
Lemma run_cmd_ends args : ends (run_cmd ctrl args).
Proof. intros k. unfold run_cmd. pose proof (wpa_cli_law k ([wc_wpa_cli_bin ctrl; str "-i"; wc_interface ctrl] ++ args)). by destruct (wpa_cli k _) as [k' []]. Qed.
Lemma ok_cmd_ends args : ends (ok_cmd ctrl args).
Proof. apply wbind_ends; [apply run_cmd_ends|]. intros out. case_match; [apply wret_ends|apply wfail_ends]. Qed.
Lemma list_interfaces_ends : ends (list_interfaces ctrl).
Proof. apply wbind_ends; [apply run_cmd_ends|intros; apply wret_ends]. Qed.
Lemma p2p_peers_ends : ends (p2p_peers ctrl).
Proof. apply wbind_ends; [apply run_cmd_ends|intros; apply wret_ends]. Qed.
Lemma iface_ipv4_ends iface : ends (iface_ipv4 iface).
Proof. intros k. unfold iface_ipv4. pose proof (ip_addr_law k iface). by destruct (ip_addr_show k iface) as [k' []]. Qed.
Lemma arp_peers_ends iface : ends (arp_peers_on_iface iface).
Proof. intros k. unfold arp_peers_on_iface. pose proof (arp_law k). by destruct (proc_net_arp k) as [k' []]. Qed.
Lemma wait_for_group_iface_ends timeout : 0 <= timeout → ends (wait_for_group_iface ctrl timeout).
Proof.
  intros Ht k. unfold wait_for_group_iface.
  destruct (wait_for_ends timeout 500 (found (list_interfaces ctrl) (List.find (starts_with (str "p2p-")))) k) as [Hn He];
    [apply found_forward, list_interfaces_ends|lia|done|]. by destruct (wait_for timeout 500 _ k) as [k' [[]|]].
Qed.
Lemma wait_for_iface_ip_ends iface timeout : 0 <= timeout → ends (wait_for_iface_ip iface timeout).
Proof.
  intros Ht k. unfold wait_for_iface_ip.
  destruct (wait_for_ends timeout 500 (found (iface_ipv4 iface) id) k) as [Hn He];
    [apply found_forward, iface_ipv4_ends|lia|done|]. by destruct (wait_for timeout 500 _ k) as [k' [[]|]].
Qed.
Lemma poll_arp_ends iface timeout : 0 <= timeout → ends (poll_arp_for_peer iface timeout).
Proof.
  intros Ht k. unfold poll_arp_for_peer.
  destruct (wait_for_ends timeout 1000 (found (arp_peers_on_iface iface) head) k) as [Hn He];
    [apply found_forward, arp_peers_ends|lia|done|]. by destruct (wait_for timeout 1000 _ k) as [k' []].
Qed.
Lemma from_iface_ends iface role timeout : 0 <= timeout → ends (from_iface iface role timeout).
Proof.
  intros Ht. apply wbind_ends; [by apply wait_for_iface_ip_ends|]. intros own. apply wbind_ends; [|intros; apply wret_ends].
  destruct role; [by apply poll_arp_ends|apply wret_ends].
Qed.
Lemma connect_and_emit_ends config port mac : ends (connect_and_emit ctrl config port mac).
Proof.
  apply wbind_ends. { unfold p2p_connect. repeat case_match; apply ok_cmd_ends. } intros _.
  apply wbind_ends; [by apply wait_for_group_iface_ends|]. intros iface. apply wbind_ends; [by apply from_iface_ends|]. intros g.
  apply wbind_ends. { case_match; [by apply from_iface_ends|apply wret_ends]. } intros g'. case_match; [|apply wfail_ends].
  intros k. cbn. split; [|done]. apply (ok_cmd_ends [str "p2p_stop_find"] k).
Qed.
Lemma connect_all_ends config port macs seen k : (connect_all ctrl config port macs seen k).2 ≠ None.
Proof.
  revert seen k. induction macs as [|mac macs IH]; intros seen k; cbn; [done|]. case_bool_decide; [apply IH|].
  destruct (connect_and_emit_ends config port mac k) as [_ He]. destruct (connect_and_emit _ _ _ _ k) as [k' [r|]]; [|done].
  specialize (IH ({[mac]} ∪ seen) k'). by destruct (connect_all _ _ _ _ _ k') as [k2 [[]|]].
Qed.
Lemma wifi_ticks_ends config port n seen k : (wifi_ticks ctrl config port n seen k).2 ≠ None.
Proof.
  revert seen k. induction n as [|n IH]; intros seen k; cbn; [done|].
  assert ((poll_and_connect ctrl config port seen k).2 ≠ None) as Hp.
  { unfold poll_and_connect. destruct (p2p_peers_ends k) as [_ He]. destruct (p2p_peers ctrl k) as [k' [[]|]]; [apply connect_all_ends|done..]. }
  destruct (poll_and_connect _ _ _ _ k) as [k' [[seen' outs]|]]; [|done].
  specialize (IH seen' (sleep_ms 2000 k')). by destruct (wifi_ticks _ _ _ _ _ _) as [k2 [[]|]].
Qed.
End Waiting.

(** ** Lemmas: what was found *)
Section Found.
Context `{WifiOs K}.
Variable ctrl : WpaCliController.

Lemma poll_until_found {A} fuel (look : K → K * option A) period deadline k k' a :
  poll_until fuel look period deadline k = (k', Some (Some a)) → ∃ k0, (look k0).2 = Some a.
Proof.
  revert k. induction fuel as [|fuel IH]; intros k; cbn; [done|]. destruct (look k) as [k1 [b|]] eqn:E.
  - intros [= _ <-]. exists k. by rewrite E.
  - case_match; [done|]. apply IH.
Qed.
Lemma found_Some {A B} (m : W A) (f : A → option B) (k : K) b : (found m f k).2 = Some b → ∃ a, (m k).2 = Some (Ok a) ∧ f a = Some b.
Proof. unfold found. destruct (m k) as [k' [[a|e|]|]]; cbn; try done. eauto. Qed.
Lemma wbind_Ok {A B} (m : W A) (f : A → W B) (k : K) k' b : wbind m f k = (k', Some (Ok b)) → ∃ k1 a, m k = (k1, Some (Ok a)) ∧ f a k1 = (k', Some (Ok b)).
Proof. unfold wbind. destruct (m k) as [k1 [[a|e|]|]]; intros E; try done. eauto. Qed.

Definition shows_addr (iface : list Z) (own : Z) : Prop := ∃ k text, (ip_addr_show k iface).2 = Some text ∧ parse_inet_addr text = Some own.
Definition shows_neighbour (iface : list Z) (ip : Z) : Prop := ∃ k content, (proc_net_arp k).2 = Some content ∧ ip ∈ parse_arp_table content iface.

Lemma group_iface_found timeout k k' iface : wait_for_group_iface ctrl timeout k = (k', Some (Ok iface)) → starts_with (str "p2p-") iface = true.
Proof.
  unfold wait_for_group_iface. destruct (wait_for _ _ _ k) as [k1 [[i|]|]] eqn:E; intros [= <- <-].
  apply poll_until_found in E as (k0 & (l & _ & Hf)%found_Some). by apply find_some in Hf as [_ ?].
Qed.
Lemma iface_ip_found iface timeout k k' own : wait_for_iface_ip iface timeout k = (k', Some (Ok own)) → shows_addr iface own.
Proof.
  unfold wait_for_iface_ip. destruct (wait_for _ _ _ k) as [k1 [[i|]|]] eqn:E; intros [= <- <-].
  apply poll_until_found in E as (k0 & (l & Hl & Hf)%found_Some). cbn in Hf. subst l. exists k0. unfold iface_ipv4 in Hl.
  destruct (ip_addr_show k0 iface) as [k2 [text|]]; [|done]. cbn in Hl. exists text. split; [done|]. congruence.
Qed.
Lemma arp_found iface timeout k k' ip : poll_arp_for_peer iface timeout k = (k', Some (Ok (Some ip))) → shows_neighbour iface ip.
Proof.
  unfold poll_arp_for_peer. destruct (wait_for _ _ _ k) as [k1 [r|]] eqn:E; intros [= <- ->].
  apply poll_until_found in E as (k0 & (l & Hl & Hf)%found_Some). exists k0. unfold arp_peers_on_iface in Hl.
  destruct (proc_net_arp k0) as [k2 [content|]]; [|done]. cbn in Hl. exists content. split; [done|]. injection Hl as <-.
  destruct (parse_arp_table content iface); [done|]. injection Hf as ->. by left.
Qed.
Lemma from_iface_found iface role timeout k k' g : from_iface iface role timeout k = (k', Some (Ok g)) →
  shows_addr iface (wg_own_ip g) ∧
  match role with Gc => wg_peer_ip g = Some GO_INTERFACE_IP | Go => ∀ ip, wg_peer_ip g = Some ip → shows_neighbour iface ip end.
Proof.
  unfold from_iface. intros (k1 & own & Hown & (k2 & peer & Hp & [= _ <-])%wbind_Ok)%wbind_Ok. cbn.
  split; [by eapply iface_ip_found|]. destruct role; [|by injection Hp as _ <-]. intros ip ->. by eapply arp_found.
Qed.

(** What the daemon is told to dial for a group: the group's owner when the own
    address is another, and an address that the kernel sees on the group's
    interface when the own address is the owner's. *)
Definition is_peer (ip : Z) : Prop := ∃ iface own,
  starts_with (str "p2p-") iface = true ∧ shows_addr iface own ∧
  (own ≠ GO_INTERFACE_IP ∧ ip = GO_INTERFACE_IP ∨ own = GO_INTERFACE_IP ∧ shows_neighbour iface ip) ∧
  (¬ shows_neighbour iface own → ip ≠ own).
Lemma connect_and_emit_found config port mac k k' outs : connect_and_emit ctrl config port mac k = (k', Some (Ok outs)) →
  ∃ ip, outs = [WfdGroup mac; WfdPeer (ip, port)] ∧ is_peer ip.
Proof.
  unfold connect_and_emit. intros (k1 & _ & _ & H1)%wbind_Ok. apply wbind_Ok in H1 as (k2 & iface & Hi%group_iface_found & H2).
  apply wbind_Ok in H2 as (k3 & g & Hg%from_iface_found & H3). destruct Hg as [Hown Hpeer].
  apply wbind_Ok in H3 as (k4 & g' & Hg' & H4). destruct (wg_peer_ip g') as [ip|] eqn:Ep; [|done]. injection H4 as _ <-.
  exists ip. split; [done|]. exists iface, (wg_own_ip g). split_and!; [done|done|..].
  all: destruct (Z.eqb_spec (wg_own_ip g) GO_INTERFACE_IP) as [Ego|Ego].
  - apply from_iface_found in Hg' as [_ Hn]. right. split; [done|]. by apply Hn.
  - injection Hg' as _ <-. left. split; [done|]. congruence.
  - apply from_iface_found in Hg' as [_ Hn]. intros Hno ->. by apply Hno, Hn.
  - injection Hg' as _ <-. intros _ ->. congruence.
Qed.

(** Devices in the order they were found. *)
Definition seen_of (o : WifiOut) : option (list Z) := match o with WfdSeen mac => Some mac | _ => None end.
Definition group_of (o : WifiOut) : option (list Z) := match o with WfdGroup mac => Some mac | _ => None end.

Lemma connect_outs config port mac k k' l : connect_and_emit ctrl config port mac k = (k', Some (Ok l)) →
  omap seen_of l = [] ∧ omap group_of l = [mac].
Proof. intros (ip & -> & _)%connect_and_emit_found. done. Qed.

Lemma connect_all_once config port macs seen k k' seen' outs :
  connect_all ctrl config port macs seen k = (k', Some (seen', outs)) →
  NoDup (omap seen_of outs) ∧ (∀ mac, mac ∈ seen' ↔ mac ∈ seen ∨ mac ∈ omap seen_of outs) ∧
  (∀ mac, mac ∈ omap seen_of outs → mac ∉ seen) ∧ (∀ mac, mac ∈ omap group_of outs → mac ∈ omap seen_of outs).
Proof.
  revert seen k outs. induction macs as [|mac macs IH]; intros seen k outs; cbn [connect_all].
  { intros [= <- <- <-]. split_and!; [constructor|set_solver..]. }
  case_bool_decide as Hs; [apply IH|]. destruct (connect_and_emit ctrl config port mac k) as [k1 [r|]] eqn:Ec; [|done].
  destruct (connect_all ctrl config port macs ({[mac]} ∪ seen) k1) as [k2 [[seen2 outs2]|]] eqn:Ea; [|done]. intros [= <- <- <-].
  destruct (IH _ _ _ Ea) as (Hnd & Hseen & Hnew & Hg).
  assert (Hr : omap seen_of (match r with Ok l => l | _ => [] end) = [] ∧ ∀ m, m ∈ omap group_of (match r with Ok l => l | _ => [] end) → m = mac).
  { destruct r as [l|e|]; [|split; [done|set_solver]..]. destruct (connect_outs _ _ _ _ _ _ Ec) as [-> ->]. split; [done|set_solver]. }
  destruct Hr as [Hr1 Hr2]. cbn [omap list_omap seen_of group_of]. rewrite !omap_app, Hr1. cbn [app]. split_and!.
  - constructor; [|done]. intros Hin%Hnew. set_solver.
  - set_solver.
  - set_solver.
  - set_solver.
Qed.

Lemma wifi_ticks_once config port n seen k k' seen' outs :
  wifi_ticks ctrl config port n seen k = (k', Some (seen', outs)) →
  NoDup (omap seen_of outs) ∧ (∀ mac, mac ∈ omap seen_of outs → mac ∉ seen) ∧ (∀ mac, mac ∈ omap group_of outs → mac ∈ omap seen_of outs).
Proof.
  revert seen k outs. induction n as [|n IH]; intros seen k outs; cbn [wifi_ticks]. { intros [= <- <- <-]. split_and!; [constructor|set_solver..]. }
  unfold poll_and_connect. destruct (p2p_peers ctrl k) as [k1 [[peers|e|]|]].
  2,3: destruct (wifi_ticks ctrl config port n seen (sleep_ms 2000 k1)) as [k2 [[s2 o2]|]] eqn:Et; [|done]; intros [= <- <- <-]; apply (IH _ _ _ Et).
  2: done.
  destruct (connect_all ctrl config port peers seen k1) as [k2 [[s2 o2]|]] eqn:Ec; [|done].
  destruct (wifi_ticks ctrl config port n s2 (sleep_ms 2000 k2)) as [k3 [[s3 o3]|]] eqn:Et; [|done]. intros [= <- <- <-].
  destruct (connect_all_once _ _ _ _ _ _ _ _ Ec) as (H1 & H2 & H3 & H4), (IH _ _ _ Et) as (T1 & T2 & T3).
  rewrite !omap_app. split_and!; [|set_solver..]. apply NoDup_app. split_and!; [done| |done]. intros mac Hm Hm'. apply (T2 mac Hm'). set_solver.
Qed.

Definition out_ok (port : Z) (o : WifiOut) : Prop := match o with WfdPeer (ip, p) => p = port ∧ is_peer ip | _ => True end.
Lemma connect_all_ok config port macs seen k k' seen' outs :
  connect_all ctrl config port macs seen k = (k', Some (seen', outs)) → Forall (out_ok port) outs.
Proof.
  revert seen k outs. induction macs as [|mac macs IH]; intros seen k outs; cbn [connect_all]; [by intros [= <- <- <-]|].
  case_bool_decide; [apply IH|]. destruct (connect_and_emit ctrl config port mac k) as [k1 [r|]] eqn:Ec; [|done].
  destruct (connect_all ctrl config port macs ({[mac]} ∪ seen) k1) as [k2 [[seen2 outs2]|]] eqn:Ea; [|done]. intros [= <- <- <-].
  constructor; [done|]. apply Forall_app. split; [|by eapply IH]. destruct r as [l|e|]; [|done..].
  destruct (connect_and_emit_found _ _ _ _ _ _ Ec) as (ip & -> & Hp). by repeat constructor.
Qed.
Lemma wifi_ticks_ok config port n seen k k' seen' outs :
  wifi_ticks ctrl config port n seen k = (k', Some (seen', outs)) → Forall (out_ok port) outs.
Proof.
  revert seen k outs. induction n as [|n IH]; intros seen k outs; cbn [wifi_ticks]; [by intros [= <- <- <-]|].
  assert (∀ k1 s1 o1, poll_and_connect ctrl config port seen k = (k1, Some (s1, o1)) → Forall (out_ok port) o1) as Hp.
  { unfold poll_and_connect. intros k1 s1 o1. destruct (p2p_peers ctrl k) as [k0 [[peers|e|]|]]; intros E; [by eapply connect_all_ok|..];
      injection E as <- <- <- || idtac; done. }
  destruct (poll_and_connect ctrl config port seen k) as [k1 [[s1 o1]|]]; [|done].
  destruct (wifi_ticks ctrl config port n s1 (sleep_ms 2000 k1)) as [k3 [[s3 o3]|]] eqn:Et; [|done]. intros [= <- <- <-].
  apply Forall_app. split; [by eapply Hp|by eapply IH].
Qed.
End Found.

(** ** Theorems *)
(** the discovery loop, for any number of ticks and whatever the commands
    answer: every wait in it ends, it announces and tries each device once, forms
    groups only with devices it announced, and hands the daemon only addresses
    of peers under the daemon's port: the owner's if another address is the own
    one, a neighbour on the group's interface if the own address is the
    owner's, never the own one unless the kernel lists it as a neighbour. *)
Theorem wifi_discovery `{WifiClock K} ctrl config port n (k : K) :
  ∃ outs, (wifi_run ctrl config port n k).2 = Some outs ∧
    NoDup (omap seen_of outs) ∧ (∀ mac, mac ∈ omap group_of outs → mac ∈ omap seen_of outs) ∧ Forall (out_ok port) outs.
Proof.
  unfold wifi_run. destruct (ok_cmd_ends ctrl [str "p2p_find"] k) as [_ Hf]. unfold p2p_find.
  destruct (ok_cmd ctrl [str "p2p_find"] k) as [k1 [[u|e|]|]]; [|exists []; cbn; split_and!; [done|constructor|set_solver|done]..|done].
  pose proof (wifi_ticks_ends ctrl config port n ∅ k1) as He. destruct (wifi_ticks ctrl config port n ∅ k1) as [k2 [[s o]|]] eqn:E; [|done].
  exists o. destruct (wifi_ticks_once _ _ _ _ _ _ _ _ _ E) as (H1 & _ & H3). split_and!; [done|done|done|by eapply wifi_ticks_ok].
Qed.

(** Rows of the kernel's table of neighbours. *)
Record ArpRow := MkArp { ar_ip : Z; ar_hw : list Z; ar_flags : list Z; ar_mac : list Z; ar_mask : list Z; ar_device : list Z }.
Definition arp_row (r : ArpRow) : list Z :=
  join (replicate 5 32) [fmt_ipv4 (ar_ip r); ar_hw r; ar_flags r; ar_mac r; ar_mask r; ar_device r].
Definition arp_row_ok (r : ArpRow) : Prop := u32_ok (ar_ip r) ∧ Forall word_ok [ar_hw r; ar_flags r; ar_mac r; ar_mask r; ar_device r].

(** the kernel's table of neighbours is read as it is printed: the addresses of
    the rows of the interface, in their order. *)
Theorem arp_table_read header rows iface : line_ok header → Forall arp_row_ok rows →
  parse_arp_table (unlines (header :: map arp_row rows)) iface = ar_ip <$> filter (λ r, ar_device r = iface) rows.
Proof.
  intros Hh Hr. assert (Hw : ∀ r, arp_row_ok r → Forall word_ok [fmt_ipv4 (ar_ip r); ar_hw r; ar_flags r; ar_mac r; ar_mask r; ar_device r]).
  { intros r [Hip Hws]. constructor; [apply addr_text_word, fmt_ipv4_text|done]. }
  unfold parse_arp_table. rewrite lines_unlines. 2:{ constructor; [done|]. apply Forall_map. eapply Forall_impl; [exact Hr|].
    intros r Hok%Hw. by apply join_line. }
  cbn [drop]. rewrite drop_0. induction Hr as [|r rows Hok _ IH]; [done|]. rewrite filter_cons. cbn [map]. cbn [omap list_omap].
  assert (parse_arp_line iface (arp_row r) = if bool_decide (ar_device r = iface) then Some (ar_ip r) else None) as ->.
  { unfold parse_arp_line, arp_row. rewrite (split_whitespace_join 4) by (by apply Hw). destruct Hok as [Hip _].
    by rewrite (proj1 (fmt_ipv4_spec (ar_ip r) Hip)). }
  rewrite IH. case_bool_decide; case_decide; done.
Qed.

(** ** A system with fixed answers *)
Record FakeWifi := MkFakeWifi { fw_now : Z; fw_interfaces : list Z; fw_peers : list Z; fw_addr : list Z; fw_arp : list Z }.
#[export] Instance fake_wifi : WifiOs FakeWifi := {|
  wpa_cli k args :=
    (k, Some (if bool_decide (last args = Some (str "interface")) then fw_interfaces k
              else if bool_decide (last args = Some (str "p2p_peers")) then fw_peers k else str "OK"));
  ip_addr_show k iface := (k, Some (fw_addr k));
  proc_net_arp k := (k, Some (fw_arp k));
  now_ms := fw_now;
  sleep_ms d k := MkFakeWifi (fw_now k + d) (fw_interfaces k) (fw_peers k) (fw_addr k) (fw_arp k);
|}.
#[export] Instance fake_wifi_clock : WifiClock (K := FakeWifi).
Proof. split; intros; cbn; lia. Qed.

Definition sample_wifi (own : list Z) (ifaces : list (list Z)) : FakeWifi :=
  MkFakeWifi 0 (unlines (str "Available interfaces:" :: ifaces)) (unlines [str "aa:bb:cc:dd:ee:ff"])
    (unlines [str "5: p2p-wlan0-0: <UP>"; str "    inet " ++ own ++ str "/24 brd 192.168.49.255"])
    (unlines [str "IP address HW type Flags HW address Mask Device"; str "192.168.49.20    0x1         0x2         aa:bb:cc:dd:ee:ff     *        p2p-wlan0-0"]).
Definition sample_wifi_run (own : list Z) (ifaces : list (list Z)) : option (list WifiOut) :=
  (wifi_run (WpaCliController_new (str "wlan0")) WifiDirectConfig_default 9100 3 (sample_wifi own ifaces)).2.

(** A client dials the owner, the owner the client. *)
Example wifi_client_dials : sample_wifi_run (str "192.168.49.20") [str "wlan0"; str "p2p-wlan0-0"] =
  Some [WfdSeen (str "aa:bb:cc:dd:ee:ff"); WfdGroup (str "aa:bb:cc:dd:ee:ff"); WfdPeer (GO_INTERFACE_IP, 9100)].
Proof. by vm_compute. Qed.
Example wifi_owner_dials : sample_wifi_run (str "192.168.49.1") [str "wlan0"; str "p2p-wlan0-0"] =
  Some [WfdSeen (str "aa:bb:cc:dd:ee:ff"); WfdGroup (str "aa:bb:cc:dd:ee:ff"); WfdPeer (be_value [192; 168; 49; 20], 9100)].
Proof. by vm_compute. Qed.

Lemma wifi_discovery_witness : WifiClock (K := FakeWifi) ∧
  ∃ outs, sample_wifi_run (str "192.168.49.1") [str "wlan0"; str "p2p-wlan0-0"] = Some outs ∧ NoDup (omap seen_of outs).
Proof.
  split; [apply fake_wifi_clock|]. unfold sample_wifi_run.
  destruct (wifi_discovery (WpaCliController_new (str "wlan0")) WifiDirectConfig_default 9100 3 (sample_wifi (str "192.168.49.1") [str "wlan0"; str "p2p-wlan0-0"]))
    as (outs & Ho & Hn & _). exists outs. split; [exact Ho|exact Hn].
Defined.

Definition sample_arp_row : ArpRow := MkArp (be_value [192; 168; 49; 20]) (str "0x1") (str "0x2") (str "aa:bb:cc:dd:ee:ff") (str "*") (str "p2p-wlan0-0").
Lemma arp_table_read_witness :
  parse_arp_table (unlines (str "IP address HW type" :: map arp_row [sample_arp_row])) (str "p2p-wlan0-0") = [be_value [192; 168; 49; 20]].
Proof.
  rewrite (arp_table_read (str "IP address HW type") [sample_arp_row] (str "p2p-wlan0-0")); [by vm_compute|..].
  - unfold line_ok. by apply (bool_decide_unpack _); vm_compute.
  - constructor; [|done]. unfold arp_row_ok, word_ok, graph, u32_ok. by apply (bool_decide_unpack _); vm_compute.
Defined.

(** A device that fails is not tried again: its address is in the table of seen
    ones from before the attempt. *)
Example wifi_failure_is_final : sample_wifi_run (str "none") [str "wlan0"; str "p2p-wlan0-0"] = Some [WfdSeen (str "aa:bb:cc:dd:ee:ff")].
Proof. by vm_compute. Qed.
