(* ===== verification/PanSupport.v ===== *)
(** * Bluetooth PAN: reading the host (crates/pim-bluetooth/src/support.rs)

    The pure part of the PAN service: which interfaces to use, the subnet and
    the DHCP range of the access point, and the listings of [ip], [arp],
    [bluetoothctl] and [blueutil].  Upper case is that of ASCII, which Bluetooth
    addresses are. *)

From S2P Require Import Prelude Core MeshAddress Text Ipv6Text.

(** ** Interfaces *)
Definition is_ready_operstate (state : list Z) : bool := bool_decide (trim state ∈ [str "up"; str "unknown"]).
Record PanInterfaceCandidate := MkCandidate { pc_name : list Z; pc_operstate : option (list Z) }.
Inductive PanSource := Configured | NapBridge | DynamicBnep | DynamicEnx.
Record ResolvedPanInterface := MkResolved { rp_name : list Z; rp_source : PanSource }.
#[export] Instance PanSource_eq_dec : EqDecision PanSource.
Proof. solve_decision. Defined.
#[export] Instance ResolvedPanInterface_eq_dec : EqDecision ResolvedPanInterface.
Proof. solve_decision. Defined.

Definition preferred_interface_hint (interface : list Z) : option (list Z) :=
  let interface := trim interface in
  if bool_decide (interface ≠ [] ∧ interface ≠ str "auto") then Some interface else None.
Definition candidate_is_ready (c : PanInterfaceCandidate) : bool :=
  match pc_operstate c with Some state => is_ready_operstate state | None => false end.
Definition select_pan_interfaces (candidates : list PanInterfaceCandidate) (preferred nap_bridge : option (list Z)) : list ResolvedPanInterface :=
  let nap_bridge := nap_bridge ≫= preferred_interface_hint in
  let configured :=
    preferred ≫= λ p, head (filter (λ c, p = pc_name c ∧ candidate_is_ready c = true) candidates) in
  match configured with
  | Some c => [MkResolved (pc_name c) Configured]
  | None =>
    omap (λ c, if bool_decide (nap_bridge = Some (pc_name c)) then Some (MkResolved (pc_name c) NapBridge) else None) candidates ++
    omap (λ c,
      if starts_with (str "bnep") (pc_name c) && candidate_is_ready c then Some (MkResolved (pc_name c) DynamicBnep)
      else if starts_with (str "enx") (pc_name c) && candidate_is_ready c then Some (MkResolved (pc_name c) DynamicEnx)
      else None) candidates
  end.

(** ** The subnet of the access point *)
Inductive CidrTextError := NoSlash | BadAddress | BadPrefix | PrefixRange.
Definition parse_ipv4_cidr (cidr : list Z) : outcome CidrTextError (Z * Z) :=
  let? (addr_str, prefix_str) := ok_or (split_once 47 (trim cidr)) NoSlash in
  let? addr := ok_or (parse_ipv4 addr_str) BadAddress in
  let? prefix := ok_or (from_str_radix_u8 prefix_str 10) BadPrefix in
  if 32 <? prefix then Err PrefixRange else Ok (addr, prefix).

Definition subnet_network (addr prefix : Z) : Z * Z :=
  let mask := if prefix =? 0 then 0 else Z.shiftl u32_max (32 - prefix) mod 2 ^ 32 in
  (Z.land addr mask, mask).

Definition sat_add_u32 (a b : Z) : Z := Z.min (a + b) u32_max.
Definition sat_sub_u32 (a b : Z) : Z := Z.max (a - b) 0.
(** Start and end; [dhcp_range_text] prints them. *)
Definition dhcp_range_bounds (gateway prefix : Z) : option (Z * Z) :=
  if 31 <=? prefix then None else
  let '(network, mask) := subnet_network gateway prefix in
  let broadcast := Z.lor network (not_u32 mask) in
  let '(s, e) := (sat_add_u32 network 10, sat_sub_u32 broadcast 10) in
  let '(s, e) := if e <=? s then (sat_add_u32 network 2, sat_sub_u32 broadcast 1) else (s, e) in
  if e <=? s then None else
  let s := if s =? gateway then sat_add_u32 s 1 else s in
  let e := if e =? gateway then sat_sub_u32 e 1 else e in
  if e <=? s then None else Some (s, e).
Definition default_dhcp_range (gateway prefix : Z) : option (list Z) :=
  (λ p, fmt_ipv4 p.1 ++ 44 :: fmt_ipv4 p.2) <$> dhcp_range_bounds gateway prefix.

(** ** Neighbours *)
Inductive PanAddr :=
| PanV4 (ip port : Z)
| PanV6 (ip port scope_id : Z).
#[export] Instance PanAddr_eq_dec : EqDecision PanAddr.
Proof. solve_decision. Defined.
#[export] Instance PanAddr_countable : Countable PanAddr.
Proof.
  refine (inj_countable' (λ a, match a with PanV4 i p => inl (i, p) | PanV6 i p s => inr (i, p, s) end)
    (λ x, match x with inl (i, p) => PanV4 i p | inr (i, p, s) => PanV6 i p s end) _). by intros [].
Defined.

Inductive IpAddr := IpV4 (ip : Z) | IpV6 (ip : Z).
Definition parse_ip (s : list Z) : option IpAddr :=
  match parse_ipv4 s with Some ip => Some (IpV4 ip) | None => IpV6 <$> parse_ipv6 s end.
Definition is_unicast_link_local (ip : Z) : bool := Z.land (Z.shiftr ip 112) 0xffc0 =? 0xfe80.
Definition neighbor_addr (ip : IpAddr) (port : Z) (scope_id : option Z) : PanAddr :=
  match ip with
  | IpV4 ip => PanV4 ip port
  | IpV6 ip => if is_unicast_link_local ip then PanV6 ip port (default 0 scope_id) else PanV6 ip port 0
  end.
Definition neighbor_line (port : Z) (scope_id : option Z) (line : list Z) : option PanAddr :=
  let line := trim line in
  if bool_decide (line = []) || contains (str "FAILED") line || contains (str "INCOMPLETE") line then None else
  first ← head (split_whitespace line);
  ip ← parse_ip first;
  Some (neighbor_addr ip port scope_id).
(** Each address once, where it stands first. *)
Fixpoint dedup (seen : gset PanAddr) (l : list PanAddr) : list PanAddr :=
  match l with
  | [] => []
  | a :: l => if bool_decide (a ∈ seen) then dedup seen l else a :: dedup ({[a]} ∪ seen) l
  end.
Definition parse_neighbor_output (output : list Z) (listen_port : Z) (ipv6_scope_id : option Z) : list PanAddr :=
  dedup ∅ (omap (neighbor_line listen_port ipv6_scope_id) (lines output)).

Definition arp_line (interface : list Z) (port : Z) (line : list Z) : option PanAddr :=
  let line := trim line in
  if bool_decide (line = []) || negb (contains (str " on " ++ interface) line) then None else
  after ← snd <$> split_once 40 line;
  ip_str ← fst <$> split_once 41 after;
  ip ← parse_ip ip_str;
  Some (match ip with IpV4 ip => PanV4 ip port | IpV6 ip => PanV6 ip port 0 end).
Definition parse_arp_output (output interface : list Z) (listen_port : Z) : list PanAddr :=
  dedup ∅ (omap (arp_line interface listen_port) (lines output)).

(** ** Devices *)
Record DiscoveredDevice := MkDevice { dd_mac : list Z; dd_name : list Z }.
(** The own controller is known by its address, or else by its name. *)
Definition is_self (mac name local_alias : list Z) (local_mac : option (list Z)) : bool :=
  match local_mac with
  | Some self_mac => eq_ignore_ascii_case mac self_mac
  | None => bool_decide (name = local_alias)
  end.
Definition device_line (prefix local_alias : list Z) (local_mac : option (list Z)) (line : list Z) : option DiscoveredDevice :=
  rest ← strip_prefix (str "Device ") (trim line);
  '(mac, name) ← split_once 32 rest;
  if starts_with prefix name && negb (is_self mac name local_alias local_mac) then Some (MkDevice mac name) else None.
Definition parse_devices_output (output prefix local_alias : list Z) (local_mac : option (list Z)) : list DiscoveredDevice :=
  omap (device_line prefix local_alias local_mac) (lines output).

Fixpoint controller_lines (ls : list (list Z)) : option (list Z) :=
  match ls with
  | [] => None
  | line :: ls =>
    match strip_prefix (str "Controller ") (trim line) with
    | None => controller_lines ls
    | Some rest =>
      match split_whitespace rest with
      | [] => None
      | mac :: _ => if bool_decide (length (split_on 58 mac) = 6%nat ∧ length mac = 17%nat) then Some mac else controller_lines ls
      end
    end
  end.
Definition parse_controller_mac (output : list Z) : option (list Z) := controller_lines (lines output).

Fixpoint after_sub (pat s : list Z) : option (list Z) :=
  match strip_prefix pat s with
  | Some rest => Some rest
  | None => match s with [] => None | _ :: s => after_sub pat s end
  end.
Definition to_ascii_uppercase (s : list Z) : list Z := map (λ b, if in_range 97 122 b then b - 32 else b) s.
Definition blueutil_line (prefix local_alias : list Z) (local_mac : option (list Z)) (line : list Z) : option DiscoveredDevice :=
  address_part ← strip_prefix (str "address: ") (trim line);
  '(mac, rest) ← split_once 44 address_part;
  name_value ← after_sub (str "name: " ++ [34]) rest;
  '(name, _) ← split_once 34 name_value;
  let normalised_mac := to_ascii_uppercase (map (λ b, if b =? 45 then 58 else b) (trim mac)) in
  if starts_with prefix name && negb (is_self normalised_mac name local_alias local_mac) then Some (MkDevice normalised_mac name) else None.
Definition parse_blueutil_inquiry_output (output prefix local_alias : list Z) (local_mac : option (list Z)) : list DiscoveredDevice :=
  omap (blueutil_line prefix local_alias local_mac) (lines output).

Definition is_ready_ifconfig_output (output : list Z) : bool :=
  bool_decide (trim output ≠ []) && negb (contains (str "status: inactive") (trim output)).
Definition resolve_macos_pan_interface_hint (interface : list Z) : list Z :=
  if bool_decide (trim interface ∈ [[]; str "auto"]) then str "bridge0" else trim interface.

(** ** Lemmas: the subnet *)
Lemma mask_netmask prefix : 0 <= prefix <= 32 → (if prefix =? 0 then 0 else Z.shiftl u32_max (32 - prefix) mod 2 ^ 32) = ipv4_netmask prefix.
Proof.
  intros Hp. assert (Hall : Forall (λ p, (if p =? 0 then 0 else Z.shiftl u32_max (32 - p) mod 2 ^ 32) = ipv4_netmask p) (seqZ 0 33)) by (by apply (bool_decide_unpack _); vm_compute).
  rewrite Forall_forall in Hall. apply Hall, elem_of_seqZ. lia.
Qed.
Lemma netmask_value prefix : 0 <= prefix <= 32 → not_u32 (ipv4_netmask prefix) = 2 ^ (32 - prefix) - 1.
Proof.
  intros Hp. unfold ipv4_netmask, not_u32, u32_max. destruct (Z.eqb_spec prefix 0) as [->|]; [done|]. destruct (Z.leb_spec 32 prefix).
  - by replace prefix with 32 by lia.
  - rewrite Z.shiftl_1_l. lia.
Qed.
(** The addresses of a subnet: its first one, and how many there are. *)
Definition subnet_first (addr prefix : Z) : Z := addr - addr mod 2 ^ (32 - prefix).
Definition subnet_last (addr prefix : Z) : Z := subnet_first addr prefix + 2 ^ (32 - prefix) - 1.
Lemma subnet_bounds addr prefix : u32_ok addr → 0 <= prefix <= 32 →
  0 <= subnet_first addr prefix <= addr ∧ addr <= subnet_last addr prefix < 2 ^ 32.
Proof.
  unfold u32_ok, subnet_last, subnet_first. intros Ha Hp. assert (Hn : 0 < 2 ^ (32 - prefix)) by lia.
  pose proof (Z.mod_pos_bound addr _ Hn). pose proof (Z.div_mod addr (2 ^ (32 - prefix)) ltac:(lia)) as Hd.
  assert (addr / 2 ^ (32 - prefix) < 2 ^ prefix). { apply Z.div_lt_upper_bound; [done|]. rewrite <- Z.pow_add_r by lia. replace (32 - prefix + prefix) with 32 by lia. lia. }
  assert (2 ^ (32 - prefix) * 2 ^ prefix = 2 ^ 32). { rewrite <- Z.pow_add_r by lia. f_equal. lia. }
  pose proof (Z.mod_le addr (2 ^ (32 - prefix)) ltac:(lia) Hn). split; [lia|].
  set (n := 2 ^ (32 - prefix)) in *. set (m := 2 ^ prefix) in *. set (q := addr / n) in *. set (r := addr mod n) in *. clearbody n m q r.
  split; [lia|]. assert (n * (q + 1) <= n * m) by (apply Z.mul_le_mono_nonneg_l; lia). lia.
Qed.
Lemma subnet_network_spec addr prefix : u32_ok addr → 0 <= prefix <= 32 →
  let '(network, mask) := subnet_network addr prefix in
  network = subnet_first addr prefix ∧ Z.lor network (not_u32 mask) = subnet_last addr prefix.
Proof.
  intros Ha Hp. unfold subnet_network. rewrite mask_netmask by done. rewrite ipv4_netmask_land, netmask_value by (done || (unfold u32_ok in Ha; lia)).
  split; [done|]. unfold subnet_last, subnet_first. set (h := 32 - prefix). assert (Hh : 0 <= h) by lia.
  rewrite <- Z.add_nocarry_lor; [lia|]. rewrite land_ones_mod by done. assert (Hn : 0 < 2 ^ h) by lia.
  rewrite Zminus_mod, Zmod_mod, Z.sub_diag. by apply Z.mod_0_l; lia.
Qed.

(** the DHCP range of the access point exists exactly for subnets of eight
    addresses or more, lies strictly between the network and the broadcast
    address, and neither begins nor ends with the address of the access point. *)
Theorem dhcp_range_sound (gateway prefix : Z) : u32_ok gateway → 0 <= prefix <= 32 →
  match dhcp_range_bounds gateway prefix with
  | None => 29 < prefix
  | Some (s, e) => prefix <= 29 ∧ subnet_first gateway prefix < s < e ∧ e < subnet_last gateway prefix ∧ s ≠ gateway ∧ e ≠ gateway
  end.
Proof.
  intros Hg Hp. unfold dhcp_range_bounds. destruct (Z.leb_spec 31 prefix); [lia|]. pose proof (subnet_network_spec gateway prefix Hg Hp) as Hs.
  destruct (subnet_network gateway prefix) as [network mask]. destruct Hs as [-> ->]. pose proof (subnet_bounds gateway prefix Hg Hp) as [Hf Hl].
  unfold subnet_last in *. set (f := subnet_first gateway prefix) in *. clearbody f. set (n := 2 ^ (32 - prefix)) in *.
  assert (Hn : if 29 <? prefix then n = 4 else n = 8 ∨ n = 16 ∨ 32 <= n).
  { subst n. destruct (Z.ltb_spec 29 prefix); [by replace prefix with 30 by lia|]. destruct (decide (prefix = 29)) as [->|]; [by left|].
    destruct (decide (prefix = 28)) as [->|]; [by right; left|]. right; right. change 32 with (2 ^ 5) at 1. apply Z.pow_le_mono_r; lia. }
  clearbody n. unfold sat_add_u32, sat_sub_u32, u32_max. cbv zeta.
  destruct (Z.ltb_spec 29 prefix), (Z.leb_spec (Z.max (f + n - 1 - 10) 0) (Z.min (f + 10) (2 ^ 32 - 1))); cbv beta iota zeta;
    repeat match goal with |- context [?a =? ?b] => destruct (Z.eqb_spec a b) end;
    repeat match goal with |- context [?a <=? ?b] => destruct (Z.leb_spec a b) end;
    lia.
Qed.

Lemma dhcp_range_sound_witness :
  default_dhcp_range (be_value [10; 44; 0; 1]) 24 = Some (str "10.44.0.10,10.44.0.245") ∧
  match dhcp_range_bounds (be_value [10; 44; 0; 1]) 24 with
  | None => 29 < 24
  | Some (s, e) => 24 <= 29 ∧ subnet_first (be_value [10; 44; 0; 1]) 24 < s < e ∧ e < subnet_last (be_value [10; 44; 0; 1]) 24 ∧
      s ≠ be_value [10; 44; 0; 1] ∧ e ≠ be_value [10; 44; 0; 1]
  end.
Proof. split; [by vm_compute|]. apply (dhcp_range_sound (be_value [10; 44; 0; 1]) 24); [by vm_compute|lia]. Defined.

(** ** Lemmas: addresses of both families *)
Lemma split_once_Some sep s a b : split_once sep s = Some (a, b) → s = a ++ sep :: b.
Proof.
  revert a. induction s as [|c s IH]; intros a; cbn [split_once]; [done|]. destruct (Z.eqb_spec c sep) as [->|]; [by intros [= <- <-]|].
  destruct (split_once sep s) as [[a' b']|]; [|done]. intros [= <- <-]. cbn. f_equal. by apply IH.
Qed.
Definition dotted (b : Z) : Prop := b = 46 ∨ 48 <= b <= 57.
Lemma parse_octet_chars s v : parse_octet s = Some v → Forall dotted s.
Proof.
  unfold parse_octet. destruct (forallb (in_range 48 57) s) eqn:E; [|done]. intros _. apply Forall_forall. intros b Hb. rewrite forallb_forall in E.
  specialize (E b ltac:(by apply list_elem_of_In)). unfold in_range in E. unfold dotted. lia.
Qed.
Lemma parse_ipv4_chars s v : parse_ipv4 s = Some v → Forall dotted s.
Proof.
  unfold parse_ipv4. destruct (split_once 46 s) as [[a s1]|] eqn:E1; [|done]. destruct (split_once 46 s1) as [[b s2]|] eqn:E2; [|done].
  destruct (split_once 46 s2) as [[c d]|] eqn:E3; [|done].
  destruct (parse_octet a) eqn:Ha; [|done]. destruct (parse_octet b) eqn:Hb; [|done]. destruct (parse_octet c) eqn:Hc; [|done]. destruct (parse_octet d) eqn:Hd; [|done].
  intros _. apply split_once_Some in E1 as ->. apply split_once_Some in E2 as ->. apply split_once_Some in E3 as ->.
  assert (dotted 46) by (by left). rewrite !Forall_app, !Forall_cons, !Forall_app, !Forall_cons, !Forall_app, !Forall_cons. split_and!; try done; by eapply parse_octet_chars.
Qed.
Lemma colon_subslice g h l : 58 ∈ fmt_subslice (g :: h :: l).
Proof. rewrite fmt_subslice_cons. apply elem_of_app. right. by left. Qed.
Lemma colon_ipv6 ip : 58 ∈ fmt_ipv6 ip.
Proof.
  unfold fmt_ipv6. destruct (_ =? _); [by left|]. cbv zeta. destruct (_ <? _)%nat; [apply elem_of_app; right; by left|].
  destruct (segments_ok ip) as [_ Hl]. destruct (segments ip) as [|g [|h l]]; [done|done|]. apply colon_subslice.
Qed.
Definition ip_ok (ip : IpAddr) : Prop := match ip with IpV4 ip => u32_ok ip | IpV6 ip => 0 <= ip < 2 ^ 128 end.
Definition fmt_ip (ip : IpAddr) : list Z := match ip with IpV4 ip => fmt_ipv4 ip | IpV6 ip => fmt_ipv6 ip end.
Lemma parse_fmt_ip ip : ip_ok ip → parse_ip (fmt_ip ip) = Some ip.
Proof.
  destruct ip as [ip|ip]; cbn [fmt_ip ip_ok]; intros Hip; unfold parse_ip; [by rewrite (proj1 (fmt_ipv4_spec ip Hip))|].
  destruct (parse_ipv4 (fmt_ipv6 ip)) as [v|] eqn:E; [|by rewrite parse_fmt_ipv6]. apply parse_ipv4_chars in E. rewrite Forall_forall in E.
  pose proof (E 58 (colon_ipv6 ip)) as Hd. unfold dotted in Hd. lia.
Qed.
Lemma fmt_ip_word ip : word_ok (fmt_ip ip).
Proof. destruct ip; apply addr_text_word; [apply fmt_ipv4_text|apply fmt_ipv6_text]. Qed.

Lemma dedup_spec seen l : NoDup (dedup seen l) ∧ ∀ a, a ∈ dedup seen l ↔ a ∈ l ∧ a ∉ seen.
Proof.
  revert seen. induction l as [|x l IH]; intros seen; cbn [dedup]; [split; [constructor|set_solver]|].
  destruct (bool_decide_reflect (x ∈ seen)) as [Hx|Hx].
  - destruct (IH seen) as [Hn Hm]. split; [done|]. set_solver.
  - destruct (IH ({[x]} ∪ seen)) as [Hn Hm]. split; [constructor; [rewrite Hm; set_solver|done]|]. intros a. rewrite elem_of_cons, Hm.
    destruct (decide (a = x)) as [->|]; set_solver.
Qed.

(** A line of [ip neigh]: the address, then the link layer address, flags and
    state. *)
Record NeighRow := MkNeigh { nr_ip : IpAddr; nr_rest : list (list Z) }.
Definition neigh_text (r : NeighRow) : list Z := join [32] (fmt_ip (nr_ip r) :: nr_rest r).
Definition neigh_ok (r : NeighRow) : Prop := ip_ok (nr_ip r) ∧ Forall word_ok (nr_rest r).
Definition resolved (r : NeighRow) : Prop := contains (str "FAILED") (neigh_text r) = false ∧ contains (str "INCOMPLETE") (neigh_text r) = false.

Lemma neighbor_line_text port scope r : neigh_ok r → neighbor_line port scope (neigh_text r) =
  if bool_decide (resolved r) then Some (neighbor_addr (nr_ip r) port scope) else None.
Proof.
  intros [Hip Hrest]. assert (Hw : Forall word_ok (fmt_ip (nr_ip r) :: nr_rest r)) by (constructor; [apply fmt_ip_word|done]).
  unfold neighbor_line. rewrite trim_tight by (by apply join_tight). rewrite bool_decide_eq_false_2.
  2:{ pose proof (join_tight [32] _ Hw ltac:(done)) as [(b & t & E & _) _]. unfold neigh_text. by rewrite E. }
  unfold resolved. destruct (contains (str "FAILED") (neigh_text r)); [by rewrite bool_decide_eq_false_2 by (by intros [])|].
  destruct (contains (str "INCOMPLETE") (neigh_text r)); [by rewrite bool_decide_eq_false_2 by (by intros [])|].
  rewrite bool_decide_eq_true_2 by done. cbn [orb]. unfold neigh_text. rewrite (split_whitespace_join 0) by done.
  cbn [head mbind option_bind]. by rewrite parse_fmt_ip.
Qed.
Lemma neigh_line_ok r : neigh_ok r → line_ok (neigh_text r).
Proof. intros [_ Hrest]. apply (join_line 1). constructor; [apply fmt_ip_word|done]. Qed.

(** the neighbours of an interface are read as [ip] lists them: the result has
    each address once, IPv4 or IPv6, with the port of the daemon and, for a
    link-local one, the index of the interface; and it has exactly those of the
    rows that are not failed or incomplete. *)
Theorem neighbours_read (rows : list NeighRow) port scope : Forall neigh_ok rows →
  NoDup (parse_neighbor_output (unlines (map neigh_text rows)) port scope) ∧
  ∀ a, a ∈ parse_neighbor_output (unlines (map neigh_text rows)) port scope ↔
    ∃ r, r ∈ rows ∧ resolved r ∧ a = neighbor_addr (nr_ip r) port scope.
Proof.
  intros Hrows. unfold parse_neighbor_output. rewrite lines_unlines by (apply Forall_map; eapply Forall_impl; [exact Hrows|]; apply neigh_line_ok).
  destruct (dedup_spec ∅ (omap (neighbor_line port scope) (map neigh_text rows))) as [Hn Hm]. split; [done|]. intros a. rewrite Hm.
  rewrite list_elem_of_omap. split.
  - intros [(line & Hl & Ha) _]. apply list_elem_of_fmap in Hl as (r & -> & Hr). rewrite Forall_forall in Hrows.
    rewrite neighbor_line_text in Ha by (by apply Hrows). destruct (bool_decide_reflect (resolved r)) as [Hres|]; [|done]. injection Ha as <-. by exists r.
  - intros (r & Hr & Hres & ->). split; [|set_solver]. exists (neigh_text r). split; [apply list_elem_of_fmap; by exists r|].
    rewrite Forall_forall in Hrows. rewrite neighbor_line_text by (by apply Hrows). by rewrite bool_decide_eq_true_2.
Qed.

Definition sample_neighbours : list NeighRow :=
  [MkNeigh (IpV4 (be_value [10; 44; 0; 20])) [str "lladdr"; str "00:15:83:3d:0a:57"; str "REACHABLE"];
   MkNeigh (IpV6 0xfe800000000000000215083fffe3d0a5) [str "lladdr"; str "00:15:83:3d:0a:57"; str "STALE"];
   MkNeigh (IpV4 (be_value [10; 44; 0; 21])) [str "FAILED"]].
Lemma neighbours_read_witness :
  parse_neighbor_output (unlines (map neigh_text sample_neighbours)) 9100 (Some 7) =
    [PanV4 (be_value [10; 44; 0; 20]) 9100; PanV6 0xfe800000000000000215083fffe3d0a5 9100 7] ∧
  NoDup (parse_neighbor_output (unlines (map neigh_text sample_neighbours)) 9100 (Some 7)).
Proof.
  split; [by vm_compute|]. apply (neighbours_read sample_neighbours 9100 (Some 7)).
  repeat constructor; try by apply (bool_decide_unpack _); vm_compute.
Defined.
