(* ===== verification/Tun.v ===== *)
(** * The TUN device on Linux (crates/pim-tun/src/platform/linux.rs, route.rs)

    The requests that configure the interface and the [ip] commands that route
    the internet through it.  The kernel, [ip] and [resolvectl] are not part of
    the program: [RouteOs] is what they do to the routes and the resolver, and
    [LawfulRoutes] what is documented of the commands the program runs.  Native
    byte order is little-endian, as on the machines the program is built for. *)

From S2P Require Import Prelude Core MeshAddress Text.

(** ** Addresses *)
Definition prefix_to_mask (prefix_len : Z) : Z :=
  if prefix_len =? 0 then be_value [0; 0; 0; 0]
  else if 32 <=? prefix_len then be_value [255; 255; 255; 255]
  else not_u32 (Z.shiftl 1 (32 - prefix_len) - 1).

Definition split_default_cidrs : list (list Z) := [str "0.0.0.0/1"; str "128.0.0.0/1"].
Definition split_default_ipv6_cidrs : list (list Z) := [str "::/1"; str "8000::/1"].

(** ** Interface requests *)
Inductive TunError := NameTooLong | Unavailable | IoctlError (what : list Z) | TunIo.

Definition IFNAMSIZ : nat := 16.
Record Ifreq := MkIfreq { ifr_name : list Z; ifr_union : list Z }.

Definition Ifreq_new (name : list Z) : outcome TunError Ifreq :=
  if bool_decide (IFNAMSIZ ≤ length name)%nat then Err NameTooLong else
  let? n := copy_from_slice 0 (length name) name (replicate IFNAMSIZ 0) in
  Ok (MkIfreq n (replicate 16 0)).

Fixpoint position_zero (s : list Z) : option nat :=
  match s with
  | [] => None
  | b :: s => if b =? 0 then Some O else S <$> position_zero s
  end.
(** [from_utf8_lossy] leaves a text as it is. *)
Definition name_str (ifr : Ifreq) : list Z := take (default IFNAMSIZ (position_zero (ifr_name ifr))) (ifr_name ifr).

Definition to_ne_bytes (n : nat) (z : Z) : list Z := rev (be_bytes n (z mod 256 ^ Z.of_nat n)).
Definition from_ne_bytes_i16 (bs : list Z) : Z :=
  let v := be_value (rev bs) in if v <? 2 ^ 15 then v else v - 2 ^ 16.

Definition IFF_TUN : Z := 0x0001.
Definition IFF_NO_PI : Z := 0x1000.
Definition IFF_UP : Z := 0x0001.
Definition IFF_RUNNING : Z := 0x0040.
Definition AF_INET : Z := 2.

Definition set_union (u : list Z) (ifr : Ifreq) : Ifreq := MkIfreq (ifr_name ifr) u.
Definition set_tun_flags (ifr : Ifreq) : outcome TunError Ifreq :=
  let? u := copy_from_slice 0 2 (to_ne_bytes 2 (Z.lor IFF_TUN IFF_NO_PI)) (ifr_union ifr) in
  Ok (set_union u ifr).
Definition set_sockaddr_in (addr : Z) (ifr : Ifreq) : outcome TunError Ifreq :=
  let? u := copy_from_slice 0 2 (to_ne_bytes 2 AF_INET) (replicate (length (ifr_union ifr)) 0) in
  let? u := copy_from_slice 4 8 (be_bytes 4 addr) u in
  Ok (set_union u ifr).
Definition set_flags (flags : Z) (ifr : Ifreq) : outcome TunError Ifreq :=
  let? u := copy_from_slice 0 2 (to_ne_bytes 2 flags) (replicate (length (ifr_union ifr)) 0) in
  Ok (set_union u ifr).
Definition get_flags (ifr : Ifreq) : outcome TunError Z :=
  let? a := index 0 (ifr_union ifr) in
  let? b := index 1 (ifr_union ifr) in
  Ok (from_ne_bytes_i16 [a; b]).
Definition ifr_set_mtu (mtu : Z) (ifr : Ifreq) : outcome TunError Ifreq :=
  let? u := copy_from_slice 0 4 (to_ne_bytes 4 mtu) (replicate (length (ifr_union ifr)) 0) in
  Ok (set_union u ifr).

Definition TUNSETIFF : Z := 0x400454ca.
Definition SIOCSIFADDR : Z := 0x8916.
Definition SIOCSIFNETMASK : Z := 0x891c.
Definition SIOCSIFMTU : Z := 0x8922.
Definition SIOCGIFFLAGS : Z := 0x8913.
Definition SIOCSIFFLAGS : Z := 0x8914.

Definition not_i16 (z : Z) : Z := -1 - z.

(** The kernel answers a request with the request it leaves in place, or an
    error. *)
Class IoctlOs (K : Type) := os_ioctl : K → Z → Ifreq → K * option Ifreq.

Section Interface.
Context `{IoctlOs K}.

Definition do_ioctl (k : K) (request : Z) (ifr : Ifreq) : K * outcome TunError Ifreq :=
  match os_ioctl k request ifr with
  | (k, Some ifr) => (k, Ok ifr)
  | (k, None) => (k, Err (IoctlError []))
  end.
Definition kbind {A B} (c : K * outcome TunError A) (f : K → A → K * outcome TunError B) : K * outcome TunError B :=
  match c with (k, Ok a) => f k a | (k, Err e) => (k, Err e) | (k, Panic) => (k, Panic) end.

Definition set_ip (k : K) (name : list Z) (addr prefix_len : Z) : K * outcome TunError unit :=
  kbind (k, let? ifr := Ifreq_new name in set_sockaddr_in addr ifr) (λ k ifr,
  kbind (do_ioctl k SIOCSIFADDR ifr) (λ k _,
  kbind (k, let? ifr := Ifreq_new name in set_sockaddr_in (prefix_to_mask prefix_len) ifr) (λ k ifr,
  kbind (do_ioctl k SIOCSIFNETMASK ifr) (λ k _, (k, Ok ()))))).

Definition set_mtu (k : K) (name : list Z) (mtu : Z) : K * outcome TunError unit :=
  kbind (k, let? ifr := Ifreq_new name in ifr_set_mtu mtu ifr) (λ k ifr,
  kbind (do_ioctl k SIOCSIFMTU ifr) (λ k _, (k, Ok ()))).

Definition change_flags (k : K) (name : list Z) (set clear : Z) : K * outcome TunError unit :=
  kbind (k, Ifreq_new name) (λ k ifr,
  kbind (do_ioctl k SIOCGIFFLAGS ifr) (λ k ifr,
  kbind (k, let? current := get_flags ifr in set_flags (Z.lor (Z.land current (not_i16 clear)) set) ifr) (λ k ifr,
  kbind (do_ioctl k SIOCSIFFLAGS ifr) (λ k _, (k, Ok ()))))).
Definition up (k : K) (name : list Z) := change_flags k name (Z.lor IFF_UP IFF_RUNNING) 0.
Definition down (k : K) (name : list Z) := change_flags k name 0 (Z.lor IFF_UP IFF_RUNNING).
End Interface.

(** ** Commands

    [os_status] runs a program: [None] when it cannot be started, else whether
    it succeeded; [os_output] is what it prints.  What a state of the system
    says of the routes and of the resolver of an interface: *)
Class RouteOs (K : Type) := {
  os_status : K → list (list Z) → K * option bool;
  os_output : K → list (list Z) → option (bool * list Z);
  os_routes : K → gmap (list Z) (list Z * list Z);   (* prefix: via, dev *)
  os_routes6 : K → gmap (list Z) (list Z);           (* prefix: dev *)
  os_dns : K → gmap (list Z) (list (list Z));        (* interface: servers *)
}.

Definition ip_route_add (cidr gw dev : list Z) : list (list Z) :=
  [str "ip"; str "route"; str "add"; cidr; str "via"; gw; str "dev"; dev; str "onlink"].
Definition ip_route_replace (cidr gw dev : list Z) : list (list Z) :=
  [str "ip"; str "route"; str "replace"; cidr; str "via"; gw; str "dev"; dev; str "onlink"].
Definition ip_route_del (cidr gw dev : list Z) : list (list Z) :=
  [str "ip"; str "route"; str "del"; cidr; str "via"; gw; str "dev"; dev].
Definition ip6_route_replace (cidr dev : list Z) : list (list Z) :=
  [str "ip"; str "-6"; str "route"; str "replace"; cidr; str "dev"; dev].
Definition ip6_route_del (cidr dev : list Z) : list (list Z) :=
  [str "ip"; str "-6"; str "route"; str "del"; cidr; str "dev"; dev].
Definition resolvectl_dns (dev : list Z) (servers : list (list Z)) : list (list Z) :=
  [str "resolvectl"; str "dns"; dev] ++ servers.
Definition resolvectl_domain (dev : list Z) : list (list Z) := [str "resolvectl"; str "domain"; dev; str "~."].
Definition resolvectl_revert (dev : list Z) : list (list Z) := [str "resolvectl"; str "revert"; dev].

Section Commands.
Context `{RouteOs K}.

(** What a command did, if it changed the routes at all. *)
Definition routes_after (k k' : K) (r : option bool) (f : gmap (list Z) (list Z * list Z) → gmap (list Z) (list Z * list Z)) : Prop :=
  os_routes k' = (if decide (r = Some true) then f (os_routes k) else os_routes k)
  ∧ os_routes6 k' = os_routes6 k ∧ os_dns k' = os_dns k.
Definition routes6_after (k k' : K) (r : option bool) (f : gmap (list Z) (list Z) → gmap (list Z) (list Z)) : Prop :=
  os_routes k' = os_routes k
  ∧ os_routes6 k' = (if decide (r = Some true) then f (os_routes6 k) else os_routes6 k) ∧ os_dns k' = os_dns k.
Definition dns_after (k k' : K) (r : option bool) (f : gmap (list Z) (list (list Z)) → gmap (list Z) (list (list Z))) : Prop :=
  os_routes k' = os_routes k ∧ os_routes6 k' = os_routes6 k
  ∧ os_dns k' = (if decide (r = Some true) then f (os_dns k) else os_dns k).

(** [ip route add] refuses a prefix that has a route; [ip route del] refuses
    one whose route is another. *)
Class LawfulRoutes : Prop := {
  add_law k cidr gw dev : let '(k', r) := os_status k (ip_route_add cidr gw dev) in
    routes_after k k' r (insert cidr (gw, dev)) ∧ (r = Some true → os_routes k !! cidr = None);
  replace_law k cidr gw dev : let '(k', r) := os_status k (ip_route_replace cidr gw dev) in
    routes_after k k' r (insert cidr (gw, dev));
  del_law k cidr gw dev : let '(k', r) := os_status k (ip_route_del cidr gw dev) in
    routes_after k k' r (delete cidr) ∧ (r = Some true → os_routes k !! cidr = Some (gw, dev));
  replace6_law k cidr dev : let '(k', r) := os_status k (ip6_route_replace cidr dev) in
    routes6_after k k' r (insert cidr dev);
  del6_law k cidr dev : let '(k', r) := os_status k (ip6_route_del cidr dev) in
    routes6_after k k' r (delete cidr) ∧ (r = Some true → os_routes6 k !! cidr = Some dev);
  dns_law k dev servers : let '(k', r) := os_status k (resolvectl_dns dev servers) in
    dns_after k k' r (insert dev servers);
  domain_law k dev : let '(k', r) := os_status k (resolvectl_domain dev) in dns_after k k' r id;
  revert_law k dev : let '(k', r) := os_status k (resolvectl_revert dev) in dns_after k k' r (delete dev);
}.

(** Commands that fail only for the reasons above, on a host that has IPv6 or
    not ([v6]) and runs systemd-resolved or not ([dns]): without them, their
    commands always fail. *)
Class ReliableRoutes (v6 dns : bool) : Prop := {
  add_works k cidr gw dev : os_routes k !! cidr = None → (os_status k (ip_route_add cidr gw dev)).2 = Some true;
  del_works k cidr gw dev : os_routes k !! cidr = Some (gw, dev) → (os_status k (ip_route_del cidr gw dev)).2 = Some true;
  replace6_works k cidr dev : (os_status k (ip6_route_replace cidr dev)).2 = Some true ↔ v6 = true;
  del6_works k cidr dev : v6 = true → os_routes6 k !! cidr = Some dev → (os_status k (ip6_route_del cidr dev)).2 = Some true;
  dns_works k dev servers : (os_status k (resolvectl_dns dev servers)).2 = Some true ↔ dns = true;
  revert_works k dev : dns = true → (os_status k (resolvectl_revert dev)).2 = Some true;
}.

(** ** The routes of the interface *)
Fixpoint add_routes (k : K) (cidrs : list (list Z)) (gw_str name : list Z) : K * outcome TunError unit :=
  match cidrs with
  | [] => (k, Ok ())
  | cidr :: cidrs =>
    match os_status k (ip_route_add cidr gw_str name) with
    | (k, None) => (k, Err TunIo)
    | (k, Some true) => add_routes k cidrs gw_str name
    | (k, Some false) => (k, Err (IoctlError (str "ip route add")))
    end
  end.
Definition add_default_route (k : K) (name : list Z) (gateway_ip : Z) : K * outcome TunError unit :=
  add_routes k split_default_cidrs (fmt_ipv4 gateway_ip) name.

Fixpoint replace_routes6 (k : K) (cidrs : list (list Z)) (name : list Z) : K * outcome TunError unit :=
  match cidrs with
  | [] => (k, Ok ())
  | cidr :: cidrs =>
    match os_status k (ip6_route_replace cidr name) with
    | (k, None) => (k, Err TunIo)
    | (k, Some true) => replace_routes6 k cidrs name
    | (k, Some false) => (k, Err (IoctlError (str "ip -6 route replace")))
    end
  end.
Definition add_default_ipv6_route (k : K) (name : list Z) : K * outcome TunError unit :=
  replace_routes6 k split_default_ipv6_cidrs name.

(** Removal ignores whether the command succeeded, as long as it ran. *)
Fixpoint del_routes (k : K) (cidrs : list (list Z)) (gw_str name : list Z) : K * outcome TunError unit :=
  match cidrs with
  | [] => (k, Ok ())
  | cidr :: cidrs =>
    match os_status k (ip_route_del cidr gw_str name) with
    | (k, None) => (k, Err TunIo)
    | (k, Some _) => del_routes k cidrs gw_str name
    end
  end.
Definition remove_default_route (k : K) (name : list Z) (gateway_ip : Z) : K * outcome TunError unit :=
  del_routes k split_default_cidrs (fmt_ipv4 gateway_ip) name.

Fixpoint del_routes6 (k : K) (cidrs : list (list Z)) (name : list Z) : K * outcome TunError unit :=
  match cidrs with
  | [] => (k, Ok ())
  | cidr :: cidrs =>
    match os_status k (ip6_route_del cidr name) with
    | (k, None) => (k, Err TunIo)
    | (k, Some _) => del_routes6 k cidrs name
    end
  end.
Definition remove_default_ipv6_route (k : K) (name : list Z) : K * outcome TunError unit :=
  del_routes6 k split_default_ipv6_cidrs name.
End Commands.

#[global] Arguments LawfulRoutes K {_}.
#[global] Arguments ReliableRoutes K {_} v6 dns.

(** ** What the operations do to the routes *)
Section Effects.
Context `{RouteOs K} {L : LawfulRoutes K}.

Definition os_view (k : K) := (os_routes k, os_routes6 k, os_dns k).

Definition with_routes (cidrs : list (list Z)) (r : list Z * list Z) (m : gmap (list Z) (list Z * list Z)) :=
  foldl (λ m cidr, <[cidr := r]> m) m cidrs.
Definition with_routes6 (cidrs : list (list Z)) (dev : list Z) (m : gmap (list Z) (list Z)) :=
  foldl (λ m cidr, <[cidr := dev]> m) m cidrs.

(** Adding stops at the first prefix that fails; what was added before stays. *)
Lemma add_routes_effect cidrs k gw name :
  let '(k', r) := add_routes k cidrs gw name in
  (∃ done, done `prefix_of` cidrs ∧ os_view k' = (with_routes done (gw, name) (os_routes k), os_routes6 k, os_dns k)
    ∧ (r = Ok () → done = cidrs))
  ∧ (∀ cidr r0, os_routes k !! cidr = Some r0 → os_routes k' !! cidr = Some r0)
  ∧ (r = Ok () → ∀ cidr, cidr ∈ cidrs → os_routes k !! cidr = None).
Proof.
  revert k. induction cidrs as [|cidr cidrs IH]; intros k; cbn [add_routes].
  { split_and!; [|done|set_solver]. exists []. split_and!; [by apply prefix_nil|done|done]. }
  pose proof (add_law k cidr gw name) as HL. destruct (os_status k (ip_route_add cidr gw name)) as [k1 r1].
  destruct HL as [(H1 & H2 & H3) Hn]. unfold os_view.
  destruct r1 as [[]|].
  2,3: rewrite decide_False in H1 by done; split_and!; [exists []; split_and!; [by apply prefix_nil|unfold with_routes; cbn [foldl]; congruence|done]
      |intros; congruence|done].
  rewrite decide_True in H1 by done. specialize (IH k1). destruct (add_routes k1 cidrs gw name) as [k' r].
  destruct IH as ((d & Hd & Hv & Hok) & Hkeep & Hnone). specialize (Hn eq_refl). unfold os_view in Hv. split_and!.
  - exists (cidr :: d). split_and!; [by apply prefix_cons|rewrite Hv; unfold with_routes; cbn [foldl]; congruence|intros; f_equal; auto].
  - intros c r0 Hc. apply Hkeep. rewrite H1. rewrite lookup_insert_ne; [done|congruence].
  - intros Hr c [->|Hc]%elem_of_cons; [done|]. specialize (Hnone Hr c Hc). rewrite H1 in Hnone.
    by apply lookup_insert_None in Hnone as [? _].
Qed.

(** Removal changes nothing but the routes it names, and only if they are the
    ones given. *)
Lemma del_routes_keeps cidrs k gw name cidr r0 : r0 ≠ (gw, name) → os_routes k !! cidr = Some r0 →
  os_routes (del_routes k cidrs gw name).1 !! cidr = Some r0.
Proof.
  intros Hne. revert k. induction cidrs as [|c cidrs IH]; intros k Hk; cbn [del_routes]; [done|].
  pose proof (del_law k c gw name) as HL. destruct (os_status k (ip_route_del c gw name)) as [k1 r1].
  destruct HL as [(H1 & _) Hn].
  assert (os_routes k1 !! cidr = Some r0) as Hk1.
  { rewrite H1. case_decide as E; [|done]. specialize (Hn E). rewrite lookup_delete_ne; [done|]. intros ->. congruence. }
  destruct r1; [by apply IH|done].
Qed.

Lemma other_effects k name :
  (∀ cidrs, os_routes (replace_routes6 k cidrs name).1 = os_routes k) ∧
  (∀ cidrs, os_routes (del_routes6 k cidrs name).1 = os_routes k).
Proof.
  split; intros cidrs; revert k; induction cidrs as [|c cidrs IH]; intros k; cbn [replace_routes6 del_routes6]; try done.
  - pose proof (replace6_law k c name) as HL. destruct (os_status _ _) as [k1 [[]|]]; destruct HL as (H1 & _); cbn; try done.
    by rewrite IH.
  - pose proof (del6_law k c name) as HL. destruct (os_status _ _) as [k1 [r|]]; destruct HL as [(H1 & _) _]; cbn; try done.
    by rewrite IH.
Qed.

Context {v6 dns : bool} {R : ReliableRoutes K v6 dns}.

Lemma add_routes_works cidrs k gw name : NoDup cidrs → (∀ cidr, cidr ∈ cidrs → os_routes k !! cidr = None) →
  let '(k', r) := add_routes k cidrs gw name in
  r = Ok () ∧ os_view k' = (with_routes cidrs (gw, name) (os_routes k), os_routes6 k, os_dns k).
Proof.
  intros Hnd. revert k. induction Hnd as [|cidr cidrs Hni Hnd IH]; intros k Hk; cbn [add_routes]; [done|].
  pose proof (add_law k cidr gw name) as HL. pose proof (add_works k cidr gw name) as HW.
  rewrite Hk in HW by set_solver. specialize (HW eq_refl).
  destruct (os_status k (ip_route_add cidr gw name)) as [k1 r1]. cbn in HW. subst r1.
  destruct HL as [(H1 & H2 & H3) _]. rewrite decide_True in H1 by done.
  specialize (IH k1). destruct (add_routes k1 cidrs gw name) as [k' r]. destruct IH as [-> Hv].
  { intros c Hc. rewrite H1, lookup_insert_ne by set_solver. apply Hk. set_solver. }
  split; [done|]. rewrite Hv. unfold with_routes, with_routes6. cbn [foldl]. congruence.
Qed.

Lemma del_routes_works cidrs k gw name : NoDup cidrs → (∀ cidr, cidr ∈ cidrs → os_routes k !! cidr = Some (gw, name)) →
  let '(k', r) := del_routes k cidrs gw name in
  r = Ok () ∧ os_view k' = (foldl (λ m cidr, delete cidr m) (os_routes k) cidrs, os_routes6 k, os_dns k).
Proof.
  intros Hnd. revert k. induction Hnd as [|cidr cidrs Hni Hnd IH]; intros k Hk; cbn [del_routes]; [done|].
  pose proof (del_law k cidr gw name) as HL. pose proof (del_works k cidr gw name) as HW.
  rewrite Hk in HW by set_solver. specialize (HW eq_refl).
  destruct (os_status k (ip_route_del cidr gw name)) as [k1 r1]. cbn in HW. subst r1.
  destruct HL as [(H1 & H2 & H3) _]. rewrite decide_True in H1 by done.
  specialize (IH k1). destruct (del_routes k1 cidrs gw name) as [k' r]. destruct IH as [-> Hv].
  { intros c Hc. rewrite H1, lookup_delete_ne by set_solver. apply Hk. set_solver. }
  split; [done|]. rewrite Hv. unfold with_routes, with_routes6. cbn [foldl]. congruence.
Qed.

Lemma replace_routes6_works cidrs k name :
  let '(k', r) := replace_routes6 k cidrs name in
  if v6 then r = Ok () ∧ os_view k' = (os_routes k, with_routes6 cidrs name (os_routes6 k), os_dns k)
  else (r = Ok () → cidrs = []) ∧ os_view k' = os_view k.
Proof.
  revert k. induction cidrs as [|cidr cidrs IH]; intros k; cbn [replace_routes6]; [by destruct v6|].
  pose proof (replace6_law k cidr name) as HL. pose proof (replace6_works k cidr name) as HW.
  destruct (os_status k (ip6_route_replace cidr name)) as [k1 r1]. cbn [snd] in HW. destruct HL as (H1 & H2 & H3). destruct v6.
  - rewrite (proj2 HW eq_refl) in *. rewrite decide_True in H2 by done.
    specialize (IH k1). destruct (replace_routes6 k1 cidrs name) as [k' r]. destruct IH as [-> Hv].
    split; [done|]. rewrite Hv. unfold with_routes, with_routes6. cbn [foldl]. congruence.
  - assert (Hn : r1 ≠ Some true) by (by intros ?%HW). rewrite decide_False in H2 by done. unfold os_view.
    destruct r1 as [[]|]; [done|by rewrite H1, H2, H3..].
Qed.

Lemma del_routes6_works cidrs k name : v6 = true → NoDup cidrs → (∀ cidr, cidr ∈ cidrs → os_routes6 k !! cidr = Some name) →
  let '(k', r) := del_routes6 k cidrs name in
  r = Ok () ∧ os_view k' = (os_routes k, foldl (λ m cidr, delete cidr m) (os_routes6 k) cidrs, os_dns k).
Proof.
  intros Hv6 Hnd. revert k. induction Hnd as [|cidr cidrs Hni Hnd IH]; intros k Hk; cbn [del_routes6]; [done|].
  pose proof (del6_law k cidr name) as HL. pose proof (del6_works k cidr name) as HW.
  rewrite Hk in HW by set_solver. specialize (HW Hv6 eq_refl).
  destruct (os_status k (ip6_route_del cidr name)) as [k1 r1]. cbn in HW. subst r1.
  destruct HL as [(H1 & H2 & H3) _]. rewrite decide_True in H2 by done.
  specialize (IH k1). destruct (del_routes6 k1 cidrs name) as [k' r]. destruct IH as [-> Hv].
  { intros c Hc. rewrite H2, lookup_delete_ne by set_solver. apply Hk. set_solver. }
  split; [done|]. rewrite Hv. unfold with_routes, with_routes6. cbn [foldl]. congruence.
Qed.
End Effects.

(** ** Requests *)
Lemma position_zero_app s n : 0 ∉ s → (0 < n)%nat → position_zero (s ++ replicate n 0) = Some (length s).
Proof.
  intros H0 Hn. induction s as [|b s IH]; cbn; [by destruct n; [lia|]|].
  destruct (Z.eqb_spec b 0); [set_solver|]. by rewrite IH by set_solver.
Qed.

(** the name of an interface survives its way through a request, whatever
    its fifteen bytes; a longer one is refused, never cut. *)
Theorem ifreq_name_roundtrip name : 0 ∉ name →
  match Ifreq_new name with
  | Ok ifr => (length name < IFNAMSIZ)%nat ∧ name_str ifr = name ∧ length (ifr_name ifr) = IFNAMSIZ
  | Err e => e = NameTooLong ∧ (IFNAMSIZ ≤ length name)%nat
  | Panic => False
  end.
Proof.
  intros H0. unfold Ifreq_new. case_bool_decide as E; [done|]. unfold IFNAMSIZ in *. rewrite copy_from_slice_Ok.
  2,3,4: try rewrite length_replicate; lia.
  cbn [obind]. split; [lia|]. unfold name_str. cbn [ifr_name take app].
  rewrite take_0, drop_replicate, app_nil_l, position_zero_app by (done || lia). cbn [default from_option id]. rewrite take_app_length.
  split; [done|]. rewrite length_app, length_replicate. lia.
Qed.

Lemma ifreq_name_roundtrip_witness :
  match Ifreq_new (str "pim0") with Ok ifr => name_str ifr = str "pim0" | _ => False end.
Proof.
  assert (0 ∉ str "pim0") as H by (by apply (bool_decide_unpack _); vm_compute).
  by destruct (ifreq_name_roundtrip (str "pim0") H) as (_ & ? & _).
Defined.

Lemma prefix_to_mask_netmask p : prefix_to_mask p = ipv4_netmask p.
Proof. done. Qed.
