(* ===== verification/RouteInstaller.v ===== *)
(** * The route installer (crates/pim-daemon/src/app/route_installer.rs)

    The task that keeps the split-default routes of the system in step with
    the switch of the user and the gateway the routing table selects.  One turn
    of its loop is [reconcile]; what woke it does not matter. *)

From S2P Require Import Prelude Core Routing MeshAddress Text Tun.

Definition RECONCILE_PERIOD : Z := 2000.

(** The local variables of [run]. *)
Record Installer := MkInstaller { current_via_v4 : option Z; current_v6 : bool; current_dns : bool }.
Definition installer_started : Installer := MkInstaller None false false.

(** Gateways have no installer. *)
Definition installer_spawn (is_gateway : bool) : option Installer := if is_gateway then None else Some installer_started.

Section Installer.
Context `{RouteOs K}.

Definition set_interface_dns (k : K) (iface : list Z) (servers : list (list Z)) : K * bool :=
  match os_status k (resolvectl_dns iface servers) with
  | (k, Some true) => ((os_status k (resolvectl_domain iface)).1, true)
  | (k, Some false) => (k, false)
  | (k, None) => (k, false)
  end.
Definition revert_interface_dns (k : K) (iface : list Z) : K := (os_status k (resolvectl_revert iface)).1.

Definition reconcile_v4 (k : K) (iface : list Z) (desired current : option Z) : K * option Z :=
  if decide (desired = current) then (k, current) else
  let k := match current with Some old => (remove_default_route k iface old).1 | None => k end in
  match desired with
  | Some new =>
    match add_default_route k iface new with
    | (k, Ok _) => (k, Some new)
    | (k, _) => (k, None)
    end
  | None => (k, None)
  end.

Definition reconcile_v6 (k : K) (iface : list Z) (desired current : bool) : K * bool :=
  if decide (desired = current) then (k, current) else
  if desired then
    match add_default_ipv6_route k iface with
    | (k, Ok _) => (k, true)
    | (k, _) => (k, false)
    end
  else ((remove_default_ipv6_route k iface).1, false).

Definition reconcile_dns (k : K) (iface : list Z) (servers : list (list Z)) (desired current : bool) : K * bool :=
  if decide (desired = current) then (k, current) else
  if desired then set_interface_dns k iface servers else (revert_interface_dns k iface, false).

(** What the turn looks at: the switch, and the routing table with the order
    in which it is iterated. *)
Record Wake := MkWake { wk_route_on : bool; wk_iter : list (NodeId * RouteTableEntry); wk_routing : RoutingTable }.
Definition desired_via (w : Wake) : option Z :=
  if wk_route_on w then nearest_gateway_mesh_ip (wk_iter w) (wk_routing w) else None.

Definition reconcile (iface : list Z) (servers : list (list Z)) (w : Wake) (s : K * Installer) : K * Installer :=
  let '(k, i) := s in
  let '(k, via) := reconcile_v4 k iface (desired_via w) (current_via_v4 i) in
  let '(k, v6) := reconcile_v6 k iface (wk_route_on w) (current_v6 i) in
  let desired_dns := negb (bool_decide (servers = [])) && (bool_decide (is_Some via) || v6) in
  let '(k, dns) := reconcile_dns k iface servers desired_dns (current_dns i) in
  (k, MkInstaller via v6 dns).

Definition installer_run (iface : list Z) (servers : list (list Z)) (ws : list Wake) (s : K * Installer) : K * Installer :=
  foldl (λ s w, reconcile iface servers w s) s ws.

Definition installer_cancelled (iface : list Z) (s : K * Installer) : K :=
  let '(k, i) := s in
  let k := match current_via_v4 i with Some old => (remove_default_route k iface old).1 | None => k end in
  let k := if current_v6 i then (remove_default_ipv6_route k iface).1 else k in
  if current_dns i then revert_interface_dns k iface else k.
End Installer.

(** ** What the installer promises

    Over a system that had none of these routes, the routes are those that the
    last wake asks for. *)
Section Spec.
(** The interface, the servers configured for it, and whether the host has IPv6
    and a resolver that takes servers. *)
Context (iface : list Z) (servers : list (list Z)) (v6 dns : bool).

Definition spec_installer (w : Wake) : Installer :=
  let on6 := wk_route_on w && v6 in
  MkInstaller (desired_via w) on6 (negb (bool_decide (servers = [])) && (bool_decide (is_Some (desired_via w)) || on6) && dns).

Definition spec_view (base : gmap (list Z) (list Z * list Z) * gmap (list Z) (list Z) * gmap (list Z) (list (list Z)))
    (i : Installer) :=
  let '(routes, routes6, dns) := base in
  (match current_via_v4 i with
   | Some gw => with_routes split_default_cidrs (fmt_ipv4 gw, iface) routes
   | None => routes
   end,
   if current_v6 i then with_routes6 split_default_ipv6_cidrs iface routes6 else routes6,
   if current_dns i then <[iface := servers]> dns else dns).

Definition clean_view (base : gmap (list Z) (list Z * list Z) * gmap (list Z) (list Z) * gmap (list Z) (list (list Z))) : Prop :=
  (∀ cidr, cidr ∈ split_default_cidrs → base.1.1 !! cidr = None) ∧
  (∀ cidr, cidr ∈ split_default_ipv6_cidrs → base.1.2 !! cidr = None) ∧
  base.2 !! iface = None.
End Spec.

(** ** Lemmas *)
Section Maps.
Context {V : Type}.
Implicit Types m : gmap (list Z) V.

Lemma lookup_foldl_insert cs (v : V) m c :
  foldl (λ m c, <[c := v]> m) m cs !! c = if decide (c ∈ cs) then Some v else m !! c.
Proof.
  induction cs as [|a cs IH] using rev_ind; [by rewrite decide_False by set_solver|]. rewrite foldl_snoc.
  destruct (decide (a = c)) as [->|Hne]; [rewrite lookup_insert_eq, decide_True by set_solver; done|].
  rewrite lookup_insert_ne, IH by done. do 2 case_decide; set_solver.
Qed.

Lemma lookup_foldl_delete cs m c :
  foldl (λ m c, delete c m) m cs !! c = if decide (c ∈ cs) then None else m !! c.
Proof.
  induction cs as [|a cs IH] using rev_ind; [by rewrite decide_False by set_solver|]. rewrite foldl_snoc.
  destruct (decide (a = c)) as [->|Hne]; [rewrite lookup_delete_eq, decide_True by set_solver; done|].
  rewrite lookup_delete_ne, IH by done. do 2 case_decide; set_solver.
Qed.

Lemma delete_inserted cs (v : V) m : (∀ c, c ∈ cs → m !! c = None) →
  foldl (λ m c, delete c m) (foldl (λ m c, <[c := v]> m) m cs) cs = m.
Proof.
  intros Hm. apply map_eq. intros c. rewrite lookup_foldl_delete, lookup_foldl_insert.
  case_decide as E; [by rewrite Hm|done].
Qed.
End Maps.

Lemma cidrs_nodup : NoDup split_default_cidrs ∧ NoDup split_default_ipv6_cidrs.
Proof. split; by apply (bool_decide_unpack _); vm_compute. Qed.

Section Reliable.
Context `{RouteOs K} {L : LawfulRoutes K} {v6 dns : bool} {R : ReliableRoutes K v6 dns}.
Implicit Types k : K.

Lemma view_parts k a b c : os_view k = (a, b, c) → os_routes k = a ∧ os_routes6 k = b ∧ os_dns k = c.
Proof. by intros [= <- <- <-]. Qed.

Lemma remove_v4 k iface gw base : (∀ c, c ∈ split_default_cidrs → base !! c = None) →
  os_routes k = with_routes split_default_cidrs (fmt_ipv4 gw, iface) base →
  os_view (remove_default_route k iface gw).1 = (base, os_routes6 k, os_dns k).
Proof.
  intros Hb Hk. unfold remove_default_route.
  pose proof (del_routes_works split_default_cidrs k (fmt_ipv4 gw) iface (proj1 cidrs_nodup)) as Hd.
  destruct (del_routes _ _ _ _) as [k' r]. destruct Hd as [_ Hv].
  { intros c Hc. rewrite Hk. unfold with_routes. by rewrite lookup_foldl_insert, decide_True. }
  cbn [fst]. rewrite Hv, Hk. unfold with_routes. by rewrite delete_inserted.
Qed.

Lemma reconcile_v4_works k iface desired current base : (∀ c, c ∈ split_default_cidrs → base !! c = None) →
  let routed via := match via with Some gw => with_routes split_default_cidrs (fmt_ipv4 gw, iface) base | None => base end in
  os_routes k = routed current →
  let '(k', via) := reconcile_v4 k iface desired current in
  via = desired ∧ os_view k' = (routed desired, os_routes6 k, os_dns k).
Proof.
  intros Hb routed Hk. unfold reconcile_v4. case_decide as E; [subst; split; [done|]; unfold os_view; by rewrite Hk|].
  set (k1 := match current with Some old => _ | None => k end).
  assert (os_view k1 = (base, os_routes6 k, os_dns k)) as (H1 & H2 & H3)%view_parts.
  { subst k1. destruct current as [old|]; [by apply remove_v4|]. unfold os_view. by rewrite Hk. }
  destruct desired as [new|]; [|split; [done|]; unfold os_view; cbn; congruence]. unfold add_default_route.
  pose proof (add_routes_works split_default_cidrs k1 (fmt_ipv4 new) iface (proj1 cidrs_nodup)) as Ha.
  destruct (add_routes _ _ _ _) as [k' r]. destruct Ha as [-> Hv]; [intros c Hc; rewrite H1; by apply Hb|].
  split; [done|]. rewrite Hv. cbn. congruence.
Qed.

Lemma remove_v6 k iface base : v6 = true → (∀ c, c ∈ split_default_ipv6_cidrs → base !! c = None) →
  os_routes6 k = with_routes6 split_default_ipv6_cidrs iface base →
  os_view (remove_default_ipv6_route k iface).1 = (os_routes k, base, os_dns k).
Proof.
  intros Hv6 Hb Hk. unfold remove_default_ipv6_route.
  pose proof (del_routes6_works split_default_ipv6_cidrs k iface Hv6 (proj2 cidrs_nodup)) as Hd.
  destruct (del_routes6 _ _ _) as [k' r]. destruct Hd as [_ Hv].
  { intros c Hc. rewrite Hk. unfold with_routes6. by rewrite lookup_foldl_insert, decide_True. }
  cbn [fst]. rewrite Hv, Hk. unfold with_routes6. by rewrite delete_inserted.
Qed.

Lemma reconcile_v6_works k iface (desired current : bool) base : (∀ c, c ∈ split_default_ipv6_cidrs → base !! c = None) →
  let routed (b : bool) := if b then with_routes6 split_default_ipv6_cidrs iface base else base in
  os_routes6 k = routed current → (current = true → v6 = true) →
  let '(k', on6) := reconcile_v6 k iface desired current in
  on6 = desired && v6 ∧ os_view k' = (os_routes k, routed on6, os_dns k).
Proof.
  intros Hb routed Hk Hcur. unfold reconcile_v6. case_decide as E.
  { subst. split; [destruct current; [by rewrite Hcur|done]|]. unfold os_view. by rewrite Hk. }
  destruct desired, current; try done; cbn in Hk.
  - unfold add_default_ipv6_route. pose proof (replace_routes6_works split_default_ipv6_cidrs k iface) as Ha.
    destruct (replace_routes6 _ _ _) as [k' r]. destruct v6; destruct Ha as [Hr Hv].
    + rewrite Hr. split; [done|]. rewrite Hv. cbn. congruence.
    + destruct r as [[]| |]; [by specialize (Hr eq_refl)|..]; (split; [done|]; rewrite Hv; cbn; unfold os_view; congruence).
  - split; [done|]. by apply remove_v6; [apply Hcur|..].
Qed.

Lemma remove_dns k iface servers base : dns = true → base !! iface = None → os_dns k = <[iface := servers]> base →
  os_view (revert_interface_dns k iface) = (os_routes k, os_routes6 k, base).
Proof.
  intros Hdns Hb Hk. unfold revert_interface_dns. pose proof (revert_law k iface) as HL. pose proof (revert_works k iface Hdns) as HW.
  destruct (os_status _ _) as [k1 r]. cbn in HW. subst r. destruct HL as (H1 & H2 & H3). rewrite decide_True in H3 by done.
  unfold os_view. cbn [fst]. rewrite H1, H2, H3, Hk. by rewrite delete_insert_id.
Qed.

Lemma reconcile_dns_works k iface servers (desired current : bool) base : base !! iface = None →
  let set (b : bool) := if b then <[iface := servers]> base else base in
  os_dns k = set current → (current = true → dns = true) →
  let '(k', d) := reconcile_dns k iface servers desired current in
  d = desired && dns ∧ os_view k' = (os_routes k, os_routes6 k, set d).
Proof.
  intros Hb set Hk Hcur. unfold reconcile_dns. case_decide as E.
  { subst. split; [destruct current; [by rewrite Hcur|done]|]. unfold os_view. by rewrite Hk. }
  destruct desired, current; try done; cbn in Hk.
  - unfold set_interface_dns. pose proof (dns_law k iface servers) as HL. pose proof (dns_works k iface servers) as HW.
    destruct (os_status _ _) as [k1 r]. cbn [snd] in HW. destruct HL as (H1 & H2 & H3). destruct dns.
    2: { assert (Hn : r ≠ Some true) by (by intros ?%HW). rewrite decide_False in H3 by done.
         destruct r as [[]|]; [done|..]; (split; [done|]; unfold os_view; cbn; by rewrite H1, H2, H3, Hk). }
    rewrite (proj2 HW eq_refl) in *. rewrite decide_True in H3 by done.
    pose proof (domain_law k1 iface) as HL. destruct (os_status _ _) as [k2 r2]. destruct HL as (G1 & G2 & G3).
    split; [done|]. unfold os_view. cbn [fst]. rewrite G1, G2, G3. subst set. cbn beta iota. rewrite H1, H2, <- Hk, <- H3. by case_decide.
  - split; [done|]. eapply remove_dns; [by apply Hcur|done|done].
Qed.

(** What is installed, the host can do. *)
Definition possible (i : Installer) : Prop := (current_v6 i = true → v6 = true) ∧ (current_dns i = true → dns = true).

Lemma spec_possible servers w : possible (spec_installer servers v6 dns w).
Proof. split; cbn; intros (_ & Hd)%andb_true_iff; done. Qed.

(** One turn takes the system from what one wake asks for to what the next
    does. *)
Lemma reconcile_step iface servers base w k i : clean_view iface base → possible i →
  os_view k = spec_view iface servers base i →
  let '(k', i') := reconcile iface servers w (k, i) in
  i' = spec_installer servers v6 dns w ∧ os_view k' = spec_view iface servers base i'.
Proof.
  destruct base as [[b4 b6] bd]. intros (C4 & C6 & Cd) [P6 Pd] (H4 & H6 & Hd)%view_parts. cbn [fst snd] in *. unfold reconcile.
  pose proof (reconcile_v4_works k iface (desired_via w) (current_via_v4 i) b4 C4 H4) as S4.
  destruct (reconcile_v4 _ _ _ _) as [k1 via]. destruct S4 as [-> (A4 & A6 & Ad)%view_parts].
  pose proof (reconcile_v6_works k1 iface (wk_route_on w) (current_v6 i) b6 C6) as S6. rewrite A6 in S6. specialize (S6 H6 P6).
  destruct (reconcile_v6 _ _ _ _) as [k2 on6]. destruct S6 as [-> (B4 & B6 & Bd)%view_parts].
  set (dd := _ && _).
  pose proof (reconcile_dns_works k2 iface servers dd (current_dns i) bd Cd) as Sd. rewrite Bd, Ad in Sd. specialize (Sd Hd Pd).
  destruct (reconcile_dns _ _ _ _ _) as [k3 d]. destruct Sd as [-> Hv].
  split; [done|]. rewrite Hv. unfold spec_view. cbn [current_via_v4 current_v6 current_dns].
  by rewrite B4, B6, A4.
Qed.

(** What the end of the task gives back. *)
Lemma cancelled_restores iface servers k0 k i : clean_view iface (os_view k0) → possible i →
  os_view k = spec_view iface servers (os_view k0) i → os_view (installer_cancelled iface (k, i)) = os_view k0.
Proof.
  intros (C4 & C6 & Cd) [P6 Pd] (H4 & H6 & Hd)%view_parts. unfold installer_cancelled.
  set (k1 := match current_via_v4 i with Some old => _ | None => k end).
  assert (os_view k1 = (os_routes k0, os_routes6 k, os_dns k)) as (A4 & A6 & Ad)%view_parts.
  { subst k1. cbn in H4. destruct (current_via_v4 i); [by apply remove_v4|]. unfold os_view. congruence. }
  set (k2 := if current_v6 i then _ else k1).
  assert (os_view k2 = (os_routes k0, os_routes6 k0, os_dns k)) as (B4 & B6 & Bd)%view_parts.
  { subst k2. destruct (current_v6 i); [|unfold os_view; congruence]. rewrite <- A4, <- Ad. apply remove_v6; [by apply P6|done|congruence]. }
  destruct (current_dns i); [|unfold os_view; congruence].
  unfold os_view at 2. rewrite <- B4, <- B6. eapply remove_dns; [by apply Pd|apply Cd|]. rewrite Bd. apply Hd.
Qed.

Lemma run_view iface servers ws k0 k i : clean_view iface (os_view k0) → possible i →
  os_view k = spec_view iface servers (os_view k0) i →
  os_view (installer_run iface servers ws (k, i)).1
    = spec_view iface servers (os_view k0) (installer_run iface servers ws (k, i)).2 ∧
  possible (installer_run iface servers ws (k, i)).2.
Proof.
  intros Hc. revert k i. induction ws as [|w ws IH]; intros k i Hp Hk; [done|]. cbn [installer_run foldl].
  pose proof (reconcile_step iface servers (os_view k0) w k i Hc Hp Hk) as Hs.
  destruct (reconcile iface servers w (k, i)) as [k' i']. destruct Hs as [Hi Hs]. apply IH; [|done]. rewrite Hi. apply spec_possible.
Qed.
End Reliable.

(** What a turn does to the IPv4 routes when commands may fail. *)
Section Lawful.
Context `{RouteOs K} {L : LawfulRoutes K}.
Implicit Types k : K.

Lemma revert_dns_routes k iface : os_routes (revert_interface_dns k iface) = os_routes k.
Proof.
  unfold revert_interface_dns. pose proof (revert_law k iface) as HL. destruct (os_status _ _) as [k2 ?].
  by destruct HL as (HL & _).
Qed.
Lemma reconcile_dns_routes k iface servers b c : os_routes (reconcile_dns k iface servers b c).1 = os_routes k.
Proof.
  unfold reconcile_dns, set_interface_dns. case_decide; [done|]. destruct b; [|apply revert_dns_routes].
  pose proof (dns_law k iface servers) as HL. destruct (os_status _ _) as [k2 [[]|]]; destruct HL as (HL & _); [|done|done].
  cbn [fst]. pose proof (domain_law k2 iface) as HD. destruct (os_status _ _) as [k3 ?]. destruct HD as (HD & _). cbn. congruence.
Qed.

Lemma reconcile_v6_routes k iface b c : os_routes (reconcile_v6 k iface b c).1 = os_routes k.
Proof.
  unfold reconcile_v6. case_decide; [done|]. destruct (other_effects k iface) as [Ha Hb]. destruct b; [|by apply Hb].
  unfold add_default_ipv6_route. specialize (Ha split_default_ipv6_cidrs). by destruct (replace_routes6 _ _ _) as [k2 []].
Qed.

Lemma reconcile_v4_stuck k iface d cidr r : cidr ∈ split_default_cidrs → os_routes k !! cidr = Some r →
  (reconcile_v4 k iface d None).2 = None ∧ os_routes (reconcile_v4 k iface d None).1 !! cidr = Some r.
Proof.
  intros Hin Hk. unfold reconcile_v4. case_decide; [done|]. destruct d as [gw|]; [|done]. unfold add_default_route.
  pose proof (add_routes_effect split_default_cidrs k (fmt_ipv4 gw) iface) as He.
  destruct (add_routes _ _ _ _) as [k2 [[]| |]]; destruct He as (_ & Hkeep & Hnone);
    [|by split; [|apply Hkeep]..].
  specialize (Hnone eq_refl cidr Hin). congruence.
Qed.

Lemma reconcile_stuck iface servers w k i cidr r : cidr ∈ split_default_cidrs →
  current_via_v4 i = None → os_routes k !! cidr = Some r →
  let '(k', i') := reconcile iface servers w (k, i) in current_via_v4 i' = None ∧ os_routes k' !! cidr = Some r.
Proof.
  intros Hin Hi Hk. unfold reconcile. rewrite Hi. destruct (reconcile_v4_stuck k iface (desired_via w) cidr r Hin Hk) as [E1 E2].
  destruct (reconcile_v4 _ _ _ _) as [k1 via]. cbn in E1, E2. subst via.
  pose proof (reconcile_v6_routes k1 iface (wk_route_on w) (current_v6 i)) as H6. destruct (reconcile_v6 _ _ _ _) as [k2 v6].
  set (dd := _ && _). pose proof (reconcile_dns_routes k2 iface servers dd (current_dns i)) as Hd.
  destruct (reconcile_dns _ _ _ _ _) as [k3 d]. cbn in *. split; [done|congruence].
Qed.

Lemma cancelled_stuck iface k i cidr : current_via_v4 i = None →
  os_routes (installer_cancelled iface (k, i)) !! cidr = os_routes k !! cidr.
Proof.
  intros Hi. unfold installer_cancelled. rewrite Hi.
  assert (os_routes (if current_v6 i then (remove_default_ipv6_route k iface).1 else k) = os_routes k) as E2.
  { destruct (current_v6 i); [|done]. by apply (other_effects k iface). }
  destruct (current_dns i); [|by rewrite E2]. by rewrite revert_dns_routes, E2.
Qed.
End Lawful.

(** ** A system to run it on

    Its [n]th command fails if [fails n] says so of it. *)
Record Fake (fails : nat → list (list Z) → bool) := MkFake {
  fk_count : nat;
  fk_routes : gmap (list Z) (list Z * list Z);
  fk_routes6 : gmap (list Z) (list Z);
  fk_dns : gmap (list Z) (list (list Z));
}.
Arguments MkFake {fails} _ _ _ _.
Arguments fk_count {fails} _.
Arguments fk_routes {fails} _.
Arguments fk_routes6 {fails} _.
Arguments fk_dns {fails} _.

Section Fake.
Context (fails : nat → list (list Z) → bool).

Definition fake_refuse (k : Fake fails) : Fake fails * option bool :=
  (MkFake (S (fk_count k)) (fk_routes k) (fk_routes6 k) (fk_dns k), Some false).
Definition fake_ip (k : Fake fails) (args : list (list Z)) : Fake fails * option bool :=
  let n := S (fk_count k) in
  match args with
  | [_; b; cidr; _; gw; _; dev; _] =>
    if bool_decide (b = str "replace") || bool_decide (fk_routes k !! cidr = None)
    then (MkFake n (<[cidr := (gw, dev)]> (fk_routes k)) (fk_routes6 k) (fk_dns k), Some true) else fake_refuse k
  | [_; _; cidr; _; gw; _; dev] =>
    if bool_decide (fk_routes k !! cidr = Some (gw, dev))
    then (MkFake n (delete cidr (fk_routes k)) (fk_routes6 k) (fk_dns k), Some true) else fake_refuse k
  | [_; _; b; cidr; _; dev] =>
    if bool_decide (b = str "replace")
    then (MkFake n (fk_routes k) (<[cidr := dev]> (fk_routes6 k)) (fk_dns k), Some true)
    else if bool_decide (fk_routes6 k !! cidr = Some dev)
    then (MkFake n (fk_routes k) (delete cidr (fk_routes6 k)) (fk_dns k), Some true)
    else fake_refuse k
  | [_; _; _; _] => (MkFake n (fk_routes k) (fk_routes6 k) (fk_dns k), Some true)
  | _ => fake_refuse k
  end.
Definition fake_run (k : Fake fails) (argv : list (list Z)) : Fake fails * option bool :=
  let n := S (fk_count k) in
  if fails (fk_count k) argv then fake_refuse k else
  match argv with
  | p :: args =>
    if bool_decide (p = str "ip") then fake_ip k args else
    match args with
    | a :: dev :: servers =>
      if bool_decide (a = str "dns") then (MkFake n (fk_routes k) (fk_routes6 k) (<[dev := servers]> (fk_dns k)), Some true)
      else if bool_decide (a = str "revert") then (MkFake n (fk_routes k) (fk_routes6 k) (delete dev (fk_dns k)), Some true)
      else (MkFake n (fk_routes k) (fk_routes6 k) (fk_dns k), Some true)
    | _ => fake_refuse k
    end
  | [] => fake_refuse k
  end.

(** What it prints; the interface has the address 10.77.1.2/16. *)
Definition fake_output (k : Fake fails) (argv : list (list Z)) : option (bool * list Z) :=
  if bool_decide (argv = [str "ip"; str "route"; str "show"]) then
    Some (true, map_fold (λ cidr r out, cidr ++ str " via " ++ r.1 ++ str " dev " ++ r.2 ++ str " onlink " ++ [10] ++ out) [] (fk_routes k))
  else if bool_decide (argv = [str "ip"; str "-6"; str "route"; str "show"]) then
    Some (true, map_fold (λ cidr dev out, cidr ++ str " dev " ++ dev ++ str " metric 1024 pref medium" ++ [10] ++ out) [] (fk_routes6 k))
  else Some (true, str "7: pim0    inet 10.77.1.2/16 scope global pim0" ++ [10]).

#[export] Instance fake_os : RouteOs (Fake fails) := {
  os_status := fake_run;
  os_output := fake_output;
  os_routes := fk_routes;
  os_routes6 := fk_routes6;
  os_dns := fk_dns;
}.

End Fake.

Lemma bd_same (a : list Z) : bool_decide (a = a) = true.
Proof. by apply bool_decide_eq_true_2. Qed.
Lemma bd_words :
  bool_decide (str "add" = str "replace") = false ∧ bool_decide (str "del" = str "replace") = false ∧
  bool_decide (str "resolvectl" = str "ip") = false ∧ bool_decide (str "domain" = str "dns") = false ∧
  bool_decide (str "domain" = str "revert") = false ∧ bool_decide (str "revert" = str "dns") = false.
Proof. by vm_compute. Qed.

Local Ltac run_fake k :=
  destruct bd_words as (? & ? & ? & ? & ? & ?);
  unfold fake_run, ip_route_add, ip_route_replace, ip_route_del, ip6_route_replace, ip6_route_del, resolvectl_dns,
    resolvectl_domain, resolvectl_revert, fake_ip; cbn [app];
  rewrite ?bd_same;
  repeat match goal with H : bool_decide _ = false |- _ => rewrite ?H; clear H end; cbn [orb].

#[export] Instance fake_lawful fails : LawfulRoutes (Fake fails).
Proof.
  split; intros k; intros; cbn [os_status fake_os]; run_fake k; match goal with |- context [fails (fk_count k) ?cmd] => destruct (fails (fk_count k) cmd) end;
    repeat case_bool_decide; by repeat split.
Qed.

#[export] Instance fake_reliable : ReliableRoutes (Fake (λ _ _, false)) true true.
Proof.
  split; intros k; intros; cbn [os_status fake_os]; run_fake k; cbn [fk_count]; repeat case_bool_decide; by cbn.
Qed.

(** A host without IPv6 and without systemd-resolved. *)
Definition bare (_ : nat) (argv : list (list Z)) : bool :=
  match argv with p :: a :: _ => bool_decide (p = str "resolvectl") || bool_decide (a = str "-6") | _ => false end.
Lemma bd_bare :
  bool_decide (str "ip" = str "resolvectl") = false ∧ bool_decide (str "route" = str "-6") = false.
Proof. by vm_compute. Qed.
#[export] Instance bare_reliable : ReliableRoutes (Fake bare) false false.
Proof.
  destruct bd_bare as [B1 B2].
  split; intros k; intros; cbn [os_status fake_os]; run_fake k; cbn [bare]; rewrite ?bd_same, ?B1, ?B2, ?orb_true_r, ?orb_true_l; cbn [orb]; repeat case_bool_decide; by cbn.
Qed.

(** ** Theorems *)
Section Theorems.
Context `{RouteOs K} {L : LawfulRoutes K}.

(** C14: On a host that had none of the split-default routes and no servers for
    the interface, and on which commands fail only for a reason (a prefix that
    has a route, a route that is another, or all of IPv6 or of resolvectl
    missing), the routes and the resolver of the system are, after any sequence
    of wakes, exactly those the last one asks for: both IPv4 halves through the
    selected gateway when routing is on and there is one, the IPv6 halves when
    routing is on and the host has IPv6, the servers when there is any of these
    and a resolver, none otherwise, and every other route as it was; when the
    daemon ends, nothing of it is left. *)
Theorem installer_converges {v6 dns} {R : ReliableRoutes K v6 dns} iface servers ws w (k0 : K) : clean_view iface (os_view k0) →
  let '(k, i) := installer_run iface servers (ws ++ [w]) (k0, installer_started) in
  i = spec_installer servers v6 dns w ∧ os_view k = spec_view iface servers (os_view k0) i ∧
  os_view (installer_cancelled iface (k, i)) = os_view k0.
Proof.
  intros Hc. destruct (run_view (v6 := v6) (dns := dns) iface servers ws k0 k0 installer_started Hc) as [Hrun Hp]; [done|done|].
  unfold installer_run in *. rewrite foldl_snoc. destruct (foldl _ _ ws) as [k i]. cbn [fst snd] in Hrun, Hp.
  pose proof (reconcile_step (v6 := v6) (dns := dns) iface servers (os_view k0) w k i Hc Hp Hrun) as Hs.
  destruct (reconcile iface servers w (k, i)) as [k' i']. destruct Hs as [Hi Hv]. split_and!; [done|done|].
  eapply cancelled_restores; [done| |done]. rewrite Hi. apply spec_possible.
Qed.

(** a half of the split default that is there while the installer believes
    there is none stays forever: no later turn removes or completes it, since
    [ip route add] refuses a prefix that exists, and neither does the end of
    the daemon.  So a turn whose second command fails leaves the system with
    one half, and the retry the code promises cannot succeed. *)
Theorem half_install_sticks iface servers ws (k : K) i cidr r : cidr ∈ split_default_cidrs →
  current_via_v4 i = None → os_routes k !! cidr = Some r →
  let '(k', i') := installer_run iface servers ws (k, i) in
  current_via_v4 i' = None ∧ os_routes k' !! cidr = Some r ∧
  os_routes (installer_cancelled iface (k', i')) !! cidr = Some r.
Proof.
  intros Hin. revert k i. induction ws as [|w ws IH]; intros k i Hi Hk; cbn [installer_run foldl].
  - by rewrite cancelled_stuck.
  - pose proof (reconcile_stuck iface servers w k i cidr r Hin Hi Hk) as Hs.
    destruct (reconcile iface servers w (k, i)) as [k1 i1]. destruct Hs. by apply IH.
Qed.
End Theorems.

(** A gateway at 10.77.5.9, and what the user's switch makes of it. *)
Definition sample_gateway_entry : RouteTableEntry := {|
  rt_next_hop := sample_id 2; rt_hops := 1; rt_is_gateway := true; rt_last_seen := 0; rt_learned_from := sample_id 2;
  rt_sequence := 1; rt_gateway_load := 0; rt_rtt_ms := None; rt_mesh_ip := Some (be_value [10; 77; 5; 9]) |}.
Definition sample_wake (on : bool) : Wake :=
  MkWake on [(sample_id 2, sample_gateway_entry)]
    (set_routes {[sample_id 2 := sample_gateway_entry]}
      (RoutingTable_new (sample_id 1) false {| v4_network := be_value [10; 77; 0; 0]; v4_prefix_len := 16 |})).
Definition sample_system fails : Fake fails := MkFake 0 {[str "default" := (str "192.168.1.1", str "wlan0")]} ∅ ∅.
Definition sample_servers : list (list Z) := [str "1.1.1.1"; str "8.8.8.8"].

Lemma sample_clean fails : clean_view (str "pim0") (os_view (sample_system fails)).
Proof. split_and!; [| |done]; intros cidr Hc; repeat (apply elem_of_cons in Hc as [->|Hc]; [by vm_compute|]); by apply elem_of_nil in Hc. Qed.

(** With everything there, and on a bare host. *)
Lemma installer_converges_witness :
  (let k0 := sample_system (λ _ _, false) in
   let '(k, i) := installer_run (str "pim0") sample_servers ([sample_wake true; sample_wake false] ++ [sample_wake true]) (k0, installer_started) in
   os_routes k !! str "128.0.0.0/1" = Some (str "10.77.5.9", str "pim0") ∧ os_routes6 k !! str "::/1" = Some (str "pim0") ∧
   os_dns k !! str "pim0" = Some sample_servers ∧ os_view (installer_cancelled (str "pim0") (k, i)) = os_view k0) ∧
  (let k0 := sample_system bare in
   let '(k, i) := installer_run (str "pim0") sample_servers ([sample_wake false] ++ [sample_wake true]) (k0, installer_started) in
   os_routes k !! str "128.0.0.0/1" = Some (str "10.77.5.9", str "pim0") ∧ os_routes6 k = ∅ ∧ current_dns i = false ∧
   os_view (installer_cancelled (str "pim0") (k, i)) = os_view k0).
Proof.
  cbv zeta. split.
  - pose proof (installer_converges (str "pim0") sample_servers [sample_wake true; sample_wake false] (sample_wake true) _ (sample_clean (λ _ _, false))) as H.
    destruct (installer_run _ _ _ _) as [k i]. destruct H as (Hi & Hv & Hc).
    apply view_parts in Hv as (H4 & H6 & Hd). split_and!; [rewrite H4|rewrite H6|rewrite Hd|done]; rewrite Hi; by vm_compute.
  - pose proof (installer_converges (str "pim0") sample_servers [sample_wake false] (sample_wake true) _ (sample_clean bare)) as H.
    destruct (installer_run _ _ _ _) as [k i]. destruct H as (Hi & Hv & Hc).
    apply view_parts in Hv as (H4 & H6 & _). split_and!; [rewrite H4|rewrite H6| |done]; rewrite Hi; by vm_compute.
Defined.

(** The second command of the daemon's life fails. *)
Lemma half_install_sticks_witness :
  let '(k, i) := reconcile (str "pim0") [] (sample_wake true) (sample_system (λ n _, bool_decide (n = 1%nat)), installer_started) in
  os_routes k !! str "128.0.0.0/1" = None ∧
  let '(k', i') := installer_run (str "pim0") [] (replicate 10 (sample_wake true)) (k, i) in
  current_via_v4 i' = None ∧
  os_routes (installer_cancelled (str "pim0") (k', i')) !! str "0.0.0.0/1" = Some (str "10.77.5.9", str "pim0").
Proof.
  destruct (reconcile _ _ _ _) as [k i] eqn:E.
  assert (current_via_v4 i = None ∧ os_routes k !! str "0.0.0.0/1" = Some (str "10.77.5.9", str "pim0")
    ∧ os_routes k !! str "128.0.0.0/1" = None) as (H1 & H2 & H3).
  { change (current_via_v4 (k, i).2 = None ∧ os_routes (k, i).1 !! str "0.0.0.0/1" = Some (str "10.77.5.9", str "pim0")
      ∧ os_routes (k, i).1 !! str "128.0.0.0/1" = None). rewrite <- E. by vm_compute. }
  split; [done|].
  pose proof (half_install_sticks (str "pim0") [] (replicate 10 (sample_wake true)) k i (str "0.0.0.0/1") _
    ltac:(by left) H1 H2) as H.
  destruct (installer_run _ _ _ _) as [k' i']. by destruct H as (? & _ & ?).
Defined.
