(* ===== verification/RouteCommand.v ===== *)
(** * pim route (crates/pim-cli/src/commands/route.rs)

    The commands that switch the split-default routes from outside the daemon,
    on Linux, and the readers they share with [pim status].  What the
    configuration file says is an argument ([None] when it cannot be read or
    parsed), the system is that of [Tun]. *)

From S2P Require Import Prelude Core MeshAddress Routing Text Tun RouteInstaller.

(** ** Where to route *)
Inductive RouteError := NoConfig | NoGatewayIp | CannotInspect | InterfaceMissing | CannotRun (cidr : list Z) | CommandFailed (cidr : list Z).
Record RouteInfo := MkRouteInfo { ri_iface : list Z; ri_gateway_ip : Z }.

Definition parse_first_ipv4_cidr (s : list Z) : option (list Z) :=
  trim_matches (λ c, (c =? 34) || (c =? 44)) <$> List.find (contains [46]) (split_whitespace s).

Definition first_host_in_subnet (ip prefix_len : Z) : option Z :=
  if 32 <? prefix_len then None else
  let mask := if prefix_len =? 0 then 0
              else if 32 <=? prefix_len then u32_max
              else not_u32 (Z.shiftl 1 (32 - prefix_len) - 1) in
  let network := Z.land ip mask in
  Some (Z.min u32_max (network + 1)).

Definition gateway_ip_from_cidr (cidr : list Z) : option Z :=
  p ← split_once 47 cidr;
  ip ← parse_ipv4 p.1;
  prefix_len ← from_str_radix_u8 p.2 10;
  first_host_in_subnet ip prefix_len.

Definition interface_ipv4_command (iface : list Z) : list (list Z) :=
  [str "ip"; str "-4"; str "-o"; str "addr"; str "show"; str "dev"; iface].
Definition interface_present_command (iface : list Z) : list (list Z) :=
  [str "ip"; str "link"; str "show"; str "dev"; iface].
Definition ip_route_show : list (list Z) := [str "ip"; str "route"; str "show"].
Definition ip6_route_show : list (list Z) := [str "ip"; str "-6"; str "route"; str "show"].

Definition route_present_linux (routes cidr : list Z) (gateway_ip : Z) (iface : list Z) : bool :=
  let expected := cidr ++ str " via " ++ fmt_ipv4 gateway_ip ++ str " dev " ++ iface in
  existsb (contains expected) (lines routes).
Definition route_present_v6 (routes cidr iface : list Z) : bool :=
  let expected := cidr ++ str " dev " ++ iface in
  existsb (contains expected) (lines routes).

Section Commands.
Context `{RouteOs K}.

(** Output that is not UTF-8 counts as none. *)
Definition read_output (k : K) (argv : list (list Z)) : option (list Z) :=
  match os_output k argv with
  | Some (true, out) => if from_utf8 out then Some out else None
  | _ => None
  end.

Definition active_gateway_ip (k : K) (iface : list Z) : option Z :=
  stdout ← read_output k (interface_ipv4_command iface);
  parse_first_ipv4_cidr stdout ≫= gateway_ip_from_cidr.

Definition load_route_info (k : K) (config_iface : option (list Z)) : outcome RouteError RouteInfo :=
  let? iface := ok_or config_iface NoConfig in
  let? gateway_ip := ok_or (active_gateway_ip k iface) NoGatewayIp in
  Ok (MkRouteInfo iface gateway_ip).

Definition rbind {A B} (c : K * outcome RouteError A) (f : K → A → K * outcome RouteError B) : K * outcome RouteError B :=
  match c with (k, Ok a) => f k a | (k, Err e) => (k, Err e) | (k, Panic) => (k, Panic) end.

Definition ensure_pim_interface_present (k : K) (iface : list Z) : K * outcome RouteError unit :=
  match os_status k (interface_present_command iface) with
  | (k, None) => (k, Err CannotInspect)
  | (k, Some true) => (k, Ok ())
  | (k, Some false) => (k, Err InterfaceMissing)
  end.

Definition checked (cidr : list Z) (c : K * option bool) : K * outcome RouteError unit :=
  match c with
  | (k, None) => (k, Err (CannotRun cidr))
  | (k, Some true) => (k, Ok ())
  | (k, Some false) => (k, Err (CommandFailed cidr))
  end.
Definition replace_split_default_route (k : K) (cidr : list Z) (ri : RouteInfo) : K * outcome RouteError unit :=
  checked cidr (os_status k (ip_route_replace cidr (fmt_ipv4 (ri_gateway_ip ri)) (ri_iface ri))).
Definition replace_split_default_route_v6 (k : K) (cidr : list Z) (ri : RouteInfo) : K * outcome RouteError unit :=
  checked cidr (os_status k (ip6_route_replace cidr (ri_iface ri))).

Definition reported (cidr : list Z) (c : K * option bool) : K * outcome RouteError bool :=
  match c with (k, None) => (k, Err (CannotRun cidr)) | (k, Some b) => (k, Ok b) end.
Definition remove_split_default_route (k : K) (cidr : list Z) (ri : RouteInfo) : K * outcome RouteError bool :=
  reported cidr (os_status k (ip_route_del cidr (fmt_ipv4 (ri_gateway_ip ri)) (ri_iface ri))).
Definition remove_split_default_route_v6 (k : K) (cidr : list Z) (ri : RouteInfo) : K * outcome RouteError bool :=
  reported cidr (os_status k (ip6_route_del cidr (ri_iface ri))).

Fixpoint replace_all (f : K → list Z → K * outcome RouteError unit) (k : K) (cidrs : list (list Z)) : K * outcome RouteError unit :=
  match cidrs with
  | [] => (k, Ok ())
  | cidr :: cidrs => rbind (f k cidr) (λ k _, replace_all f k cidrs)
  end.
Fixpoint remove_all (f : K → list Z → K * outcome RouteError bool) (k : K) (cidrs : list (list Z)) (removed : nat)
  : K * outcome RouteError nat :=
  match cidrs with
  | [] => (k, Ok removed)
  | cidr :: cidrs => rbind (f k cidr) (λ k (b : bool), remove_all f k cidrs (if b then S removed else removed))
  end.

Definition cmd_route_on (k : K) (config_iface : option (list Z)) : K * outcome RouteError RouteInfo :=
  rbind (k, load_route_info k config_iface) (λ k ri,
  rbind (ensure_pim_interface_present k (ri_iface ri)) (λ k _,
  rbind (replace_all (λ k cidr, replace_split_default_route k cidr ri) k split_default_cidrs) (λ k _,
  rbind (replace_all (λ k cidr, replace_split_default_route_v6 k cidr ri) k split_default_ipv6_cidrs) (λ k _,
  (k, Ok ri))))).

(** The result is whether anything was removed, which is what is printed. *)
Definition cmd_route_off (k : K) (config_iface : option (list Z)) : K * outcome RouteError bool :=
  rbind (k, load_route_info k config_iface) (λ k ri,
  rbind (remove_all (λ k cidr, remove_split_default_route k cidr ri) k split_default_cidrs 0) (λ k removed,
  rbind (remove_all (λ k cidr, remove_split_default_route_v6 k cidr ri) k split_default_ipv6_cidrs removed) (λ k removed,
  (k, Ok (negb (bool_decide (removed = 0%nat))))))).

Definition split_default_route_present (k : K) (cidr : list Z) (ri : RouteInfo) : bool :=
  match read_output k ip_route_show with
  | Some routes => route_present_linux routes cidr (ri_gateway_ip ri) (ri_iface ri)
  | None => false
  end.
Definition split_default_route_present_v6 (k : K) (cidr : list Z) (ri : RouteInfo) : bool :=
  match read_output k ip6_route_show with
  | Some routes => route_present_v6 routes cidr (ri_iface ri)
  | None => false
  end.

(** Whether "enabled" is printed. *)
Definition cmd_route_status (k : K) (config_iface : option (list Z)) : outcome RouteError bool :=
  let? ri := load_route_info k config_iface in
  let active_v4 := forallb (λ cidr, split_default_route_present k cidr ri) split_default_cidrs in
  let active_v6 := forallb (λ cidr, split_default_route_present_v6 k cidr ri) split_default_ipv6_cidrs in
  Ok (active_v4 && active_v6).
End Commands.

(** ** Live metrics of [pim status] *)
Definition parse_stats_str (s : list Z) : list (list Z * list Z) :=
  omap (split_once 61) (lines s).
Definition read_stats (content : option (list Z)) : option (list (list Z * list Z)) :=
  content ← content;
  let pairs := parse_stats_str content in
  if bool_decide (pairs = []) then None else Some pairs.

(** ** Lemmas *)
Lemma fmt_ipv4_inj a b : u32_ok a → u32_ok b → fmt_ipv4 a = fmt_ipv4 b → a = b.
Proof.
  intros Ha Hb E. destruct (fmt_ipv4_spec a Ha) as [Pa _], (fmt_ipv4_spec b Hb) as [Pb _].
  rewrite E, Pb in Pa. by injection Pa.
Qed.


(** ** Theorems *)
(** [pim route status] never finds the lower IPv6 half missing while the upper
    one is there: its pattern is a part of the other's line. *)
Theorem v6_halves_confused routes iface :
  route_present_v6 routes (str "8000::/1") iface = true → route_present_v6 routes (str "::/1") iface = true.
Proof.
  unfold route_present_v6. rewrite !existsb_exists. intros (l & Hl & Hc). exists l. split; [done|].
  by apply (contains_suffix (str "8000")).
Qed.

(** With only the upper half in the table, both are reported. *)
Lemma v6_halves_confused_witness :
  let routes := str "8000::/1 dev pim0 metric 1024 pref medium" ++ [10] in
  forallb (λ cidr, route_present_v6 routes cidr (str "pim0")) split_default_ipv6_cidrs = true.
Proof.
  cbv zeta. cbn [forallb split_default_ipv6_cidrs]. rewrite v6_halves_confused; by vm_compute.
Defined.

(** The address the command line takes for the gateway: whatever the address
    of the interface, the one after the network address of its subnet. *)
Lemma gateway_ip_from_cidr_first (p : Ipv4Prefix) host : Ipv4Prefix_wf p → 0 ≤ host < 2 ^ (32 - v4_prefix_len p) →
  gateway_ip_from_cidr (fmt_ipv4 (v4_network p + host) ++ str "/" ++ dec_u8 (v4_prefix_len p))
    = Some (Z.min u32_max (v4_network p + 1)).
Proof.
  intros (Hl & Hn & Hz) Hh. set (h := 32 - v4_prefix_len p) in *.
  assert (2 ^ 32 = 2 ^ (32 - h) * 2 ^ h) as Hpow by (rewrite <- Z.pow_add_r by lia; f_equal; lia).
  assert (v4_network p + host < 2 ^ 32) as Hlt.
  { unfold u32_ok in Hn. apply Z.mod_divide in Hz as [q Hq]; [|lia]. rewrite Hq in *.
    assert (q < 2 ^ (32 - h)) by (apply (Z.mul_lt_mono_pos_r (2 ^ h)); lia). nia. }
  unfold gateway_ip_from_cidr. destruct (fmt_ipv4_spec (v4_network p + host)) as [Hp Hs].
  { unfold u32_ok in *. lia. }
  change (str "/" ++ dec_u8 (v4_prefix_len p)) with (47 :: dec_u8 (v4_prefix_len p)).
  rewrite split_once_app by done. cbn [mbind option_bind fst snd]. rewrite Hp. cbn [mbind option_bind].
  destruct (dec_u8_spec (v4_prefix_len p)) as (_ & Hd & _ & _); [unfold u8_ok; lia|]. rewrite Hd. cbn [mbind option_bind].
  unfold first_host_in_subnet. rewrite (proj2 (Z.ltb_ge _ _)) by lia.
  fold (ipv4_netmask (v4_prefix_len p)). rewrite ipv4_netmask_land by (unfold u32_ok in *; lia). fold h.
  rewrite Z.add_mod, Hz, Z.add_0_l, Z.mod_mod, (Z.mod_small host) by lia. do 2 f_equal. lia.
Qed.

Section RouteTheorems.
Context `{RouteOs K} {L : LawfulRoutes K}.
Implicit Types k : K.

(** [ip link show] changes nothing. *)
Class LinkShows : Prop := link_shows k iface : os_view (os_status k (interface_present_command iface)).1 = os_view k.

Lemma replace_all_effect cidrs k ri k' : replace_all (λ k cidr, replace_split_default_route k cidr ri) k cidrs = (k', Ok ()) →
  os_view k' = (with_routes cidrs (fmt_ipv4 (ri_gateway_ip ri), ri_iface ri) (os_routes k), os_routes6 k, os_dns k).
Proof.
  revert k. induction cidrs as [|c cidrs IH]; intros k; cbn [replace_all]; [by intros [= ->]|].
  unfold replace_split_default_route at 1. pose proof (replace_law k c (fmt_ipv4 (ri_gateway_ip ri)) (ri_iface ri)) as HL.
  destruct (os_status _ _) as [k1 [[]|]]; cbn [checked rbind]; try done. destruct HL as (H1 & H2 & H3). rewrite decide_True in H1 by done.
  intros ->%IH. unfold with_routes. cbn [foldl]. congruence.
Qed.
Lemma replace_all_v6_effect cidrs k ri k' : replace_all (λ k cidr, replace_split_default_route_v6 k cidr ri) k cidrs = (k', Ok ()) →
  os_view k' = (os_routes k, with_routes6 cidrs (ri_iface ri) (os_routes6 k), os_dns k).
Proof.
  revert k. induction cidrs as [|c cidrs IH]; intros k; cbn [replace_all]; [by intros [= ->]|].
  unfold replace_split_default_route_v6 at 1. pose proof (replace6_law k c (ri_iface ri)) as HL.
  destruct (os_status _ _) as [k1 [[]|]]; cbn [checked rbind]; try done. destruct HL as (H1 & H2 & H3). rewrite decide_True in H2 by done.
  intros ->%IH. unfold with_routes6. cbn [foldl]. congruence.
Qed.

(** [pim route on], when it reports success, has routed all four halves of the
    address space through the interface, whatever was routed before, and left
    every other route alone. *)
Theorem route_on_routes {LS : LinkShows} k config_iface k' ri : cmd_route_on k config_iface = (k', Ok ri) →
  load_route_info k config_iface = Ok ri ∧
  os_view k' = (with_routes split_default_cidrs (fmt_ipv4 (ri_gateway_ip ri), ri_iface ri) (os_routes k),
                with_routes6 split_default_ipv6_cidrs (ri_iface ri) (os_routes6 k), os_dns k).
Proof.
  unfold cmd_route_on, ensure_pim_interface_present. destruct (load_route_info k config_iface) as [ri0| |]; cbn [rbind]; try done.
  pose proof (link_shows k (ri_iface ri0)) as HS. destruct (os_status _ _) as [k1 [[]|]]; cbn [rbind]; try done.
  cbn in HS. destruct (replace_all _ k1 _) as [k2 [[]| |]] eqn:E2; cbn [rbind]; try done.
  destruct (replace_all _ k2 _) as [k3 [[]| |]] eqn:E3; cbn [rbind]; try done. intros [= <- <-]. split; [done|].
  apply replace_all_effect, view_parts in E2 as (A1 & A2 & A3). apply replace_all_v6_effect in E3 as ->.
  apply view_parts in HS as (B1 & B2 & B3). congruence.
Qed.

Lemma remove_all_keeps cidrs k n ri cidr r : r ≠ (fmt_ipv4 (ri_gateway_ip ri), ri_iface ri) → os_routes k !! cidr = Some r →
  os_routes (remove_all (λ k cidr, remove_split_default_route k cidr ri) k cidrs n).1 !! cidr = Some r.
Proof.
  intros Hne. revert k n. induction cidrs as [|c cidrs IH]; intros k n Hk; cbn [remove_all]; [done|].
  unfold remove_split_default_route at 1. pose proof (del_law k c (fmt_ipv4 (ri_gateway_ip ri)) (ri_iface ri)) as HL.
  destruct (os_status _ _) as [k1 r1]. destruct HL as [(H1 & _) Hn].
  assert (os_routes k1 !! cidr = Some r) as Hk1.
  { rewrite H1. case_decide as E; [|done]. specialize (Hn E). rewrite lookup_delete_ne; [done|]. intros ->. congruence. }
  destruct r1; cbn [reported rbind]; [by apply IH|done].
Qed.
Lemma remove_all_v6_routes cidrs k n ri :
  os_routes (remove_all (λ k cidr, remove_split_default_route_v6 k cidr ri) k cidrs n).1 = os_routes k.
Proof.
  revert k n. induction cidrs as [|c cidrs IH]; intros k n; cbn [remove_all]; [done|].
  unfold remove_split_default_route_v6 at 1. pose proof (del6_law k c (ri_iface ri)) as HL.
  destruct (os_status _ _) as [k1 [b|]]; destruct HL as [(H1 & _) _]; cbn [reported rbind]; [by rewrite IH|done].
Qed.

(** [pim route off] does not switch off what the daemon switched on: the
    routes the installer put through the gateway the mesh selected are still
    there afterwards, unless that gateway happens to have the first address of
    the subnet. *)
Theorem route_off_misses_daemon k config_iface ri gw iface cidr :
  load_route_info k config_iface = Ok ri → u32_ok (ri_gateway_ip ri) → u32_ok gw → gw ≠ ri_gateway_ip ri →
  os_routes k !! cidr = Some (fmt_ipv4 gw, iface) →
  os_routes (cmd_route_off k config_iface).1 !! cidr = Some (fmt_ipv4 gw, iface).
Proof.
  intros Hl Hr Hg Hne Hk. unfold cmd_route_off. rewrite Hl. cbn [rbind].
  pose proof (remove_all_keeps split_default_cidrs k 0 ri cidr (fmt_ipv4 gw, iface)) as Hrem.
  destruct (remove_all _ k _ _) as [k1 [n| |]]; cbn [rbind fst] in *.
  2,3: apply Hrem; [|done]; intros [= E%fmt_ipv4_inj _]; done.
  pose proof (remove_all_v6_routes split_default_ipv6_cidrs k1 n ri) as H6.
  destruct (remove_all _ k1 _ _) as [k2 [m| |]]; cbn [rbind fst] in *; rewrite H6.
  all: apply Hrem; [|done]; intros [= E%fmt_ipv4_inj _]; done.
Qed.
End RouteTheorems.
#[global] Arguments LinkShows K {_}.

#[export] Instance fake_link fails : LinkShows (Fake fails).
Proof.
  intros k iface. cbn [os_status fake_os]. unfold fake_run, interface_present_command. destruct (fails _); [done|].
  rewrite bd_same. done.
Qed.

Lemma route_on_routes_witness :
  let k := sample_system (λ _ _, false) in
  let '(k', r) := cmd_route_on k (Some (str "pim0")) in
  r = Ok (MkRouteInfo (str "pim0") (be_value [10; 77; 0; 1])) ∧
  os_routes k' !! str "0.0.0.0/1" = Some (str "10.77.0.1", str "pim0") ∧ os_routes6 k' !! str "8000::/1" = Some (str "pim0").
Proof.
  cbv zeta. destruct (cmd_route_on _ _) as [k' r] eqn:E.
  assert (r = Ok (MkRouteInfo (str "pim0") (be_value [10; 77; 0; 1]))) as ->.
  { apply (f_equal snd) in E. cbn [snd] in E. rewrite <- E. by vm_compute. }
  destruct (route_on_routes _ _ _ _ E) as [_ (H1 & H2 & _)%view_parts]. rewrite H1, H2. by vm_compute.
Defined.

(** The daemon routes through 10.77.5.9; the user turns the routes off. *)
Lemma route_off_misses_daemon_witness :
  let k := (reconcile (str "pim0") [] (sample_wake true) (sample_system (λ _ _, false), installer_started)).1 in
  cmd_route_status k (Some (str "pim0")) = Ok false ∧
  os_routes (cmd_route_off k (Some (str "pim0"))).1 !! str "0.0.0.0/1" = Some (str "10.77.5.9", str "pim0").
Proof.
  cbv zeta. split; [by vm_compute|]. change (str "10.77.5.9") with (fmt_ipv4 (be_value [10; 77; 5; 9])).
  apply (route_off_misses_daemon _ _ (MkRouteInfo (str "pim0") (be_value [10; 77; 0; 1])));
    [by vm_compute|by apply (bool_decide_unpack _); vm_compute..|by vm_compute].
Defined.
