(* ===== verification/Calendar.v ===== *)
(** * Dates

    The daemon has no calendar library: the RPC server, the log layer and the
    command line compute dates with the same closed formulas
    (crates/pim-daemon/src/rpc.rs and logs_subscriber.rs,
    crates/pim-cli/src/commands/logs.rs), the Bluetooth service with loops
    (crates/pim-bluetooth/src/rfcomm/mod.rs).  The text of a date is a list of
    bytes; instants are seconds since 1970. *)

From S2P Require Import Prelude Core Text.

(** ** Printing *)

(** [as i32] *)
Definition as_i32 (v : Z) : Z := (v + 2 ^ 31) mod 2 ^ 32 - 2 ^ 31.

(** The decimal digits of [0 <= n < 10^fuel]. *)
Fixpoint dec_digits (fuel : nat) (n : Z) : list Z :=
  match fuel with
  | O => []
  | S fuel => if n <? 10 then [48 + n] else dec_digits fuel (n / 10) ++ [48 + n mod 10]
  end.
(** A 64-bit number has at most 20 digits. *)
Definition decimal (n : Z) : list Z := dec_digits 20 n.

(** [{n:0w}]: padded with zeros after the sign. *)
Definition pad_zero (w : nat) (n : Z) : list Z :=
  let sign := if n <? 0 then [45] else [] in
  let ds := decimal (Z.abs n) in
  sign ++ replicate (w - length sign - length ds) 48 ++ ds.

(** ** The closed formulas *)

(** Division of [i64] is towards zero. *)
Definition days_to_ymd (days : Z) : Z * Z * Z :=
  let z := days + 719468 in
  let era := Z.quot (if 0 <=? z then z else z - 146096) 146097 in
  let doe := as_u32 (z - era * 146097) in
  let yoe := (doe - doe / 1460 + doe / 36524 - doe / 146096) / 365 in
  let y := as_i32 (as_i32 yoe + as_i32 (as_i32 era * 400)) in
  let doy := doe - (365 * yoe + yoe / 4 - yoe / 100) in
  let mp := (5 * doy + 2) / 153 in
  let d := doy - (153 * mp + 2) / 5 + 1 in
  let m := if mp <? 10 then mp + 3 else mp - 9 in
  let year := if m <=? 2 then as_i32 (y + 1) else y in
  (year, m, d).

(** [YYYY-MM-DDThh:mm:ss] *)
Definition date_text (y mo d hh mm ss : Z) : list Z :=
  pad_zero 4 y ++ str "-" ++ pad_zero 2 mo ++ str "-" ++ pad_zero 2 d ++ str "T" ++
  pad_zero 2 hh ++ str ":" ++ pad_zero 2 mm ++ str ":" ++ pad_zero 2 ss.

Definition system_time_to_iso8601 (secs : Z) : list Z :=
  let days_since_epoch := secs / 86400 in
  let secs_today := secs mod 86400 in
  let hh := secs_today / 3600 in
  let mm := (secs_today mod 3600) / 60 in
  let ss := secs_today mod 60 in
  let '(y, mo, d) := days_to_ymd days_since_epoch in
  date_text y mo d hh mm ss ++ str "Z".

(** The command line's copy, in 64 bits. *)
Definition unix_secs_to_datetime_prefix (secs : Z) : list Z :=
  let time_of_day := secs mod 86400 in
  let days := secs / 86400 in
  let h := time_of_day / 3600 in
  let m := (time_of_day mod 3600) / 60 in
  let s := time_of_day mod 60 in
  let z := days + 719468 in
  let era := Z.quot (if 0 <=? z then z else z - 146096) 146097 in
  let doe := as_u64 (z - era * 146097) in
  let yoe := (doe - doe / 1460 + doe / 36524 - doe / 146096) / 365 in
  let y := yoe + era * 400 in
  let doy := doe - (365 * yoe + yoe / 4 - yoe / 100) in
  let mp := (5 * doy + 2) / 153 in
  let d := doy - (153 * mp + 2) / 5 + 1 in
  let mo := if mp <? 10 then mp + 3 else mp - 9 in
  let y := if mo <=? 2 then y + 1 else y in
  date_text y mo d h m s.

(** ** The loops *)
Definition is_leap (y : Z) : bool := (y mod 4 =? 0) && negb (y mod 100 =? 0) || (y mod 400 =? 0).

(** [None] is out of fuel. *)
Fixpoint year_loop (fuel : nat) (year days : Z) : option (Z * Z) :=
  match fuel with
  | O => None
  | S fuel =>
    let days_in := if is_leap year then 366 else 365 in
    if days <? days_in then Some (year, days) else year_loop fuel (year + 1) (days - days_in)
  end.

Definition month_days (leap : bool) : list Z := [31; if leap then 29 else 28; 31; 30; 31; 30; 31; 31; 30; 31; 30; 31].

Fixpoint month_loop (ds : list Z) (month days : Z) : Z * Z :=
  match ds with
  | [] => (month, days)
  | d :: ds => if days <? d then (month, days) else month_loop ds (month + 1) (days - d)
  end.

Definition ymdhms_from_unix (t : Z) : option (Z * Z * Z * Z * Z * Z) :=
  let sec := t mod 60 in
  let min := (t / 60) mod 60 in
  let hour := (t / 3600) mod 24 in
  let days := t / 86400 in
  match year_loop (S (Z.to_nat (days / 365))) 1970 days with
  | None => None
  | Some (year, days) =>
    let '(month, days) := month_loop (month_days (is_leap year)) 1 days in
    Some (as_u32 year, month, as_u32 (days + 1), hour, min, sec)
  end.

Definition now_iso (secs : Z) : option (list Z) :=
  match ymdhms_from_unix secs with
  | Some (year, month, day, hour, min, sec) => Some (date_text year month day hour min sec ++ str "Z")
  | None => None
  end.

(** ** The calendar *)

(** Days from 1970 to the start of a year, from there to the start of a month,
    and the length of both. *)
Definition before_year (y : Z) : Z := 365 * (y - 1970) + (y - 1) / 4 - (y - 1) / 100 + (y - 1) / 400 - 477.
Definition year_len (y : Z) : Z := if is_leap y then 366 else 365.
Definition before_month (leap : bool) (m : Z) : Z := foldr Z.add 0 (take (Z.to_nat (m - 1)) (month_days leap)).
Definition month_len (leap : bool) (m : Z) : Z := nth (Z.to_nat (m - 1)) (month_days leap) 0.

(** Day [days] since 1970 is the date [y]-[m]-[d]. *)
Definition is_date (days y m d : Z) : Prop :=
  days = before_year y + before_month (is_leap y) m + (d - 1) ∧ 1 ≤ m ≤ 12 ∧ 1 ≤ d ≤ month_len (is_leap y) m.

Lemma before_year_succ y : before_year (y + 1) = before_year y + year_len y.
Proof.
  unfold before_year, year_len, is_leap. replace (y + 1 - 1) with y by lia.
  destruct (Z.eqb_spec (y mod 4) 0), (Z.eqb_spec (y mod 100) 0), (Z.eqb_spec (y mod 400) 0); cbn [andb orb negb];
    Z.to_euclidean_division_equations; lia.
Qed.

Lemma before_year_mono y y' : y ≤ y' → before_year y ≤ before_year y'.
Proof. unfold before_year. Z.to_euclidean_division_equations. lia. Qed.

(** Every day lies in exactly one year. *)
Lemma year_unique days y y' :
  before_year y ≤ days < before_year (y + 1) → before_year y' ≤ days < before_year (y' + 1) → y = y'.
Proof.
  intros H H'. destruct (Z.lt_trichotomy y y') as [Hl|[?|Hl]]; [|done|].
  - pose proof (before_year_mono (y + 1) y'). lia.
  - pose proof (before_year_mono (y' + 1) y). lia.
Qed.

Lemma year_loop_ok fuel year days :
  0 ≤ days < 365 * Z.of_nat fuel → ∃ y r, year_loop fuel year days = Some (y, r) ∧ year ≤ y ∧ days = before_year y - before_year year + r ∧ 0 ≤ r < year_len y.
Proof.
  revert year days. induction fuel as [|fuel IH]; intros year days Hd; [lia|]. cbn [year_loop]. fold (year_len year).
  destruct (Z.ltb_spec days (year_len year)) as [Hl|Hl]; [eexists _, _; split; [done|lia]|].
  assert (365 ≤ year_len year) by (unfold year_len; destruct (is_leap year); lia).
  destruct (IH (year + 1) (days - year_len year)) as (y & r & -> & Hy & He & Hr); [lia|].
  exists y, r. rewrite before_year_succ in He. split; [done|lia].
Qed.

(** ** Months: the formula of the fifth-of-a-year, the loop and the table

    Finitely many cases, decided by evaluation: [doy] counts from March. *)
Definition month_formula (doy : Z) : Z * Z :=
  let mp := (5 * doy + 2) / 153 in
  (if mp <? 10 then mp + 3 else mp - 9, doy - (153 * mp + 2) / 5 + 1).
Definition month_check (leap : bool) (r : Z) : bool :=
  let lp := if leap then 1 else 0 in
  let '(m, d) := month_loop (month_days leap) 1 r in
  let '(m', d') := month_formula (if r <? 59 + lp then r + 306 else r - 59 - lp) in
  (m =? m') && (d + 1 =? d') && (r =? before_month leap m + d) && (1 <=? m) && (m <=? 12) && (0 <=? d) && (d <? month_len leap m)
  && Bool.eqb (m <=? 2) (r <? 59 + lp).

Lemma month_checked : forallb (λ r, month_check true (Z.of_nat r) && (month_check false (Z.of_nat r) || (365 <=? Z.of_nat r))) (seq 0 366) = true.
Proof. vm_compute. reflexivity. Qed.

Lemma month_cases (leap : bool) r : 0 ≤ r < (if leap then 366 else 365) →
  let lp := if leap then 1 else 0 in
  ∃ m d, month_loop (month_days leap) 1 r = (m, d) ∧
    month_formula (if r <? 59 + lp then r + 306 else r - 59 - lp) = (m, d + 1) ∧
    r = before_month leap m + d ∧ 1 ≤ m ≤ 12 ∧ 0 ≤ d < month_len leap m ∧ (m ≤ 2 ↔ r < 59 + lp).
Proof.
  intros Hr. assert (Hc : month_check leap r = true).
  { pose proof (proj1 (forallb_forall _ _) month_checked (Z.to_nat r)) as H. cbv beta in H. rewrite Z2Nat.id in H by (destruct leap; lia).
    apply andb_true_iff in H as [H1 H2]; [|apply in_seq; destruct leap; lia].
    destruct leap; [done|]. apply orb_true_iff in H2 as [H2|H2]; [done|]. apply Z.leb_le in H2. lia. }
  unfold month_check in Hc. cbv zeta. destruct (month_loop (month_days leap) 1 r) as [m d]. destruct (month_formula _) as [m' d'].
  rewrite !andb_true_iff, !Z.eqb_eq, !Z.leb_le, Z.ltb_lt, eqb_true_iff in Hc. destruct Hc as [[[[[[[-> <-] He] H1] H2] H3] H4] H5].
  exists m', d. split_and!; try done. destruct (Z.leb_spec m' 2), (Z.ltb_spec r (59 + (if leap then 1 else 0))); (done || lia).
Qed.

Definition month_order_check (leap : bool) (m m' : Z) : bool :=
  (0 <=? before_month leap m) && (month_len leap m <=? 31) && (before_month leap m + month_len leap m <=? (if leap then 366 else 365)) &&
  (negb (m <? m') || (before_month leap m + month_len leap m <=? before_month leap m')).

Lemma month_order_checked leap m m' : 1 ≤ m ≤ 12 → 1 ≤ m' ≤ 12 → month_order_check leap m m' = true.
Proof.
  intros Hm Hm'. assert (Hc : forallb (λ a, forallb (λ b, month_order_check true (Z.of_nat a) (Z.of_nat b) && month_order_check false (Z.of_nat a) (Z.of_nat b))
    (seq 1 12)) (seq 1 12) = true) by (vm_compute; reflexivity).
  rewrite forallb_forall in Hc. specialize (Hc (Z.to_nat m)). rewrite forallb_forall in Hc. setoid_rewrite in_seq in Hc.
  specialize (Hc ltac:(lia) (Z.to_nat m') ltac:(lia)). rewrite !Z2Nat.id in Hc by lia. apply andb_true_iff in Hc as [? ?]. by destruct leap.
Qed.

Lemma month_order leap m m' : 1 ≤ m ≤ 12 → 1 ≤ m' ≤ 12 →
  0 ≤ before_month leap m ∧ month_len leap m ≤ 31 ∧ before_month leap m + month_len leap m ≤ (if leap then 366 else 365) ∧
  (m < m' → before_month leap m + month_len leap m ≤ before_month leap m').
Proof.
  intros Hm Hm'. pose proof (month_order_checked leap m m' Hm Hm') as Hc. unfold month_order_check in Hc.
  rewrite !andb_true_iff, !Z.leb_le in Hc. destruct Hc as [[[H0 H1] H2] H3]. split_and!; [done|done|done|].
  intros Hl%Z.ltb_lt. rewrite Hl in H3. by apply Z.leb_le.
Qed.

(** ** The closed formulas are the calendar *)

(** The year of an era of 400 years, counted from March. *)
Lemma yoe_ok doe : 0 ≤ doe < 146097 →
  let yoe := (doe - doe / 1460 + doe / 36524 - doe / 146096) / 365 in
  let doy := doe - (365 * yoe + yoe / 4 - yoe / 100) in
  0 ≤ yoe < 400 ∧ 0 ≤ doy ≤ 365 ∧ (doy = 365 → yoe mod 4 = 3 ∧ (yoe mod 100 = 99 → yoe = 399)).
Proof. intros H. cbv zeta. Z.to_euclidean_division_equations. lia. Qed.

(** A year from March to February, in years from January. *)
Lemma civil_year era yoe doy :
  0 ≤ yoe < 400 → 0 ≤ doy ≤ 365 → (doy = 365 → yoe mod 4 = 3 ∧ (yoe mod 100 = 99 → yoe = 399)) →
  let y := yoe + era * 400 in
  let days := era * 146097 + (365 * yoe + yoe / 4 - yoe / 100) + doy - 719468 in
  (doy < 306 → let lp := if is_leap y then 1 else 0 in
     days = before_year y + (doy + 59 + lp) ∧ 59 + lp ≤ doy + 59 + lp < year_len y) ∧
  (306 ≤ doy → let lp := if is_leap (y + 1) then 1 else 0 in days = before_year (y + 1) + (doy - 306) ∧ 0 ≤ doy - 306 < 59 + lp).
Proof.
  intros Hy Hd H365. cbv zeta. unfold before_year, year_len, is_leap. split; intros Hm;
  [set (Y := yoe + era * 400) | set (Y := yoe + era * 400 + 1)];
    destruct (Z.eqb_spec (Y mod 4) 0), (Z.eqb_spec (Y mod 100) 0), (Z.eqb_spec (Y mod 400) 0); cbn [andb orb negb]; subst Y;
    Z.to_euclidean_division_equations; lia.
Qed.

(** The formulas without casts. *)
Definition civil_of (days : Z) : Z * Z * Z :=
  let z := days + 719468 in
  let era := z / 146097 in
  let doe := z mod 146097 in
  let yoe := (doe - doe / 1460 + doe / 36524 - doe / 146096) / 365 in
  let '(m, d) := month_formula (doe - (365 * yoe + yoe / 4 - yoe / 100)) in
  (if m <=? 2 then yoe + era * 400 + 1 else yoe + era * 400, m, d).

Lemma civil_of_ok days : 
  ∃ y r m d, civil_of days = (y, m, d + 1) ∧ days = before_year y + r ∧ 0 ≤ r < year_len y ∧
    month_loop (month_days (is_leap y)) 1 r = (m, d) ∧ is_date days y m (d + 1).
Proof.
  unfold civil_of. set (era := (days + 719468) / 146097). set (doe := (days + 719468) mod 146097).
  assert (Hdays : days = era * 146097 + doe - 719468) by (unfold era, doe; Z.to_euclidean_division_equations; lia).
  assert (Hdoe : 0 ≤ doe < 146097) by (apply Z.mod_pos_bound; lia). clearbody era doe. cbv zeta.
  destruct (yoe_ok doe Hdoe) as (Hy & Hd & H365).
  set (yoe := (doe - doe / 1460 + doe / 36524 - doe / 146096) / 365) in *. set (doy := doe - (365 * yoe + yoe / 4 - yoe / 100)) in *.
  destruct (civil_year era yoe doy Hy Hd H365) as [Hlo Hhi]. cbv zeta in Hlo, Hhi.
  assert (Hyd : days = era * 146097 + (365 * yoe + yoe / 4 - yoe / 100) + doy - 719468) by (unfold doy; lia).
  rewrite <- Hyd in Hlo, Hhi. clearbody yoe doy. clear Hdoe Hdays Hyd H365 doe.
  destruct (Z.ltb_spec doy 306) as [H|H].
  - destruct (Hlo H) as [He Hr]. clear Hlo Hhi. set (y := yoe + era * 400) in *.
    destruct (month_cases (is_leap y) (doy + 59 + (if is_leap y then 1 else 0))) as (m & d & Hl & Hf & Hb & Hm & Hdm & H2).
    { unfold year_len in Hr. destruct (is_leap y); lia. }
    cbv zeta in Hf. rewrite (proj2 (Z.ltb_ge _ _)) in Hf by lia.
    replace (doy + 59 + (if is_leap y then 1 else 0) - 59 - (if is_leap y then 1 else 0)) with doy in Hf by lia.
    exists y, (doy + 59 + (if is_leap y then 1 else 0)), m, d. rewrite Hf. rewrite (proj2 (Z.leb_gt m 2)) by lia.
    split_and!; try done; try lia; [destruct (is_leap y); lia|]. split_and!; lia.
  - destruct (Hhi H) as [He Hr]. clear Hlo Hhi. set (y := yoe + era * 400 + 1) in *.
    destruct (month_cases (is_leap y) (doy - 306)) as (m & d & Hl & Hf & Hb & Hm & Hdm & H2); [destruct (is_leap y); lia|].
    cbv zeta in Hf. rewrite (proj2 (Z.ltb_lt _ _)) in Hf by lia. replace (doy - 306 + 306) with doy in Hf by lia.
    exists y, (doy - 306), m, d. rewrite Hf. rewrite (proj2 (Z.leb_le m 2)) by lia.
    split_and!; try done; try lia; [unfold year_len; destruct (is_leap y); lia|]. split_and!; lia.
Qed.

Lemma as_i32_id v : - 2 ^ 31 ≤ v < 2 ^ 31 → as_i32 v = v.
Proof. intros H. unfold as_i32. rewrite Z.mod_small; lia. Qed.

Lemma civil_year_bound days : 0 ≤ days < 2 ^ 39 → 0 ≤ (days + 719468) / 146097 < 2 ^ 22.
Proof. intros. Z.to_euclidean_division_equations. lia. Qed.

Lemma days_to_ymd_civil days : 0 ≤ days < 2 ^ 39 → days_to_ymd days = civil_of days.
Proof.
  intros Hd. unfold days_to_ymd, civil_of, month_formula. rewrite (proj2 (Z.leb_le 0 (days + 719468))) by lia.
  rewrite Z.quot_div_nonneg by lia. pose proof (civil_year_bound days Hd) as He.
  set (era := (days + 719468) / 146097) in *. assert (Hm : days + 719468 - era * 146097 = (days + 719468) mod 146097).
  { unfold era. rewrite Z.mod_eq by done. lia. }
  rewrite Hm. set (doe := (days + 719468) mod 146097) in *. assert (Hdoe : 0 ≤ doe < 146097) by (apply Z.mod_pos_bound; lia).
  rewrite (as_u32_small doe) by (unfold u32_ok; lia). cbv zeta. destruct (yoe_ok doe Hdoe) as (Hy & _ & _).
  set (yoe := (doe - doe / 1460 + doe / 36524 - doe / 146096) / 365) in *.
  by rewrite (as_i32_id yoe), (as_i32_id era), (as_i32_id (era * 400)), (as_i32_id (yoe + era * 400)), (as_i32_id (yoe + era * 400 + 1)) by lia.
Qed.

Lemma prefix_civil t : 0 ≤ t →
  unix_secs_to_datetime_prefix t =
  let '(y, m, d) := civil_of (t / 86400) in date_text y m d ((t mod 86400) / 3600) (((t mod 86400) mod 3600) / 60) ((t mod 86400) mod 60).
Proof.
  intros Ht. assert (Hd : 0 ≤ t / 86400) by (apply Z.div_pos; lia).
  unfold unix_secs_to_datetime_prefix, civil_of, month_formula. set (days := t / 86400) in *.
  rewrite (proj2 (Z.leb_le 0 (days + 719468))) by lia. rewrite Z.quot_div_nonneg by lia.
  set (era := (days + 719468) / 146097). assert (Hm : days + 719468 - era * 146097 = (days + 719468) mod 146097).
  { unfold era. rewrite Z.mod_eq by done. lia. }
  rewrite Hm. set (doe := (days + 719468) mod 146097). assert (Hdoe : 0 ≤ doe < 146097) by (apply Z.mod_pos_bound; lia).
  unfold as_u64. by rewrite (Z.mod_small doe) by lia.
Qed.

(** ** The three clocks *)
Lemma clock_fields t : 0 ≤ t →
  (t mod 86400) / 3600 = (t / 3600) mod 24 ∧ ((t mod 86400) mod 3600) / 60 = (t / 60) mod 60 ∧ (t mod 86400) mod 60 = t mod 60.
Proof. intros. Z.to_euclidean_division_equations. lia. Qed.

Lemma ymdhms_civil t : 0 ≤ t < 2 ^ 55 →
  ∃ y m d, civil_of (t / 86400) = (y, m, d) ∧ is_date (t / 86400) y m d ∧ 1970 ≤ y < 2 ^ 31 ∧
    ymdhms_from_unix t = Some (y, m, d, (t / 3600) mod 24, (t / 60) mod 60, t mod 60).
Proof.
  intros Ht. set (days := t / 86400). assert (Hdays : 0 ≤ days < 2 ^ 39) by (unfold days; Z.to_euclidean_division_equations; lia).
  destruct (civil_of_ok days) as (y & r & m & d & Hc & He & Hr & Hm & Hdate).
  destruct (year_loop_ok (S (Z.to_nat (days / 365))) 1970 days) as (y' & r' & Hl & Hge & He' & Hr').
  { assert (0 ≤ days / 365) by (apply Z.div_pos; lia). rewrite Nat2Z.inj_succ, Z2Nat.id by lia. Z.to_euclidean_division_equations. lia. }
  change (before_year 1970) with 0 in He'.
  assert (y' = y) as ->.
  { apply (year_unique days); rewrite before_year_succ; lia. }
  assert (r' = r) as -> by lia. exists y, m, (d + 1).
  assert (Hyb : y < 2 ^ 31).
  { unfold before_year in He. Z.to_euclidean_division_equations. lia. }
  split_and!; [done|done|lia|done|]. unfold ymdhms_from_unix. fold days. rewrite Hl, Hm.
  destruct Hdate as (_ & Hmr & Hd). destruct (month_order (is_leap y) m m Hmr Hmr) as (_ & H31 & _).
  by rewrite !as_u32_small by (unfold u32_ok; lia).
Qed.

(** The calendars of the program agree: for every second of the next
    billion years the loops of the Bluetooth service terminate and give the
    true date, a day of an existing month, and the closed formulas of the
    daemon and of the command line give that date too, so that the three
    write the same text. *)
Theorem calendars_agree t :
  0 ≤ t < 2 ^ 55 →
  ∃ y m d, is_date (t / 86400) y m d ∧
    days_to_ymd (t / 86400) = (y, m, d) ∧
    ymdhms_from_unix t = Some (y, m, d, (t / 3600) mod 24, (t / 60) mod 60, t mod 60) ∧
    now_iso t = Some (system_time_to_iso8601 t) ∧
    system_time_to_iso8601 t = unix_secs_to_datetime_prefix t ++ str "Z".
Proof.
  intros Ht. destruct (ymdhms_civil t Ht) as (y & m & d & Hc & Hdate & Hy & Hl). exists y, m, d.
  assert (Hdays : 0 ≤ t / 86400 < 2 ^ 39) by (Z.to_euclidean_division_equations; lia).
  assert (Hf : days_to_ymd (t / 86400) = (y, m, d)) by (by rewrite days_to_ymd_civil).
  destruct (clock_fields t) as (H1 & H2 & H3); [lia|].
  split_and!; [done|done|done|..].
  - unfold now_iso, system_time_to_iso8601. by rewrite Hl, Hf, H1, H2, H3.
  - unfold system_time_to_iso8601. rewrite Hf. f_equal. by rewrite prefix_civil, Hc by lia.
Qed.

Lemma calendars_agree_witness : now_iso 1700000000 = Some (str "2023-11-14T22:13:20Z").
Proof. destruct (calendars_agree 1700000000) as (y & m & d & _ & _ & _ & -> & _); [lia|]. by vm_compute. Defined.

(** ** Dates as text sort like instants *)

(** The order of strings, strict. *)
Definition bytes_lt (a b : list Z) : bool := negb (bytes_le b a).

(** The last [w] digits. *)
Fixpoint fixed (w : nat) (n : Z) : list Z :=
  match w with O => [] | S w => fixed w (n / 10) ++ [48 + n mod 10] end.

Lemma length_fixed w n : length (fixed w n) = w.
Proof. revert n. induction w as [|w IH]; intros n; [done|]. cbn. rewrite length_app, IH. cbn. lia. Qed.

Lemma pad_zero_fixed2 n : 0 ≤ n < 100 → pad_zero 2 n = fixed 2 n.
Proof.
  intros H. assert (Hc : forallb (λ n, bool_decide (pad_zero 2 (Z.of_nat n) = fixed 2 (Z.of_nat n))) (seq 0 100) = true) by (vm_compute; reflexivity).
  rewrite forallb_forall in Hc. specialize (Hc (Z.to_nat n)). rewrite Z2Nat.id in Hc by lia. apply bool_decide_eq_true in Hc; [done|].
  apply in_seq. lia.
Qed.

Lemma dec_digits_fixed k f n : (k ≤ f)%nat → (0 < k)%nat → (k = 1%nat ∨ 10 ^ (Z.of_nat k - 1) ≤ n) → 0 ≤ n < 10 ^ Z.of_nat k → dec_digits f n = fixed k n.
Proof.
  revert f n. induction k as [|k IH]; intros f n Hf Hk Hlo Hn; [lia|]. destruct f as [|f]; [lia|]. cbn [dec_digits fixed].
  destruct (Z.ltb_spec n 10) as [H|H].
  - destruct k as [|k]; [cbn; by rewrite Z.mod_small by lia|]. destruct Hlo as [?|Hlo]; [done|].
    assert (10 ≤ 10 ^ (Z.of_nat (S (S k)) - 1)); [|lia]. change 10 with (10 ^ 1) at 1. apply Z.pow_le_mono_r; lia.
  - destruct k as [|k]; [change (10 ^ Z.of_nat 1) with 10 in Hn; lia|]. f_equal. apply IH; [lia|lia| |].
    + right. destruct Hlo as [?|Hlo]; [done|]. apply Z.div_le_lower_bound; [lia|].
      replace (10 * 10 ^ (Z.of_nat (S k) - 1)) with (10 ^ (Z.of_nat (S (S k)) - 1)); [done|].
      rewrite <- (Z.pow_succ_r 10) by lia. f_equal. lia.
    + split; [apply Z.div_pos; lia|]. apply Z.div_lt_upper_bound; [lia|]. rewrite <- (Z.pow_succ_r 10) by lia.
      replace (Z.succ (Z.of_nat (S k))) with (Z.of_nat (S (S k))) by lia. lia.
Qed.

Lemma bytes_lt_app_l a a' b b' : length a = length a' → bytes_lt a a' = true → bytes_lt (a ++ b) (a' ++ b') = true.
Proof.
  unfold bytes_lt. revert a'. induction a as [|x a IH]; intros [|x' a'] Hl H; try done. cbn in *. rewrite negb_true_iff in *.
  destruct (Z.ltb_spec x' x), (Z.eqb_spec x' x); cbn in *; (done || lia || (apply negb_true_iff, IH; [lia|by rewrite H])).
Qed.

Lemma bytes_lt_app_r a b b' : bytes_lt b b' = true → bytes_lt (a ++ b) (a ++ b') = true.
Proof.
  unfold bytes_lt. intros H. induction a as [|x a IH]; [done|]. cbn. by rewrite Z.ltb_irrefl, Z.eqb_refl.
Qed.

Lemma bytes_lt_irrefl a : bytes_lt a a = false.
Proof. unfold bytes_lt. by rewrite bytes_le_refl. Qed.

Lemma fixed_lt w n n' : 0 ≤ n → n < n' → n' < 10 ^ Z.of_nat w → bytes_lt (fixed w n) (fixed w n') = true.
Proof.
  revert n n'. induction w as [|w IH]; intros n n' H0 H H'; [change (10 ^ Z.of_nat 0) with 1 in H'; lia|]. cbn [fixed].
  destruct (Z.eq_dec (n / 10) (n' / 10)) as [He|Hne].
  - rewrite He. apply bytes_lt_app_r. unfold bytes_lt. cbn. rewrite (proj2 (Z.ltb_ge _ _)), (proj2 (Z.eqb_neq _ _)); [done|..];
      Z.to_euclidean_division_equations; lia.
  - apply bytes_lt_app_l; [by rewrite !length_fixed|]. apply IH; [apply Z.div_pos; lia|Z.to_euclidean_division_equations; lia|].
    apply Z.div_lt_upper_bound; [lia|]. rewrite <- (Z.pow_succ_r 10) by lia. by rewrite <- Nat2Z.inj_succ.
Qed.

(** The first field that differs decides. *)
Definition lex6 (f f' : Z * Z * Z * Z * Z * Z) : Prop :=
  let '(y, m, d, h, i, s) := f in let '(y', m', d', h', i', s') := f' in
  y < y' ∨ y = y' ∧ (m < m' ∨ m = m' ∧ (d < d' ∨ d = d' ∧ (h < h' ∨ h = h' ∧ (i < i' ∨ i = i' ∧ s < s')))).
Definition fields_ok (f : Z * Z * Z * Z * Z * Z) : Prop :=
  let '(y, m, d, h, i, s) := f in 1970 ≤ y < 10000 ∧ 0 ≤ m < 100 ∧ 0 ≤ d < 100 ∧ 0 ≤ h < 100 ∧ 0 ≤ i < 100 ∧ 0 ≤ s < 100.

Lemma pad_zero_fixed4 n : 1970 ≤ n < 10000 → pad_zero 4 n = fixed 4 n.
Proof.
  intros H. unfold pad_zero, decimal. rewrite (proj2 (Z.ltb_ge n 0)), Z.abs_eq by lia.
  rewrite (dec_digits_fixed 4 20 n), length_fixed; [done|lia|lia|right; cbn; lia|cbn; lia].
Qed.

Lemma date_text_fixed y m d h i s : fields_ok (y, m, d, h, i, s) →
  date_text y m d h i s = fixed 4 y ++ str "-" ++ fixed 2 m ++ str "-" ++ fixed 2 d ++ str "T" ++ fixed 2 h ++ str ":" ++ fixed 2 i ++ str ":" ++ fixed 2 s.
Proof. intros (Hy & Hm & Hd & Hh & Hi & Hs). unfold date_text. by rewrite pad_zero_fixed4, !pad_zero_fixed2. Qed.

Lemma date_text_lt y m d h i s y' m' d' h' i' s' :
  fields_ok (y, m, d, h, i, s) → fields_ok (y', m', d', h', i', s') → lex6 (y, m, d, h, i, s) (y', m', d', h', i', s') →
  bytes_lt (date_text y m d h i s) (date_text y' m' d' h' i' s') = true.
Proof.
  intros Hf Hf' Hlex. rewrite !date_text_fixed by done. destruct Hf as (Hy & Hm & Hd & Hh & Hi & Hs), Hf' as (Hy' & Hm' & Hd' & Hh' & Hi' & Hs').
  assert (Hfield : ∀ w n n' b b', 0 ≤ n → n < n' → n' < 10 ^ Z.of_nat w → bytes_lt (fixed w n ++ b) (fixed w n' ++ b') = true).
  { intros. apply bytes_lt_app_l; [by rewrite !length_fixed|by apply fixed_lt]. }
  destruct Hlex as [H|[-> [H|[-> [H|[-> [H|[-> [H|[-> H]]]]]]]]]]; repeat (first [apply Hfield; cbn; lia | apply bytes_lt_app_r | apply fixed_lt; cbn; lia]).
Qed.

Lemma is_date_year days y m d : is_date days y m d → before_year y ≤ days < before_year (y + 1).
Proof.
  intros (-> & Hm & Hd). rewrite before_year_succ. destruct (month_order (is_leap y) m m Hm Hm) as (? & ? & ? & _). unfold year_len. lia.
Qed.

Lemma is_date_lex days days' y m d y' m' d' :
  is_date days y m d → is_date days' y' m' d' → days < days' → y < y' ∨ y = y' ∧ (m < m' ∨ m = m' ∧ d < d').
Proof.
  intros Hd Hd' Hlt. pose proof (is_date_year _ _ _ _ Hd) as Hy. pose proof (is_date_year _ _ _ _ Hd') as Hy'.
  destruct (Z.lt_trichotomy y y') as [?|[->|Hgt]]; [by left| |pose proof (before_year_mono (y' + 1) y); lia]. right. split; [done|].
  destruct Hd as (-> & Hm & Hdd), Hd' as (-> & Hm' & Hdd'). destruct (Z.lt_trichotomy m m') as [?|[->|Hgt]]; [by left|right; lia|].
  destruct (month_order (is_leap y') m' m Hm' Hm) as (_ & _ & _ & Ho). specialize (Ho Hgt). lia.
Qed.

(** A day has one date. *)
Lemma is_date_inj days y m d y' m' d' : is_date days y m d → is_date days y' m' d' → (y, m, d) = (y', m', d').
Proof.
  intros Hd Hd'. assert (y = y') as -> by (apply (year_unique days); by eapply is_date_year).
  destruct Hd as (He & Hm & Hdd), Hd' as (He' & Hm' & Hdd'). assert (m = m') as ->; [|f_equal; lia].
  destruct (Z.lt_trichotomy m m') as [Hc|[?|Hc]]; [|done|];
    [destruct (month_order (is_leap y') m m' Hm Hm') as (_ & _ & _ & Ho)|destruct (month_order (is_leap y') m' m Hm' Hm) as (_ & _ & _ & Ho)];
    specialize (Ho Hc); lia.
Qed.

(** The end of year 9999. *)
Definition YEAR_10000 : Z := 253402300800.

Lemma prefix_fields t : 0 ≤ t < YEAR_10000 → ∃ y m d,
  is_date (t / 86400) y m d ∧ fields_ok (y, m, d, (t / 3600) mod 24, (t / 60) mod 60, t mod 60) ∧
  unix_secs_to_datetime_prefix t = date_text y m d ((t / 3600) mod 24) ((t / 60) mod 60) (t mod 60).
Proof.
  unfold YEAR_10000. intros Ht. destruct (ymdhms_civil t) as (y & m & d & Hc & Hdate & Hy & _); [lia|]. exists y, m, d.
  destruct (clock_fields t) as (H1 & H2 & H3); [lia|]. split_and!; [done| |by rewrite prefix_civil, Hc, H1, H2, H3 by lia].
  pose proof (is_date_year _ _ _ _ Hdate) as Hyr. destruct Hdate as (_ & Hm & Hd). destruct (month_order (is_leap y) m m Hm Hm) as (_ & H31 & _).
  assert (y < 10000). { destruct (Z.lt_ge_cases y 10000) as [?|Hge]; [done|]. pose proof (before_year_mono 10000 y Hge) as Hb.
    change (before_year 10000) with 2932897 in Hb. assert (t / 86400 < 2932897) by (apply Z.div_lt_upper_bound; lia). lia. }
  unfold fields_ok. pose proof (Z.mod_pos_bound (t / 3600) 24). pose proof (Z.mod_pos_bound (t / 60) 60). pose proof (Z.mod_pos_bound t 60). lia.
Qed.

(** The dates the command line compares as strings compare like instants, to
    the end of the year 9999: the text of an earlier second is smaller. *)
Lemma date_text_order t t' :
  0 ≤ t < YEAR_10000 → 0 ≤ t' < YEAR_10000 →
  bytes_lt (unix_secs_to_datetime_prefix t) (unix_secs_to_datetime_prefix t') = (t <? t').
Proof.
  intros Ht Ht'. assert (Hmono : ∀ a b, 0 ≤ a < YEAR_10000 → 0 ≤ b < YEAR_10000 → a < b →
    bytes_lt (unix_secs_to_datetime_prefix a) (unix_secs_to_datetime_prefix b) = true).
  { clear t t' Ht Ht'. intros t t' Ht Ht' Hlt. destruct (prefix_fields t Ht) as (y & m & d & Hd & Hf & ->).
    destruct (prefix_fields t' Ht') as (y' & m' & d' & Hd' & Hf' & ->). apply date_text_lt; [done|done|]. cbn.
    destruct (Z.lt_ge_cases (t / 86400) (t' / 86400)) as [Hl|Hge].
    - destruct (is_date_lex _ _ _ _ _ _ _ _ Hd Hd' Hl); lia.
    - assert (He : t / 86400 = t' / 86400) by (Z.to_euclidean_division_equations; lia). rewrite <- He in Hd'.
      pose proof (is_date_inj _ _ _ _ _ _ _ Hd Hd') as [= -> -> ->].
      right. split; [done|]. right. split; [done|]. right. split; [done|]. Z.to_euclidean_division_equations. lia. }
  destruct (Z.ltb_spec t t') as [Hl|Hge]; [by apply Hmono|]. destruct (Z.eq_dec t t') as [->|Hne]; [apply bytes_lt_irrefl|].
  assert (Hgt : bytes_lt (unix_secs_to_datetime_prefix t') (unix_secs_to_datetime_prefix t) = true) by (apply Hmono; (done || lia)).
  unfold bytes_lt in *. apply negb_true_iff in Hgt. destruct (bytes_le_total (unix_secs_to_datetime_prefix t') (unix_secs_to_datetime_prefix t)) as [->|He]; [done|].
  congruence.
Qed.
