(* ===== verification/LogView.v ===== *)
(** * The log viewer (crates/pim-cli/src/commands/logs.rs)

    [pim logs] shows the lines of a log file between two instants, which are
    compared as text.  The lines the file has when it is opened and those that
    arrive afterwards are arguments; each is what [read_line] returns, line feed
    included.  Waiting for the file and following a rotation are not
    modelled. *)

From S2P Require Import Prelude Core Text Calendar.

Inductive LogsError := InvalidTimeSpec.

(** ** Time specifications *)

(** [num.parse::<u64>()] of a string of digits; [None] when it is empty or does
    not fit. *)
Definition digits_value (num : list Z) : Z := fold_left (λ v b, v * 10 + (b - 48)) num 0.
Definition parse_u64 (num : list Z) : option Z :=
  if bool_decide (num = []) then None else
  if digits_value num <? 2 ^ 64 then Some (digits_value num) else None.

(** Arithmetic that does not fit is a panic, as in a build with overflow
    checks. *)
Definition checked_u64 (v : Z) : outcome LogsError Z := if v <? 2 ^ 64 then Ok v else Panic.

(** The unit's seconds; anything else ends the loop. *)
Definition unit_secs (c : Z) : option Z :=
  if c =? 115 then Some 1 else if c =? 109 then Some 60 else if c =? 104 then Some 3600 else if c =? 100 then Some 86400 else None.

Fixpoint duration_loop (s : list Z) (total : Z) (num : list Z) : outcome LogsError (option (Z * list Z)) :=
  match s with
  | [] => Ok (Some (total, num))
  | c :: s =>
    if in_range 48 57 c then duration_loop s total (num ++ [c])
    else match parse_u64 num with
         | None => Ok None
         | Some n =>
           match unit_secs c with
           | None => Ok None
           | Some u => let? v := checked_u64 (n * u) in let? total := checked_u64 (total + v) in duration_loop s total []
           end
         end
  end.
Definition parse_relative_duration (s : list Z) : outcome LogsError (option Z) :=
  if bool_decide (s = []) then Ok None else
  let? r := duration_loop s 0 [] in
  match r with
  | None => Ok None
  | Some (total, num) => if negb (bool_decide (num = [])) then Ok None else Ok (if 0 <? total then Some total else None)
  end.

(** [s[..19]]: a panic inside a character. *)
Definition first19 (s : list Z) : outcome LogsError (list Z) :=
  match s !! 19%nat with Some b => if utf8_cont b then Panic else Ok (take 19 s) | None => Ok (take 19 s) end.

Definition parse_time_spec (now : Z) (spec : list Z) : outcome LogsError (list Z) :=
  let? offset := parse_relative_duration spec in
  match offset with
  | Some offset_secs => Ok (unix_secs_to_datetime_prefix (Z.max 0 (now - offset_secs)))
  | None => if bool_decide (19 ≤ length spec)%nat && bool_decide (84 ∈ spec) then first19 spec else Err InvalidTimeSpec
  end.

(** ** Lines *)
Definition is_ascii_whitespace (b : Z) : bool := (b =? 32) || (b =? 9) || (b =? 10) || (b =? 12) || (b =? 13).

(** The first word: [split_ascii_whitespace().next()]. *)
Fixpoint take_word (s : list Z) : list Z :=
  match s with b :: s => if is_ascii_whitespace b then [] else b :: take_word s | [] => [] end.
Fixpoint first_word (s : list Z) : option (list Z) :=
  match s with b :: s' => if is_ascii_whitespace b then first_word s' else Some (take_word s) | [] => None end.

Definition line_timestamp (line : list Z) : outcome LogsError (option (list Z)) :=
  match first_word line with
  | None => Ok None
  | Some ts =>
    if bool_decide (19 ≤ length ts)%nat && bool_decide (84 ∈ ts) then let? t := first19 ts in Ok (Some t) else Ok None
  end.

(** The order of [Option<&str>], strict. *)
Definition opt_lt (a b : option (list Z)) : bool :=
  match a, b with None, Some _ => true | Some a, Some b => bytes_lt a b | _, None => false end.

(** From the first whitespace on, without it; the whole line if there is none. *)
Fixpoint from_whitespace (s : list Z) : option (list Z) :=
  match s with b :: s' => if is_ascii_whitespace b then Some s else from_whitespace s' | [] => None end.
Definition without_timestamp (line : list Z) : list Z :=
  let body := match from_whitespace line with Some rest => trim_start rest | None => line end in
  if bool_decide (last body = Some 10) then body else body ++ [10].

(** What is printed, and whether the end of the window is passed. *)
Definition emit_line (line : list Z) (since_prefix until_prefix : option (list Z)) (no_timestamp : bool)
  : outcome LogsError (bool * list Z) :=
  let? ts := line_timestamp line in
  if match since_prefix with Some s => opt_lt ts (Some s) | None => false end then Ok (false, []) else
  if match until_prefix with Some u => opt_lt (Some u) ts | None => false end then Ok (true, []) else
  Ok (false, if no_timestamp then without_timestamp line else line).

Fixpoint emit_lines (ls : list (list Z)) (since_prefix until_prefix : option (list Z)) (no_timestamp : bool)
  : outcome LogsError (bool * list Z) :=
  match ls with
  | [] => Ok (false, [])
  | l :: ls =>
    let? (stop, out) := emit_line l since_prefix until_prefix no_timestamp in
    if (stop : bool) then Ok (true, out) else
    let? (stop, outs) := emit_lines ls since_prefix until_prefix no_timestamp in
    Ok (stop, out ++ outs)
  end.

Definition parse_spec_opt (now : Z) (spec : option (list Z)) : outcome LogsError (option (list Z)) :=
  match spec with None => Ok None | Some s => let? p := parse_time_spec now s in Ok (Some p) end.

(** [later] is what arrives while the file is followed; [now] and [now'] are
    the readings of the clock for the two specifications. *)
Definition cmd_logs (now now' : Z) (no_follow : bool) (n_lines : nat) (no_timestamp : bool) (since until : option (list Z))
    (existing later : list (list Z)) : outcome LogsError (list Z) :=
  let? since_prefix := parse_spec_opt now since in
  let? until_prefix := parse_spec_opt now' until in
  let follow := negb no_follow && bool_decide (until_prefix = None) in
  let start := match n_lines with O => O | n => (length existing - n)%nat end in
  let? (stop, out) := emit_lines (drop start existing) since_prefix until_prefix no_timestamp in
  if negb follow || stop then Ok out else
  let? (_, outs) := emit_lines later since_prefix until_prefix no_timestamp in
  Ok (out ++ outs).

(** ** Durations *)
Lemma digits_value_snoc ds d : digits_value (ds ++ [d]) = digits_value ds * 10 + (d - 48).
Proof. unfold digits_value. by rewrite fold_left_app. Qed.

Lemma dec_digits_value f n : 0 ≤ n < 10 ^ Z.of_nat f → digits_value (dec_digits f n) = n ∧ (0 < f → dec_digits f n ≠ [])%nat.
Proof.
  revert n. induction f as [|f IH]; intros n Hn; [change (10 ^ Z.of_nat 0) with 1 in Hn; cbn; split; [lia|lia]|]. cbn [dec_digits].
  destruct (Z.ltb_spec n 10); [split; [unfold digits_value; cbn [fold_left]; lia|done]|]. rewrite digits_value_snoc. split; [|intros _ [? ?]%app_eq_nil; done].
  destruct (IH (n / 10)) as [-> _]; [|pose proof (Z.div_mod n 10); lia].
  split; [apply Z.div_pos; lia|]. apply Z.div_lt_upper_bound; [lia|]. rewrite Nat2Z.inj_succ, Z.pow_succ_r in Hn by lia. lia.
Qed.

Lemma decimal_digits f n : 0 ≤ n → Forall (λ b, in_range 48 57 b = true) (dec_digits f n).
Proof.
  revert n. induction f as [|f IH]; intros n Hn; [done|]. cbn [dec_digits]. destruct (Z.ltb_spec n 10).
  - repeat constructor. unfold in_range. rewrite !(proj2 (Z.leb_le _ _)); (done || lia).
  - apply Forall_app. split; [apply IH, Z.div_pos; lia|]. repeat constructor. pose proof (Z.mod_pos_bound n 10).
    unfold in_range. rewrite !(proj2 (Z.leb_le _ _)); (done || lia).
Qed.

Lemma duration_loop_digits ds s total num : Forall (λ b, in_range 48 57 b = true) ds →
  duration_loop (ds ++ s) total num = duration_loop s total (num ++ ds).
Proof.
  intros Hds. revert num. induction Hds as [|d ds Hd _ IH]; intros num; [by rewrite app_nil_r|]. cbn [app duration_loop].
  rewrite Hd, IH. by rewrite <- app_assoc.
Qed.

(** A sum of amounts with their units, as the user types it. *)
Definition duration_text (parts : list (Z * Z)) : list Z := flat_map (λ p, decimal p.1 ++ [p.2]) parts.
Definition duration_value (parts : list (Z * Z)) : Z := foldr (λ p v, p.1 * match unit_secs p.2 with Some u => u | None => 0 end + v) 0 parts.
Definition duration_ok (parts : list (Z * Z)) : Prop := Forall (λ p, 0 ≤ p.1 ∧ is_Some (unit_secs p.2)) parts.

Lemma unit_secs_pos c u : unit_secs c = Some u → 1 ≤ u ∧ in_range 48 57 c = false.
Proof.
  unfold unit_secs. destruct (Z.eqb_spec c 115) as [->|]; [by intros [= <-]|]. destruct (Z.eqb_spec c 109) as [->|]; [by intros [= <-]|].
  destruct (Z.eqb_spec c 104) as [->|]; [by intros [= <-]|]. destruct (Z.eqb_spec c 100) as [->|]; [by intros [= <-]|done].
Qed.

Lemma duration_value_nonneg parts : duration_ok parts → 0 ≤ duration_value parts.
Proof.
  unfold duration_value. induction 1 as [|[n c] parts [Hn [u Hu]] _ IH]; [done|]. cbn [fst snd foldr] in *. rewrite Hu.
  destruct (unit_secs_pos c u Hu). nia.
Qed.

Lemma duration_loop_sum parts total : duration_ok parts → 0 ≤ total → total + duration_value parts < 2 ^ 64 →
  duration_loop (duration_text parts) total [] = Ok (Some (total + duration_value parts, [])).
Proof.
  intros Hok. revert total. induction Hok as [|[n c] parts [Hn [u Hu]] Hok IH]; intros total H0 Hb; [cbn; by rewrite Z.add_0_r|].
  destruct (unit_secs_pos c u Hu) as [Hu1 Hc]. pose proof (duration_value_nonneg _ Hok). cbn in Hn, Hu. cbn [duration_value foldr fst snd] in *.
  fold (duration_value parts) in *. rewrite Hu in *. assert (n ≤ n * u) by nia.
  destruct (dec_digits_value 20 n) as [Hv Hne]; [change (10 ^ Z.of_nat 20) with 100000000000000000000; lia|].
  cbn [duration_text flat_map fst snd]. fold (duration_text parts). unfold decimal. rewrite <- app_assoc.
  rewrite duration_loop_digits by (by apply decimal_digits). cbn [app duration_loop]. rewrite Hc. unfold parse_u64.
  rewrite bool_decide_eq_false_2 by (apply Hne; lia). rewrite Hv, (proj2 (Z.ltb_lt n (2 ^ 64))) by lia. rewrite Hu. unfold checked_u64.
  rewrite (proj2 (Z.ltb_lt (n * u) (2 ^ 64))) by lia. cbn [obind]. rewrite (proj2 (Z.ltb_lt (total + n * u) (2 ^ 64))) by lia. cbn [obind].
  rewrite IH by lia. do 2 f_equal. f_equal. lia.
Qed.

(** Durations read back as what they say. *)
Lemma parse_duration_sum parts : duration_ok parts → 0 < duration_value parts < 2 ^ 64 →
  parse_relative_duration (duration_text parts) = Ok (Some (duration_value parts)).
Proof.
  intros Hok Hv. unfold parse_relative_duration. rewrite bool_decide_eq_false_2.
  - rewrite (duration_loop_sum parts 0) by (done || lia). cbn. by rewrite (proj2 (Z.ltb_lt _ _)) by lia.
  - destruct parts as [|p parts]; [cbn in Hv; lia|]. cbn. by intros [[_ ?]%app_eq_nil _]%app_eq_nil.
Qed.

(** ** Stamped lines *)

(** A line as the log layer writes it: the date, the fraction of the second,
    a blank and the rest. *)
Definition stamped (t : Z) (l : list Z) : Prop :=
  0 ≤ t < YEAR_10000 ∧
  ∃ frac msg, l = unix_secs_to_datetime_prefix t ++ frac ++ 32 :: msg ∧ Forall (λ b, is_ascii_whitespace b = false ∧ utf8_cont b = false) frac.

Lemma fixed_digits w n : Forall (λ b, 48 ≤ b < 58) (fixed w n).
Proof.
  revert n. induction w as [|w IH]; intros n; [done|]. cbn. apply Forall_app. split; [apply IH|]. repeat constructor;
    pose proof (Z.mod_pos_bound n 10); lia.
Qed.

Lemma prefix_shape t : 0 ≤ t < YEAR_10000 →
  length (unix_secs_to_datetime_prefix t) = 19%nat ∧ 84 ∈ unix_secs_to_datetime_prefix t ∧
  Forall (λ b, is_ascii_whitespace b = false) (unix_secs_to_datetime_prefix t).
Proof.
  intros Ht. destruct (prefix_fields t Ht) as (y & m & d & _ & Hf & ->). rewrite date_text_fixed by done.
  assert (Hw : ∀ w n, Forall (λ b, is_ascii_whitespace b = false) (fixed w n)).
  { intros w n. eapply Forall_impl; [apply fixed_digits|]. intros b Hb. cbv beta in Hb. unfold is_ascii_whitespace.
    destruct (Z.eqb_spec b 32), (Z.eqb_spec b 9), (Z.eqb_spec b 10), (Z.eqb_spec b 12), (Z.eqb_spec b 13); (done || lia). }
  split_and!.
  - rewrite !length_app, !length_fixed. reflexivity.
  - rewrite !elem_of_app. do 5 right. left. by left.
  - rewrite !Forall_app. split_and!; (apply Hw || (by apply (bool_decide_unpack _); vm_compute)).
Qed.

Lemma take_word_app w s : Forall (λ b, is_ascii_whitespace b = false) w → take_word (w ++ 32 :: s) = w.
Proof. induction 1 as [|b w Hb _ IH]; [done|]. cbn. by rewrite Hb, IH. Qed.

Lemma stamped_timestamp t l : stamped t l → line_timestamp l = Ok (Some (unix_secs_to_datetime_prefix t)).
Proof.
  intros [Ht (frac & msg & -> & Hfrac)]. destruct (prefix_shape t Ht) as (Hlen & HT & Hw). set (p := unix_secs_to_datetime_prefix t) in *.
  assert (Hword : Forall (λ b, is_ascii_whitespace b = false) (p ++ frac)).
  { apply Forall_app. split; [done|]. eapply Forall_impl; [exact Hfrac|]. by intros b [? _]. }
  unfold line_timestamp. rewrite app_assoc. assert (Hfirst : first_word ((p ++ frac) ++ 32 :: msg) = Some (p ++ frac)).
  { pose proof (take_word_app _ msg Hword) as Htw. destruct p as [|b p]; [done|]. cbn [app first_word] in *. inversion Hw as [|? ? Hb _]; subst.
    rewrite Hb. by rewrite Htw. }
  rewrite Hfirst. rewrite bool_decide_eq_true_2 by (rewrite length_app; lia). rewrite bool_decide_eq_true_2 by (apply elem_of_app; by left).
  cbn [andb]. unfold first19. rewrite lookup_app_r by lia. rewrite take_app_le, take_ge by lia. rewrite Hlen. cbn [Nat.sub].
  destruct frac as [|b frac]; [done|]. apply Forall_cons in Hfrac as [[_ Hb] _]. cbn. by rewrite Hb.
Qed.

(** ** The window *)
Definition shown (no_timestamp : bool) (l : list Z) : list Z := if no_timestamp then without_timestamp l else l.
Definition in_window (lo hi : option Z) (t : Z) : bool :=
  match lo with Some lo => lo <=? t | None => true end && match hi with Some hi => t <=? hi | None => true end.
Definition bound_ok (o : option Z) : Prop := match o with Some v => 0 ≤ v < YEAR_10000 | None => True end.

Lemma emit_stamped t l lo hi nt : stamped t l → bound_ok lo → bound_ok hi →
  emit_line l (unix_secs_to_datetime_prefix <$> lo) (unix_secs_to_datetime_prefix <$> hi) nt =
  Ok (if match lo with Some lo => t <? lo | None => false end then (false, [])
      else if match hi with Some hi => hi <? t | None => false end then (true, []) else (false, shown nt l)).
Proof.
  intros Hl Hlo Hhi. unfold emit_line. rewrite (stamped_timestamp t l Hl). cbn [obind]. destruct Hl as [Ht _].
  destruct lo as [lo|]; cbn [fmap option_fmap option_map opt_lt] in *; [rewrite date_text_order by done; destruct (t <? lo); [done|]|];
    (destruct hi as [hi|]; cbn [fmap option_fmap option_map opt_lt] in *; [rewrite date_text_order by done; destruct (hi <? t); done|done]).
Qed.

(** In lines ordered by time, nothing after the window is in it. *)
Lemma none_later hi ts ls t lo : Forall (Z.le t) ts → hi < t → List.filter (λ p : Z * list Z, in_window lo (Some hi) p.1) (zip ts ls) = [].
Proof.
  intros Hle Hlt. revert ls. induction Hle as [|t' ts Ht' _ IH]; intros [|l ls]; try done. cbn [zip zip_with List.filter fst].
  unfold in_window at 1. rewrite (proj2 (Z.leb_gt t' hi)) by lia. rewrite andb_false_r. apply IH.
Qed.

Lemma emit_lines_window ts ls lo hi nt : Forall2 stamped ts ls → StronglySorted Z.le ts → bound_ok lo → bound_ok hi →
  ∃ stop, emit_lines ls (unix_secs_to_datetime_prefix <$> lo) (unix_secs_to_datetime_prefix <$> hi) nt =
    Ok (stop, concat (map (λ p, shown nt p.2) (List.filter (λ p, in_window lo hi p.1) (zip ts ls)))) ∧ (hi = None → stop = false).
Proof.
  intros Hst Hs Hlo Hhi. induction Hst as [|t l ts ls Hl Hst IH]; [by exists false|]. inversion Hs as [|? ? Hs' Hle]; subst.
  destruct (IH Hs') as (stop & He & Hstop). clear IH. cbn [emit_lines zip zip_with List.filter fst]. rewrite (emit_stamped t) by done. cbn [obind].
  assert (Hin : in_window lo hi t = negb (match lo with Some lo => t <? lo | None => false end) && negb (match hi with Some hi => hi <? t | None => false end)).
  { unfold in_window. f_equal; [destruct lo|destruct hi]; try done; apply Z.leb_antisym. }
  rewrite Hin. destruct (match lo with Some lo => t <? lo | None => false end); [cbn [negb andb obind]; rewrite He; by exists stop|].
  destruct hi as [hi|]; [destruct (Z.ltb_spec hi t) as [Hlt|]|]; cbn [negb andb obind].
  - exists true. split; [|done]. fold (zip ts ls). by rewrite (none_later hi ts ls t lo Hle Hlt).
  - rewrite He. by exists stop.
  - rewrite He. by exists stop.
Qed.

Lemma parse_since now spec a : parse_relative_duration spec = Ok (Some a) → 
  parse_spec_opt now (Some spec) = Ok (Some (unix_secs_to_datetime_prefix (Z.max 0 (now - a)))).
Proof. intros H. unfold parse_spec_opt, parse_time_spec. by rewrite H. Qed.

(** The log viewer shows exactly the window asked for: of a log whose lines
    are stamped in order of time, [pim logs --since a --until b] prints the
    lines of the last [n] that are at most [a] and at least [b] seconds old, to
    the second, each once, in order and whole (without its stamp if so asked),
    and no others; without [--until] it goes on with the lines that arrive. *)
Theorem logs_window now n nt since a until b ts tl existing later :
  Forall2 stamped ts existing → Forall2 stamped tl later → StronglySorted Z.le (ts ++ tl) → 0 ≤ now < YEAR_10000 →
  parse_relative_duration since = Ok (Some a) → 0 ≤ a →
  match until with Some u => parse_relative_duration u = Ok (Some b) ∧ 0 ≤ b | None => True end →
  let lo := Z.max 0 (now - a) in
  let hi := match until with Some _ => Some (Z.max 0 (now - b)) | None => None end in
  let start := match n with O => O | n => (length existing - n)%nat end in
  let all := match until with Some _ => zip ts existing | None => zip (ts ++ tl) (existing ++ later) end in
  cmd_logs now now false n nt (Some since) until existing later =
    Ok (concat (map (λ p, shown nt p.2) (List.filter (λ p, in_window (Some lo) hi p.1) (drop start all)))).
Proof.
  intros Hst Hst' Hs Hnow Hsince Ha Huntil. cbv zeta. unfold cmd_logs. rewrite (parse_since now since a Hsince). cbn [obind].
  apply StronglySorted_app in Hs as (_ & Hs & Hs'). set (start := match n with O => O | S _ => (length existing - n)%nat end).
  assert (Hstart : (start ≤ length existing)%nat) by (unfold start; destruct n; lia).
  assert (Hd : Forall2 stamped (drop start ts) (drop start existing)) by (by apply Forall2_drop).
  assert (Hsd : StronglySorted Z.le (drop start ts)) by (rewrite <- (take_drop start ts) in Hs; by apply StronglySorted_app_1_r in Hs).
  assert (Hlo : bound_ok (Some (Z.max 0 (now - a)))) by (cbn; unfold YEAR_10000 in *; lia).
  destruct until as [u|]; [destruct Huntil as [Hu Hb]; rewrite (parse_since now u b Hu)|]; cbn [parse_spec_opt obind].
  - destruct (emit_lines_window _ _ (Some (Z.max 0 (now - a))) (Some (Z.max 0 (now - b))) nt Hd Hsd Hlo) as (stop & He & _).
    { cbn. unfold YEAR_10000 in *. lia. }
    cbn [fmap option_fmap option_map] in He. rewrite He. cbn [obind]. rewrite bool_decide_eq_false_2 by done. cbn [negb andb orb].
    by rewrite zip_with_drop.
  - destruct (emit_lines_window _ _ (Some (Z.max 0 (now - a))) None nt Hd Hsd Hlo I) as (stop & He & Hstop). specialize (Hstop eq_refl) as ->.
    destruct (emit_lines_window _ _ (Some (Z.max 0 (now - a))) None nt Hst' Hs' Hlo I) as (stop' & He' & _).
    cbn [fmap option_fmap option_map] in He, He'. rewrite He. cbn [obind]. rewrite bool_decide_eq_true_2 by done. cbn [negb andb orb].
    rewrite He'. cbn [obind]. f_equal. rewrite <- concat_app, <- map_app, <- List.filter_app. do 3 f_equal.
    pose proof (Forall2_length _ _ _ Hst) as Hlen. rewrite zip_with_app by done. rewrite drop_app_le by (rewrite length_zip_with; lia).
    by rewrite zip_with_drop.
Qed.

Definition sample_log : list (list Z) :=
  map (λ p, unix_secs_to_datetime_prefix p.1 ++ str ".570856Z  INFO " ++ p.2) [(1700000000, str "a"); (1700000060, str "b"); (1700000120, str "c")].

Lemma logs_window_witness :
  parse_relative_duration (str "1m40s") = Ok (Some 100) ∧
  cmd_logs 1700000130 1700000130 false 0 false (Some (str "1m40s")) (Some (str "30s")) sample_log [] =
    Ok (default [] (sample_log !! 1%nat)).
Proof.
  split; [reflexivity|].
  rewrite (logs_window 1700000130 0 false (str "1m40s") 100 (Some (str "30s")) 30 [1700000000; 1700000060; 1700000120] [] sample_log []).
  - vm_compute. reflexivity.
  - repeat (constructor; [split; [unfold YEAR_10000; lia|]; eexists (str ".570856Z"), _; split; [reflexivity|]; by apply (bool_decide_unpack _); vm_compute|]). constructor.
  - constructor.
  - repeat constructor; lia.
  - unfold YEAR_10000; lia.
  - reflexivity.
  - lia.
  - split; [reflexivity|lia].
Defined.
