(* ===== verification/MessageStore.v ===== *)
(** * Message storage (crates/pim-messaging/src/storage.rs)

    The two SQLite tables as finite maps keyed by their primary keys, and one
    definition per method, which says what its SQL statements say (schema in
    crates/pim-messaging/src/schema.sql).  Whether SQLite executes a statement
    is an argument ([ok]); a statement that fails changes nothing.  Text is its
    UTF-8 bytes. *)

From S2P Require Import Prelude Core Text.

(** ** Text *)
Definition preview_of (body : list Z) : list Z := replace_newline (take_chars 80 body).
Definition short_id (hex : list Z) : list Z := take_chars 8 hex.

(** ** Rows *)
Inductive MessageDirection := DirSent | DirReceived.
Inductive MessageStatus := StPending | StSent | StDelivered | StRead | StFailed.
Inductive AckKind := AckDelivered | AckRead.

#[export] Instance MessageDirection_eq_dec : EqDecision MessageDirection.
Proof. solve_decision. Defined.
#[export] Instance MessageStatus_eq_dec : EqDecision MessageStatus.
Proof. solve_decision. Defined.

Definition direction_as_str (d : MessageDirection) : string := match d with DirSent => "sent" | DirReceived => "received" end.
Definition direction_from_str (s : string) : option MessageDirection :=
  if (s =? "sent")%string then Some DirSent else if (s =? "received")%string then Some DirReceived else None.

Definition status_as_str (s : MessageStatus) : string :=
  match s with StPending => "pending" | StSent => "sent" | StDelivered => "delivered" | StRead => "read" | StFailed => "failed" end.
Definition status_from_str (s : string) : option MessageStatus :=
  if (s =? "pending")%string then Some StPending else if (s =? "sent")%string then Some StSent
  else if (s =? "delivered")%string then Some StDelivered else if (s =? "read")%string then Some StRead
  else if (s =? "failed")%string then Some StFailed else None.

Definition ack_from_u8 (v : Z) : option AckKind := if v =? 1 then Some AckDelivered else if v =? 2 then Some AckRead else None.
Definition ack_as_u8 (k : AckKind) : Z := match k with AckDelivered => 1 | AckRead => 2 end.

Record MessageRecord := MkMessage {
  mr_id : list Z;
  mr_peer_node_id : list Z;
  mr_direction : MessageDirection;
  mr_body : list Z;
  mr_timestamp_ms : Z;
  mr_status : MessageStatus;
  mr_failure_reason : option string;
  mr_delivered_at_ms : option Z;
  mr_read_at_ms : option Z;
}.

#[export] Instance MessageRecord_eq_dec : EqDecision MessageRecord.
Proof. solve_decision. Defined.

(** A row of [messages]: the enumerations are stored as text, and read back by
    [parse_row]. *)
Record MessageRow := MkRow {
  row_peer_node_id : list Z;
  row_direction : string;
  row_body : list Z;
  row_timestamp_ms : Z;
  row_status : string;
  row_failure_reason : option string;
  row_delivered_at_ms : option Z;
  row_read_at_ms : option Z;
}.

(** A row of [conversations_meta]. *)
Record ConversationMeta := MkMeta {
  cm_unread_count : Z;
  cm_last_read_message_id : option (list Z);
  cm_last_message_id : option (list Z);
  cm_last_message_preview : option (list Z);
  cm_last_message_ts_ms : option Z;
}.

Record ConversationSummary := MkSummary {
  cs_peer_node_id : list Z;
  cs_peer_node_id_short : list Z;
  cs_name : list Z;
  cs_last_message_preview : option (list Z);
  cs_last_message_ts_ms : option Z;
  cs_unread_count : Z;
  cs_x25519_pubkey : option (list Z);
}.

Record ConversationBump := { cb_preview : list Z; cb_unread_count : Z }.

Record MessagingStorage := MkStorage {
  messages : gmap (list Z) MessageRow;
  conversations_meta : gmap (list Z) ConversationMeta;
}.

Definition MessagingStorage_new : MessagingStorage := MkStorage ∅ ∅.

Inductive StorageError := SqlFailed | BadRow.

Definition on_messages (f : gmap (list Z) MessageRow → gmap (list Z) MessageRow) (s : MessagingStorage) : MessagingStorage :=
  MkStorage (f (messages s)) (conversations_meta s).
Definition on_meta (f : gmap (list Z) ConversationMeta → gmap (list Z) ConversationMeta) (s : MessagingStorage) : MessagingStorage :=
  MkStorage (messages s) (f (conversations_meta s)).

(** ** Statements *)
Definition to_row (m : MessageRecord) : MessageRow :=
  MkRow (mr_peer_node_id m) (direction_as_str (mr_direction m)) (mr_body m) (mr_timestamp_ms m) (status_as_str (mr_status m))
    (mr_failure_reason m) (mr_delivered_at_ms m) (mr_read_at_ms m).

Definition parse_row (id : list Z) (r : MessageRow) : outcome StorageError MessageRecord :=
  match direction_from_str (row_direction r), status_from_str (row_status r) with
  | Some d, Some s => Ok (MkMessage id (row_peer_node_id r) d (row_body r) (row_timestamp_ms r) s (row_failure_reason r)
                            (row_delivered_at_ms r) (row_read_at_ms r))
  | _, _ => Err BadRow
  end.

(** INSERT OR REPLACE *)
Definition insert_message (ok : bool) (m : MessageRecord) (s : MessagingStorage) : outcome StorageError unit * MessagingStorage :=
  if ok then (Ok tt, on_messages (insert (mr_id m) (to_row m)) s) else (Err SqlFailed, s).

Definition bump_conversation_after_local_send (ok : bool) (peer_id_hex message_id_hex : list Z) (ts_ms : Z) (body : list Z)
    (s : MessagingStorage) : outcome StorageError unit * MessagingStorage :=
  if negb ok then (Err SqlFailed, s) else
  let preview := preview_of body in
  let row := match conversations_meta s !! peer_id_hex with
             | None => MkMeta 0 None (Some message_id_hex) (Some preview) (Some ts_ms)
             | Some c => MkMeta (cm_unread_count c) (cm_last_read_message_id c) (Some message_id_hex) (Some preview) (Some ts_ms)
             end in
  (Ok tt, on_meta (insert peer_id_hex row) s).

(** [ok] is for the INSERT, [ok2] for the SELECT that reads the count back; the
    connection is locked in between. *)
Definition bump_conversation_after_remote_receive (ok ok2 : bool) (peer_id_hex message_id_hex : list Z) (ts_ms : Z) (body : list Z)
    (s : MessagingStorage) : outcome StorageError ConversationBump * MessagingStorage :=
  if negb ok then (Err SqlFailed, s) else
  let preview := preview_of body in
  let row := match conversations_meta s !! peer_id_hex with
             | None => MkMeta 1 None (Some message_id_hex) (Some preview) (Some ts_ms)
             | Some c => MkMeta (cm_unread_count c + 1) (cm_last_read_message_id c) (Some message_id_hex) (Some preview) (Some ts_ms)
             end in
  let s := on_meta (insert peer_id_hex row) s in
  if negb ok2 then (Err SqlFailed, s) else (Ok {| cb_preview := preview; cb_unread_count := cm_unread_count row |}, s).

(** COALESCE *)
Definition coalesce (a : option Z) (b : Z) : option Z := Some (default b a).

Definition set_message_status (ok : bool) (message_id_hex : list Z) (status : MessageStatus) (delivered_at_ms read_at_ms : option Z)
    (s : MessagingStorage) : outcome StorageError unit * MessagingStorage :=
  if negb ok then (Err SqlFailed, s) else
  let update r :=
    MkRow (row_peer_node_id r) (row_direction r) (row_body r) (row_timestamp_ms r) (status_as_str status) (row_failure_reason r)
      (match delivered_at_ms, read_at_ms with
       | Some d, Some _ => Some d
       | Some d, None => coalesce (row_delivered_at_ms r) d
       | None, _ => row_delivered_at_ms r
       end)
      (match delivered_at_ms, read_at_ms with
       | Some _, Some t => Some t
       | None, Some t => coalesce (row_read_at_ms r) t
       | _, None => row_read_at_ms r
       end) in
  (Ok tt, on_messages (alter update message_id_hex) s).

Definition set_message_failed (ok : bool) (message_id_hex : list Z) (reason : string) (at_ms : Z)
    (s : MessagingStorage) : outcome StorageError unit * MessagingStorage :=
  if negb ok then (Err SqlFailed, s) else
  let update r :=
    MkRow (row_peer_node_id r) (row_direction r) (row_body r) (row_timestamp_ms r) "failed" (Some reason)
      (coalesce (row_delivered_at_ms r) at_ms) (row_read_at_ms r) in
  (Ok tt, on_messages (alter update message_id_hex) s).

(** ORDER BY timestamp_ms DESC, id DESC *)
Definition newer (a b : list Z * MessageRow) : Prop :=
  row_timestamp_ms b.2 < row_timestamp_ms a.2 ∨ (row_timestamp_ms a.2 = row_timestamp_ms b.2 ∧ bytes_le b.1 a.1 = true).
#[export] Instance newer_dec : RelDecision newer.
Proof. intros a b. unfold newer. apply _. Defined.

(** The rows of a query, before LIMIT. *)
Definition selected (peer_id_hex : list Z) (before_ts_ms : option Z) (s : MessagingStorage) : list (list Z * MessageRow) :=
  merge_sort newer (List.filter (λ r, bool_decide (row_peer_node_id r.2 = peer_id_hex) &&
    match before_ts_ms with Some ts => row_timestamp_ms r.2 <? ts | None => true end) (map_to_list (messages s))).

Fixpoint parse_rows (rows : list (list Z * MessageRow)) : outcome StorageError (list MessageRecord) :=
  match rows with
  | [] => Ok []
  | (id, r) :: rows => let? m := parse_row id r in let? ms := parse_rows rows in Ok (m :: ms)
  end.

Definition i64_MAX : Z := 2 ^ 63 - 1.

Definition history (ok : bool) (peer_id_hex : list Z) (before_ts_ms : option Z) (limit : Z) (s : MessagingStorage)
  : outcome StorageError (list MessageRecord * bool) :=
  if negb ok then Err SqlFailed else
  let limit_plus := Z.max (Z.min (limit + 1) i64_MAX) 2 in
  let? out := parse_rows (take (Z.to_nat limit_plus) (selected peer_id_hex before_ts_ms s)) in
  let has_more := limit <? Z.of_nat (length out) in
  Ok (if has_more then take (Z.to_nat (limit mod 2 ^ 64)) out else out, has_more).

(** ORDER BY last_message_ts_ms DESC NULLS LAST; rows with the same timestamp
    come in the order of [iter], which lists the table. *)
Definition more_recent (a b : list Z * ConversationMeta) : Prop :=
  match cm_last_message_ts_ms a.2, cm_last_message_ts_ms b.2 with
  | Some x, Some y => y ≤ x
  | _, None => True
  | None, Some _ => False
  end.
#[export] Instance more_recent_dec : RelDecision more_recent.
Proof. intros a b. unfold more_recent. destruct (cm_last_message_ts_ms a.2), (cm_last_message_ts_ms b.2); apply _. Defined.

Definition list_conversations_raw (ok : bool) (iter : gmap (list Z) ConversationMeta → list (list Z * ConversationMeta)) (s : MessagingStorage)
  : outcome StorageError (list ConversationSummary) :=
  if negb ok then Err SqlFailed else
  Ok (map (λ r, let short := short_id r.1 in
      MkSummary r.1 short short (cm_last_message_preview r.2) (cm_last_message_ts_ms r.2) (cm_unread_count r.2) None)
    (merge_sort more_recent (iter (conversations_meta s)))).

(** One transaction: both statements or none. *)
Definition of_peer (peer_id_hex : list Z) (r : MessageRow) : bool := bool_decide (row_peer_node_id r = peer_id_hex).
Definition delete_conversation (ok : bool) (peer_id_hex : list Z) (s : MessagingStorage) : outcome StorageError (nat * bool) * MessagingStorage :=
  if negb ok then (Err SqlFailed, s) else
  let deleted_messages := size (filter (λ kr, of_peer peer_id_hex kr.2) (messages s)) in
  (Ok (deleted_messages, bool_decide (is_Some (conversations_meta s !! peer_id_hex))),
   MkStorage (filter (λ kr, negb (of_peer peer_id_hex kr.2)) (messages s)) (delete peer_id_hex (conversations_meta s))).

Definition delete_all_messages (ok : bool) (s : MessagingStorage) : outcome StorageError (nat * nat) * MessagingStorage :=
  if negb ok then (Err SqlFailed, s) else
  (Ok (size (messages s), size (conversations_meta s)), MkStorage ∅ ∅).

(** [ok2] is for the second statement. *)
Definition mark_read_up_to (ok ok2 : bool) (peer_id_hex : list Z) (up_to_ts_ms : Z) (s : MessagingStorage) : outcome StorageError Z * MessagingStorage :=
  if negb ok then (Err SqlFailed, s) else
  let update r :=
    if of_peer peer_id_hex r && (row_direction r =? "received")%string && (row_timestamp_ms r <=? up_to_ts_ms)
       && negb (row_status r =? "read")%string
    then MkRow (row_peer_node_id r) (row_direction r) (row_body r) (row_timestamp_ms r) "read" (row_failure_reason r)
           (row_delivered_at_ms r) (coalesce (row_read_at_ms r) up_to_ts_ms)
    else r in
  let s := on_messages (fmap update) s in
  if negb ok2 then (Err SqlFailed, s) else
  (Ok 0, on_meta (alter (λ c, MkMeta 0 (cm_last_read_message_id c) (cm_last_message_id c) (cm_last_message_preview c)
                                 (cm_last_message_ts_ms c)) peer_id_hex) s).

(** ** Previews *)

(** A preview never cuts a character: it is valid UTF-8 of at most 80
    characters (320 bytes) without line breaks, whatever the message. *)
Theorem preview_valid body :
  from_utf8 body = true →
  from_utf8 (preview_of body) = true ∧ (length (preview_of body) ≤ 320)%nat ∧ 10 ∉ preview_of body.
Proof.
  intros (cs & -> & Hcs)%chars_of. unfold preview_of. rewrite take_chars_concat by done. split_and!.
  - rewrite replace_newline_concat. apply from_utf8_chars. rewrite Forall_map. apply (Forall_take _ 80%nat) in Hcs.
    eapply Forall_impl; [exact Hcs|]. by intros c; apply utf8_char_replace.
  - unfold replace_newline. rewrite length_map. apply (Forall_take _ 80%nat) in Hcs.
    assert (Hl : (length (take 80 cs) ≤ 80)%nat) by (rewrite length_take; lia). revert Hl Hcs. generalize (take 80 cs). intros l Hl Hcs.
    assert (length (concat l) ≤ 4 * length l)%nat; [|lia]. clear Hl.
    induction Hcs as [|c l Hc _ IH]; [cbn; lia|]. cbn [concat length]. rewrite length_app.
    destruct (utf8_char_shape c Hc) as (? & ? & ? & ? & ? & ? & _). lia.
  - unfold replace_newline. intros (b & Hb & _)%list_elem_of_fmap. destruct (Z.eqb_spec b 10); lia.
Qed.

Lemma preview_valid_witness : from_utf8 (preview_of (replicate 79 97 ++ [0xC3; 0xA9; 10])) = true.
Proof. apply (preview_valid (replicate 79 97 ++ [0xC3; 0xA9; 10])). vm_compute. reflexivity. Defined.

(** ** Rows are well-typed *)
Lemma direction_text d : direction_from_str (direction_as_str d) = Some d.
Proof. by destruct d. Qed.
Lemma status_text st : status_from_str (status_as_str st) = Some st.
Proof. by destruct st. Qed.
Lemma direction_text_inv s d : direction_from_str s = Some d → direction_as_str d = s.
Proof. unfold direction_from_str. repeat case_match; intros [= <-]; symmetry; by apply String.eqb_eq. Qed.
Lemma status_text_inv s st : status_from_str s = Some st → status_as_str st = s.
Proof. unfold status_from_str. repeat case_match; intros [= <-]; symmetry; by apply String.eqb_eq. Qed.

Lemma parse_row_to_row m : parse_row (mr_id m) (to_row m) = Ok m.
Proof. unfold parse_row. cbn. rewrite direction_text, status_text. by destruct m. Qed.

Definition row_ok (r : MessageRow) : Prop := is_Some (direction_from_str (row_direction r)) ∧ is_Some (status_from_str (row_status r)).

Record store_ok (s : MessagingStorage) : Prop := {
  so_rows : map_Forall (λ _ r, row_ok r) (messages s);
  so_unread : map_Forall (λ _ c, 0 ≤ cm_unread_count c) (conversations_meta s);
}.

(** One call of one method, whether SQLite executes it or not. *)
Inductive store_step : MessagingStorage → MessagingStorage → Prop :=
| StepInsert ok m s : store_step s (insert_message ok m s).2
| StepLocal ok p i ts b s : store_step s (bump_conversation_after_local_send ok p i ts b s).2
| StepRemote ok ok2 p i ts b s : store_step s (bump_conversation_after_remote_receive ok ok2 p i ts b s).2
| StepStatus ok i st d r s : store_step s (set_message_status ok i st d r s).2
| StepFailed ok i reason at_ms s : store_step s (set_message_failed ok i reason at_ms s).2
| StepDelete ok p s : store_step s (delete_conversation ok p s).2
| StepDeleteAll ok s : store_step s (delete_all_messages ok s).2
| StepMarkRead ok ok2 p ts s : store_step s (mark_read_up_to ok ok2 p ts s).2.

Definition store_reachable (s : MessagingStorage) : Prop := rtc store_step MessagingStorage_new s.

Lemma map_Forall_alter_row {A} (P : A → Prop) (f : A → A) (k : list Z) (m : gmap (list Z) A) :
  (∀ a, P a → P (f a)) → map_Forall (λ _ a, P a) m → map_Forall (λ _ a, P a) (alter f k m).
Proof.
  intros Hf Hm k' a. destruct (decide (k' = k)) as [->|Hne].
  - rewrite lookup_alter_eq. intros (a0 & Ha0 & ->)%fmap_Some. apply Hf. by eapply Hm.
  - rewrite lookup_alter_ne by done. apply Hm.
Qed.

Lemma store_step_ok s s' : store_step s s' → store_ok s → store_ok s'.
Proof.
  intros Hs [Hr Hu]. destruct Hs as [[] m s|[] p i ts b s|[] ok2 p i ts b s|[] i st d r s|[] i reason at_ms s|[] p s|[] s|[] ok2 p ts s];
    try (by split); cbn; try (destruct ok2; cbn [negb]); (split; cbn; try done).
  - apply map_Forall_insert_2; [|done]. split; cbn; [rewrite direction_text|rewrite status_text]; eauto.
  - apply map_Forall_insert_2; [|done]. destruct (conversations_meta s !! p) eqn:E; cbn; [by eapply Hu|lia].
  - apply map_Forall_insert_2; [|done]. destruct (conversations_meta s !! p) eqn:E; cbn; [|lia].
    specialize (Hu _ _ E). cbn in Hu. lia.
  - apply map_Forall_insert_2; [|done]. destruct (conversations_meta s !! p) eqn:E; cbn; [|lia].
    specialize (Hu _ _ E). cbn in Hu. lia.
  - apply map_Forall_alter_row; [|done]. intros a [Ha _]. split; [done|]. cbn. rewrite status_text. eauto.
  - apply map_Forall_alter_row; [|done]. intros a [Ha _]. split; [done|]. cbn. eauto.
  - intros k r [Hk _]%map_lookup_filter_Some. by eapply Hr.
  - by apply map_Forall_delete.
  - intros k r; rewrite lookup_fmap; intros (r0 & Hr0 & ->)%fmap_Some;
      specialize (Hr _ _ Hr0); destruct (_ && _); try done; destruct Hr as [Hd _]; split; cbn; eauto.
  - apply map_Forall_alter_row; [|done]. cbn. lia.
  - intros k r; rewrite lookup_fmap; intros (r0 & Hr0 & ->)%fmap_Some;
      specialize (Hr _ _ Hr0); destruct (_ && _); try done; destruct Hr as [Hd _]; split; cbn; eauto.
Qed.

Lemma store_reachable_ok s : store_reachable s → store_ok s.
Proof.
  unfold store_reachable. assert (H0 : store_ok MessagingStorage_new) by (split; apply map_Forall_empty).
  intros Hr. revert H0. induction Hr; eauto using store_step_ok.
Qed.

(** ** Queries *)
Lemma newer_total : Total newer.
Proof.
  intros [i a] [j b]. unfold newer. cbn. destruct (Z.lt_trichotomy (row_timestamp_ms a) (row_timestamp_ms b)) as [|[He|]]; [by right; left| |by left; left].
  destruct (bytes_le_total i j); [right|left]; right; done.
Qed.
#[export] Instance newer_trans : Transitive newer.
Proof.
  intros [i a] [j b] [k c]. unfold newer. cbn. intros [H1|[H1 H1']] [H2|[H2 H2']]; [left; lia..|].
  right. split; [lia|]. by eapply bytes_le_trans.
Qed.

Definition in_selection (p : list Z) (before : option Z) (r : MessageRow) : Prop :=
  row_peer_node_id r = p ∧ match before with Some ts => row_timestamp_ms r < ts | None => True end.

Lemma elem_of_selected p before s id r :
  (id, r) ∈ selected p before s ↔ messages s !! id = Some r ∧ in_selection p before r.
Proof.
  unfold selected, in_selection. rewrite merge_sort_Permutation, list_elem_of_In, filter_In, <- list_elem_of_In, elem_of_map_to_list.
  cbn. rewrite andb_true_iff, bool_decide_eq_true. destruct before; [rewrite Z.ltb_lt|]; tauto.
Qed.

Lemma selected_sorted p before s : StronglySorted newer (selected p before s).
Proof. apply StronglySorted_merge_sort; [apply newer_trans|apply newer_total]. Qed.

Lemma NoDup_selected p before s : NoDup (selected p before s).*1.
Proof.
  unfold selected. rewrite merge_sort_Permutation. pose proof (NoDup_fst_map_to_list (messages s)) as Hn. revert Hn.
  generalize (map_to_list (messages s)). intros l. induction l as [|[i r] l IH]; cbn; [done|].
  intros [Hi Hn]%NoDup_cons. destruct (_ && _); [|by apply IH]. cbn. constructor; [|by apply IH].
  intros ([i' r'] & -> & Hin)%list_elem_of_fmap. apply Hi. apply list_elem_of_fmap. exists (i', r'). split; [done|].
  apply list_elem_of_In in Hin. apply list_elem_of_In. by apply filter_In in Hin as [? _].
Qed.

Definition record_rows (ms : list MessageRecord) : list (list Z * MessageRow) := map (λ m, (mr_id m, to_row m)) ms.

Lemma parse_rows_ok rows : Forall (λ kr, row_ok kr.2) rows → ∃ ms, parse_rows rows = Ok ms ∧ record_rows ms = rows.
Proof.
  induction 1 as [|[id r] rows [[d Hd] [st Hst]] _ (ms & Hms & Hrows)]; [by exists []|]. cbn [parse_rows]. unfold parse_row.
  cbn [snd] in Hd, Hst. rewrite Hd, Hst. cbn [obind]. rewrite Hms. cbn [obind]. eexists. split; [reflexivity|]. unfold record_rows in *. cbn [map]. rewrite Hrows. f_equal. unfold to_row. cbn.
  rewrite (direction_text_inv _ _ Hd), (status_text_inv _ _ Hst). by destruct r.
Qed.

Lemma selected_rows_ok p before s : store_ok s → Forall (λ kr, row_ok kr.2) (selected p before s).
Proof.
  intros [Hr _]. apply Forall_forall. intros [id r] [Hin _]%elem_of_selected. by eapply Hr.
Qed.

Lemma history_spec p before limit s :
  store_ok s → 1 ≤ limit < 2 ^ 62 →
  ∃ ms, history true p before limit s = Ok (ms, bool_decide (limit < Z.of_nat (length (selected p before s)))) ∧
    record_rows ms = take (Z.to_nat limit) (selected p before s).
Proof.
  intros Hok Hlim. unfold history. cbn [negb]. set (l := selected p before s).
  replace (Z.max (Z.min (limit + 1) i64_MAX) 2) with (limit + 1) by (unfold i64_MAX; lia).
  destruct (parse_rows_ok (take (Z.to_nat (limit + 1)) l)) as (ms & -> & Hms); [by apply Forall_take, selected_rows_ok|]. cbn [obind].
  assert (Hlen : length ms = (Z.to_nat (limit + 1) `min` length l)%nat).
  { rewrite <- length_take, <- Hms. unfold record_rows. by rewrite length_map. }
  rewrite Z.mod_small by lia. eexists. split; [f_equal; f_equal|].
  - destruct (Z.ltb_spec limit (Z.of_nat (length ms))), (bool_decide_reflect (limit < Z.of_nat (length l))); (done || lia).
  - unfold record_rows in *. destruct (Z.ltb_spec limit (Z.of_nat (length ms))).
    + rewrite <- firstn_map, Hms, take_take. f_equal. lia.
    + rewrite Hms, !take_ge by lia. done.
Qed.

(** ** Paging *)

(** Reading a conversation page by page, the timestamp of the last message of
    a page being the cursor of the next. *)
Fixpoint page_through (fuel : nat) (p : list Z) (before : option Z) (limit : Z) (s : MessagingStorage) : outcome StorageError (list MessageRecord) :=
  match fuel with
  | O => Ok []
  | S fuel =>
    let? (ms, has_more) := history true p before limit s in
    if (has_more : bool) then
      let? rest := page_through fuel p (mr_timestamp_ms <$> last ms) limit s in Ok (ms ++ rest)
    else Ok ms
  end.

Lemma selected_unique l p before s :
  StronglySorted newer l → NoDup l → (∀ kr, kr ∈ l ↔ messages s !! kr.1 = Some kr.2 ∧ in_selection p before kr.2) →
  l = selected p before s.
Proof.
  intros Hs Hn Hl. apply (StronglySorted_unique_strong newer); [|done|apply selected_sorted|].
  - intros [i a] [j b] Hi Hj [H1|[H1 H1']] [H2|[H2 H2']]; cbn in *; try lia.
    assert (i = j) as -> by (by apply bytes_le_antisym). apply Hl in Hi as [Hi _]. apply elem_of_selected in Hj as [Hj _].
    cbn in Hi. by simplify_eq.
  - apply NoDup_Permutation; [done|eapply NoDup_fmap_1, NoDup_selected|]. intros [i a]. by rewrite Hl, elem_of_selected.
Qed.

(** The page after a page. *)
Lemma next_page p before s n m :
  (∀ i j a b, (i, a) ∈ selected p before s → (j, b) ∈ selected p before s → row_timestamp_ms a = row_timestamp_ms b → i = j) →
  last (take n (selected p before s)) = Some m →
  selected p before s = take n (selected p before s) ++ selected p (Some (row_timestamp_ms m.2)) s.
Proof.
  intros Hdist Hm. set (l := selected p before s) in *. rewrite <- (take_drop n l) at 1. f_equal.
  pose proof (selected_sorted p before s) as Hs. fold l in Hs. rewrite <- (take_drop n l) in Hs.
  apply StronglySorted_app in Hs as (Hcross & Hs1 & Hs2).
  assert (Hnd : NoDup (take n l ++ drop n l)) by (rewrite take_drop; eapply NoDup_fmap_1, NoDup_selected).
  apply NoDup_app in Hnd as (_ & Hdisj & Hnd2).
  assert (Hmin : m ∈ take n l) by (by apply last_Some_elem_of).
  assert (Hml : m ∈ l) by (rewrite <- (take_drop n l); set_solver).
  apply selected_unique; [done|done|]. intros [i a]. split.
  - intros Hin. assert (Hl : (i, a) ∈ l) by (rewrite <- (take_drop n l); set_solver). pose proof Hl as [Ha [Hp _]]%elem_of_selected.
    split; [done|]. split; [done|]. cbn. assert (Hnw : newer m (i, a)) by (by apply Hcross).
    destruct Hnw as [Hlt|[Heq _]]; [done|]. cbn in Heq. destruct m as [j b]. assert (j = i) as -> by (by eapply Hdist).
    exfalso. apply (Hdisj (i, b)); [done|]. apply elem_of_selected in Hml as [Hb _]. cbn in Ha. by simplify_eq.
  - intros [Ha [Hp Hlt]]. cbn in Ha, Hp, Hlt. assert (Hl : (i, a) ∈ l).
    { apply elem_of_selected. split; [done|]. split; [done|]. destruct before as [t|]; [|done].
      destruct m as [j b]. apply elem_of_selected in Hml as [_ [_ Ht]]. cbn in *. lia. }
    rewrite <- (take_drop n l) in Hl. apply elem_of_app in Hl as [Hin|?]; [|done]. exfalso.
    apply last_Some in Hm as [l' Hl']. rewrite Hl' in Hin, Hs1. apply elem_of_app in Hin as [Hin|Hin].
    + apply StronglySorted_app in Hs1 as (Hc & _). destruct (Hc (i, a) m) as [H1|[H1 _]]; [done|set_solver| |]; cbn in H1; lia.
    + apply list_elem_of_singleton in Hin as <-. cbn in Hlt. lia.
Qed.

(** Paging is complete: reading a conversation page by page, with any page
    size, returns each of its messages exactly once, newest first, when no two
    of them have the same timestamp. *)
Theorem paging_complete fuel p before limit s :
  store_reachable s → 1 ≤ limit < 2 ^ 62 → (length (selected p before s) ≤ fuel)%nat →
  (∀ i j a b, (i, a) ∈ selected p before s → (j, b) ∈ selected p before s → row_timestamp_ms a = row_timestamp_ms b → i = j) →
  ∃ ms, page_through fuel p before limit s = Ok ms ∧ record_rows ms = selected p before s ∧
    (∀ id r, (id, r) ∈ record_rows ms ↔ messages s !! id = Some r ∧ in_selection p before r) ∧ NoDup (mr_id <$> ms).
Proof.
  intros Hok%store_reachable_ok Hlim Hf Hd. cut (∃ ms, page_through fuel p before limit s = Ok ms ∧ record_rows ms = selected p before s).
  { intros (ms & Hms & Hr). exists ms. split_and!; [done|done|intros id r; by rewrite Hr, elem_of_selected|].
    pose proof (NoDup_selected p before s) as Hn. rewrite <- Hr in Hn. unfold record_rows in Hn.
    revert Hn. clear. induction ms as [|m ms IH]; cbn; [done|]. intros [Hm Hn]%NoDup_cons. constructor; [|by apply IH].
    intros (m' & He & Hin)%list_elem_of_fmap. apply Hm. rewrite He. apply list_elem_of_fmap. exists (mr_id m', to_row m'). split; [done|].
    apply list_elem_of_fmap. eauto. }
  revert before Hf Hd. induction fuel as [|fuel IH]; intros before Hf Hd; cbn [page_through].
  { exists []. split; [done|]. by destruct (selected p before s); [|cbn in Hf; lia]. }
  destruct (history_spec p before limit s Hok Hlim) as (ms & -> & Hms). cbn [obind].
  case_bool_decide as Hmore; [|exists ms; split; [done|]; rewrite Hms; apply take_ge; lia].
  assert (Hne : ∃ m, last ms = Some m).
  { destruct (last ms) eqn:E; [eauto|]. apply last_None in E. subst ms. cbn in Hms. symmetry in Hms. apply (f_equal length) in Hms.
    rewrite length_take in Hms. cbn in Hms. lia. }
  destruct Hne as [m Hm]. rewrite Hm. cbn [fmap option_fmap option_map].
  assert (Hlast : last (take (Z.to_nat limit) (selected p before s)) = Some (mr_id m, to_row m)).
  { rewrite <- Hms. unfold record_rows. change (map ?f ms) with (f <$> ms). by rewrite fmap_last, Hm. }
  pose proof (next_page p before s (Z.to_nat limit) _ Hd Hlast) as Hnext. cbn [snd to_row row_timestamp_ms] in Hnext.
  destruct (IH (Some (mr_timestamp_ms m))) as (rest & -> & Hrest).
  - apply (f_equal length) in Hnext. rewrite length_app, length_take in Hnext. lia.
  - intros i j a b Hi Hj. apply Hd; rewrite Hnext; set_solver.
  - cbn [obind]. eexists. split; [reflexivity|]. unfold record_rows in *. rewrite map_app, Hms, Hrest. by rewrite <- Hnext.
Qed.

(** A written record is found by its identifier, and by a query of its
    conversation that is long enough. *)
Lemma inserted_read m s limit : store_reachable s → Z.of_nat (S (size (messages s))) ≤ limit < 2 ^ 62 →
  ∃ page, history true (mr_peer_node_id m) None limit (insert_message true m s).2 = Ok (page, false) ∧ m ∈ page.
Proof.
  intros Hr Hlim. assert (Hok : store_ok (insert_message true m s).2) by (apply store_reachable_ok; eapply rtc_r; [exact Hr|apply StepInsert]).
  destruct (history_spec (mr_peer_node_id m) None limit _ Hok ltac:(lia)) as (page & -> & Hrows).
  set (s' := (insert_message true m s).2) in *. set (l := selected (mr_peer_node_id m) None s') in *.
  assert (Hlen : (length l ≤ S (size (messages s)))%nat).
  { subst l. unfold selected. rewrite merge_sort_Permutation. etrans; [apply List.filter_length_le|]. rewrite length_map_to_list.
    change (messages s') with (<[mr_id m := to_row m]> (messages s)). rewrite map_size_insert. destruct (messages s !! mr_id m); unfold id; lia. }
  exists page. rewrite bool_decide_eq_false_2 by lia. split; [done|]. rewrite take_ge in Hrows by lia.
  assert (Hin : (mr_id m, to_row m) ∈ record_rows page).
  { rewrite Hrows. apply elem_of_selected. split; [apply lookup_insert_eq|done]. }
  apply list_elem_of_fmap in Hin as (m' & Heq & Hin). injection Heq as Hid Hrow. pose proof (parse_row_to_row m) as Hm. rewrite Hid in Hm.
  assert (E : to_row m = to_row m') by (unfold to_row in *; congruence). rewrite E, parse_row_to_row in Hm. by injection Hm as <-.
Qed.

(** C38: The rows are well-typed: in every reachable store each row parses, so a
    query never fails for the data it finds, whichever statements failed
    before; unread counts are not negative; and a written record is read back
    as it was written, by its identifier and by a query of its conversation
    whose limit is above the number of messages. *)
Theorem storage_typed s m p before limit :
  store_reachable s →
  (∃ page more, history true p before limit s = Ok (page, more)) ∧
  (∀ id r, messages s !! id = Some r → ∃ m, parse_row id r = Ok m) ∧
  map_Forall (λ _ c, 0 ≤ cm_unread_count c) (conversations_meta s) ∧
  (∃ r, messages (insert_message true m s).2 !! mr_id m = Some r ∧ parse_row (mr_id m) r = Ok m) ∧
  (Z.of_nat (size (messages s)) < limit < 2 ^ 62 →
    ∃ page, history true (mr_peer_node_id m) None limit (insert_message true m s).2 = Ok (page, false) ∧ m ∈ page).
Proof.
  intros Hreach. pose proof (store_reachable_ok s Hreach) as Hok. split_and!.
  - unfold history. cbn [negb]. destruct (parse_rows_ok (take (Z.to_nat (Z.max (Z.min (limit + 1) i64_MAX) 2)) (selected p before s)))
      as (ms & -> & _); [by apply Forall_take, selected_rows_ok|]. cbn [obind]. eauto.
  - intros id r Hr. destruct (parse_rows_ok [(id, r)]) as (ms & Hms & _); [constructor; [by eapply Hok|done]|].
    cbn in Hms. destruct (parse_row id r) as [x| |]; [eauto|done|done].
  - apply Hok.
  - exists (to_row m). split; [apply lookup_insert_eq|apply parse_row_to_row].
  - intros Hl. apply inserted_read; [done|lia].
Qed.

(** Deleting a conversation removes its messages and its summary and nothing
    else, and the counts it returns are exact; a failed transaction changes
    nothing. *)
Theorem delete_conversation_exact ok p s n had s' :
  delete_conversation ok p s = (Ok (n, had), s') →
  (∀ id, messages s' !! id = match messages s !! id with Some r => if of_peer p r then None else Some r | None => None end) ∧
  (∀ q, conversations_meta s' !! q = if bool_decide (q = p) then None else conversations_meta s !! q) ∧
  (n + size (messages s') = size (messages s))%nat ∧ (had = true ↔ is_Some (conversations_meta s !! p)).
Proof.
  unfold delete_conversation. destruct ok; cbn [negb]; [|done]. intros [= <- <- <-]. cbn. split_and!.
  - intros id. destruct (messages s !! id) as [r|] eqn:Er; [|apply map_lookup_filter_None_2; by left]. destruct (of_peer p r) eqn:E.
    + apply map_lookup_filter_None_2. right. intros x Hx. rewrite Er in Hx. simplify_eq. cbn. rewrite E. cbn. tauto.
    + apply map_lookup_filter_Some_2; [done|]. cbn. by rewrite E.
  - intros q. case_bool_decide as Hq; [subst; apply lookup_delete_eq|by apply lookup_delete_ne].
  - rewrite <- (map_filter_union_complement (λ kr : list Z * MessageRow, of_peer p kr.2) (messages s)) at 3.
    rewrite map_size_disj_union by apply map_disjoint_filter_complement. f_equal. f_equal. apply map_filter_ext.
    intros k r _. cbn. destruct (of_peer p r); cbn; tauto.
  - apply bool_decide_eq_true.
Qed.

(** ** Concrete stores *)
Definition sample_message (id peer : Z) (ts : Z) : MessageRecord :=
  MkMessage [id] [peer] DirReceived [104; 105] ts StDelivered None (Some 5) None.
Definition sample_store (ts : list Z) : MessagingStorage :=
  fold_left (λ s p, (insert_message true (sample_message (Z.of_nat p.1) 9 p.2) s).2) (imap (λ i t, (i, t)) ts) MessagingStorage_new.

Lemma sample_store_reachable ts : store_reachable (sample_store ts).
Proof.
  unfold sample_store. generalize (imap (λ i t, (i, t)) ts). intros l.
  assert (H : store_reachable MessagingStorage_new) by apply rtc_refl. revert H. generalize MessagingStorage_new.
  induction l as [|p l IH]; intros s Hs; cbn [fold_left]; [done|]. apply IH. eapply rtc_r; [exact Hs|]. apply StepInsert.
Qed.

(** Two messages of one millisecond: the second is on no page. *)
Theorem paging_skips_ties :
  let s := sample_store [7; 7] in
  ∃ ms, page_through 5 [9] None 1 s = Ok ms ∧ length ms = 1%nat ∧ length (selected [9] None s) = 2%nat.
Proof. eexists. split; [vm_compute; reflexivity|]. split; vm_compute; reflexivity. Qed.

Lemma paging_complete_witness :
  ∃ ms, page_through 3 [9] None 1 (sample_store [7; 8; 9]) = Ok ms ∧ record_rows ms = selected [9] None (sample_store [7; 8; 9]).
Proof.
  destruct (paging_complete 3 [9] None 1 (sample_store [7; 8; 9])) as (ms & Hms & Hr & _);
    [apply sample_store_reachable|lia|by apply (bool_decide_unpack _); vm_compute| |by exists ms].
  eassert (Hs : selected [9] None (sample_store [7; 8; 9]) = _) by (vm_compute; reflexivity).
  intros i j a b Hi Hj. rewrite Hs, !elem_of_cons, elem_of_nil in Hi, Hj.
  intros Heq. destruct Hi as [Hi|[Hi|[Hi|[]]]], Hj as [Hj|[Hj|[Hj|[]]]]; injection Hi as -> ->; injection Hj as -> ->; (reflexivity || discriminate Heq).
Defined.

Lemma storage_typed_witness :
  (∃ page more, history true [9] None 5 (sample_store [7; 8; 9]) = Ok (page, more)) ∧
  ∃ page, history true [9] None 5 (insert_message true (sample_message 20 9 8) (sample_store [7; 8; 9])).2 = Ok (page, false) ∧ sample_message 20 9 8 ∈ page.
Proof.
  destruct (storage_typed (sample_store [7; 8; 9]) (sample_message 20 9 8) [9] None 5 (sample_store_reachable _)) as (Hq & _ & _ & _ & Hin).
  split; [exact Hq|]. apply Hin. split; by vm_compute.
Defined.
