(* ===== verification/PeerDirectory.v ===== *)
(** * The peer directory (crates/pim-daemon/src/peer_directory.rs)

    The daemon's keystore of known peers and the logs of when Bluetooth and
    Wi-Fi Direct peers were reachable: four SQLite tables as finite maps keyed
    by their primary keys.  Whether SQLite executes the statements of a method
    is an argument ([ok]).  The interface plugins see is that of
    crates/pim-plugin/src/lib.rs. *)

From S2P Require Import Prelude Core Text.

(** ** The plugin interface (crates/pim-plugin/src/lib.rs) *)
Inductive PeerInfoSource := Direct | Routed.
#[export] Instance PeerInfoSource_eq_dec : EqDecision PeerInfoSource.
Proof. solve_decision. Defined.

Inductive PeerDirectoryEvent :=
| Seen (node_id : NodeId) (x25519_pub name : list Z) (via : PeerInfoSource)
| Forgotten (node_id : NodeId).

(** What a plugin may ask of the directory, and what it may rely on. *)
Class PeerDirectory (S : Type) := {
  lookup_x25519 : NodeId → S → option (list Z);
  lookup_name : NodeId → S → option (list Z);
}.
Class LawfulPeerDirectory (S : Type) `{PeerDirectory S} : Prop :=
  lookup_x25519_length : ∀ peer s k, lookup_x25519 peer s = Some k → length k = 32%nat.

(** ** The tables *)
Record PeerSeen := MkSeen {
  ps_x25519_pub : list Z;
  ps_last_known_name : list Z;
  ps_first_seen_ms : Z;
  ps_last_seen_ms : Z;
}.

(** [RfcommLifecycleRecord] and [PanLifecycleRecord]; the key is the address. *)
Record LifecycleRecord := MkLife {
  lr_name : list Z;
  lr_first_paired_at_s : Z;
  lr_last_connected_at_s : option Z;
}.
Record WfdLifecycleRecord := MkWfd {
  wr_first_seen_at_s : Z;
  wr_last_connected_at_s : option Z;
}.

Record PeersDb := MkDb {
  peers_seen : gmap (list Z) PeerSeen;
  rfcomm_peer_lifecycle : gmap (list Z) LifecycleRecord;
  bluetooth_pan_lifecycle : gmap (list Z) LifecycleRecord;
  wfd_peer_lifecycle : gmap (list Z) WfdLifecycleRecord;
}.
Definition PeersDb_new : PeersDb := MkDb ∅ ∅ ∅ ∅.

Definition on_peers (f : gmap (list Z) PeerSeen → gmap (list Z) PeerSeen) (db : PeersDb) : PeersDb :=
  MkDb (f (peers_seen db)) (rfcomm_peer_lifecycle db) (bluetooth_pan_lifecycle db) (wfd_peer_lifecycle db).
Definition on_rfcomm (f : gmap (list Z) LifecycleRecord → gmap (list Z) LifecycleRecord) (db : PeersDb) : PeersDb :=
  MkDb (peers_seen db) (f (rfcomm_peer_lifecycle db)) (bluetooth_pan_lifecycle db) (wfd_peer_lifecycle db).
Definition on_pan (f : gmap (list Z) LifecycleRecord → gmap (list Z) LifecycleRecord) (db : PeersDb) : PeersDb :=
  MkDb (peers_seen db) (rfcomm_peer_lifecycle db) (f (bluetooth_pan_lifecycle db)) (wfd_peer_lifecycle db).
Definition on_wfd (f : gmap (list Z) WfdLifecycleRecord → gmap (list Z) WfdLifecycleRecord) (db : PeersDb) : PeersDb :=
  MkDb (peers_seen db) (rfcomm_peer_lifecycle db) (bluetooth_pan_lifecycle db) (f (wfd_peer_lifecycle db)).

Inductive DirectoryError := DbFailed.

Inductive ImportOutcome :=
| Inserted
| Refreshed
| KeyMismatch (existing_x25519_hex : list Z).

(** ** Identities *)
Definition upsert_peer_seen (ok : bool) (peer : NodeId) (x25519_pub name : list Z) (now_ms : Z) (db : PeersDb)
  : outcome DirectoryError bool * PeersDb :=
  if negb ok then (Err DbFailed, db) else
  let peer_hex := hex_node_id peer in
  match peers_seen db !! peer_hex with
  | None => (Ok true, on_peers (insert peer_hex (MkSeen x25519_pub name now_ms now_ms)) db)
  | Some row => (Ok false, on_peers (insert peer_hex (MkSeen x25519_pub name (ps_first_seen_ms row) now_ms)) db)
  end.

Definition import_identity (ok : bool) (peer : NodeId) (x25519_pub : list Z) (name_if_set : option (list Z)) (now_ms : Z) (db : PeersDb)
  : outcome DirectoryError ImportOutcome * PeersDb :=
  if negb ok then (Err DbFailed, db) else
  let peer_hex := hex_node_id peer in
  match peers_seen db !! peer_hex with
  | None => (Ok Inserted, on_peers (insert peer_hex (MkSeen x25519_pub (default [] name_if_set) now_ms now_ms)) db)
  | Some row =>
    if bool_decide (ps_x25519_pub row = x25519_pub) then
      let name := match name_if_set with
                  | Some n => if bool_decide (n = []) then ps_last_known_name row else n
                  | None => ps_last_known_name row
                  end in
      (Ok Refreshed, on_peers (insert peer_hex (MkSeen (ps_x25519_pub row) name (ps_first_seen_ms row) now_ms)) db)
    else (Ok (KeyMismatch (hex (ps_x25519_pub row))), db)
  end.

Definition forget_identity (ok : bool) (peer : NodeId) (db : PeersDb) : outcome DirectoryError bool * PeersDb :=
  if negb ok then (Err DbFailed, db) else
  let peer_hex := hex_node_id peer in
  (Ok (bool_decide (is_Some (peers_seen db !! peer_hex))), on_peers (delete peer_hex) db).

Definition db_lookup_x25519 (peer : NodeId) (db : PeersDb) : option (list Z) :=
  match peers_seen db !! hex_node_id peer with
  | Some row => if bool_decide (length (ps_x25519_pub row) = 32%nat) then Some (ps_x25519_pub row) else None
  | None => None
  end.
Definition db_lookup_name (peer : NodeId) (db : PeersDb) : option (list Z) :=
  ps_last_known_name <$> peers_seen db !! hex_node_id peer.

(** The adapter that implements the interface. *)
#[export] Instance PeerDirectoryAdapter : PeerDirectory PeersDb := {| lookup_x25519 := db_lookup_x25519; lookup_name := db_lookup_name |}.
#[export] Instance PeerDirectoryAdapter_lawful : LawfulPeerDirectory PeersDb.
Proof.
  intros peer db k. cbn. unfold db_lookup_x25519. destruct (peers_seen db !! _) as [row|]; [|done].
  case_bool_decide; [|done]. by intros [= <-].
Qed.

Definition list_x25519 (db : PeersDb) : gmap (list Z) (list Z) :=
  omap (λ row, if bool_decide (length (ps_x25519_pub row) = 32%nat) then Some (hex (ps_x25519_pub row)) else None) (peers_seen db).

(** ORDER BY last_seen_ms ASC *)
Definition seen_before (a b : list Z * PeerSeen) : Prop := ps_last_seen_ms a.2 ≤ ps_last_seen_ms b.2.
#[export] Instance seen_before_dec : RelDecision seen_before.
Proof. intros a b. unfold seen_before. apply _. Defined.

Definition list_peers_older_than (ok : bool) (threshold_ms : Z) (db : PeersDb) : outcome DirectoryError (list (NodeId * Z * list Z)) :=
  if negb ok then Err DbFailed else
  let rows := merge_sort seen_before
    (List.filter (λ kr, ps_last_seen_ms kr.2 <? threshold_ms) (map_to_list (peers_seen db))) in
  Ok (omap (λ kr, match NodeId_from_str kr.1 with Ok id => Some (id, ps_last_seen_ms kr.2, ps_last_known_name kr.2) | _ => None end) rows).

(** *** What the service adds: events *)
Definition record_peer_seen (ok : bool) (peer : NodeId) (x25519_pub name : list Z) (now_ms : Z) (source : PeerInfoSource) (emit_event : bool)
    (db : PeersDb) : outcome DirectoryError bool * list PeerDirectoryEvent * PeersDb :=
  match upsert_peer_seen ok peer x25519_pub name now_ms db with
  | (Ok inserted, db) => (Ok inserted, if emit_event then [Seen peer x25519_pub name source] else [], db)
  | (r, db) => (r, [], db)
  end.

Definition import_identity_if_compatible (ok : bool) (peer : NodeId) (x25519_pub : list Z) (name_if_set : option (list Z)) (now_ms : Z)
    (db : PeersDb) : outcome DirectoryError ImportOutcome * list PeerDirectoryEvent * PeersDb :=
  match import_identity ok peer x25519_pub name_if_set now_ms db with
  | (Ok (KeyMismatch h), db) => (Ok (KeyMismatch h), [], db)
  | (Ok o, db) =>
    let name := match name_if_set with
                | Some n => if bool_decide (n = []) then default [] (db_lookup_name peer db) else n
                | None => default [] (db_lookup_name peer db)
                end in
    (Ok o, [Seen peer x25519_pub name Direct], db)
  | (r, db) => (r, [], db)
  end.

Definition forget (ok : bool) (peer : NodeId) (db : PeersDb) : outcome DirectoryError bool * list PeerDirectoryEvent * PeersDb :=
  match forget_identity ok peer db with
  | (Ok forgot, db) => (Ok forgot, if (forgot : bool) then [Forgotten peer] else [], db)
  | (r, db) => (r, [], db)
  end.

(** ** Reachability logs *)

(** INSERT .. ON CONFLICT DO NOTHING *)
Definition insert_if_absent {A} (k : list Z) (a : A) (m : gmap (list Z) A) : gmap (list Z) A :=
  match m !! k with Some _ => m | None => <[k := a]> m end.

(** MAX(COALESCE(last_connected_at_s, 0), now) *)
Definition max_connected (last : option Z) (now_s : Z) : option Z := Some (Z.max (default 0 last) now_s).

Definition observe_paired (addr name : list Z) (now_s : Z) : gmap (list Z) LifecycleRecord → gmap (list Z) LifecycleRecord :=
  insert_if_absent addr (MkLife name now_s None).
Definition record_connected (addr name : list Z) (now_s : Z) (m : gmap (list Z) LifecycleRecord) : gmap (list Z) LifecycleRecord :=
  <[addr := match m !! addr with
            | None => MkLife name now_s (Some now_s)
            | Some r => MkLife (lr_name r) (lr_first_paired_at_s r) (max_connected (lr_last_connected_at_s r) now_s)
            end]> m.

Definition observe_rfcomm_paired (addr name : list Z) (now_s : Z) : PeersDb → PeersDb := on_rfcomm (observe_paired addr name now_s).
Definition record_rfcomm_connected (addr name : list Z) (now_s : Z) : PeersDb → PeersDb := on_rfcomm (record_connected addr name now_s).
Definition observe_pan_paired (addr name : list Z) (now_s : Z) : PeersDb → PeersDb := on_pan (observe_paired addr name now_s).
Definition record_pan_connected (addr name : list Z) (now_s : Z) : PeersDb → PeersDb := on_pan (record_connected addr name now_s).
Definition observe_wfd_peer (mac : list Z) (now_s : Z) : PeersDb → PeersDb := on_wfd (insert_if_absent mac (MkWfd now_s None)).
Definition record_wfd_connected (mac : list Z) (now_s : Z) : PeersDb → PeersDb :=
  on_wfd (λ m, <[mac := match m !! mac with
                        | None => MkWfd now_s (Some now_s)
                        | Some r => MkWfd (wr_first_seen_at_s r) (max_connected (wr_last_connected_at_s r) now_s)
                        end]> m).

Definition last_seen_of (first : Z) (last : option Z) : Z := Z.max first (default first last).
Definition rfcomm_last_seen (addr : list Z) (db : PeersDb) : option Z :=
  (λ r, last_seen_of (lr_first_paired_at_s r) (lr_last_connected_at_s r)) <$> rfcomm_peer_lifecycle db !! addr.

(** ORDER BY the address ASC *)
Definition by_key {A} (a b : list Z * A) : Prop := bytes_le a.1 b.1 = true.
#[export] Instance by_key_dec {A} : RelDecision (@by_key A).
Proof. intros a b. unfold by_key. apply _. Defined.
Definition list_table {A} (m : gmap (list Z) A) : list (list Z * A) := merge_sort by_key (map_to_list m).
Definition list_rfcomm_lifecycle (db : PeersDb) : list (list Z * LifecycleRecord) := list_table (rfcomm_peer_lifecycle db).
Definition list_pan_lifecycle (db : PeersDb) : list (list Z * LifecycleRecord) := list_table (bluetooth_pan_lifecycle db).
Definition list_wfd_lifecycle (db : PeersDb) : list (list Z * WfdLifecycleRecord) := list_table (wfd_peer_lifecycle db).

Definition forget_rfcomm_peer (addr : list Z) (db : PeersDb) : bool * PeersDb :=
  (bool_decide (is_Some (rfcomm_peer_lifecycle db !! addr)), on_rfcomm (delete addr) db).
Definition forget_pan_peer (addr : list Z) (db : PeersDb) : bool * PeersDb :=
  (bool_decide (is_Some (bluetooth_pan_lifecycle db !! addr)), on_pan (delete addr) db).
Definition forget_wfd_peer (mac : list Z) (db : PeersDb) : bool * PeersDb :=
  (bool_decide (is_Some (wfd_peer_lifecycle db !! mac)), on_wfd (delete mac) db).

(** ** Theorems *)

(** An imported identity never replaces a key: whatever is imported, under
    whatever name, every key the directory held is still there; a different key
    for a known peer is refused and changes nothing at all, and importing twice
    refreshes. *)
Theorem import_keeps_keys ok peer key name now db r evs db' :
  import_identity_if_compatible ok peer key name now db = (r, evs, db') →
  (∀ q k, db_lookup_x25519 q db = Some k → db_lookup_x25519 q db' = Some k) ∧
  (∀ row, peers_seen db !! hex_node_id peer = Some row → ps_x25519_pub row ≠ key → db' = db ∧ evs = []) ∧
  (r = Ok Inserted ∨ r = Ok Refreshed → ∀ now' name', ∃ evs' db'',
     import_identity_if_compatible true peer key name' now' db' = (Ok Refreshed, evs', db'')).
Proof.
  unfold import_identity_if_compatible, import_identity. destruct ok; cbn [negb].
  2:{ intros [= <- <- <-]. split_and!; [done|done|]. by intros [?|?]. }
  destruct (peers_seen db !! hex_node_id peer) as [row|] eqn:Hrow; [case_bool_decide as Hkey|]; intros [= <- <- <-].
  - split_and!.
    + intros q k. unfold db_lookup_x25519. cbn. destruct (decide (hex_node_id q = hex_node_id peer)) as [->|Hne].
      * rewrite lookup_insert_eq, Hrow. done.
      * by rewrite lookup_insert_ne.
    + intros row' Hrow' Hne. simplify_eq.
    + intros _ now' name'. cbn. rewrite lookup_insert_eq. cbn. rewrite bool_decide_eq_true_2 by done. eauto.
  - split_and!; [done|done|]. by intros [?|?].
  - split_and!.
    + intros q k. unfold db_lookup_x25519. cbn. destruct (decide (hex_node_id q = hex_node_id peer)) as [->|Hne].
      * by rewrite Hrow.
      * by rewrite lookup_insert_ne.
    + by intros row'.
    + intros _ now' name'. cbn. rewrite lookup_insert_eq. cbn. rewrite bool_decide_eq_true_2 by done. eauto.
Qed.

Lemma import_keeps_keys_witness :
  let db := (upsert_peer_seen true (sample_id 1) (replicate 32 7) [97] 5 PeersDb_new).2 in
  ∃ r evs db', import_identity_if_compatible true (sample_id 1) (replicate 32 8) None 9 db = (r, evs, db') ∧
    db_lookup_x25519 (sample_id 1) db' = Some (replicate 32 7).
Proof.
  intros db. destruct (import_identity_if_compatible true (sample_id 1) (replicate 32 8) None 9 db) as [[r evs] db'] eqn:E.
  exists r, evs, db'. split; [reflexivity|]. apply (import_keeps_keys _ _ _ _ _ _ _ _ _ E). vm_compute. reflexivity.
Defined.

(** What the log of one address has seen. *)
Inductive LifeEvent := Paired (name : list Z) (at_s : Z) | Connected (name : list Z) (at_s : Z).
Definition life_time (e : LifeEvent) : Z := match e with Paired _ t | Connected _ t => t end.
Definition life_name (e : LifeEvent) : list Z := match e with Paired n _ | Connected n _ => n end.
Definition life_apply (addr : list Z) (m : gmap (list Z) LifecycleRecord) (e : LifeEvent) : gmap (list Z) LifecycleRecord :=
  match e with Paired name t => observe_paired addr name t m | Connected name t => record_connected addr name t m end.
Definition connections (es : list LifeEvent) : list Z := omap (λ e, match e with Connected _ t => Some t | _ => None end) es.

Lemma life_apply_other addr m e other : other ≠ addr → life_apply addr m e !! other = m !! other.
Proof.
  intros Hne. destruct e; cbn; unfold observe_paired, insert_if_absent, record_connected; [destruct (m !! addr); [done|]|]; by rewrite lookup_insert_ne.
Qed.

Lemma foldr_max l a b : foldr Z.max (Z.max a b) l = Z.max b (foldr Z.max a l).
Proof. induction l as [|x l IHl]; cbn; [lia|]. rewrite IHl. lia. Qed.

(** The row after further events. *)
Lemma life_fold addr es m r :
  m !! addr = Some r → Forall (λ e, 0 ≤ life_time e) es → (∀ t, lr_last_connected_at_s r = Some t → 0 ≤ t) →
  ∃ r', fold_left (life_apply addr) es m !! addr = Some r' ∧ lr_name r' = lr_name r ∧ lr_first_paired_at_s r' = lr_first_paired_at_s r ∧
    lr_last_connected_at_s r' =
      match connections es with [] => lr_last_connected_at_s r | ts => Some (foldr Z.max (default 0 (lr_last_connected_at_s r)) ts) end.
Proof.
  intros Hr Hes. revert m r Hr. induction Hes as [|e es He _ IH]; intros m r Hr Hpos; [by exists r|]. cbn [fold_left].
  destruct e as [name t|name t]; cbn [life_apply connections omap list_omap life_time] in *.
  - unfold observe_paired, insert_if_absent. rewrite Hr. by apply IH.
  - unfold record_connected at 1. rewrite Hr.
    destruct (IH (<[addr := MkLife (lr_name r) (lr_first_paired_at_s r) (max_connected (lr_last_connected_at_s r) t)]> m)
      (MkLife (lr_name r) (lr_first_paired_at_s r) (max_connected (lr_last_connected_at_s r) t))) as (r' & H1 & H2 & H3 & H4).
    { apply lookup_insert_eq. }
    { cbn. intros t' [= <-]. destruct (lr_last_connected_at_s r); cbn; lia. }
    exists r'. split_and!; [done|done|done|]. rewrite H4. fold (connections es). cbn [lr_last_connected_at_s]. unfold max_connected.
    destruct (connections es) as [|t' ts]; cbn [foldr]; f_equal; [lia|]. cbn [default from_option id].
    rewrite foldr_max. lia.
Qed.

(** The reachability log is exact: after any events of an address, in any
    order of their times, the log still has the name and time of the first
    one, and its freshness is the latest of that time and all connections, so
    an event that arrives late never rewinds it; other addresses are not
    touched. *)
Theorem lifecycle_exact addr e es m :
  m !! addr = None → 0 ≤ life_time e → Forall (λ e, 0 ≤ life_time e) es →
  ∃ r, fold_left (life_apply addr) (e :: es) m !! addr = Some r ∧
    lr_name r = life_name e ∧ lr_first_paired_at_s r = life_time e ∧
    last_seen_of (lr_first_paired_at_s r) (lr_last_connected_at_s r) = foldr Z.max (life_time e) (connections es) ∧
    ∀ other, other ≠ addr → fold_left (life_apply addr) (e :: es) m !! other = m !! other.
Proof.
  intros Hm He Hes. cbn [fold_left].
  assert (Hfirst : ∃ r0, life_apply addr m e !! addr = Some r0 ∧ lr_name r0 = life_name e ∧ lr_first_paired_at_s r0 = life_time e ∧
    (lr_last_connected_at_s r0 = None ∨ lr_last_connected_at_s r0 = Some (life_time e))).
  { destruct e as [n t|n t]; cbn; unfold observe_paired, insert_if_absent, record_connected; rewrite Hm, lookup_insert_eq; eexists;
      (split; [reflexivity|]); cbn; auto. }
  destruct Hfirst as (r0 & H0 & Hn & Hf & Hlast).
  destruct (life_fold addr es _ r0 H0 Hes) as (r & Hr & Hrn & Hrf & Hrl).
  { intros t Ht. destruct Hlast as [Hl|Hl]; rewrite Hl in Ht; [done|]. by injection Ht as <-. }
  exists r. split_and!; [done|congruence|congruence| |].
  - rewrite Hrf, Hf, Hrl. unfold last_seen_of.
    destruct (connections es) as [|t ts]; [destruct Hlast as [-> | ->]; cbn; lia|].
    destruct Hlast as [-> | ->]; cbn [default from_option id]; rewrite <- foldr_max; f_equal; lia.
  - intros other Hne. assert (Hgen : ∀ l m', fold_left (life_apply addr) l m' !! other = m' !! other).
    { induction l as [|x l IHl]; intros m'; cbn; [done|]. rewrite IHl. by apply life_apply_other. }
    rewrite Hgen. by apply life_apply_other.
Qed.

Lemma lifecycle_exact_witness :
  ∃ r, fold_left (life_apply [1]) [Connected [97] 5000; Connected [98] 6000; Connected [98] 5500; Paired [99] 9000] ∅ !! [1] = Some r ∧
    last_seen_of (lr_first_paired_at_s r) (lr_last_connected_at_s r) = 6000.
Proof.
  destruct (lifecycle_exact [1] (Connected [97] 5000) [Connected [98] 6000; Connected [98] 5500; Paired [99] 9000] ∅) as (r & Hr & _ & _ & Hl & _);
    [reflexivity|cbn; lia|repeat constructor; cbn; lia|]. exists r. split; [exact Hr|exact Hl].
Defined.
