(* ===== verification/Handshake.v ===== *)
(** * The authenticated handshake (crates/pim-crypto/src/handshake.rs)

    One [Handshaker] per side: the initiator sends its long-term key, an
    ephemeral X25519 key and a nonce, signed; the responder answers in kind;
    both derive the session key from the ephemeral secret, the two nonces and
    the key of the private mesh, if there is one; the initiator proves with a
    MAC over the transcript that it has the same key.  Ed25519, HKDF and HMAC
    are third-party code and so parameters; the ephemeral secrets and the
    nonces, drawn at random by the code, are arguments. *)

From S2P Require Import Prelude Core Session E2e.

Class HandshakeCrypto := {
  ed_public : list Z → list Z;
  ed_sign : list Z → list Z → list Z;
  ed_valid_key : list Z → bool;
  ed_verify : list Z → list Z → list Z → bool;
  hkdf_salted : list Z → list Z → string → list Z;
  hmac_sha256 : list Z → list Z → list Z;
}.

Class LawfulHandshakeCrypto (K : HandshakeCrypto) : Prop := {
  ed_public_valid : ∀ seed, ed_valid_key (ed_public seed) = true;
  ed_verify_sign : ∀ seed msg, ed_verify (ed_public seed) msg (ed_sign seed msg) = true;
  ed_public_length : ∀ seed, length (ed_public seed) = 32%nat;
  ed_sign_length : ∀ seed msg, length (ed_sign seed msg) = 64%nat;
  hkdf_length : ∀ salt ikm info, length (hkdf_salted salt ikm info) = 32%nat;
  hmac_length : ∀ key msg, length (hmac_sha256 key msg) = 32%nat;
}.

Inductive HandshakeError := InvalidPublicKey | InvalidSignature | ConfirmMismatch | InvalidState.

Record HandshakeInit := {
  hi_sender_pub : list Z; hi_ephemeral_pub : list Z; hi_nonce : list Z; hi_signature : list Z }.
Record HandshakeResponse := {
  hr_sender_pub : list Z; hr_ephemeral_pub : list Z; hr_nonce : list Z; hr_signature : list Z }.
Record HandshakeConfirm := { hc_hmac : list Z }.

(** [signing_key] and [verifying_key] are the two fields of [HandshakeIdentity]. *)
Record Handshaker := {
  signing_key_bytes : list Z;
  verifying_key_bytes : list Z;
  hs_ephemeral_secret : option (list Z);
  hs_ephemeral_pub : option (list Z);
  hs_session_key : option (list Z);
  hs_transcript : list Z;
  mesh_handshake_key : option (list Z);
}.

Section Handshaker.
Context {D : Ecdh} {K : HandshakeCrypto}.

Definition Handshaker_new (seed : list Z) : Handshaker :=
  {| signing_key_bytes := seed; verifying_key_bytes := ed_public seed; hs_ephemeral_secret := None;
     hs_ephemeral_pub := None; hs_session_key := None; hs_transcript := []; mesh_handshake_key := None |}.

Definition with_mesh_handshake_key (key : list Z) (h : Handshaker) : Handshaker :=
  {| signing_key_bytes := signing_key_bytes h; verifying_key_bytes := verifying_key_bytes h;
     hs_ephemeral_secret := hs_ephemeral_secret h; hs_ephemeral_pub := hs_ephemeral_pub h;
     hs_session_key := hs_session_key h; hs_transcript := hs_transcript h; mesh_handshake_key := Some key |}.

Definition ikm_with_mesh (h : Handshaker) (shared_secret : list Z) : list Z :=
  shared_secret ++ match mesh_handshake_key h with Some mesh_key => mesh_key | None => [] end.

Definition initiate (ephemeral_secret nonce : list Z) (h : Handshaker) : HandshakeInit * Handshaker :=
  let ephemeral_pub := x25519_public ephemeral_secret in
  let signature := ed_sign (signing_key_bytes h) (ephemeral_pub ++ nonce) in
  let init := {| hi_sender_pub := verifying_key_bytes h; hi_ephemeral_pub := ephemeral_pub; hi_nonce := nonce;
                 hi_signature := signature |} in
  (init,
   {| signing_key_bytes := signing_key_bytes h; verifying_key_bytes := verifying_key_bytes h;
      hs_ephemeral_secret := Some ephemeral_secret; hs_ephemeral_pub := Some ephemeral_pub;
      hs_session_key := hs_session_key h;
      hs_transcript := hs_transcript h ++ hi_sender_pub init ++ hi_ephemeral_pub init ++ hi_nonce init;
      mesh_handshake_key := mesh_handshake_key h |}).

Definition respond (ephemeral_secret nonce : list Z) (init : HandshakeInit) (h : Handshaker)
  : outcome HandshakeError HandshakeResponse * Handshaker :=
  if negb (ed_valid_key (hi_sender_pub init)) then (Err InvalidPublicKey, h) else
  if negb (ed_verify (hi_sender_pub init) (hi_ephemeral_pub init ++ hi_nonce init) (hi_signature init))
  then (Err InvalidSignature, h) else
  let ephemeral_pub := x25519_public ephemeral_secret in
  let signature := ed_sign (signing_key_bytes h) (ephemeral_pub ++ nonce) in
  let shared_secret := diffie_hellman ephemeral_secret (hi_ephemeral_pub init) in
  let transcript := hs_transcript h ++ hi_sender_pub init ++ hi_ephemeral_pub init ++ hi_nonce init ++
                    verifying_key_bytes h ++ ephemeral_pub ++ nonce in
  let salt := hi_nonce init ++ nonce in
  let key := hkdf_salted salt (ikm_with_mesh h shared_secret) "pim-session-v1" in
  (Ok {| hr_sender_pub := verifying_key_bytes h; hr_ephemeral_pub := ephemeral_pub; hr_nonce := nonce;
         hr_signature := signature |},
   {| signing_key_bytes := signing_key_bytes h; verifying_key_bytes := verifying_key_bytes h;
      hs_ephemeral_secret := hs_ephemeral_secret h; hs_ephemeral_pub := Some ephemeral_pub;
      hs_session_key := Some key; hs_transcript := transcript; mesh_handshake_key := mesh_handshake_key h |}).

(** The ephemeral secret is taken before the slice of the transcript is. *)
Definition finalize_initiator (response : HandshakeResponse) (h : Handshaker)
  : outcome HandshakeError unit * Handshaker :=
  if negb (ed_valid_key (hr_sender_pub response)) then (Err InvalidPublicKey, h) else
  if negb (ed_verify (hr_sender_pub response) (hr_ephemeral_pub response ++ hr_nonce response) (hr_signature response))
  then (Err InvalidSignature, h) else
  match hs_ephemeral_secret h with
  | None => (Err InvalidState, h)
  | Some ephemeral_secret =>
    let shared_secret := diffie_hellman ephemeral_secret (hr_ephemeral_pub response) in
    let transcript := hs_transcript h ++ hr_sender_pub response ++ hr_ephemeral_pub response ++ hr_nonce response in
    let h' key :=
      {| signing_key_bytes := signing_key_bytes h; verifying_key_bytes := verifying_key_bytes h;
         hs_ephemeral_secret := None; hs_ephemeral_pub := hs_ephemeral_pub h; hs_session_key := key;
         hs_transcript := transcript; mesh_handshake_key := mesh_handshake_key h |} in
    match slice 64 96 transcript with
    | Ok init_nonce =>
      let salt := init_nonce ++ hr_nonce response in
      let key := hkdf_salted salt (ikm_with_mesh h shared_secret) "pim-session-v1" in
      (Ok tt, h' (Some key))
    | Err e => (Err e, h' (hs_session_key h))
    | Panic => (Panic, h' (hs_session_key h))
    end
  end.

Definition make_confirm (h : Handshaker) : outcome HandshakeError HandshakeConfirm :=
  match hs_session_key h with
  | None => Err InvalidState
  | Some key => Ok {| hc_hmac := hmac_sha256 key (hs_transcript h) |}
  end.

Definition verify_confirm (confirm : HandshakeConfirm) (h : Handshaker) : outcome HandshakeError unit :=
  match hs_session_key h with
  | None => Err InvalidState
  | Some key => if bool_decide (hc_hmac confirm = hmac_sha256 key (hs_transcript h)) then Ok tt else Err ConfirmMismatch
  end.
End Handshaker.

(** How the daemon builds a handshaker: [state.mesh_handshake_key] is mixed in when set. *)
Definition handshaker {K : HandshakeCrypto} (seed : list Z) (mesh_key : option (list Z)) : Handshaker :=
  match mesh_key with
  | Some key => with_mesh_handshake_key key (Handshaker_new seed)
  | None => Handshaker_new seed
  end.

(** ** Lemmas *)
Section Proofs.
Context {D : Ecdh} {K : HandshakeCrypto}.

Lemma handshaker_fields seed mk :
  signing_key_bytes (handshaker seed mk) = seed ∧ verifying_key_bytes (handshaker seed mk) = ed_public seed ∧
  hs_transcript (handshaker seed mk) = [] ∧ mesh_handshake_key (handshaker seed mk) = mk ∧
  hs_ephemeral_secret (handshaker seed mk) = None ∧ hs_session_key (handshaker seed mk) = None.
Proof. by destruct mk. Qed.

(** The key the responder derives. *)
Definition responder_key (mk : option (list Z)) (eph nonce : list Z) (init : HandshakeInit) : list Z :=
  hkdf_salted (hi_nonce init ++ nonce) (diffie_hellman eph (hi_ephemeral_pub init) ++ default [] mk) "pim-session-v1".
(** The key the initiator derives. *)
Definition initiator_key (mk : option (list Z)) (eph nonce : list Z) (r : HandshakeResponse) : list Z :=
  hkdf_salted (nonce ++ hr_nonce r) (diffie_hellman eph (hr_ephemeral_pub r) ++ default [] mk) "pim-session-v1".

Lemma respond_Ok seed mk eph nonce init r h' :
  respond eph nonce init (handshaker seed mk) = (Ok r, h') →
  ed_verify (hi_sender_pub init) (hi_ephemeral_pub init ++ hi_nonce init) (hi_signature init) = true ∧
  hr_sender_pub r = ed_public seed ∧ hr_ephemeral_pub r = x25519_public eph ∧ hr_nonce r = nonce ∧
  hs_session_key h' = Some (responder_key mk eph nonce init) ∧
  hs_transcript h' = hi_sender_pub init ++ hi_ephemeral_pub init ++ hi_nonce init ++
                     hr_sender_pub r ++ hr_ephemeral_pub r ++ hr_nonce r.
Proof.
  destruct (handshaker_fields seed mk) as (Hs & Hv & Ht & Hm & _). unfold respond, ikm_with_mesh. rewrite Hs, Hv, Ht, Hm.
  destruct (ed_valid_key _); cbn [negb]; [|done]. destruct (ed_verify _ _ _); cbn [negb]; [|done]. intros [= <- <-].
  cbn. unfold responder_key. by destruct mk.
Qed.

Lemma finalize_Ok seed mk eph nonce r h' :
  length (ed_public seed) = 32%nat → length (x25519_public eph) = 32%nat → length nonce = 32%nat →
  finalize_initiator r (initiate eph nonce (handshaker seed mk)).2 = (Ok (), h') →
  ed_verify (hr_sender_pub r) (hr_ephemeral_pub r ++ hr_nonce r) (hr_signature r) = true ∧
  hs_session_key h' = Some (initiator_key mk eph nonce r) ∧
  hs_transcript h' = ed_public seed ++ x25519_public eph ++ nonce ++ hr_sender_pub r ++ hr_ephemeral_pub r ++ hr_nonce r ∧
  hs_ephemeral_secret h' = None.
Proof.
  intros Hp He Hn. destruct (handshaker_fields seed mk) as (Hs & Hv & Ht & Hm & _).
  unfold finalize_initiator, initiate, ikm_with_mesh.
  cbn [snd hs_ephemeral_secret hs_transcript mesh_handshake_key hi_sender_pub hi_ephemeral_pub hi_nonce hs_session_key].
  rewrite Hv, Ht, Hm. destruct (ed_valid_key _); cbn [negb]; [|done]. destruct (ed_verify _ _ _); cbn [negb]; [|done].
  cbn [app]. rewrite <- !app_assoc.
  assert (Hsl : slice (E:=HandshakeError) 64 96 (ed_public seed ++ x25519_public eph ++ nonce ++ hr_sender_pub r ++
    hr_ephemeral_pub r ++ hr_nonce r) = Ok nonce).
  { rewrite slice_Ok by (rewrite ?length_app; lia).
    rewrite drop_app_ge, drop_app_ge by lia. rewrite Hp, He. cbn [Nat.sub]. rewrite drop_0, <- Hn at 1. by rewrite take_app_length. }
  rewrite Hsl. intros [= <-]. cbn. unfold initiator_key. by destruct mk.
Qed.
End Proofs.

(** ** The theorems *)
Section Theorems.
Context {D : Ecdh} {K : HandshakeCrypto} {HD : LawfulEcdh D} {HK : LawfulHandshakeCrypto K}.

(** What the wire types say of the lengths. *)
Definition init_wf (i : HandshakeInit) : Prop :=
  length (hi_sender_pub i) = 32%nat ∧ length (hi_ephemeral_pub i) = 32%nat ∧ length (hi_nonce i) = 32%nat.
Definition response_wf (r : HandshakeResponse) : Prop :=
  length (hr_sender_pub r) = 32%nat ∧ length (hr_ephemeral_pub r) = 32%nat ∧ length (hr_nonce r) = 32%nat.
Definition mesh_key_wf (mk : option (list Z)) : Prop := match mk with Some k => length k = 32%nat | None => True end.

Lemma handshake_completes sa sb mk ea na eb nb :
  length na = 32%nat →
  let '(init, a1) := initiate ea na (handshaker sa mk) in
  ∃ resp b1 a2 c key,
    respond eb nb init (handshaker sb mk) = (Ok resp, b1) ∧ finalize_initiator resp a1 = (Ok (), a2) ∧
    make_confirm a2 = Ok c ∧ verify_confirm c b1 = Ok () ∧
    hs_session_key a2 = Some key ∧ hs_session_key b1 = Some key ∧ length key = 32%nat ∧
    hi_sender_pub init = ed_public sa ∧ hr_sender_pub resp = ed_public sb.
Proof.
  intros Hn. destruct (initiate ea na (handshaker sa mk)) as [init a1] eqn:Ei.
  destruct (handshaker_fields sa mk) as (Hs & Hv & Ht & Hm & _). destruct (handshaker_fields sb mk) as (Hs' & Hv' & Ht' & Hm' & _).
  assert (Hinit : hi_sender_pub init = ed_public sa ∧ hi_ephemeral_pub init = x25519_public ea ∧ hi_nonce init = na ∧
    hi_signature init = ed_sign sa (x25519_public ea ++ na)).
  { unfold initiate in Ei. injection Ei as <- _. cbn. by rewrite Hs, Hv. }
  destruct Hinit as (Hi1 & Hi2 & Hi3 & Hi4).
  destruct (respond eb nb init (handshaker sb mk)) as [[resp|err|] b1] eqn:Er;
    try (unfold respond in Er; rewrite Hi1, Hi2, Hi3, Hi4, ed_public_valid, ed_verify_sign in Er; done).
  assert (Hsig : hr_signature resp = ed_sign sb (x25519_public eb ++ nb)).
  { unfold respond in Er. rewrite Hs' in Er. destruct (ed_valid_key _); [|done]. destruct (ed_verify _ _ _); [|done].
    cbn [negb] in Er. by injection Er as <- _. }
  destruct (respond_Ok _ _ _ _ _ _ _ Er) as (_ & Hr1 & Hr2 & Hr3 & Hk & Htr).
  destruct (finalize_initiator resp a1) as [o a2] eqn:Ef.
  assert (o = Ok ()) as ->.
  { unfold finalize_initiator in Ef. rewrite Hr1, Hr2, Hr3, Hsig, ed_public_valid, ed_verify_sign in Ef. cbn [negb] in Ef.
    unfold initiate in Ei. injection Ei as _ <-. cbn [hs_ephemeral_secret hs_transcript hi_sender_pub hi_ephemeral_pub hi_nonce] in Ef.
    rewrite slice_Ok in Ef; [by injection Ef as <- _|lia|].
    rewrite Hv, !length_app, !ed_public_length, !public_length, Hn. lia. }
  pose proof (f_equal snd Ei) as Ha. cbn [snd] in Ha. pose proof Ef as Ef'. rewrite <- Ha in Ef'.
  apply (finalize_Ok sa mk) in Ef' as (_ & Hk2 & Htr2 & _); [|apply ed_public_length|apply public_length|done].
  assert (Hkey : initiator_key mk ea na resp = responder_key mk eb nb init).
  { unfold initiator_key, responder_key. rewrite Hr2, Hr3, Hi2, Hi3. by rewrite dh_comm. }
  eexists resp, b1, a2, _, (responder_key mk eb nb init). unfold make_confirm, verify_confirm.
  rewrite Hk, Hk2, Hkey, Htr, Htr2, Hi1, Hi2, Hi3. split_and!; try done.
  - by rewrite bool_decide_eq_true_2.
  - unfold responder_key. apply hkdf_length.
Qed.

(** Agreement: two honest nodes of the same mesh, open or private, complete
    the handshake whatever randomness they draw: every message is accepted,
    and both hold the same 32-byte session key and the other's long-term key. *)
Theorem handshake_agreement sa sb mk ea na eb nb :
  length na = 32%nat →
  let '(init, a1) := initiate ea na (handshaker sa mk) in
  ∃ resp b1 a2 c key,
    respond eb nb init (handshaker sb mk) = (Ok resp, b1) ∧ finalize_initiator resp a1 = (Ok (), a2) ∧
    make_confirm a2 = Ok c ∧ verify_confirm c b1 = Ok () ∧
    hs_session_key a2 = Some key ∧ hs_session_key b1 = Some key ∧ length key = 32%nat ∧
    hi_sender_pub init = ed_public sa ∧ hr_sender_pub resp = ed_public sb.
Proof. apply handshake_completes. Qed.

Lemma app_inj_32 (a a' b b' : list Z) : length a = 32%nat → length a' = 32%nat → a ++ b = a' ++ b' → a = a' ∧ b = b'.
Proof. intros Ha Ha' H. apply app_inj_1 in H; [done|lia]. Qed.

(** HMAC and HKDF may well collide somewhere; what a run needs is that they do
    not on the two inputs it compares. *)
Definition no_mac_collision (a b : Handshaker) : Prop :=
  ∀ ka kb, hs_session_key a = Some ka → hs_session_key b = Some kb →
    hmac_sha256 ka (hs_transcript a) = hmac_sha256 kb (hs_transcript b) → ka = kb ∧ hs_transcript a = hs_transcript b.
Definition no_kdf_collision mka mkb ea na eb nb (init : HandshakeInit) (resp : HandshakeResponse) : Prop :=
  initiator_key mka ea na resp = responder_key mkb eb nb init →
  diffie_hellman ea (hr_ephemeral_pub resp) ++ default [] mka = diffie_hellman eb (hi_ephemeral_pub init) ++ default [] mkb.

(** C8: Matching conversations: whatever an attacker did to the messages in
    between, when the responder accepts the initiator's confirmation, the two
    saw the same keys, ephemeral keys and nonces, belong to the same mesh, and
    hold the same session key, unless HMAC or HKDF collided on this very run.
    So nobody in the middle, and no node of another mesh or without the mesh
    key, gets past the confirmation. *)
Theorem matching_conversations sa sb mka mkb ea na eb nb init' resp resp' b1 a2 c :
  let '(init, a1) := initiate ea na (handshaker sa mka) in
  length na = 32%nat → init_wf init' → response_wf resp' → length nb = 32%nat → mesh_key_wf mka → mesh_key_wf mkb →
  respond eb nb init' (handshaker sb mkb) = (Ok resp, b1) → finalize_initiator resp' a1 = (Ok (), a2) →
  make_confirm a2 = Ok c → verify_confirm c b1 = Ok () →
  no_mac_collision a2 b1 → no_kdf_collision mka mkb ea na eb nb init' resp' →
  (hi_sender_pub init' = hi_sender_pub init ∧ hi_ephemeral_pub init' = hi_ephemeral_pub init ∧ hi_nonce init' = hi_nonce init) ∧
  (hr_sender_pub resp' = hr_sender_pub resp ∧ hr_ephemeral_pub resp' = hr_ephemeral_pub resp ∧ hr_nonce resp' = hr_nonce resp) ∧
  mka = mkb ∧ hs_session_key a2 = hs_session_key b1.
Proof.
  destruct (initiate ea na (handshaker sa mka)) as [init a1] eqn:Ei.
  intros Hn (Hi1 & Hi2 & Hi3) (Hr1 & Hr2 & Hr3) Hnb Hmka Hmkb Er Ef Hc Hv Hmacs Hkdf.
  pose proof (f_equal snd Ei) as Ha. cbn [snd] in Ha. rewrite <- Ha in Ef.
  apply finalize_Ok in Ef as (_ & Hk2 & Htr2 & _); [|apply ed_public_length|apply public_length|done].
  apply respond_Ok in Er as (_ & Hp1 & Hp2 & Hp3 & Hk & Htr).
  destruct (handshaker_fields sa mka) as (_ & Hva & _).
  assert (Hinit : hi_sender_pub init = ed_public sa ∧ hi_ephemeral_pub init = x25519_public ea ∧ hi_nonce init = na).
  { unfold initiate in Ei. injection Ei as <- _. cbn. by rewrite Hva. }
  destruct Hinit as (Hj1 & Hj2 & Hj3).
  unfold make_confirm in Hc. rewrite Hk2 in Hc. injection Hc as <-. unfold verify_confirm in Hv. rewrite Hk in Hv.
  cbn [hc_hmac] in Hv. case_bool_decide as Hmac; [|done].
  destruct (Hmacs _ _ Hk2 Hk Hmac) as [Hkey Htrans].
  rewrite Htr, Htr2 in Htrans. pose proof (ed_public_length sa) as L1. pose proof (public_length ea) as L2.
  apply app_inj_32 in Htrans as [E1 Htrans]; [|done..]. apply app_inj_32 in Htrans as [E2 Htrans]; [|done..].
  apply app_inj_32 in Htrans as [E3 Htrans]; [|done..].
  apply app_inj_32 in Htrans as [E4 Htrans]; [|done|rewrite Hp1; apply ed_public_length].
  apply app_inj_32 in Htrans as [E5 E6]; [|done|rewrite Hp2; apply public_length].
  rewrite Hj1, Hj2, Hj3. split_and!; try done; [|by rewrite Hk2, Hk, Hkey].
  pose proof (Hkdf Hkey) as Hikm.
  rewrite E5, Hp2, <- E2, (dh_comm eb ea) in Hikm. apply app_inv_head in Hikm.
  destruct mka as [k1|], mkb as [k2|]; cbn in *; subst; done.
Qed.

(** Order: a handshaker finalizes only after it has initiated, and once; a
    refused message leaves it as it was; and no confirmation is made or
    accepted before a session key is there. *)
Theorem handshake_order h r eph nonce init confirm :
  let '(o, h') := finalize_initiator r h in
  (o = Ok () → is_Some (hs_ephemeral_secret h) ∧ ∀ r', (finalize_initiator r' h').1 ≠ Ok ()) ∧
  (∀ e, o = Err e → h' = h) ∧
  (∀ e, (respond eph nonce init h).1 = Err e → (respond eph nonce init h).2 = h) ∧
  (hs_session_key h = None → make_confirm h = Err InvalidState ∧ verify_confirm confirm h = Err InvalidState).
Proof using Type.
  destruct (finalize_initiator r h) as [o h'] eqn:E. split_and!.
  - intros ->. unfold finalize_initiator in E. destruct (ed_valid_key _); [|done]. destruct (ed_verify _ _ _); [|done].
    cbn [negb] in E. destruct (hs_ephemeral_secret h) as [eph'|] eqn:Eh; [|done]. split; [done|]. intros r'.
    assert (Hnone : hs_ephemeral_secret h' = None) by (destruct (slice _ _ _); by simplify_eq/=).
    unfold finalize_initiator. rewrite Hnone. by repeat case_match.
  - intros e ->. unfold finalize_initiator in E. destruct (ed_valid_key _); [|by simplify_eq/=].
    destruct (ed_verify _ _ _); [|by simplify_eq/=]. cbn [negb] in E. destruct (hs_ephemeral_secret h); [|by simplify_eq/=].
    unfold slice in E. case_bool_decide; by simplify_eq/=.
  - intros e. unfold respond. by repeat case_match.
  - intros Hk. unfold make_confirm, verify_confirm. by rewrite Hk.
Qed.

(** An old response is still good: the signature covers neither the
    initiator's message nor the peer, and the responder sends no confirmation
    of its own, so a recorded response makes a later handshake of the initiator
    succeed without the responder. *)
Theorem recorded_response_accepted sa sb mk mk' eb nb ea na init resp b1 :
  length na = 32%nat → respond eb nb init (handshaker sb mk) = (Ok resp, b1) →
  ∃ a2, finalize_initiator resp (initiate ea na (handshaker sa mk')).2 = (Ok (), a2).
Proof.
  intros Hn Er. destruct (handshaker_fields sb mk) as (Hs & Hv & _).
  assert (Hr : hr_sender_pub resp = ed_public sb ∧ hr_signature resp = ed_sign sb (hr_ephemeral_pub resp ++ hr_nonce resp)).
  { unfold respond in Er. rewrite Hs, Hv in Er. destruct (ed_valid_key _); [|done]. destruct (ed_verify _ _ _); [|done].
    cbn [negb] in Er. by injection Er as <- _. }
  destruct Hr as [Hr1 Hr2]. unfold finalize_initiator. rewrite Hr2, Hr1, ed_public_valid, ed_verify_sign. cbn [negb].
  destruct (handshaker_fields sa mk') as (_ & Hv' & Ht' & _). unfold initiate.
  cbn [snd hs_ephemeral_secret hs_transcript hi_sender_pub hi_ephemeral_pub hi_nonce].
  rewrite slice_Ok; [eauto|lia|]. rewrite Hv', !length_app, !ed_public_length, !public_length, Hn. lia.
Qed.
End Theorems.

(** ** An instance to evaluate on

    Keys and MACs are injective codes of what they are computed from. *)
Definition code {A} `{Countable A} (x : A) : Z := Zpos (countable.encode x).
Definition toy_crypto : HandshakeCrypto := {|
  ed_public := pad32;
  ed_sign seed msg := code (pad32 seed, msg) :: replicate 63 0;
  ed_valid_key _ := true;
  ed_verify key msg sig := bool_decide (sig = code (key, msg) :: replicate 63 0);
  hkdf_salted salt ikm info := code (salt, ikm, info) :: replicate 31 0;
  hmac_sha256 key msg := code (key, msg) :: replicate 31 0;
|}.

#[export] Instance toy_crypto_lawful : LawfulHandshakeCrypto toy_crypto.
Proof.
  split; cbn [toy_crypto ed_public ed_sign ed_valid_key ed_verify hkdf_salted hmac_sha256].
  - done.
  - intros seed msg. by apply bool_decide_eq_true_2.
  - intros seed. unfold pad32. rewrite length_take, length_app, length_replicate. lia.
  - intros. cbn [length]. by rewrite length_replicate.
  - intros. cbn [length]. by rewrite length_replicate.
  - intros. cbn [length]. by rewrite length_replicate.
Qed.

Lemma code_inj {A} `{Countable A} (x y : A) : code x = code y → x = y.
Proof. unfold code. intros [= Heq]. by apply (inj countable.encode). Qed.

#[local] Existing Instance toy_ecdh.
#[local] Existing Instance toy_crypto.

Lemma toy_no_mac_collision a b : no_mac_collision a b.
Proof.
  intros ka kb _ _ Heq. assert (Hc := f_equal (hd 0) Heq). cbn [hd] in Hc. apply code_inj in Hc. by simplify_eq.
Qed.
Lemma toy_no_kdf_collision mka mkb ea na eb nb init resp : no_kdf_collision mka mkb ea na eb nb init resp.
Proof.
  intros Heq. assert (Hc := f_equal (hd 0) Heq). cbn [hd] in Hc. apply code_inj in Hc. by simplify_eq.
Qed.

Lemma handshake_agreement_witness :
  let '(init, a1) := initiate [3] (replicate 32 4) (handshaker [1] (Some (replicate 32 9))) in
  ∃ resp b1 a2, respond [5] (replicate 32 6) init (handshaker [2] (Some (replicate 32 9))) = (Ok resp, b1) ∧
    finalize_initiator resp a1 = (Ok (), a2) ∧ hs_session_key a2 = hs_session_key b1.
Proof.
  destruct (initiate [3] (replicate 32 4) (handshaker [1] (Some (replicate 32 9)))) as [init a1] eqn:E.
  pose proof (handshake_agreement [1] [2] (Some (replicate 32 9)) [3] (replicate 32 4) [5]
    (replicate 32 6) eq_refl) as H.
  rewrite E in H. destruct H as (resp & b1 & a2 & c & key & Hr & Hf & _ & _ & Ha & Hb & _).
  exists resp, b1, a2. split; [exact Hr|]. split; [exact Hf|]. exact (eq_trans Ha (eq_sym Hb)).
Defined.

Definition sample_hs_init : HandshakeInit * Handshaker := initiate [3] (replicate 32 4) (handshaker [1] None).
Definition sample_hs_resp : outcome HandshakeError HandshakeResponse * Handshaker :=
  respond [5] (replicate 32 6) sample_hs_init.1 (handshaker [2] None).

Lemma matching_conversations_witness :
  ∃ resp b1 a2 c, sample_hs_resp = (Ok resp, b1) ∧ finalize_initiator resp sample_hs_init.2 = (Ok (), a2) ∧
    make_confirm a2 = Ok c ∧ verify_confirm c b1 = Ok () ∧ hs_session_key a2 = hs_session_key b1.
Proof.
  pose proof (handshake_completes [1] [2] None [3] (replicate 32 4) [5] (replicate 32 6) eq_refl) as H.
  pose proof (matching_conversations [1] [2] None None [3] (replicate 32 4) [5] (replicate 32 6)) as M.
  destruct (initiate [3] (replicate 32 4) (handshaker [1] None)) as [init a1] eqn:E.
  assert (Hi : sample_hs_init = (init, a1)) by exact E. unfold sample_hs_resp. rewrite Hi. cbn [fst snd].
  destruct H as (resp & b1 & a2 & c & key & Hr & Hf & Hc & Hv & _).
  exists resp, b1, a2, c. split; [exact Hr|]. split; [exact Hf|]. split; [exact Hc|]. split; [exact Hv|].
  pose proof (respond_Ok _ _ _ _ _ _ _ Hr) as (_ & P1 & P2 & P3 & _).
  eapply (M init resp resp b1 a2 c); try exact Hr; try exact Hf; try exact Hc; try exact Hv; try reflexivity; try exact I;
    try apply toy_no_mac_collision; try apply toy_no_kdf_collision.
  - unfold initiate in E. injection E as <- _. split; [|split]; vm_compute; reflexivity.
  - split; [rewrite P1|split; [rewrite P2|rewrite P3]]; vm_compute; reflexivity.
Defined.
