(* ===== verification/Reconnect.v ===== *)
(** * Reconnection (crates/pim-daemon/src/reconnect.rs)

    Which lost peers are dialled again, that at most one task dials a target,
    and how long it waits between attempts.  The jitter, drawn at random by
    the code, is an argument. *)

From S2P Require Import Prelude Core Session.

(** A socket address: its IP address and port. *)
Inductive ConnectTarget := Tcp (addr : Z * Z) | BluetoothPan (addr : Z * Z).
#[export] Instance ConnectTarget_eq_dec : EqDecision ConnectTarget.
Proof. solve_decision. Defined.
#[export] Instance ConnectTarget_countable : Countable ConnectTarget.
Proof.
  apply (inj_countable' (λ t, match t with Tcp a => inl a | BluetoothPan a => inr a end)
    (λ s, match s with inl a => Tcp a | inr a => BluetoothPan a end)). by intros [].
Defined.

Definition target_addr (t : ConnectTarget) : Z * Z := match t with Tcp addr | BluetoothPan addr => addr end.
Definition mechanism_name (t : ConnectTarget) : string := match t with Tcp _ => "tcp" | BluetoothPan _ => "bluetooth_pan" end%string.

Record ReconnectManager := {
  configured_targets : gset ConnectTarget;
  discovered_targets : gmap ConnectTarget Z;
  target_by_peer : gmap NodeId ConnectTarget;
  reconnecting : gset ConnectTarget;
}.

Definition ReconnectManager_new (targets : gset ConnectTarget) : ReconnectManager :=
  {| configured_targets := targets; discovered_targets := ∅; target_by_peer := ∅; reconnecting := ∅ |}.

Definition register (peer_id : NodeId) (target : ConnectTarget) (m : ReconnectManager) : ReconnectManager :=
  {| configured_targets := configured_targets m; discovered_targets := discovered_targets m;
     target_by_peer := <[peer_id := target]> (target_by_peer m); reconnecting := reconnecting m |}.

Definition register_discovered (now : Z) (target : ConnectTarget) (m : ReconnectManager) : ReconnectManager :=
  {| configured_targets := configured_targets m; discovered_targets := <[target := now]> (discovered_targets m);
     target_by_peer := target_by_peer m; reconnecting := reconnecting m |}.

Definition expire_discovered_targets (now lifetime : Z) (m : ReconnectManager) : nat * ReconnectManager :=
  let kept := filter (λ p, elapsed now p.2 ≤ lifetime) (discovered_targets m) in
  ((size (discovered_targets m) - size kept)%nat,
   {| configured_targets := configured_targets m; discovered_targets := kept; target_by_peer := target_by_peer m;
      reconnecting := reconnecting m |}).

Definition is_reconnectable_target (peer_id : NodeId) (m : ReconnectManager) : option ConnectTarget :=
  match target_by_peer m !! peer_id with
  | None => None
  | Some target =>
    let is_configured := bool_decide (target ∈ configured_targets m) in
    let is_discovered := bool_decide (is_Some (discovered_targets m !! target)) in
    if is_configured || is_discovered then Some target else None
  end.

(** The target of a peer, whether it is configured and whether it was
    discovered. *)
Definition peer_info (peer_id : NodeId) (m : ReconnectManager) : option (ConnectTarget * bool * bool) :=
  target ← target_by_peer m !! peer_id;
  Some (target, bool_decide (target ∈ configured_targets m), bool_decide (is_Some (discovered_targets m !! target))).

(** [iter] is the order of the map, in which [find] looks. *)
Definition peer_id_for_target (iter : gmap NodeId ConnectTarget → list (NodeId * ConnectTarget)) (target : ConnectTarget) (m : ReconnectManager)
  : option NodeId :=
  fst <$> List.find (λ p, bool_decide (p.2 = target)) (iter (target_by_peer m)).

(** [HashSet::insert] says whether the element was new. *)
Definition begin_reconnect (target : ConnectTarget) (m : ReconnectManager) : bool * ReconnectManager :=
  (negb (bool_decide (target ∈ reconnecting m)),
   {| configured_targets := configured_targets m; discovered_targets := discovered_targets m;
      target_by_peer := target_by_peer m; reconnecting := {[target]} ∪ reconnecting m |}).

Definition end_reconnect (target : ConnectTarget) (m : ReconnectManager) : ReconnectManager :=
  {| configured_targets := configured_targets m; discovered_targets := discovered_targets m;
     target_by_peer := target_by_peer m; reconnecting := reconnecting m ∖ {[target]} |}.

(** ** Backoff *)
Definition backoff_base_ms (attempt : Z) : Z :=
  let shift := Z.min attempt 15 in
  Z.min (Z.min (1000 * as_u64 (Z.shiftl 1 shift)) u64_MAX) 10000.

(** [jitter] is what [gen_range(-jitter_range..=jitter_range)] returned. *)
Definition jitter_range (attempt : Z) : Z := backoff_base_ms attempt / 4.
Definition backoff_duration (jitter attempt : Z) : Z := Z.max (backoff_base_ms attempt + jitter) 1.

(** ** The theorems *)

(** [tasks] are the targets that are being dialled: a task starts when
    [begin_reconnect] says so and ends with [end_reconnect]. *)
Inductive reconnect_run : ReconnectManager → gset ConnectTarget → Prop :=
| RunStart targets : reconnect_run (ReconnectManager_new targets) ∅
| RunBegin t m tasks : reconnect_run m tasks →
    reconnect_run (begin_reconnect t m).2 (if (begin_reconnect t m).1 then {[t]} ∪ tasks else tasks)
| RunEnd t m tasks : reconnect_run m tasks → t ∈ tasks → reconnect_run (end_reconnect t m) (tasks ∖ {[t]})
| RunRegister p t m tasks : reconnect_run m tasks → reconnect_run (register p t m) tasks
| RunDiscovered now t m tasks : reconnect_run m tasks → reconnect_run (register_discovered now t m) tasks
| RunExpireTargets now l m tasks : reconnect_run m tasks → reconnect_run (expire_discovered_targets now l m).2 tasks.

(** Reconnection: whatever happens, the slots taken are exactly the targets
    with a running task, so a second task is never started for a target that
    has one, and a target whose task ended can be dialled again. *)
Theorem one_task_per_target m tasks t :
  reconnect_run m tasks →
  reconnecting m = tasks ∧ ((begin_reconnect t m).1 = true ↔ t ∉ tasks).
Proof.
  intros Hrun. assert (Heq : reconnecting m = tasks).
  { induction Hrun as [| | | | |]; cbn in *; [done| |by f_equal|done..]. subst. case_bool_decide; cbn; set_solver. }
  split; [done|]. cbn. subst. case_bool_decide; naive_solver.
Qed.

Lemma one_task_per_target_witness :
  let t := Tcp (1, 9100) in (begin_reconnect t (begin_reconnect t (ReconnectManager_new {[t]})).2).1 = false.
Proof.
  intros t. pose proof (RunBegin t _ _ (RunStart {[t]})) as Hrun.
  destruct (one_task_per_target _ _ t Hrun) as [_ Hb].
  destruct (begin_reconnect t (begin_reconnect t _).2).1 eqn:E; [|reflexivity].
  destruct (proj1 Hb eq_refl). set_solver.
Defined.

(** Backoff: with any jitter of the range, the wait is at least 750 ms, at
    most 12.5 s, never shrinks by more than the jitter from one attempt to the
    next, and no multiplication or shift overflows. *)
Theorem backoff_bounds attempt jitter :
  u32_ok attempt → - jitter_range attempt ≤ jitter ≤ jitter_range attempt →
  750 ≤ backoff_duration jitter attempt ≤ 12500 ∧
  1000 ≤ backoff_base_ms attempt ≤ backoff_base_ms (attempt + 1) ∧ 1000 * 2 ^ Z.min attempt 15 ≤ u64_MAX.
Proof.
  intros [Ha Ha2] Hj. unfold backoff_duration, jitter_range, backoff_base_ms in *.
  assert (Hs : ∀ a, 0 ≤ a → as_u64 (Z.shiftl 1 (Z.min a 15)) = 2 ^ Z.min a 15 ∧ 1 ≤ 2 ^ Z.min a 15 ≤ 2 ^ 15).
  { intros a H. assert (1 ≤ 2 ^ Z.min a 15 ≤ 2 ^ 15).
    { split; [|apply Z.pow_le_mono_r; lia]. pose proof (Z.pow_pos_nonneg 2 (Z.min a 15)). lia. }
    split; [|done]. rewrite Z.shiftl_1_l. unfold as_u64. apply Z.mod_small. lia. }
  destruct (Hs attempt Ha) as [E1 H1]. destruct (Hs (attempt + 1)) as [E2 H2]; [lia|]. rewrite E1 in *. rewrite E2.
  assert (Hm : 2 ^ Z.min attempt 15 ≤ 2 ^ Z.min (attempt + 1) 15) by (apply Z.pow_le_mono_r; lia).
  unfold u64_MAX in *. change (2 ^ 15) with 32768 in *. change (2 ^ 64 - 1) with 18446744073709551615 in *.
  revert H1 H2 Hm Hj. generalize (2 ^ Z.min attempt 15), (2 ^ Z.min (attempt + 1) 15). intros x y H1 H2 Hm Hj.
  pose proof (Z.div_mod (Z.min (Z.min (1000 * x) 18446744073709551615) 10000) 4).
  pose proof (Z.mod_pos_bound (Z.min (Z.min (1000 * x) 18446744073709551615) 10000) 4). lia.
Qed.

Lemma backoff_bounds_witness : 750 ≤ backoff_duration (-250) 0 ≤ 12500.
Proof. apply (backoff_bounds 0 (-250)); [by vm_compute|by vm_compute]. Defined.
