(* ===== verification/Daemon.v ===== *)
(** * The daemon: peers coming and going

    The handshake tasks (crates/pim-daemon/src/handshake.rs), the branches of
    the event loop that handle a frame from a peer
    (crates/pim-daemon/src/app/event_loop.rs) and the removal of peers
    (crates/pim-daemon/src/peer_tasks.rs), over the state they share.

    What the transport answers to a send is an argument ([answer]), and so is
    the order in which hash maps are iterated.  Each handler reads the clock
    once and runs to its end before the next, though the code takes its locks
    one after the other.  What leaves the daemon is returned as a list of
    actions.  The rate limiter (a floating-point token bucket) and the peer
    directory are not part of the state. *)

From S2P Require Import Prelude Core MeshAddress Frames Control Stream Fragment Routing Session DataPlane SendBuffer Trust E2e.
From S2P Require Import Handshake Reconnect.

(** ** Dialling (ip_control.rs, reconnect.rs) *)
Record PendingOutbound := { po_transport_key : NodeId; po_target : ConnectTarget }.

Record DialState := {
  hs_channels : gset NodeId;
  pending_outbound : gmap Z PendingOutbound;
  cancelled_outbounds : gset NodeId;
  dial_reconnect : ReconnectManager;
}.

Definition target_ip (t : ConnectTarget) : Z := match t with Tcp a | BluetoothPan a => a.1 end.

Definition set_channels (m : gset NodeId) (d : DialState) : DialState :=
  {| hs_channels := m; pending_outbound := pending_outbound d; cancelled_outbounds := cancelled_outbounds d;
     dial_reconnect := dial_reconnect d |}.
Definition set_pending_outbound (m : gmap Z PendingOutbound) (d : DialState) : DialState :=
  {| hs_channels := hs_channels d; pending_outbound := m; cancelled_outbounds := cancelled_outbounds d;
     dial_reconnect := dial_reconnect d |}.
Definition set_dial_reconnect (m : ReconnectManager) (d : DialState) : DialState :=
  {| hs_channels := hs_channels d; pending_outbound := pending_outbound d; cancelled_outbounds := cancelled_outbounds d;
     dial_reconnect := m |}.

Definition register_pending_outbound (target : ConnectTarget) (transport_key : NodeId) (d : DialState) : DialState :=
  set_pending_outbound (<[target_ip target := {| po_transport_key := transport_key; po_target := target |}]>
    (pending_outbound d)) d.

Definition clear_pending_outbound (target : ConnectTarget) (transport_key : NodeId) (d : DialState) : DialState :=
  match pending_outbound d !! target_ip target with
  | Some entry => if bool_decide (po_transport_key entry = transport_key)
                  then set_pending_outbound (delete (target_ip target) (pending_outbound d)) d else d
  | None => d
  end.

(** The connection that is disconnected, if there was one. *)
Definition cancel_pending_outbound_for_ip (remote_ip : Z) (d : DialState) : option PendingOutbound * DialState :=
  match pending_outbound d !! remote_ip with
  | None => (None, d)
  | Some entry =>
    (Some entry,
     {| hs_channels := hs_channels d ∖ {[po_transport_key entry]};
        pending_outbound := delete remote_ip (pending_outbound d);
        cancelled_outbounds := {[po_transport_key entry]} ∪ cancelled_outbounds d;
        dial_reconnect := end_reconnect (po_target entry) (dial_reconnect d) |})
  end.

Definition take_cancelled_outbound (transport_key : NodeId) (d : DialState) : bool * DialState :=
  (bool_decide (transport_key ∈ cancelled_outbounds d),
   {| hs_channels := hs_channels d; pending_outbound := pending_outbound d;
      cancelled_outbounds := cancelled_outbounds d ∖ {[transport_key]}; dial_reconnect := dial_reconnect d |}).

(** [>] on byte arrays of one length. *)
Fixpoint bytes_gt (a b : list Z) : bool :=
  match a, b with
  | x :: a, y :: b => if x =? y then bytes_gt a b else y <? x
  | _, _ => false
  end.

(** ** The state *)
Record NodeConfig := {
  cfg_seed : list Z;
  cfg_own_x25519_pub : list Z;
  cfg_node_name : list Z;
  cfg_mesh_handshake_key : option (list Z);
}.

(** The fields of the daemon's state that the handlers below use.  Sessions,
    routes, reassemblers and counters are in the data plane's part; the
    gateway keys are local to the event loop. *)
Record DaemonState := MkDaemon {
  dm_config : NodeConfig;
  dm_data : DataState;
  dm_authorization : AuthorizationManager;
  peer_pubkeys : gmap NodeId (list Z);
  dm_reputation : scores;
  peer_last_hb : gmap NodeId Z;
  dm_send_buffer : SendBuffer;
  congestion_drops : Z;
  pending_pings : gmap Z (NodeId * Z);
  gw_x25519_by_id : gmap NodeId (list Z);
  dm_dial : DialState;
}.

Notation dm_sessions st := (ds_sessions (dm_data st)).
Notation dm_routing st := (ds_routing (dm_data st)).

Definition set_data d st := MkDaemon (dm_config st) d (dm_authorization st) (peer_pubkeys st) (dm_reputation st)
  (peer_last_hb st) (dm_send_buffer st) (congestion_drops st) (pending_pings st) (gw_x25519_by_id st) (dm_dial st).
Definition set_authorization a st := MkDaemon (dm_config st) (dm_data st) a (peer_pubkeys st) (dm_reputation st)
  (peer_last_hb st) (dm_send_buffer st) (congestion_drops st) (pending_pings st) (gw_x25519_by_id st) (dm_dial st).
Definition set_pubkeys m st := MkDaemon (dm_config st) (dm_data st) (dm_authorization st) m (dm_reputation st)
  (peer_last_hb st) (dm_send_buffer st) (congestion_drops st) (pending_pings st) (gw_x25519_by_id st) (dm_dial st).
Definition set_reputation m st := MkDaemon (dm_config st) (dm_data st) (dm_authorization st) (peer_pubkeys st) m
  (peer_last_hb st) (dm_send_buffer st) (congestion_drops st) (pending_pings st) (gw_x25519_by_id st) (dm_dial st).
Definition set_last_hb m st := MkDaemon (dm_config st) (dm_data st) (dm_authorization st) (peer_pubkeys st) (dm_reputation st)
  m (dm_send_buffer st) (congestion_drops st) (pending_pings st) (gw_x25519_by_id st) (dm_dial st).
Definition set_send_buffer b drops st := MkDaemon (dm_config st) (dm_data st) (dm_authorization st) (peer_pubkeys st)
  (dm_reputation st) (peer_last_hb st) b drops (pending_pings st) (gw_x25519_by_id st) (dm_dial st).
Definition set_pending_pings m st := MkDaemon (dm_config st) (dm_data st) (dm_authorization st) (peer_pubkeys st)
  (dm_reputation st) (peer_last_hb st) (dm_send_buffer st) (congestion_drops st) m (gw_x25519_by_id st) (dm_dial st).
Definition set_gw_x25519 m st := MkDaemon (dm_config st) (dm_data st) (dm_authorization st) (peer_pubkeys st)
  (dm_reputation st) (peer_last_hb st) (dm_send_buffer st) (congestion_drops st) (pending_pings st) m (dm_dial st).
Definition set_dial m st := MkDaemon (dm_config st) (dm_data st) (dm_authorization st) (peer_pubkeys st)
  (dm_reputation st) (peer_last_hb st) (dm_send_buffer st) (congestion_drops st) (pending_pings st) (gw_x25519_by_id st) m.

Definition set_routing (t : RoutingTable) (d : DataState) : DataState :=
  {| ds_self_id := ds_self_id d; ds_frag_id := ds_frag_id d; ds_reassemblers := ds_reassemblers d;
     ds_sessions := ds_sessions d; ds_routing := t; ds_packets_forwarded := ds_packets_forwarded d;
     ds_bytes_forwarded := ds_bytes_forwarded d; ds_packets_dropped := ds_packets_dropped d |}.
Definition on_routing (f : RoutingTable → RoutingTable) (st : DaemonState) : DaemonState :=
  set_data (set_routing (f (dm_routing st)) (dm_data st)) st.
Definition on_sessions (f : gmap NodeId Session → gmap NodeId Session) (st : DaemonState) : DaemonState :=
  set_data (set_sessions (f (dm_sessions st)) (dm_data st)) st.

(** What leaves the daemon. *)
Inductive Action :=
| Send (peer : NodeId) (frame : TransportFrame)
| Disconnect (peer : NodeId)
| RenamePeer (old new : NodeId)
| SpawnReconnect (target : ConnectTarget)
| ToHandshakeTask (peer : NodeId) (wire : HandshakeWireFrame)
| SpawnResponder (peer : NodeId) (wire : HandshakeWireFrame)
| NotePeerInfo (src : NodeId) (x25519_pub friendly_name : list Z)
| PluginDispatch (src : NodeId) (kind body : list Z)
| DataOutcome (e : DataEvent).

Inductive DaemonError :=
| UnexpectedHandshake
| RejectedByPolicy (peer : NodeId)
| TrustStoreError
| HandshakeFailed (e : HandshakeError)
| MissingSessionKey
| NotSent
| WrongFrameType.

(** An unencrypted frame of the control plane. *)
Definition plain_frame (t : FrameType) (payload : list Z) : TransportFrame :=
  {| tf_frame_type := t; tf_nonce := replicate 12 0; tf_payload := payload; tf_tag := replicate 16 0 |}.

Section Daemon.
Context (digest : NodeId → list Z) (sha256 : list Z → list Z).
Context {A : Aead} {D : Ecdh} {K : HandshakeCrypto}.
Context (answer : NodeId → TransportFrame → SendResult).
Context (iter_routes : gmap NodeId RouteTableEntry → list (NodeId * RouteTableEntry)).
Context (iter_peers : gset NodeId → list NodeId).

(** ** Sending *)
Definition send_buffered (now : Z) (peer : NodeId) (frame : TransportFrame) (st : DaemonState) : list Action * DaemonState :=
  let '(b, drops) := send_frame_buffered now now peer frame (answer peer frame) (dm_send_buffer st, congestion_drops st) in
  ([Send peer frame], set_send_buffer b drops st).

Fixpoint send_all (now : Z) (frames : list (NodeId * TransportFrame)) (st : DaemonState) : list Action * DaemonState :=
  match frames with
  | [] => ([], st)
  | (peer, frame) :: frames =>
    let '(acts, st) := send_buffered now peer frame st in
    let '(acts', st) := send_all now frames st in
    (acts ++ acts', st)
  end.

Definition send_control (now : Z) (peer : NodeId) (cf : ControlFrame) (st : DaemonState) : list Action * DaemonState :=
  send_buffered now peer (plain_frame FrameControl (ControlFrame_encode cf [])) st.

Definition send_peer_info (now : Z) (peer : NodeId) (st : DaemonState) : list Action * DaemonState :=
  send_control now peer (PeerInfo (cfg_own_x25519_pub (dm_config st)) (cfg_node_name (dm_config st))) st.

(** The drained frames are sent once; a failure is ignored. *)
Definition flush_send_buffer (now : Z) (peer : NodeId) (st : DaemonState) : list Action * DaemonState :=
  let '(buffered, b) := SendBuffer_drain now peer (dm_send_buffer st) in
  (map (Send peer) buffered, set_send_buffer b (congestion_drops st) st).

Definition handshake_frame (wire : HandshakeWireFrame) : TransportFrame :=
  plain_frame FrameHandshake (HandshakeWireFrame_encode wire []).

Definition decode_handshake_wire (frame : TransportFrame) : outcome (DaemonError + PimError) HandshakeWireFrame :=
  if negb (bool_decide (tf_frame_type frame = FrameHandshake)) then Err (inl WrongFrameType) else
  match HandshakeWireFrame_decode (tf_payload frame) with
  | Ok (wire, _) => Ok wire
  | Err e => Err (inr e)
  | Panic => Panic
  end.

(** ** The handshake tasks *)

(** The end of both tasks. *)
Definition establish_session (now : Z) (peer_id : NodeId) (session : Session) (sender_pub : list Z) (st : DaemonState)
  : list Action * DaemonState :=
  let st := on_sessions (insert peer_id session) st in
  let st := set_pubkeys (<[peer_id := sender_pub]> (peer_pubkeys st)) st in
  let st := on_routing (add_peer digest now peer_id) st in
  let st := on_routing (unblacklist_peer peer_id) st in
  let st := set_reputation (pardon peer_id (dm_reputation st)) st in
  let st := set_last_hb (<[peer_id := now]> (peer_last_hb st)) st in
  let '(acts, st) := flush_send_buffer now peer_id st in
  let '(acts', st) := send_peer_info now peer_id st in
  (acts ++ acts', st).

(** [authorize_authenticated_peer(..).await?] and the match on its answer. *)
Definition authorize (persisted : bool) (peer_id : NodeId) (st : DaemonState) : outcome DaemonError unit * DaemonState :=
  let '(decision, m) := authorize_authenticated_peer persisted peer_id (dm_authorization st) in
  let st := set_authorization m st in
  match decision with
  | Ok Allowed | Ok TrustedOnFirstUse => (Ok tt, st)
  | Ok Rejected => (Err (RejectedByPolicy peer_id), st)
  | Err _ => (Err TrustStoreError, st)
  | Panic => (Panic, st)
  end.

(** [handshake_initiator] up to the wait for the response. *)
Definition initiator_start (ephemeral nonce : list Z) (st : DaemonState) : HandshakeWireFrame * Handshaker :=
  let '(init, hs) := initiate ephemeral nonce (handshaker (cfg_seed (dm_config st)) (cfg_mesh_handshake_key (dm_config st))) in
  (InitOrResponse HsInit (hi_sender_pub init) (hi_ephemeral_pub init) (hi_nonce init) (hi_signature init), hs).

(** The rest of it, on the frame that arrived before the timeout; [sent] is
    whether the confirmation could be handed to the transport. *)
Definition initiator_finish (now : Z) (persisted sent : bool) (transport_key : NodeId) (hs : Handshaker)
    (wire : HandshakeWireFrame) (st : DaemonState) : outcome DaemonError (NodeId * list Action) * DaemonState :=
  match wire with
  | InitOrResponse HsResponse sender_pub ephemeral_pub nonce signature =>
    let response := {| hr_sender_pub := sender_pub; hr_ephemeral_pub := ephemeral_pub; hr_nonce := nonce;
                       hr_signature := signature |} in
    let peer_id := from_public_key sha256 sender_pub in
    match authorize persisted peer_id st with
    | (Ok _, st) =>
      match finalize_initiator response hs with
      | (Ok _, hs) =>
        match make_confirm hs with
        | Ok confirm =>
          if negb sent then (Err NotSent, st) else
          match hs_session_key hs with
          | None => (Err MissingSessionKey, st)
          | Some key =>
            let '(acts, st) := establish_session now peer_id (initiator_session key peer_id) sender_pub st in
            let rename := if bool_decide (transport_key = peer_id) then [] else [RenamePeer transport_key peer_id] in
            (Ok (peer_id, Send transport_key (handshake_frame (Confirm (hc_hmac confirm))) :: rename ++ acts), st)
          end
        | Err e => (Err (HandshakeFailed e), st)
        | Panic => (Panic, st)
        end
      | (Err e, _) => (Err (HandshakeFailed e), st)
      | (Panic, _) => (Panic, st)
      end
    | (Err e, st) => (Err e, st)
    | (Panic, st) => (Panic, st)
    end
  | _ => (Err UnexpectedHandshake, st)
  end.

(** [handshake_responder] up to the wait for the confirmation. *)
Definition responder_start (persisted sent : bool) (ephemeral nonce : list Z) (wire : HandshakeWireFrame) (st : DaemonState)
  : outcome DaemonError (HandshakeWireFrame * Handshaker * list Z) * DaemonState :=
  match wire with
  | InitOrResponse HsInit sender_pub ephemeral_pub init_nonce signature =>
    let init := {| hi_sender_pub := sender_pub; hi_ephemeral_pub := ephemeral_pub; hi_nonce := init_nonce;
                   hi_signature := signature |} in
    let hs := handshaker (cfg_seed (dm_config st)) (cfg_mesh_handshake_key (dm_config st)) in
    let presented_peer_id := from_public_key sha256 sender_pub in
    match authorize persisted presented_peer_id st with
    | (Ok _, st) =>
      match respond ephemeral nonce init hs with
      | (Ok r, hs) =>
        if negb sent then (Err NotSent, st) else
        (Ok (InitOrResponse HsResponse (hr_sender_pub r) (hr_ephemeral_pub r) (hr_nonce r) (hr_signature r), hs, sender_pub), st)
      | (Err e, _) => (Err (HandshakeFailed e), st)
      | (Panic, _) => (Panic, st)
      end
    | (Err e, st) => (Err e, st)
    | (Panic, st) => (Panic, st)
    end
  | _ => (Err UnexpectedHandshake, st)
  end.

Definition responder_finish (now : Z) (peer_id : NodeId) (hs : Handshaker) (sender_pub : list Z) (wire : HandshakeWireFrame)
    (st : DaemonState) : outcome DaemonError (list Action) * DaemonState :=
  match wire with
  | Confirm hmac =>
    match verify_confirm {| hc_hmac := hmac |} hs with
    | Ok _ =>
      match hs_session_key hs with
      | None => (Err MissingSessionKey, st)
      | Some key =>
        let '(acts, st) := establish_session now peer_id (responder_session key peer_id) sender_pub st in (Ok acts, st)
      end
    | Err e => (Err (HandshakeFailed e), st)
    | Panic => (Panic, st)
    end
  | _ => (Err UnexpectedHandshake, st)
  end.

(** ** Removing a peer *)
Definition signed_advert (st : DaemonState) (u : RouteUpdateFrame) : TransportFrame :=
  plain_frame FrameRouteUpdate (RouteUpdateFrame_encode (sign_route_update ed_sign u (cfg_seed (dm_config st))) []).

Definition daemon_remove_peer (now : Z) (peer_id : NodeId) (st : DaemonState) : list Action * DaemonState :=
  let st := on_sessions (delete peer_id) st in
  let st := set_pubkeys (delete peer_id (peer_pubkeys st)) st in
  let st := on_routing (λ t, (remove_peer peer_id t).2) st in
  let st := set_last_hb (delete peer_id (peer_last_hb st)) st in
  let '(adverts, t) := generate_all_advertisements (iter_routes (routes (dm_routing st)))
                         (iter_peers (direct_peers (dm_routing st))) (dm_routing st) in
  let st := on_routing (λ _, t) st in
  let '(acts, st) := send_all now (map (λ p, (p.1, signed_advert st p.2)) adverts) st in
  let '(spawned, st) :=
    match is_reconnectable_target peer_id (dial_reconnect (dm_dial st)) with
    | Some target =>
      let '(fresh, m) := begin_reconnect target (dial_reconnect (dm_dial st)) in
      (if fresh then [SpawnReconnect target] else [], set_dial (set_dial_reconnect m (dm_dial st)) st)
    | None => ([], st)
    end in
  (Disconnect peer_id :: acts ++ spawned, st).

(** One peer of a tick of [run_peer_liveness]. *)
Definition LIVENESS_TIMEOUT : Z := 15000.
Definition liveness_remove (now : Z) (peer_id : NodeId) (st : DaemonState) : list Action * DaemonState :=
  let '(acts, st) := daemon_remove_peer now peer_id st in
  let '(newly_blacklisted, rep) := record_failure peer_id (dm_reputation st) in
  let st := set_reputation rep st in
  (acts, if newly_blacklisted then on_routing (λ t, (blacklist_peer peer_id t).2) st else st).

Fixpoint liveness_remove_all (now : Z) (peers : list NodeId) (st : DaemonState) : list Action * DaemonState :=
  match peers with
  | [] => ([], st)
  | peer :: peers =>
    let '(acts, st) := liveness_remove now peer st in
    let '(acts', st) := liveness_remove_all now peers st in
    (acts ++ acts', st)
  end.

(** A tick: [last.elapsed() > TIMEOUT].  [iter_hb] iterates the map. *)
Definition peer_liveness (now : Z) (iter_hb : list (NodeId * Z)) (st : DaemonState) : list Action * DaemonState :=
  let timed_out := map fst (List.filter (λ p, LIVENESS_TIMEOUT <? elapsed now p.2) iter_hb) in
  liveness_remove_all now timed_out st.

(** ** Frames of the control plane *)
Definition handle_route_update (now : Z) (from_peer : NodeId) (frame : TransportFrame) (st : DaemonState)
  : outcome PimError DaemonState :=
  match RouteUpdateFrame_decode (tf_payload frame) with
  | Ok (update, _) =>
    let allowed :=
      match peer_pubkeys st !! from_peer with
      | Some pk => if ed_valid_key pk then verify_route_update ed_verify update pk else false
      | None => false
      end in
    Ok (if allowed then on_routing (λ t, (apply_update digest now update from_peer t).2) st else st)
  | Err _ => Ok st
  | Panic => Panic
  end.

Definition handle_heartbeat (now : Z) (from_peer : NodeId) (frame : TransportFrame) (st : DaemonState)
  : outcome PimError DaemonState :=
  match HeartbeatFrame_decode (tf_payload frame) with
  | Ok (hb, _) =>
    let st := set_last_hb (<[from_peer := now]> (peer_last_hb st)) st in
    if hb_gateway_hops hb =? 0 then
      let st := if negb (bool_decide (hb_gw_x25519_pub hb = replicate 32 0))
                then set_gw_x25519 (<[from_peer := hb_gw_x25519_pub hb]> (gw_x25519_by_id st)) st else st in
      Ok (on_routing (update_gateway_load from_peer (hb_load hb)) st)
    else Ok st
  | Err _ => Ok st
  | Panic => Panic
  end.

Definition handle_control (now : Z) (from_peer : NodeId) (frame : TransportFrame) (st : DaemonState)
  : outcome PimError (list Action * DaemonState) :=
  match ControlFrame_decode (tf_payload frame) with
  | Ok (cf, _) =>
    match cf with
    | Goodbye departing_id _ => Ok (daemon_remove_peer now departing_id st)
    | Ping nonce => Ok (send_control now from_peer (Pong nonce) st)
    | Pong nonce =>
      match pending_pings st !! nonce with
      | Some (gw_id, sent_at) =>
        let st := set_pending_pings (delete nonce (pending_pings st)) st in
        let rtt_ms := as_u32 (elapsed now sent_at) in
        let st := on_routing (update_gateway_rtt gw_id rtt_ms) st in
        Ok ([], set_reputation (record_success gw_id (dm_reputation st)) st)
      | None => Ok ([], st)
      end
    | Rekey => Ok ([], st)
    | PeerInfo x25519_pub friendly_name => Ok ([NotePeerInfo from_peer x25519_pub friendly_name], st)
    | PluginPayload kind body => Ok ([PluginDispatch from_peer kind body], st)
    end
  | Err _ => Ok ([], st)
  | Panic => Panic
  end.

(** [remote_ip] is what the transport knows of the connection.  When both
    sides have dialled each other, the node identifiers decide which
    connection survives. *)
Definition handle_handshake (remote_ip : option Z) (from_peer : NodeId) (frame : TransportFrame) (st : DaemonState)
  : outcome PimError (list Action * DaemonState) :=
  match decode_handshake_wire frame with
  | Panic => Panic
  | Err _ => Ok ([], st)
  | Ok wire =>
    let d := dm_dial st in
    if bool_decide (from_peer ∈ hs_channels d) then Ok ([ToHandshakeTask from_peer wire], st) else
    let spawn acts st :=
      Ok (acts ++ [SpawnResponder from_peer wire],
          set_dial (set_channels ({[from_peer]} ∪ hs_channels (dm_dial st)) (dm_dial st)) st) in
    match wire with
    | InitOrResponse HsInit sender_pub _ _ _ =>
      let presented_peer_id := from_public_key sha256 sender_pub in
      match remote_ip with
      | Some ip =>
        match pending_outbound d !! ip with
        | Some pending =>
          if bool_decide (po_transport_key pending = from_peer) then spawn [] st else
          if bytes_gt (as_bytes (ds_self_id (dm_data st))) (as_bytes presented_peer_id)
          then spawn [Disconnect (po_transport_key pending)] (set_dial (cancel_pending_outbound_for_ip ip d).2 st)
          else Ok ([Disconnect from_peer], st)
        | None => spawn [] st
        end
      | None => spawn [] st
      end
    | _ => Ok ([], st)
    end
  end.

(** A data frame: what the data plane sends on is sent here. *)
Definition handle_data_frame (now : Z) (from_peer : NodeId) (frame : TransportFrame) (st : DaemonState)
  : outcome PimError (list Action * DaemonState) :=
  let? (e, d) := handle_data now from_peer frame (dm_data st) in
  let st := set_data d st in
  match e with
  | Relay next_hop frames =>
    let '(acts, st) := send_all now (map (λ f, (next_hop, f)) frames) st in Ok (DataOutcome e :: acts, st)
  | RoutedControl src (Ok (PeerInfo x25519_pub friendly_name, _)) =>
    Ok ([DataOutcome e; NotePeerInfo src x25519_pub friendly_name], st)
  | RoutedControl src (Ok (PluginPayload kind body, _)) => Ok ([DataOutcome e; PluginDispatch src kind body], st)
  | _ => Ok ([DataOutcome e], st)
  end.

(** [match frame.frame_type] behind the rate limiter, whose answer is
    [allowed]. *)
Definition handle_frame (now : Z) (allowed : bool) (remote_ip : option Z) (from_peer : NodeId) (frame : TransportFrame) (st : DaemonState)
  : outcome PimError (list Action * DaemonState) :=
  if negb allowed then Ok ([], set_data (count_dropped (dm_data st)) st) else
  match tf_frame_type frame with
  | FrameHandshake => handle_handshake remote_ip from_peer frame st
  | FrameData => handle_data_frame now from_peer frame st
  | FrameRouteUpdate => let? st := handle_route_update now from_peer frame st in Ok ([], st)
  | FrameHeartbeat => let? st := handle_heartbeat now from_peer frame st in Ok ([], st)
  | FrameControl => handle_control now from_peer frame st
  | FrameFragment => Ok ([], st)
  end.

(** ** Control frames for nodes further away *)
Definition send_routed_control_via (now : Z) (next_hop dst_id : NodeId) (cf : ControlFrame) (st : DaemonState)
  : bool * list Action * DaemonState :=
  match dm_sessions st !! next_hop with
  | None => (false, [], st)
  | Some session =>
    let '(frames, session) := send_single_mesh session (ds_self_id (dm_data st)) dst_id 8 IS_CONTROL
                                (ControlFrame_encode cf []) in
    let st := on_sessions (insert next_hop session) st in
    let '(acts, st) := send_all now (map (λ f, (next_hop, f)) frames) st in (true, acts, st)
  end.

Definition send_routed_control (now : Z) (dst_id : NodeId) (cf : ControlFrame) (st : DaemonState)
  : bool * list Action * DaemonState :=
  match lookup_route dst_id (dm_routing st) with
  | None => (false, [], st)
  | Some next_hop => send_routed_control_via now next_hop dst_id cf st
  end.

(** ** Gateway probes: a tick of [run_gateway_probes]; [nonces] are the random
    nonces of the pings. *)
Definition PENDING_PING_TTL : Z := 30000.
Fixpoint probe_all (now : Z) (gateways : list NodeId) (nonces : list Z) (st : DaemonState) : list Action * DaemonState :=
  match gateways, nonces with
  | gw_id :: gateways, nonce :: nonces =>
    let st := set_pending_pings (<[nonce := (gw_id, now)]> (pending_pings st)) st in
    let '(acts, st) := send_control now gw_id (Ping nonce) st in
    let '(acts', st) := probe_all now gateways nonces st in
    (acts ++ acts', st)
  | _, _ => ([], st)
  end.
Definition gateway_probes (now : Z) (nonces : list Z) (st : DaemonState) : list Action * DaemonState :=
  let direct_gateways :=
    List.filter (λ id, bool_decide (id ∈ direct_peers (dm_routing st)))
      (map fst (all_gateways (iter_routes (routes (dm_routing st))) (dm_routing st))) in
  let st := set_pending_pings (filter (λ p, elapsed now p.2.2 < PENDING_PING_TTL) (pending_pings st)) st in
  probe_all now direct_gateways nonces st.
End Daemon.
