(* ===== verification/Dialling.v ===== *)
(** * Finding and dialling peers

    The discovery service (crates/pim-discovery/src/service.rs), the tasks that
    take what it and the radio transports find
    (crates/pim-daemon/src/discovery_tasks.rs), and the two tasks that dial a
    target: the first attempt, and the one that tries again
    (crates/pim-daemon/src/reconnect_task.rs).

    A dialling task is a state machine: it waits, connects or shakes hands,
    and an event is what it waited for.  Between two events it runs at once,
    though it takes several locks one after the other there; what the event
    loop does to the attempts under way, [cancel_pending_outbound_for_ip], is
    one step for each lock it takes.  Random draws come with the event. *)

From S2P Require Import Prelude Core Frames Control Stream Fragment Routing Session DataPlane SendBuffer Trust E2e.
From S2P Require Import Text Toml Config Discovery Handshake Reconnect Daemon.

(** ** The discovery service *)
Definition DEFAULT_DISCOVERY_PORT : Z := 9101.
Definition DEFAULT_BROADCAST_INTERVAL : Z := 5000.
Definition DEFAULT_PEER_TIMEOUT : Z := 30000.

Record DiscoveryService := MkDiscovery {
  ds_own_ad : DiscoveryAdvertisement;
  ds_discovery_port : Z;
  ds_broadcast_interval : Z;
  ds_peer_timeout : Z;
  ds_discovery_key : option (list Z);
  ds_peer_table : PeerTable;
}.

Definition DiscoveryService_new (self_id : NodeId) (public_key : list Z) (capabilities listen_port : Z) : DiscoveryService :=
  MkDiscovery {| ad_node_id := self_id; ad_public_key := public_key; ad_capabilities := capabilities; ad_listen_port := listen_port |}
    DEFAULT_DISCOVERY_PORT DEFAULT_BROADCAST_INTERVAL DEFAULT_PEER_TIMEOUT None ∅.
Definition with_port (port : Z) (s : DiscoveryService) : DiscoveryService :=
  MkDiscovery (ds_own_ad s) port (ds_broadcast_interval s) (ds_peer_timeout s) (ds_discovery_key s) (ds_peer_table s).
Definition with_broadcast_interval (interval : Z) (s : DiscoveryService) : DiscoveryService :=
  MkDiscovery (ds_own_ad s) (ds_discovery_port s) interval (ds_peer_timeout s) (ds_discovery_key s) (ds_peer_table s).
Definition with_peer_timeout (timeout : Z) (s : DiscoveryService) : DiscoveryService :=
  MkDiscovery (ds_own_ad s) (ds_discovery_port s) (ds_broadcast_interval s) timeout (ds_discovery_key s) (ds_peer_table s).
Definition with_discovery_key (key : list Z) (s : DiscoveryService) : DiscoveryService :=
  MkDiscovery (ds_own_ad s) (ds_discovery_port s) (ds_broadcast_interval s) (ds_peer_timeout s) (Some key) (ds_peer_table s).
Definition set_table (t : PeerTable) (s : DiscoveryService) : DiscoveryService :=
  MkDiscovery (ds_own_ad s) (ds_discovery_port s) (ds_broadcast_interval s) (ds_peer_timeout s) (ds_discovery_key s) t.

Section Service.
Context {A : Aead}.

(** What goes to 255.255.255.255, and the port. *)
Definition broadcast_presence (nonce : list Z) (s : DiscoveryService) : outcome unit (list Z * Z) :=
  let? payload := match ds_discovery_key s with
                  | Some key => serialize_encrypted nonce (ds_own_ad s) key
                  | None => Ok (ad_serialize (ds_own_ad s))
                  end in
  Ok (payload, ds_discovery_port s).

(** The record of a peer that was not known before is also sent to the
    daemon; [from] is the address the packet came from. *)
Definition handle_advertisement (now : Z) (data : list Z) (from : Z * Z) (s : DiscoveryService)
  : outcome unit (option PeerRecord * DiscoveryService) :=
  match match ds_discovery_key s with Some key => deserialize_encrypted data key | None => ad_deserialize data end with
  | Panic => Panic
  | Err _ => Ok (None, s)
  | Ok ad =>
    if bool_decide (ad_node_id ad = ad_node_id (ds_own_ad s)) then Ok (None, s) else
    let record := {| pr_node_id := ad_node_id ad; pr_public_key := ad_public_key ad; pr_capabilities := ad_capabilities ad;
                     pr_listen_addr := (from.1, ad_listen_port ad); pr_last_seen := now |} in
    let '(is_new, t) := upsert record (ds_peer_table s) in
    Ok (if is_new then Some record else None, set_table t s)
  end.

(** What the loop of [run] wakes up for; the packet is what fits the buffer. *)
Inductive DiscoveryEvent :=
| BroadcastTick (nonce : list Z)
| Received (data : list Z) (from : Z * Z)
| GcTick.
Definition RECV_BUF : nat := Nat.max ENCRYPTED_PACKET_SIZE (PACKET_SIZE + 16).

(** The packets sent, the peers the daemon hears of, and the service. *)
Definition discovery_step (now : Z) (e : DiscoveryEvent) (s : DiscoveryService)
  : outcome unit (list (list Z * Z) * list PeerRecord * DiscoveryService) :=
  match e with
  | BroadcastTick nonce => let? p := broadcast_presence nonce s in Ok ([p], [], s)
  | Received data from =>
    let? (r, s) := handle_advertisement now (take RECV_BUF data) from s in
    Ok ([], match r with Some record => [record] | None => [] end, s)
  | GcTick => Ok ([], [], set_table (peer_expire_stale (ds_peer_timeout s) now (ds_peer_table s)).2 s)
  end.
End Service.

(** ** Which discovered peers are dialled *)

Definition wants_peer (cfg : DiscoveryConfig) (caps : Z) : bool :=
  if negb (is_relay caps) && negb (caps_is_gateway caps) then false else
  if caps_is_gateway caps && negb (dcf_connect_gateways cfg) then false else
  negb (is_relay caps && negb (caps_is_gateway caps) && negb (dcf_connect_relays cfg)).

(** The target that is registered and dialled, if any. *)
Definition consume_discovered (now : Z) (cfg : DiscoveryConfig) (record : PeerRecord) (st : DaemonState) : option ConnectTarget * DaemonState :=
  if bool_decide (pr_node_id record = ds_self_id (dm_data st)) then (None, st) else
  if negb (authorize_discovered_peer (pr_node_id record) (dm_authorization st)) then (None, st) else
  if bool_decide (is_Some (dm_sessions st !! pr_node_id record)) then (None, st) else
  if negb (wants_peer cfg (pr_capabilities record)) then (None, st) else
  let target := Tcp (pr_listen_addr record) in
  (Some target, set_dial (set_dial_reconnect (register_discovered now target (dial_reconnect (dm_dial st))) (dm_dial st)) st).

(** Wi-Fi Direct and Bluetooth give an address only. *)
Definition consume_wifidirect (now : Z) (addr : Z * Z) (st : DaemonState) : ConnectTarget * DaemonState :=
  (Tcp addr, set_dial (set_dial_reconnect (register_discovered now (Tcp addr) (dial_reconnect (dm_dial st))) (dm_dial st)) st).
Definition consume_bluetooth (now : Z) (addr : Z * Z) (st : DaemonState) : ConnectTarget * DaemonState :=
  (BluetoothPan addr,
   set_dial (set_dial_reconnect (register_discovered now (BluetoothPan addr) (dial_reconnect (dm_dial st))) (dm_dial st)) st).

(** ** Dialling *)
Inductive DialPhase := Waiting | Connecting (transport_key : NodeId) | Handshaking (transport_key : NodeId).

(** [dt_attempt] is the counter of [run_reconnect_task]; the first attempt
    ([initiate_peer_connection]) has none. *)
Record DialTask := MkTask { dt_target : ConnectTarget; dt_attempt : option Z; dt_phase : DialPhase }.

Inductive DialEvent :=
| Woke (transport_key : NodeId)
| Stopped
| Connected
| ConnectFailed
| HandshakeOk (peer_id : NodeId)
| HandshakeErr.

Definition on_reconnect (f : ReconnectManager → ReconnectManager) (d : DialState) : DialState := set_dial_reconnect (f (dial_reconnect d)) d.
Definition open_channel (key : NodeId) (d : DialState) : DialState := set_channels ({[key]} ∪ hs_channels d) d.
Definition close_channel (key : NodeId) (d : DialState) : DialState := set_channels (hs_channels d ∖ {[key]}) d.

(** The head of the loop of [run_reconnect_task]. *)
Definition reconnect_head (max_attempts attempt : Z) (target : ConnectTarget) (d : DialState) : option DialTask * DialState :=
  if max_attempts <=? attempt then (None, on_reconnect (end_reconnect target) d)
  else (Some (MkTask target (Some attempt) Waiting), d).

(** [initiate_peer_connection] begins. *)
Definition initiate (transport_key : NodeId) (target : ConnectTarget) (d : DialState) : DialTask * DialState :=
  (MkTask target None (Connecting transport_key), register_pending_outbound target transport_key d).

(** Claiming the slot; the task is spawned when it was free. *)
Definition spawn_reconnect (max_attempts : Z) (target : ConnectTarget) (d : DialState) : option DialTask * DialState :=
  let '(fresh, m) := begin_reconnect target (dial_reconnect d) in
  let d := set_dial_reconnect m d in
  if (fresh : bool) then reconnect_head max_attempts 0 target d else (None, d).

Section Dial.
Context (max_attempts : Z).
Context (iter_targets : gmap NodeId ConnectTarget → list (NodeId * ConnectTarget)).

(** What a task does when the event it waits for comes: the task that goes on
    (its own, or the one it hands over to), the connections it closes, and the
    state.  [None] is an event it does not wait for. *)
Definition initiate_step (target : ConnectTarget) (phase : DialPhase) (e : DialEvent) (d : DialState)
  : option (option DialTask * list Action * DialState) :=
  match phase, e with
  | Connecting key, ConnectFailed =>
    let d := clear_pending_outbound target key d in
    let '(t, d) := spawn_reconnect max_attempts target d in Some (t, [], d)
  | Connecting key, Connected => Some (Some (MkTask target None (Handshaking key)), [], open_channel key d)
  | Handshaking key, HandshakeOk peer_id =>
    let d := clear_pending_outbound target key d in
    let d := on_reconnect (register peer_id target) d in
    Some (None, [], close_channel key d)
  | Handshaking key, HandshakeErr =>
    let d := clear_pending_outbound target key d in
    let '(cancelled, d) := take_cancelled_outbound key d in
    if (cancelled : bool) then Some (None, [], close_channel key d) else
    let '(t, d) := spawn_reconnect max_attempts target d in
    Some (t, [Disconnect key], close_channel key d)
  | _, _ => None
  end.

(** [connected] are the peers with a session. *)
Definition reconnect_step (connected : gset NodeId) (target : ConnectTarget) (attempt : Z) (phase : DialPhase) (e : DialEvent) (d : DialState)
  : option (option DialTask * list Action * DialState) :=
  let stop d := Some (None, [], on_reconnect (end_reconnect target) d) in
  let retry acts d := let '(t, d) := reconnect_head max_attempts (attempt + 1) target d in Some (t, acts, d) in
  match phase, e with
  | Waiting, Stopped => stop d
  | Waiting, Woke key =>
    match peer_id_for_target iter_targets target (dial_reconnect d) with
    | Some peer_id =>
      if bool_decide (peer_id ∈ connected) then stop d
      else Some (Some (MkTask target (Some attempt) (Connecting key)), [], register_pending_outbound target key d)
    | None => Some (Some (MkTask target (Some attempt) (Connecting key)), [], register_pending_outbound target key d)
    end
  | Connecting key, ConnectFailed => retry [] (clear_pending_outbound target key d)
  | Connecting key, Connected => Some (Some (MkTask target (Some attempt) (Handshaking key)), [], open_channel key d)
  | Handshaking key, HandshakeOk peer_id =>
    let d := clear_pending_outbound target key d in
    let d := on_reconnect (register peer_id target) d in
    stop (close_channel key d)
  | Handshaking key, HandshakeErr =>
    let d := clear_pending_outbound target key d in
    let '(cancelled, d) := take_cancelled_outbound key d in
    if (cancelled : bool) then stop d else retry [Disconnect key] (close_channel key d)
  | _, _ => None
  end.

Definition dial_step (connected : gset NodeId) (t : DialTask) (e : DialEvent) (d : DialState) : option (option DialTask * list Action * DialState) :=
  match dt_attempt t with
  | None => initiate_step (dt_target t) (dt_phase t) e d
  | Some attempt => reconnect_step connected (dt_target t) attempt (dt_phase t) e d
  end.
End Dial.

(** ** All dialling of a daemon *)

(** What is left of a cancellation once the pending attempt was taken, a lock
    for each. *)
Inductive CancelAct := MarkCancelled | RemoveChannel | EndReconnect.
Definition cancel_act (a : CancelAct) (entry : PendingOutbound) (d : DialState) : DialState :=
  match a with
  | MarkCancelled => {| hs_channels := hs_channels d; pending_outbound := pending_outbound d;
                        cancelled_outbounds := {[po_transport_key entry]} ∪ cancelled_outbounds d; dial_reconnect := dial_reconnect d |}
  | RemoveChannel => set_channels (hs_channels d ∖ {[po_transport_key entry]}) d
  | EndReconnect => set_dial_reconnect (end_reconnect (po_target entry) (dial_reconnect d)) d
  end.
Definition cancel_acts : list CancelAct := [MarkCancelled; RemoveChannel; EndReconnect].

(** Run at once they are the whole function. *)
Lemma cancel_acts_whole ip entry d : pending_outbound d !! ip = Some entry →
  foldl (λ d a, cancel_act a entry d) (set_pending_outbound (delete ip (pending_outbound d)) d) cancel_acts
    = (cancel_pending_outbound_for_ip ip d).2.
Proof. intros He. unfold cancel_pending_outbound_for_ip. by rewrite He. Qed.

(** The tasks that run, the transport keys drawn so far, and the cancellations
    under way. *)
Record DialWorld := MkWorld {
  dw_dial : DialState; dw_tasks : gmap nat DialTask; dw_used : gset NodeId; dw_cancels : list (PendingOutbound * list CancelAct);
}.

Definition task_key (t : DialTask) : option NodeId := match dt_phase t with Waiting => None | Connecting k | Handshaking k => Some k end.
Definition put_task (id : nat) (t : option DialTask) (ts : gmap nat DialTask) : gmap nat DialTask :=
  match t with Some t => <[id := t]> ts | None => delete id ts end.
Definition drawn (e : DialEvent) : gset NodeId := match e with Woke key => {[key]} | _ => ∅ end.

Section World.
Context (max_attempts : Z).
Context (iter_targets : gmap NodeId ConnectTarget → list (NodeId * ConnectTarget)).

(** Keys are drawn afresh.  [WCancel] is the other side's handshake winning
    (the event loop), which then goes on with [WCancelled], [WLost] the loss of
    a peer ([remove_peer]); targets are learned and forgotten at any time. *)
Inductive world_step : DialWorld → DialWorld → Prop :=
| WInitiate id key target d ts used cs :
    ts !! id = None → key ∉ used →
    world_step (MkWorld d ts used cs)
      (MkWorld (initiate key target d).2 (<[id := (initiate key target d).1]> ts) ({[key]} ∪ used) cs)
| WEvent id t connected e t' acts d d' ts used cs :
    ts !! id = Some t → drawn e ## used → dial_step max_attempts iter_targets connected t e d = Some (t', acts, d') →
    world_step (MkWorld d ts used cs) (MkWorld d' (put_task id t' ts) (drawn e ∪ used) cs)
| WCancel ip entry d ts used cs :
    pending_outbound d !! ip = Some entry →
    world_step (MkWorld d ts used cs)
      (MkWorld (set_pending_outbound (delete ip (pending_outbound d)) d) ts used ((entry, cancel_acts) :: cs))
| WCancelled entry a acts d ts used cs1 cs2 :
    world_step (MkWorld d ts used (cs1 ++ (entry, a :: acts) :: cs2)) (MkWorld (cancel_act a entry d) ts used (cs1 ++ (entry, acts) :: cs2))
| WLost id target d ts used cs :
    ts !! id = None →
    world_step (MkWorld d ts used cs)
      (MkWorld (spawn_reconnect max_attempts target d).2 (put_task id (spawn_reconnect max_attempts target d).1 ts) used cs)
| WDiscovered now target d ts used cs :
    world_step (MkWorld d ts used cs) (MkWorld (on_reconnect (register_discovered now target) d) ts used cs)
| WExpire now lifetime d ts used cs :
    world_step (MkWorld d ts used cs) (MkWorld (on_reconnect (λ m, (expire_discovered_targets now lifetime m).2) d) ts used cs).

Definition world_new (targets : gset ConnectTarget) : DialWorld :=
  MkWorld {| hs_channels := ∅; pending_outbound := ∅; cancelled_outbounds := ∅; dial_reconnect := ReconnectManager_new targets |} ∅ ∅ [].
Definition world_reachable (w : DialWorld) : Prop := ∃ targets, rtc world_step (world_new targets) w.

(** An attempt that is recorded as pending belongs to a task that is connecting
    or shaking hands with that key, and every slot taken for reconnecting to a
    running task for that target. *)
Record dial_ok (w : DialWorld) : Prop := {
  dk_pending : ∀ ip e, pending_outbound (dw_dial w) !! ip = Some e →
    target_ip (po_target e) = ip ∧
    ∃ id t, dw_tasks w !! id = Some t ∧ task_key t = Some (po_transport_key e) ∧ dt_target t = po_target e;
  dk_slots : ∀ target, target ∈ reconnecting (dial_reconnect (dw_dial w)) →
    ∃ id t, dw_tasks w !! id = Some t ∧ dt_target t = target ∧ is_Some (dt_attempt t);
  dk_keys : ∀ id id' t t' key, dw_tasks w !! id = Some t → dw_tasks w !! id' = Some t' →
    task_key t = Some key → task_key t' = Some key → id = id';
  dk_used : ∀ id t key, dw_tasks w !! id = Some t → task_key t = Some key → key ∈ dw_used w;
  dk_attempts : ∀ id t n, dw_tasks w !! id = Some t → dt_attempt t = Some n → 0 ≤ n < max_attempts;
}.
End World.

(** ** Lemmas: what one step does *)
Lemma clear_pending_lookup target key d ip e :
  pending_outbound (clear_pending_outbound target key d) !! ip = Some e →
  pending_outbound d !! ip = Some e ∧ (po_transport_key e = key → ip ≠ target_ip target).
Proof.
  unfold clear_pending_outbound. destruct (pending_outbound d !! target_ip target) as [e0|] eqn:E; [case_bool_decide as Hk|]; cbn.
  - intros [Hne He]%lookup_delete_Some. split; [done|]. intros _ ->. done.
  - intros He. split; [done|]. intros <- ->. congruence.
  - intros He. split; [done|]. intros _ ->. congruence.
Qed.

Lemma clear_pending_reconnect target key d : dial_reconnect (clear_pending_outbound target key d) = dial_reconnect d.
Proof. unfold clear_pending_outbound. repeat case_match; done. Qed.

Lemma reconnect_head_spec max n target d t d' :
  reconnect_head max n target d = (t, d') →
  pending_outbound d' = pending_outbound d ∧
  (t = Some (MkTask target (Some n) Waiting) ∧ n < max ∧ reconnecting (dial_reconnect d') = reconnecting (dial_reconnect d) ∨
   t = None ∧ reconnecting (dial_reconnect d') = reconnecting (dial_reconnect d) ∖ {[target]}).
Proof.
  unfold reconnect_head. destruct (Z.leb_spec max n); intros [= <- <-]; split; [done|by right|done|by left].
Qed.

Lemma spawn_reconnect_spec max target d t d' :
  spawn_reconnect max target d = (t, d') →
  pending_outbound d' = pending_outbound d ∧
  ((∃ n, t = Some (MkTask target (Some n) Waiting) ∧ 0 ≤ n < max) ∧
     reconnecting (dial_reconnect d') = {[target]} ∪ reconnecting (dial_reconnect d) ∨
   t = None ∧ reconnecting (dial_reconnect d') ⊆ reconnecting (dial_reconnect d)).
Proof.
  unfold spawn_reconnect, begin_reconnect. destruct (negb _) eqn:Hf.
  - intros (Hp & [(-> & Hlt & Hr)|(-> & Hr)])%reconnect_head_spec; (split; [done|]).
    + left. split; [exists 0; split; [done|lia]|]. by rewrite Hr.
    + right. split; [done|]. rewrite Hr. cbn. set_solver.
  - intros [= <- <-]. split; [done|]. right. split; [done|]. cbn. apply negb_false_iff, bool_decide_eq_true in Hf. set_solver.
Qed.

(** What a step of a task means for the rest. *)
Record step_spec (max : Z) (t : DialTask) (e : DialEvent) (d : DialState) (t' : option DialTask) (d' : DialState) : Prop := {
  ss_pending : ∀ ip x, pending_outbound d' !! ip = Some x →
    pending_outbound d !! ip = Some x ∧
      (task_key t = Some (po_transport_key x) → ip = target_ip (dt_target t) →
         ∃ t1, t' = Some t1 ∧ task_key t1 = task_key t ∧ dt_target t1 = dt_target t) ∨
    (∃ t1, t' = Some t1 ∧ task_key t1 = Some (po_transport_key x) ∧ dt_target t1 = po_target x ∧ target_ip (po_target x) = ip);
  ss_slots : ∀ g, g ∈ reconnecting (dial_reconnect d') →
    (∃ t1, t' = Some t1 ∧ dt_target t1 = g ∧ is_Some (dt_attempt t1)) ∨
    (g ∈ reconnecting (dial_reconnect d) ∧ ¬ (dt_target t = g ∧ is_Some (dt_attempt t)));
  ss_task : ∀ t1, t' = Some t1 → dt_target t1 = dt_target t ∧
    (∀ k, task_key t1 = Some k → task_key t = Some k ∨ k ∈ drawn e) ∧
    ((∀ n, dt_attempt t = Some n → 0 ≤ n < max) → ∀ n, dt_attempt t1 = Some n → 0 ≤ n < max);
}.

Lemma spec_retry max t e d key d0 d' t' n :
  dt_attempt t = Some n → task_key t = Some key →
  (∀ ip x, pending_outbound d0 !! ip = Some x → pending_outbound d !! ip = Some x ∧ (po_transport_key x = key → ip ≠ target_ip (dt_target t))) →
  reconnecting (dial_reconnect d0) = reconnecting (dial_reconnect d) →
  reconnect_head max (n + 1) (dt_target t) d0 = (t', d') → step_spec max t e d t' d'.
Proof.
  intros Ha Hk Hp Hr E. apply reconnect_head_spec in E as [Hp1 Hc]. split.
  - intros ip x Hx. rewrite Hp1 in Hx. apply Hp in Hx as [Hx Hne]. left. split; [done|]. intros Hkx Hip. rewrite Hk in Hkx.
    injection Hkx as ->. by destruct Hne.
  - intros g Hg. destruct Hc as [(-> & _ & Hr1)|(-> & Hr1)]; rewrite Hr1, Hr in Hg.
    + destruct (decide (dt_target t = g)) as [<-|Hne]; [left|right]; [by eexists|]. split; [done|]. by intros [? _].
    + right. split; [set_solver|]. set_solver.
  - intros t2 ->. destruct Hc as [([= ->] & Hlt & _)|(? & _)]; [|done]. split; [done|]. split; [done|].
    intros Hn m [= <-]. specialize (Hn _ Ha). lia.
Qed.

Lemma spec_spawn max t e d key d0 t' d' :
  dt_attempt t = None → task_key t = Some key →
  (∀ ip x, pending_outbound d0 !! ip = Some x → pending_outbound d !! ip = Some x ∧ (po_transport_key x = key → ip ≠ target_ip (dt_target t))) →
  reconnecting (dial_reconnect d0) = reconnecting (dial_reconnect d) →
  spawn_reconnect max (dt_target t) d0 = (t', d') → step_spec max t e d t' d'.
Proof.
  intros Ha Hk Hp Hr E. apply spawn_reconnect_spec in E as [Hp1 Hc]. split.
  - intros ip x Hx. rewrite Hp1 in Hx. apply Hp in Hx as [Hx Hne]. left. split; [done|]. intros Hkx Hip. rewrite Hk in Hkx.
    injection Hkx as ->. by destruct Hne.
  - intros g Hg. destruct Hc as [((n & -> & _) & Hr1)|(-> & Hr1)]; [rewrite Hr1, Hr in Hg|].
    + apply elem_of_union in Hg as [->%elem_of_singleton|Hg]; [left; by eexists|right]. split; [done|]. rewrite Ha. by intros [_ [? ?]].
    + right. apply Hr1 in Hg. rewrite Hr in Hg. split; [done|]. rewrite Ha. by intros [_ [? ?]].
  - intros t2 ->. destruct Hc as [((n & [= ->] & Hn) & _)|(? & _)]; [|done]. split; [done|]. split; [done|]. by intros _ m [= <-].
Qed.

(** A task that ends, having released what it held. *)
Lemma spec_end max t e d d' :
  (∀ key, task_key t = Some key → ∀ ip x, pending_outbound d' !! ip = Some x →
     pending_outbound d !! ip = Some x ∧ (po_transport_key x = key → ip ≠ target_ip (dt_target t))) →
  (task_key t = None → pending_outbound d' = pending_outbound d) →
  (∀ g, g ∈ reconnecting (dial_reconnect d') → g ∈ reconnecting (dial_reconnect d) ∧ ¬ (dt_target t = g ∧ is_Some (dt_attempt t))) →
  step_spec max t e d None d'.
Proof.
  intros Hp Hw Hr. split; [|by right; apply Hr|done]. intros ip x Hx. left. destruct (task_key t) as [key|]; [|by rewrite Hw in Hx].
  destruct (Hp key eq_refl _ _ Hx) as [? Hne]. split; [done|]. intros [= ->] ->. by destruct Hne.
Qed.

(** A task that goes on with the same connection. *)
Lemma spec_same max t t1 e d d' :
  task_key t1 = task_key t → dt_target t1 = dt_target t → dt_attempt t1 = dt_attempt t →
  pending_outbound d' = pending_outbound d → dial_reconnect d' = dial_reconnect d → step_spec max t e d (Some t1) d'.
Proof.
  intros Hk Ht Ha Hp Hr. split.
  - intros ip x Hx. rewrite Hp in Hx. left. split; [done|]. intros _ _. by exists t1.
  - intros g Hg. rewrite Hr in Hg. destruct (decide (dt_target t = g ∧ is_Some (dt_attempt t))) as [[H1 H2]|]; [left|by right].
    exists t1. rewrite Ht, Ha. done.
  - intros t2 [= <-]. split; [done|]. rewrite Hk, Ha. split; [by left|done].
Qed.

(** A task that starts a connection with a new key. *)
Lemma spec_connect max t key e d n :
  task_key t = None → dt_attempt t = Some n → drawn e = {[key]} →
  step_spec max t e d (Some (MkTask (dt_target t) (Some n) (Connecting key))) (register_pending_outbound (dt_target t) key d).
Proof.
  intros Hk Ha He. split.
  - cbn. intros ip x [[<- <-]|[Hne Hx]]%lookup_insert_Some; [right; by eexists|left]. split; [done|]. intros Hk'. by rewrite Hk in Hk'.
  - intros g Hg. destruct (decide (dt_target t = g)) as [<-|Hne]; [left; by eexists|right]. split; [done|]. by intros [? _].
  - intros t1 [= <-]. split; [done|]. split; [|intros Hn m [= <-]; by apply Hn]. cbn. intros k [= <-]. right. rewrite He. by apply elem_of_singleton.
Qed.

Section Invariant.
Context (max_attempts : Z).
Context (iter_targets : gmap NodeId ConnectTarget → list (NodeId * ConnectTarget)).

Lemma dial_step_spec connected t e d t' acts d' :
  dial_step max_attempts iter_targets connected t e d = Some (t', acts, d') → step_spec max_attempts t e d t' d'.
Proof.
  unfold dial_step. destruct t as [target [n|] phase]; cbn [dt_attempt dt_target dt_phase].
  - unfold reconnect_step. destruct phase as [|key|key], e as [k| | | |peer|]; try done.
    + assert (Hgo : step_spec max_attempts (MkTask target (Some n) Waiting) (Woke k) d (Some (MkTask target (Some n) (Connecting k)))
        (register_pending_outbound target k d)) by by apply (spec_connect max_attempts (MkTask target (Some n) Waiting)).
      destruct (peer_id_for_target _ _ _) as [peer|]; [case_bool_decide|]; intros [= <- _ <-]; [|exact Hgo|exact Hgo].
      apply spec_end; [done|done|]. cbn. set_solver.
    + intros [= <- _ <-]. apply spec_end; [done|done|]. cbn. set_solver.
    + intros [= <- _ <-]. by apply spec_same.
    + destruct (reconnect_head _ _ _ _) as [t1 d1] eqn:E. intros [= <- _ <-].
      eapply (spec_retry max_attempts (MkTask target (Some n) (Connecting key))); [done|done| | |exact E].
      * intros ip x. apply clear_pending_lookup.
      * by rewrite clear_pending_reconnect.
    + intros [= <- _ <-]. apply spec_end; [|done|].
      * intros k [= <-] ip x. apply clear_pending_lookup.
      * cbn. rewrite clear_pending_reconnect. set_solver.
    + cbn [take_cancelled_outbound]. destruct (bool_decide _).
      * intros [= <- _ <-]. apply spec_end; [|done|]. { intros k [= <-] ip x. apply clear_pending_lookup. }
        cbn. rewrite clear_pending_reconnect. set_solver.
      * destruct (reconnect_head _ _ _ _) as [t1 d1] eqn:E. intros [= <- _ <-].
        eapply (spec_retry max_attempts (MkTask target (Some n) (Handshaking key))); [done|done| | |exact E].
        -- intros ip x. apply clear_pending_lookup.
        -- cbn. by rewrite clear_pending_reconnect.
  - unfold initiate_step. destruct phase as [|key|key], e as [k| | | |peer|]; try done.
    + intros [= <- _ <-]. by apply spec_same.
    + destruct (spawn_reconnect _ _ _) as [t1 d1] eqn:E. intros [= <- _ <-].
      eapply (spec_spawn max_attempts (MkTask target None (Connecting key))); [done|done| | |exact E].
      * intros ip x. apply clear_pending_lookup.
      * by rewrite clear_pending_reconnect.
    + intros [= <- _ <-]. apply spec_end; [|done|].
      * intros k [= <-] ip x. apply clear_pending_lookup.
      * cbn. rewrite clear_pending_reconnect. intros g Hg. split; [done|]. by intros [_ [? ?]].
    + cbn [take_cancelled_outbound]. destruct (bool_decide _).
      * intros [= <- _ <-]. apply spec_end; [|done|]. { intros k [= <-] ip x. apply clear_pending_lookup. }
        cbn. rewrite clear_pending_reconnect. intros g Hg. split; [done|]. by intros [_ [? ?]].
      * destruct (spawn_reconnect _ _ _) as [t1 d1] eqn:E. intros [= <- _ <-].
        assert (Hs : step_spec max_attempts (MkTask target None (Handshaking key)) HandshakeErr d t1 d1).
        { eapply (spec_spawn max_attempts (MkTask target None (Handshaking key))); [done|done| | |exact E].
          - intros ip x. apply clear_pending_lookup.
          - cbn. by rewrite clear_pending_reconnect. }
        by destruct Hs.
Qed.

Lemma put_task_lookup id t ts id' t1 :
  put_task id t ts !! id' = Some t1 ↔ id' = id ∧ t = Some t1 ∨ id' ≠ id ∧ ts !! id' = Some t1.
Proof.
  unfold put_task. destruct t as [t|].
  - rewrite lookup_insert_Some. naive_solver.
  - rewrite lookup_delete_Some. naive_solver.
Qed.

Lemma dial_step_ok id t connected e t' acts d d' ts used cs :
  dial_ok max_attempts (MkWorld d ts used cs) → ts !! id = Some t → drawn e ## used →
  dial_step max_attempts iter_targets connected t e d = Some (t', acts, d') →
  dial_ok max_attempts (MkWorld d' (put_task id t' ts) (drawn e ∪ used) cs).
Proof.
  intros [Hp Hs Hk Hu Ha] Ht Hd [Sp Ss St]%dial_step_spec. cbn in *.
  assert (Hkey : ∀ t1 id' t2 k, t' = Some t1 → task_key t1 = Some k → ts !! id' = Some t2 → task_key t2 = Some k → id' = id).
  { intros t1 id' t2 k H1 H2 H3 H4. destruct (St t1 H1) as (_ & Hk1 & _). destruct (Hk1 k H2) as [Hk2|Hk2]; [by eapply Hk|].
    apply (Hu _ _ _ H3) in H4. set_solver. }
  split; cbn.
  - intros ip x Hx. apply Sp in Hx as [[Hx Hown]|(t1 & -> & H1 & H2 & H3)].
    + destruct (Hp _ _ Hx) as (Hip & id' & t2 & H1 & H2 & H3). split; [done|]. destruct (decide (id' = id)) as [->|Hne].
      * assert (t2 = t) as -> by congruence. destruct Hown as (t1 & -> & H4 & H5); [done|by rewrite H3|].
        exists id, t1. rewrite put_task_lookup. split; [by left|]. by rewrite H4, H5.
      * exists id', t2. rewrite put_task_lookup. split; [by right|done].
    + split; [done|]. exists id, t1. rewrite put_task_lookup. split; [by left|done].
  - intros g Hg. apply Ss in Hg as [(t1 & -> & H1 & H2)|[Hg Hne]].
    + exists id, t1. rewrite put_task_lookup. split; [by left|done].
    + destruct (Hs _ Hg) as (id' & t2 & H1 & H2 & H3). destruct (decide (id' = id)) as [->|Hni].
      * assert (t2 = t) as -> by congruence. by destruct Hne.
      * exists id', t2. rewrite put_task_lookup. split; [by right|done].
  - intros i i' t1 t2 k [[-> H1]|[Hi H1]]%put_task_lookup [[-> H2]|[Hi' H2]]%put_task_lookup H3 H4; [done| | |by eapply Hk].
    + symmetry. by eapply Hkey.
    + by eapply Hkey.
  - intros i t1 k [[-> H1]|[Hi H1]]%put_task_lookup H2; apply elem_of_union; [|right; by eapply Hu].
    destruct (St t1 H1) as (_ & Hk1 & _). destruct (Hk1 k H2) as [Hk2|Hk2]; [right; by eapply Hu|by left].
  - intros i t1 n [[-> H1]|[Hi H1]]%put_task_lookup H2; [|by eapply Ha]. destruct (St t1 H1) as (_ & _ & Hn). apply Hn; [|done].
    intros m Hm. by eapply Ha.
Qed.

Lemma world_step_ok w w' : dial_ok max_attempts w → world_step max_attempts iter_targets w w' → dial_ok max_attempts w'.
Proof.
  intros Hok Hst. destruct Hst as [id key target d ts used cs Hid Hkey|id t connected e t' acts d d' ts used cs Ht Hd Hs|ip entry d ts used cs E|
    entry a acts d ts used cs1 cs2|id target d ts used cs Hid|now target d ts used cs|now lifetime d ts used cs].
  - destruct Hok as [Hp Hs Hk Hu Ha]. cbn in *. split; cbn.
    + intros ip x [[<- <-]|[Hne Hx]]%lookup_insert_Some.
      * split; [done|]. eexists id, _. rewrite lookup_insert_eq. done.
      * destruct (Hp _ _ Hx) as (Hip & i & t & H1 & H2 & H3). split; [done|]. exists i, t. rewrite lookup_insert_ne by congruence. done.
    + intros g Hg. destruct (Hs _ Hg) as (i & t & H1 & H2 & H3). exists i, t. rewrite lookup_insert_ne by congruence. done.
    + intros i i' t t' k [[<- <-]|[Hi H1]]%lookup_insert_Some [[<- <-]|[Hi' H2]]%lookup_insert_Some H3 H4; [done| | |by eapply Hk].
      * cbn in H3. injection H3 as <-. destruct Hkey. by eapply Hu.
      * cbn in H4. injection H4 as <-. destruct Hkey. by eapply Hu.
    + intros i t k [[<- <-]|[Hi H1]]%lookup_insert_Some H2; apply elem_of_union; [left; cbn in H2; injection H2 as <-; by apply elem_of_singleton|].
      right. by eapply Hu.
    + intros i t n [[<- <-]|[Hi H1]]%lookup_insert_Some; [done|by eapply Ha].
  - by eapply dial_step_ok.
  - destruct Hok as [Hp Hs Hk Hu Ha]. split; cbn in *; try done. intros ip' x [_ Hx]%lookup_delete_Some. by apply Hp.
  - destruct Hok as [Hp Hs Hk Hu Ha]. destruct a; split; cbn in *; try done. intros g Hg. apply Hs. set_solver.
  - destruct Hok as [Hp Hs Hk Hu Ha]. destruct (spawn_reconnect max_attempts target d) as [t' d'] eqn:E. cbn [fst snd].
    apply spawn_reconnect_spec in E as [Hpd Hc].
    assert (Hold : ∀ i t, ts !! i = Some t → put_task id t' ts !! i = Some t).
    { intros i t H. apply put_task_lookup. right. split; [congruence|done]. }
    assert (Hnew : ∀ i t, put_task id t' ts !! i = Some t → ts !! i = Some t ∨ (task_key t = None ∧ ∀ n, dt_attempt t = Some n → 0 ≤ n < max_attempts)).
    { intros i t [[-> H1]|[_ H1]]%put_task_lookup; [right|by left]. destruct Hc as [((n & -> & Hn) & _)|(-> & _)]; [|done].
      injection H1 as <-. split; [done|]. by intros m [= <-]. }
    split; cbn in *.
    + intros ip x Hx. rewrite Hpd in Hx. destruct (Hp _ _ Hx) as (Hip & i & t & H1 & H2). split; [done|]. exists i, t. eauto.
    + intros g Hg. destruct Hc as [((n & Htn & _) & Hr)|(Htn & Hr)].
      * rewrite Hr in Hg. apply elem_of_union in Hg as [->%elem_of_singleton|Hg]; [|destruct (Hs _ Hg) as (i & t & H1 & H2); exists i, t; eauto].
        eexists id, _. split; [apply put_task_lookup; left; split; [done|exact Htn]|done].
      * destruct (Hs _ (Hr _ Hg)) as (i & t & H1 & H2). exists i, t; eauto.
    + intros i i' t1 t2 k [H1|[H1 _]]%Hnew [H2|[H2 _]]%Hnew H3 H4; [by eapply Hk|congruence..].
    + intros i t1 k [H1|[H1 _]]%Hnew H2; [by eapply Hu|congruence].
    + intros i t1 n [H1|[_ H1]]%Hnew H2; [by eapply Ha|auto].
  - destruct Hok as [Hp Hs Hk Hu Ha]. by split.
  - destruct Hok as [Hp Hs Hk Hu Ha]. by split.
Qed.

Lemma world_reachable_ok w : world_reachable max_attempts iter_targets w → dial_ok max_attempts w.
Proof.
  intros [targets Hr]. assert (H0 : dial_ok max_attempts (world_new targets)) by (by split; cbn).
  revert H0. induction Hr as [w|w1 w2 w3 Hs _ IH]; [done|]. intros H0. by eapply IH, world_step_ok.
Qed.
End Invariant.

(** ** The theorems *)

(** C13: Dialling leaves nothing behind: however attempts, failures, inbound
    handshakes and lost peers interleave, every pending attempt and every slot
    taken for a target belong to a running task, at most one for a transport
    key; so once the tasks have ended nothing is pending and every target can
    be dialled again. *)
Theorem dialling_invariant max_attempts iter_targets w :
  world_reachable max_attempts iter_targets w →
  dial_ok max_attempts w ∧
  (dw_tasks w = ∅ → pending_outbound (dw_dial w) = ∅ ∧ ∀ target, (begin_reconnect target (dial_reconnect (dw_dial w))).1 = true).
Proof.
  intros Hok%world_reachable_ok. split; [done|]. intros He. split.
  - apply map_eq. intros ip. rewrite lookup_empty. destruct (pending_outbound (dw_dial w) !! ip) as [e|] eqn:E; [|done].
    destruct (dk_pending _ _ Hok _ _ E) as (_ & id & t & Ht & _). by rewrite He in Ht.
  - intros target. cbn. rewrite bool_decide_eq_false_2; [done|]. intros Hin.
    destruct (dk_slots _ _ Hok _ Hin) as (id & t & Ht & _). by rewrite He in Ht.
Qed.

(** The events of one task; what it finds when it wakes up is up to the
    others.  [None] is a task that was sent an event it did not wait for, or
    one after its end. *)
Fixpoint task_life (max_attempts : Z) (iter_targets : gmap NodeId ConnectTarget → list (NodeId * ConnectTarget))
    (evs : list (DialState * gset NodeId * DialEvent)) (t : option DialTask) : option (option DialTask) :=
  match evs with
  | [] => Some t
  | (d, connected, e) :: evs =>
    match t with
    | None => None
    | Some t =>
      match dial_step max_attempts iter_targets connected t e d with
      | None => None
      | Some (t', _, _) => task_life max_attempts iter_targets evs t'
      end
    end
  end.
Definition is_woke (ev : DialState * gset NodeId * DialEvent) : bool := match ev.2 with Woke _ => true | _ => false end.

(** Where a task is in its life. *)
Definition phase_rank (p : DialPhase) : Z := match p with Waiting => 0 | Connecting _ => 1 | Handshaking _ => 2 end.
Definition life_rank (n : Z) (p : DialPhase) : Z := 3 * n + phase_rank p.
Definition tries (n : Z) (p : DialPhase) : Z := n + match p with Waiting => 0 | _ => 1 end.

Lemma reconnect_step_progress max iter connected target n p e d t' acts d' :
  reconnect_step max iter connected target n p e d = Some (t', acts, d') →
  t' = None ∨ ∃ n' p', t' = Some (MkTask target (Some n') p') ∧ (n' = n ∨ n' = n + 1 ∧ n' < max) ∧ life_rank n p < life_rank n' p' ∧
    tries n' p' = tries n p + match e with Woke _ => 1 | _ => 0 end.
Proof.
  assert (Hh : ∀ d0 d1 t1, p ≠ Waiting → reconnect_head max (n + 1) target d0 = (t1, d1) →
    t1 = None ∨ ∃ n' p', t1 = Some (MkTask target (Some n') p') ∧ (n' = n ∨ n' = n + 1 ∧ n' < max) ∧ life_rank n p < life_rank n' p' ∧
    tries n' p' = tries n p + 0).
  { intros d0 d1 t1 Hp [_ [(-> & Hlt & _)|(-> & _)]]%reconnect_head_spec; [right|by left]. eexists _, Waiting. split; [done|].
    split; [right; lia|]. unfold life_rank, tries, phase_rank. destruct p; [done| |]; lia. }
  unfold reconnect_step. destruct p as [|key|key], e as [k| | | |peer|]; try done.
  - destruct (peer_id_for_target _ _ _) as [peer|]; [case_bool_decide|]; intros [= <- _ _]; [by left|right..];
      eexists n, (Connecting k); (split; [done|]); unfold life_rank, tries, phase_rank; lia.
  - intros [= <- _ _]. by left.
  - intros [= <- _ _]. right. eexists n, (Handshaking key). split; [done|]. unfold life_rank, tries, phase_rank. lia.
  - destruct (reconnect_head _ _ _ _) as [t1 d1] eqn:E. intros [= <- _ _]. by eapply Hh.
  - intros [= <- _ _]. by left.
  - cbn [take_cancelled_outbound]. destruct (bool_decide _); [intros [= <- _ _]; by left|].
    destruct (reconnect_head _ _ _ _) as [t1 d1] eqn:E. intros [= <- _ _]. by eapply Hh.
Qed.

Lemma task_life_bound max iter evs : ∀ target n p r,
  task_life max iter evs (Some (MkTask target (Some n) p)) = Some r → n < max →
  Z.of_nat (length evs) + life_rank n p + (if r then 1 else 0) ≤ 3 * max ∧
  Z.of_nat (length (List.filter is_woke evs)) + tries n p ≤ max.
Proof.
  induction evs as [|[[d connected] e] evs IH]; intros target n p r; cbn [task_life length List.filter].
  { intros [= <-] Hn. unfold life_rank, tries, phase_rank. destruct p; lia. }
  destruct (dial_step max iter connected _ e d) as [[[t' acts] d']|] eqn:E; [|done]. intros Hl Hn.
  unfold dial_step in E. cbn [dt_attempt dt_target dt_phase] in E. pose proof (reconnect_step_progress _ _ _ _ _ _ _ _ _ _ _ E) as Hp.
  assert (Hw : is_woke (d, connected, e) = true → p = Waiting).
  { destruct e; try done. intros _. by destruct p. }
  destruct Hp as [->|(n' & p' & -> & Hn' & Hr & Ht)].
  - destruct evs as [|ev evs]; [|cbn in Hl; by destruct ev as [[? ?] ?]]. injection Hl as <-. cbn [length List.filter].
    destruct (is_woke _) eqn:Ew; [rewrite (Hw eq_refl)|]; unfold life_rank, tries, phase_rank; cbn [length]; destruct p; lia.
  - destruct (IH _ _ _ _ Hl) as [H1 H2]; [lia|]. split; [lia|]. unfold is_woke at 1. cbn [snd]. destruct e; cbn [length]; lia.
Qed.

(** C31: Reconnecting gives up: whatever the network answers and whatever else the
    daemon does in between, the task for a lost peer dials at most
    [max_reconnect_attempts] times and is over after three events for each
    attempt. *)
Theorem reconnect_gives_up max_attempts iter_targets target d t evs r :
  (spawn_reconnect max_attempts target d).1 = Some t →
  task_life max_attempts iter_targets evs (Some t) = Some r →
  Z.of_nat (length (List.filter is_woke evs)) ≤ max_attempts ∧ Z.of_nat (length evs) ≤ 3 * max_attempts ∧
  (Z.of_nat (length evs) = 3 * max_attempts → r = None).
Proof.
  intros Hs Hl. destruct (spawn_reconnect max_attempts target d) as [t0 d'] eqn:E. cbn in Hs. subst t0.
  assert (∃ n, t = MkTask target (Some n) Waiting ∧ 0 ≤ n < max_attempts) as (n & -> & Hn).
  { apply spawn_reconnect_spec in E as [_ [((n & [= ->] & Hn) & _)|([=] & _)]]. eauto. }
  destruct (task_life_bound _ _ _ _ _ _ _ Hl) as [H1 H2]; [lia|]. unfold life_rank, tries, phase_rank in *. destruct r; lia || naive_solver lia.
Qed.

(** ** A cancellation that comes too early *)
Definition sample_target : ConnectTarget := Tcp (0x0a000002, 9100).

(** The steps as functions. *)
Definition world_lost (id : nat) (target : ConnectTarget) (w : DialWorld) : DialWorld :=
  MkWorld (spawn_reconnect 3 target (dw_dial w)).2 (put_task id (spawn_reconnect 3 target (dw_dial w)).1 (dw_tasks w)) (dw_used w) (dw_cancels w).
Definition world_event (id : nat) (e : DialEvent) (w : DialWorld) : DialWorld :=
  match t ← dw_tasks w !! id; dial_step 3 map_to_list ∅ t e (dw_dial w) with
  | Some (t', _, d') => MkWorld d' (put_task id t' (dw_tasks w)) (drawn e ∪ dw_used w) (dw_cancels w)
  | None => w
  end.
Definition world_cancel (ip : Z) (w : DialWorld) : DialWorld :=
  match pending_outbound (dw_dial w) !! ip with
  | Some entry => MkWorld (cancel_pending_outbound_for_ip ip (dw_dial w)).2 (dw_tasks w) (dw_used w) ((entry, []) :: dw_cancels w)
  | None => w
  end.

Lemma world_lost_reachable id target w :
  dw_tasks w !! id = None → world_reachable 3 map_to_list w → world_reachable 3 map_to_list (world_lost id target w).
Proof. intros Hid [targets Hr]. exists targets. eapply rtc_r; [exact Hr|]. destruct w. by constructor. Qed.
Lemma world_cancel_reachable ip w : world_reachable 3 map_to_list w → world_reachable 3 map_to_list (world_cancel ip w).
Proof.
  intros [targets Hr]. exists targets. unfold world_cancel. destruct w as [d ts used cs]. cbn [dw_dial dw_tasks dw_used dw_cancels].
  destruct (pending_outbound d !! ip) as [entry|] eqn:E; [|done]. rewrite <- (cancel_acts_whole ip entry d E). unfold cancel_acts. cbn [foldl].
  do 3 (eapply rtc_r; [|apply (WCancelled _ _ entry _ _ _ _ _ [])]). eapply rtc_r; [exact Hr|]. by apply WCancel.
Qed.
Lemma world_event_reachable id e w :
  drawn e ## dw_used w → world_reachable 3 map_to_list w → world_reachable 3 map_to_list (world_event id e w).
Proof.
  intros Hd [targets Hr]. unfold world_event. destruct w as [d ts used cs]. cbn [dw_tasks dw_dial dw_used dw_cancels] in *.
  destruct (ts !! id) as [t|] eqn:Et; cbn [mbind option_bind]; [|by exists targets].
  destruct (dial_step 3 map_to_list ∅ t e d) as [[[t' acts] d']|] eqn:E; [|by exists targets].
  exists targets. eapply rtc_r; [exact Hr|]. by eapply WEvent.
Qed.

(** A daemon that lost the peer at [sample_target] and is connecting to it. *)
Definition world_connecting : DialWorld := world_event 0 (Woke (sample_id 1)) (world_lost 0 sample_target (world_new {[sample_target]})).

Lemma world_connecting_reachable : world_reachable 3 map_to_list world_connecting.
Proof.
  apply world_event_reachable; [cbn; apply disjoint_empty_r|]. apply world_lost_reachable; [reflexivity|]. exists {[sample_target]}. apply rtc_refl.
Qed.

(** An inbound handshake from the address frees the slot of the task that
    is still connecting there, so the next loss of the peer starts a second
    task for the same target; and if the first attempt then connects and its
    handshake fails, the task ends with its channel still registered. *)
Theorem early_cancel_races :
  (∃ w id id' t t', world_reachable 3 map_to_list w ∧ id ≠ id' ∧ dw_tasks w !! id = Some t ∧ dw_tasks w !! id' = Some t' ∧
     dt_target t = dt_target t' ∧ is_Some (dt_attempt t) ∧ is_Some (dt_attempt t')) ∧
  (∃ w, world_reachable 3 map_to_list w ∧ dw_tasks w = ∅ ∧ hs_channels (dw_dial w) ≠ ∅).
Proof.
  pose proof (world_cancel_reachable 0x0a000002 _ world_connecting_reachable) as Hr. split.
  - exists (world_lost 1 sample_target (world_cancel 0x0a000002 world_connecting)), 0%nat, 1%nat. eexists _, _.
    split; [by apply world_lost_reachable|]. split; [done|]. split; [vm_compute; reflexivity|]. split; [vm_compute; reflexivity|].
    split; [done|]. split; by eexists.
  - exists (world_event 0 HandshakeErr (world_event 0 Connected (world_cancel 0x0a000002 world_connecting))). split.
    + apply world_event_reachable; [apply disjoint_empty_l|]. apply world_event_reachable; [apply disjoint_empty_l|done].
    + split; [vm_compute; reflexivity|]. vm_compute. discriminate.
Qed.

Lemma dialling_invariant_witness : dial_ok 3 world_connecting.
Proof. apply (dialling_invariant 3 map_to_list world_connecting world_connecting_reachable). Defined.

Lemma reconnect_gives_up_witness :
  let d := dw_dial (world_new {[sample_target]}) in
  let evs := [(d, ∅, Woke (sample_id 1)); (d, ∅, ConnectFailed); (d, ∅, Woke (sample_id 2)); (d, ∅, ConnectFailed)] in
  Z.of_nat (length (List.filter is_woke evs)) ≤ 2.
Proof.
  intros d evs. apply (reconnect_gives_up 2 map_to_list sample_target d (MkTask sample_target (Some 0) Waiting) evs None);
    vm_compute; reflexivity.
Defined.

(** ** From a broadcast to a connection *)
Section Presence.
Context {A : Aead} {HA : LawfulAead A}.

(** C32: A node that shows itself is found: what it broadcasts, in the clear or
    under the key of the mesh, is understood by any other node with the same
    setting, which files it under the address it came from and the port it
    listens on, tells the daemon the first time only, and dials exactly that
    address if the peer is allowed, wanted and not connected. *)
Theorem presence_dialled now nonce payload port from cfg a b st :
  ad_wf (ds_own_ad a) → length nonce = 12%nat → ds_discovery_key b = ds_discovery_key a →
  ad_node_id (ds_own_ad a) ≠ ad_node_id (ds_own_ad b) → broadcast_presence nonce a = Ok (payload, port) →
  let ad := ds_own_ad a in
  let record := {| pr_node_id := ad_node_id ad; pr_public_key := ad_public_key ad; pr_capabilities := ad_capabilities ad;
                   pr_listen_addr := (from.1, ad_listen_port ad); pr_last_seen := now |} in
  let known := bool_decide (is_Some (ds_peer_table b !! ad_node_id ad)) in
  (∃ b', handle_advertisement now payload from b = Ok (if known then None else Some record, b') ∧
    ds_peer_table b' = <[ad_node_id ad := record]> (ds_peer_table b)) ∧
  ((consume_discovered now cfg record st).1 = Some (Tcp (from.1, ad_listen_port ad)) ↔
     ad_node_id ad ≠ ds_self_id (dm_data st) ∧ authorize_discovered_peer (ad_node_id ad) (dm_authorization st) = true ∧
     dm_sessions st !! ad_node_id ad = None ∧ wants_peer cfg (ad_capabilities ad) = true) ∧
  (∀ target, (consume_discovered now cfg record st).1 = Some target →
     target = Tcp (from.1, ad_listen_port ad) ∧
     discovered_targets (dial_reconnect (dm_dial (consume_discovered now cfg record st).2)) !! target = Some now).
Proof.
  intros Hwf Hn Hkey Hid Hb ad record known. split; [|split].
  - assert (Hread : match ds_discovery_key b with Some key => deserialize_encrypted payload key | None => ad_deserialize payload end = Ok ad).
    { unfold broadcast_presence in Hb. rewrite Hkey. destruct (ds_discovery_key a) as [key|].
      - destruct (serialize_encrypted nonce (ds_own_ad a) key) as [out| |] eqn:Es; cbn in Hb; try done. injection Hb as <- _.
        destruct (discovery_roundtrip _ [] _ _ _ Hwf Hn Es) as (_ & Hd & _). by rewrite app_nil_r in Hd.
      - injection Hb as <- _. pose proof (ad_roundtrip _ [] Hwf) as Hd. by rewrite app_nil_r in Hd. }
    unfold handle_advertisement. rewrite Hread, bool_decide_eq_false_2 by done. unfold upsert. fold record.
    exists (set_table (<[ad_node_id ad := record]> (ds_peer_table b)) b). split; [|reflexivity].
    cbn [fst snd]. do 2 f_equal. unfold known. change (pr_node_id record) with (ad_node_id ad).
    destruct (ds_peer_table b !! ad_node_id ad); repeat case_bool_decide; naive_solver.
  - unfold consume_discovered. change (pr_node_id record) with (ad_node_id ad). change (pr_capabilities record) with (ad_capabilities ad).
    destruct (dm_sessions st !! ad_node_id ad) eqn:Es; repeat case_bool_decide;
      destruct (authorize_discovered_peer _ _), (wants_peer _ _); cbn; naive_solver.
  - intros target. unfold consume_discovered. repeat case_match; try done. cbn. intros [= <-]. by rewrite lookup_insert_eq.
Qed.
End Presence.

Definition sample_finder : DaemonState :=
  MkDaemon {| cfg_seed := [2]; cfg_own_x25519_pub := replicate 32 2; cfg_node_name := [110]; cfg_mesh_handshake_key := None |}
    (sample_state (sample_id 2) [] (RoutingTable_new (sample_id 2) false {| MeshAddress.v4_network := 0x0a4d0000; MeshAddress.v4_prefix_len := 16 |}))
    (AuthorizationManager_new AllowAll ∅ ∅) ∅ ∅ ∅ (SendBuffer_new 16 1000) 0 ∅ ∅ (dw_dial (world_new ∅)).

Definition sample_discovery_config : DiscoveryConfig := MkDiscoveryConfig true 9101 5000 30000 false true.

Lemma presence_dialled_witness :
  let a := with_discovery_key [7] (DiscoveryService_new (sample_id 1) (replicate 32 5) caps_gateway 9100) in
  let b := with_discovery_key [7] (DiscoveryService_new (sample_id 2) (replicate 32 6) caps_client 9200) in
  ∃ payload port r b', broadcast_presence (A:=null_aead) (replicate 12 1) a = Ok (payload, port) ∧
    handle_advertisement (A:=null_aead) 40 payload (0x0a000001, 5000) b = Ok (Some r, b') ∧
    (consume_discovered 50 sample_discovery_config r sample_finder).1 = Some (Tcp (0x0a000001, 9100)).
Proof.
  intros a b. destruct (broadcast_presence (A:=null_aead) (replicate 12 1) a) as [[payload port]| |] eqn:Eb; [|exfalso; vm_compute in Eb; discriminate..].
  destruct (presence_dialled (A:=null_aead) 40 (replicate 12 1) payload port (0x0a000001, 5000)
    sample_discovery_config a b sample_finder) as ((b' & Hb & _) & _);
    [split; [by apply (bool_decide_unpack _); vm_compute|split; [reflexivity|by vm_compute]]|reflexivity|reflexivity|by vm_compute|exact Eb|].
  destruct (presence_dialled (A:=null_aead) 50 (replicate 12 1) payload port (0x0a000001, 5000)
    sample_discovery_config a b sample_finder) as (_ & Hc & _);
    [split; [by apply (bool_decide_unpack _); vm_compute|split; [reflexivity|by vm_compute]]|reflexivity|reflexivity|by vm_compute|exact Eb|].
  eexists payload, port, _, b'. split; [reflexivity|]. split; [exact Hb|].
  apply Hc. split; [by vm_compute|]. split; [reflexivity|]. split; [reflexivity|by vm_compute].
Defined.
