(* ===== verification/DaemonProofs.v ===== *)
(** * What the daemon guarantees

    The invariant of the daemon's maps, the handshake between two daemons, the
    removal of silent peers, and who may change the routes. *)

From S2P Require Import Prelude Core MeshAddress Frames Control Stream Fragment Routing RoutingProofs Session DataPlane SendBuffer.
From S2P Require Import Trust E2e Handshake Reconnect Daemon.

(** ** What sending leaves alone *)
Definition only_buffer (st st' : DaemonState) : Prop := ∃ b d, st' = set_send_buffer b d st.

Lemma only_buffer_refl st : only_buffer st st.
Proof. exists (dm_send_buffer st), (congestion_drops st). by destruct st. Qed.
Lemma only_buffer_trans st1 st2 st3 : only_buffer st1 st2 → only_buffer st2 st3 → only_buffer st1 st3.
Proof. intros (b & d & ->) (b' & d' & ->). by exists b', d'. Qed.

(** The fields a handler's specification talks about. *)
Lemma only_buffer_fields st st' : only_buffer st st' →
  dm_data st' = dm_data st ∧ peer_pubkeys st' = peer_pubkeys st ∧ peer_last_hb st' = peer_last_hb st ∧
  dm_reputation st' = dm_reputation st ∧ dm_config st' = dm_config st ∧ dm_authorization st' = dm_authorization st ∧
  dm_dial st' = dm_dial st.
Proof. by intros (b & d & ->). Qed.

Section Proofs.
Context (digest : NodeId → list Z) (sha256 : list Z → list Z).
Context {A : Aead} {D : Ecdh} {K : HandshakeCrypto}.
Context (answer : NodeId → TransportFrame → SendResult).
Context (iter_routes : gmap NodeId RouteTableEntry → list (NodeId * RouteTableEntry)).
Context (iter_peers : gset NodeId → list NodeId).
Implicit Types (st : DaemonState) (p q : NodeId).

Lemma send_buffered_only now p f st : only_buffer st (send_buffered answer now p f st).2.
Proof.
  unfold send_buffered. destruct (send_frame_buffered _ _ _ _ _ _) as [b d]. by exists b, d.
Qed.

Lemma send_all_only now fs st : only_buffer st (send_all answer now fs st).2.
Proof.
  revert st. induction fs as [|[p f] fs IH]; intros st; cbn [send_all]; [apply only_buffer_refl|].
  pose proof (send_buffered_only now p f st) as H1. destruct (send_buffered answer now p f st) as [a st1].
  pose proof (IH st1) as H2. destruct (send_all answer now fs st1) as [a' st2]. cbn in *. by eapply only_buffer_trans.
Qed.

(** ** Establishing a session *)
Record established now p session pk st st' : Prop := {
  es_sessions : dm_sessions st' = <[p := session]> (dm_sessions st);
  es_pubkeys : peer_pubkeys st' = <[p := pk]> (peer_pubkeys st);
  es_routing : dm_routing st' = unblacklist_peer p (add_peer digest now p (dm_routing st));
  es_reputation : dm_reputation st' = delete p (dm_reputation st);
  es_last_hb : peer_last_hb st' = <[p := now]> (peer_last_hb st);
  es_self : ds_self_id (dm_data st') = ds_self_id (dm_data st);
  es_config : dm_config st' = dm_config st;
  es_authorization : dm_authorization st' = dm_authorization st;
}.

Lemma establish_session_spec now p session pk st :
  established now p session pk st (establish_session digest answer now p session pk st).2.
Proof.
  unfold establish_session. cbv zeta.
  set (st1 := set_last_hb _ _). destruct (flush_send_buffer now p st1) as [a st2] eqn:E2.
  assert (Hf : only_buffer st1 st2).
  { unfold flush_send_buffer in E2. destruct (SendBuffer_drain _ _ _) as [fs b]. injection E2 as _ <-. eexists _, _. reflexivity. }
  pose proof (send_buffered_only now p (plain_frame FrameControl (ControlFrame_encode
    (PeerInfo (cfg_own_x25519_pub (dm_config st2)) (cfg_node_name (dm_config st2))) [])) st2) as Hs.
  unfold send_peer_info, send_control. destruct (send_buffered _ _ _ _ _) as [a' st3]. cbn [snd] in *.
  destruct (only_buffer_fields _ _ (only_buffer_trans _ _ _ Hf Hs)) as (Hd & Hp & Hh & Hr & Hc & Ha & _).
  split; rewrite ?Hd, ?Hp, ?Hh, ?Hr, ?Hc, ?Ha; reflexivity.
Qed.

(** ** Removing a peer *)
Record removed p st st' : Prop := {
  rm_sessions : dm_sessions st' = delete p (dm_sessions st);
  rm_pubkeys : peer_pubkeys st' = delete p (peer_pubkeys st);
  rm_last_hb : peer_last_hb st' = delete p (peer_last_hb st);
  rm_self : ds_self_id (dm_data st') = ds_self_id (dm_data st);
  rm_routes : routes (dm_routing st') = routes (remove_peer p (dm_routing st)).2;
  rm_reputation : dm_reputation st' = dm_reputation st;
  rm_config : dm_config st' = dm_config st;
}.

Lemma generate_all_routes iter peers t :
  routes (generate_all_advertisements iter peers t).2 = routes t ∧
  self_id (generate_all_advertisements iter peers t).2 = self_id t ∧
  blacklisted_peers (generate_all_advertisements iter peers t).2 = blacklisted_peers t ∧
  (table_ok t → table_ok (generate_all_advertisements iter peers t).2).
Proof.
  revert t. induction peers as [|q peers IH]; intros t; cbn [generate_all_advertisements]; [done|].
  destruct (generate_advertisement iter q t) as [u t1] eqn:E1. unfold generate_advertisement in E1. injection E1 as <- <-.
  destruct (IH (set_sequence (as_u64 (sequence t + 1)) t)) as (H1 & H2 & H3 & H4).
  destruct (generate_all_advertisements iter peers _) as [us t2]. cbn [snd] in *. split_and!; try done.
  intros [Hi Hr Hs]. apply H4. by split.
Qed.

Lemma remove_peer_self p t : self_id (remove_peer p t).2 = self_id t.
Proof. unfold remove_peer, remove_routes_via. by rewrite (sc_self_id _ _ (remove_where_config _ _)). Qed.

Lemma daemon_remove_peer_spec now p st :
  let st' := (daemon_remove_peer answer iter_routes iter_peers now p st).2 in
  removed p st st' ∧ blacklisted_peers (dm_routing st') = blacklisted_peers (remove_peer p (dm_routing st)).2 ∧
  self_id (dm_routing st') = self_id (dm_routing st) ∧ (table_ok (dm_routing st) → table_ok (dm_routing st')).
Proof.
  unfold daemon_remove_peer. cbv zeta.
  match goal with |- context [generate_all_advertisements ?i ?ps ?t] =>
    pose proof (generate_all_routes i ps t) as Hg; destruct (generate_all_advertisements i ps t) as [adverts t'] end.
  set (st1 := on_routing (λ _, t') _).
  match goal with |- context [send_all answer now ?fs st1] =>
    pose proof (send_all_only now fs st1) as Hs; destruct (send_all answer now fs st1) as [acts st2] end.
  cbn [snd] in *. destruct Hg as (Hgr & Hgs & Hgb & Hgt). destruct (only_buffer_fields _ _ Hs) as (Hd & Hp & Hh & Hr & Hc & _).
  assert (Hsame : ∀ st3, dm_data st3 = dm_data st2 → peer_pubkeys st3 = peer_pubkeys st2 → peer_last_hb st3 = peer_last_hb st2 →
    dm_reputation st3 = dm_reputation st2 → dm_config st3 = dm_config st2 →
    removed p st st3 ∧ blacklisted_peers (dm_routing st3) = blacklisted_peers (remove_peer p (dm_routing st)).2 ∧
    self_id (dm_routing st3) = self_id (dm_routing st) ∧ (table_ok (dm_routing st) → table_ok (dm_routing st3))).
  { intros st3 E1 E2 E3 E4 E5. split_and!.
    - split; rewrite ?E1, ?E2, ?E3, ?E4, ?E5, ?Hd, ?Hp, ?Hh, ?Hr, ?Hc; try reflexivity. exact Hgr.
    - rewrite E1, Hd. exact Hgb.
    - rewrite E1, Hd. etransitivity; [exact Hgs|]. exact (remove_peer_self p (dm_routing st)).
    - intros Ht. rewrite E1, Hd. apply Hgt. by apply remove_peer_ok. }
  destruct (is_reconnectable_target _ _) as [target|]; [destruct (begin_reconnect target _) as [fresh m]|]; cbn [snd]; by apply Hsame.
Qed.

(** ** The data plane keeps peers and routes *)
Definition same_peers (d d' : DataState) : Prop :=
  ds_routing d' = ds_routing d ∧ ds_self_id d' = ds_self_id d ∧
  ∀ p, is_Some (ds_sessions d' !! p) ↔ is_Some (ds_sessions d !! p).

Lemma same_peers_sessions p s s' (d : DataState) :
  ds_sessions d !! p = Some s → same_peers d (set_sessions (<[p := s']> (ds_sessions d)) d).
Proof.
  intros Hs. split_and!; [done..|]. intros q. cbn. destruct (decide (p = q)) as [<-|]; [|by rewrite lookup_insert_ne].
  rewrite lookup_insert_eq, Hs. done.
Qed.

Lemma same_peers_trans d1 d2 d3 : same_peers d1 d2 → same_peers d2 d3 → same_peers d1 d3.
Proof. intros (H1 & H2 & H3) (H4 & H5 & H6). split_and!; [congruence..|]. intros p. by rewrite H6. Qed.

Lemma deliver_mesh_peers now mesh d e d' : deliver_mesh now mesh d = Ok (e, d') → same_peers d d'.
Proof.
  unfold deliver_mesh, reassemble_or_deliver. destruct (flags_contains _ IS_CONTROL); [by intros [= _ <-]|].
  destruct (flags_contains _ IS_FRAGMENT); [|by intros [= _ <-]].
  destruct (FragmentFrame_deserialize _) as [frag| |]; cbn [obind]; [|by intros [= _ <-]|done].
  destruct (Reassembler_insert _ _ _) as [[res r]| |]; cbn [obind]; [|done..]. destruct res; by intros [= _ <-].
Qed.

Lemma relay_mesh_peers mesh d : same_peers d (relay_mesh mesh d).2.
Proof.
  unfold relay_mesh. destruct (_ =? 0); [done|]. destruct (lookup_route _ _) as [next|]; [|done].
  destruct (ds_sessions d !! next) as [s|] eqn:Es; [|done]. destruct (send_single_mesh _ _ _ _ _ _) as [fs s']. cbn [snd].
  eapply same_peers_trans; [by apply (same_peers_sessions next s s')|done].
Qed.

Lemma handle_data_peers now from f d e d' : handle_data now from f d = Ok (e, d') → same_peers d d'.
Proof.
  unfold handle_data. destruct (ds_sessions d !! from) as [s|] eqn:Es; [|by intros [= _ <-]].
  destruct (decrypt_frame f s) as [r s']. pose proof (same_peers_sessions from s s' d Es) as Hs.
  destruct r as [fr| |]; [|by intros [= _ <-]|done].
  destruct (MeshDataFrame_decode _) as [[mesh rest]| |]; [|by intros [= _ <-]|done]. case_bool_decide.
  - intros H1%deliver_mesh_peers. by eapply same_peers_trans.
  - intros [= H1]. apply (f_equal snd) in H1. cbn [snd] in H1. subst d'.
    eapply same_peers_trans; [exact Hs|apply relay_mesh_peers].
Qed.

(** ** The invariant *)

(** Every session has the key its peer signs with and is watched for silence. *)
Record daemon_ok st : Prop := {
  do_routing : table_ok (dm_routing st);
  do_self : self_id (dm_routing st) = ds_self_id (dm_data st);
  do_keys : ∀ p, is_Some (dm_sessions st !! p) ↔ is_Some (peer_pubkeys st !! p);
  do_monitored : ∀ p, is_Some (dm_sessions st !! p) → is_Some (peer_last_hb st !! p);
}.

Lemma daemon_ok_ext st st' :
  table_ok (dm_routing st') → self_id (dm_routing st') = self_id (dm_routing st) →
  ds_self_id (dm_data st') = ds_self_id (dm_data st) →
  (∀ p, is_Some (dm_sessions st' !! p) ↔ is_Some (dm_sessions st !! p)) →
  peer_pubkeys st' = peer_pubkeys st → (∀ p, is_Some (peer_last_hb st !! p) → is_Some (peer_last_hb st' !! p)) →
  daemon_ok st → daemon_ok st'.
Proof.
  intros Ht Hself Hself1 Hs Hp Hh [H1 H2 H3 H4]. split; [done|by rewrite Hself, Hself1| |].
  - intros p. by rewrite Hs, Hp.
  - intros p Hsp%Hs. auto.
Qed.

Lemma only_buffer_ok st st' : only_buffer st st' → daemon_ok st → daemon_ok st'.
Proof.
  intros (Hd & Hp & Hh & _)%only_buffer_fields Hok. destruct Hok as [H1 H2 H3 H4].
  split; rewrite ?Hd, ?Hp, ?Hh; done.
Qed.

Lemma established_ok now p session pk st st' :
  established now p session pk st st' → daemon_ok st → daemon_ok st'.
Proof.
  intros [Es Ep Er Erep Eh Eself _ _] [H1 H2 H3 H4].
  assert (Hc : self_id (add_peer digest now p (dm_routing st)) = self_id (dm_routing st)).
  { unfold add_peer. by rewrite (sc_self_id _ _ (insert_route_config digest _ _ _)). }
  split.
  - rewrite Er. assert (Ht : table_ok (add_peer digest now p (dm_routing st))) by by apply add_peer_ok.
    destruct Ht. by split.
  - rewrite Er, Eself. exact (eq_trans Hc H2).
  - intros q. rewrite Es, Ep. destruct (decide (p = q)) as [<-|]; [rewrite !lookup_insert_eq; split; eauto|].
    by rewrite !lookup_insert_ne.
  - intros q. rewrite Es, Eh. destruct (decide (p = q)) as [<-|]; [rewrite !lookup_insert_eq; eauto|].
    rewrite !lookup_insert_ne by done. auto.
Qed.

Lemma removed_ok now p st :
  daemon_ok st → daemon_ok (daemon_remove_peer answer iter_routes iter_peers now p st).2.
Proof.
  intros [H1 H2 H3 H4]. destruct (daemon_remove_peer_spec now p st) as ([Es Ep Eh Eself _ _ _] & _ & Hid & Ht).
  set (st' := (daemon_remove_peer _ _ _ _ _ _).2) in *. split; [auto|congruence| |].
  - intros q. rewrite Es, Ep. destruct (decide (p = q)) as [<-|]; [by rewrite !lookup_delete_eq|]. by rewrite !lookup_delete_ne.
  - intros q. rewrite Es, Eh. destruct (decide (p = q)) as [<-|]; [by rewrite !lookup_delete_eq; intros []|].
    rewrite !lookup_delete_ne by done. auto.
Qed.

Lemma liveness_remove_ok now p st : daemon_ok st → daemon_ok (liveness_remove answer iter_routes iter_peers now p st).2.
Proof.
  intros Hok. unfold liveness_remove. pose proof (removed_ok now p st Hok) as Hr.
  destruct (daemon_remove_peer _ _ _ _ _ _) as [acts st1]. cbn [snd] in Hr. destruct (record_failure _ _) as [b rep]. cbn [snd].
  destruct b.
  - apply (daemon_ok_ext st1); [apply blacklist_peer_ok, Hr| |done|done|done|done|exact Hr].
    cbn. unfold blacklist_peer, remove_routes_via. by rewrite (sc_self_id _ _ (remove_where_config _ _)).
  - destruct Hr. by split.
Qed.

Lemma peer_liveness_ok now iter_hb st :
  daemon_ok st → daemon_ok (peer_liveness answer iter_routes iter_peers now iter_hb st).2.
Proof.
  unfold peer_liveness. generalize (map fst (List.filter (λ p : NodeId * Z, LIVENESS_TIMEOUT <? elapsed now p.2) iter_hb)).
  intros ps. revert st. induction ps as [|q ps IH]; intros st Hok; cbn [liveness_remove_all]; [done|].
  pose proof (liveness_remove_ok now q st Hok) as H1. destruct (liveness_remove _ _ _ _ _ _) as [a st1]. cbn [snd] in H1.
  pose proof (IH st1 H1) as H2. by destruct (liveness_remove_all _ _ _ _ _ _) as [a' st2].
Qed.

Lemma update_gateway_load_self gw load t : self_id (update_gateway_load gw load t) = self_id t.
Proof. unfold update_gateway_load. by repeat case_match. Qed.
Lemma update_gateway_rtt_self gw rtt t : self_id (update_gateway_rtt gw rtt t) = self_id t.
Proof. unfold update_gateway_rtt. by repeat case_match. Qed.

Lemma insert_heard p (now : Z) (m : gmap NodeId Z) q : is_Some (m !! q) → is_Some (<[p := now]> m !! q).
Proof. intros Hq. destruct (decide (p = q)) as [<-|]; [rewrite lookup_insert_eq; eauto|by rewrite lookup_insert_ne]. Qed.

Lemma handle_route_update_ok now from f st st' :
  bytes_ok (tf_payload f) → daemon_ok st →
  handle_route_update digest now from f st = Ok st' → daemon_ok st'.
Proof.
  intros Hb Hok. unfold handle_route_update. destruct (RouteUpdateFrame_decode _) as [[u rest]| |] eqn:E; [|by intros [= <-]|done].
  match goal with |- context [if ?b then _ else _] => destruct b end; intros [= <-]; [|done].
  destruct (RouteUpdateFrame_decode_wf _ _ _ Hb E) as [_ Hh].
  apply (daemon_ok_ext st); [|cbn; by rewrite apply_update_self|done..].
  cbn. apply apply_update_ok; [apply Hok|]. eapply Forall_impl; [exact Hh|]. by intros a [? _].
Qed.

Lemma handle_heartbeat_ok now from f st st' :
  daemon_ok st → handle_heartbeat now from f st = Ok st' → daemon_ok st'.
Proof.
  intros Hok. unfold handle_heartbeat. destruct (HeartbeatFrame_decode _) as [[hb rest]| |]; [|by intros [= <-]|done].
  destruct (_ =? 0); [destruct (negb _)|]; intros [= <-];
    (apply (daemon_ok_ext st); cbn; [|by rewrite ?update_gateway_load_self|done|done|done|apply insert_heard|exact Hok]);
    first [apply update_gateway_load_ok, Hok|apply Hok].
Qed.

Lemma handle_control_ok now from f st acts st' :
  daemon_ok st → handle_control answer iter_routes iter_peers now from f st = Ok (acts, st') → daemon_ok st'.
Proof.
  intros Hok. unfold handle_control. destruct (ControlFrame_decode _) as [[cf rest]| |]; [|by intros [= _ <-]|done].
  destruct cf as [dep| |nonce|nonce| |]; try by intros [= _ <-].
  - intros [= Heq]. apply (f_equal snd) in Heq. cbn [snd] in Heq. subst st'. by apply removed_ok.
  - intros [= Heq]. apply (f_equal snd) in Heq. cbn [snd] in Heq. subst st'.
    eapply only_buffer_ok; [apply send_buffered_only|done].
  - destruct (pending_pings st !! nonce) as [[gw at0]|]; intros [= _ <-]; [|done].
    apply (daemon_ok_ext st); cbn; [|by rewrite update_gateway_rtt_self|done..]. apply update_gateway_rtt_ok, Hok.
Qed.

Lemma handle_data_frame_ok now from f st acts st' :
  daemon_ok st → handle_data_frame answer now from f st = Ok (acts, st') → daemon_ok st'.
Proof.
  intros Hok. unfold handle_data_frame. intros ([e d] & Hd & H)%obind_Ok_inv. apply handle_data_peers in Hd as (Hr & Hs & Hp).
  assert (Hok' : daemon_ok (set_data d st)).
  { apply (daemon_ok_ext st); cbn; [rewrite Hr; apply Hok|by rewrite Hr|done|done|done|done|done]. }
  destruct e as [| | |src [[[] ?]| |]| | | | | |next frames]; try (by injection H as _ <-).
  match type of H with context [send_all answer now ?fs ?s0] => pose proof (send_all_only now fs s0) as Hb;
    destruct (send_all answer now fs s0) as [a st2] end.
  injection H as _ <-. by eapply only_buffer_ok.
Qed.

Lemma set_dial_ok d st : daemon_ok st → daemon_ok (set_dial d st).
Proof. intros []. by split. Qed.

Lemma handle_handshake_ok ip from f st acts st' :
  daemon_ok st → handle_handshake sha256 ip from f st = Ok (acts, st') → daemon_ok st'.
Proof.
  intros Hok. unfold handle_handshake. destruct (decode_handshake_wire f) as [wire| |]; [|by intros [= _ <-]|done].
  case_bool_decide; [by intros [= _ <-]|]. destruct wire as [[] ? ? ? ?|?]; try by intros [= _ <-].
  destruct ip as [ip|]; [|intros [= _ <-]; by apply set_dial_ok].
  destruct (pending_outbound _ !! ip) as [pending|]; [|intros [= _ <-]; by apply set_dial_ok].
  case_bool_decide; [intros [= _ <-]; by apply set_dial_ok|].
  destruct (bytes_gt _ _); intros [= _ <-]; [by do 2 apply set_dial_ok|done].
Qed.

Lemma handle_frame_ok now allowed ip from f st acts st' :
  bytes_ok (tf_payload f) → daemon_ok st →
  handle_frame digest sha256 answer iter_routes iter_peers now allowed ip from f st = Ok (acts, st') → daemon_ok st'.
Proof.
  intros Hb Hok. unfold handle_frame. destruct allowed; cbn [negb]; [|intros [= _ <-]; destruct Hok; by split].
  destruct (tf_frame_type f).
  - by apply handle_handshake_ok.
  - by apply handle_data_frame_ok.
  - intros (st1 & H1 & [= _ <-])%obind_Ok_inv. by eapply handle_route_update_ok.
  - intros (st1 & H1 & [= _ <-])%obind_Ok_inv. by eapply handle_heartbeat_ok.
  - by apply handle_control_ok.
  - by intros [= _ <-].
Qed.
End Proofs.

(** ** Runs of the daemon *)
Section Runs.
Context (digest : NodeId → list Z) (sha256 : list Z → list Z).
Context {A : Aead} {D : Ecdh} {K : HandshakeCrypto}.
Implicit Types (st : DaemonState) (p q : NodeId).

(** One event: a frame, a message of a handshake task, a tick of the background
    tasks, from whatever peer, even one that presents this node's own
    identifier.  Each is a step: its locks are not released in between. *)
Inductive daemon_step st : DaemonState → Prop :=
| StepFrame answer iter_routes iter_peers now allowed ip from f acts st' :
    bytes_ok (tf_payload f) →
    handle_frame digest sha256 answer iter_routes iter_peers now allowed ip from f st = Ok (acts, st') →
    daemon_step st st'
| StepInitiator answer now persisted sent key hs wire :
    daemon_step st (initiator_finish digest sha256 answer now persisted sent key hs wire st).2
| StepResponderStart persisted sent eph nonce wire :
    daemon_step st (responder_start sha256 persisted sent eph nonce wire st).2
| StepResponderFinish answer now p hs pk wire :
    daemon_step st (responder_finish digest answer now p hs pk wire st).2
| StepLiveness answer iter_routes iter_peers now iter_hb :
    daemon_step st (peer_liveness answer iter_routes iter_peers now iter_hb st).2
| StepRouteExpiry now age : daemon_step st (on_routing (λ t, (expire_stale now age t).2) st).

Lemma authorize_only persisted p st o st' : authorize persisted p st = (o, st') → st' = set_authorization (dm_authorization st') st.
Proof.
  unfold authorize. destruct (authorize_authenticated_peer _ _ _) as [d m]. by destruct d as [[]| |]; intros [= _ <-].
Qed.

Lemma set_authorization_ok a st : daemon_ok st → daemon_ok (set_authorization a st).
Proof. intros []. by split. Qed.

Lemma initiator_finish_ok answer now persisted sent key hs wire st :
  daemon_ok st → daemon_ok (initiator_finish digest sha256 answer now persisted sent key hs wire st).2.
Proof.
  intros Hok. unfold initiator_finish. destruct wire as [[] spub eph nonce sig|hmac]; try done.
  destruct (authorize _ _ _) as [o st1] eqn:Ea. apply authorize_only in Ea. rewrite Ea. set (a := dm_authorization st1).
  assert (Hok1 : daemon_ok (set_authorization a st)) by by apply set_authorization_ok.
  destruct o as [u| |]; [|done..]. destruct (finalize_initiator _ _) as [[u2| |] hs']; [|done..].
  destruct (make_confirm hs') as [c| |]; [|done..]. destruct sent; cbn [negb]; [|done].
  destruct (hs_session_key hs') as [k|]; [|done].
  match goal with |- context [establish_session digest answer now ?p ?s ?pk ?st0] =>
    pose proof (establish_session_spec digest answer now p s pk st0) as He;
    destruct (establish_session digest answer now p s pk st0) as [acts st2] end.
  cbn [snd] in *. by eapply established_ok.
Qed.

Lemma responder_finish_ok answer now p hs pk wire st :
  daemon_ok st → daemon_ok (responder_finish digest answer now p hs pk wire st).2.
Proof.
  intros Hok. unfold responder_finish. destruct wire; [done|]. destruct (verify_confirm _ _); [|done..].
  destruct (hs_session_key hs) as [k|]; [|done].
  match goal with |- context [establish_session digest answer now ?p ?s ?pk ?st0] =>
    pose proof (establish_session_spec digest answer now p s pk st0) as He;
    destruct (establish_session digest answer now p s pk st0) as [acts st2] end.
  cbn [snd] in *. by eapply established_ok.
Qed.

Lemma responder_start_ok persisted sent eph nonce wire st :
  daemon_ok st → daemon_ok (responder_start sha256 persisted sent eph nonce wire st).2.
Proof.
  intros Hok. unfold responder_start. destruct wire as [[] spub e n sig|hmac]; try done.
  destruct (authorize _ _ _) as [o st1] eqn:Ea. apply authorize_only in Ea. rewrite Ea.
  destruct o as [u| |]; [destruct (respond _ _ _ _) as [[r| |] hs']; [destruct sent|..]|..]; cbn [negb snd]; by apply set_authorization_ok.
Qed.

Lemma daemon_step_ok st st' : daemon_step st st' → daemon_ok st → daemon_ok st'.
Proof.
  destruct 1; eauto using handle_frame_ok, initiator_finish_ok, responder_finish_ok, responder_start_ok, peer_liveness_ok.
  intros Hok. apply (daemon_ok_ext st); [apply remove_where_ok, Hok| |done..|exact Hok].
  cbn. unfold expire_stale. by rewrite (sc_self_id _ _ (remove_where_config _ _)).
Qed.

(** C19: The daemon's invariant: whatever frames arrive from whatever peers, and
    in whatever order the handlers of frames, of handshake messages and of
    timers run, each to its end before the next, the routing table keeps its
    invariant, and there is a session with a peer exactly when the daemon has
    the key to check its route updates, and then the peer is watched for
    silence. *)
Theorem daemon_invariant st st' : daemon_ok st → rtc daemon_step st st' → daemon_ok st'.
Proof. intros Hok Hr. induction Hr; eauto using daemon_step_ok. Qed.

(** C27: Route updates are authenticated: the event loop changes its state on a
    route update only when the peer's session key is known, the signature in
    the frame is not the all-zero one and verifies under that key for the
    update the frame carries; then the routes change as that update says, and
    nothing else of the state changes.  And of the updates the peer has issued,
    the one applied has the origin, sequence number and entries of one, unless
    this very signature verifies for bytes the peer never signed. *)
Theorem route_updates_authenticated now from f st st' issued :
  bytes_ok (tf_payload f) → Forall RouteUpdateFrame_wf issued →
  handle_route_update digest now from f st = Ok st' →
  st' = st ∨
  ∃ u rest pk, RouteUpdateFrame_decode (tf_payload f) = Ok (u, rest) ∧ peer_pubkeys st !! from = Some pk ∧ ed_valid_key pk = true ∧
    ru_signature u ≠ replicate 64 0 ∧ ed_verify pk (signing_bytes u) (ru_signature u) = true ∧
    st' = on_routing (λ t, (apply_update digest now u from t).2) st ∧
    ((∃ g, g ∈ issued ∧ ru_origin_id u = ru_origin_id g ∧ ru_sequence u = ru_sequence g ∧ ru_entries u = ru_entries g) ∨
     signing_bytes u ∉ map signing_bytes issued).
Proof.
  intros Hb Hi. unfold handle_route_update. destruct (RouteUpdateFrame_decode _) as [[u rest]| |] eqn:E; [|intros [= <-]; by left|done].
  destruct (RouteUpdateFrame_decode_wf _ _ _ Hb E) as [Hwf _].
  destruct (peer_pubkeys st !! from) as [pk|] eqn:Ep; [|intros [= <-]; by left].
  destruct (ed_valid_key pk) eqn:Ek; [|intros [= <-]; by left].
  unfold verify_route_update. case_bool_decide as Hz; [intros [= <-]; by left|].
  destruct (ed_verify pk _ _) eqn:Ev; intros [= <-]; [|by left]. right. exists u, rest, pk. split_and!; try done.
  destruct (decide (signing_bytes u ∈ map signing_bytes issued)) as [Hin|]; [left|by right].
  apply list_elem_of_fmap in Hin as (g & Heq & Hg). exists g. split; [done|].
  rewrite Forall_forall in Hi. rewrite (signing_bytes_determine g u) by auto. done.
Qed.
End Runs.

(** ** Silent peers *)
Section Liveness.
Context {K : HandshakeCrypto}.
Context (answer : NodeId → TransportFrame → SendResult).
Context (iter_routes : gmap NodeId RouteTableEntry → list (NodeId * RouteTableEntry)).
Context (iter_peers : gset NodeId → list NodeId).
Implicit Types (st : DaemonState) (p q : NodeId).

(** The peers [ps] are gone and have one more failure on record. *)
Record silenced (ps : list NodeId) st st' : Prop := {
  sl_sessions : ∀ q, dm_sessions st' !! q = if bool_decide (q ∈ ps) then None else dm_sessions st !! q;
  sl_pubkeys : ∀ q, peer_pubkeys st' !! q = if bool_decide (q ∈ ps) then None else peer_pubkeys st !! q;
  sl_last_hb : ∀ q, peer_last_hb st' !! q = if bool_decide (q ∈ ps) then None else peer_last_hb st !! q;
  sl_routes : ∀ d e, routes (dm_routing st') !! d = Some e → routes (dm_routing st) !! d = Some e ∧ rt_next_hop e ∉ ps;
  sl_scores : ∀ q, default 0 (dm_reputation st' !! q) =
    if bool_decide (q ∈ ps) then Z.min (default 0 (dm_reputation st !! q) + 1) u32_MAX else default 0 (dm_reputation st !! q);
  sl_blacklist : ∀ q, q ∈ ps → default 0 (dm_reputation st' !! q) = BLACKLIST_THRESHOLD → q ∈ blacklisted_peers (dm_routing st');
  sl_kept : blacklisted_peers (dm_routing st) ⊆ blacklisted_peers (dm_routing st');
}.

Lemma remove_peer_lookup p t d e :
  routes (remove_peer p t).2 !! d = Some e → routes t !! d = Some e ∧ rt_next_hop e ≠ p.
Proof.
  unfold remove_peer, remove_routes_via. rewrite remove_where_lookup. cbn.
  destruct (routes t !! d) as [e0|]; [|done]. case_bool_decide; naive_solver.
Qed.

Lemma remove_peer_blacklist p t : blacklisted_peers (remove_peer p t).2 = blacklisted_peers t.
Proof. unfold remove_peer, remove_routes_via. by rewrite (sc_blacklist _ _ (remove_where_config _ _)). Qed.

Lemma blacklist_peer_lookup p t d e : routes (blacklist_peer p t).2 !! d = Some e → routes t !! d = Some e.
Proof.
  unfold blacklist_peer, remove_routes_via. rewrite remove_where_lookup. cbn.
  destruct (routes t !! d) as [e0|]; [|done]. case_bool_decide; naive_solver.
Qed.

Lemma blacklist_peer_blacklist p t : blacklisted_peers (blacklist_peer p t).2 = {[p]} ∪ blacklisted_peers t.
Proof. unfold blacklist_peer, remove_routes_via. by rewrite (sc_blacklist _ _ (remove_where_config _ _)). Qed.

Lemma liveness_remove_silenced now p st :
  silenced [p] st (liveness_remove answer iter_routes iter_peers now p st).2.
Proof.
  unfold liveness_remove. destruct (daemon_remove_peer_spec answer iter_routes iter_peers now p st) as (Hrm & Hbl & _ & _).
  destruct (daemon_remove_peer _ _ _ _ _ _) as [acts st1]. cbn [snd] in *. destruct Hrm as [Es Ep Eh _ Er Erep _].
  rewrite remove_peer_blacklist in Hbl.
  assert (Hdel : ∀ {V} (m : gmap NodeId V) q, delete p m !! q = if bool_decide (q ∈ [p]) then None else m !! q).
  { intros V m q. destruct (decide (q = p)) as [->|].
    - rewrite lookup_delete_eq, bool_decide_eq_true_2 by set_solver. done.
    - rewrite lookup_delete_ne, bool_decide_eq_false_2 by set_solver. done. }
  assert (Hsc : ∀ q, default 0 (<[p := Z.min (default 0 (dm_reputation st !! p) + 1) u32_MAX]> (dm_reputation st) !! q) =
    if bool_decide (q ∈ [p]) then Z.min (default 0 (dm_reputation st !! q) + 1) u32_MAX else default 0 (dm_reputation st !! q)).
  { intros q. destruct (decide (q = p)) as [->|].
    - rewrite lookup_insert_eq, bool_decide_eq_true_2 by set_solver. done.
    - rewrite lookup_insert_ne, bool_decide_eq_false_2 by set_solver. done. }
  unfold record_failure. rewrite Erep. cbv zeta. cbn [snd].
  destruct (Z.eqb_spec (Z.min (default 0 (dm_reputation st !! p) + 1) u32_MAX) BLACKLIST_THRESHOLD) as [Hb|Hb]; split;
    try (intros q; cbn; rewrite ?Es, ?Ep, ?Eh; by apply Hdel); try (intros q; cbn; by apply Hsc).
  - intros d e He%blacklist_peer_lookup. cbn in He. rewrite Er in He. apply remove_peer_lookup in He. set_solver.
  - intros q Hq _. apply list_elem_of_singleton in Hq as ->. cbn. rewrite blacklist_peer_blacklist. set_solver.
  - cbn. rewrite blacklist_peer_blacklist. cbn. rewrite Hbl. set_solver.
  - intros d e He. cbn in He. rewrite Er in He. apply remove_peer_lookup in He. set_solver.
  - intros q Hq Hth. apply list_elem_of_singleton in Hq as ->. cbn in Hth. rewrite lookup_insert_eq in Hth. done.
  - cbn. by rewrite Hbl.
Qed.

Lemma silenced_cons q ps st st1 st2 :
  q ∉ ps → silenced [q] st st1 → silenced ps st1 st2 → silenced (q :: ps) st st2.
Proof.
  intros Hq [A1 A2 A3 A4 A5 A6 A7] [B1 B2 B3 B4 B5 B6 B7].
  assert (Hmap : ∀ {V} (f f1 f2 : gmap NodeId V), (∀ x, f1 !! x = if bool_decide (x ∈ [q]) then None else f !! x) →
    (∀ x, f2 !! x = if bool_decide (x ∈ ps) then None else f1 !! x) →
    ∀ x, f2 !! x = if bool_decide (x ∈ q :: ps) then None else f !! x).
  { intros V f f1 f2 H1 H2 x. rewrite H2, H1. repeat case_bool_decide; set_solver. }
  split; [by eapply Hmap|by eapply Hmap|by eapply Hmap| | | |set_solver].
  - intros d e He. apply B4 in He as [He Hn]. apply A4 in He as [He Hn']. set_solver.
  - intros x. rewrite B5, A5. repeat case_bool_decide; set_solver.
  - intros x [->|Hx]%elem_of_cons Hth; [|auto]. apply B7, A6; [set_solver|]. rewrite B5 in Hth. by rewrite bool_decide_eq_false_2 in Hth.
Qed.

Lemma liveness_remove_all_silenced now ps st :
  NoDup ps → silenced ps st (liveness_remove_all answer iter_routes iter_peers now ps st).2.
Proof.
  revert st. induction ps as [|q ps IH]; intros st Hnd; cbn [liveness_remove_all].
  { split; try (intros q; rewrite bool_decide_eq_false_2 by set_solver; done); try done; set_solver. }
  apply NoDup_cons in Hnd as [Hq Hnd]. pose proof (liveness_remove_silenced now q st) as H1.
  destruct (liveness_remove _ _ _ _ _ _) as [a st1]. cbn [snd] in H1. pose proof (IH st1 Hnd) as H2.
  destruct (liveness_remove_all _ _ _ _ _ _) as [a' st2]. cbn [snd] in *. by eapply silenced_cons.
Qed.

(** The peers that are removed are those that were silent for too long. *)
Lemma peer_liveness_silenced now iter_hb st :
  iter_hb ≡ₚ map_to_list (peer_last_hb st) →
  ∃ ps, (∀ p, p ∈ ps ↔ ∃ last, peer_last_hb st !! p = Some last ∧ LIVENESS_TIMEOUT < elapsed now last) ∧
    silenced ps st (peer_liveness answer iter_routes iter_peers now iter_hb st).2.
Proof.
  intros Hi. unfold peer_liveness.
  set (ps := map fst (List.filter (λ p : NodeId * Z, LIVENESS_TIMEOUT <? elapsed now p.2) iter_hb)).
  assert (Hnd : NoDup ps).
  { unfold ps. assert (Hf : NoDup (map fst iter_hb)).
    { change (NoDup (iter_hb.*1)). rewrite Hi. apply NoDup_fst_map_to_list. }
    clear -Hf. induction iter_hb as [|[k t] l IH]; [constructor|]. cbn [map List.filter fst snd] in *. apply NoDup_cons in Hf as [Hk Hf].
    destruct (_ <? _); cbn [map fst]; [|auto]. apply NoDup_cons. split; [|auto]. intros Hin. apply Hk.
    apply list_elem_of_fmap in Hin as ([k' t'] & -> & Hin%list_elem_of_In). apply filter_In in Hin as [Hin _].
    apply list_elem_of_fmap. exists (k', t'). split; [done|]. by apply list_elem_of_In. }
  exists ps. split; [|by apply liveness_remove_all_silenced]. intros p.
  unfold ps. rewrite list_elem_of_fmap. split.
  - intros ([k t] & -> & Hk%list_elem_of_In). apply filter_In in Hk as [Hk Ht]. exists t. split; [|by apply Z.ltb_lt].
      apply list_elem_of_In in Hk. rewrite Hi in Hk. by apply elem_of_map_to_list.
  - intros (last & Hl & Ht). exists (p, last). split; [done|]. apply list_elem_of_In, filter_In. split; [|by apply Z.ltb_lt].
      apply list_elem_of_In. rewrite Hi. by apply elem_of_map_to_list.
Qed.

(** Silent peers: a tick of the liveness task removes exactly the peers not
    heard from for more than 15 seconds: their session and key are gone, no
    route goes through them, each has one more failure on record and is
    blacklisted when that reaches the threshold; every other peer keeps its
    session, its key and its score. *)
Theorem liveness_exact now iter_hb st p :
  iter_hb ≡ₚ map_to_list (peer_last_hb st) →
  let st' := (peer_liveness answer iter_routes iter_peers now iter_hb st).2 in
  if match peer_last_hb st !! p with Some last => LIVENESS_TIMEOUT <? elapsed now last | None => false end
  then dm_sessions st' !! p = None ∧ peer_pubkeys st' !! p = None ∧ peer_last_hb st' !! p = None ∧
       (∀ d e, routes (dm_routing st') !! d = Some e → rt_next_hop e ≠ p) ∧
       default 0 (dm_reputation st' !! p) = Z.min (default 0 (dm_reputation st !! p) + 1) u32_MAX ∧
       (default 0 (dm_reputation st' !! p) = BLACKLIST_THRESHOLD → p ∈ blacklisted_peers (dm_routing st'))
  else dm_sessions st' !! p = dm_sessions st !! p ∧ peer_pubkeys st' !! p = peer_pubkeys st !! p ∧
       default 0 (dm_reputation st' !! p) = default 0 (dm_reputation st !! p).
Proof.
  intros Hi st'. unfold st'. destruct (peer_liveness_silenced now iter_hb st Hi) as (ps & Hin & [S1 S2 S3 S4 S5 S6 _]).
  specialize (Hin p). clear st'.
  destruct (peer_last_hb st !! p) as [last|] eqn:El; [destruct (Z.ltb_spec LIVENESS_TIMEOUT (elapsed now last)) as [Ht|Ht]|].
  - assert (Hp : p ∈ ps) by (apply Hin; eauto). rewrite S1, S2, S3, S5, bool_decide_eq_true_2 by done. split_and!; try done.
    + intros d e He. apply S4 in He as [_ Hn]. intros Heq. apply Hn. by rewrite Heq.
    + intros Hth. apply S6; [done|]. by rewrite S5, bool_decide_eq_true_2 by done.
  - assert (Hp : p ∉ ps) by (intros (? & ? & ?)%Hin; simplify_eq; lia). by rewrite S1, S2, S5, bool_decide_eq_false_2 by done.
  - assert (Hp : p ∉ ps) by (intros (? & ? & ?)%Hin; simplify_eq). by rewrite S1, S2, S5, bool_decide_eq_false_2 by done.
Qed.
End Liveness.

(** ** Two daemons meet *)
Section Meeting.
Context (digest : NodeId → list Z) (sha256 : list Z → list Z).
Context {A : Aead} {D : Ecdh} {K : HandshakeCrypto} {HD : LawfulEcdh D} {HK : LawfulHandshakeCrypto K}.
Context (answerA answerB : NodeId → TransportFrame → SendResult).
Implicit Types (st stA stB : DaemonState).

(** The node whose key is derived from the daemon's seed. *)
Definition identity st : NodeId := from_public_key sha256 (ed_public (cfg_seed (dm_config st))).

Definition accepts_peer persisted p st : Prop := (authorize persisted p st).1 = Ok ().

Lemma accepts_peer_inv persisted p st :
  accepts_peer persisted p st → ∃ a, authorize persisted p st = (Ok (), set_authorization a st).
Proof.
  unfold accepts_peer. destruct (authorize persisted p st) as [o st'] eqn:E. cbn. intros ->.
  apply authorize_only in E. exists (dm_authorization st'). by rewrite <- E.
Qed.

(** Node A dials node B and calls itself [claimed] on the connection. *)
Lemma meeting nowA nowB pA pB key claimed stA stB ea na eb nb :
  length na = 32%nat → cfg_mesh_handshake_key (dm_config stA) = cfg_mesh_handshake_key (dm_config stB) →
  accepts_peer pA (identity stB) stA → accepts_peer pB (identity stA) stB →
  let '(wire1, hsA) := initiator_start ea na stA in
  ∃ wire2 hsB stB1 hmac actsA stA2 actsB stB2 k,
    responder_start sha256 pB true eb nb wire1 stB = (Ok (wire2, hsB, ed_public (cfg_seed (dm_config stA))), stB1) ∧
    initiator_finish digest sha256 answerA nowA pA true key hsA wire2 stA =
      (Ok (identity stB, Send key (handshake_frame (Confirm hmac)) :: actsA), stA2) ∧
    responder_finish digest answerB nowB claimed hsB (ed_public (cfg_seed (dm_config stA))) (Confirm hmac) stB1 = (Ok actsB, stB2) ∧
    length k = 32%nat ∧
    established digest nowA (identity stB) (initiator_session k (identity stB)) (ed_public (cfg_seed (dm_config stB)))
      (set_authorization (dm_authorization stA2) stA) stA2 ∧
    established digest nowB claimed (responder_session k claimed) (ed_public (cfg_seed (dm_config stA)))
      (set_authorization (dm_authorization stB2) stB) stB2.
Proof.
  intros Hn Hmk HaA HaB. unfold initiator_start.
  pose proof (handshake_completes (cfg_seed (dm_config stA)) (cfg_seed (dm_config stB)) (cfg_mesh_handshake_key (dm_config stA))
    ea na eb nb Hn) as Hc.
  destruct (initiate ea na _) as [init a1] eqn:Ei.
  destruct Hc as (resp & b1 & a2 & c & k & Hr & Hf & Hcf & Hv & Hk1 & Hk2 & Hlen & Hp1 & Hp2).
  apply accepts_peer_inv in HaA as [autA HaA]. apply accepts_peer_inv in HaB as [autB HaB].
  assert (Hinit : init = {| hi_sender_pub := hi_sender_pub init; hi_ephemeral_pub := hi_ephemeral_pub init;
    hi_nonce := hi_nonce init; hi_signature := hi_signature init |}) by by destruct init.
  assert (Hresp : resp = {| hr_sender_pub := hr_sender_pub resp; hr_ephemeral_pub := hr_ephemeral_pub resp;
    hr_nonce := hr_nonce resp; hr_signature := hr_signature resp |}) by by destruct resp.
  pose proof (establish_session_spec digest answerA nowA (identity stB) (initiator_session k (identity stB)) (hr_sender_pub resp)
    (set_authorization autA stA)) as HeA.
  destruct (establish_session digest answerA nowA _ _ _ _) as [actsA stA2] eqn:EA. cbn [snd] in HeA.
  pose proof (establish_session_spec digest answerB nowB claimed (responder_session k claimed) (ed_public (cfg_seed (dm_config stA)))
    (set_authorization autB stB)) as HeB.
  destruct (establish_session digest answerB nowB _ _ _ _) as [actsB stB2] eqn:EB. cbn [snd] in HeB.
  unfold responder_start, initiator_finish. rewrite Hp1. fold (identity stA). rewrite HaB. rewrite <- Hp1, <- Hinit.
  rewrite <- Hmk, Hr. cbn [negb].
  eexists _, b1, _, (hc_hmac c), _, stA2, actsB, stB2, k. split; [reflexivity|].
  rewrite Hp2. fold (identity stB). rewrite HaA. rewrite <- Hp2, <- Hresp, Hf, Hcf. cbn [negb]. rewrite Hk1, EA.
  unfold responder_finish. assert ({| hc_hmac := hc_hmac c |} = c) as -> by by destruct c. rewrite Hv, Hk2, Hp1, EB.
  split; [reflexivity|]. split; [reflexivity|]. split; [done|].
  rewrite (es_authorization _ _ _ _ _ _ _ HeA), (es_authorization _ _ _ _ _ _ _ HeB). cbn [dm_authorization set_authorization].
  split; [exact HeA|exact HeB].
Qed.

Lemma established_route now p session pk st st' :
  established digest now p session pk st st' → p ≠ self_id (dm_routing st) → lookup_route p (dm_routing st') = Some p.
Proof.
  intros He Hp. rewrite (es_routing _ _ _ _ _ _ _ He). unfold lookup_route.
  assert (Hs : self_id (unblacklist_peer p (add_peer digest now p (dm_routing st))) = self_id (dm_routing st)).
  { unfold unblacklist_peer, add_peer. cbn [self_id set_blacklist]. by rewrite (sc_self_id _ _ (insert_route_config digest _ _ _)). }
  rewrite Hs, bool_decide_eq_false_2 by done. unfold unblacklist_peer, add_peer. cbn [routes set_blacklist blacklisted_peers].
  rewrite insert_route_routes, lookup_insert_eq. cbn [with_mesh_ip rt_next_hop peer_entry].
  rewrite bool_decide_eq_false_2 by set_solver. done.
Qed.

Lemma sessions_paired k p q : length k = 32%nat →
  paired (initiator_session k p) (responder_session k q) ∧ paired (responder_session k q) (initiator_session k p).
Proof.
  intros Hk. unfold paired, initiator_session, responder_session, session_nonce_prefix, SessionCipher_new. cbn.
  rewrite !length_take, ?length_drop, Hk. split_and!; try done; by left.
Qed.

(** C5: Two daemons of the same mesh that authorize each other meet: the three
    handshake messages are accepted, each ends with a session under the
    other's identity and with the other's key, the two sessions open what the
    other seals in both directions, and each routes straight to the other even
    if it had been blacklisted before. *)
Theorem daemons_meet nowA nowB pA pB key stA stB ea na eb nb :
  length na = 32%nat → cfg_mesh_handshake_key (dm_config stA) = cfg_mesh_handshake_key (dm_config stB) →
  accepts_peer pA (identity stB) stA → accepts_peer pB (identity stA) stB →
  identity stB ≠ self_id (dm_routing stA) → identity stA ≠ self_id (dm_routing stB) →
  let '(wire1, hsA) := initiator_start ea na stA in
  ∃ wire2 hsB pkA stB1 hmac actsA stA2 actsB stB2 sA sB,
    responder_start sha256 pB true eb nb wire1 stB = (Ok (wire2, hsB, pkA), stB1) ∧
    initiator_finish digest sha256 answerA nowA pA true key hsA wire2 stA =
      (Ok (identity stB, Send key (handshake_frame (Confirm hmac)) :: actsA), stA2) ∧
    responder_finish digest answerB nowB (identity stA) hsB pkA (Confirm hmac) stB1 = (Ok actsB, stB2) ∧
    (dm_sessions stA2 !! identity stB = Some sA ∧ dm_sessions stB2 !! identity stA = Some sB ∧ paired sA sB ∧ paired sB sA) ∧
    (peer_pubkeys stA2 !! identity stB = Some (ed_public (cfg_seed (dm_config stB))) ∧
     peer_pubkeys stB2 !! identity stA = Some (ed_public (cfg_seed (dm_config stA)))) ∧
    lookup_route (identity stB) (dm_routing stA2) = Some (identity stB) ∧
    lookup_route (identity stA) (dm_routing stB2) = Some (identity stA).
Proof.
  intros Hn Hmk HaA HaB HnA HnB.
  pose proof (meeting nowA nowB pA pB key (identity stA) stA stB ea na eb nb Hn Hmk HaA HaB) as Hm.
  destruct (initiator_start ea na stA) as [wire1 hsA].
  destruct Hm as (wire2 & hsB & stB1 & hmac & actsA & stA2 & actsB & stB2 & k & H1 & H2 & H3 & Hk & HeA & HeB).
  destruct (sessions_paired k (identity stB) (identity stA) Hk) as [Hp1 Hp2].
  eexists wire2, hsB, _, stB1, hmac, actsA, stA2, actsB, stB2, _, _.
  rewrite (es_sessions _ _ _ _ _ _ _ HeA), (es_sessions _ _ _ _ _ _ _ HeB), (es_pubkeys _ _ _ _ _ _ _ HeA),
    (es_pubkeys _ _ _ _ _ _ _ HeB), !lookup_insert_eq.
  split; [exact H1|]. split; [exact H2|]. split; [exact H3|]. split; [by split_and!|]. split; [done|].
  split; [by eapply established_route|by eapply established_route].
Qed.

(** The identity a peer claims on its connection is not checked: a node
    that is authorized under its own key and calls itself [victim] completes
    the handshake, and the responder files the session, the signing key and a
    direct route under [victim], in place of whatever the victim had. *)
Theorem claimed_identity_unchecked nowA nowB pA pB key victim stA stB ea na eb nb :
  length na = 32%nat → cfg_mesh_handshake_key (dm_config stA) = cfg_mesh_handshake_key (dm_config stB) →
  accepts_peer pA (identity stB) stA → accepts_peer pB (identity stA) stB → victim ≠ self_id (dm_routing stB) →
  let '(wire1, hsA) := initiator_start ea na stA in
  ∃ wire2 hsB pkA stB1 hmac actsA stA2 actsB stB2,
    responder_start sha256 pB true eb nb wire1 stB = (Ok (wire2, hsB, pkA), stB1) ∧
    initiator_finish digest sha256 answerA nowA pA true key hsA wire2 stA =
      (Ok (identity stB, Send key (handshake_frame (Confirm hmac)) :: actsA), stA2) ∧
    responder_finish digest answerB nowB victim hsB pkA (Confirm hmac) stB1 = (Ok actsB, stB2) ∧
    is_Some (dm_sessions stB2 !! victim) ∧
    peer_pubkeys stB2 !! victim = Some (ed_public (cfg_seed (dm_config stA))) ∧
    lookup_route victim (dm_routing stB2) = Some victim.
Proof.
  intros Hn Hmk HaA HaB HnB.
  pose proof (meeting nowA nowB pA pB key victim stA stB ea na eb nb Hn Hmk HaA HaB) as Hm.
  destruct (initiator_start ea na stA) as [wire1 hsA].
  destruct Hm as (wire2 & hsB & stB1 & hmac & actsA & stA2 & actsB & stB2 & k & H1 & H2 & H3 & Hk & HeA & HeB).
  eexists wire2, hsB, _, stB1, hmac, actsA, stA2, actsB, stB2.
  rewrite (es_sessions _ _ _ _ _ _ _ HeB), (es_pubkeys _ _ _ _ _ _ _ HeB), !lookup_insert_eq.
  split; [exact H1|]. split; [exact H2|]. split; [exact H3|]. split; [eauto|]. split; [done|by eapply established_route].
Qed.
End Meeting.

(** ** Dialling each other at once *)
Lemma bytes_gt_antisym a b : length a = length b → a ≠ b → bytes_gt a b = negb (bytes_gt b a).
Proof.
  revert b. induction a as [|x a IH]; intros [|y b]; cbn; try done. intros [= Hl] Hne.
  rewrite (Z.eqb_sym y x). destruct (Z.eqb_spec x y) as [->|Hxy]; [apply IH; [done|congruence]|].
  destruct (Z.ltb_spec y x), (Z.ltb_spec x y); done || lia.
Qed.

Section Simultaneous.
Context (sha256 : list Z → list Z) {K : HandshakeCrypto}.
Implicit Types (st stA stB : DaemonState).

(** An Init of another node arrives over the connection [from], while this
    node's own attempt, known to the transport as [po_transport_key pending],
    to the same address is under way. *)
Definition crossing ip from pending st : Prop :=
  pending_outbound (dm_dial st) !! ip = Some pending ∧ po_transport_key pending ≠ from ∧ from ∉ hs_channels (dm_dial st).

(** C36: Dialling each other at once: when two nodes receive each other's Init
    while each has an attempt to the other under way, exactly one of the two
    connections survives: one node answers the incoming one and gives up its
    own, the other drops the incoming one and keeps its own. *)
Theorem simultaneous_connect ipA ipB fromA fromB pendA pendB stA stB fA fB wA wB pkA pkB eA eB nA nB sA sB :
  crossing ipB fromB pendA stA → crossing ipA fromA pendB stB →
  wA = InitOrResponse HsInit pkA eA nA sA → wB = InitOrResponse HsInit pkB eB nB sB →
  decode_handshake_wire fA = Ok wA → decode_handshake_wire fB = Ok wB →
  ds_self_id (dm_data stA) = from_public_key sha256 pkA → ds_self_id (dm_data stB) = from_public_key sha256 pkB →
  node_id_wf (from_public_key sha256 pkA) → node_id_wf (from_public_key sha256 pkB) →
  from_public_key sha256 pkA ≠ from_public_key sha256 pkB →
  ∃ actsA stA' actsB stB',
    handle_handshake sha256 (Some ipB) fromB fB stA = Ok (actsA, stA') ∧
    handle_handshake sha256 (Some ipA) fromA fA stB = Ok (actsB, stB') ∧
    ((actsA = [Disconnect (po_transport_key pendA); SpawnResponder fromB wB] ∧ actsB = [Disconnect fromA] ∧ stB' = stB ∧
      pending_outbound (dm_dial stA') !! ipB = None) ∨
     (actsB = [Disconnect (po_transport_key pendB); SpawnResponder fromA wA] ∧ actsA = [Disconnect fromB] ∧ stA' = stA ∧
      pending_outbound (dm_dial stB') !! ipA = None)).
Proof using Type.
  intros (HpA & HkA & HcA) (HpB & HkB & HcB) -> -> HfA HfB HsA HsB HwA HwB Hne.
  assert (Hgt : bytes_gt (as_bytes (from_public_key sha256 pkA)) (as_bytes (from_public_key sha256 pkB)) =
    negb (bytes_gt (as_bytes (from_public_key sha256 pkB)) (as_bytes (from_public_key sha256 pkA)))).
  { apply bytes_gt_antisym; [by rewrite (proj1 HwA), (proj1 HwB)|]. intros Heq. apply Hne.
    destruct (from_public_key sha256 pkA), (from_public_key sha256 pkB). cbn in Heq. congruence. }
  unfold handle_handshake. rewrite HfA, HfB, HpA, HpB, HsA, HsB. rewrite !bool_decide_eq_false_2 by done.
  unfold cancel_pending_outbound_for_ip. rewrite HpA, HpB, Hgt.
  clear Hgt. destruct (bytes_gt (as_bytes (from_public_key sha256 pkB)) _); cbn [negb];
    eexists _, _, _, _; (split; [reflexivity|]); (split; [reflexivity|]).
  - right. split_and!; try done. cbn. by rewrite lookup_delete_eq.
  - left. split_and!; try done. cbn. by rewrite lookup_delete_eq.
Qed.
End Simultaneous.

(** ** Goodbye is not checked either *)
Section Goodbye.
Context {K : HandshakeCrypto}.
Context (answer : NodeId → TransportFrame → SendResult).
Context (iter_routes : gmap NodeId RouteTableEntry → list (NodeId * RouteTableEntry)).
Context (iter_peers : gset NodeId → list NodeId).

(** Any connected peer, even before a handshake, ends the session with any
    other by a Goodbye in its name. *)
Theorem goodbye_unauthenticated now from victim st :
  node_id_wf victim →
  ∃ acts st', handle_control answer iter_routes iter_peers now from
      (plain_frame FrameControl (ControlFrame_encode (Goodbye victim 0) [])) st = Ok (acts, st') ∧
    dm_sessions st' !! victim = None ∧ peer_pubkeys st' !! victim = None ∧
    ∀ d e, routes (dm_routing st') !! d = Some e → rt_next_hop e ≠ victim.
Proof.
  intros Hv. unfold handle_control, plain_frame. cbn [tf_payload].
  pose proof (ControlFrame_roundtrip (Goodbye victim 0) []) as Hr. rewrite app_nil_r in Hr. rewrite Hr by exact (proj1 Hv).
  destruct (daemon_remove_peer_spec answer iter_routes iter_peers now victim st) as ([Es Ep _ _ Er _ _] & _).
  destruct (daemon_remove_peer _ _ _ _ _ _) as [acts st']. cbn [snd] in *. exists acts, st'. split; [done|].
  rewrite Es, Ep, !lookup_delete_eq. split_and!; try done. intros d e He. rewrite Er in He. by apply remove_peer_lookup in He as [_ ?].
Qed.
End Goodbye.

(** ** Samples to evaluate on *)
#[local] Existing Instance null_aead.
#[local] Existing Instance toy_ecdh.
#[local] Existing Instance toy_crypto.

(** The first bytes of the key stand for its hash. *)
Definition sample_hash (key : list Z) : list Z := key.
Definition sample_identity (k : Z) : NodeId := from_public_key sample_hash (pad32 [k]).
Definition sample_answer (p : NodeId) (f : TransportFrame) : SendResult := SendOk.
Definition sample_dial : DialState :=
  {| hs_channels := ∅; pending_outbound := ∅; cancelled_outbounds := ∅; dial_reconnect := ReconnectManager_new ∅ |}.
Definition sample_daemon (k : Z) : DaemonState :=
  MkDaemon {| cfg_seed := [k]; cfg_own_x25519_pub := replicate 32 k; cfg_node_name := [110];
              cfg_mesh_handshake_key := Some (replicate 32 9) |}
    (sample_state (sample_identity k) [] (RoutingTable_new (sample_identity k) false {| v4_network := 0x0a4d0000; v4_prefix_len := 16 |}))
    (AuthorizationManager_new TrustOnFirstUse ∅ ∅) ∅ ∅ ∅ (SendBuffer_new 16 1000) 0 ∅ ∅ sample_dial.

Lemma daemons_meet_witness :
  let '(wire1, hsA) := initiator_start [3] (replicate 32 4) (sample_daemon 1) in
  ∃ wire2 hsB pkA stB1 actsA stA2 sA,
    responder_start sample_hash true true [5] (replicate 32 6) wire1 (sample_daemon 2) = (Ok (wire2, hsB, pkA), stB1) ∧
    initiator_finish sample_digest sample_hash sample_answer 10 true true (sample_id 9) hsA wire2 (sample_daemon 1) =
      (Ok (sample_identity 2, actsA), stA2) ∧ dm_sessions stA2 !! sample_identity 2 = Some sA.
Proof.
  pose proof (daemons_meet sample_digest sample_hash sample_answer sample_answer 10 20 true true (sample_id 9)
    (sample_daemon 1) (sample_daemon 2) [3] (replicate 32 4) [5] (replicate 32 6) eq_refl eq_refl eq_refl eq_refl) as H.
  specialize (H ltac:(intros Heq; vm_compute in Heq; discriminate) ltac:(intros Heq; vm_compute in Heq; discriminate)).
  destruct (initiator_start [3] (replicate 32 4) (sample_daemon 1)) as [wire1 hsA].
  destruct H as (wire2 & hsB & pkA & stB1 & hmac & actsA & stA2 & actsB & stB2 & sA & sB & H1 & H2 & _ & (H3 & _) & _).
  eexists wire2, hsB, pkA, stB1, _, stA2, sA. split; [exact H1|]. split; [exact H2|exact H3].
Defined.

Lemma claimed_identity_unchecked_witness :
  ∃ stB2, peer_pubkeys stB2 !! sample_id 77 = Some (pad32 [1]) ∧ lookup_route (sample_id 77) (dm_routing stB2) = Some (sample_id 77).
Proof.
  pose proof (claimed_identity_unchecked sample_digest sample_hash sample_answer sample_answer 10 20 true true (sample_id 9) (sample_id 77)
    (sample_daemon 1) (sample_daemon 2) [3] (replicate 32 4) [5] (replicate 32 6) eq_refl eq_refl eq_refl eq_refl) as H.
  specialize (H ltac:(intros Heq; vm_compute in Heq; discriminate)).
  destruct (initiator_start [3] (replicate 32 4) (sample_daemon 1)) as [wire1 hsA].
  destruct H as (wire2 & hsB & pkA & stB1 & hmac & actsA & stA2 & actsB & stB2 & _ & _ & _ & _ & H4 & H5).
  exists stB2. split; [exact H4|exact H5].
Defined.

(** A daemon with one peer. *)
Definition sample_met : DaemonState :=
  (establish_session sample_digest sample_answer 10 (sample_identity 2) (initiator_session sample_key (sample_identity 2)) (pad32 [2])
    (sample_daemon 1)).2.

Lemma sample_daemon_ok k : daemon_ok (sample_daemon k).
Proof.
  split; [apply table_ok_new|done| |].
  - intros p. cbn. by rewrite !lookup_empty.
  - intros p. cbn. rewrite lookup_empty. by intros [].
Qed.

Lemma daemon_invariant_witness :
  let st := (responder_finish sample_digest sample_answer 10 (sample_identity 2) (handshaker [1] None) [] (Confirm []) (sample_daemon 1)).2 in
  daemon_ok (peer_liveness sample_answer map_to_list elements 20000 (map_to_list (peer_last_hb sample_met)) sample_met).2 ∧ daemon_ok st.
Proof.
  intros st.
  split; [apply (daemon_invariant sample_digest sample_hash sample_met)|apply (daemon_invariant sample_digest sample_hash (sample_daemon 1))].
  - eapply established_ok; [apply establish_session_spec|apply sample_daemon_ok].
  - apply rtc_once, StepLiveness.
  - apply sample_daemon_ok.
  - apply rtc_once, StepResponderFinish.
Defined.

(** Ten seconds after the session began the peer is kept; after twenty it is gone. *)
Lemma liveness_exact_witness :
  dm_sessions (peer_liveness sample_answer map_to_list elements 20000 (map_to_list (peer_last_hb sample_met)) sample_met).2
    !! sample_identity 2 = None ∧
  dm_sessions (peer_liveness sample_answer map_to_list elements 10000 (map_to_list (peer_last_hb sample_met)) sample_met).2
    !! sample_identity 2 = Some (initiator_session sample_key (sample_identity 2)).
Proof.
  pose proof (liveness_exact sample_answer map_to_list elements 20000 _ sample_met (sample_identity 2) (reflexivity _)) as H1.
  pose proof (liveness_exact sample_answer map_to_list elements 10000 _ sample_met (sample_identity 2) (reflexivity _)) as H2.
  cbv zeta in H1, H2.
  assert (Hl : peer_last_hb sample_met !! sample_identity 2 = Some 10) by (vm_compute; reflexivity).
  assert (Hs : dm_sessions sample_met !! sample_identity 2 = Some (initiator_session sample_key (sample_identity 2)))
    by (vm_compute; reflexivity).
  rewrite Hl in H1, H2.
  assert (Ht : (LIVENESS_TIMEOUT <? elapsed 20000 10) = true) by (vm_compute; reflexivity).
  assert (Hf : (LIVENESS_TIMEOUT <? elapsed 10000 10) = false) by (vm_compute; reflexivity).
  rewrite Ht in H1. rewrite Hf in H2. split; [exact (proj1 H1)|exact (eq_trans (proj1 H2) Hs)].
Defined.

Definition sample_advert : RouteUpdateFrame :=
  {| ru_origin_id := sample_identity 2; ru_sequence := 1;
     ru_entries := [{| re_destination := sample_identity 2; re_hops := 0; re_flags := 1; re_mesh_ip := [0; 0; 0; 0] |}];
     ru_signature := replicate 64 0 |}.
(** A signature of one byte, which depends on the key and the message. *)
Definition sum_signature (key msg : list Z) : list Z := (foldr Z.add 0 (key ++ msg) mod 255 + 1) :: replicate 63 0.
Definition sum_crypto : HandshakeCrypto := {|
  ed_public := pad32;
  ed_sign seed msg := sum_signature (pad32 seed) msg;
  ed_valid_key _ := true;
  ed_verify key msg sig := bool_decide (sig = sum_signature key msg);
  hkdf_salted salt ikm info := replicate 32 0;
  hmac_sha256 key msg := replicate 32 0;
|}.
#[local] Instance sum_crypto_lawful : LawfulHandshakeCrypto sum_crypto.
Proof.
  split; cbn [sum_crypto ed_public ed_sign ed_valid_key ed_verify hkdf_salted hmac_sha256]; try done.
  - intros seed msg. by apply bool_decide_eq_true_2.
  - intros seed. unfold pad32. rewrite length_take, length_app, length_replicate. lia.
Qed.
Definition sample_advert_frame : TransportFrame :=
  plain_frame FrameRouteUpdate (RouteUpdateFrame_encode (sign_route_update (ed_sign (HandshakeCrypto := sum_crypto)) sample_advert [2]) []).

Lemma route_updates_authenticated_witness :
  ∃ st' u, handle_route_update (K := sum_crypto) sample_digest 30 (sample_identity 2) sample_advert_frame sample_met = Ok st' ∧
    st' = on_routing (λ t, (apply_update sample_digest 30 u (sample_identity 2) t).2) sample_met ∧ ru_entries u = ru_entries sample_advert.
Proof.
  destruct (handle_route_update (K := sum_crypto) sample_digest 30 (sample_identity 2) sample_advert_frame sample_met) as [st'|e|] eqn:E;
    [|vm_compute in E; discriminate..].
  destruct (route_updates_authenticated (K := sum_crypto) sample_digest 30 (sample_identity 2) sample_advert_frame sample_met st' [sample_advert])
    as [Heq|(u & rest & pk & Hd & _ & _ & _ & _ & Hst & Hor)];
    [by apply (bool_decide_unpack _); vm_compute|apply Forall_singleton; by apply (bool_decide_unpack _); vm_compute|exact E| |].
  - exfalso. apply (f_equal (λ o, match o with Ok st => peer_max_seq (dm_routing st) !! sample_identity 2 | _ => None end)) in E.
    rewrite Heq in E. vm_compute in E. discriminate.
  - exists st', u. split; [reflexivity|]. split; [exact Hst|].
    destruct Hor as [(g & ->%list_elem_of_singleton & _ & _ & He)|Hni]; [exact He|]. exfalso. apply Hni.
    vm_compute in Hd. injection Hd as <- _. by apply (bool_decide_unpack _); vm_compute.
Defined.

(** Both nodes are dialling the other. *)
Definition sample_dialling (k ip : Z) : DaemonState :=
  set_dial (register_pending_outbound (Tcp (ip, 7000)) (sample_id 40) sample_dial) (sample_daemon k).
Definition sample_init_wire (k : Z) : HandshakeWireFrame :=
  InitOrResponse HsInit (pad32 [k]) (replicate 32 3) (replicate 32 4) (replicate 64 5).

Lemma simultaneous_connect_witness :
  ∃ actsA stA' actsB stB',
    handle_handshake sample_hash (Some 22) (sample_identity 2) (handshake_frame (sample_init_wire 2)) (sample_dialling 1 22) = Ok (actsA, stA') ∧
    handle_handshake sample_hash (Some 11) (sample_identity 1) (handshake_frame (sample_init_wire 1)) (sample_dialling 2 11) = Ok (actsB, stB').
Proof.
  edestruct (simultaneous_connect sample_hash 11 22 (sample_identity 1) (sample_identity 2)
    {| po_transport_key := sample_id 40; po_target := Tcp (22, 7000) |} {| po_transport_key := sample_id 40; po_target := Tcp (11, 7000) |}
    (sample_dialling 1 22) (sample_dialling 2 11) (handshake_frame (sample_init_wire 1)) (handshake_frame (sample_init_wire 2)))
    as (actsA & stA' & actsB & stB' & HA & HB & _);
    [| |reflexivity|reflexivity| | | | | | | |exists actsA, stA', actsB, stB'; split; [exact HA|exact HB]].
  1-2: split; [vm_compute; reflexivity|].
  all: try (vm_compute; reflexivity).
  all: by apply (bool_decide_unpack _); vm_compute.
Defined.
