(* ===== verification/Link.v ===== *)
(** * Two daemons and the stream between them

    What the end-to-end theorems share: the relation between two daemons that
    have met, the stream that carries the frames of one to the other, and a
    routed control frame from one to the other. *)

From S2P Require Import Prelude Core MeshAddress Frames Control Stream Fragment Routing Session DataPlane SendBuffer Trust E2e.
From S2P Require Import Handshake Reconnect Daemon DaemonProofs.

(** Any way the stream may cut the bytes of these frames. *)
Definition carries (chunks : list (list Z)) (frames : list TransportFrame) : Prop :=
  concat chunks = concat (map wire_frame frames).

Lemma carries_whole fs : carries [concat (map wire_frame fs)] fs.
Proof. unfold carries. cbn [concat]. apply app_nil_r. Qed.

(** Two nodes with a session each, whose ciphers match in both directions, with
    room for a packet in either, and no half-received packet. *)
Record half_link (a b : DataState) : Prop := {
  hl_ids : node_id_wf (ds_self_id a) ∧ node_id_wf (ds_self_id b);
  hl_sessions : ∃ s r, ds_sessions a !! ds_self_id b = Some s ∧ ds_sessions b !! ds_self_id a = Some r ∧ paired s r ∧
    0 ≤ sc_counter (session_send s) ∧ sc_counter (session_send s) + 2 ^ 16 ≤ MAX_NONCE_COUNTER;
  hl_frag : u32_ok (ds_frag_id a);
  hl_buffers : ra_buffers (default Reassembler_new (ds_reassemblers b !! ds_self_id a)) !! ds_frag_id a = None;
}.
Definition linked (a b : DataState) : Prop := half_link a b ∧ half_link b a.

Lemma half_link_count n a b : half_link a b → half_link a (count_forwarded n b).
Proof. intros [H1 H2 H3 H4]. split; done. Qed.

(** What the sending end of a hop keeps. *)
Record sent (q : NodeId) (st st' : DaemonState) : Prop := {
  sn_self : ds_self_id (dm_data st') = ds_self_id (dm_data st);
  sn_routing : dm_routing st' = dm_routing st;
  sn_config : dm_config st' = dm_config st;
  sn_keys : gw_x25519_by_id st' = gw_x25519_by_id st;
  sn_others : ∀ p, p ≠ q → dm_sessions st' !! p = dm_sessions st !! p;
}.

(** ** Sending *)
Section Send.
Context (answer : NodeId → TransportFrame → SendResult).

Lemma send_all_sends now q fs st :
  ∃ st', send_all answer now (map (λ f, (q, f)) fs) st = (map (Send q) fs, st') ∧ only_buffer st st'.
Proof.
  pose proof (send_all_only answer now (map (λ f, (q, f)) fs) st) as Ho.
  destruct (send_all answer now (map (λ f, (q, f)) fs) st) as [acts st'] eqn:E. cbn [snd] in Ho.
  exists st'. split; [|done]. f_equal. clear Ho. revert st acts st' E.
  induction fs as [|f fs IH]; intros st acts st' E; cbn [map send_all] in E; [by simplify_eq|].
  unfold send_buffered in E. destruct (send_frame_buffered _ _ _ _ _ _) as [b d].
  destruct (send_all answer now _ _) as [acts' st1] eqn:E1. simplify_eq. cbn [app map]. f_equal. by eapply IH.
Qed.

End Send.

(** ** Control frames *)
Section Control.
Context {A : Aead} {HA : LawfulAead A} {HT : TotalAead A}.
Context (answer answer' : NodeId → TransportFrame → SendResult).

(** What the event loop does with a routed control frame. *)
Definition routed_actions (src : NodeId) (cf : ControlFrame) : list Action :=
  match cf with
  | PeerInfo pk name => [NotePeerInfo src pk name]
  | PluginPayload kind body => [PluginDispatch src kind body]
  | _ => []
  end.

Lemma control_hop now now' cf (a b : DaemonState) :
  let self_a := ds_self_id (dm_data a) in let self_b := ds_self_id (dm_data b) in
  half_link (dm_data a) (dm_data b) → lookup_route self_b (dm_routing a) = Some self_b →
  ControlFrame_wf cf → Z.of_nat (length (ControlFrame_encode cf [])) < 2 ^ 16 →
  ∃ f a' d, send_routed_control answer now self_b cf a = (true, [Send self_b f], a') ∧
    sent self_b a a' ∧ only_from self_a (dm_data b) d ∧ ds_reassemblers d = ds_reassemblers (dm_data b) ∧
    (half_link (dm_data b) (dm_data a) → half_link d (dm_data a')) ∧
    ∀ chunks, carries chunks [f] → (read_task chunks []).1 = [f] ∧
      handle_data_frame answer' now' self_a f b =
        Ok (DataOutcome (RoutedControl self_a (Ok (cf, []))) :: routed_actions self_a cf, set_data d b).
Proof using HA HT.
  intros self_a self_b [[Hia Hib] (s & r & Hs & Hr & Hp & Hc0 & Hc) Hfr Hbuf] Hroute Hwf Hlen.
  destruct (send_single_delivers now' self_a self_a self_b 8 IS_CONTROL (ControlFrame_encode cf []) s r (dm_data b) Hr Hp)
    as (f & s' & r' & Hsend & Hfit & Hp' & _ & Hback & Hh); [lia|split_and!; cbn; [apply Hia|apply Hib|done|done|lia]|].
  destruct (send_all_sends answer now self_b [f] (on_sessions (insert self_b s') a)) as (a' & Hsa & Hob).
  pose proof (only_buffer_fields _ _ Hob) as (Hdd & _). cbn [map] in Hsa.
  exists f, a', (set_sessions (<[self_a := r']> (dm_sessions b)) (dm_data b)). split_and!.
  - unfold send_routed_control. rewrite Hroute. unfold send_routed_control_via. unfold self_b. rewrite Hs. fold self_a self_b.
    rewrite Hsend. cbn [map]. by rewrite Hsa.
  - destruct Hob as (bb & dr & ->). split; try done. intros p Hpq. cbn. by rewrite lookup_insert_ne.
  - split; try done. intros p Hpq. cbn. by apply lookup_insert_ne.
  - done.
  - intros [_ (s2 & r2 & Hs2 & Hr2 & Hp2 & Hc2 & Hc3) Hfr2 Hbuf2]. rewrite Hdd.
    assert (r2 = s) as -> by (unfold self_b in Hs; congruence). assert (s2 = r) as -> by (unfold self_a in Hr; congruence).
    destruct Hback as [Hb1 Hb2]. split; cbn; try done. exists r', s'. rewrite !lookup_insert_eq.
    split_and!; [done|done| |by rewrite Hb2..]. unfold paired in *. by rewrite Hb1, Hb2.
  - intros chunks Hch. rewrite (read_task_frames [f] chunks); [|by constructor|done]. split; [done|]. unfold handle_data_frame. rewrite Hh.
    rewrite bool_decide_eq_true_2 by done. unfold deliver_mesh. cbn [md_flags md_src_id md_payload].
    change (flags_contains IS_CONTROL IS_CONTROL) with true. cbv iota. cbn [obind].
    pose proof (ControlFrame_roundtrip cf [] Hwf) as Hrt. rewrite app_nil_r in Hrt. rewrite Hrt. by destruct cf.
Qed.
End Control.

(** ** Two concrete daemons that have met *)
Definition sample_node (k other : Z) (session : Session) : DaemonState :=
  set_data (sample_state (sample_id k) [(sample_id other, session)]
    (add_peer sample_digest 0 (sample_id other) (RoutingTable_new (sample_id k) false {| v4_network := 0x0a4d0000; v4_prefix_len := 16 |})))
    (sample_daemon k).

Lemma sample_nodes_linked : linked (dm_data (sample_node 1 2 sample_initiator)) (dm_data (sample_node 2 1 sample_responder)).
Proof.
  split; (split; [split; by apply (bool_decide_unpack _); vm_compute| |by vm_compute|vm_compute; reflexivity]).
  - exists sample_initiator, sample_responder. split_and!; [vm_compute; reflexivity|vm_compute; reflexivity|apply sample_paired|by vm_compute|by vm_compute].
  - exists sample_responder, sample_initiator. split_and!; [vm_compute; reflexivity|vm_compute; reflexivity| |by vm_compute|by vm_compute].
    split; [reflexivity|]. split; [reflexivity|]. by left.
Qed.
