(* ===== verification/Background.v ===== *)
(** * The periodic tasks (crates/pim-daemon/src/data_plane.rs, app/event_loop.rs)

    One tick of the task that advertises routes and of the one that sends
    heartbeats, and the end of the event loop.  The transport's list of
    connected peers and the clocks are arguments. *)

From S2P Require Import Prelude Core MeshAddress Frames Control Stream Fragment Routing RoutingProofs RoutingSpec Session DataPlane SendBuffer Trust E2e.
From S2P Require Import Handshake Reconnect Daemon DaemonProofs Link.

Section Tasks.
Context {K : HandshakeCrypto}.
Context (answer : NodeId → TransportFrame → SendResult).
Context (iter_routes : gmap NodeId RouteTableEntry → list (NodeId * RouteTableEntry)).
Context (iter_peers : gset NodeId → list NodeId).

(** [run_route_advertisements] *)
Definition advertisement_tick (now : Z) (st : DaemonState) : list Action * DaemonState :=
  let '(adverts, t) := generate_all_advertisements (iter_routes (routes (dm_routing st)))
                         (iter_peers (direct_peers (dm_routing st))) (dm_routing st) in
  let st := on_routing (λ _, t) st in
  send_all answer now (map (λ p, (p.1, signed_advert st p.2)) adverts) st.

(** [run_heartbeats]; [last_fwd] is the task's own. *)
Definition heartbeat_load (last_fwd cur_fwd : Z) : Z := Z.min (saturating_sub cur_fwd last_fwd) 2000 * 255 / 2000.
Definition heartbeat_frame (is_gateway : bool) (timestamp last_fwd : Z) (st : DaemonState) : HeartbeatFrame :=
  {| hb_sender_id := ds_self_id (dm_data st);
     hb_timestamp := timestamp;
     hb_gateway_hops := if is_gateway then 0
                        else match nearest_gateway (iter_routes (routes (dm_routing st))) (dm_routing st) with
                             | Some (_, hops) => hops
                             | None => 0xff
                             end;
     hb_load := heartbeat_load last_fwd (ds_packets_forwarded (dm_data st));
     hb_gw_x25519_pub := if is_gateway then cfg_own_x25519_pub (dm_config st) else replicate 32 0 |}.
Definition heartbeat_tick (is_gateway : bool) (timestamp : Z) (connected : list NodeId) (last_fwd : Z) (st : DaemonState)
  : list Action * Z :=
  (map (λ p, Send p (plain_frame FrameHeartbeat (HeartbeatFrame_encode (heartbeat_frame is_gateway timestamp last_fwd st) []))) connected,
   ds_packets_forwarded (dm_data st)).

(** The end of [run_event_loop]: a farewell to every peer, then the
    connections are closed.  Taking down the host's rules is not modelled. *)
Fixpoint say_goodbye (now : Z) (peers : list NodeId) (st : DaemonState) : list Action * DaemonState :=
  match peers with
  | [] => ([], st)
  | peer :: peers =>
    let '(acts, st) := send_control answer now peer (Goodbye (ds_self_id (dm_data st)) 0) st in
    let '(acts', st) := say_goodbye now peers st in
    (acts ++ acts', st)
  end.
Definition shutdown (now : Z) (peers : list NodeId) (st : DaemonState) : list Action * DaemonState :=
  let '(acts, st) := say_goodbye now peers st in (acts ++ map Disconnect peers, st).
End Tasks.

(** ** What the neighbours make of them *)
Section Received.
Context {A : Aead} {D : Ecdh} {K : HandshakeCrypto} {HK : LawfulHandshakeCrypto K}.
Context (digest : NodeId → list Z) (sha256 : list Z → list Z).
Context (answer : NodeId → TransportFrame → SendResult).
Context (iter_routes : gmap NodeId RouteTableEntry → list (NodeId * RouteTableEntry)).
Context (iter_peers : gset NodeId → list NodeId).
Implicit Types (st : DaemonState).

Lemma plain_frame_fits t payload : Z.of_nat (length payload) ≤ MAX_FRAME_SIZE - 36 → wire_fits (plain_frame t payload).
Proof. intros H. split; [|exact H]. split_and!; cbn; [done|done|]. unfold MAX_FRAME_SIZE, MAX_PAYLOAD_SIZE in *. lia. Qed.

(** An advertisement that fits the format. *)
Definition advert_wf (u : RouteUpdateFrame) : Prop :=
  length (as_bytes (ru_origin_id u)) = 16%nat ∧ u64_ok (ru_sequence u) ∧ Forall RouteEntry_wf (ru_entries u) ∧
  Z.of_nat (length (ru_entries u)) ≤ MAX_ENTRIES.

Lemma signed_advert_wf u seed : advert_wf u → RouteUpdateFrame_wf (sign_route_update ed_sign u seed).
Proof using HK. intros (H1 & H2 & H3 & H4). split_and!; try done. apply ed_sign_length. Qed.

Lemma signed_advert_fits u st : advert_wf u → wire_fits (signed_advert st u).
Proof using HK.
  intros Hu. apply plain_frame_fits. pose proof (signed_advert_wf u (cfg_seed (dm_config st)) Hu) as Hw.
  rewrite RouteUpdateFrame_encode_segs. cbn [app]. rewrite length_concat_segs.
  revert Hw. generalize (sign_route_update ed_sign u (cfg_seed (dm_config st))). intros v (Ho & _ & He & Hn & Hs).
  pose proof (length_entries_segs _ He) as Hl. unfold MAX_ENTRIES, MAX_FRAME_SIZE in *. seg_lia.
Qed.

(** A neighbour that knows the sender's key applies it. *)
Lemma advert_received now ip u a st_a st_b :
  (∀ seed msg, ed_sign seed msg ≠ replicate 64 0) →
  advert_wf u → peer_pubkeys st_b !! a = Some (ed_public (cfg_seed (dm_config st_a))) →
  handle_frame digest sha256 answer iter_routes iter_peers now true ip a (signed_advert st_a u) st_b =
    Ok ([], on_routing (λ t, (apply_update digest now u a t).2) st_b).
Proof using HK.
  intros Hnz Hu Hk. unfold handle_frame, signed_advert. cbn [negb tf_frame_type plain_frame]. unfold handle_route_update. cbn [tf_payload plain_frame].
  pose proof (RouteUpdateFrame_roundtrip _ [] (signed_advert_wf u (cfg_seed (dm_config st_a)) Hu)) as Hrt. rewrite app_nil_r in Hrt.
  rewrite Hrt, Hk, ed_public_valid. unfold verify_route_update. cbn [sign_route_update with_signature ru_signature].
  rewrite bool_decide_eq_false_2 by apply Hnz. change (signing_bytes (sign_route_update ed_sign u ?s)) with (signing_bytes u).
  by rewrite ed_verify_sign.
Qed.
End Received.

(** ** Heartbeats *)
Section Heartbeats.
Context {A : Aead} {D : Ecdh} {K : HandshakeCrypto}.
Context (digest : NodeId → list Z) (sha256 : list Z → list Z).
Context (answer : NodeId → TransportFrame → SendResult).
Context (iter_routes : gmap NodeId RouteTableEntry → list (NodeId * RouteTableEntry)).
Context (iter_peers : gset NodeId → list NodeId).

Lemma heartbeat_load_range last cur : 0 ≤ heartbeat_load last cur ≤ 255.
Proof.
  unfold heartbeat_load, saturating_sub. split; [apply Z.div_pos; lia|].
  apply Z.div_le_upper_bound; lia.
Qed.

(** Heartbeats keep peers: every connected peer gets one in a tick; it
    arrives whole however the stream cuts it, and a peer that hears it keeps
    the sender, its session and its key, whenever the liveness task runs in
    the 15 seconds after; if the sender is a gateway the peer has its
    encryption key and its load from then on. *)
Theorem heartbeats_keep_alive is_gw ts connected last_fwd now ip later (iter_hb : list (NodeId * Z)) a b chunks :
  let self := ds_self_id (dm_data a) in
  let f := plain_frame FrameHeartbeat (HeartbeatFrame_encode (heartbeat_frame iter_routes is_gw ts last_fwd a) []) in
  node_id_wf self → u64_ok ts → length (cfg_own_x25519_pub (dm_config a)) = 32%nat → carries chunks [f] →
  (heartbeat_tick iter_routes is_gw ts connected last_fwd a).1 = map (λ p, Send p f) connected ∧
  (read_task chunks []).1 = [f] ∧
  ∃ b', handle_frame digest sha256 answer iter_routes iter_peers now true ip self f b = Ok ([], b') ∧
    (is_gw = true → cfg_own_x25519_pub (dm_config a) ≠ replicate 32 0 →
       gw_x25519_by_id b' !! self = Some (cfg_own_x25519_pub (dm_config a)) ∧
       ∀ e, routes (dm_routing b) !! self = Some e → rt_is_gateway e = true →
         rt_gateway_load <$> routes (dm_routing b') !! self = Some (heartbeat_load last_fwd (ds_packets_forwarded (dm_data a)))) ∧
    (elapsed later now ≤ LIVENESS_TIMEOUT → iter_hb ≡ₚ map_to_list (peer_last_hb b') →
       let b2 := (peer_liveness answer iter_routes iter_peers later iter_hb b').2 in
       dm_sessions b2 !! self = dm_sessions b !! self ∧ peer_pubkeys b2 !! self = peer_pubkeys b !! self ∧
       peer_last_hb b2 !! self = Some now).
Proof.
  intros self f Hid Hts Hk Hch.
  assert (Hwf : HeartbeatFrame_wf (heartbeat_frame iter_routes is_gw ts last_fwd a)).
  { split_and!; [apply Hid|done|]. cbn [heartbeat_frame hb_gw_x25519_pub]. by destruct is_gw. }
  assert (Hfit : wire_fits f).
  { apply plain_frame_fits. rewrite HeartbeatFrame_encode_segs. cbn [app]. rewrite length_concat_segs.
    revert Hwf. generalize (heartbeat_frame iter_routes is_gw ts last_fwd a). intros v (H1 & _ & H2). unfold MAX_FRAME_SIZE. seg_lia. }
  split; [done|]. split; [by rewrite (read_task_frames [f] chunks) by (by rewrite ?Forall_singleton)|].
  pose proof (HeartbeatFrame_roundtrip _ [] Hwf) as Hrt. rewrite app_nil_r in Hrt.
  unfold handle_frame, handle_heartbeat. cbn [negb f tf_frame_type tf_payload plain_frame]. rewrite Hrt.
  cbn [heartbeat_frame hb_gateway_hops hb_gw_x25519_pub hb_load].
  match goal with |- context [let? st := ?r in _] =>
    assert (Hr : ∃ b', r = Ok b' ∧ peer_last_hb b' = <[self := now]> (peer_last_hb b) ∧ dm_sessions b' = dm_sessions b ∧
      peer_pubkeys b' = peer_pubkeys b ∧
      (is_gw = true → cfg_own_x25519_pub (dm_config a) ≠ replicate 32 0 →
         gw_x25519_by_id b' !! self = Some (cfg_own_x25519_pub (dm_config a)) ∧
         dm_routing b' = update_gateway_load self (heartbeat_load last_fwd (ds_packets_forwarded (dm_data a))) (dm_routing b)))
  end.
  { destruct is_gw.
    - change (0 =? 0) with true. cbv iota. case_bool_decide as Hz; eexists; (split; [reflexivity|]); split_and!; try done.
      intros _ _. split; [apply lookup_insert_eq|done].
    - destruct (_ =? 0); [rewrite bool_decide_eq_true_2 by done|]; eexists; (split; [reflexivity|]); split_and!; done. }
  destruct Hr as (b' & -> & Hhb & Hse & Hpk & Hgw). cbn [obind]. exists b'. split; [done|]. split.
  - intros H1 H2. destruct (Hgw H1 H2) as [H3 H4]. split; [done|]. intros e He Hg. rewrite H4. unfold update_gateway_load.
    rewrite He, Hg. cbn [routes set_routes]. by rewrite lookup_insert_eq.
  - intros Hel Hi. destruct (peer_liveness_silenced answer iter_routes iter_peers later iter_hb b' Hi) as (ps & Hin & [S1 S2 S3 _ _ _ _]).
    assert (Hps : self ∉ ps).
    { rewrite Hin. intros (last & Hl & Hlt). rewrite Hhb, lookup_insert_eq in Hl. injection Hl as <-. lia. }
    rewrite S1, S2, S3, bool_decide_eq_false_2, Hse, Hpk, Hhb by done. by rewrite lookup_insert_eq.
Qed.
End Heartbeats.

Lemma heartbeats_keep_alive_witness :
  let a := sample_node 1 2 sample_initiator in let b := sample_node 2 1 sample_responder in
  let f := plain_frame FrameHeartbeat (HeartbeatFrame_encode (heartbeat_frame map_to_list true 1000 0 a) []) in
  ∃ b', handle_frame (A:=null_aead) (K:=toy_crypto) sample_digest sample_hash sample_answer map_to_list elements 50 true None (sample_id 1) f b = Ok ([], b') ∧
    gw_x25519_by_id b' !! sample_id 1 = Some (replicate 32 1) ∧
    dm_sessions (peer_liveness (K:=toy_crypto) sample_answer map_to_list elements 15050 (map_to_list (peer_last_hb b')) b').2 !! sample_id 1 = Some sample_responder.
Proof.
  intros a b f.
  destruct (heartbeats_keep_alive (A:=null_aead) (K:=toy_crypto) sample_digest sample_hash sample_answer map_to_list elements
    true 1000 [sample_id 2] 0 50 None 15050 [] a b [concat (map wire_frame [f])]) as (_ & _ & b0 & Hb0 & _);
    [by apply (bool_decide_unpack _); vm_compute|by vm_compute|by vm_compute|apply carries_whole|].
  destruct (heartbeats_keep_alive (A:=null_aead) (K:=toy_crypto) sample_digest sample_hash sample_answer map_to_list elements
    true 1000 [sample_id 2] 0 50 None 15050 (map_to_list (peer_last_hb b0)) a b [concat (map wire_frame [f])]) as (_ & _ & b' & Hb' & Hk & Hl);
    [by apply (bool_decide_unpack _); vm_compute|by vm_compute|by vm_compute|apply carries_whole|].
  exists b'. split; [exact Hb'|]. assert (b0 = b') as -> by congruence.
  destruct Hk as [Hk _]; [done|by vm_compute|]. split; [exact Hk|]. destruct Hl as [Hl _]; [by vm_compute|reflexivity|exact Hl].
Defined.
