(* ===== verification/Mesh.v ===== *)
(** * A mesh of daemons

    Daemons joined by sessions, whose advertisement tasks tick and whose frames
    travel over the stream: what they do refines the distance-vector network
    ([Network]), and the routes it converges to carry packets. *)

From S2P Require Import Prelude Core MeshAddress Frames Control Stream Fragment Routing RoutingProofs RoutingSpec Network Session DataPlane.
From S2P Require Import SendBuffer Trust E2e Handshake Reconnect Daemon DaemonProofs Link Background.

Definition mesh := NodeId → DaemonState.
Definition mesh_set (n : NodeId) (st : DaemonState) (m : mesh) : mesh := λ k, if bool_decide (k = n) then st else m k.

Lemma mesh_set_eq n st m : mesh_set n st m n = st.
Proof. unfold mesh_set. by rewrite bool_decide_eq_true_2. Qed.
Lemma mesh_set_ne n st m k : k ≠ n → mesh_set n st m k = m k.
Proof. intros. unfold mesh_set. by rewrite bool_decide_eq_false_2. Qed.

(** The routing tables of the daemons. *)
Definition net_of (m : mesh) : network := λ n, dm_routing (m n).

Section Mesh.
Context {A : Aead} {K : HandshakeCrypto}.
Context (digest : NodeId → list Z) (sha256 : list Z → list Z).
Context (iter_routes : gmap NodeId RouteTableEntry → list (NodeId * RouteTableEntry)).
Context (iter_peers : gset NodeId → list NodeId).

(** The links are up: the transport takes every frame. *)
Definition links_up (_ : NodeId) (_ : TransportFrame) : SendResult := SendOk.

(** What [b] does with the frames it reads from [from]. *)
Fixpoint receive_all (now : Z) (from : NodeId) (frames : list TransportFrame) (st : DaemonState) : outcome PimError DaemonState :=
  match frames with
  | [] => Ok st
  | f :: frames =>
    let? (_, st) := handle_frame digest sha256 links_up iter_routes iter_peers now true None from f st in
    receive_all now from frames st
  end.

(** The frames among the actions go through the stream to their peers. *)
Fixpoint deliver_all (now : Z) (from : NodeId) (acts : list Action) (m : mesh) : outcome PimError mesh :=
  match acts with
  | [] => Ok m
  | Send b f :: acts =>
    let? st := receive_all now from (read_task [wire_frame f] []).1 (m b) in
    deliver_all now from acts (mesh_set b st m)
  | _ :: acts => deliver_all now from acts m
  end.

(** The advertisement task of [a] ticks. *)
Definition mesh_tick (now : Z) (a : NodeId) (m : mesh) : outcome PimError mesh :=
  let '(acts, st) := advertisement_tick links_up iter_routes iter_peers now (m a) in
  deliver_all now a acts (mesh_set a st m).

Fixpoint run_ticks (ticks : list (Z * NodeId)) (m : mesh) : outcome PimError mesh :=
  match ticks with
  | [] => Ok m
  | (now, a) :: ticks => let? m := mesh_tick now a m in run_ticks ticks m
  end.
End Mesh.

(** ** The network does not care how a table is written *)
Section Pointwise.
Context (digest : NodeId → list Z) (link : NodeId → NodeId → Prop).

Definition net_eq (net1 net2 : network) : Prop := ∀ n, net1 n = net2 n.
#[export] Instance net_eq_equiv : Equivalence net_eq.
Proof. split; [by intros net n|by intros net1 net2 H n|]. intros net1 net2 net3 H1 H2 n. by rewrite H1. Qed.

#[export] Instance net_set_proper n t : Proper (net_eq ==> net_eq) (net_set n t).
Proof. intros net1 net2 H m. unfold net_set. by rewrite H. Qed.

#[export] Instance exchange_proper now iter a b : Proper (net_eq ==> net_eq) (exchange digest now iter a b).
Proof.
  intros net1 net2 H. unfold exchange. rewrite (H a). destruct (generate_advertisement iter b (net2 a)) as [u t].
  assert (H' : net_eq (net_set a t net1) (net_set a t net2)) by by apply net_set_proper. rewrite (H' b). by apply net_set_proper.
Qed.

Lemma net_run_proper net1 net2 sched net1' :
  net_run digest link net1 sched net1' → net_eq net1 net2 → ∃ net2', net_run digest link net2 sched net2' ∧ net_eq net1' net2'.
Proof.
  intros Hr. revert net2. induction Hr as [net|now iter a b net sched net' Hl Hi Hr IH]; intros net2 He.
  - exists net2. split; [constructor|done].
  - destruct (IH (exchange digest now iter a b net2)) as (net2' & Hr2 & He2); [by apply exchange_proper|].
    exists net2'. split; [|done]. econstructor; [done| |exact Hr2]. by rewrite <- (He a).
Qed.

Lemma net_run_trans net1 net2 net3 s1 s2 :
  net_run digest link net1 s1 net2 → net_run digest link net2 s2 net3 → net_run digest link net1 (s1 ++ s2) net3.
Proof. induction 1; [done|]. intros Hr. cbn [app]. econstructor; eauto. Qed.
End Pointwise.

(** ** The daemons refine the network *)

(** What advertising leaves as it is. *)
Record same_node (st st' : DaemonState) : Prop := {
  nd_config : dm_config st' = dm_config st;
  nd_pubkeys : peer_pubkeys st' = peer_pubkeys st;
  nd_sessions : dm_sessions st' = dm_sessions st;
  nd_self : ds_self_id (dm_data st') = ds_self_id (dm_data st);
  nd_peers : direct_peers (dm_routing st') = direct_peers (dm_routing st);
  nd_blacklist : blacklisted_peers (dm_routing st') = blacklisted_peers (dm_routing st);
}.
#[export] Instance same_node_preorder : PreOrder same_node.
Proof.
  split; [done|]. intros st1 st2 st3 [? ? ? ? ? ?] [? ? ? ? ? ?]. split; congruence.
Qed.

Lemma same_node_buffer st st' : only_buffer st st' → same_node st st'.
Proof. by intros (b & d & ->). Qed.

Lemma apply_update_peers digest now u p t :
  direct_peers (apply_update digest now u p t).2 = direct_peers t ∧
  blacklisted_peers (apply_update digest now u p t).2 = blacklisted_peers t.
Proof.
  destruct (accepts_dec u p t) as [Ha|Hn].
  - rewrite apply_update_accepted by done. destruct (remove_where_config (withdrawn u p)
      (fold_left (apply_entry digest now (ru_sequence u) p) (ru_entries u) (touch_sender digest now (ru_sequence u) p (bump p (ru_sequence u) t))).2)
      as [_ _ -> _ _ -> _ _].
    rewrite (sc_direct_peers _ _ (apply_entries_config _ _ _ _ _ _)), (sc_blacklist _ _ (apply_entries_config _ _ _ _ _ _)).
    by rewrite (sc_direct_peers _ _ (touch_sender_config _ _ _ _ _)), (sc_blacklist _ _ (touch_sender_config _ _ _ _ _)).
  - destruct (apply_update_rejected digest now u p t Hn) as [_ [->|(_ & _ & ->)]]; done.
Qed.

Lemma generate_all_peers iter peers t :
  direct_peers (generate_all_advertisements iter peers t).2 = direct_peers t.
Proof.
  revert t. induction peers as [|q peers IH]; intros t; cbn [generate_all_advertisements]; [done|].
  destruct (generate_advertisement iter q t) as [u t1] eqn:E1. unfold generate_advertisement in E1. injection E1 as <- <-.
  specialize (IH (set_sequence (as_u64 (sequence t + 1)) t)). by destruct (generate_all_advertisements iter peers _).
Qed.

Lemma send_all_acts answer now frames st :
  (send_all answer now frames st).1 = map (λ p, Send p.1 p.2) frames.
Proof.
  revert st. induction frames as [|[p f] frames IH]; intros st; cbn [send_all map fst snd]; [done|].
  unfold send_buffered. destruct (send_frame_buffered _ _ _ _ _ _) as [b d]. specialize (IH (set_send_buffer b d st)).
  destruct (send_all answer now frames _) as [acts st']. cbn in *. by rewrite IH.
Qed.

Section Refine.
Context {A : Aead} {K : HandshakeCrypto} {HK : LawfulHandshakeCrypto K}.
Context (digest : NodeId → list Z) (sha256 : list Z → list Z).
Context (iter_routes : gmap NodeId RouteTableEntry → list (NodeId * RouteTableEntry)).
Context (iter_peers : gset NodeId → list NodeId).
Context (link : NodeId → NodeId → Prop) (nodes : gset NodeId).
(** The all-zero signature stands for none. *)
Context (Hnonzero : ∀ seed msg, ed_sign seed msg ≠ replicate 64 0).
Context (Hroutes : ∀ r, iter_routes r ≡ₚ map_to_list r) (Hpeers : ∀ s, iter_peers s ≡ₚ elements s).
Context (Htopo : topology link).
Context (Hnodes : ∀ a b, link a b → a ∈ nodes) (Hids : ∀ n, n ∈ nodes → node_id_wf n) (Hsize : Z.of_nat (size nodes) ≤ MAX_ENTRIES).

(** The daemons that are linked know each other's keys. *)
Record peered (m : mesh) : Prop := {
  pe_peers : ∀ a b, b ∈ direct_peers (net_of m a) ↔ link a b;
  pe_keys : ∀ a b, link a b → peer_pubkeys (m b) !! a = Some (ed_public (cfg_seed (dm_config (m a))));
}.

Lemma peered_same m m' : peered m → (∀ n, same_node (m n) (m' n)) → peered m'.
Proof.
  intros [Hp Hk] Hs. split; intros a b.
  - unfold net_of. rewrite (nd_peers _ _ (Hs a)). apply Hp.
  - intros Hl. rewrite (nd_pubkeys _ _ (Hs b)), (nd_config _ _ (Hs a)). by apply Hk.
Qed.

Lemma link_in a b : link a b → b ∈ nodes.
Proof using Hnodes Htopo. intros Hl. by eapply Hnodes, link_sym. Qed.

Lemma walk_in k n d : walk link k n d → n ∈ nodes → d ∈ nodes.
Proof using Hnodes Htopo. induction 1; [done|]. intros _. eauto using link_in. Qed.

(** A node has at most as many routes as there are other nodes. *)
Lemma routes_bound sent net a : net_ok link sent net → a ∈ nodes → (S (size (routes (net a))) ≤ size nodes)%nat.
Proof using Hnodes Htopo.
  intros Hok Ha. rewrite <- (size_dom (D:=gset NodeId)).
  assert (Hsub : {[a]} ∪ dom (routes (net a)) ⊆ nodes).
  { apply union_least; [by intros ? ->%elem_of_singleton|]. intros d [e He]%elem_of_dom.
    destruct (no_real _ _ _ Hok a d (hop_of e)) as (k & _ & Hl & Hw); [by rewrite He|]. eapply walk_in; [done|]. by eapply link_in. }
  apply subseteq_size in Hsub. rewrite size_union in Hsub; [by rewrite size_singleton in Hsub|].
  intros d ->%elem_of_singleton [e He]%elem_of_dom. by rewrite (no_loop _ _ _ Hok a) in He.
Qed.

Lemma generated_wf sent net a b iter :
  net_ok link sent net → sent + 1 < 2 ^ 64 → link a b → iter ≡ₚ map_to_list (routes (net a)) →
  advert_wf (generate_advertisement iter b (net a)).1.
Proof using Hnodes Htopo Hids Hsize.
  intros Hok Hs Hl Hi. pose proof (no_self _ _ _ Hok a) as Hself. pose proof (Hnodes _ _ Hl) as Ha.
  pose proof (no_sent _ _ _ Hok a) as Hq. unfold generate_advertisement.
  cbn [fst set_sequence sequence self_id]. split_and!; cbn [ru_origin_id ru_sequence ru_entries].
  - rewrite Hself. by apply Hids.
  - unfold as_u64. rewrite Z.mod_small by lia. unfold u64_ok. lia.
  - constructor; [split; cbn; [rewrite Hself; by apply Hids|done]|].
    apply Forall_fmap, Forall_forall. intros [d e] Hin. apply list_elem_of_In, filter_In in Hin as [Hin _].
    apply list_elem_of_In in Hin. rewrite Hi in Hin. apply elem_of_map_to_list in Hin.
    destruct (no_real _ _ _ Hok a d (hop_of e)) as (k & _ & Hl' & Hw); [by rewrite Hin|].
    split; cbn; [|done]. apply Hids. eapply walk_in; [done|]. by eapply link_in.
  - cbn [length]. rewrite length_map. pose proof (List.filter_length_le (λ '(dst, _), negb (bool_decide (dst = b))) iter) as Hf.
    rewrite (Permutation_length Hi), length_map_to_list in Hf. pose proof (routes_bound _ _ _ Hok Ha). lia.
Qed.

Notation receive := (receive_all digest sha256 iter_routes iter_peers).
Notation deliver := (deliver_all digest sha256 iter_routes iter_peers).

(** One advertisement on its way to a neighbour. *)
Lemma advert_delivered now a u st_a st_b :
  advert_wf u → peer_pubkeys st_b !! a = Some (ed_public (cfg_seed (dm_config st_a))) →
  receive now a (read_task [wire_frame (signed_advert st_a u)] []).1 st_b =
    Ok (on_routing (λ t, (apply_update digest now u a t).2) st_b) ∧
  same_node st_b (on_routing (λ t, (apply_update digest now u a t).2) st_b).
Proof using HK Hnonzero.
  intros Hu Hk. rewrite (read_task_frames [signed_advert st_a u]).
  - cbn [fst receive_all]. rewrite (advert_received digest sha256 _ _ _ now None u a st_a st_b) by done. split; [done|].
    destruct (apply_update_peers digest now u a (dm_routing st_b)) as [H1 H2]. by split.
  - constructor; [by apply signed_advert_fits|done].
  - cbn. by rewrite app_nil_r.
Qed.

(** The advertisements of a tick, delivered one after the other, are exchanges
    of the network; the sender's own table is the one after all of them. *)
Lemma adverts_exchange now a st_a iter peers : ∀ net m sent,
  net_ok link sent net → sent + Z.of_nat (length peers) < 2 ^ 64 →
  Forall (link a) peers → iter ≡ₚ map_to_list (routes (net a)) →
  (∀ b, link a b → peer_pubkeys (m b) !! a = Some (ed_public (cfg_seed (dm_config st_a)))) →
  (∀ n, n ≠ a → dm_routing (m n) = net n) →
  let '(adverts, t) := generate_all_advertisements iter peers (net a) in
  ∃ m' net', deliver now a (map (λ p, Send p.1 (signed_advert st_a p.2)) adverts) m = Ok m' ∧
    net_run digest link net (map (pair a) peers) net' ∧ net' a = t ∧ m' a = m a ∧
    (∀ n, n ≠ a → dm_routing (m' n) = net' n) ∧ (∀ n, same_node (m n) (m' n)).
Proof using HK Hnonzero Hnodes Htopo Hids Hsize.
  induction peers as [|b peers IH]; intros net m sent Hok Hs Hl Hi Hk Hm; cbn [generate_all_advertisements].
  { exists m, net. split_and!; (done || constructor). }
  apply Forall_cons in Hl as [Hb Hl]. cbn [length] in Hs. pose proof (link_sym _ Htopo _ _ Hb) as Hb'.
  assert (Hne : b ≠ a) by (intros ->; by apply (link_irrefl _ Htopo a)).
  pose proof (generated_wf sent net a b iter Hok ltac:(lia) Hb Hi) as Hwf.
  destruct (advert_delivered now a (generate_advertisement iter b (net a)).1 st_a (m b) Hwf (Hk b Hb)) as [Hrc Hsame].
  pose proof (exchange_net_ok digest link Htopo now iter a b net sent Hok Hb' Hi ltac:(lia)) as Hok1.
  pose proof (exchange_receiver digest link Htopo now iter a b net Hb') as Hnb.
  pose proof (exchange_sender digest link Htopo now iter a b net Hb') as Hna.
  pose proof (exchange_others digest now iter a b net) as Hno.
  set (net1 := exchange digest now iter a b net) in *.
  assert (Hroutes1 : routes (generate_advertisement iter b (net a)).2 = routes (net a)) by done.
  destruct (generate_advertisement iter b (net a)) as [u t1]. cbn [fst snd] in *.
  set (st_b := on_routing _ (m b)) in *.
  specialize (IH net1 (mesh_set b st_b m) (sent + 1) Hok1 ltac:(lia) Hl).
  rewrite Hna in IH. destruct (generate_all_advertisements iter peers t1) as [adverts t]. cbn [map fst snd deliver_all].
  rewrite Hrc. cbn [obind]. destruct IH as (m' & net' & Hd & Hr & Ha & Hma & Hm' & Hs').
  - by rewrite Hroutes1.
  - intros c Hc. destruct (decide (c = b)) as [->|]; [rewrite mesh_set_eq|rewrite mesh_set_ne by done; by apply Hk].
    rewrite (nd_pubkeys _ _ Hsame). by apply Hk.
  - intros n Hn. destruct (decide (n = b)) as [->|]; [rewrite mesh_set_eq|rewrite mesh_set_ne by done].
    + rewrite Hnb. unfold st_b. cbn. by rewrite Hm.
    + rewrite Hno by done. by apply Hm.
  - exists m', net'. split_and!; try done.
    + cbn [map]. econstructor; [exact Hb'|exact Hi|exact Hr].
    + rewrite Hma. by apply mesh_set_ne.
    + intros n. etransitivity; [|apply Hs']. destruct (decide (n = b)) as [->|]; [by rewrite mesh_set_eq|by rewrite mesh_set_ne].
Qed.
Notation tick := (mesh_tick digest sha256 iter_routes iter_peers).
Notation run := (run_ticks digest sha256 iter_routes iter_peers).

Lemma peers_bound m a peers : peered m → peers ≡ₚ elements (direct_peers (net_of m a)) → (length peers ≤ size nodes)%nat.
Proof using Hnodes Htopo.
  intros Hp ->. change (size (direct_peers (net_of m a)) ≤ size nodes)%nat. apply subseteq_size. intros b Hb.
  by apply (pe_peers _ Hp), link_in in Hb.
Qed.

Lemma tick_refines now a m sent :
  net_ok link sent (net_of m) → peered m → sent + Z.of_nat (size nodes) < 2 ^ 64 →
  ∃ m' peers net', tick now a m = Ok m' ∧ peers ≡ₚ elements (direct_peers (net_of m a)) ∧
    net_run digest link (net_of m) (map (pair a) peers) net' ∧ net_eq net' (net_of m') ∧ ∀ n, same_node (m n) (m' n).
Proof using HK Hnonzero Hroutes Hpeers Hnodes Htopo Hids Hsize.
  intros Hok Hp Hs. unfold mesh_tick, advertisement_tick. set (peers := iter_peers (direct_peers (dm_routing (m a)))).
  assert (Hin : Forall (link a) peers).
  { apply Forall_forall. intros b Hb. unfold peers in Hb. rewrite Hpeers, elem_of_elements in Hb. by apply (pe_peers _ Hp) in Hb. }
  pose proof (peers_bound m a peers Hp (Hpeers _)) as Hlen.
  pose proof (adverts_exchange now a (m a) (iter_routes (routes (dm_routing (m a)))) peers (net_of m)) as Hadv.
  pose proof (generate_all_peers (iter_routes (routes (dm_routing (m a)))) peers (dm_routing (m a))) as Hgp.
  destruct (generate_all_routes (iter_routes (routes (dm_routing (m a)))) peers (dm_routing (m a))) as (_ & _ & Hgb & _).
  change (net_of m a) with (dm_routing (m a)) in Hadv.
  destruct (generate_all_advertisements _ peers (dm_routing (m a))) as [adverts t]. cbn [snd] in *.
  set (st := on_routing (λ _, t) (m a)).
  assert (Hst : same_node (m a) st) by by split.
  pose proof (send_all_acts links_up now (map (λ p, (p.1, signed_advert st p.2)) adverts) st) as Hacts.
  pose proof (send_all_only links_up now (map (λ p, (p.1, signed_advert st p.2)) adverts) st) as Hob.
  destruct (send_all links_up now _ st) as [acts st']. cbn [fst snd] in *. subst acts. rewrite map_map. cbn [fst snd].
  change (signed_advert st) with (signed_advert (m a)). pose proof (same_node_buffer _ _ Hob) as Hst'.
  destruct (Hadv (mesh_set a st' m) sent Hok) as (m' & net' & Hd & Hr & Ha & Hma & Hm & Hsame); [lia|done|apply Hroutes| | |].
  - intros b Hb. rewrite mesh_set_ne; [by apply (pe_keys _ Hp)|]. intros ->. by apply (link_irrefl _ Htopo a).
  - intros n Hn. by rewrite mesh_set_ne.
  - exists m', peers, net'. split_and!; try done.
    + unfold peers. apply Hpeers.
    + intros n. unfold net_of. destruct (decide (n = a)) as [->|Hn]; [|by rewrite Hm]. rewrite Ha, Hma, mesh_set_eq.
      by destruct (only_buffer_fields _ _ Hob) as [-> _].
    + intros n. etransitivity; [|apply Hsame]. destruct (decide (n = a)) as [->|]; [|by rewrite mesh_set_ne].
      rewrite mesh_set_eq. by etransitivity.
Qed.

Lemma net_ok_eq sent net net' : net_eq net net' → net_ok link sent net → net_ok link sent net'.
Proof.
  intros He [H1 H2 H2' H3 H4 H5 H6]. unfold has_hops in *. split; intros n.
  - by rewrite <- He.
  - by rewrite <- He.
  - by rewrite <- He.
  - intros d h. rewrite <- He. apply H3.
  - intros b Hl. unfold has_hops. rewrite <- He. by apply H4.
  - intros b. rewrite <- !He. apply H5.
  - rewrite <- He. apply H6.
Qed.

(** Any schedule of ticks is a run of the network. *)
Lemma ticks_refine ticks : ∀ m sent,
  net_ok link sent (net_of m) → peered m → sent + Z.of_nat (size nodes * length ticks) < 2 ^ 64 →
  ∃ m' sched net', run ticks m = Ok m' ∧ net_run digest link (net_of m) sched net' ∧ net_eq net' (net_of m') ∧
    (∀ n, same_node (m n) (m' n)) ∧ (length sched ≤ size nodes * length ticks)%nat ∧
    ∀ a b, a ∈ ticks.*2 → link a b → (a, b) ∈ sched.
Proof using HK Hnonzero Hroutes Hpeers Hnodes Htopo Hids Hsize.
  induction ticks as [|[now a] ticks IH]; intros m sent Hok Hp Hs; cbn [run_ticks length] in *.
  { exists m, [], (net_of m). split; [done|]. split; [constructor|]. split; [done|]. split; [by intros n|]. split; [cbn; lia|]. by intros a b ?%elem_of_nil. }
  destruct (tick_refines now a m sent Hok Hp) as (m1 & peers & net1 & -> & Hpe & Hr1 & He1 & Hs1); [lia|]. cbn [obind].
  pose proof (peers_bound m a peers Hp Hpe) as Hlen.
  pose proof (net_run_ok digest link Htopo _ _ _ _ Hr1 Hok) as Hok1. rewrite length_map in Hok1.
  destruct (IH m1 (sent + Z.of_nat (length peers))) as (m' & sched & net2 & Hrun & Hr2 & He2 & Hs2 & Hl2 & Hin2).
  { eapply net_ok_eq; [done|]. apply Hok1. lia. }
  { by eapply peered_same. }
  { lia. }
  destruct (net_run_proper digest link _ net1 _ _ Hr2) as (net' & Hr & He); [by symmetry|].
  exists m', (map (pair a) peers ++ sched), net'. split_and!.
  - done.
  - by eapply net_run_trans.
  - etransitivity; [by symmetry|done].
  - intros n. by etransitivity; [apply Hs1|].
  - rewrite length_app, length_map. lia.
  - cbn [fmap list_fmap]. intros c b [->|Hc]%elem_of_cons Hl; apply elem_of_app; [left|right; by apply Hin2].
    apply list_elem_of_fmap. exists b. split; [done|]. rewrite Hpe, elem_of_elements. by apply (pe_peers _ Hp).
Qed.
Lemma run_ticks_app t1 t2 m m1 : run t1 m = Ok m1 → run (t1 ++ t2) m = run t2 m1.
Proof.
  revert m. induction t1 as [|[now a] t1 IH]; intros m; cbn [run_ticks app]; [by intros [= ->]|].
  destruct (tick now a m); cbn [obind]; [apply IH|done|done].
Qed.

(** Rounds of ticks are rounds of the network. *)
Lemma rounds_refine rounds : ∀ m sent,
  Forall (λ ticks : list (Z * NodeId), ∀ n, n ∈ nodes → n ∈ ticks.*2) rounds →
  net_ok link sent (net_of m) → peered m → sent + Z.of_nat (size nodes * length (concat rounds)) < 2 ^ 64 →
  ∃ m' scheds net', run (concat rounds) m = Ok m' ∧ net_run digest link (net_of m) (concat scheds) net' ∧ net_eq net' (net_of m') ∧
    (∀ n, same_node (m n) (m' n)) ∧ (length (concat scheds) ≤ size nodes * length (concat rounds))%nat ∧
    length scheds = length rounds ∧ Forall (is_round link) scheds.
Proof using HK Hnonzero Hroutes Hpeers Hnodes Htopo Hids Hsize.
  induction rounds as [|ticks rounds IH]; intros m sent Hall Hok Hp Hs; cbn [concat] in *.
  { exists m, [], (net_of m). split; [done|]. split; [constructor|]. split; [done|]. split; [by intros n|]. split; [cbn; lia|]. split; [done|constructor]. }
  apply Forall_cons in Hall as [Hround Hall]. rewrite length_app in Hs.
  destruct (ticks_refine ticks m sent Hok Hp) as (m1 & s1 & net1 & Hrun1 & Hr1 & He1 & Hs1 & Hl1 & Hin1); [lia|].
  pose proof (net_run_ok digest link Htopo _ _ _ _ Hr1 Hok) as Hok1.
  destruct (IH m1 (sent + Z.of_nat (length s1))) as (m' & ss & net2 & Hrun2 & Hr2 & He2 & Hs2 & Hl2 & Hn2 & Hf2);
    [done|eapply net_ok_eq; [done|apply Hok1; lia]|by eapply peered_same|lia|].
  destruct (net_run_proper digest link _ net1 _ _ Hr2) as (net' & Hr & He); [by symmetry|].
  exists m', (s1 :: ss), net'. cbn [concat length]. rewrite (run_ticks_app _ _ _ _ Hrun1). split_and!; try done.
  - by eapply net_run_trans.
  - etransitivity; [by symmetry|done].
  - intros n. by etransitivity; [apply Hs1|].
  - rewrite !length_app. lia.
  - by rewrite Hn2.
  - constructor; [|done]. intros a b Hl. pose proof (link_sym _ Htopo _ _ Hl) as Hl'. apply Hin1; [|done]. by eapply Hround, Hnodes.
Qed.

(** Daemons that have met: each started with its direct peers, knows their
    keys, and has a session with each that matches theirs. *)
Record met (m : mesh) : Prop := {
  mt_start : net_initial digest link (net_of m);
  mt_self : ∀ n, ds_self_id (dm_data (m n)) = n;
  mt_keys : ∀ a b, link a b → peer_pubkeys (m b) !! a = Some (ed_public (cfg_seed (dm_config (m a))));
  mt_sessions : ∀ a b, link a b → ∃ s r, dm_sessions (m a) !! b = Some s ∧ dm_sessions (m b) !! a = Some r ∧ paired s r ∧
    0 ≤ sc_counter (session_send s) < MAX_NONCE_COUNTER;
}.

Lemma add_peers_config now t peers :
  direct_peers (foldr (add_peer digest now) t peers) = list_to_set peers ∪ direct_peers t ∧
  blacklisted_peers (foldr (add_peer digest now) t peers) = blacklisted_peers t.
Proof.
  induction peers as [|p peers [IH1 IH2]]; cbn [foldr list_to_set]; [split; [by rewrite union_empty_l_L|done]|].
  unfold add_peer at 1 3. pose proof (insert_route_config digest p (peer_entry now p 0)
    (set_direct_peers ({[p]} ∪ direct_peers (foldr (add_peer digest now) t peers)) (foldr (add_peer digest now) t peers))) as Hc.
  rewrite (sc_direct_peers _ _ Hc), (sc_blacklist _ _ Hc). cbn. rewrite IH1, IH2. by rewrite union_assoc_L.
Qed.

Lemma met_peered m : met m → peered m ∧ ∀ n, blacklisted_peers (net_of m n) = ∅.
Proof.
  intros [Hst _ Hk _]. split; [split; [|done]|].
  - intros a b. destruct (Hst a) as (gw & prefix & ip & now & peers & Hp & ->).
    destruct (add_peers_config now (started_table a gw prefix ip) peers) as [-> _].
    rewrite elem_of_union, elem_of_list_to_set, Hp. cbn. split; [by intros [?|?%elem_of_empty]|by left].
  - intros n. destruct (Hst n) as (gw & prefix & ip & now & peers & Hp & ->).
    by destruct (add_peers_config now (started_table n gw prefix ip) peers) as [_ ->].
Qed.

(** ** Packets follow the routes *)

(** Every node has the shortest route to every node up to [k + 1] links away. *)
Definition converged (k : nat) (m : mesh) : Prop :=
  ∀ n d j, distance link n d (S j) → (j ≤ k)%nat → Z.of_nat (S j) < INFINITY →
    ∃ e, routes (net_of m n) !! d = Some e ∧ rt_hops e = Z.of_nat (S j) ∧ link n (rt_next_hop e) ∧ distance link (rt_next_hop e) d j.

Record joined (m : mesh) : Prop := {
  jn_self : ∀ n, ds_self_id (dm_data (m n)) = n ∧ self_id (net_of m n) = n;
  jn_blacklist : ∀ n, blacklisted_peers (net_of m n) = ∅;
  jn_sessions : ∀ a b, link a b → ∃ s r, dm_sessions (m a) !! b = Some s ∧ dm_sessions (m b) !! a = Some r ∧ paired s r ∧
    0 ≤ sc_counter (session_send s) < MAX_NONCE_COUNTER;
}.

Lemma distance_unique n d i j : distance link n d i → distance link n d j → i = j.
Proof. intros [H1 H2] [H3 H4]. specialize (H2 _ H3). specialize (H4 _ H1). lia. Qed.

Lemma converged_lookup k m n d j : converged k m → joined m → distance link n d (S j) → (j ≤ k)%nat → Z.of_nat (S j) < INFINITY →
  ∃ next, lookup_route d (net_of m n) = Some next ∧ link n next ∧ distance link next d j ∧ d ≠ n.
Proof.
  intros Hc Hj Hd Hk Hinf. destruct (Hc n d j Hd Hk Hinf) as (e & He & _ & Hl & Hn). exists (rt_next_hop e).
  assert (Hne : d ≠ n).
  { intros ->. destruct Hd as [_ Hmin]. specialize (Hmin _ (WalkNil link n)). lia. }
  unfold lookup_route. rewrite (proj2 (jn_self _ Hj n)), bool_decide_eq_false_2, He, (jn_blacklist _ Hj) by done.
  by rewrite bool_decide_eq_false_2 by apply not_elem_of_empty.
Qed.

(** The states of the data plane the frames travel through. *)
Definition data_of (m : mesh) : NodeId → DataState := λ n, dm_data (m n).

Lemma converged_chain k m d : converged k m → joined m → ∀ j from n s,
  link from n → dm_sessions (m from) !! n = Some s → distance link from d (S j) → distance link n d j →
  (j ≤ k)%nat → Z.of_nat (S j) < INFINITY →
  ∃ path, chain (data_of m) d from s (n :: path) ∧ length path = j ∧ NoDup (n :: path) ∧
    Forall (λ h, ∃ i, (i ≤ j)%nat ∧ distance link h d i) (n :: path).
Proof.
  intros Hc Hj j. induction j as [|j IH]; intros from n s Hl Hs Hf Hn Hk Hinf;
    destruct (jn_sessions _ Hj _ _ Hl) as (s' & r & Hs' & Hr & Hp & Hcnt); assert (s' = s) as -> by congruence.
  - assert (n = d) as -> by (destruct Hn as [Hw _]; by inversion Hw). exists []. split_and!; [|done|apply NoDup_singleton|].
    + eapply chain_end; [done..|]. apply (proj1 (jn_self _ Hj d)).
    + apply Forall_singleton. eauto.
  - destruct (converged_lookup k m n d j Hc Hj Hn) as (next & Hlk & Hln & Hdn & Hne); [lia|lia|].
    destruct (jn_sessions _ Hj _ _ Hln) as (fwd & r' & Hfwd & _).
    destruct (IH n next fwd Hln Hfwd Hn Hdn) as (path & Hch & Hlen & Hnd & Hall); [lia|lia|].
    exists (next :: path). split_and!; [|cbn; lia| |].
    + eapply chain_relay; [exact Hr|done|done| |exact Hlk| |exact Hfwd|done].
      * unfold data_of. by rewrite (proj1 (jn_self _ Hj n)).
      * intros ->. pose proof (distance_unique _ _ _ _ Hf Hdn). lia.
    + apply NoDup_cons. split; [|done]. intros Hin. rewrite Forall_forall in Hall. destruct (Hall n Hin) as (i & Hi & Hdi).
      pose proof (distance_unique _ _ _ _ Hn Hdi). lia.
    + constructor; [by exists (S j)|]. eapply Forall_impl; [exact Hall|]. intros h (i & Hi & Hdi). exists i. split; [lia|done].
Qed.

Context {HA : LawfulAead A} {HT : TotalAead A}.

(** C1: The mesh converges and carries: at most 1000 daemons that have met
    advertise in rounds, each of them at least once a round
    (nodes times ticks below [2 ^ 64]), over the real frames, signatures and streams; after
    [k] rounds each has the shortest route to every node at most [k + 1] and
    fewer than 16 links away, and an unfragmented data frame sent to such a
    node with a TTL of at least the number of relays (the daemon sends 8) goes
    to the next hop of that route, from each daemon to the one it addresses the
    frame to, opened and sealed again at each, and is delivered at its
    destination unchanged. *)
Theorem mesh_converges m rounds :
  met m → Forall (λ ticks : list (Z * NodeId), ∀ n, n ∈ nodes → n ∈ ticks.*2) rounds →
  Z.of_nat (size nodes * length (concat rounds)) < 2 ^ 64 →
  ∃ m', run (concat rounds) m = Ok m' ∧
    ∀ n d j, distance link n d (S j) → (j ≤ length rounds)%nat → Z.of_nat (S j) < INFINITY →
      (∃ e, routes (dm_routing (m' n)) !! d = Some e ∧ rt_hops e = Z.of_nat (S j) ∧ distance link (rt_next_hop e) d j) ∧
      ∀ now ttl flags payload,
        MeshDataFrame_wf {| md_src_id := n; md_dst_id := d; md_session_id := 0; md_ttl := ttl; md_flags := flags; md_payload := payload |} →
        flags_contains flags IS_CONTROL = false → flags_contains flags IS_FRAGMENT = false → Z.of_nat j ≤ ttl →
        ∃ next s f, lookup_route d (dm_routing (m' n)) = Some next ∧ dm_sessions (m' n) !! next = Some s ∧
          (send_single_mesh s n d ttl flags payload).1 = [f] ∧
          travel (S j) now (data_of m') n next f = Ok (Some (d, Deliver n flags payload)).
Proof using HK HA HT Hnonzero Hroutes Hpeers Hnodes Htopo Hids Hsize.
  intros Hmet Hall Hs. destruct (met_peered m Hmet) as [Hp Hbl]. pose proof (net_initial_ok digest link Htopo _ (mt_start _ Hmet)) as Hok.
  destruct (rounds_refine rounds m 0 Hall Hok Hp) as (m' & scheds & net' & Hrun & Hr & He & Hsame & Hlen & Hn & Hf); [lia|].
  exists m'. split; [done|]. assert (Hok' := net_run_ok digest link Htopo _ _ _ _ Hr Hok ltac:(lia)).
  assert (Hc : converged (length rounds) m').
  { intros n d j Hd Hj Hinf. destruct (rounds_learn digest link Htopo scheds 0 1 _ _ Hr Hf Hok ltac:(lia) (initial_exact link _ _ Hok) n d (S j) Hd)
      as (h & Hh & Hk); [lia|done|]. pose proof (next_hop_closer link _ _ Hok' n d j h Hd Hh Hk) as Hcl.
    destruct (no_real _ _ _ Hok' n d h Hh) as (_ & _ & Hl & _). rewrite (He n) in Hh.
    destruct (routes (net_of m' n) !! d) as [e|]; [|done]. cbn in Hh. injection Hh as <-. by exists e. }
  assert (Hj : joined m').
  { split.
    - intros n. rewrite (nd_self _ _ (Hsame n)), (mt_self _ Hmet), <- (He n). split; [done|]. apply (no_self _ _ _ Hok').
    - intros n. unfold net_of. rewrite (nd_blacklist _ _ (Hsame n)). apply Hbl.
    - intros a b. rewrite (nd_sessions _ _ (Hsame a)), (nd_sessions _ _ (Hsame b)). apply (mt_sessions _ Hmet). }
  intros n d j Hd Hjk Hinf. split; [destruct (Hc n d j Hd Hjk Hinf) as (e & ? & ? & ? & ?); eauto|].
  intros now ttl flags payload Hwf Hctl Hfrag Httl.
  destruct (converged_lookup _ _ _ _ _ Hc Hj Hd Hjk Hinf) as (next & Hlk & Hl & Hdn & _).
  destruct (jn_sessions _ Hj _ _ Hl) as (s & _ & Hse & _).
  destruct (converged_chain _ _ d Hc Hj j n next s Hl Hse Hd Hdn Hjk Hinf) as (path & Hch & <- & Hnd & _).
  destruct (chain_delivers now _ n d ttl flags payload n s _ _ Hch Hnd ltac:(lia) Hwf Hctl Hfrag) as (f & Hsend & Ht).
  exists next, s, f. split_and!; try done. rewrite Ht. by rewrite (proj2 (Z.leb_le _ _)) by lia.
Qed.
End Refine.

(** ** Three daemons in a line *)
Definition line_mesh : mesh := λ n,
  MkDaemon {| cfg_seed := as_bytes n; cfg_own_x25519_pub := replicate 32 1; cfg_node_name := [110]; cfg_mesh_handshake_key := None |}
    (sample_state n (map (λ p, (p, if bool_decide (n = sample_id 2) then initiator_session sample_key p else responder_session sample_key p)) (line_peers n))
       (line_net n))
    (AuthorizationManager_new TrustOnFirstUse ∅ ∅) (list_to_map (map (λ p, (p, pad32 (as_bytes p))) (line_peers n)))
    ∅ ∅ (SendBuffer_new 16 1000) 0 ∅ ∅ sample_dial.
Definition line_nodes : gset NodeId := {[sample_id 1; sample_id 2; sample_id 3]}.
Definition line_ticks : list (Z * NodeId) := [(0, sample_id 1); (5, sample_id 2); (7, sample_id 3)].

Lemma line_met : met (K:=toy_crypto) sample_digest line_link line_mesh.
Proof.
  split.
  - exact line_initial.
  - done.
  - intros a b Hl%(link_sym _ line_topology)%line_link_pairs. unfold line_round in Hl. set_unfold.
    destruct Hl as [[= -> ->]|[[= -> ->]|[[= -> ->]|[[= -> ->]|[]]]]]; vm_compute; reflexivity.
  - intros a b Hl%(link_sym _ line_topology)%line_link_pairs. unfold line_round in Hl. set_unfold.
    destruct Hl as [[= -> ->]|[[= -> ->]|[[= -> ->]|[[= -> ->]|[]]]]]; eexists _, _;
      (split; [vm_compute; reflexivity|]); (split; [vm_compute; reflexivity|]);
      (split; [split; [reflexivity|split; [reflexivity|by left]]|by vm_compute]).
Qed.

Lemma mesh_converges_witness :
  ∃ m', run_ticks (A:=null_aead) (K:=toy_crypto) sample_digest sample_hash map_to_list elements line_ticks line_mesh = Ok m' ∧
    ∃ next s f, lookup_route (sample_id 3) (dm_routing (m' (sample_id 1))) = Some next ∧
      dm_sessions (m' (sample_id 1)) !! next = Some s ∧
      (send_single_mesh (A:=null_aead) s (sample_id 1) (sample_id 3) 8 0 [1; 2; 3]).1 = [f] ∧
      travel (A:=null_aead) 2 9 (data_of m') (sample_id 1) next f = Ok (Some (sample_id 3, Deliver (sample_id 1) 0 [1; 2; 3])).
Proof.
  destruct (mesh_converges (A:=null_aead) (K:=toy_crypto) sample_digest sample_hash map_to_list elements line_link line_nodes
    ltac:(intros seed msg Heq; cbn in Heq; discriminate) ltac:(reflexivity) ltac:(reflexivity) line_topology) with (m := line_mesh) (rounds := [line_ticks])
    as (m' & Hrun & Hm).
  - intros a b Hl%(link_sym _ line_topology)%line_link_pairs. unfold line_round in Hl. set_unfold.
    destruct Hl as [[= -> ->]|[[= -> ->]|[[= -> ->]|[[= -> ->]|[]]]]]; by apply (bool_decide_unpack _); vm_compute.
  - intros n Hn. unfold line_nodes in Hn. set_unfold. destruct Hn as [[->| ->]| ->]; by apply (bool_decide_unpack _); vm_compute.
  - by vm_compute.
  - exact null_aead_lawful.
  - exact null_aead_total.
  - exact line_met.
  - apply Forall_singleton. intros n Hn. unfold line_nodes in Hn. rewrite !elem_of_union, !elem_of_singleton in Hn.
    destruct Hn as [[->| ->]| ->]; by apply (bool_decide_unpack _); vm_compute.
  - by vm_compute.
  - exists m'. split; [exact Hrun|].
    destruct (Hm (sample_id 1) (sample_id 3) 1%nat line_distance) as [_ Hd]; [cbn; lia|reflexivity|].
    apply Hd; [by apply (bool_decide_unpack _); vm_compute|reflexivity|reflexivity|done].
Defined.
