(* ===== verification/Identity.v ===== *)
(** * Identity broadcast (crates/pim-daemon/src/identity_broadcast.rs)

    How a node tells the mesh its encryption key and name, and what it does
    with those of others: the cycle that sends [PeerInfo] to every node of the
    routing table, and the gates an incoming one passes before it reaches the
    peer directory.  Instants are milliseconds. *)

From S2P Require Import Prelude Core MeshAddress Frames Control Stream Fragment Routing Session DataPlane SendBuffer Trust E2e.
From S2P Require Import Handshake Reconnect Daemon Text Toml Config PeerDirectory.

(** The fields of the daemon's state that this module owns. *)
Record IdentityState := MkIdentity {
  broadcast_config : BroadcastConfig;
  broadcast_peer_last_seen : gmap NodeId Z;
  peer_directory : PeersDb;
  last_broadcast_ms : Z;
  last_broadcast_recipients : Z;
}.

Definition broadcast_should_emit_event (source : PeerInfoSource) (st : IdentityState) : bool :=
  match source with Direct => true | Routed => watch_incoming (broadcast_config st) end.

(** The rate limit of routed announcements: whether this one passes. *)
Definition broadcast_gate (now : Z) (src : NodeId) (source : PeerInfoSource) (st : IdentityState) : bool * IdentityState :=
  match source with
  | Direct => (true, st)
  | Routed =>
    let min_interval_s := min_peer_interval_s (broadcast_config st) in
    if 0 <? min_interval_s then
      let accept := (true, MkIdentity (broadcast_config st) (<[src := now]> (broadcast_peer_last_seen st)) (peer_directory st)
                             (last_broadcast_ms st) (last_broadcast_recipients st)) in
      match broadcast_peer_last_seen st !! src with
      | Some prev => if elapsed now prev / 1000 <? min_interval_s then (false, st) else accept
      | None => accept
      end
    else (true, st)
  end.

(** [now] is the instant, [now_ms] the wall clock. *)
Definition handle_incoming_peer_info (ok : bool) (now now_ms : Z) (src : NodeId) (x25519_pub friendly_name : list Z) (source : PeerInfoSource)
    (st : IdentityState) : list PeerDirectoryEvent * IdentityState :=
  let '(pass, st) := broadcast_gate now src source st in
  if negb pass then ([], st) else
  let '(_, evs, db) := record_peer_seen ok src x25519_pub friendly_name now_ms source (broadcast_should_emit_event source st) (peer_directory st) in
  (evs, MkIdentity (broadcast_config st) (broadcast_peer_last_seen st) db (last_broadcast_ms st) (last_broadcast_recipients st)).

Section Broadcast.
Context {A : Aead}.
Context (answer : NodeId → TransportFrame → SendResult).
Context (iter_routes : gmap NodeId RouteTableEntry → list (NodeId * RouteTableEntry)).

Definition own_peer_info (st : DaemonState) : ControlFrame :=
  PeerInfo (cfg_own_x25519_pub (dm_config st)) (cfg_node_name (dm_config st)).

Definition send_peer_info_routed (now : Z) (peer : NodeId) (st : DaemonState) : list Action * DaemonState :=
  let '(_, acts, st) := send_routed_control answer now peer (own_peer_info st) st in (acts, st).

Fixpoint send_peer_info_all (now : Z) (peers : list NodeId) (st : DaemonState) : list Action * DaemonState :=
  match peers with
  | [] => ([], st)
  | peer :: peers =>
    let '(acts, st) := send_peer_info_routed now peer st in
    let '(acts', st) := send_peer_info_all now peers st in
    (acts ++ acts', st)
  end.

(** The number of recipients is what the cycle returns and stores. *)
Definition run_broadcast_cycle (now now_ms : Z) (st : DaemonState) (ids : IdentityState) : nat * list Action * DaemonState * IdentityState :=
  let snapshot := List.filter (λ id, negb (bool_decide (id = ds_self_id (dm_data st)))) (map fst (iter_routes (routes (dm_routing st)))) in
  let '(acts, st) := send_peer_info_all now snapshot st in
  (length snapshot, acts, st,
   MkIdentity (broadcast_config ids) (broadcast_peer_last_seen ids) (peer_directory ids) now_ms (Z.of_nat (length snapshot))).
End Broadcast.

(** ** Plugins (crates/pim-plugin/src/lib.rs, app/event_loop.rs) *)

(** A plugin: the kinds of payload it claims, its handler, and what it does
    when a peer is forgotten; [S] is what it may change, [O] what it emits. *)
Record DaemonPlugin (S O : Type) := {
  payload_kinds : list (list Z);
  handle_payload : NodeId → list Z → list Z → S → list O * S;
  on_peer_forgotten : NodeId → S → list O * S;
}.
Arguments payload_kinds {S O} _.
Arguments handle_payload {S O} _ _ _ _ _.
Arguments on_peer_forgotten {S O} _ _ _.

(** The first plugin that claims the kind; [None] is before start-up. *)
Definition dispatch_plugin_payload {S O} (plugins : option (list (DaemonPlugin S O))) (src : NodeId) (kind body : list Z) (s : S) : list O * S :=
  match plugins with
  | None => ([], s)
  | Some ps =>
    match List.find (λ p, bool_decide (kind ∈ payload_kinds p)) ps with
    | Some p => handle_payload p src kind body s
    | None => ([], s)
    end
  end.

Fixpoint notify_forgotten {S O} (plugins : list (DaemonPlugin S O)) (peer : NodeId) (s : S) : list O * S :=
  match plugins with
  | [] => ([], s)
  | p :: ps => let '(o, s) := on_peer_forgotten p peer s in let '(o', s) := notify_forgotten ps peer s in (o ++ o', s)
  end.

(** Sending for plugins ([ControlSender]). *)
Class ControlSender (C : Type) := send_routed : NodeId → ControlFrame → C → bool * list Action * C.

(** The adapter of crates/pim-daemon/src/plugin_host.rs. *)
Definition ControlSenderAdapter {A : Aead} (answer : NodeId → TransportFrame → SendResult) (now : Z) : ControlSender DaemonState :=
  λ dst_id frame st, send_routed_control answer now dst_id frame st.
