(* ===== verification/Cleanup.v ===== *)
(** * Forgetting peers (crates/pim-daemon/src/peer_cleanup.rs, peer_cleanup/)

    The periodic sweeps that drop what has not been seen for long: identities
    of the peer directory, the reachability logs of Bluetooth and Wi-Fi Direct
    peers, the rate-limit entries of the identity broadcast, and discovered
    reconnection targets.  What [bluetoothctl] prints and whether it succeeds
    are arguments; what is run of it is returned. *)

From S2P Require Import Prelude Core MeshAddress Frames Control Stream Fragment Routing Session DataPlane SendBuffer Trust E2e.
From S2P Require Import Handshake Reconnect Daemon Text Toml Config PeerDirectory Identity.

(** ** The driver *)
Definition MIN_LIFETIME_S : Z := 3600.
Definition MIN_INTERVAL_S : Z := 60.

(** The interval and the lifetime the task runs with, [None] if it does not
    run; the lifetime is cast from [u64] to [i64]. *)
Definition spawn (cfg : PeerCleanupConfig) : option (Z * Z) :=
  if negb (pc_enabled cfg) then None else
  let interval := Z.max (cleanup_interval_s cfg) MIN_INTERVAL_S in
  let lifetime := Z.max (max_unreachable_lifetime_s cfg) MIN_LIFETIME_S in
  Some (interval, if lifetime <? 2 ^ 63 then lifetime else lifetime - 2 ^ 64).

(** Saturating arithmetic of [i64]. *)
Definition clamp_i64 (v : Z) : Z := Z.max (- 2 ^ 63) (Z.min (2 ^ 63 - 1) v).
Definition saturating_sub (a b : Z) : Z := clamp_i64 (a - b).
Definition saturating_mul (a b : Z) : Z := clamp_i64 (a * b).

(** ** Identities (mesh_identity.rs) *)
Fixpoint forget_all (ok : NodeId → bool) (active : gset NodeId) (stale : list (NodeId * Z * list Z)) (db : PeersDb) : list PeerDirectoryEvent * PeersDb :=
  match stale with
  | [] => ([], db)
  | (peer, _, _) :: stale =>
    if bool_decide (peer ∈ active) then forget_all ok active stale db else
    let '(_, evs, db) := forget (ok peer) peer db in
    let '(evs', db) := forget_all ok active stale db in
    (evs ++ evs', db)
  end.
Definition mesh_identity_sweep (ok : bool) (ok_forget : NodeId → bool) (now_s lifetime_s : Z) (sessions : gset NodeId) (db : PeersDb)
  : outcome DirectoryError unit * list PeerDirectoryEvent * PeersDb :=
  let threshold_ms := saturating_mul (saturating_sub now_s lifetime_s) 1000 in
  match list_peers_older_than ok threshold_ms db with
  | Ok stale => let '(evs, db) := forget_all ok_forget sessions stale db in (Ok tt, evs, db)
  | Err e => (Err e, [], db)
  | Panic => (Panic, [], db)
  end.

(** ** In-memory state (broadcast.rs, reconnect_discovered.rs); milliseconds *)
Definition broadcast_sweep (now lifetime_s : Z) (m : gmap NodeId Z) : gmap NodeId Z :=
  filter (λ p, elapsed now p.2 ≤ Z.max lifetime_s 0 * 1000) m.
Definition reconnect_discovered_sweep (now lifetime_s : Z) (m : ReconnectManager) : nat * ReconnectManager :=
  expire_discovered_targets now (Z.max lifetime_s 0 * 1000) m.

(** ** Bluetooth (rfcomm.rs, bluetooth_pan.rs) *)

(** The addresses of [bluetoothctl devices Paired]. *)
Definition parse_paired (stdout : list Z) : list (list Z) :=
  omap (λ line, match strip_prefix (str "Device ") (trim line) with
                | Some rest => fst <$> split_once 32 rest
                | None => None
                end) (lines stdout).

Definition parse_connected (info_output : list Z) : bool :=
  match omap (λ line, strip_prefix (str "Connected:") (trim line)) (lines info_output) with
  | value :: _ => eq_ignore_ascii_case (trim value) (str "yes")
  | [] => false
  end.

(** What [bluetoothctl] answers: the output of a command that succeeded. *)
Record Bluetoothctl := MkBt {
  bt_devices : option (list Z);
  bt_info : list Z → option (list Z);
  bt_remove : list Z → bool;
}.
Definition is_connected (bt : Bluetoothctl) (addr : list Z) : bool :=
  match bt_info bt addr with Some out => parse_connected out | None => false end.

(** The loop over the rows: the commands run and the rows forgotten. *)
Fixpoint sweep_rows (bt : Bluetoothctl) (paired : list (list Z)) (now_s lifetime_s : Z) (rows : list (list Z * LifecycleRecord))
  : list (list Z) * list (list Z) :=
  match rows with
  | [] => ([], [])
  | (addr, row) :: rows =>
    let '(removes, forgotten) := sweep_rows bt paired now_s lifetime_s rows in
    if negb (bool_decide (addr ∈ paired)) then (removes, addr :: forgotten) else
    let last_seen := last_seen_of (lr_first_paired_at_s row) (lr_last_connected_at_s row) in
    let age_s := saturating_sub now_s last_seen in
    if age_s <=? lifetime_s then (removes, forgotten) else
    if is_connected bt addr then (removes, forgotten) else
    (addr :: removes, if bt_remove bt addr then addr :: forgotten else forgotten)
  end.

Inductive SweepError := ScanFailed.

Definition rfcomm_sweep (bt : Bluetoothctl) (now_s lifetime_s : Z) (db : PeersDb) : outcome SweepError (list (list Z)) * PeersDb :=
  match list_rfcomm_lifecycle db with
  | [] => (Ok [], db)
  | rows =>
    match bt_devices bt with
    | None => (Err ScanFailed, db)
    | Some out =>
      let '(removes, forgotten) := sweep_rows bt (parse_paired out) now_s lifetime_s rows in
      (Ok removes, fold_left (λ db addr, (forget_rfcomm_peer addr db).2) forgotten db)
    end
  end.
Definition pan_sweep (bt : Bluetoothctl) (now_s lifetime_s : Z) (db : PeersDb) : outcome SweepError (list (list Z)) * PeersDb :=
  match list_pan_lifecycle db with
  | [] => (Ok [], db)
  | rows =>
    match bt_devices bt with
    | None => (Err ScanFailed, db)
    | Some out =>
      let '(removes, forgotten) := sweep_rows bt (parse_paired out) now_s lifetime_s rows in
      (Ok removes, fold_left (λ db addr, (forget_pan_peer addr db).2) forgotten db)
    end
  end.

(** One event of [run_pan_event_consumer]. *)
Inductive PanPeerEventKind := PanPaired | PanConnected.
Definition pan_event (kind : PanPeerEventKind) (mac name : list Z) (now_s : Z) : PeersDb → PeersDb :=
  match kind with PanPaired => observe_pan_paired mac name now_s | PanConnected => record_pan_connected mac name now_s end.

(** ** Wi-Fi Direct (wfd.rs) *)
Inductive WfdPeerEventKind := WfdDiscovered | WfdConnected.
Definition wfd_event (kind : WfdPeerEventKind) (mac : list Z) (now_s : Z) : PeersDb → PeersDb :=
  match kind with WfdDiscovered => observe_wfd_peer mac now_s | WfdConnected => record_wfd_connected mac now_s end.

Definition wfd_stale (now_s lifetime_s : Z) (row : WfdLifecycleRecord) : bool :=
  lifetime_s <? saturating_sub now_s (last_seen_of (wr_first_seen_at_s row) (wr_last_connected_at_s row)).
Definition wfd_sweep (now_s lifetime_s : Z) (db : PeersDb) : PeersDb :=
  fold_left (λ db r, if wfd_stale now_s lifetime_s r.2 then (forget_wfd_peer r.1 db).2 else db) (list_wfd_lifecycle db) db.

(** ** Lemmas: identities *)

(** Keys of the directory are identifiers. *)
Definition directory_ok (db : PeersDb) : Prop :=
  ∀ k row, peers_seen db !! k = Some row → ∃ id, node_id_wf id ∧ k = hex_node_id id.

Lemma directory_ok_new : directory_ok PeersDb_new.
Proof. intros k row. cbn. by rewrite lookup_empty. Qed.

Lemma directory_ok_upsert ok id key name now db : node_id_wf id → directory_ok db → directory_ok (upsert_peer_seen ok id key name now db).2.
Proof.
  intros Hid Hok. unfold directory_ok, upsert_peer_seen in *. destruct ok; cbn [negb snd]; [|done].
  destruct (peers_seen db !! hex_node_id id); cbn; intros k row; (destruct (decide (k = hex_node_id id)) as [->|Hne];
    [eauto|rewrite lookup_insert_ne by done; apply Hok]).
Qed.

Definition stale_row (threshold : Z) (row : PeerSeen) : bool := ps_last_seen_ms row <? threshold.

Lemma elem_of_older threshold db stale id :
  directory_ok db → list_peers_older_than true threshold db = Ok stale → node_id_wf id →
  (id ∈ stale.*1.*1 ↔ ∃ row, peers_seen db !! hex_node_id id = Some row ∧ stale_row threshold row = true).
Proof.
  intros Hok [= <-] Hid. rewrite !list_elem_of_fmap. setoid_rewrite list_elem_of_fmap. setoid_rewrite list_elem_of_omap.
  setoid_rewrite merge_sort_Permutation. setoid_rewrite list_elem_of_In. setoid_rewrite filter_In. setoid_rewrite <- list_elem_of_In.
  split.
  - intros ([x t] & -> & ([[x' t'] nm] & [= -> ->] & ([k row] & (Hin & Hst) & He))). apply elem_of_map_to_list in Hin. cbn in *.
    destruct (Hok _ _ Hin) as (id' & Hid' & ->). change (hex_node_id id') with (to_hex id') in He.
    rewrite (node_id_hex_roundtrip id' Hid') in He. simplify_eq. eauto.
  - intros (row & Hrow & Hst). eexists (id, _). split; [done|]. eexists (id, _, _). split; [done|]. exists (hex_node_id id, row).
    split; [split; [by apply elem_of_map_to_list|done]|]. cbn. change (hex_node_id id) with (to_hex id). by rewrite (node_id_hex_roundtrip id Hid).
Qed.

Lemma older_wf threshold db stale x : list_peers_older_than true threshold db = Ok stale → x ∈ stale → node_id_wf x.1.1.
Proof.
  intros [= <-] ([k row] & _ & He)%list_elem_of_omap. cbn in He. destruct (NodeId_from_str k) as [id| |] eqn:E; [|done|done].
  injection He as <-. by apply (node_id_from_str_sound k).
Qed.

Lemma forget_all_spec active stale db evs db' id :
  Forall (λ x : NodeId * Z * list Z, node_id_wf x.1.1) stale → node_id_wf id → forget_all (λ _, true) active stale db = (evs, db') →
  peers_seen db' !! hex_node_id id = (if bool_decide (id ∈ stale.*1.*1 ∧ id ∉ active) then None else peers_seen db !! hex_node_id id) ∧
  (Forgotten id ∈ evs ↔ id ∈ stale.*1.*1 ∧ id ∉ active ∧ is_Some (peers_seen db !! hex_node_id id)).
Proof.
  intros Hwf Hid. revert db evs db'. induction Hwf as [|[[p t] n] stale Hp Hwf IH]; intros db evs db'; cbn [forget_all].
  { intros [= <- <-]. rewrite bool_decide_eq_false_2 by (by intros [?%elem_of_nil ?]). split; [done|].
    split; [by intros ?%elem_of_nil|by intros [?%elem_of_nil ?]]. }
  rewrite !fmap_cons. cbn [fst] in *. destruct (decide (p ∈ active)) as [Ha|Ha].
  { rewrite (bool_decide_eq_true_2 (p ∈ active)) by done. intros Hf. destruct (IH _ _ _ Hf) as [Hl He]. rewrite Hl, He. split.
    - clear -Ha. repeat case_bool_decide; (done || set_solver).
    - rewrite elem_of_cons. split; [tauto|]. intros ([->|?] & ? & ?); [done|tauto]. }
  rewrite (bool_decide_eq_false_2 (p ∈ active)) by done. unfold forget, forget_identity. cbn [negb]. set (db1 := on_peers (delete (hex_node_id p)) db).
  destruct (forget_all (λ _, true) active stale db1) as [evs1 db2] eqn:Hf. intros [= <- <-].
  destruct (IH _ _ _ Hf) as [Hl He]. rewrite Hl. unfold db1 in *. cbn [peers_seen on_peers] in *. clear IH Hl Hf.
  destruct (decide (id = p)) as [->|Hne].
  - rewrite lookup_delete_eq in *. split.
    + repeat case_bool_decide; (done || set_solver).
    + rewrite elem_of_app, He, elem_of_cons. case_bool_decide; [rewrite list_elem_of_singleton; tauto|]. rewrite elem_of_nil.
      split; [intros [[]|(_ & _ & [? ?])]; done|tauto].
  - assert (Hhex : hex_node_id p ≠ hex_node_id id) by (intros Heq; apply Hne; symmetry; by apply hex_node_id_inj).
    rewrite lookup_delete_ne in * by done. split.
    + clear -Hne. repeat case_bool_decide; (done || set_solver).
    + assert (Forgotten id ∉ (if bool_decide (is_Some (peers_seen db !! hex_node_id p)) then [Forgotten p] else [])) as Hno.
      { case_bool_decide; set_solver. }
      rewrite elem_of_app, He, elem_of_cons. naive_solver.
Qed.

(** The identity sweep is exact: it forgets the peers that were last seen
    before the threshold and have no session, and no others, so the key of a
    peer in a session is never lost; and it announces exactly those. *)
Theorem mesh_identity_sweep_exact now_s lifetime_s sessions db evs db' id :
  directory_ok db → node_id_wf id →
  mesh_identity_sweep true (λ _, true) now_s lifetime_s sessions db = (Ok tt, evs, db') →
  let threshold := saturating_mul (saturating_sub now_s lifetime_s) 1000 in
  peers_seen db' !! hex_node_id id =
    match peers_seen db !! hex_node_id id with
    | Some row => if stale_row threshold row && negb (bool_decide (id ∈ sessions)) then None else Some row
    | None => None
    end ∧
  (Forgotten id ∈ evs ↔ is_Some (peers_seen db !! hex_node_id id) ∧ peers_seen db' !! hex_node_id id = None).
Proof.
  intros Hok Hid Hsw threshold. unfold mesh_identity_sweep in Hsw. fold threshold in Hsw.
  destruct (list_peers_older_than true threshold db) as [stale| |] eqn:Hl; [|done|done].
  destruct (forget_all _ _ _ _) as [evs1 db1] eqn:Hf. injection Hsw as <- <-.
  destruct (forget_all_spec sessions stale db evs1 db1 id) as [Hlook Hev]; [|done|done|].
  { apply Forall_forall. intros x Hx. by eapply older_wf. }
  pose proof (elem_of_older threshold db stale id Hok Hl Hid) as Hold.
  rewrite Hlook. destruct (peers_seen db !! hex_node_id id) as [row|].
  - assert (Hst : id ∈ stale.*1.*1 ↔ stale_row threshold row = true) by naive_solver. clear -Hst Hev.
    repeat case_bool_decide; destruct (stale_row threshold row); cbn; naive_solver.
  - clear -Hev. case_bool_decide; naive_solver.
Qed.

(** ** Lemmas: reachability logs *)
Lemma elem_of_list_table {V} (m : gmap (list Z) V) k v : (k, v) ∈ list_table m ↔ m !! k = Some v.
Proof. unfold list_table. by rewrite merge_sort_Permutation, elem_of_map_to_list. Qed.

(** Whether a row is too old, whether it is unpaired, and whether it goes. *)
Definition too_old (now_s lifetime_s : Z) (row : LifecycleRecord) : bool :=
  lifetime_s <? saturating_sub now_s (last_seen_of (lr_first_paired_at_s row) (lr_last_connected_at_s row)).
Definition unpaired_by_sweep (bt : Bluetoothctl) (paired : list (list Z)) (now_s lifetime_s : Z) (addr : list Z) (row : LifecycleRecord) : bool :=
  bool_decide (addr ∈ paired) && too_old now_s lifetime_s row && negb (is_connected bt addr).
Definition forgotten_by_sweep (bt : Bluetoothctl) (paired : list (list Z)) (now_s lifetime_s : Z) (addr : list Z) (row : LifecycleRecord) : bool :=
  negb (bool_decide (addr ∈ paired)) || unpaired_by_sweep bt paired now_s lifetime_s addr row && bt_remove bt addr.

Lemma sweep_rows_spec bt paired now_s lifetime_s rows :
  sweep_rows bt paired now_s lifetime_s rows =
    (map fst (List.filter (λ r, unpaired_by_sweep bt paired now_s lifetime_s r.1 r.2) rows),
     map fst (List.filter (λ r, forgotten_by_sweep bt paired now_s lifetime_s r.1 r.2) rows)).
Proof.
  induction rows as [|[addr row] rows IH]; [done|]. cbn [sweep_rows List.filter]. rewrite IH. unfold forgotten_by_sweep, unpaired_by_sweep, too_old. cbn [fst snd].
  rewrite Z.leb_antisym. case_bool_decide; cbn [negb andb orb]; [|done]. destruct (_ <? _); cbn [negb andb orb map fst]; [|done].
  destruct (is_connected bt addr); cbn [negb andb orb map fst]; [done|]. by destruct (bt_remove bt addr).
Qed.

Lemma fold_delete {V} (ks : list (list Z)) (m : gmap (list Z) V) k :
  fold_left (λ m k, delete k m) ks m !! k = if bool_decide (k ∈ ks) then None else m !! k.
Proof.
  revert m. induction ks as [|k' ks IH]; intros m; cbn [fold_left]; [done|]. rewrite IH.
  destruct (decide (k = k')) as [->|Hne].
  - rewrite lookup_delete_eq, (bool_decide_eq_true_2 (k' ∈ k' :: ks)) by set_solver. by case_bool_decide.
  - rewrite lookup_delete_ne by done. repeat case_bool_decide; (done || set_solver).
Qed.

(** The table after its sweep. *)
Lemma sweep_table (bt : Bluetoothctl) (paired : list (list Z)) (now_s lifetime_s : Z) (m : gmap (list Z) LifecycleRecord) (addr : list Z) :
  let '(removes, forgotten) := sweep_rows bt paired now_s lifetime_s (list_table m) in
  fold_left (λ (m : gmap (list Z) LifecycleRecord) k, delete k m) forgotten m !! addr =
    match m !! addr with Some row => if forgotten_by_sweep bt paired now_s lifetime_s addr row then None else Some row | None => None end ∧
  (addr ∈ removes ↔ ∃ row, m !! addr = Some row ∧ unpaired_by_sweep bt paired now_s lifetime_s addr row = true).
Proof.
  rewrite sweep_rows_spec.
  assert (Hin : ∀ f, addr ∈ map fst (List.filter f (list_table m)) ↔ ∃ row, m !! addr = Some row ∧ f (addr, row) = true).
  { intros f. change (map fst ?l) with (fst <$> l). rewrite list_elem_of_fmap. setoid_rewrite list_elem_of_In. setoid_rewrite filter_In.
    setoid_rewrite <- list_elem_of_In. split.
    - intros ([k row] & -> & H & Hf). apply elem_of_list_table in H. eauto.
    - intros (row & H & Hf). exists (addr, row). split; [done|]. split; [by apply elem_of_list_table|done]. }
  split; [|apply Hin]. rewrite fold_delete.
  pose proof (Hin (λ r, forgotten_by_sweep bt paired now_s lifetime_s r.1 r.2)) as Hf. cbn [fst snd] in Hf. clear Hin.
  destruct (m !! addr) as [row|]; [|by case_bool_decide].
  case_bool_decide as Hb; destruct (forgotten_by_sweep bt paired now_s lifetime_s addr row) eqn:E; try done.
  - apply Hf in Hb as (r & [= <-] & Hr). congruence.
  - destruct Hb. apply Hf. by exists row.
Qed.

(** The Bluetooth sweep is exact: when the paired devices are known, a row
    goes when its device is no longer paired or was unpaired by this sweep, and
    no other row changes; [bluetoothctl remove] is run only for paired devices
    that were not reachable within the lifetime and are not reported as
    connected; when the scan fails nothing changes. *)
Theorem rfcomm_sweep_exact bt now_s lifetime_s db res db' addr :
  rfcomm_sweep bt now_s lifetime_s db = (res, db') →
  match bt_devices bt with
  | None => db' = db
  | Some out =>
    rfcomm_peer_lifecycle db' !! addr =
      match rfcomm_peer_lifecycle db !! addr with
      | Some row => if forgotten_by_sweep bt (parse_paired out) now_s lifetime_s addr row then None else Some row
      | None => None
      end ∧
    peers_seen db' = peers_seen db ∧ bluetooth_pan_lifecycle db' = bluetooth_pan_lifecycle db ∧ wfd_peer_lifecycle db' = wfd_peer_lifecycle db ∧
    ∃ removes, res = Ok removes ∧
      (addr ∈ removes ↔ ∃ row, rfcomm_peer_lifecycle db !! addr = Some row ∧ unpaired_by_sweep bt (parse_paired out) now_s lifetime_s addr row = true)
  end.
Proof.
  intros Hs.
  assert (Hfold : ∀ ks db, let db' := fold_left (λ db addr, on_rfcomm (delete addr) db) ks db in
    rfcomm_peer_lifecycle db' = fold_left (λ m k, delete k m) ks (rfcomm_peer_lifecycle db) ∧ peers_seen db' = peers_seen db ∧
    bluetooth_pan_lifecycle db' = bluetooth_pan_lifecycle db ∧ wfd_peer_lifecycle db' = wfd_peer_lifecycle db).
  { induction ks as [|k ks IH]; intros d; [done|]. cbn [fold_left]. destruct (IH (on_rfcomm (delete k) d)) as (-> & -> & -> & ->). done. }
  unfold rfcomm_sweep in Hs. destruct (bt_devices bt) as [out|].
  2:{ destruct (list_rfcomm_lifecycle db); by injection Hs as <- <-. }
  pose proof (sweep_table bt (parse_paired out) now_s lifetime_s (rfcomm_peer_lifecycle db) addr) as Ht.
  unfold list_rfcomm_lifecycle in Hs. destruct (list_table (rfcomm_peer_lifecycle db)) as [|r rows] eqn:El.
  - injection Hs as <- <-. cbn in Ht. destruct Ht as [Ht1 Ht2]. rewrite <- Ht1. split_and!; try done. by exists [].
  - destruct (sweep_rows _ _ _ _ _) as [removes forgotten]. injection Hs as <- <-. destruct Ht as [Ht1 Ht2].
    destruct (Hfold forgotten db) as (-> & -> & -> & ->). split_and!; try done. by exists removes.
Qed.

(** The Wi-Fi Direct sweep drops the rows that are too old and nothing else. *)
Theorem wfd_sweep_exact now_s lifetime_s db mac :
  wfd_peer_lifecycle (wfd_sweep now_s lifetime_s db) !! mac =
    match wfd_peer_lifecycle db !! mac with
    | Some row => if wfd_stale now_s lifetime_s row then None else Some row
    | None => None
    end.
Proof.
  unfold wfd_sweep.
  assert (Hgen : ∀ l d, wfd_peer_lifecycle (fold_left (λ db r, if wfd_stale now_s lifetime_s r.2 then (forget_wfd_peer r.1 db).2 else db) l d) =
    fold_left (λ m k, delete k m) (map fst (List.filter (λ r, wfd_stale now_s lifetime_s r.2) l)) (wfd_peer_lifecycle d)).
  { induction l as [|r l IH]; intros d; [done|]. cbn [fold_left List.filter]. rewrite IH. by destruct (wfd_stale now_s lifetime_s r.2). }
  rewrite Hgen, fold_delete. case_bool_decide as Hin; change (map fst ?l) with (fst <$> l) in Hin; rewrite list_elem_of_fmap in Hin.
  - destruct Hin as ([k row] & -> & Hin). apply list_elem_of_In, filter_In in Hin as [Hin Hst]. apply list_elem_of_In, elem_of_list_table in Hin.
    cbn in *. by rewrite Hin, Hst.
  - destruct (wfd_peer_lifecycle db !! mac) as [row|] eqn:E; [|done]. destruct (wfd_stale now_s lifetime_s row) eqn:Hst; [|done].
    destruct Hin. exists (mac, row). split; [done|]. apply list_elem_of_In, filter_In. split; [|done]. by apply list_elem_of_In, elem_of_list_table.
Qed.

(** The floors hold for every configuration the file format can express. *)
Theorem cleanup_floors cfg interval lifetime :
  max_unreachable_lifetime_s cfg < 2 ^ 63 → spawn cfg = Some (interval, lifetime) → MIN_INTERVAL_S ≤ interval ∧ MIN_LIFETIME_S ≤ lifetime.
Proof.
  intros Hl. unfold spawn, MIN_INTERVAL_S, MIN_LIFETIME_S. destruct (pc_enabled cfg); cbn [negb]; [|done].
  rewrite (proj2 (Z.ltb_lt _ _)) by lia. intros [= <- <-]. lia.
Qed.

(** ** Concrete sweeps *)
Definition sample_bt : Bluetoothctl :=
  MkBt (Some (str "Device AA:BB PIM-x
")) (λ _, Some (str "	Connected: no
")) (λ _, true).
Definition sample_db : PeersDb := observe_rfcomm_paired (str "AA:BB") (str "PIM-x") 100 (observe_rfcomm_paired (str "CC:DD") (str "y") 9000 PeersDb_new).

Lemma rfcomm_sweep_exact_witness :
  let '(res, db') := rfcomm_sweep sample_bt 10000 3600 sample_db in
  ∃ removes, res = Ok removes ∧
    (str "AA:BB" ∈ removes ↔ ∃ row, rfcomm_peer_lifecycle sample_db !! str "AA:BB" = Some row ∧
       unpaired_by_sweep sample_bt (parse_paired (str "Device AA:BB PIM-x
")) 10000 3600 (str "AA:BB") row = true).
Proof.
  destruct (rfcomm_sweep sample_bt 10000 3600 sample_db) as [res db'] eqn:E.
  exact (proj2 (proj2 (proj2 (proj2 (rfcomm_sweep_exact sample_bt 10000 3600 sample_db res db' (str "AA:BB") E))))).
Defined.

Lemma sample_bt_unpairs : (rfcomm_sweep sample_bt 10000 3600 sample_db).1 = Ok [str "AA:BB"].
Proof. vm_compute. reflexivity. Qed.

Lemma mesh_identity_sweep_exact_witness :
  let db := (upsert_peer_seen true (sample_id 2) (replicate 32 1) [97] 1 PeersDb_new).2 in
  ∃ evs db', mesh_identity_sweep true (λ _, true) 100000 3600 ∅ db = (Ok tt, evs, db') ∧ Forgotten (sample_id 2) ∈ evs.
Proof.
  intros db. destruct (mesh_identity_sweep true (λ _, true) 100000 3600 ∅ db) as [[r evs] db'] eqn:E.
  assert (Hr : r = Ok tt) by (vm_compute in E; congruence). subst r.
  exists evs, db'. split; [reflexivity|].
  destruct (mesh_identity_sweep_exact 100000 3600 ∅ db evs db' (sample_id 2)) as [Hl Hev];
    [apply directory_ok_upsert; [by apply (bool_decide_unpack _); vm_compute|apply directory_ok_new]|by apply (bool_decide_unpack _); vm_compute|exact E|].
  apply Hev. rewrite Hl. vm_compute. split; [eexists; reflexivity|reflexivity].
Defined.
