(* ===== verification/BluetoothPan.v ===== *)
(** * The Bluetooth PAN service (crates/pim-bluetooth/src/platform_impl.rs, service.rs, lib.rs)

    The Linux service: it prepares the controller, pairs with devices and keeps
    a [bt-network] client for each, serves an access point with its bridge, its
    NAT rules and its DHCP server, and announces the neighbours of the PAN
    interfaces.  [PanOs] is what the host answers besides commands: processes,
    the directory of interfaces, the clock and the channels to the daemon.  One
    event is one turn of the loop in [run].  The text of the log, and the
    detached task that keeps the controller discoverable, are left out. *)

From S2P Require Import Prelude Core MeshAddress Text Ipv6Text Host Firewall PanSupport Config Calendar Cleanup.

Class PanOs (K : Type) := {
  pan_spawn : K → list (list Z) → K * option nat;
  pan_try_wait : K → nat → K * option bool;                (* [Some true]: it has exited *)
  pan_kill : K → nat → K;                                  (* kill and wait *)
  pan_read_dir : K → option (list (list Z) * bool);        (* names; whether they end with an error *)
  pan_operstate : K → list Z → option (option (list Z));   (* [Some None]: no such file *)
  pan_path_exists : K → list Z → bool;
  pan_if_index : K → list Z → option Z;
  pan_now : K → Z;
  pan_order : K → list (list Z * nat) → list (list Z * nat);   (* how a [HashMap] is iterated *)
  pan_send : K → PanAddr → K * bool;                       (* [false]: the receiver is gone *)
  pan_emit : K → list Z → list Z → PanPeerEventKind → K;
}.

Inductive BluetoothError := BtIo | BtCommandFailed (command message : list Z).
Definition is_missing_device_error (e : BluetoothError) : bool :=
  match e with
  | BtCommandFailed command message =>
    bool_decide (command = str "ip") && (contains (str "Cannot find device") message || contains (str "does not exist") message)
  | BtIo => false
  end.

Record BluetoothDiscovery := MkBluetoothDiscovery {
  bd_config : BluetoothConfig;
  bd_listen_port : Z;
  bd_static_targets : list PanAddr;
  bd_sysfs_root : list Z;
  bd_ip_command : list Z;
  bd_bluetoothctl_command : list Z;
  bd_bt_network_command : list Z;
  bd_iptables_command : list Z;
  bd_dnsmasq_command : list Z;
  bd_dhclient_command : list Z;
  bd_resolv_conf_path : list Z;
  bd_nat_interface : option (list Z);
}.
Definition bluetooth_defaults (config : BluetoothConfig) (listen_port : Z) (static_targets : list PanAddr) (nat_interface : option (list Z)) : BluetoothDiscovery :=
  MkBluetoothDiscovery config listen_port static_targets (str "/sys/class/net") (str "ip") (str "bluetoothctl") (str "bt-network") (str "iptables")
    (str "dnsmasq") (str "dhclient") (str "/etc/resolv.conf") nat_interface.

(** The local variables of [run], and the cached address of the controller. *)
Record PanState := MkPan {
  pn_nap_server : option nat;
  pn_dnsmasq_child : option nat;
  pn_dhclient_children : gmap (list Z) nat;
  pn_pan_clients : gmap (list Z) nat;
  pn_active_interfaces : list ResolvedPanInterface;
  pn_emitted_static : bool;
  pn_seen_addrs : gset PanAddr;
  pn_seen_macs : gset (list Z);
  pn_local_controller_mac : option (option (list Z));
}.
Definition pan_start : PanState := MkPan None None ∅ ∅ [] false ∅ ∅ None.
Definition set_nap c s := MkPan c (pn_dnsmasq_child s) (pn_dhclient_children s) (pn_pan_clients s) (pn_active_interfaces s) (pn_emitted_static s) (pn_seen_addrs s) (pn_seen_macs s) (pn_local_controller_mac s).
Definition set_dnsmasq c s := MkPan (pn_nap_server s) c (pn_dhclient_children s) (pn_pan_clients s) (pn_active_interfaces s) (pn_emitted_static s) (pn_seen_addrs s) (pn_seen_macs s) (pn_local_controller_mac s).
Definition set_dhclients m s := MkPan (pn_nap_server s) (pn_dnsmasq_child s) m (pn_pan_clients s) (pn_active_interfaces s) (pn_emitted_static s) (pn_seen_addrs s) (pn_seen_macs s) (pn_local_controller_mac s).
Definition set_clients m s := MkPan (pn_nap_server s) (pn_dnsmasq_child s) (pn_dhclient_children s) m (pn_active_interfaces s) (pn_emitted_static s) (pn_seen_addrs s) (pn_seen_macs s) (pn_local_controller_mac s).
Definition set_active l s := MkPan (pn_nap_server s) (pn_dnsmasq_child s) (pn_dhclient_children s) (pn_pan_clients s) l (pn_emitted_static s) (pn_seen_addrs s) (pn_seen_macs s) (pn_local_controller_mac s).
Definition set_emitted b s := MkPan (pn_nap_server s) (pn_dnsmasq_child s) (pn_dhclient_children s) (pn_pan_clients s) (pn_active_interfaces s) b (pn_seen_addrs s) (pn_seen_macs s) (pn_local_controller_mac s).
Definition set_seen_addrs a s := MkPan (pn_nap_server s) (pn_dnsmasq_child s) (pn_dhclient_children s) (pn_pan_clients s) (pn_active_interfaces s) (pn_emitted_static s) a (pn_seen_macs s) (pn_local_controller_mac s).
Definition set_seen_macs a s := MkPan (pn_nap_server s) (pn_dnsmasq_child s) (pn_dhclient_children s) (pn_pan_clients s) (pn_active_interfaces s) (pn_emitted_static s) (pn_seen_addrs s) a (pn_local_controller_mac s).
Definition set_controller a s := MkPan (pn_nap_server s) (pn_dnsmasq_child s) (pn_dhclient_children s) (pn_pan_clients s) (pn_active_interfaces s) (pn_emitted_static s) (pn_seen_addrs s) (pn_seen_macs s) a.

(** How [run] ends early: it returns, or with an error. *)
Inductive PanStop := Finished | Failed (e : BluetoothError).

Section Pan.
Context `{CommandOs K} `{PanOs K} (bd : BluetoothDiscovery).
Notation cfg := (bd_config bd).
Notation HostBt := (Host K BluetoothError).
Notation Pan := (Host (K * PanState) PanStop).

Definition lift {A} (m : HostBt A) : Pan A := λ '(k, s),
  match m k with (k, Ok a) => ((k, s), Ok a) | (k, Err e) => ((k, s), Err (Failed e)) | (k, Panic) => ((k, s), Panic) end.
Definition get_state : Pan PanState := λ '(k, s), ((k, s), Ok s).
Definition modify_state (f : PanState → PanState) : Pan unit := λ '(k, s), ((k, f s), Ok ()).
(** An error that is logged and forgotten. *)
Definition tolerate {A} (m : Pan A) : Pan unit := λ s, match m s with (s, Panic) => (s, Panic) | (s, _) => (s, Ok ()) end.

(** ** Commands *)
Definition output (program : list Z) (args : list (list Z)) : HostBt CommandOutput := λ k,
  match run_command k (program :: args) with (k, Some out) => (k, Ok out) | (k, None) => (k, Err BtIo) end.
Definition command_failed {A} (command what : list Z) (out : CommandOutput) : HostBt A := host_err (BtCommandFailed command (what ++ trim (co_stderr out))).

Definition run_bluetoothctl_capture (args : list (list Z)) : HostBt (list Z) :=
  do! out := output (bd_bluetoothctl_command bd) (str "--timeout" :: decimal (bt_bluetoothctl_timeout_s cfg) :: args) in
  if co_success out then host_ret (co_stdout out) else command_failed (str "bluetoothctl") [] out.
Definition run_bluetoothctl (args : list (list Z)) : HostBt unit := do! _ := run_bluetoothctl_capture args in host_ret ().
(** It runs on its own; nobody looks at its answer. *)
Definition run_bluetoothctl_in_background (args : list (list Z)) : HostBt unit := λ k,
  ((run_command k (bd_bluetoothctl_command bd :: str "--timeout" :: decimal (bt_bluetoothctl_timeout_s cfg) :: args)).1, Ok ()).
Definition spawn (args : list (list Z)) : HostBt nat := λ k,
  match pan_spawn k args with (k, Some c) => (k, Ok c) | (k, None) => (k, Err BtIo) end.
Definition try_wait (c : nat) : HostBt bool := λ k,
  match pan_try_wait k c with (k, Some b) => (k, Ok b) | (k, None) => (k, Err BtIo) end.

Definition local_controller_mac : Pan (option (list Z)) := λ '(k, s),
  match pn_local_controller_mac s with
  | Some mac => ((k, s), Ok mac)
  | None =>
    let '(k, r) := run_bluetoothctl_capture [str "show"] k in
    let mac := match r with Ok out => parse_controller_mac out | _ => None end in
    ((k, set_controller (Some mac) s), Ok mac)
  end.

Definition prepare_controller : HostBt unit :=
  do! _ := run_bluetoothctl [str "power"; str "on"] in
  do! _ := run_bluetoothctl [str "pairable"; str "on"] in
  do! _ := run_bluetoothctl [str "discoverable-timeout"; decimal (bt_discoverable_timeout_s cfg)] in
  do! _ := run_bluetoothctl [str "discoverable"; str "on"] in
  do! _ := run_bluetoothctl [str "agent"; str "NoInputNoOutput"] in
  do! _ := run_bluetoothctl [str "default-agent"] in
  if bool_decide (bt_local_alias cfg = []) then host_ret () else run_bluetoothctl [str "system-alias"; bt_local_alias cfg].
Definition discover_devices : Pan (list DiscoveredDevice) :=
  do! out := lift (run_bluetoothctl_capture [str "devices"]) in
  do! local_mac := local_controller_mac in
  host_ret (parse_devices_output out (bt_device_name_prefix cfg) (bt_local_alias cfg) local_mac).
Definition pair_and_request_pan (device : DiscoveredDevice) : HostBt unit :=
  do! _ := run_bluetoothctl [str "pair"; dd_mac device] in
  do! _ := run_bluetoothctl [str "trust"; dd_mac device] in
  run_bluetoothctl [str "connect"; dd_mac device].
Definition start_pan_client (mac : list Z) : HostBt nat := spawn [bd_bt_network_command bd; str "-c"; mac; str "nap"].

(** ** The access point *)
Definition sysfs (name : list Z) : list Z := bd_sysfs_root bd ++ 47 :: name.
Definition ip_link (args : list (list Z)) : HostBt CommandOutput := output (bd_ip_command bd) (str "link" :: args).

Definition create_bridge (bridge : list Z) : HostBt unit := λ k,
  if pan_path_exists k (sysfs bridge) then (k, Ok ()) else
  (do! out := ip_link [str "add"; str "name"; bridge; str "type"; str "bridge"] in
   if co_success out || contains (str "File exists") (trim (co_stderr out)) || contains (str "already exists") (trim (co_stderr out))
   then host_ret () else command_failed (str "ip") (str "failed to create bridge " ++ bridge ++ str ": ") out) k.
Definition assign_bridge_addr (bridge : list Z) : HostBt unit :=
  let addr := trim (bt_nap_bridge_addr cfg) in
  if bool_decide (addr = []) then host_ret () else
  do! out := output (bd_ip_command bd) [str "addr"; str "add"; addr; str "dev"; bridge] in
  if co_success out || contains (str "File exists") (trim (co_stderr out)) then host_ret ()
  else command_failed (str "ip") (str "failed to assign address " ++ addr ++ str " to " ++ bridge ++ str ": ") out.
Definition ensure_bridge_ready (bridge : list Z) : HostBt unit :=
  do! _ := create_bridge bridge in
  do! out := ip_link [str "set"; bridge; str "up"] in
  if co_success out then assign_bridge_addr bridge else command_failed (str "ip") (str "failed to bring bridge " ++ bridge ++ str " up: ") out.

Definition start_nap_server : HostBt nat :=
  let bridge := trim (bt_nap_bridge cfg) in
  if bool_decide (bridge = []) then host_err (BtCommandFailed (str "bt-network") (str "serve_nap requires a non-empty nap_bridge")) else
  do! _ := ensure_bridge_ready bridge in
  spawn [bd_bt_network_command bd; str "-s"; str "nap"; bridge].
Definition ensure_nap_server_running : Pan unit :=
  if negb (bt_serve_nap cfg) then host_ret () else
  do! s := get_state in
  match pn_nap_server s with
  | Some existing =>
    do! exited := lift (try_wait existing) in
    if exited then do! c := lift start_nap_server in modify_state (set_nap (Some c)) else host_ret ()
  | None => do! c := lift start_nap_server in modify_state (set_nap (Some c))
  end.

(** One entry of the directory of interfaces. *)
Definition attach_one (bridge name : list Z) : HostBt unit := λ k,
  if bool_decide (name = bridge) then (k, Ok ()) else
  match read_to_string k (sysfs name ++ str "/uevent") with
  | None => (k, Ok ())
  | Some uevent =>
    if negb (existsb (λ l, bool_decide (trim l = str "DEVTYPE=bluetooth")) (lines uevent)) then (k, Ok ()) else
    if pan_path_exists k (sysfs name ++ str "/master") then (k, Ok ()) else
    (do! set_master := ip_link [str "set"; name; str "master"; bridge] in
     if co_success set_master then do! _ := ip_link [str "set"; name; str "up"] in host_ret () else host_ret ()) k
  end.
Fixpoint attach_all (bridge : list Z) (names : list (list Z)) (complete : bool) : HostBt unit :=
  match names with
  | [] => if complete then host_ret () else host_err BtIo
  | name :: names => do! _ := attach_one bridge name in attach_all bridge names complete
  end.
Definition attach_bnep_to_bridge (bridge : list Z) : HostBt unit := λ k,
  if bool_decide (bridge = []) then (k, Ok ()) else
  match pan_read_dir k with
  | None => (k, Ok ())
  | Some (names, complete) => attach_all bridge names complete k
  end.

Definition nap_rules : option (Rule * Rule) :=
  nat_iface ← bd_nat_interface bd;
  match parse_ipv4_cidr (bt_nap_bridge_addr cfg) with
  | Ok (gateway, prefix) =>
    let subnet := fmt_ipv4 (subnet_network gateway prefix).1 ++ 47 :: dec_u8 prefix in
    Some (masquerade_args subnet nat_iface, forward_args subnet)
  | _ => None
  end.
Definition iptables_ensure (args : Rule) : HostBt unit :=
  do! check := output (bd_iptables_command bd) (replace_op (str "-C") args) in
  if co_success check then host_ret () else
  do! out := output (bd_iptables_command bd) args in
  if co_success out then host_ret () else command_failed (str "iptables") [] out.
Definition install_bluetooth_masquerade : HostBt unit :=
  match nap_rules with
  | None => host_ret ()
  | Some (post_args, fwd_args) => λ k,
    (do! _ := iptables_ensure post_args in iptables_ensure fwd_args) (run_command k [str "sysctl"; str "-w"; str "net.ipv4.ip_forward=1"]).1
  end.
(** The source writes the rules out again with [-D]; the rounds are those of the
    gateway, which take the rule as it was added. *)
Definition uninstall_bluetooth_masquerade (k : K) : K :=
  match nap_rules with
  | None => k
  | Some (post_args, fwd_args) =>
    iptables_delete_if_present (bd_iptables_command bd) fwd_args (iptables_delete_if_present (bd_iptables_command bd) post_args k)
  end.
Definition delete_bridge_if_present (bridge : list Z) (k : K) : K :=
  if bool_decide (bridge = []) then k else
  quietly (ip_link [str "delete"; bridge]) (quietly (ip_link [str "set"; bridge; str "down"]) k).

(** ** DHCP *)
Definition public_dns : list Z := str "1.1.1.1,8.8.8.8".
Definition nameserver_line (line : list Z) : option (list Z) :=
  let line := trim line in
  if starts_with (str "#") line then None else
  stripped ← trim <$> strip_prefix (str "nameserver") line;
  if bool_decide (stripped = []) then None else head (split_whitespace stripped).
Definition resolve_dhcp_dns (k : K) : list Z :=
  match trim <$> bt_dhcp_dns cfg with
  | Some (_ :: _ as custom) => custom
  | _ =>
    match read_to_string k (bd_resolv_conf_path bd) with
    | Some content =>
      let servers := omap nameserver_line (lines content) in
      if bool_decide (servers = []) then public_dns else join [44] servers
    | None => public_dns
    end
  end.
Definition start_dnsmasq (bridge : list Z) : HostBt nat := λ k,
  match parse_ipv4_cidr (bt_nap_bridge_addr cfg) with
  | Ok (gateway, prefix) =>
    match (match trim <$> bt_dhcp_range cfg with Some (_ :: _ as explicit) => Some explicit | _ => default_dhcp_range gateway prefix end) with
    | None => (k, Err (BtCommandFailed (str "dnsmasq") (str "unable to derive DHCP range from " ++ bt_nap_bridge_addr cfg)))
    | Some range =>
      let lease := trim (bt_dhcp_lease_time cfg) in
      let dhcp_range_arg := str "--dhcp-range=" ++ range ++ if bool_decide (lease = []) then [] else 44 :: lease in
      spawn [bd_dnsmasq_command bd; str "--keep-in-foreground"; str "--log-facility=-"; str "--port=0"; str "--bind-interfaces"; str "--except-interface=lo";
        str "--interface=" ++ bridge; dhcp_range_arg; str "--dhcp-option=3," ++ fmt_ipv4 gateway; str "--dhcp-option=6," ++ resolve_dhcp_dns k] k
    end
  | _ => (k, Err (BtCommandFailed (str "dnsmasq") (trim (bt_nap_bridge_addr cfg))))   (* the parser's own words are not kept *)
  end.
Definition ensure_dnsmasq_running (bridge : list Z) : Pan unit :=
  do! s := get_state in
  match pn_dnsmasq_child s with
  | Some existing =>
    do! exited := lift (try_wait existing) in
    if exited then do! c := lift (start_dnsmasq bridge) in modify_state (set_dnsmasq (Some c)) else host_ret ()
  | None => do! c := lift (start_dnsmasq bridge) in modify_state (set_dnsmasq (Some c))
  end.

Definition kill (c : nat) : HostBt unit := λ k, (pan_kill k c, Ok ()).
Definition start_dhclient (interface : list Z) : HostBt nat := spawn [bd_dhclient_command bd; str "-d"; str "-v"; interface].
Definition ensure_dhclient_running (interface : list Z) : Pan unit :=
  do! s := get_state in
  do! should_start :=
    match pn_dhclient_children s !! interface with
    | Some existing => lift (try_wait existing)
    | None => host_ret true
    end in
  if should_start then
    do! _ :=
      match pn_dhclient_children s !! interface with
      | Some existing => do! _ := modify_state (set_dhclients (delete interface (pn_dhclient_children s))) in lift (kill existing)
      | None => host_ret ()
      end in
    do! c := lift (start_dhclient interface) in
    do! s := get_state in
    modify_state (set_dhclients (<[interface := c]> (pn_dhclient_children s)))
  else host_ret ().
Fixpoint ensure_dhclients (interfaces : list ResolvedPanInterface) : Pan unit :=
  match interfaces with
  | [] => host_ret ()
  | i :: interfaces => do! _ := tolerate (ensure_dhclient_running (rp_name i)) in ensure_dhclients interfaces
  end.
Fixpoint stop_dhclients (stale : list (list Z * nat)) : Pan unit :=
  match stale with
  | [] => host_ret ()
  | (interface, child) :: stale =>
    do! s := get_state in
    do! _ := modify_state (set_dhclients (delete interface (pn_dhclient_children s))) in
    do! _ := lift (kill child) in
    stop_dhclients stale
  end.
Definition prune_dhclient_children (active_interfaces : list ResolvedPanInterface) : Pan unit := λ '(k, s),
  stop_dhclients (filter (λ p, p.1 ∉ map rp_name active_interfaces) (pan_order k (map_to_list (pn_dhclient_children s)))) (k, s).

(** ** Interfaces and neighbours *)
Fixpoint list_candidates (k : K) (names : list (list Z)) (complete : bool) : option (list PanInterfaceCandidate) :=
  match names with
  | [] => if complete then Some [] else None
  | name :: names =>
    operstate ← pan_operstate k name;
    rest ← list_candidates k names complete;
    Some (MkCandidate name operstate :: rest)
  end.
Fixpoint insert_candidate (c : PanInterfaceCandidate) (l : list PanInterfaceCandidate) : list PanInterfaceCandidate :=
  match l with
  | [] => [c]
  | d :: l => if bytes_le (pc_name c) (pc_name d) then c :: d :: l else d :: insert_candidate c l
  end.
Definition sort_candidates (l : list PanInterfaceCandidate) : list PanInterfaceCandidate := foldr insert_candidate [] l.
Definition list_pan_candidates : HostBt (list PanInterfaceCandidate) := λ k,
  match (p ← pan_read_dir k; list_candidates k p.1 p.2) with
  | Some candidates => (k, Ok (sort_candidates candidates))
  | None => (k, Err BtIo)
  end.
Definition resolve_pan_interfaces : HostBt (list ResolvedPanInterface) :=
  do! candidates := list_pan_candidates in
  host_ret (select_pan_interfaces candidates (preferred_interface_hint (bt_interface cfg)) (if bt_serve_nap cfg then Some (bt_nap_bridge cfg) else None)).
Definition discover_neighbor_targets (interface : list Z) : HostBt (list PanAddr) := λ k,
  let scope_id := pan_if_index k interface in
  (do! out := output (bd_ip_command bd) [str "neigh"; str "show"; str "dev"; interface] in
   if co_success out then host_ret (parse_neighbor_output (co_stdout out) (bd_listen_port bd) scope_id) else command_failed (str "ip") [] out) k.

(** ** The turns of the loop *)
Definition send (addr : PanAddr) : Pan unit := λ '(k, s),
  match pan_send k addr with (k, true) => ((k, s), Ok ()) | (k, false) => ((k, s), Err Finished) end.
Fixpoint send_static (targets : list PanAddr) : Pan unit :=
  match targets with
  | [] => modify_state (set_emitted true)
  | addr :: targets =>
    do! _ := send addr in
    do! _ := modify_state (λ s, set_seen_addrs ({[addr]} ∪ pn_seen_addrs s) s) in
    send_static targets
  end.

Definition access_point_turn : Pan unit :=
  do! _ := ensure_nap_server_running in
  if negb (bt_serve_nap cfg) then host_ret () else
  let bridge := trim (bt_nap_bridge cfg) in
  if bool_decide (bridge = []) then host_ret () else
  do! _ := lift (attach_bnep_to_bridge bridge) in
  if bt_dhcp_enabled cfg then ensure_dnsmasq_running bridge else host_ret ().
Definition dhcp_turn : Pan unit :=
  if bt_request_dhcp cfg && bt_connect_pan cfg && negb (bt_serve_nap cfg) then
    do! s := get_state in
    do! _ := prune_dhclient_children (pn_active_interfaces s) in
    ensure_dhclients (pn_active_interfaces s)
  else host_ret ().
Definition interface_turn (startup_deadline : Z) : Pan unit :=
  do! _ := access_point_turn in
  do! resolved := lift resolve_pan_interfaces in
  do! _ := modify_state (set_active resolved) in
  do! _ := dhcp_turn in
  do! _ := (λ '(k, s),
    if bool_decide (resolved = []) && (startup_deadline <=? pan_now k) && negb (bt_radio_discovery_enabled cfg && bt_connect_pan cfg)
    then ((k, s), Err Finished) else ((k, s), Ok ())) in
  do! s := get_state in
  if bool_decide (resolved ≠ []) && negb (pn_emitted_static s) then send_static (bd_static_targets bd) else host_ret ().

(** Clients that have exited, or that cannot be asked, are dropped and may be
    tried again. *)
Fixpoint retain_clients (clients : list (list Z * nat)) : Pan unit :=
  match clients with
  | [] => host_ret ()
  | (mac, child) :: clients =>
    do! _ := (λ '(k, s),
      let drop_it s := set_seen_macs (pn_seen_macs s ∖ {[mac]}) (set_clients (delete mac (pn_pan_clients s)) s) in
      match pan_try_wait k child with
      | (k, Some true) => ((k, drop_it s), Ok ())
      | (k, Some false) => ((k, s), Ok ())
      | (k, None) => ((pan_kill k child, drop_it s), Ok ())
      end) in
    retain_clients clients
  end.
Definition emit_pan_peer_event (kind : PanPeerEventKind) (d : DiscoveredDevice) : HostBt unit := λ k, (pan_emit k (dd_mac d) (dd_name d) kind, Ok ()).
Fixpoint emit_paired (devices : list DiscoveredDevice) : HostBt unit :=
  match devices with [] => host_ret () | d :: devices => do! _ := emit_pan_peer_event PanPaired d in emit_paired devices end.
(** A client that was there under the same address is dropped, and with it its
    process. *)
Definition insert_client (mac : list Z) (child : nat) : Pan unit := λ '(k, s),
  let k := match pn_pan_clients s !! mac with Some old => pan_kill k old | None => k end in
  ((k, set_seen_macs ({[mac]} ∪ pn_seen_macs s) (set_clients (<[mac := child]> (pn_pan_clients s)) s)), Ok ()).
Definition connect_device (d : DiscoveredDevice) : Pan unit :=
  do! _ := lift (pair_and_request_pan d) in
  do! child := lift (start_pan_client (dd_mac d)) in
  do! _ := lift (emit_pan_peer_event PanConnected d) in
  insert_client (dd_mac d) child.
Fixpoint connect_devices (devices : list DiscoveredDevice) : Pan unit :=
  match devices with
  | [] => host_ret ()
  | d :: devices =>
    do! s := get_state in
    do! _ := (if bool_decide (dd_mac d ∈ pn_seen_macs s) then host_ret () else tolerate (connect_device d)) in
    connect_devices devices
  end.
Definition scan_turn : Pan unit :=
  if negb (bt_radio_discovery_enabled cfg && bt_connect_pan cfg) then host_ret () else
  do! _ := lift (run_bluetoothctl_in_background [str "scan"; str "on"]) in
  do! _ := (λ '(k, s), retain_clients (pan_order k (map_to_list (pn_pan_clients s))) (k, s)) in
  do! devices := discover_devices in
  do! _ := lift (emit_paired devices) in
  connect_devices devices.

(** New addresses are sent; the first argument collects all that were seen. *)
Fixpoint announce (addrs : list PanAddr) : Pan unit :=
  match addrs with
  | [] => host_ret ()
  | addr :: addrs =>
    do! s := get_state in
    do! _ :=
      (if bool_decide (addr ∈ pn_seen_addrs s) then host_ret ()
       else do! _ := modify_state (λ s, set_seen_addrs ({[addr]} ∪ pn_seen_addrs s) s) in send addr) in
    announce addrs
  end.
Fixpoint scan_neighbours (interfaces : list ResolvedPanInterface) (discovered_all : gset PanAddr) (missing : gset (list Z)) : Pan (gset PanAddr * gset (list Z)) :=
  match interfaces with
  | [] => host_ret (discovered_all, missing)
  | i :: interfaces => λ '(k, s),
    match discover_neighbor_targets (rp_name i) k with
    | (k, Ok discovered) =>
      (do! _ := announce discovered in scan_neighbours interfaces (list_to_set discovered ∪ discovered_all) missing) (k, s)
    | (k, Err e) =>
      if is_missing_device_error e then scan_neighbours interfaces discovered_all ({[rp_name i]} ∪ missing) (k, s) else ((k, s), Err (Failed e))
    | (k, Panic) => ((k, s), Panic)
    end
  end.
Definition peer_turn : Pan unit :=
  do! s := get_state in
  if bool_decide (pn_active_interfaces s = []) || negb (bt_auto_discover_peers cfg) then host_ret () else
  do! (discovered_all, missing) := scan_neighbours (pn_active_interfaces s) ∅ ∅ in
  do! _ := modify_state (λ s, set_seen_addrs (filter (λ a, a ∈ bd_static_targets bd ∨ a ∈ discovered_all) (pn_seen_addrs s)) s) in
  modify_state (λ s, set_active (filter (λ i, rp_name i ∉ missing) (pn_active_interfaces s)) s).

(** ** From start to end *)
Definition kill_all (children : list nat) (k : K) : K := fold_left pan_kill children k.
Definition held_list (s : PanState) : list nat :=
  option_list (pn_nap_server s) ++ option_list (pn_dnsmasq_child s) ++ (snd <$> map_to_list (pn_dhclient_children s)) ++ (snd <$> map_to_list (pn_pan_clients s)).
Definition drop_children (s : PanState) : PanState := set_clients ∅ (set_dhclients ∅ (set_dnsmasq None (set_nap None s))).
Definition teardown_linux : Pan unit := λ '(k, s),
  let k := kill_all (held_list s) k in
  let k := if bt_serve_nap cfg then delete_bridge_if_present (trim (bt_nap_bridge cfg)) (uninstall_bluetooth_masquerade k) else k in
  ((k, drop_children s), Err Finished).

Definition startup : Pan unit :=
  if bool_decide (bd_static_targets bd = []) && negb (bt_auto_discover_peers cfg) && negb (bt_radio_discovery_enabled cfg) && negb (bt_serve_nap cfg)
  then host_err Finished else
  do! _ :=
    (if bt_radio_discovery_enabled cfg then
       do! _ := lift prepare_controller in
       do! _ := lift (run_bluetoothctl [str "scan"; str "on"]) in
       do! _ := local_controller_mac in host_ret ()
     else host_ret ()) in
  if bt_serve_nap cfg then
    do! _ := lift install_bluetooth_masquerade in
    do! c := lift start_nap_server in
    modify_state (set_nap (Some c))
  else host_ret ().

Inductive PanEvent := InterfaceTick | ScanTick | PeerTick | Cancelled.
Definition pan_turn (deadline : Z) (e : PanEvent) : Pan unit :=
  match e with InterfaceTick => interface_turn deadline | ScanTick => scan_turn | PeerTick => peer_turn | Cancelled => teardown_linux end.
Fixpoint pan_loop (deadline : Z) (es : list PanEvent) : Pan unit :=
  match es with [] => host_ret () | e :: es => do! _ := pan_turn deadline e in pan_loop deadline es end.

Definition pan_main (es : list PanEvent) : Pan unit :=
  do! _ := startup in λ '(k, s), pan_loop (pan_now k + bt_startup_timeout_ms cfg) es (k, s).
(** [run]: when it ends, whatever it still holds is dropped, and with it the
    processes. *)
Definition pan_run (es : list PanEvent) (k : K) : K * PanState * outcome PanStop unit :=
  match pan_main es (k, pan_start) with
  | ((k, s), Ok ()) => (k, s, Ok ())
  | ((k, s), r) => (kill_all (held_list s) k, drop_children s, r)
  end.
End Pan.

(** ** Processes

    The children of the service that run.  A process ends by itself at any
    time; it starts only when it is spawned. *)
Class PanProcs (K : Type) := pan_alive : K → gset nat.
Class LawfulPan `{CommandOs K} `{PanOs K} `{PanProcs K} : Prop := {
  lp_command (k : K) cmd : pan_alive (run_command k cmd).1 ⊆ pan_alive k;
  lp_spawn (k : K) args : pan_alive (pan_spawn k args).1 ⊆ pan_alive k ∪ match (pan_spawn k args).2 with Some c => {[c]} | None => ∅ end;
  lp_wait (k : K) c : pan_alive (pan_try_wait k c).1 ⊆ pan_alive k;
  lp_exited (k : K) c : (pan_try_wait k c).2 = Some true → c ∉ pan_alive (pan_try_wait k c).1;
  lp_kill (k : K) c : pan_alive (pan_kill k c) ⊆ pan_alive k ∖ {[c]};
  lp_send (k : K) a : pan_alive (pan_send k a).1 ⊆ pan_alive k;
  lp_emit (k : K) m n e : pan_alive (pan_emit k m n e) ⊆ pan_alive k;
  lp_order (k : K) l : pan_order k l ≡ₚ l;
}.

Definition held (x : nat) (s : PanState) : Prop :=
  pn_nap_server s = Some x ∨ pn_dnsmasq_child s = Some x ∨ (∃ i, pn_dhclient_children s !! i = Some x) ∨ (∃ m, pn_pan_clients s !! m = Some x).
Lemma elem_of_option_list (x : nat) (o : option nat) : x ∈ option_list o ↔ o = Some x.
Proof. destruct o; cbn; [rewrite list_elem_of_singleton; split; [by intros -> |by intros [= ->]]|split; [by intros ?%elem_of_nil|done]]. Qed.
Lemma held_list_spec x s : x ∈ held_list s ↔ held x s.
Proof.
  unfold held_list, held. rewrite !elem_of_app, !list_elem_of_fmap, !elem_of_option_list. split.
  - intros [?|[?|[([i y] & -> & Hi)|([i y] & -> & Hi)]]]; [by left|by right; left|right; right; left|right; right; right]; exists i; by apply elem_of_map_to_list in Hi.
  - intros [?|[?|[[i Hi]|[i Hi]]]]; [by left|by right; left|right; right; left|right; right; right]; exists (i, x); (split; [done|by apply elem_of_map_to_list]).
Qed.

Section Procs.
Context `{LawfulPan K} (bd : BluetoothDiscovery).
(** Something about the host that [ip], [bluetoothctl] and the children leave alone. *)
Context (I : K → Prop).
Record stable : Prop := {
  st_command k p args : p = bd_ip_command bd ∨ p = bd_bluetoothctl_command bd → I k → I (run_command k (p :: args)).1;
  st_spawn k args : I k → I (pan_spawn k args).1;
  st_wait k c : I k → I (pan_try_wait k c).1;
  st_kill k c : I k → I (pan_kill k c);
  st_send k a : I k → I (pan_send k a).1;
  st_emit k m n e : I k → I (pan_emit k m n e);
}.
Context (Hst : stable).

Notation HostBt := (Host K BluetoothError).
Definition safe {A} (m : HostBt A) : Prop := ∀ k, I k → I (m k).1 ∧ pan_alive (m k).1 ⊆ pan_alive k.
Definition spawning (m : HostBt nat) : Prop := ∀ k, I k → I (m k).1 ∧ pan_alive (m k).1 ⊆ pan_alive k ∪ match (m k).2 with Ok c => {[c]} | _ => ∅ end.
Definition good (s : K * PanState) : Prop := I s.1 ∧ ∀ x, x ∈ pan_alive s.1 → held x s.2.
Notation keeps := (preserves good).

Lemma safe_ret {A} (a : A) : safe (host_ret a).
Proof. by intros k. Qed.
Lemma safe_err {A} e : safe (host_err (A := A) e).
Proof. by intros k. Qed.
Lemma safe_bind {A B} (m : HostBt A) (f : A → HostBt B) : safe m → (∀ a, safe (f a)) → safe (host_bind m f).
Proof.
  intros Hm Hf k Hk. unfold host_bind. destruct (Hm k Hk) as [Hi Ha]. destruct (m k) as [k1 [a|e|]]; [|done|done]. cbn [fst] in *.
  destruct (Hf a k1 Hi) as [Hi' Ha']. split; [done|]. by etrans.
Qed.
Lemma spawning_bind {A} (m : HostBt A) (f : A → HostBt nat) : safe m → (∀ a, spawning (f a)) → spawning (host_bind m f).
Proof.
  intros Hm Hf k Hk. unfold host_bind. destruct (Hm k Hk) as [Hi Ha]. destruct (m k) as [k1 [a|e|]]; cbn [fst snd] in *; [|split; [done|set_solver]..].
  destruct (Hf a k1 Hi) as [Hi' Ha']. split; [done|]. set_solver.
Qed.
Lemma spawning_err e : spawning (host_err e).
Proof. intros k Hk. split; [done|]. cbn. set_solver. Qed.
Lemma spawn_spawning args : spawning (spawn args).
Proof.
  intros k Hk. unfold spawn. pose proof (st_spawn Hst k args Hk) as Hi. pose proof (lp_spawn k args) as Ha.
  by destruct (pan_spawn k args) as [k1 [c|]].
Qed.
Lemma output_safe p args : p = bd_ip_command bd ∨ p = bd_bluetoothctl_command bd → safe (output p args).
Proof.
  intros Hp k Hk. unfold output. pose proof (st_command Hst k p args Hp Hk) as Hi. pose proof (lp_command k (p :: args)) as Ha.
  by destruct (run_command k (p :: args)) as [k1 [c|]].
Qed.
Lemma try_wait_safe c : safe (try_wait c).
Proof. intros k Hk. unfold try_wait. pose proof (st_wait Hst k c Hk) as Hi. pose proof (lp_wait k c) as Ha. by destruct (pan_try_wait k c) as [k1 [[]|]]. Qed.
Lemma kill_safe c : safe (kill c).
Proof. intros k Hk. split; [by apply (st_kill Hst)|]. cbn [kill fst]. etrans; [apply lp_kill|]. set_solver. Qed.
Lemma emit_safe kind d : safe (emit_pan_peer_event kind d).
Proof. intros k Hk. split; [by apply (st_emit Hst)|apply lp_emit]. Qed.

Lemma ctl_capture_safe args : safe (run_bluetoothctl_capture bd args).
Proof. apply safe_bind; [apply output_safe; by right|]. intros out. destruct (co_success out); [apply safe_ret|apply safe_err]. Qed.
Lemma ctl_safe args : safe (run_bluetoothctl bd args).
Proof. apply safe_bind; [apply ctl_capture_safe|intros; apply safe_ret]. Qed.
Lemma ctl_background_safe args : safe (run_bluetoothctl_in_background bd args).
Proof. intros k Hk. split; [apply (st_command Hst); [by right|done]|apply lp_command]. Qed.
Lemma prepare_safe : safe (prepare_controller bd).
Proof. unfold prepare_controller. repeat (apply safe_bind; [apply ctl_safe|intros _]). destruct (bool_decide _); [apply safe_ret|apply ctl_safe]. Qed.
Lemma pair_safe d : safe (pair_and_request_pan bd d).
Proof. unfold pair_and_request_pan. repeat (apply safe_bind; [apply ctl_safe|intros _]). apply ctl_safe. Qed.
Lemma ip_link_safe args : safe (ip_link bd args).
Proof. apply output_safe; by left. Qed.
Lemma create_bridge_safe b : safe (create_bridge bd b).
Proof.
  intros k Hk. unfold create_bridge. destruct (pan_path_exists k (sysfs bd b)); [done|].
  revert k Hk. apply (safe_bind (ip_link bd _)); [apply ip_link_safe|]. intros out. destruct (_ || _); [apply safe_ret|apply safe_err].
Qed.
Lemma bridge_ready_safe b : safe (ensure_bridge_ready bd b).
Proof.
  apply safe_bind; [apply create_bridge_safe|]. intros _. apply safe_bind; [apply ip_link_safe|]. intros out. destruct (co_success out); [|apply safe_err].
  unfold assign_bridge_addr. destruct (bool_decide _); [apply safe_ret|]. apply safe_bind; [apply output_safe; by left|]. intros o.
  destruct (_ || _); [apply safe_ret|apply safe_err].
Qed.
Lemma nap_spawning : spawning (start_nap_server bd).
Proof. unfold start_nap_server. destruct (bool_decide _); [apply spawning_err|]. apply spawning_bind; [apply bridge_ready_safe|intros _; apply spawn_spawning]. Qed.
Lemma attach_safe b : safe (attach_bnep_to_bridge bd b).
Proof.
  intros k Hk. unfold attach_bnep_to_bridge. destruct (bool_decide _); [done|]. destruct (pan_read_dir k) as [[names c]|]; [|done]. revert k Hk.
  assert (Hall : safe (attach_all bd b names c)); [|exact Hall]. induction names as [|n names IH]; cbn [attach_all]; [destruct c; [apply safe_ret|apply safe_err]|].
  apply safe_bind; [|done]. intros k Hk. unfold attach_one. destruct (bool_decide _); [done|]. destruct (read_to_string k _); [|done]. destruct (negb _); [done|].
  destruct (pan_path_exists k _); [done|]. revert k Hk. apply (safe_bind (ip_link bd _)); [apply ip_link_safe|]. intros o.
  destruct (co_success o); [|apply safe_ret]. apply safe_bind; [apply ip_link_safe|intros _; apply safe_ret].
Qed.
Lemma dnsmasq_spawning b : spawning (start_dnsmasq bd b).
Proof.
  intros k Hk. unfold start_dnsmasq. destruct (parse_ipv4_cidr _) as [[gw pre]|e|]; [|split; [done|cbn; set_solver]..].
  match goal with |- context [match ?x with Some _ => _ | None => (k, _) end] => destruct x as [range|] end; [|split; [done|cbn; set_solver]].
  by apply spawn_spawning.
Qed.
Lemma resolve_safe : safe (resolve_pan_interfaces bd).
Proof. apply safe_bind; [|intros; apply safe_ret]. intros k Hk. unfold list_pan_candidates. by destruct (p ← pan_read_dir k; list_candidates k p.1 p.2). Qed.
Lemma neighbours_safe i : safe (discover_neighbor_targets bd i).
Proof.
  intros k Hk. unfold discover_neighbor_targets. revert k Hk. intros k Hk. generalize (pan_if_index k i). intros scope. revert k Hk.
  apply (safe_bind (output _ _)); [apply output_safe; by left|]. intros o. destruct (co_success o); [apply safe_ret|apply safe_err].
Qed.
Lemma paired_safe ds : safe (emit_paired ds).
Proof. induction ds as [|d ds IH]; [apply safe_ret|]. apply safe_bind; [apply emit_safe|by intros _]. Qed.

(** Turns keep what is alive in the hands of the service. *)
Lemma lift_keeps {A} (m : HostBt A) : safe m → keeps (lift m).
Proof.
  intros Hm [k s] [Hi Ha]. unfold lift. cbn [fst snd] in *. destruct (Hm k Hi) as [Hi' Ha'].
  destruct (m k) as [k1 [a|e|]]; (split; [done|]); intros x Hx; by apply Ha, Ha'.
Qed.
Lemma modify_keeps f : (∀ s x, held x s → held x (f s)) → keeps (modify_state (K := K) f).
Proof. intros Hf [k s] [Hi Ha]. split; [done|]. intros x Hx. by apply Hf, Ha. Qed.
Lemma get_keeps : keeps (get_state (K := K)).
Proof. by intros [k s]. Qed.
Lemma tolerate_keeps {A} (m : Host (K * PanState) PanStop A) : keeps m → keeps (tolerate m).
Proof. intros Hm s Hs. unfold tolerate. specialize (Hm s Hs). by destruct (m s) as [s' [a|e|]]. Qed.
(** A child that starts goes into a slot of its own, or into that of one that is
    no more. *)
Lemma spawn_keeps (m : HostBt nat) (f : nat → PanState → PanState) (k : K) s : spawning m → I k →
  (∀ c x, x ∈ pan_alive k ∨ x = c → held x (f c s)) → (∀ x, x ∈ pan_alive k → held x s) →
  good ((do! c := lift m in modify_state (f c)) (k, s)).1.
Proof.
  intros Hm Hi Hf Ha. unfold host_bind, lift. destruct (Hm k Hi) as [Hi' Ha']. destruct (m k) as [k1 [c|e|]]; cbn [fst snd modify_state] in *.
  - split; [done|]. cbn [fst snd]. intros x Hx%Ha'. apply Hf. set_solver.
  - split; [done|]. intros x Hx%Ha'. apply Ha. set_solver.
  - split; [done|]. intros x Hx%Ha'. apply Ha. set_solver.
Qed.

Lemma ensure_nap_keeps : keeps (ensure_nap_server_running bd).
Proof.
  unfold ensure_nap_server_running. destruct (negb _); [apply preserves_ret|]. intros [k s] [Hi Ha]. unfold host_bind at 1. cbn [get_state fst snd] in *.
  destruct (pn_nap_server s) as [old|] eqn:E.
  - unfold host_bind at 1, lift at 1, try_wait. pose proof (st_wait Hst k old Hi) as Hi1. pose proof (lp_wait k old) as Ha1. pose proof (lp_exited k old) as Hx1.
    destruct (pan_try_wait k old) as [k1 [[]|]]; cbn [fst snd] in *; [|split; [done|]; intros x Hx; by apply Ha, Ha1..].
    specialize (Hx1 eq_refl). apply spawn_keeps; [apply nap_spawning|done| |intros x Hx; by apply Ha, Ha1]. intros c x [Hx|Hx]; [|subst x; by left].
    destruct (Ha x (Ha1 x Hx)) as [Hh|[Hh|[Hh|Hh]]]; [rewrite E in Hh; by injection Hh as ->|by right; left|by right; right; left|by right; right; right].
  - apply spawn_keeps; [apply nap_spawning|done| |done]. intros c x [Hx|Hx]; [|subst x; by left].
    destruct (Ha x Hx) as [Hh|[Hh|[Hh|Hh]]]; [by rewrite E in Hh|by right; left|by right; right; left|by right; right; right].
Qed.
Lemma ensure_dnsmasq_keeps b : keeps (ensure_dnsmasq_running bd b).
Proof.
  intros [k s] [Hi Ha]. unfold ensure_dnsmasq_running, host_bind at 1. cbn [get_state fst snd] in *.
  destruct (pn_dnsmasq_child s) as [old|] eqn:E.
  - unfold host_bind at 1, lift at 1, try_wait. pose proof (st_wait Hst k old Hi) as Hi1. pose proof (lp_wait k old) as Ha1. pose proof (lp_exited k old) as Hx1.
    destruct (pan_try_wait k old) as [k1 [[]|]]; cbn [fst snd] in *; [|split; [done|]; intros x Hx; by apply Ha, Ha1..].
    specialize (Hx1 eq_refl). apply spawn_keeps; [apply dnsmasq_spawning|done| |intros x Hx; by apply Ha, Ha1]. intros c x [Hx|Hx]; [|subst x; by right; left].
    destruct (Ha x (Ha1 x Hx)) as [Hh|[Hh|[Hh|Hh]]]; [by left|rewrite E in Hh; by injection Hh as ->|by right; right; left|by right; right; right].
  - apply spawn_keeps; [apply dnsmasq_spawning|done| |done]. intros c x [Hx|Hx]; [|subst x; by right; left].
    destruct (Ha x Hx) as [Hh|[Hh|[Hh|Hh]]]; [by left|by rewrite E in Hh|by right; right; left|by right; right; right].
Qed.

Lemma held_delete_dhclient x s i : held x s → pn_dhclient_children s !! i ≠ Some x → held x (set_dhclients (delete i (pn_dhclient_children s)) s).
Proof.
  intros [Hh|[Hh|[[j Hh]|Hh]]] Hne; [by left|by right; left| |by right; right; right]. right; right; left. exists j.
  cbn [pn_dhclient_children set_dhclients]. rewrite lookup_delete_ne; [done|]. intros ->. done.
Qed.
(** Taking a DHCP client out and ending it. *)
Lemma stop_dhclient_good k s i c : I k → pn_dhclient_children s !! i = Some c → (∀ x, x ∈ pan_alive k → held x s) →
  good (pan_kill k c, set_dhclients (delete i (pn_dhclient_children s)) s).
Proof.
  intros Hi Hc Ha. split; [by apply (st_kill Hst)|]. cbn [fst snd]. intros x Hx. pose proof (lp_kill k c) as Hk. apply held_delete_dhclient; [apply Ha; set_solver|].
  rewrite Hc. intros [= ->]. set_solver.
Qed.
Lemma ensure_dhclient_keeps i : keeps (ensure_dhclient_running bd i).
Proof.
  intros [k s] [Hi Ha]. unfold ensure_dhclient_running, host_bind at 1. cbn [get_state fst snd] in *.
  assert (Hstart : ∀ k s, good (k, s) → pn_dhclient_children s !! i = None →
    good ((do! c := lift (start_dhclient bd i) in do! s := get_state in modify_state (set_dhclients (<[i := c]> (pn_dhclient_children s)))) (k, s)).1).
  { intros k1 s1 [Hi1 Ha1] Hn. unfold host_bind at 1, lift. destruct (spawn_spawning [bd_dhclient_command bd; str "-d"; str "-v"; i] k1 Hi1) as [Hi2 Ha2].
    unfold start_dhclient. destruct (spawn _ k1) as [k2 [c|e|]]; cbn [fst snd] in *; [|split; [done|]; intros x Hx%Ha2; apply Ha1; set_solver..].
    split; [done|]. cbn. intros x Hx%Ha2. apply elem_of_union in Hx as [Hx|Hx]; [|apply elem_of_singleton in Hx as ->; right; right; left; exists i; apply lookup_insert_eq].
    destruct (Ha1 x Hx) as [Hh|[Hh|[[j Hh]|Hh]]]; [by left|by right; left| |by right; right; right]. right; right; left. exists j. cbn.
    rewrite lookup_insert_ne; [done|]. intros ->. by rewrite Hn in Hh. }
  destruct (pn_dhclient_children s !! i) as [old|] eqn:E; [|by apply Hstart].
  unfold host_bind at 1, lift at 1, try_wait. pose proof (st_wait Hst k old Hi) as Hi1. pose proof (lp_wait k old) as Ha1.
  destruct (pan_try_wait k old) as [k1 [[]|]]; cbn [fst snd] in *; [|split; [done|]; intros x Hx; by apply Ha, Ha1..].
  change (host_bind _ _ (k1, s)) with ((do! c := lift (start_dhclient bd i) in do! s := get_state in modify_state (set_dhclients (<[i := c]> (pn_dhclient_children s))))
    (pan_kill k1 old, set_dhclients (delete i (pn_dhclient_children s)) s)).
  apply Hstart; [|apply lookup_delete_eq]. apply stop_dhclient_good; [done|done|]. intros x Hx. by apply Ha, Ha1.
Qed.
Lemma ensure_dhclients_keeps l : keeps (ensure_dhclients bd l).
Proof. induction l as [|i l IH]; [apply preserves_ret|]. apply preserves_bind; [apply tolerate_keeps, ensure_dhclient_keeps|by intros _]. Qed.
Lemma stop_dhclients_keeps l : NoDup l.*1 →
  ∀ k s, good (k, s) → (∀ i c, (i, c) ∈ l → pn_dhclient_children s !! i = Some c) → good (stop_dhclients l (k, s)).1.
Proof.
  induction l as [|[i c] l IH]; intros Hnd k s Hg Hl; [done|]. cbn [stop_dhclients fmap list_fmap fst] in *. inversion_clear Hnd as [|?? Hni Hnd'].
  change (good (stop_dhclients l (pan_kill k c, set_dhclients (delete i (pn_dhclient_children s)) s)).1). apply IH; [done| |].
  - apply (stop_dhclient_good k s i c); [apply Hg|apply Hl; by left|apply Hg].
  - intros j d Hj. cbn [pn_dhclient_children set_dhclients]. rewrite lookup_delete_ne; [apply Hl; by right|]. intros <-. apply Hni. apply list_elem_of_fmap. by exists (i, d).
Qed.
Lemma NoDup_fst_filter {A B} (P : A * B → Prop) `{!∀ x, Decision (P x)} (l : list (A * B)) : NoDup l.*1 → NoDup (filter P l).*1.
Proof.
  induction l as [|[a b] l IH]; [done|]. cbn [fmap list_fmap fst]. inversion_clear 1 as [|?? Hn Hnd]. rewrite filter_cons. case_decide; [|by apply IH].
  cbn [fmap list_fmap fst]. constructor; [|by apply IH]. intros Hin. apply Hn. apply list_elem_of_fmap in Hin as (p & -> & Hp).
  apply list_elem_of_filter in Hp as [_ Hp]. apply list_elem_of_fmap. by exists p.
Qed.
Lemma prune_keeps l : keeps (prune_dhclient_children l).
Proof.
  intros [k s] Hg. unfold prune_dhclient_children. assert (Hp := lp_order k (map_to_list (pn_dhclient_children s))).
  apply stop_dhclients_keeps; [|done|intros i c [_ Hin]%list_elem_of_filter; rewrite Hp in Hin; by apply elem_of_map_to_list in Hin].
  apply NoDup_fst_filter. rewrite Hp. apply NoDup_fst_map_to_list.
Qed.

Lemma controller_keeps : keeps (local_controller_mac bd).
Proof.
  intros [k s] [Hi Ha]. unfold local_controller_mac. destruct (pn_local_controller_mac s); [done|]. destruct (ctl_capture_safe [str "show"] k Hi) as [Hi' Ha'].
  destruct (run_bluetoothctl_capture bd [str "show"] k) as [k1 r]. split; [done|]. intros x Hx. by apply (Ha x), Ha'.
Qed.
Lemma send_keeps a : keeps (send a).
Proof.
  intros [k s] [Hi Ha]. unfold send. pose proof (st_send Hst k a Hi) as Hi'. pose proof (lp_send k a) as Ha'.
  destruct (pan_send k a) as [k1 []]; (split; [done|]); intros x Hx; by apply Ha, Ha'.
Qed.
Lemma send_static_keeps l : keeps (send_static l).
Proof.
  induction l as [|a l IH]; [by apply modify_keeps|]. apply preserves_bind; [apply send_keeps|]. intros _. apply preserves_bind; [by apply modify_keeps|by intros _].
Qed.
Lemma access_point_keeps : keeps (access_point_turn bd).
Proof.
  apply preserves_bind; [apply ensure_nap_keeps|]. intros _. destruct (negb _); [apply preserves_ret|]. cbv zeta.
  destruct (bool_decide (trim (bt_nap_bridge (bd_config bd)) = [])); [apply preserves_ret|]. apply preserves_bind; [apply lift_keeps, attach_safe|]. intros _. destruct (bt_dhcp_enabled _); [apply ensure_dnsmasq_keeps|apply preserves_ret].
Qed.
Lemma interface_keeps d : keeps (interface_turn bd d).
Proof.
  apply preserves_bind; [apply access_point_keeps|]. intros _. apply preserves_bind; [apply lift_keeps, resolve_safe|]. intros l.
  apply preserves_bind; [by apply modify_keeps|]. intros _. apply preserves_bind.
  { unfold dhcp_turn. destruct (_ && _); [|apply preserves_ret]. apply preserves_bind; [apply get_keeps|]. intros s.
    apply preserves_bind; [apply prune_keeps|intros _; apply ensure_dhclients_keeps]. }
  intros _. apply preserves_bind; [by intros [k s] Hg; case_match|]. intros _. apply preserves_bind; [apply get_keeps|]. intros s.
  case_match; [apply send_static_keeps|apply preserves_ret].
Qed.

Lemma held_drop_client x s m : held x s → pn_pan_clients s !! m ≠ Some x →
  held x (set_seen_macs (pn_seen_macs s ∖ {[m]}) (set_clients (delete m (pn_pan_clients s)) s)).
Proof.
  intros [Hh|[Hh|[Hh|[j Hh]]]] Hne; [by left|by right; left|by right; right; left|]. right; right; right. exists j. cbn.
  rewrite lookup_delete_ne; [done|]. by intros ->.
Qed.
Lemma retain_keeps l : NoDup l.*1 → ∀ k s, good (k, s) → (∀ m c, (m, c) ∈ l → pn_pan_clients s !! m = Some c) → good (retain_clients l (k, s)).1.
Proof.
  induction l as [|[m c] l IH]; intros Hnd k s [Hi Ha] Hl; [done|]. cbn [retain_clients fmap list_fmap fst snd] in *. inversion_clear Hnd as [|?? Hnm Hnd'].
  assert (Hm : pn_pan_clients s !! m = Some c) by (apply Hl; by left).
  assert (Hrest : ∀ m' c', (m', c') ∈ l → pn_pan_clients (set_seen_macs (pn_seen_macs s ∖ {[m]}) (set_clients (delete m (pn_pan_clients s)) s)) !! m' = Some c').
  { intros m' c' Hin. cbn. rewrite lookup_delete_ne; [apply Hl; by right|]. intros <-. apply Hnm. apply list_elem_of_fmap. by exists (m, c'). }
  unfold host_bind. pose proof (st_wait Hst k c Hi) as Hi1. pose proof (lp_wait k c) as Ha1. pose proof (lp_exited k c) as Hx.
  destruct (pan_try_wait k c) as [k1 [[]|]]; cbn [fst snd] in *; apply IH; try done.
  - split; [done|]. cbn [fst snd]. intros x Hx1. apply held_drop_client; [by apply Ha, Ha1|]. rewrite Hm. intros [= ->]. by apply Hx.
  - split; [done|]. intros x Hx1. by apply Ha, Ha1.
  - intros m' c' Hin. apply Hl. by right.
  - split; [by apply (st_kill Hst)|]. cbn [fst snd]. intros x Hx1. pose proof (lp_kill k1 c) as Hk. apply held_drop_client; [apply Ha, Ha1; set_solver|].
    rewrite Hm. intros [= ->]. set_solver.
Qed.
Lemma connect_device_keeps d : keeps (connect_device bd d).
Proof.
  apply preserves_bind; [apply lift_keeps, pair_safe|]. intros _ [k s] [Hi Ha]. unfold host_bind at 1, lift at 1, start_pan_client. cbn [fst snd] in *.
  destruct (spawn_spawning [bd_bt_network_command bd; str "-c"; dd_mac d; str "nap"] k Hi) as [Hi1 Ha1].
  destruct (spawn _ k) as [k1 [c|e|]]; cbn [fst snd] in *; [|split; [done|]; intros x Hx%Ha1; apply Ha; set_solver..].
  set (k2 := pan_emit k1 (dd_mac d) (dd_name d) PanConnected).
  change (good (insert_client (dd_mac d) c (k2, s)).1). assert (Hi2 : I k2) by (by apply (st_emit Hst)).
  assert (Ha2 : pan_alive k2 ⊆ pan_alive k ∪ {[c]}) by (etrans; [apply lp_emit|done]). clearbody k2. unfold insert_client.
  set (k3 := match pn_pan_clients s !! dd_mac d with Some old => pan_kill k2 old | None => k2 end).
  assert (Hk3 : I k3 ∧ ∀ x, x ∈ pan_alive k3 → x ∈ pan_alive k2 ∧ pn_pan_clients s !! dd_mac d ≠ Some x).
  { subst k3. destruct (pn_pan_clients s !! dd_mac d) as [old|]; [|done]. split; [by apply (st_kill Hst)|]. intros x Hx. pose proof (lp_kill k2 old) as Hk.
    split; [set_solver|]. intros [= ->]. set_solver. }
  clearbody k3. destruct Hk3 as [Hi3 Ha3]. split; [done|]. cbn [fst snd]. intros x Hx. destruct (Ha3 x Hx) as [Hx2 Hne]. apply Ha2, elem_of_union in Hx2 as [Hx2|Hx2].
  - destruct (Ha x Hx2) as [Hh|[Hh|[Hh|[j Hh]]]]; [by left|by right; left|by right; right; left|]. right; right; right. exists j. cbn.
    rewrite lookup_insert_ne; [done|]. by intros <-.
  - apply elem_of_singleton in Hx2 as ->. right; right; right. exists (dd_mac d). apply lookup_insert_eq.
Qed.
Lemma connect_devices_keeps l : keeps (connect_devices bd l).
Proof.
  induction l as [|d l IH]; [apply preserves_ret|]. apply preserves_bind; [apply get_keeps|]. intros s. apply preserves_bind; [|by intros _].
  destruct (bool_decide _); [apply preserves_ret|apply tolerate_keeps, connect_device_keeps].
Qed.
Lemma scan_keeps : keeps (scan_turn bd).
Proof.
  unfold scan_turn. destruct (negb _); [apply preserves_ret|]. apply preserves_bind; [apply lift_keeps, ctl_background_safe|]. intros _.
  apply preserves_bind.
  { intros [k s] Hg. assert (Hp := lp_order k (map_to_list (pn_pan_clients s))). apply retain_keeps; [rewrite Hp; apply NoDup_fst_map_to_list|done|].
    intros m c Hin. rewrite Hp in Hin. by apply elem_of_map_to_list in Hin. }
  intros _. apply preserves_bind.
  { apply preserves_bind; [apply lift_keeps, ctl_capture_safe|]. intros out. apply preserves_bind; [apply controller_keeps|intros; apply preserves_ret]. }
  intros ds. apply preserves_bind; [apply lift_keeps, paired_safe|intros _; apply connect_devices_keeps].
Qed.
Lemma announce_keeps l : keeps (announce l).
Proof.
  induction l as [|a l IH]; [apply preserves_ret|]. apply preserves_bind; [apply get_keeps|]. intros s. apply preserves_bind; [|by intros _].
  destruct (bool_decide _); [apply preserves_ret|]. apply preserves_bind; [by apply modify_keeps|intros _; apply send_keeps].
Qed.
Lemma scan_neighbours_keeps l d m : keeps (scan_neighbours bd l d m).
Proof.
  revert d m. induction l as [|i l IH]; intros d m; [apply preserves_ret|]. intros [k s] [Hi Ha]. cbn [scan_neighbours]. destruct (neighbours_safe (rp_name i) k Hi) as [Hi1 Ha1].
  destruct (discover_neighbor_targets bd (rp_name i) k) as [k1 [ds|e|]]; cbn [fst snd] in *; (assert (Hg : good (k1, s)) by (split; [done|]; intros x Hx; by apply Ha, Ha1)).
  - apply preserves_bind; [apply announce_keeps|by intros _|done].
  - destruct (is_missing_device_error e); [by apply IH|done].
  - done.
Qed.
Lemma peer_keeps : keeps (peer_turn bd).
Proof.
  apply preserves_bind; [apply get_keeps|]. intros s. destruct (_ || _); [apply preserves_ret|]. apply preserves_bind; [apply scan_neighbours_keeps|]. intros [da mi].
  apply preserves_bind; [by apply modify_keeps|intros _; by apply modify_keeps].
Qed.
Lemma kill_all_spec l k : I k → I (kill_all l k) ∧ ∀ x, x ∈ pan_alive (kill_all l k) → x ∈ pan_alive k ∧ x ∉ l.
Proof.
  revert k. induction l as [|c l IH]; intros k Hk; [split; [done|]; intros x Hx; split; [done|]; apply not_elem_of_nil|].
  destruct (IH (pan_kill k c)) as [Hi Ha]; [by apply (st_kill Hst)|]. split; [done|]. intros x Hx. destruct (Ha x Hx) as [Hx1 Hx2]. pose proof (lp_kill k c).
  rewrite not_elem_of_cons. split_and!; [set_solver|set_solver|done].
Qed.
Lemma drop_all k s : good (k, s) → I (kill_all (held_list s) k) ∧ pan_alive (kill_all (held_list s) k) = ∅.
Proof.
  intros [Hi Ha]. destruct (kill_all_spec (held_list s) k Hi) as [Hi' Ha']. split; [done|]. apply set_eq. intros x. split; [|set_solver].
  intros Hx. destruct (Ha' x Hx) as [Hx1 Hx2]. destruct Hx2. apply held_list_spec. by apply Ha.
Qed.
Lemma turn_keeps d e : e ≠ Cancelled → keeps (pan_turn bd d e).
Proof. destruct e; intros He; [apply interface_keeps|apply scan_keeps|apply peer_keeps|done]. Qed.
Lemma loop_keeps d es : (∀ e, e ∈ es → keeps (pan_turn bd d e)) → keeps (pan_loop bd d es).
Proof.
  induction es as [|e es IH]; intros Hes; [apply preserves_ret|]. apply preserves_bind; [apply Hes; by left|]. intros _. apply IH. intros e' He'. apply Hes. by right.
Qed.
Lemma startup_keeps : (bt_serve_nap (bd_config bd) = true → safe (install_bluetooth_masquerade bd)) → ∀ k s, pn_nap_server s = None → good (k, s) → good (startup bd (k, s)).1.
Proof.
  intros Hin k s Hs Hg. unfold startup. destruct (_ && _); [done|]. unfold host_bind at 1.
  set (m := if bt_radio_discovery_enabled (bd_config bd) then _ else _).
  assert (Hm : good (m (k, s)).1 ∧ pn_nap_server (m (k, s)).1.2 = None).
  { subst m. destruct (bt_radio_discovery_enabled _); [|done]. split.
    - revert Hg. generalize (k, s). apply preserves_bind; [apply lift_keeps, prepare_safe|]. intros _. apply preserves_bind; [apply lift_keeps, ctl_safe|]. intros _.
      apply preserves_bind; [apply controller_keeps|intros; apply preserves_ret].
    - unfold host_bind, lift. destruct (prepare_controller bd k) as [k1 [[]|e|]]; [|done|done]. destruct (run_bluetoothctl bd _ k1) as [k2 [[]|e|]]; [|done|done].
      unfold local_controller_mac. destruct (pn_local_controller_mac s); [done|]. by destruct (run_bluetoothctl_capture bd _ k2). }
  destruct (m (k, s)) as [[k1 s1] [[]|e|]]; cbn [fst snd] in *; [|apply Hm|apply Hm]. destruct Hm as [Hg1 Hn]. destruct (bt_serve_nap _); [|done].
  unfold host_bind at 1. assert (Hl := lift_keeps _ (Hin eq_refl) (k1, s1) Hg1). unfold lift in Hl |- * at 1.
  destruct (install_bluetooth_masquerade bd k1) as [k2 [[]|e|]]; cbn [fst snd] in *; [|done|done]. destruct Hl as [Hi Ha]. cbn [fst snd] in Ha.
  apply spawn_keeps; [apply nap_spawning|done| |done]. intros c x [Hx|Hx]; [|subst x; by left].
  destruct (Ha x Hx) as [Hh|[Hh|[Hh|Hh]]]; [by rewrite Hn in Hh|by right; left|by right; right; left|by right; right; right].
Qed.
End Procs.

(** ** Every process the service starts is its own to end *)
Section Children.
Context `{LawfulPan K} (bd : BluetoothDiscovery).
Lemma anything_stable : stable bd (λ _ : K, True).
Proof. done. Qed.
Lemma delete_rounds_alive n p r (k : K) : pan_alive (delete_rounds n p r k) ⊆ pan_alive k.
Proof.
  revert k. induction n as [|n IH]; intros k; [done|]. cbn [delete_rounds]. pose proof (lp_command k (p :: replace_op (str "-C") r)) as Hc.
  destruct (run_command k _) as [k1 [out|]]; [|done]. destruct (co_success out); [|done]. etrans; [apply IH|]. etrans; [apply lp_command|done].
Qed.
Lemma ensure_alive r : safe (λ _ : K, True) (iptables_ensure bd r).
Proof.
  assert (Ho : ∀ args, safe (λ _ : K, True) (output (bd_iptables_command bd) args)).
  { intros args k _. split; [done|]. unfold output. pose proof (lp_command k (bd_iptables_command bd :: args)) as Hc. by destruct (run_command k _) as [k1 [out|]]. }
  apply safe_bind; [apply Ho|]. intros out. destruct (co_success out); [apply safe_ret|]. apply safe_bind; [apply Ho|]. intros out'.
  destruct (co_success out'); [apply safe_ret|apply safe_err].
Qed.
Lemma install_alive : safe (λ _ : K, True) (install_bluetooth_masquerade bd).
Proof.
  unfold install_bluetooth_masquerade. destruct (nap_rules bd) as [[p f]|]; [|apply safe_ret]. intros k _. split; [done|]. etrans; [|apply lp_command].
  eapply (safe_bind (λ _, True)); [apply ensure_alive|intros _; apply ensure_alive|done].
Qed.
Lemma teardown_alive (k : K) s : good (λ _, True) (k, s) → pan_alive (teardown_linux bd (k, s)).1.1 = ∅.
Proof.
  intros Hg. destruct (drop_all bd (λ _, True) anything_stable k s Hg) as [_ Hk]. cbn [teardown_linux fst]. set (k1 := kill_all (held_list s) k) in *. clearbody k1.
  destruct (bt_serve_nap _); [|done]. apply set_eq. intros x. split; [|set_solver]. rewrite <- Hk. revert x. change (pan_alive (delete_bridge_if_present bd (trim (bt_nap_bridge (bd_config bd))) (uninstall_bluetooth_masquerade bd k1)) ⊆ pan_alive k1).
  assert (Hu : pan_alive (uninstall_bluetooth_masquerade bd k1) ⊆ pan_alive k1).
  { unfold uninstall_bluetooth_masquerade. destruct (nap_rules bd) as [[p f]|]; [|done]. etrans; apply delete_rounds_alive. }
  unfold delete_bridge_if_present. destruct (bool_decide _); [done|]. etrans; [|exact Hu].
  etrans; [apply (ip_link_safe bd (λ _, True) anything_stable); done|apply (ip_link_safe bd (λ _, True) anything_stable); done].
Qed.
Lemma any_turn_keeps d e : preserves (good (λ _ : K, True)) (pan_turn bd d e).
Proof.
  destruct e; try (by apply turn_keeps; [apply anything_stable|]). intros [k s] Hg. split; [done|]. intros x.
  pose proof (teardown_alive k s Hg) as E. cbn [pan_turn]. rewrite E. set_solver.
Qed.
Lemma run_good es (k : K) : pan_alive k = ∅ → good (λ _, True) (pan_main bd es (k, pan_start)).1.
Proof.
  intros Hk. unfold pan_main, host_bind. assert (Hg := startup_keeps bd (λ _, True) anything_stable (λ _, install_alive) k pan_start eq_refl).
  destruct (startup bd (k, pan_start)) as [[k1 s1] [[]|e|]]; cbn [fst] in *; [|apply Hg; split; [done|]; set_solver..].
  assert (Hl := loop_keeps bd (λ _, True) (pan_now k1 + bt_startup_timeout_ms (bd_config bd)) es (λ e _, any_turn_keeps _ e) (k1, s1)).
  apply Hl, Hg. split; [done|]. set_solver.
Qed.
End Children.

Section ChildrenTheorem.
Context `{LawfulPan K}.
(** C22: The service never loses a process it started: as long as it runs, every
    child that lives is one of those it holds, and once [run] has ended
    (cancelled, given up, or with an error at any of its commands) none lives. *)
Theorem pan_children_held (bd : BluetoothDiscovery) (es : list PanEvent) (k k' : K) s r :
  pan_alive k = ∅ → pan_run bd es k = (k', s, r) →
  match r with
  | Ok _ => ∀ x, x ∈ pan_alive k' → held x s
  | _ => pan_alive k' = ∅
  end.
Proof.
  intros Hk E. pose proof (run_good bd es k Hk) as Hg. unfold pan_run in E.
  destruct (pan_main bd es (k, pan_start)) as [[k1 s1] [[]|e|]]; injection E as <- <- <-; [apply Hg|by apply (drop_all bd _ (anything_stable bd))..].
Qed.
End ChildrenTheorem.

(** ** The rules of the access point *)
(** The processes and the channels have nothing to do with the firewall. *)
Class PanFirewall `{PanOs K} `{FirewallOs K} : Prop := {
  pf_spawn (k : K) args : fw_root k → fw_root (pan_spawn k args).1 ∧ ∀ q x, fw_count (pan_spawn k args).1 q x = fw_count k q x;
  pf_wait (k : K) c : fw_root k → fw_root (pan_try_wait k c).1 ∧ ∀ q x, fw_count (pan_try_wait k c).1 q x = fw_count k q x;
  pf_kill (k : K) c : fw_root k → fw_root (pan_kill k c) ∧ ∀ q x, fw_count (pan_kill k c) q x = fw_count k q x;
  pf_send (k : K) a : fw_root k → fw_root (pan_send k a).1 ∧ ∀ q x, fw_count (pan_send k a).1 q x = fw_count k q x;
  pf_emit (k : K) m n e : fw_root k → fw_root (pan_emit k m n e) ∧ ∀ q x, fw_count (pan_emit k m n e) q x = fw_count k q x;
}.
(** Its masquerading rule and its forwarding rule; none without an interface to
    the internet or with a bridge address that does not parse. *)
Definition nap_owned (bd : BluetoothDiscovery) : list (list Z * Rule) :=
  if bt_serve_nap (bd_config bd) then match nap_rules bd with Some (p, f) => [(str "iptables", p); (str "iptables", f)] | None => [] end else [].

Section Nap.
Context `{CommandOs K} `{PanOs K} `{PanProcs K} `{FirewallOs K} `{!LawfulPan} `{!LawfulFirewall} `{!RevocableFirewall} `{!PanFirewall}.
Context (config : BluetoothConfig) (listen_port : Z) (static_targets : list PanAddr) (nat_interface : option (list Z)).
Notation bd := (bluetooth_defaults config listen_port static_targets nat_interface).
Context (Hplain : ∀ i, nat_interface = Some i → plain i).

Definition same_rules (k0 k : K) : Prop := fw_root k ∧ ∀ q x, fw_count k q x = fw_count k0 q x.
Lemma same_rules_trans k0 k1 k2 : same_rules k0 k1 → (fw_root k1 → same_rules k1 k2) → same_rules k0 k2.
Proof. intros [Hr Hc] Hk. destruct (Hk Hr) as [Hr' Hc']. split; [done|]. intros q x. by rewrite Hc'. Qed.
Lemma same_stable k0 : stable bd (same_rules k0).
Proof.
  split; [intros k p args Hp Hk|intros..]; (eapply same_rules_trans; [done|]; intros ?).
  - split; [by apply lf_root|]. intros q x. apply lf_other. destruct Hp as [->| ->]; by apply (bool_decide_unpack _); vm_compute.
  - by apply pf_spawn.
  - by apply pf_wait.
  - by apply pf_kill.
  - by apply pf_send.
  - by apply pf_emit.
Qed.
Lemma nap_rules_ok p f : nap_rules bd = Some (p, f) → rule_ok 2 p ∧ rule_ok 0 f.
Proof.
  unfold nap_rules. cbn [bd_nat_interface bluetooth_defaults]. destruct nat_interface as [i|]; [|done]. cbn [mbind option_bind].
  destruct (parse_ipv4_cidr _) as [[gw pre]|e|]; [|done|done]. set (net := (subnet_network gw pre).1).
  remember (masquerade_args _ _) as mp eqn:Emp. remember (forward_args _) as mf eqn:Emf. intros [= <- <-]. subst mp mf.
  assert (Hc : plain (fmt_ipv4 net ++ 47 :: dec_u8 pre)).
  { unfold plain. destruct (fmt_ipv4_text net) as [Hf Hne]. destruct (fmt_ipv4 net) as [|b t]; [done|]. inversion_clear Hf as [|?? Hb _]. cbn [app]. unfold addr_char in Hb.
    rewrite !elem_of_cons, elem_of_nil. intros [[= Eb _]|[[= Eb _]|[[= Eb _]|[]]]]; vm_compute in Eb; lia. }
  split; [apply masquerade_rule_ok; [done|by apply Hplain]|by apply forward_rule_ok].
Qed.
(** The service's own [iptables_ensure] does what the gateway's does. *)
Lemma iptables_ensure_rule pos r k : rule_ok pos r →
  (iptables_ensure bd r k).1 = (ensure_rule (str "iptables") pos r k).1 ∧
  ((iptables_ensure bd r k).2 = Ok () ↔ (ensure_rule (str "iptables") pos r k).2 = Ok ()).
Proof.
  intros Hr. unfold iptables_ensure, ensure_rule, host_bind, output, check_cmd_quiet, run_cmd. rewrite (replace_op_at _ pos) by done. cbn [bd_iptables_command bluetooth_defaults].
  destruct (run_command k _) as [k1 [out|]]; [|done]. destruct (co_success out); [done|]. destruct (run_command k1 _) as [k2 [out'|]]; [|done].
  by destruct (co_success out').
Qed.
Lemma install_rules k : bt_serve_nap config = true → fw_root k →
  grows (nap_owned bd) k (install_bluetooth_masquerade bd k).1 ∧
  ((install_bluetooth_masquerade bd k).2 = Ok () → ∀ q x, (q, x) ∈ nap_owned bd → (0 < fw_count (install_bluetooth_masquerade bd k).1 q x)%nat).
Proof.
  intros Hs Hk. unfold nap_owned, install_bluetooth_masquerade. cbn [bd_config bluetooth_defaults]. rewrite Hs.
  destruct (nap_rules bd) as [[p f]|] eqn:E; [|split; [by apply calm_grows, calm_refl|by intros _ q x ?%elem_of_nil]]. destruct (nap_rules_ok p f E) as [Hp Hf].
  pose proof (sysctl_calm (str "net.ipv4.ip_forward=1") k Hk) as Hc. unfold quietly, run_cmd in Hc.
  assert (Hk1 : calm k (run_command k [str "sysctl"; str "-w"; str "net.ipv4.ip_forward=1"]).1).
  { destruct (run_command k _) as [k1 [out|]]; [destruct (co_success out)|]; apply Hc; intros v E'; apply (f_equal (take 13)) in E'; by vm_compute in E'. }
  clear Hc. set (k1 := (run_command k _).1) in *. clearbody k1. destruct Hk1 as (Hr1 & Hres1 & Hc1).
  assert (Ht : tables (str "iptables")) by (by left).
  destruct (puts_then [_] [_] _ _ (ensure_rule_puts _ 2 _ Ht Hp) (ensure_rule_puts _ 0 _ Ht Hf)) as [Hin Hput]. specialize (Hin k1 Hr1). specialize (Hput k1).
  unfold host_bind in *. destruct (iptables_ensure_rule 2 p k1 Hp) as [E1 E2].
  destruct (iptables_ensure bd p k1) as [k2 r2], (ensure_rule (str "iptables") 2 p k1) as [k2' r2']. cbn [fst snd] in *. subst k2'.
  assert (Hg : grows [(str "iptables", p); (str "iptables", f)] k k1) by (by apply calm_grows).
  destruct r2 as [[]|e|].
  - assert (r2' = Ok ()) as -> by (by apply E2). destruct (iptables_ensure_rule 0 f k2 Hf) as [F1 F2].
    destruct (iptables_ensure bd f k2) as [k3 r3], (ensure_rule (str "iptables") 0 f k2) as [k3' r3']. cbn [fst snd] in *. subst k3'. split.
    + eapply grows_trans; [exact Hg|]. by apply adds_grows.
    + intros Hok q x Hin'. apply F2 in Hok as ->. by eapply Hput.
  - destruct r2' as [[]|e'|]; [by destruct E2 as [_ E2]; specialize (E2 eq_refl)|..]; (split; [eapply grows_trans; [exact Hg|]; by apply adds_grows|done]).
  - destruct r2' as [[]|e'|]; [by destruct E2 as [_ E2]; specialize (E2 eq_refl)|..]; (split; [eapply grows_trans; [exact Hg|]; by apply adds_grows|done]).
Qed.
Lemma lift_ok {A} (m : Host K BluetoothError A) k s k' s' a : lift m (k, s) = ((k', s'), Ok a) → m k = (k', Ok a) ∧ s' = s.
Proof. unfold lift. destruct (m k) as [k1 [b|e|]]; [|done|done]. by intros [= -> -> ->]. Qed.
Lemma bind_ok {S E A B} (m : Host S E A) (f : A → Host S E B) k k' b : host_bind m f k = (k', Ok b) → ∃ k1 a, m k = (k1, Ok a) ∧ f a k1 = (k', Ok b).
Proof. unfold host_bind. destruct (m k) as [k1 [a|e|]]; [|done|done]. eauto. Qed.
Lemma startup_rules k k1 s1 : fw_root k → startup bd (k, pan_start) = ((k1, s1), Ok ()) →
  grows (nap_owned bd) k k1 ∧ ∀ q x, (q, x) ∈ nap_owned bd → (0 < fw_count k1 q x)%nat.
Proof.
  intros Hk. unfold startup. destruct (_ && _); [done|]. intros ([ka sa] & [] & Ea & Eb)%bind_ok.
  assert (Ha : same_rules k ka).
  { cbn [bd_config bluetooth_defaults] in Ea. destruct (bt_radio_discovery_enabled config); [|by injection Ea as <- <-].
    apply bind_ok in Ea as ([kb sb] & [] & [E1 _]%lift_ok & ([kc sc] & [] & [E2 ->]%lift_ok & ([kd sd] & m & E3 & E4)%bind_ok)%bind_ok).
    injection E4 as <- <-. assert (I1 := prepare_safe bd _ (same_stable k) k (conj Hk (λ _ _, eq_refl))). rewrite E1 in I1. destruct I1 as [I1 _].
    assert (I2 := ctl_safe bd _ (same_stable k) [str "scan"; str "on"] kb I1). rewrite E2 in I2. destruct I2 as [I2 _].
    unfold local_controller_mac in E3. destruct (pn_local_controller_mac sb); [by injection E3 as <- _ _|].
    assert (I3 := ctl_capture_safe bd _ (same_stable k) [str "show"] kc I2). destruct (run_bluetoothctl_capture bd [str "show"] kc) as [ke re].
    by injection E3 as <- _ _; apply I3. }
  cbn [bd_config bluetooth_defaults] in Eb. destruct (bt_serve_nap config) eqn:Es.
  - apply bind_ok in Eb as ([kb sb] & [] & [E1 ->]%lift_ok & ([kc sc] & c & [E2 ->]%lift_ok & [= <- _])%bind_ok).
    destruct (install_rules ka Es (proj1 Ha)) as [Hg Hp]. rewrite E1 in Hg, Hp. specialize (Hp eq_refl). cbn [fst] in Hg, Hp.
    assert (I2 := nap_spawning bd _ (same_stable kb) kb (conj (proj1 Hg) (λ _ _, eq_refl))). rewrite E2 in I2. destruct I2 as [[Hr2 Hc2] _]. cbn [fst] in Hr2, Hc2. split.
    + split; [done|]. intros q x. rewrite Hc2. rewrite <- (proj2 Ha). apply Hg.
    + intros q x Hin. rewrite Hc2. by apply Hp.
  - injection Eb as <- _. unfold nap_owned. cbn [bd_config bluetooth_defaults]. rewrite Es. destruct Ha as [Hr Hc]. split; [|by intros q x ?%elem_of_nil].
    split; [done|]. intros q x. rewrite Hc, bool_decide_eq_false_2 by apply not_elem_of_nil. lia.
Qed.
Lemma loop_ok_app d es es' st st' : pan_loop bd d es st = (st', Ok ()) → pan_loop bd d (es ++ es') st = pan_loop bd d es' st'.
Proof.
  revert st. induction es as [|e es IH]; intros st; [by intros [= ->]|]. cbn [pan_loop app]. intros (st1 & [] & E1 & E2)%bind_ok.
  unfold host_bind. rewrite E1. by apply IH.
Qed.
(** The service that still runs, and one event more. *)
Lemma run_more es e (k k1 : K) s1 : pan_run bd es k = (k1, s1, Ok ()) → ∃ d, pan_run bd (es ++ [e]) k =
  match pan_turn bd d e (k1, s1) with
  | ((k, s), Ok ()) => (k, s, Ok ())
  | ((k, s), r) => (kill_all (held_list s) k, drop_children s, r)
  end.
Proof.
  unfold pan_run, pan_main, host_bind. destruct (startup bd (k, pan_start)) as [[ka sa] [[]|x|]]; [|done|done]. set (d := pan_now ka + _).
  destruct (pan_loop bd d es (ka, sa)) as [[kb sb] [[]|x|]] eqn:E; [|done|done]. intros [= <- <-]. exists d. rewrite (loop_ok_app _ _ _ _ _ E).
  cbn [pan_loop]. unfold host_bind. by destruct (pan_turn bd d e (kb, sb)) as [[kc sc] [[]|x|]].
Qed.
Lemma run_ok_uncancelled es (k : K) k1 s1 : pan_run bd es k = (k1, s1, Ok ()) → Cancelled ∉ es.
Proof.
  unfold pan_run, pan_main, host_bind. destruct (startup bd (k, pan_start)) as [[ka sa] [[]|x|]]; [|done|done]. set (d := pan_now ka + _).
  destruct (pan_loop bd d es (ka, sa)) as [st [[]|x|]] eqn:E; [|by destruct st..]. intros _. clear s1. revert st E. generalize (ka, sa).
  induction es as [|e es IH]; intros st0 st E; [apply not_elem_of_nil|]. cbn [pan_loop] in E. apply bind_ok in E as (st1 & [] & E1 & E2).
  apply not_elem_of_cons. split; [intros <-; by destruct st0|by eapply IH].
Qed.
(** While the service runs, the rules are those it put there at its start. *)
Lemma run_rules es (k k1 : K) s1 : fw_root k → pan_alive k = ∅ → pan_run bd es k = (k1, s1, Ok ()) →
  good (same_rules k1) (k1, s1) ∧ grows (nap_owned bd) k k1 ∧ ∀ q x, (q, x) ∈ nap_owned bd → (0 < fw_count k1 q x)%nat.
Proof.
  intros Hk Ha E. pose proof (run_ok_uncancelled _ _ _ _ E) as Hc. pose proof (run_good bd es k Ha) as Hg. revert E Hg. unfold pan_run, pan_main, host_bind.
  destruct (startup bd (k, pan_start)) as [[ka sa] [[]|x|]] eqn:Es; [|done|done]. destruct (startup_rules k ka sa Hk Es) as [Hgr Hp].
  pose proof (startup_keeps bd (λ _ : K, True) (anything_stable bd) (λ _, install_alive bd) k pan_start eq_refl) as Hga. rewrite Es in Hga. cbn [fst] in Hga.
  assert (Hga' : good (λ _ : K, True) (ka, sa)) by (apply Hga; split; [done|]; cbn [fst snd]; set_solver). clear Hga.
  set (d := pan_now ka + _). assert (Hl := loop_keeps bd (same_rules ka) d es (λ e He, turn_keeps bd _ (same_stable ka) d e (λ Eq, Hc (eq_ind _ (λ e, e ∈ es) He _ Eq))) (ka, sa)).
  destruct (pan_loop bd d es (ka, sa)) as [[kb sb] [[]|x|]]; [|done|done]. intros [= -> ->] [_ Hh]. destruct Hl as [[Hr Hcount] _]; [split; [split; [apply Hgr|done]|apply Hga']|].
  cbn [fst snd] in *. split_and!; [by split|split; [done|]|]; intros q x; rewrite Hcount; [apply Hgr|apply Hp].
Qed.
Lemma uninstall_clears (k : K) : bt_serve_nap config = true → fw_root k → clears (nap_owned bd) k (uninstall_bluetooth_masquerade bd k).
Proof.
  intros Hs Hk. unfold nap_owned, uninstall_bluetooth_masquerade. cbn [bd_config bluetooth_defaults bd_iptables_command]. rewrite Hs.
  destruct (nap_rules bd) as [[p f]|] eqn:E; [|by apply clears_nil]. destruct (nap_rules_ok p f E) as [Hp Hf]. assert (Ht : tables (str "iptables")) by (by left).
  destruct (delete_clears (str "iptables") 2 p k Ht Hp Hk) as [Hc1 _]. destruct (delete_clears (str "iptables") 0 f _ Ht Hf (proj1 Hc1)) as [Hc2 _].
  by eapply (clears_trans [_] [_]).
Qed.
Lemma same_quietly {A} (m : Host K BluetoothError A) k0 k : safe (same_rules k0) m → same_rules k0 k → same_rules k0 (quietly m k).
Proof. intros Hm Hk. by apply Hm. Qed.
Lemma teardown_rules (k : K) s : good (same_rules k) (k, s) → clears (nap_owned bd) k (teardown_linux bd (k, s)).1.1.
Proof.
  intros Hg. destruct (drop_all bd _ (same_stable k) k s Hg) as [[Hr Hc] _]. cbn [teardown_linux fst]. set (k1 := kill_all (held_list s) k) in *. clearbody k1.
  cbn [bd_config bluetooth_defaults]. destruct (bt_serve_nap config) eqn:Es.
  - assert (Hu := uninstall_clears k1 Es Hr). set (k2 := uninstall_bluetooth_masquerade bd k1) in *. clearbody k2.
    assert (Hd : same_rules k2 (delete_bridge_if_present bd (trim (bt_nap_bridge config)) k2)).
    { unfold delete_bridge_if_present. assert (Hk2 : same_rules k2 k2) by (split; [apply Hu|done]). destruct (bool_decide _); [done|].
      by repeat (apply same_quietly; [apply ip_link_safe, same_stable|]). }
    destruct Hd as [Hr' Hc']. split; [done|]. intros q x. rewrite Hc', <- Hc. apply Hu.
  - unfold nap_owned. cbn [bd_config bluetooth_defaults]. rewrite Es. split; [done|]. intros q x. by rewrite bool_decide_eq_false_2 by apply not_elem_of_nil.
Qed.
Lemma kill_rules l (k : K) : fw_root k → same_rules k (kill_all l k).
Proof. intros Hk. by apply (kill_all_spec bd _ (same_stable k)). Qed.

(** C16: A device that serves the access point, with an interface to the internet
    and a bridge address that parses, has its masquerading rule and its
    forwarding rule as long as the service runs, once each, or as often as
    before if they were already there; when the service is cancelled on a host
    where rules can be looked up and deleted, eight copies of each are gone, so
    that none is left unless there were more before; and no other rule of the
    host ever changes. *)
Theorem nap_rules_follow es (k k1 : K) s1 :
  fw_root k → pan_alive k = ∅ → pan_run bd es k = (k1, s1, Ok ()) →
  (∀ q x, fw_count k1 q x = if bool_decide ((q, x) ∈ nap_owned bd) then (1 `max` fw_count k q x)%nat else fw_count k q x) ∧
  ∃ k2 s2, pan_run bd (es ++ [Cancelled]) k = (k2, s2, Err Finished) ∧
    ∀ q x, if bool_decide ((q, x) ∈ nap_owned bd) then (fw_count k2 q x ≤ fw_count k q x - 8)%nat else fw_count k2 q x = fw_count k q x.
Proof.
  intros Hk Ha E. destruct (run_rules es k k1 s1 Hk Ha E) as (Hg & [Hr Hgr] & Hp).
  assert (Hone : ∀ q x, fw_count k1 q x = if bool_decide ((q, x) ∈ nap_owned bd) then (1 `max` fw_count k q x)%nat else fw_count k q x).
  { intros q x. specialize (Hgr q x). destruct (bool_decide_reflect ((q, x) ∈ nap_owned bd)) as [Hin|]; [|lia]. specialize (Hp q x Hin). lia. }
  split; [done|]. destruct (run_more es Cancelled k k1 s1 E) as [d ->]. cbn [pan_turn]. pose proof (teardown_rules k1 s1 Hg) as [Hr2 Hc2].
  change (teardown_linux bd (k1, s1)) with ((teardown_linux bd (k1, s1)).1.1, drop_children s1, Err (A := unit) Finished). set (k2 := (teardown_linux bd (k1, s1)).1.1) in *. clearbody k2.
  eexists _, _. split; [done|]. intros q x. rewrite (proj2 (kill_rules _ k2 Hr2)). specialize (Hc2 q x). rewrite Hone in Hc2.
  destruct (bool_decide_reflect ((q, x) ∈ nap_owned bd)) as [Hin|]; [lia|done].
Qed.
(** A service that ends in any other way leaves them where they are. *)
Lemma ended_service_keeps_rules es e (k k1 k2 : K) s1 s2 r :
  fw_root k → pan_alive k = ∅ → pan_run bd es k = (k1, s1, Ok ()) → e ≠ Cancelled →
  pan_run bd (es ++ [e]) k = (k2, s2, r) → ∀ q x, fw_count k2 q x = fw_count k1 q x.
Proof.
  intros Hk Ha E He. destruct (run_rules es k k1 s1 Hk Ha E) as (Hg & [Hr Hgr] & Hp). destruct (run_more es e k k1 s1 E) as [d ->].
  pose proof (turn_keeps bd _ (same_stable k1) d e He (k1, s1) Hg) as [[Hr2 Hc2] _].
  destruct (pan_turn bd d e (k1, s1)) as [[k3 s3] [[]|x|]]; cbn [fst] in *; intros [= <- <- <-] q y; [by rewrite Hc2|by rewrite (proj2 (kill_rules _ k3 Hr2))..].
Qed.
End Nap.

(** ** A host to run on *)
Record FakePan := MkFakePan { fp_host : FakeHost; fp_alive : gset nat; fp_next : nat; fp_dir : option (list (list Z) * bool); fp_sent : list PanAddr }.
Definition fp_with (h : FakeHost) (k : FakePan) : FakePan := MkFakePan h (fp_alive k) (fp_next k) (fp_dir k) (fp_sent k).
Definition fp_procs (a : gset nat) (k : FakePan) : FakePan := MkFakePan (fp_host k) a (S (fp_next k)) (fp_dir k) (fp_sent k).
#[export] Instance fake_pan_commands : CommandOs FakePan := {
  run_command k cmd := let '(h, o) := run_command (fp_host k) cmd in (fp_with h k, o);
  read_to_string k path := read_to_string (fp_host k) path;
}.
#[export] Instance fake_pan_firewall : FirewallOs FakePan := {
  fw_count k := fw_count (fp_host k);
  fw_reserved k := fw_reserved (fp_host k);
  fw_canonical := fw_canonical (K := FakeHost);
  fw_root k := fw_root (fp_host k);
}.
#[export] Instance fake_pan : PanOs FakePan := {
  pan_spawn k args := (fp_procs ({[fp_next k]} ∪ fp_alive k) k, Some (fp_next k));
  pan_try_wait k c := (k, Some (negb (bool_decide (c ∈ fp_alive k))));
  pan_kill k c := fp_procs (fp_alive k ∖ {[c]}) k;
  pan_read_dir k := fp_dir k;
  pan_operstate _ _ := Some (Some (str "up"));
  pan_path_exists _ _ := false;
  pan_if_index _ _ := Some 7;
  pan_now k := Z.of_nat (fp_next k);
  pan_order _ l := l;
  pan_send k a := (MkFakePan (fp_host k) (fp_alive k) (fp_next k) (fp_dir k) (fp_sent k ++ [a]), true);
  pan_emit k _ _ _ := k;
}.
#[export] Instance fake_pan_procs : PanProcs FakePan := fp_alive.

#[export] Instance fake_pan_lawful : LawfulPan (K := FakePan).
Proof.
  split; unfold pan_alive, fake_pan_procs; cbn.
  - intros k cmd. by destruct (match cmd with [] => _ | _ => _ end).
  - intros k args. set_solver.
  - done.
  - intros k c [= Hc]. apply negb_true_iff, bool_decide_eq_false in Hc. done.
  - done.
  - done.
  - done.
  - done.
Qed.
Lemma fake_pan_runs (k : FakePan) cmd : fp_host (run_command k cmd).1 = (run_command (fp_host k) cmd).1 ∧ (run_command k cmd).2 = (run_command (fp_host k) cmd).2.
Proof. cbn [run_command fake_pan_commands]. by destruct (run_command (fp_host k) cmd). Qed.
#[export] Instance fake_pan_firewall_lawful : LawfulFirewall (K := FakePan).
Proof.
  pose proof fake_pan_runs as Hrun.
  split; cbn [fw_count fw_reserved fw_canonical fw_root fake_pan_firewall].
  - intros k cmd. rewrite (proj1 (Hrun k cmd)). apply lf_root.
  - intros k p pos r. rewrite (proj1 (Hrun k _)), (proj2 (Hrun k _)). apply lf_check.
  - intros k p pos r. rewrite (proj1 (Hrun k _)), (proj2 (Hrun k _)). apply lf_append.
  - intros k p pos r. rewrite (proj1 (Hrun k _)), (proj2 (Hrun k _)). apply lf_delete.
  - intros k p args q x. rewrite (proj1 (Hrun k _)). apply lf_other.
  - intros k. apply (lf_read (fp_host k)).
  - intros k v. rewrite (proj1 (Hrun k _)), (proj2 (Hrun k _)). apply lf_write.
  - intros k v. rewrite (proj1 (Hrun k _)), (proj2 (Hrun k _)). apply lf_write_fails.
  - intros k p args. rewrite (proj1 (Hrun k _)). apply lf_unreserved.
Qed.
#[export] Instance fake_pan_firewall_revocable : RevocableFirewall (K := FakePan).
Proof.
  split; cbn [fw_count fw_reserved fw_canonical fw_root fake_pan_firewall].
  - intros k p pos r. rewrite (proj2 (fake_pan_runs k _)). apply rf_check.
  - intros k p pos r. rewrite (proj2 (fake_pan_runs k _)). apply rf_delete.
  - intros k v. rewrite (proj2 (fake_pan_runs k _)). apply rf_write.
Qed.
#[export] Instance fake_pan_apart : PanFirewall (K := FakePan).
Proof. by split. Qed.

(** Every command answers with a device and a neighbour. *)
Definition sample_pan (dir : option (list (list Z) * bool)) : FakePan :=
  MkFakePan (MkFakeHost [(str "iptables", [str "-A"; str "INPUT"; str "-j"; str "ACCEPT"])] (str "8080")
    (str "Device AA:BB:CC:DD:EE:FF PIM-phone" ++ [10] ++ str "10.44.0.20 lladdr aa:bb:cc:dd:ee:ff REACHABLE")) ∅ 0 dir [].
Definition sample_bt : BluetoothConfig :=
  MkBluetooth true (str "bnep0") true (str "PIM") (str "PIM-laptop") true true (str "pim-nap") (str "10.44.0.1/24") true None (str "12h") None false true
    1000 5000 2000 5 180 30000 bluetooth_default.
Definition sample_service : BluetoothDiscovery := bluetooth_defaults sample_bt 9100 [PanV4 0x0a2c0009 9100] (Some (str "eth0")).
Definition sample_events : list PanEvent := [InterfaceTick; ScanTick; PeerTick; InterfaceTick].
Definition sample_dir : option (list (list Z) * bool) := Some ([str "eth0"; str "bnep0"], true).

Lemma pan_children_held_witness :
  (let '(k', s, r) := pan_run sample_service sample_events (sample_pan sample_dir) in
   r = Ok () ∧ pan_alive k' = {[0%nat; 1%nat; 2%nat]} ∧ ∀ x, x ∈ pan_alive k' → held x s) ∧
  (let '(k', s, r) := pan_run sample_service (sample_events ++ [Cancelled]) (sample_pan sample_dir) in r = Err Finished ∧ pan_alive k' = ∅).
Proof.
  split.
  - destruct (pan_run sample_service sample_events (sample_pan sample_dir)) as [[k' s] r] eqn:E.
    pose proof (pan_children_held sample_service sample_events (sample_pan sample_dir) k' s r eq_refl E) as Hh. vm_compute in E.
    injection E as <- <- <-. split_and!; [done|by vm_compute|exact Hh].
  - destruct (pan_run sample_service (sample_events ++ [Cancelled]) (sample_pan sample_dir)) as [[k' s] r] eqn:E.
    pose proof (pan_children_held sample_service (sample_events ++ [Cancelled]) (sample_pan sample_dir) k' s r eq_refl E) as Hh. vm_compute in E.
    injection E as <- <- <-. split; [done|exact Hh].
Defined.
(** The masquerading rule of an earlier run is still there. *)
Definition sample_left : FakePan :=
  let k := sample_pan sample_dir in fp_with (MkFakeHost (fh_rules (fp_host k) ++ take 1 (nap_owned sample_service)) (fh_reserved (fp_host k)) (fh_ipv4 (fp_host k))) k.
Lemma nap_rules_follow_witness :
  (length (nap_owned sample_service) = 2)%nat ∧
  (let '(k1, s1, r) := pan_run sample_service sample_events sample_left in
   r = Ok () ∧ ∀ q x, (q, x) ∈ nap_owned sample_service → fw_count k1 q x = 1%nat) ∧
  ∃ k2 s2, pan_run sample_service (sample_events ++ [Cancelled]) sample_left = (k2, s2, Err Finished) ∧
    ∀ q x, (q, x) ∈ nap_owned sample_service → fw_count k2 q x = 0%nat.
Proof.
  split; [by vm_compute|]. destruct (pan_run sample_service sample_events sample_left) as [[k1 s1] r] eqn:E.
  assert (r = Ok ()) as -> by (by vm_compute in E; injection E as _ _ <-).
  assert (Hplain : ∀ i, Some (str "eth0") = Some i → plain i) by (intros i [= <-]; by apply (bool_decide_unpack _); vm_compute).
  assert (Hroot : fw_root sample_left) by (by vm_compute).
  assert (Hfew : ∀ q x, (q, x) ∈ nap_owned sample_service → (fw_count sample_left q x ≤ 1)%nat).
  { intros q x Hin. enough (Forall (λ p : list Z * Rule, (fw_count sample_left p.1 p.2 ≤ 1)%nat) (nap_owned sample_service)) as Hall.
    { by rewrite Forall_forall in Hall; apply (Hall (q, x)). }
    by apply (bool_decide_unpack _); vm_compute. }
  destruct (nap_rules_follow sample_bt 9100 [PanV4 0x0a2c0009 9100] (Some (str "eth0")) Hplain sample_events sample_left k1 s1 Hroot eq_refl E) as [Hone (k2 & s2 & E2 & Hend)].
  split; [split; [done|]|exists k2, s2; split; [exact E2|]]; intros q x Hin; specialize (Hfew q x Hin).
  - rewrite Hone, bool_decide_eq_true_2 by exact Hin. lia.
  - specialize (Hend q x). rewrite bool_decide_eq_true_2 in Hend by exact Hin. lia.
Defined.

(** The directory of interfaces cannot be read to its end: the service is over,
    its processes too, and its rules are still there. *)
Example failed_service_leaves_rules :
  let '(k1, _, r) := pan_run sample_service [InterfaceTick] (sample_pan (Some ([str "eth0"], false))) in
  r = Err (Failed BtIo) ∧ pan_alive k1 = ∅ ∧ length (fh_rules (fp_host k1)) = 3%nat.
Proof. by vm_compute. Qed.
