(* ===== verification/Startup.v ===== *)
(** * Start and end of the daemon (crates/pim-daemon/src/app.rs, runtime_config.rs, runtime_paths.rs, crates/pim-cli/src/main.rs)

    What happens between [pim up] and the first turn of the event loop: the
    configuration and the PID file, the TUN device with the addresses of the
    node, the listener, the gateway, the configured peers, and the state the
    handlers start from; then [pim status] and [pim down], which find the
    daemon by its PID file.  [StartOs] is what the system answers.  What
    [Identity::load_or_generate] returned ([Keys] models it), whether the raw
    sockets open and what the trust store held are arguments. *)

From S2P Require Import Prelude Core MeshAddress Text Ipv6Text Host Firewall PanSupport Toml Config Keys Tun Calendar LogView.
From S2P Require Import Fragment Routing RoutingProofs Session DataPlane SendBuffer Trust E2e Discovery Handshake Reconnect Daemon DaemonProofs Dialling.

(** ** Paths (Linux) *)
(** [PathBuf::join] with a relative path. *)
Definition path_join (dir name : list Z) : list Z :=
  if bool_decide (dir = []) then name else if bool_decide (last dir = Some 47) then dir ++ name else dir ++ 47 :: name.

Section Paths.
Context (env : list Z → option (list Z)).
Definition expand_tilde (path : list Z) : list Z :=
  if starts_with (str "~/") path then match env (str "HOME") with Some home => home ++ drop 1 path | None => path end else path.
Definition stats_path : list Z := str "/run/pim.stats".
Definition debug_snapshot_path : list Z := str "/run/pim-debug.json".
Definition rpc_socket_path : list Z :=
  match env (str "PIM_RPC_SOCKET") with
  | Some p => p
  | None => match env (str "XDG_RUNTIME_DIR") with Some xdg => path_join xdg (str "pim.sock") | None => str "/run/pim/pim.sock" end
  end.
Definition default_pid_file : list Z := str "/run/pim.pid".
Definition default_config_path : list Z := str "/etc/pim/pim.toml".
Definition data_dir : list Z :=
  match env (str "PIM_DATA_DIR") with
  | Some p => p
  | None =>
    match env (str "XDG_DATA_HOME") with
    | Some xdg => path_join xdg (str "pim")
    | None => match env (str "HOME") with Some home => path_join home (str ".local/share/pim") | None => str "/var/lib/pim" end
    end
  end.
Definition messages_db_path : list Z := path_join data_dir (str "messages.db").
Definition peers_db_path : list Z := path_join data_dir (str "peers.db").
End Paths.

(** ** Settings (runtime_config.rs) *)
Definition DEFAULT_MESH_IPV4_PREFIX : list Z := str "10.77.0.0/16".
Definition DEFAULT_MESH_IPV6_PREFIX : list Z := str "fd77::/64".
Definition parse_mesh_ipv4_prefix (value : option (list Z)) : outcome PimError Ipv4Prefix := Ipv4Prefix_parse (default DEFAULT_MESH_IPV4_PREFIX value).
Definition parse_mesh_ipv6_prefix (value : option (list Z)) : outcome PimError Ipv6Prefix := Ipv6Prefix_parse (default DEFAULT_MESH_IPV6_PREFIX value).
Definition node_capabilities (config : Config) : Z :=
  if gc_enabled (cf_gateway config) then caps_gateway else if rc_enabled (cf_relay config) then caps_relay else caps_client.

(** Targets hold addresses as numbers; those of IPv6 come after all of IPv4. *)
Definition ip_number (ip : IpAddr) : Z := match ip with IpV4 ip => ip | IpV6 ip => 2 ^ 32 + ip end.
Record ResolvedPeerTargets := MkTargets { startup_targets : list ConnectTarget; reconnect_targets : list ConnectTarget; bluetooth_static_targets : list (Z * Z) }.
Inductive TargetError := NotResolved | NoAddress | BluetoothDisabled | InvalidIp.

Section Targets.
(** [to_socket_addrs]: [None] for an error. *)
Context (resolve : list Z → option (list (IpAddr * Z))).
Fixpoint resolve_peers (config : Config) (peers : list PeerConfig) (resolved : ResolvedPeerTargets) : outcome TargetError ResolvedPeerTargets :=
  match peers with
  | [] => Ok resolved
  | peer :: peers =>
    match pr_endpoint peer with
    | Config.Tcp address =>
      let? addrs := ok_or (resolve address) NotResolved in
      let? (ip, port) := ok_or (head addrs) NoAddress in
      let target := Tcp (ip_number ip, port) in
      resolve_peers config peers (MkTargets (startup_targets resolved ++ [target]) (reconnect_targets resolved ++ [target]) (bluetooth_static_targets resolved))
    | Config.Bluetooth ip =>
      if negb (bt_enabled (cf_bluetooth config)) then Err BluetoothDisabled else
      let? ip := ok_or (parse_ip ip) InvalidIp in
      let addr := (ip_number ip, tc_listen_port (cf_transport config)) in
      resolve_peers config peers (MkTargets (startup_targets resolved) (reconnect_targets resolved ++ [BluetoothPan addr]) (bluetooth_static_targets resolved ++ [addr]))
    end
  end.
Definition resolve_configured_peer_targets (config : Config) : outcome TargetError ResolvedPeerTargets := resolve_peers config (cf_peers config) (MkTargets [] [] []).
End Targets.

(** ** The system *)
Class StartOs (K : Type) := {
  os_open_tun : K → K * outcome TunError unit;              (* /dev/net/tun *)
  os_poll_tun : K → K * bool;                               (* non-blocking, registered *)
  os_listen : K → Z → K * option Z;                         (* the port it got *)
  os_resolve : K → list Z → option (list (IpAddr * Z));
  os_sleep : K → K;
  os_open_peers_db : K → list Z → K * bool;
  os_read_file : K → list Z → option (list Z);
  os_truncate_file : K → list Z → K * bool;                 (* create or empty *)
  os_write_file : K → list Z → list Z → K * bool;           (* the opened file *)
  os_remove_file : K → list Z → K;
  os_path_exists : K → list Z → bool;
  os_signal : K → Z → Z → K * bool;                         (* kill(2) *)
}.

Inductive StartError :=
| SeConfig | SePidFile | SeIdentity (e : KeyError) | SeIpv4Prefix | SeIpv6Prefix | SeTun (e : TunError) | SeListen | SeInternetLink
| SePeers (e : TargetError) | SeTrustStore | SeMesh (e : MeshError) | SePeersDb.

Section Start.
Context `{CommandOs K} `{IoctlOs K} `{StartOs K} (digest : NodeId → list Z).

(** *** The TUN device (pim-tun/src/platform/linux.rs) *)
Definition tun_create (k : K) (name : list Z) : K * outcome TunError (list Z) :=
  kbind (os_open_tun k) (λ k _,
  kbind (k, let? ifr := Ifreq_new name in set_tun_flags ifr) (λ k ifr,
  kbind (do_ioctl k TUNSETIFF ifr) (λ k ifr,
  match os_poll_tun k with (k, true) => (k, Ok (name_str ifr)) | (k, false) => (k, Err TunIo) end))).
Definition ip6_addr_replace (addr prefix_len : Z) (name : list Z) : list (list Z) :=
  [str "ip"; str "-6"; str "addr"; str "replace"; fmt_ipv6 addr ++ 47 :: dec_u8 prefix_len; str "dev"; name].
Definition set_ipv6 (k : K) (name : list Z) (addr prefix_len : Z) : K * outcome TunError unit :=
  match run_command k (ip6_addr_replace addr prefix_len name) with
  | (k, Some out) => if co_success out then (k, Ok ()) else (k, Err (IoctlError (str "ip -6 addr replace")))
  | (k, None) => (k, Err TunIo)
  end.
Definition tun_setup (interface : InterfaceConfig) (self_id : NodeId) (p4 : Ipv4Prefix) (p6 : Ipv6Prefix) (k : K) : K * outcome TunError (list Z) :=
  kbind (tun_create k (ic_name interface)) (λ k tun,
  kbind (set_ip k tun (derive_mesh_ipv4 digest self_id p4) (v4_prefix_len p4)) (λ k _,
  kbind (set_ipv6 k tun (derive_mesh_ipv6 digest self_id p6) (v6_prefix_len p6)) (λ k _,
  kbind (set_mtu k tun (ic_mtu interface)) (λ k _,
  kbind (up k tun) (λ k _, (k, Ok tun)))))).

(** *** The rest of the start *)
Definition attempt {A E} (f : E → StartError) (r : outcome E A) : Host K StartError A := λ k,
  (k, match r with Ok a => Ok a | Err e => Err (f e) | Panic => Panic end).
Definition on_kernel {A} (m : K → K * outcome TunError A) : Host K StartError A := λ k, let '(k, r) := m k in attempt SeTun r k.
Definition demand {A} (e : StartError) (m : K → K * option A) : Host K StartError A := λ k,
  match m k with (k, Some a) => (k, Ok a) | (k, None) => (k, Err e) end.

Record Started := MkStarted {
  sd_daemon : DaemonState;
  sd_tun : list Z;
  sd_mesh_ipv4 : Z;
  sd_mesh_ipv6 : Z;
  sd_listen_port : Z;
  sd_gateway : GatewayRules;
  sd_targets : ResolvedPeerTargets;
  sd_discovery : option DiscoveryService;
}.

Section Daemon.
Context {A : Aead} {D : Ecdh} `{MeshKdf} (env : list Z → option (list Z)).

Definition discovery_runtime (config : Config) (identity : Identity) (secret : option MeshSecret) : option DiscoveryService :=
  let d := cf_discovery config in
  if dcf_enabled d then
    let svc := DiscoveryService_new (id_node_id identity) (id_verifying_key identity) (node_capabilities config) (tc_listen_port (cf_transport config)) in
    let svc := with_peer_timeout (dcf_peer_timeout_ms d) (with_broadcast_interval (dcf_broadcast_interval_ms d) (with_port (dcf_port d) svc)) in
    Some (match secret with Some secret => with_discovery_key (ms_discovery_key secret) svc | None => svc end)
  else None.

(** The state the handlers share, as it is built. *)
Definition initial_state (config : Config) (identity : Identity) (p4 : Ipv4Prefix) (mesh_ip : Z) (targets : list ConnectTarget)
    (authorization : AuthorizationManager) (secret : option MeshSecret) : DaemonState :=
  let self_id := id_node_id identity in
  MkDaemon
    {| cfg_seed := id_signing_key identity; cfg_own_x25519_pub := x25519_public_from_seed (id_signing_key identity);
       cfg_node_name := nc_name (cf_node config); cfg_mesh_handshake_key := ms_handshake_key <$> secret |}
    {| ds_self_id := self_id; ds_frag_id := 1; ds_reassemblers := ∅; ds_sessions := ∅;
       ds_routing := set_self_mesh_ip mesh_ip (RoutingTable_new self_id (gc_enabled (cf_gateway config)) p4);
       ds_packets_forwarded := 0; ds_bytes_forwarded := 0; ds_packets_dropped := 0 |}
    authorization ∅ ∅ ∅ (SendBuffer_new DEFAULT_CAPACITY DEFAULT_TIMEOUT) 0 ∅ ∅
    {| hs_channels := ∅; pending_outbound := ∅; cancelled_outbounds := ∅; dial_reconnect := ReconnectManager_new (list_to_set targets) |}.

(** [loaded]: the result of [load_or_generate]; [trusted]: what the trust store
    held, if it could be read. *)
Definition run_in_process (config : Config) (loaded : outcome KeyError Identity) (raw_sockets : bool) (trusted : option (gset NodeId)) : Host K StartError Started :=
  do! identity := attempt SeIdentity loaded in
  let self_id := id_node_id identity in
  let is_gateway := gc_enabled (cf_gateway config) in
  do! p4 := attempt (λ _, SeIpv4Prefix) (parse_mesh_ipv4_prefix (ic_mesh_ipv4_prefix (cf_interface config))) in
  do! p6 := attempt (λ _, SeIpv6Prefix) (parse_mesh_ipv6_prefix (ic_mesh_ipv6_prefix (cf_interface config))) in
  do! tun := on_kernel (tun_setup (cf_interface config) self_id p4 p6) in
  do! port := demand SeListen (λ k, os_listen k (tc_listen_port (cf_transport config))) in
  do! gateway := demand SeInternetLink (gateway_start is_gateway os_sleep p4 (gc_nat_interface (cf_gateway config)) raw_sockets) in
  do! targets := (λ k, attempt SePeers (resolve_configured_peer_targets (os_resolve k) config) k) in
  do! authorization :=
    (let policy := sc_authorization_policy (cf_security config) in
     match (if bool_decide (policy = TrustOnFirstUse) then trusted else Some ∅) with
     | Some held => host_ret (AuthorizationManager_new policy (list_to_set (sc_authorized_peers (cf_security config))) held)
     | None => host_err SeTrustStore
     end) in
  do! secret := attempt SeMesh (build_mesh_secret (cf_mesh config)) in
  do! _ := demand SePeersDb (λ k, let '(k, ok) := os_open_peers_db k (peers_db_path env) in (k, if ok then Some () else None)) in
  let mesh_ip := derive_mesh_ipv4 digest self_id p4 in
  host_ret (MkStarted (initial_state config identity p4 mesh_ip (reconnect_targets targets) authorization secret) tun mesh_ip
    (derive_mesh_ipv6 digest self_id p6) port gateway targets (discovery_runtime config identity secret)).

(** [run], the entry point of the binary; [args] are those after its name. *)
Definition write_pid (pid_file : list Z) (pid : Z) : Host K StartError unit :=
  do! _ := demand SePidFile (λ k, let '(k, ok) := os_truncate_file k pid_file in (k, if ok then Some () else None)) in
  demand SePidFile (λ k, let '(k, ok) := os_write_file k pid_file (decimal pid) in (k, if ok then Some () else None)).
Definition run `{!Toml} (args : list (list Z)) (pid : Z) (loaded : outcome KeyError Identity) (raw_sockets : bool) (trusted : option (gset NodeId)) : Host K StartError Started :=
  let config_path := default default_config_path (args !! 0%nat) in
  let pid_file := default default_pid_file (args !! 1%nat) in
  do! config := demand SeConfig (λ k, (k, Config_load (os_read_file k config_path))) in
  do! _ := write_pid pid_file pid in
  run_in_process config loaded raw_sockets trusted.
End Daemon.

(** ** The command line (pim-cli/src/main.rs, commands/route.rs) *)
Inductive CliError := ConfigNotFound | DaemonNotFound | PidUnreadable | PidInvalid | SignalFailed (pid : Z).
(** [parse::<u32>]: digits after at most one plus sign. *)
Definition parse_u32 (s : list Z) : option Z :=
  let digits := match s with 43 :: s => s | _ => s end in
  if bool_decide (digits = []) || negb (forallb (in_range 48 57) digits) then None else
  if digits_value digits <? 2 ^ 32 then Some (digits_value digits) else None.
Definition read_pid (k : K) (pid_file : list Z) : outcome CliError Z :=
  let? content := ok_or (os_read_file k pid_file) PidUnreadable in
  ok_or (parse_u32 (trim content)) PidInvalid.
(** [pid as libc::pid_t]. *)
Definition as_pid_t (pid : Z) : Z := if pid <? 2 ^ 31 then pid else pid - 2 ^ 32.
Definition SIGTERM : Z := 15.
Definition cmd_down (pid_file : list Z) : Host K CliError unit := λ k,
  match read_pid k pid_file with
  | Ok pid => let '(k, ok) := os_signal k (as_pid_t pid) SIGTERM in (k, if ok then Ok () else Err (SignalFailed pid))
  | Err e => (k, Err e)
  | Panic => (k, Panic)
  end.

Inductive DaemonStatus := NoPidFile | Running (pid : Z) | StalePid (pid : Z).
Definition process_alive (k : K) (pid : Z) : K * bool := os_signal k (as_pid_t pid) 0.
(** What it finds out; the rest of what [cmd_status] prints is the statistics
    file ([RouteCommand]) and the configuration. *)
Definition cmd_status (pid_file : list Z) (k : K) : K * DaemonStatus :=
  match read_pid k pid_file with
  | Ok pid =>
    let '(k, alive) := process_alive k pid in
    if alive then (k, Running pid) else (os_remove_file k pid_file, StalePid pid)
  | _ => (k, NoPidFile)
  end.

Definition DAEMON_BIN : list Z := str "pim-daemon".
Fixpoint find_in_path (k : K) (dirs : list (list Z)) : option (list Z) :=
  match dirs with
  | [] => None
  | dir :: dirs => let candidate := path_join dir DAEMON_BIN in if os_path_exists k candidate then Some candidate else find_in_path k dirs
  end.
(** [sibling]: the daemon beside the running binary, if that is known. *)
Definition find_daemon_binary (sibling : option (list Z)) (env : list Z → option (list Z)) (k : K) : option (list Z) :=
  match sibling with
  | Some s => if os_path_exists k s then Some s else find_in_path k (split_on 58 (default [] (env (str "PATH"))))
  | None => find_in_path k (split_on 58 (default [] (env (str "PATH"))))
  end.
(** What [pim up] starts: the daemon with configuration and PID file. *)
Definition cmd_up (config pid_file : list Z) (sibling : option (list Z)) (env : list Z → option (list Z)) : Host K CliError (list (list Z)) := λ k,
  if negb (os_path_exists k config) then (k, Err ConfigNotFound) else
  match find_daemon_binary sibling env k with
  | None => (k, Err DaemonNotFound)
  | Some bin => (k, Ok [bin; config; pid_file])
  end.
End Start.

(** ** The interface, as the kernel has it (netdevice(7), ip-address(8)) *)
Record Iface := MkIface { ia_ipv4 : Z; ia_mask : Z; ia_ipv6 : option (Z * Z); ia_mtu : Z; ia_flags : Z }.
Class IfaceOs (K : Type) := iface : K → list Z → Iface.
(** What the requests and the command that succeed leave on the interface they
    name.  Setting the address may change the mask; an MTU below 1280 may take
    IPv6 off the interface, one below 68 IPv4 too; of the flags only whether the
    interface is up is told. *)
Class LawfulIface `{CommandOs K} `{IoctlOs K} `{IfaceOs K} : Prop := {
  li_addr (k : K) ifr k' ifr' : os_ioctl k SIOCSIFADDR ifr = (k', Some ifr') →
    ia_ipv4 (iface k' (name_str ifr)) = be_value (take 4 (drop 4 (ifr_union ifr)));
  li_mask (k : K) ifr k' ifr' : os_ioctl k SIOCSIFNETMASK ifr = (k', Some ifr') →
    let i := iface k (name_str ifr) in let i' := iface k' (name_str ifr) in
    ia_mask i' = be_value (take 4 (drop 4 (ifr_union ifr))) ∧ ia_ipv4 i' = ia_ipv4 i;
  li_mtu (k : K) ifr k' ifr' : os_ioctl k SIOCSIFMTU ifr = (k', Some ifr') →
    let i := iface k (name_str ifr) in let i' := iface k' (name_str ifr) in
    let mtu := be_value (rev (take 4 (ifr_union ifr))) in
    ia_mtu i' = mtu ∧ (68 ≤ mtu → ia_ipv4 i' = ia_ipv4 i ∧ ia_mask i' = ia_mask i) ∧ (1280 ≤ mtu → ia_ipv6 i' = ia_ipv6 i);
  li_get_flags (k : K) ifr k' ifr' : os_ioctl k SIOCGIFFLAGS ifr = (k', Some ifr') →
    ifr_name ifr' = ifr_name ifr ∧ length (ifr_union ifr') = length (ifr_union ifr) ∧ iface k' (name_str ifr) = iface k (name_str ifr);
  li_set_flags (k : K) ifr k' ifr' : os_ioctl k SIOCSIFFLAGS ifr = (k', Some ifr') → Z.testbit (from_ne_bytes_i16 (take 2 (ifr_union ifr))) 0 = true →
    let i := iface k (name_str ifr) in let i' := iface k' (name_str ifr) in
    Z.testbit (ia_flags i') 0 = true ∧ ia_ipv4 i' = ia_ipv4 i ∧ ia_mask i' = ia_mask i ∧ ia_ipv6 i' = ia_ipv6 i ∧ ia_mtu i' = ia_mtu i;
  li_ipv6 (k : K) text addr len name k' out : run_command k [str "ip"; str "-6"; str "addr"; str "replace"; text; str "dev"; name] = (k', Some out) →
    co_success out = true → (p ← split_once 47 text; a ← parse_ipv6 p.1; l ← from_str_radix_u8 p.2 10; Some (a, l)) = Some (addr, len) →
    ia_ipv6 (iface k' name) = Some (addr, len) ∧ ia_ipv4 (iface k' name) = ia_ipv4 (iface k name) ∧ ia_mask (iface k' name) = ia_mask (iface k name);
}.

(** *** Lemmas: requests *)
Lemma name_str_nonzero ifr : 0 ∉ name_str ifr.
Proof.
  unfold name_str. generalize (ifr_name ifr) IFNAMSIZ. intros s n. assert (Hp : ∀ m, position_zero s = Some m → 0 ∉ take m s).
  { induction s as [|b s IH]; intros m; [done|]. cbn [position_zero]. destruct (Z.eqb_spec b 0); [intros [= <-]; apply not_elem_of_nil|].
    destruct (position_zero s) as [m'|]; [|done]. intros [= <-]. cbn [take]. rewrite not_elem_of_cons. split; [done|by apply IH]. }
  destruct (position_zero s) as [m|] eqn:E; [by apply Hp|]. cbn [default from_option id]. assert (Hn : 0 ∉ s).
  { clear Hp. induction s as [|b s IH]; [apply not_elem_of_nil|]. cbn [position_zero] in E. destruct (Z.eqb_spec b 0); [done|].
    destruct (position_zero s); [done|]. rewrite not_elem_of_cons. split; [done|by apply IH]. }
  intros Hin. apply Hn. eapply elem_of_subseteq; [|exact Hin]. intros x Hx. by eapply elem_of_take in Hx as (? & ? & ?); eapply list_elem_of_lookup_2.
Qed.
Lemma ifreq_new_ok name ifr : 0 ∉ name → Ifreq_new name = Ok ifr → name_str ifr = name ∧ ifr_union ifr = replicate 16 0.
Proof.
  intros H0 E. pose proof (ifreq_name_roundtrip name H0) as Hr. rewrite E in Hr. destruct Hr as (Hl & Hn & _). split; [done|].
  unfold Ifreq_new in E. case_bool_decide; [done|]. rewrite copy_from_slice_Ok in E by (try rewrite length_replicate; unfold IFNAMSIZ in *; lia). cbn [obind] in E. by injection E as <-.
Qed.
Lemma sockaddr_ok ifr addr ifr' : ifr_union ifr = replicate 16 0 → set_sockaddr_in addr ifr = Ok ifr' →
  ifr_name ifr' = ifr_name ifr ∧ take 4 (drop 4 (ifr_union ifr')) = be_bytes 4 addr.
Proof.
  intros Hu. unfold set_sockaddr_in. rewrite Hu. rewrite copy_from_slice_Ok by (cbn; lia). cbn [obind]. rewrite copy_from_slice_Ok by (cbn; lia). cbn [obind].
  intros [= <-]. split; [done|]. reflexivity.
Qed.
Lemma mtu_ok ifr mtu ifr' : ifr_union ifr = replicate 16 0 → ifr_set_mtu mtu ifr = Ok ifr' →
  ifr_name ifr' = ifr_name ifr ∧ be_value (rev (take 4 (ifr_union ifr'))) = mtu mod 2 ^ 32.
Proof.
  intros Hu. unfold ifr_set_mtu. rewrite Hu. rewrite copy_from_slice_Ok by (cbn; lia). cbn [obind]. intros [= <-]. split; [done|].
  change (take 4 (ifr_union _)) with (to_ne_bytes 4 mtu). unfold to_ne_bytes. rewrite rev_involutive, be_value_be_bytes_mod. change (256 ^ Z.of_nat 4) with (2 ^ 32).
  by rewrite Zmod_mod.
Qed.
Lemma flags_ok ifr flags ifr' : length (ifr_union ifr) = 16%nat → set_flags flags ifr = Ok ifr' →
  ifr_name ifr' = ifr_name ifr ∧ Z.testbit (from_ne_bytes_i16 (take 2 (ifr_union ifr'))) 0 = Z.testbit flags 0.
Proof.
  intros Hu. unfold set_flags. rewrite Hu. rewrite copy_from_slice_Ok by (cbn; lia). cbn [obind]. intros [= <-]. split; [done|].
  change (take 2 (ifr_union _)) with (to_ne_bytes 2 flags). unfold from_ne_bytes_i16, to_ne_bytes. rewrite rev_involutive, be_value_be_bytes_mod, Zmod_mod. change (256 ^ Z.of_nat 2) with (2 ^ 16).
  assert (Hb : Z.testbit (flags mod 2 ^ 16) 0 = Z.testbit flags 0) by (apply Z.mod_pow2_bits_low; lia).
  destruct (_ <? _); [done|]. rewrite !Z.bit0_odd in *. by rewrite Z.odd_sub, Hb, xorb_false_r.
Qed.
Lemma kbind_ok {K A B} (c : K * outcome TunError A) (f : K → A → K * outcome TunError B) k' b :
  kbind c f = (k', Ok b) → ∃ k1 a, c = (k1, Ok a) ∧ f k1 a = (k', Ok b).
Proof. unfold kbind. destruct c as [k1 [a|e|]]; [|done|done]. eauto. Qed.
Lemma derive_addr_range w h network raw : 1 ≤ h ≤ w → 0 ≤ network < 2 ^ w → 0 ≤ derive_addr h network raw < 2 ^ w.
Proof.
  intros Hh Hn. destruct (derive_addr_network h network raw) as [Hq Hm]; [lia|]. pose proof (pick_host_range h raw ltac:(lia)) as Hp.
  assert (Hpow : 2 ^ w = 2 ^ h * 2 ^ (w - h)) by (rewrite <- Z.pow_add_r by lia; f_equal; lia). assert (0 < 2 ^ h) by lia.
  assert (0 ≤ network / 2 ^ h < 2 ^ (w - h)) by (split; [apply Z.div_pos; lia|apply Z.div_lt_upper_bound; lia]).
  rewrite (Z.div_mod (derive_addr h network raw) (2 ^ h)) by lia. rewrite Hq, Hm. nia.
Qed.
Lemma derive_mesh_ipv4_u32 digest id p : Ipv4Prefix_wf p → 0 ≤ derive_mesh_ipv4 digest id p < 2 ^ 32.
Proof.
  intros (Hl & Hn & _). unfold u32_ok in Hn. destruct (decide (v4_prefix_len p = 32)) as [E|E].
  - unfold derive_mesh_ipv4, Prelude.saturating_sub. rewrite E. change (Z.max 0 (32 - 32) =? 0) with true. cbv beta iota zeta. lia.
  - rewrite derive_mesh_ipv4_spec by lia. apply derive_addr_range; lia.
Qed.
Lemma derive_mesh_ipv6_u128 digest id p : Ipv6Prefix_wf p → 0 ≤ derive_mesh_ipv6 digest id p < 2 ^ 128.
Proof.
  intros (Hl & Hn & _). destruct (decide (v6_prefix_len p = 128)) as [E|E].
  - unfold derive_mesh_ipv6, Prelude.saturating_sub. rewrite E. change (Z.max 0 (128 - 128) =? 0) with true. cbv beta iota zeta. lia.
  - rewrite derive_mesh_ipv6_spec by lia. apply derive_addr_range; lia.
Qed.
Lemma cidr6_read addr len : 0 ≤ addr < 2 ^ 128 → 0 ≤ len ≤ 128 →
  (p ← split_once 47 (fmt_ipv6 addr ++ 47 :: dec_u8 len); a ← parse_ipv6 p.1; l ← from_str_radix_u8 p.2 10; Some (a, l)) = Some (addr, len).
Proof.
  intros Ha Hl. rewrite split_once_app by (by apply no_sep_Forall, addr_text_without; [unfold addr_char; lia|apply fmt_ipv6_text]). cbn [mbind option_bind fst snd].
  rewrite parse_fmt_ipv6 by done. cbn [mbind option_bind]. destruct (dec_u8_spec len) as (_ & Hd & _ & _); [unfold u8_ok; lia|]. by rewrite Hd.
Qed.

Section Addressed.
Context `{CommandOs K} `{IoctlOs K} `{StartOs K} `{IfaceOs K} {L : LawfulIface} (digest : NodeId → list Z).

Lemma set_ip_effect (k k' : K) name addr len : 0 ∉ name → 0 ≤ addr < 2 ^ 32 → 0 ≤ len ≤ 32 → set_ip k name addr len = (k', Ok ()) →
  ia_ipv4 (iface k' name) = addr ∧ ia_mask (iface k' name) = ipv4_netmask len.
Proof.
  intros Hz Ha Hl. unfold set_ip, do_ioctl. intros (k1 & r1 & E1 & E)%kbind_ok. injection E1 as <- E1. destruct (Ifreq_new name) as [ifr|e|] eqn:En; [|done|done].
  destruct (ifreq_new_ok name ifr Hz En) as [Hname Hu]. cbn [obind] in E1. destruct (sockaddr_ok ifr _ r1 Hu E1) as [Hn1 Hu1].
  apply kbind_ok in E as (k2 & ? & E2 & E). destruct (os_ioctl k SIOCSIFADDR r1) as [k2' [r2|]] eqn:Eo1; [|done]. injection E2 as <- _.
  apply kbind_ok in E as (k3 & r3 & E3 & E). injection E3 as <- E3. cbn [obind] in E3. destruct (sockaddr_ok ifr _ r3 Hu E3) as [Hn3 Hu3].
  apply kbind_ok in E as (k4 & ? & E4 & E). destruct (os_ioctl k2' SIOCSIFNETMASK r3) as [k4' [r4|]] eqn:Eo2; [|done]. injection E4 as <- _. injection E as <-.
  assert (Hs : ∀ r, ifr_name r = ifr_name ifr → name_str r = name) by (intros r Hr; unfold name_str in *; by rewrite Hr).
  pose proof (li_addr _ _ _ _ Eo1) as Ha1. pose proof (li_mask _ _ _ _ Eo2) as [Hm2 Ha2]. rewrite Hs in Ha1, Hm2, Ha2 by done.
  rewrite Ha2, Ha1, Hm2, Hu1, Hu3, be_value_be_bytes by done. split; [done|]. rewrite prefix_to_mask_netmask. apply be_value_be_bytes. change (256 ^ Z.of_nat 4) with (2 ^ 32).
  unfold ipv4_netmask, not_u32, u32_max. destruct (Z.eqb_spec len 0); [lia|]. destruct (Z.leb_spec 32 len); [lia|]. rewrite Z.shiftl_1_l.
  assert (0 < 2 ^ (32 - len) ≤ 2 ^ 32) by (split; [lia|apply Z.pow_le_mono_r; lia]). lia.
Qed.
Lemma set_mtu_effect (k k' : K) name mtu : 0 ∉ name → 1280 ≤ mtu < 2 ^ 32 → set_mtu k name mtu = (k', Ok ()) →
  let i := iface k name in let i' := iface k' name in
  ia_mtu i' = mtu ∧ ia_ipv4 i' = ia_ipv4 i ∧ ia_mask i' = ia_mask i ∧ ia_ipv6 i' = ia_ipv6 i.
Proof.
  intros Hz Hm. unfold set_mtu, do_ioctl. intros (k1 & r1 & E1 & E)%kbind_ok. injection E1 as <- E1. destruct (Ifreq_new name) as [ifr|e|] eqn:En; [|done|done].
  destruct (ifreq_new_ok name ifr Hz En) as [Hname Hu]. cbn [obind] in E1. destruct (mtu_ok ifr _ r1 Hu E1) as [Hn1 Hu1].
  apply kbind_ok in E as (k2 & ? & E2 & E). destruct (os_ioctl k SIOCSIFMTU r1) as [k2' [r2|]] eqn:Eo; [|done]. injection E2 as <- _. injection E as <-.
  pose proof (li_mtu _ _ _ _ Eo) as Hmtu. assert (Hn : name_str r1 = name) by (unfold name_str in *; by rewrite Hn1). rewrite Hn, Hu1, Z.mod_small in Hmtu by lia.
  cbv zeta in Hmtu. destruct Hmtu as (Hmt & H4 & H6). destruct H4 as [H4 Hmk]; [lia|]. cbv zeta. rewrite H6 by lia. done.
Qed.
Lemma up_effect (k k' : K) name : 0 ∉ name → up k name = (k', Ok ()) →
  let i := iface k name in let i' := iface k' name in
  Z.testbit (ia_flags i') 0 = true ∧ ia_ipv4 i' = ia_ipv4 i ∧ ia_mask i' = ia_mask i ∧ ia_ipv6 i' = ia_ipv6 i ∧ ia_mtu i' = ia_mtu i.
Proof.
  intros Hz. unfold up, change_flags, do_ioctl. intros (k1 & ifr & E1 & E)%kbind_ok. injection E1 as <- En. destruct (ifreq_new_ok name ifr Hz En) as [Hname Hu].
  apply kbind_ok in E as (k2 & r2 & E2 & E). destruct (os_ioctl k SIOCGIFFLAGS ifr) as [k2' [r2'|]] eqn:Eo1; [|done]. injection E2 as <- <-.
  destruct (li_get_flags _ _ _ _ Eo1) as (Hn2 & Hl2 & Hsame). rewrite Hu, length_replicate in Hl2.
  apply kbind_ok in E as (k3 & r3 & E3 & E). injection E3 as <- E3. destruct (get_flags r2') as [cur|e|]; [|done|done]. cbn [obind] in E3.
  destruct (flags_ok r2' _ r3 Hl2 E3) as [Hn3 Hb3].
  apply kbind_ok in E as (k4 & ? & E4 & E). destruct (os_ioctl k2' SIOCSIFFLAGS r3) as [k4' [r4|]] eqn:Eo2; [|done]. injection E4 as <- _. injection E as <-.
  pose proof (li_set_flags _ _ _ _ Eo2) as Hf. rewrite Hb3, Z.lor_spec in Hf. specialize (Hf (orb_true_r _)).
  assert (Hs : ∀ r, ifr_name r = ifr_name ifr → name_str r = name) by (intros r Hr; unfold name_str in *; by rewrite Hr).
  rewrite (Hs r3) in Hf by congruence. rewrite (Hs ifr) in Hsame by done. by rewrite Hsame in Hf.
Qed.
Lemma set_ipv6_effect (k k' : K) name addr len : 0 ≤ addr < 2 ^ 128 → 0 ≤ len ≤ 128 → set_ipv6 k name addr len = (k', Ok ()) →
  ia_ipv6 (iface k' name) = Some (addr, len) ∧ ia_ipv4 (iface k' name) = ia_ipv4 (iface k name) ∧ ia_mask (iface k' name) = ia_mask (iface k name).
Proof.
  intros Ha Hl. unfold set_ipv6, ip6_addr_replace. destruct (run_command k _) as [k1 [out|]] eqn:E; [|done]. destruct (co_success out) eqn:Es; [|done]. intros [= <-].
  by apply (li_ipv6 _ _ addr len _ _ _ E Es), cidr6_read.
Qed.

(** C17: When the TUN set-up of the start succeeds with an MTU of at least 1280,
    the interface carries the addresses of the node: the ones every node of the
    same mesh derives from its identifier, under the mask of the mesh, and it
    is up with the configured MTU. *)
Theorem tun_addressed interface self_id p4 p6 (k k' : K) tun :
  Ipv4Prefix_wf p4 → Ipv6Prefix_wf p6 → 1280 ≤ ic_mtu interface < 2 ^ 32 →
  tun_setup digest interface self_id p4 p6 k = (k', Ok tun) →
  let i := iface k' tun in
  verify_mesh_ipv4 digest self_id (ia_ipv4 i) p4 = true ∧ ia_mask i = ipv4_netmask (v4_prefix_len p4) ∧
  (∃ a6, ia_ipv6 i = Some (a6, v6_prefix_len p6) ∧ verify_mesh_ipv6 digest self_id a6 p6 = true) ∧
  ia_mtu i = ic_mtu interface ∧ Z.testbit (ia_flags i) 0 = true.
Proof.
  intros Hp4 Hp6 Hm. unfold tun_setup. intros (k1 & t1 & E1 & E)%kbind_ok. apply kbind_ok in E as (k2 & [] & E2 & E). apply kbind_ok in E as (k3 & [] & E3 & E).
  apply kbind_ok in E as (k4 & [] & E4 & E). apply kbind_ok in E as (k5 & [] & E5 & E). injection E as <- <-.
  assert (Hz : 0 ∉ t1).
  { unfold tun_create in E1. apply kbind_ok in E1 as (? & ? & _ & E1). apply kbind_ok in E1 as (? & ? & _ & E1). apply kbind_ok in E1 as (? & ? & _ & E1).
    destruct (os_poll_tun _) as [? []]; [|done]. injection E1 as _ <-. apply name_str_nonzero. }
  destruct (up_effect _ _ _ Hz E5) as (Hf & -> & -> & -> & ->). destruct (set_mtu_effect _ _ _ _ Hz Hm E4) as (-> & -> & -> & ->).
  destruct (set_ipv6_effect _ _ _ _ _ (derive_mesh_ipv6_u128 _ _ _ Hp6) (proj1 Hp6) E3) as (-> & -> & ->).
  destruct (set_ip_effect _ _ _ _ _ Hz (derive_mesh_ipv4_u32 _ _ _ Hp4) (proj1 Hp4) E2) as (-> & ->).
  unfold verify_mesh_ipv4, verify_mesh_ipv6. split_and!; [apply Z.eqb_refl|done| |done|done]. eexists. split; [done|apply Z.eqb_refl].
Qed.
End Addressed.

(** ** Configured peers *)
Section PeerTargets.
Context (resolve : list Z → option (list (IpAddr * Z))) (config : Config).
(** Where a configured peer is dialled. *)
Definition peer_target (peer : PeerConfig) : outcome TargetError ConnectTarget :=
  match pr_endpoint peer with
  | Config.Tcp address =>
    match resolve address with
    | Some ((ip, port) :: _) => Ok (Tcp (ip_number ip, port))
    | Some [] => Err NoAddress
    | None => Err NotResolved
    end
  | Config.Bluetooth ip =>
    if bt_enabled (cf_bluetooth config) then
      match parse_ip ip with Some ip => Ok (BluetoothPan (ip_number ip, tc_listen_port (cf_transport config))) | None => Err InvalidIp end
    else Err BluetoothDisabled
  end.
Definition is_tcp (t : ConnectTarget) : bool := match t with Tcp _ => true | BluetoothPan _ => false end.
Definition pan_addr (t : ConnectTarget) : option (Z * Z) := match t with Tcp _ => None | BluetoothPan a => Some a end.

Definition targets_of (ts : list ConnectTarget) : ResolvedPeerTargets := MkTargets (List.filter is_tcp ts) ts (omap pan_addr ts).
Lemma targets_snoc ts t : targets_of (ts ++ [t]) =
  MkTargets (startup_targets (targets_of ts) ++ if is_tcp t then [t] else []) (ts ++ [t]) (bluetooth_static_targets (targets_of ts) ++ option_list (pan_addr t)).
Proof. unfold targets_of. rewrite List.filter_app, omap_app. cbn. by destruct t. Qed.
Lemma resolve_peers_cons peer peers ts : resolve_peers resolve config (peer :: peers) (targets_of ts) =
  (let? t := peer_target peer in resolve_peers resolve config peers (targets_of (ts ++ [t]))).
Proof.
  cbn [resolve_peers]. unfold peer_target. destruct (pr_endpoint peer) as [a|a].
  - destruct (resolve a) as [[|[ip port] ?]|]; [done| |done]. cbn [ok_or obind head]. by rewrite targets_snoc, app_nil_r.
  - destruct (bt_enabled _); [|done]. destruct (parse_ip a); [|done]. cbn [negb ok_or obind]. by rewrite targets_snoc, app_nil_r.
Qed.
Lemma resolve_peers_spec peers ts :
  match resolve_peers resolve config peers (targets_of ts) with
  | Ok r => ∃ new, Forall2 (λ p t, peer_target p = Ok t) peers new ∧ r = targets_of (ts ++ new)
  | Err e => ∃ before p after, peers = before ++ p :: after ∧ Forall (λ p, ∃ t, peer_target p = Ok t) before ∧ peer_target p = Err e
  | Panic => False
  end.
Proof.
  revert ts. induction peers as [|p peers IH]; intros ts; [exists []; split; [constructor|by rewrite app_nil_r]|]. rewrite resolve_peers_cons.
  destruct (peer_target p) as [t|e|] eqn:Et; cbn [obind].
  - specialize (IH (ts ++ [t])). destruct (resolve_peers _ _ _ _) as [r|e|]; [| |done].
    + destruct IH as (new & Hf & ->). exists (t :: new). split; [by constructor|]. by rewrite <- app_assoc.
    + destruct IH as (before & q & after & -> & Hb & Hq). exists (p :: before), q, after. split; [done|]. split; [constructor; [by exists t|done]|done].
  - exists [], p, peers. by split_and!.
  - unfold peer_target in Et. destruct (pr_endpoint p) as [a|a]; [destruct (resolve a) as [[|[? ?] ?]|]; done|destruct (bt_enabled _); [destruct (parse_ip a)|]; done].
Qed.

(** Each configured peer gives one target, in order, at the first address it
    resolves to or at the daemon's own port over Bluetooth; the TCP ones are
    dialled at the start, the Bluetooth ones are handed to the Bluetooth
    service, and all are dialled again when lost.  The first peer that has
    none stops the daemon. *)
Theorem targets_resolved :
  match resolve_configured_peer_targets resolve config with
  | Ok r => Forall2 (λ p t, peer_target p = Ok t) (cf_peers config) (reconnect_targets r) ∧
      startup_targets r = List.filter is_tcp (reconnect_targets r) ∧ bluetooth_static_targets r = omap pan_addr (reconnect_targets r)
  | Err e => ∃ before p after, cf_peers config = before ++ p :: after ∧ Forall (λ p, ∃ t, peer_target p = Ok t) before ∧ peer_target p = Err e
  | Panic => False
  end.
Proof.
  pose proof (resolve_peers_spec (cf_peers config) []) as Hs. unfold resolve_configured_peer_targets. change (MkTargets [] [] []) with (targets_of []).
  destruct (resolve_peers _ _ _ _) as [r|e|]; [|done|done]. by destruct Hs as (new & Hf & ->).
Qed.
End PeerTargets.

(** ** The state the handlers start from *)
Section Started.
Context `{CommandOs K} `{IoctlOs K} `{StartOs K} (digest : NodeId → list Z) (sha256 : list Z → list Z).
Context {A : Aead} {D : Ecdh} {KC : HandshakeCrypto} `{MeshKdf} (env : list Z → option (list Z)).

Lemma host_bind_ok {S E X Y} (m : Host S E X) (f : X → Host S E Y) k k' b : host_bind m f k = (k', Ok b) → ∃ k1 a, m k = (k1, Ok a) ∧ f a k1 = (k', Ok b).
Proof. unfold host_bind. destruct (m k) as [k1 [a|e|]]; [|done|done]. eauto. Qed.
Lemma attempt_ok {X E} (f : E → StartError) (r : outcome E X) (k k' : K) a : attempt f r k = (k', Ok a) → r = Ok a ∧ k' = k.
Proof. unfold attempt. destruct r as [x|e|]; [|done|done]. by intros [= -> ->]. Qed.

Lemma initial_ok config identity p4 ip targets auth secret : daemon_ok (initial_state config identity p4 ip targets auth secret).
Proof.
  split; [|done| |].
  - eapply (routing_step_ok digest (λ _, True) (λ _, True)); [apply StepSelfIp|apply table_ok_new].
  - intros p. cbn. by rewrite !lookup_empty.
  - intros p. cbn. rewrite lookup_empty. by intros [].
Qed.

(** C11: A daemon that started begins under the identifier its key proves and with
    the address of that identifier as its own in the routing table; the
    invariant of the daemon holds from there on, in whatever order its handlers
    run, one at a time; and dialling begins with one target for each peer of
    the configuration, at the first address it resolves to or at the daemon's
    own port over Bluetooth, and nothing pending. *)
Theorem daemon_starts config seed raw_sockets trusted (k k' : K) sd :
  run_in_process digest env config (Ok (from_signing_key ed_public sha256 seed)) raw_sockets trusted k = (k', Ok sd) →
  let st := sd_daemon sd in
  identity sha256 st = ds_self_id (dm_data st) ∧
  self_mesh_ip (dm_routing st) = Some (sd_mesh_ipv4 sd) ∧
  verify_mesh_ipv4 digest (ds_self_id (dm_data st)) (sd_mesh_ipv4 sd) (ipv4_prefix (dm_routing st)) = true ∧
  (∀ st', rtc (daemon_step digest sha256) st st' → daemon_ok st') ∧
  (∃ (k1 : K) targets, Forall2 (λ p t, peer_target (os_resolve k1) config p = Ok t) (cf_peers config) targets ∧
    configured_targets (dial_reconnect (dm_dial st)) = list_to_set targets) ∧
  (∀ max_attempts iter_targets, world_reachable max_attempts iter_targets (MkWorld (dm_dial st) ∅ ∅ [])).
Proof.
  unfold run_in_process. intros (k1 & i & [[= <-] ->]%attempt_ok & E)%host_bind_ok. cbv zeta in E.
  apply host_bind_ok in E as (k2 & p4 & [Hp4 ->]%attempt_ok & E). apply host_bind_ok in E as (k3 & p6 & [Hp6 ->]%attempt_ok & E).
  do 3 apply host_bind_ok in E as (? & ? & _ & E). apply host_bind_ok in E as (kr & targets & [Htg _]%attempt_ok & E). apply host_bind_ok in E as (? & auth & _ & E).
  apply host_bind_ok in E as (? & secret & _ & E). apply host_bind_ok in E as (? & ? & _ & E). injection E as _ <-. cbn [sd_daemon sd_mesh_ipv4 sd_targets].
  set (st := initial_state _ _ _ _ _ _ _). split_and!; [done|done|apply Z.eqb_refl| | |].
  - intros st' Hr. assert (Hok : daemon_ok st) by apply initial_ok. clearbody st. revert Hok. induction Hr; eauto using daemon_step_ok.
  - match type of Htg with resolve_configured_peer_targets (os_resolve ?k0) _ = _ => exists k0, (reconnect_targets targets); pose proof (targets_resolved (os_resolve k0) config) as Hr end.
    rewrite Htg in Hr. by destruct Hr as [Hr _].
  - intros ma it. exists (list_to_set (reconnect_targets targets)). apply rtc_refl.
Qed.

(** Two daemons of one private mesh share the keys its passphrase gives, so
    that they can meet. *)
Lemma same_mesh_same_key config1 config2 seed1 seed2 raw1 raw2 trusted1 trusted2 (k1 k1' k2 k2' : K) sd1 sd2 :
  cf_mesh config1 = cf_mesh config2 →
  run_in_process digest env config1 (Ok (from_signing_key ed_public sha256 seed1)) raw1 trusted1 k1 = (k1', Ok sd1) →
  run_in_process digest env config2 (Ok (from_signing_key ed_public sha256 seed2)) raw2 trusted2 k2 = (k2', Ok sd2) →
  cfg_mesh_handshake_key (dm_config (sd_daemon sd1)) = cfg_mesh_handshake_key (dm_config (sd_daemon sd2)).
Proof.
  assert (Hkey : ∀ config seed raw trusted (k k' : K) sd, run_in_process digest env config (Ok (from_signing_key ed_public sha256 seed)) raw trusted k = (k', Ok sd) →
    ∃ secret, build_mesh_secret (cf_mesh config) = Ok secret ∧ cfg_mesh_handshake_key (dm_config (sd_daemon sd)) = ms_handshake_key <$> secret).
  { intros config seed raw trusted k k' sd. unfold run_in_process. intros (? & i & _ & E)%host_bind_ok. cbv zeta in E.
    do 7 apply host_bind_ok in E as (? & ? & _ & E). apply host_bind_ok in E as (? & secret & [Hs _]%attempt_ok & E). apply host_bind_ok in E as (? & ? & _ & E).
    injection E as _ <-. by exists secret. }
  intros Hm (s1 & E1 & ->)%Hkey (s2 & E2 & ->)%Hkey. rewrite Hm, E2 in E1. by injection E1 as ->.
Qed.
End Started.

(** ** The PID file *)
Class LawfulFiles `{StartOs K} : Prop := {
  fi_truncate (k k' : K) path : os_truncate_file k path = (k', true) → os_read_file k' path = Some [];
  fi_write (k k' : K) path bs : os_read_file k path = Some [] → os_write_file k path bs = (k', true) → os_read_file k' path = Some bs;
}.
Lemma decimal_u32 n : 0 ≤ n < 2 ^ 32 → trim (decimal n) = decimal n ∧ parse_u32 (decimal n) = Some n.
Proof.
  intros Hn. destruct (dec_digits_value 20 n) as [Hv Hne]; [split; [lia|]; apply Z.lt_trans with (2 ^ 64); [lia|by vm_compute]|].
  pose proof (decimal_digits 20 n (proj1 Hn)) as Hd. fold (decimal n) in *. assert (Hnil : decimal n ≠ []) by (apply Hne; lia). clear Hne. split.
  - apply trim_graph. eapply Forall_impl; [exact Hd|]. intros b. cbn. unfold in_range. lia.
  - unfold parse_u32. destruct (decimal n) as [|b t] eqn:E; [done|]. assert (Hb : b ≠ 43) by (inversion_clear Hd as [|?? Hb _]; unfold in_range in Hb; lia).
    assert (Es : (match b :: t with 43 :: s => s | _ => b :: t end) = b :: t).
    { by repeat (case_match; try done). }
    rewrite Es. rewrite bool_decide_eq_false_2 by done. assert (Hall : forallb (in_range 48 57) (b :: t) = true) by (apply forallb_forall; by rewrite <- List.Forall_forall).
    rewrite Hall. cbn [negb orb]. rewrite Hv. by rewrite (proj2 (Z.ltb_lt _ _)) by lia.
Qed.

Section Pid.
Context `{StartOs K} {F : LawfulFiles}.
(** A daemon is found by the file it wrote: as long as nobody else writes it,
    [pim down] ends exactly that process, and [pim status] asks for it. *)
Theorem down_reaches_daemon pid_file pid (k k1 k2 : K) :
  0 < pid < 2 ^ 31 → write_pid pid_file pid k = (k1, Ok ()) → os_read_file k2 pid_file = os_read_file k1 pid_file →
  cmd_down pid_file k2 = (let '(k, ok) := os_signal k2 pid SIGTERM in (k, if ok then Ok () else Err (SignalFailed pid))) ∧
  cmd_status pid_file k2 = (let '(k, alive) := os_signal k2 pid 0 in if alive then (k, Running pid) else (os_remove_file k pid_file, StalePid pid)).
Proof.
  intros Hpid E Hsame. assert (Hread : os_read_file k1 pid_file = Some (decimal pid)).
  { apply host_bind_ok in E as (k3 & [] & E3 & E4). unfold demand in E3, E4. destruct (os_truncate_file k pid_file) as [kt []] eqn:Et; [|done]. injection E3 as <-.
    destruct (os_write_file kt pid_file (decimal pid)) as [kw []] eqn:Ew; [|done]. injection E4 as <-. eapply fi_write; [|done]. by eapply fi_truncate. }
  destruct (decimal_u32 pid) as [Ht Hp]; [lia|]. assert (Hr : read_pid k2 pid_file = Ok pid).
  { unfold read_pid. rewrite Hsame, Hread. cbn [ok_or obind]. by rewrite Ht, Hp. }
  assert (Has : as_pid_t pid = pid) by (unfold as_pid_t; by rewrite (proj2 (Z.ltb_lt _ _)) by lia).
  unfold cmd_down, cmd_status, process_alive. rewrite Hr, Has. split; [done|]. by destruct (os_signal k2 pid 0).
Qed.
(** A number that does not fit a process id becomes negative, and names all
    processes or a group of them. *)
Lemma big_pid_signals_all (k : K) pid_file : os_read_file k pid_file = Some (str "4294967295") →
  cmd_down pid_file k = (let '(k, ok) := os_signal k (-1) SIGTERM in (k, if ok then Ok () else Err (SignalFailed 4294967295))).
Proof.
  intros E. unfold cmd_down, read_pid. rewrite E. cbn [ok_or obind]. change (parse_u32 (trim (str "4294967295"))) with (Some 4294967295). done.
Qed.
End Pid.

(** ** A machine to start on *)
Record FakeMachine := MkMachine { fm_host : FakeHost; fm_ifaces : gmap (list Z) Iface; fm_files : gmap (list Z) (list Z); fm_ports : list Z; fm_procs : list Z; fm_signals : list (Z * Z) }.
Definition fm_with_host h k := MkMachine h (fm_ifaces k) (fm_files k) (fm_ports k) (fm_procs k) (fm_signals k).
Definition fm_with_ifaces m k := MkMachine (fm_host k) m (fm_files k) (fm_ports k) (fm_procs k) (fm_signals k).
Definition fm_with_files m k := MkMachine (fm_host k) (fm_ifaces k) m (fm_ports k) (fm_procs k) (fm_signals k).
Definition blank_iface : Iface := MkIface 0 0 None 1500 4240.
#[export] Instance fake_ifaces : IfaceOs FakeMachine := λ k n, default blank_iface (fm_ifaces k !! n).
(** The mask of the class of an address. *)
Definition class_mask (addr : Z) : Z := if addr <? 2 ^ 31 then 0xff000000 else if addr <? 3 * 2 ^ 30 then 0xffff0000 else 0xffffff00.
Definition with_ipv6 (a : Z * Z) (i : Iface) : Iface := MkIface (ia_ipv4 i) (ia_mask i) (Some a) (ia_mtu i) (ia_flags i).
Definition ioctl_effect (request : Z) (u : list Z) (i : Iface) : Iface :=
  let addr := be_value (take 4 (drop 4 u)) in let mtu := be_value (rev (take 4 u)) in
  if request =? SIOCSIFADDR then MkIface addr (class_mask addr) (ia_ipv6 i) (ia_mtu i) (ia_flags i)
  else if request =? SIOCSIFNETMASK then MkIface (ia_ipv4 i) addr (ia_ipv6 i) (ia_mtu i) (ia_flags i)
  else if request =? SIOCSIFMTU then
    MkIface (if mtu <? 68 then 0 else ia_ipv4 i) (if mtu <? 68 then 0 else ia_mask i) (if mtu <? 1280 then None else ia_ipv6 i) mtu (ia_flags i)
  else if request =? SIOCSIFFLAGS then MkIface (ia_ipv4 i) (ia_mask i) (ia_ipv6 i) (ia_mtu i) (from_ne_bytes_i16 (take 2 u))
  else i.
Definition addr_replace (cmd : list (list Z)) : option (list Z * list Z) :=
  match cmd with
  | [a; b; c; d; text; e; name] => if bool_decide ([a; b; c; d; e] = [str "ip"; str "-6"; str "addr"; str "replace"; str "dev"]) then Some (text, name) else None
  | _ => None
  end.
#[export] Instance fake_machine_commands : CommandOs FakeMachine := {
  run_command k cmd :=
    match addr_replace cmd with
    | Some (text, name) =>
      match (p ← split_once 47 text; a ← parse_ipv6 p.1; l ← from_str_radix_u8 p.2 10; Some (a, l)) with
      | Some al => (fm_with_ifaces (<[name := with_ipv6 al (iface k name)]> (fm_ifaces k)) k, fake_answer true)
      | None => (k, fake_answer false)
      end
    | None => let '(h, o) := run_command (fm_host k) cmd in (fm_with_host h k, o)
    end;
  read_to_string k path := read_to_string (fm_host k) path;
}.
#[export] Instance fake_ioctl : IoctlOs FakeMachine := λ k request ifr,
  if request =? TUNSETIFF then (k, Some ifr)
  else if request =? SIOCGIFFLAGS then (k, Some (MkIfreq (ifr_name ifr) (take (length (ifr_union ifr)) (to_ne_bytes 2 (ia_flags (iface k (name_str ifr))) ++ drop 2 (ifr_union ifr) ++ [0; 0]))))
  else (fm_with_ifaces (<[name_str ifr := ioctl_effect request (ifr_union ifr) (iface k (name_str ifr))]> (fm_ifaces k)) k, Some ifr).
#[export] Instance fake_start : StartOs FakeMachine := {
  os_open_tun k := (k, Ok ());
  os_poll_tun k := (k, true);
  os_listen k port := if bool_decide (port ∈ fm_ports k) then (k, None) else (MkMachine (fm_host k) (fm_ifaces k) (fm_files k) (port :: fm_ports k) (fm_procs k) (fm_signals k), Some port);
  os_resolve k name := if bool_decide (name = str "gateway.mesh:9100") then Some [(IpV4 0xc0000201, 9100)] else None;
  os_sleep k := k;
  os_open_peers_db k _ := (k, true);
  os_read_file k path := fm_files k !! path;
  os_truncate_file k path := (fm_with_files (<[path := []]> (fm_files k)) k, true);
  os_write_file k path bs := (fm_with_files (alter (λ old, old ++ bs) path (fm_files k)) k, true);
  os_remove_file k path := fm_with_files (delete path (fm_files k)) k;
  os_path_exists k path := bool_decide (is_Some (fm_files k !! path));
  os_signal k pid sig := (MkMachine (fm_host k) (fm_ifaces k) (fm_files k) (fm_ports k) (fm_procs k) (fm_signals k ++ [(pid, sig)]), bool_decide (pid ∈ fm_procs k));
}.
#[export] Instance fake_machine_files : LawfulFiles (K := FakeMachine).
Proof.
  split; cbn [os_read_file os_truncate_file os_write_file fake_start].
  - intros k k' path [= <-]. cbn [fm_files fm_with_files]. apply lookup_insert_eq.
  - intros k k' path bs E [= <-]. cbn [fm_files fm_with_files]. by rewrite lookup_alter_eq, E.
Qed.
Lemma fake_ioctl_effect k request ifr k' ifr' : request ≠ TUNSETIFF → request ≠ SIOCGIFFLAGS → os_ioctl (K := FakeMachine) k request ifr = (k', Some ifr') →
  iface k' (name_str ifr) = ioctl_effect request (ifr_union ifr) (iface k (name_str ifr)).
Proof.
  intros Ht Hg. unfold os_ioctl, fake_ioctl. rewrite (proj2 (Z.eqb_neq _ _) Ht), (proj2 (Z.eqb_neq _ _) Hg). intros [= <- _].
  unfold iface, fake_ifaces. cbn [fm_ifaces fm_with_ifaces]. by rewrite lookup_insert_eq.
Qed.
#[export] Instance fake_machine_lawful : LawfulIface (K := FakeMachine).
Proof.
  split.
  - intros k ifr k' ifr' E. by rewrite (fake_ioctl_effect _ SIOCSIFADDR _ _ _ ltac:(discriminate) ltac:(discriminate) E).
  - intros k ifr k' ifr' E. by rewrite (fake_ioctl_effect _ SIOCSIFNETMASK _ _ _ ltac:(discriminate) ltac:(discriminate) E).
  - intros k ifr k' ifr' E. rewrite (fake_ioctl_effect _ SIOCSIFMTU _ _ _ ltac:(discriminate) ltac:(discriminate) E). cbv zeta. split; [done|].
    unfold ioctl_effect. change (SIOCSIFMTU =? SIOCSIFADDR) with false. change (SIOCSIFMTU =? SIOCSIFNETMASK) with false. rewrite Z.eqb_refl. cbv zeta iota. cbn [ia_ipv4 ia_mask ia_ipv6].
    split; intros Hm; rewrite (proj2 (Z.ltb_ge _ _)) by lia; done.
  - intros k ifr k' ifr'. unfold os_ioctl, fake_ioctl. change (SIOCGIFFLAGS =? TUNSETIFF) with false. rewrite Z.eqb_refl. intros [= <- <-]. cbn [ifr_name ifr_union]. split; [done|].
    split; [|done]. rewrite length_take. cbn [length]. rewrite length_app, length_drop. cbn [length]. lia.
  - intros k ifr k' ifr' E. by rewrite (fake_ioctl_effect _ SIOCSIFFLAGS _ _ _ ltac:(discriminate) ltac:(discriminate) E).
  - intros k text addr len name k' out. cbn [run_command fake_machine_commands]. unfold addr_replace. rewrite bool_decide_eq_true_2 by done. intros E Hs Ht.
    rewrite Ht in E. injection E as <- _. unfold iface, fake_ifaces. cbn. by rewrite lookup_insert_eq.
Qed.

#[local] Existing Instance null_aead.
#[local] Existing Instance toy_ecdh.
#[local] Existing Instance toy_crypto.
#[local] Instance sample_kdf : MeshKdf := {
  argon2_params _ := true;
  argon2_hash _ passphrase salt := Some (passphrase ++ salt);
  hkdf_expand_label master label n := Some (take n (label ++ master ++ replicate n 0));
}.
Definition sample_machine (files : gmap (list Z) (list Z)) : FakeMachine := MkMachine sample_host ∅ files [] [4242] [].
Definition sample_env (name : list Z) : option (list Z) := if bool_decide (name = str "HOME") then Some (str "/home/pim") else None.
Definition sample_start_config : Config :=
  let c := default_config (str "laptop") in
  MkConfig (cf_node c) (cf_interface c) (cf_discovery c) (MkMesh Private (Some (str "open sesame")) None (mc_kdf (cf_mesh c))) (cf_transport c) (cf_routing c) (cf_gateway c) (cf_relay c)
    (cf_security c) (cf_wifi_direct c) (cf_bluetooth c) (cf_bluetooth_rfcomm c) (cf_messaging c) [MkPeer [] (Config.Tcp (str "gateway.mesh:9100"))].
Definition sample_start : FakeMachine * outcome StartError Started :=
  run_in_process sample_digest sample_env sample_start_config (Ok (from_signing_key ed_public sample_hash [7])) true None (sample_machine ∅).

Lemma tun_addressed_witness :
  let '(k', r) := tun_setup sample_digest (cf_interface sample_start_config) (sample_id 3) sample_prefix {| v6_network := 0xfd77 * 2 ^ 112; v6_prefix_len := 64 |} (sample_machine ∅) in
  r = Ok (str "pim0") ∧ verify_mesh_ipv4 sample_digest (sample_id 3) (ia_ipv4 (iface k' (str "pim0"))) sample_prefix = true ∧
  ia_mask (iface k' (str "pim0")) = 0xffff0000 ∧ Z.testbit (ia_flags (iface k' (str "pim0"))) 0 = true.
Proof.
  destruct (tun_setup _ _ _ _ _ _) as [k' r] eqn:E. assert (r = Ok (str "pim0")) as -> by (by vm_compute in E; injection E as _ <-).
  destruct (tun_addressed sample_digest (cf_interface sample_start_config) (sample_id 3) sample_prefix {| v6_network := 0xfd77 * 2 ^ 112; v6_prefix_len := 64 |} (sample_machine ∅) k' (str "pim0"))
    as (H4 & Hm & _ & _ & Hf); [by apply (bool_decide_unpack _); vm_compute..| |exact E|by split_and!]. split; by vm_compute.
Defined.

(** The address is set before the MTU: with a small one it is lost again. *)
Example small_mtu_loses_ipv6 :
  let interface := cf_interface sample_start_config in
  let small := MkInterface (ic_name interface) 1000 (ic_mesh_ipv4_prefix interface) (ic_mesh_ipv6_prefix interface) in
  let '(k', r) := tun_setup sample_digest small (sample_id 3) sample_prefix {| v6_network := 0xfd77 * 2 ^ 112; v6_prefix_len := 64 |} (sample_machine ∅) in
  r = Ok (str "pim0") ∧ ia_ipv6 (iface k' (str "pim0")) = None.
Proof. by vm_compute. Qed.

Lemma daemon_starts_witness :
  let '(k', r) := sample_start in
  match r with
  | Ok sd => daemon_ok (sd_daemon sd) ∧ configured_targets (dial_reconnect (dm_dial (sd_daemon sd))) = {[Tcp (0xc0000201, 9100)]} ∧ is_Some (sd_discovery sd ≫= ds_discovery_key)
  | _ => False
  end.
Proof.
  unfold sample_start. destruct (run_in_process _ _ _ _ _ _ _) as [k' r] eqn:E.
  assert (Hr : match r with Ok sd => is_Some (sd_discovery sd ≫= ds_discovery_key) | _ => False end).
  { vm_compute in E. injection E as _ <-. vm_compute. by eexists. }
  destruct r as [sd|e|]; [|done|done]. rename Hr into Hd.
  destruct (daemon_starts sample_digest sample_hash sample_env sample_start_config [7] true None (sample_machine ∅) k' sd E) as (_ & _ & _ & Hok & (k1 & targets & Hf & Hc) & _).
  split_and!; [by apply Hok| |done]. rewrite Hc. cbn [cf_peers sample_start_config] in Hf. apply list.Forall2_cons_inv_l in Hf as (t & ts & Ht & Hnil & ->).
  apply list.Forall2_nil_inv_l in Hnil as ->. vm_compute in Ht. injection Ht as <-. apply union_empty_r_L.
Defined.

Lemma down_reaches_daemon_witness :
  (cmd_down default_pid_file (write_pid default_pid_file 4242 (sample_machine ∅)).1).2 = Ok () ∧
  fm_signals (cmd_down default_pid_file (write_pid default_pid_file 4242 (sample_machine ∅)).1).1 = [(4242, 15)] ∧
  (cmd_status default_pid_file (write_pid default_pid_file 4242 (sample_machine ∅)).1).2 = Running 4242.
Proof.
  destruct (write_pid default_pid_file 4242 (sample_machine ∅)) as [k1 r] eqn:E. assert (r = Ok ()) as -> by (by vm_compute in E; injection E as _ <-).
  destruct (down_reaches_daemon default_pid_file 4242 (sample_machine ∅) k1 k1 ltac:(lia) E eq_refl) as [Hd Hs]. cbn [fst]. rewrite Hd, Hs.
  vm_compute in E. injection E as <-. split_and!; by vm_compute.
Defined.

(** A second daemon writes its number before it finds the port taken: it is
    gone, and the first one, which still runs, is no longer found. *)
Definition sample_conf_docs : list TomlValue := omap (cser (table_codec Config_fields)) [sample_start_config].
#[local] Instance sample_conf_files : Toml := documents sample_conf_docs.
Definition busy_machine : FakeMachine :=
  let k := sample_machine {[default_config_path := [0]; default_pid_file := decimal 4242]} in
  MkMachine (fm_host k) (fm_ifaces k) (fm_files k) [default_listen_port] (fm_procs k) (fm_signals k).
Example failed_start_hides_daemon :
  (cmd_status default_pid_file busy_machine).2 = Running 4242 ∧
  let '(k', r) := run sample_digest sample_env [] 5151 (Ok (from_signing_key ed_public sample_hash [7])) true None busy_machine in
  match r with Err SeListen => True | _ => False end ∧ fm_procs k' = [4242] ∧
  match (cmd_down default_pid_file k').2 with Err (SignalFailed 5151) => True | _ => False end ∧ (cmd_status default_pid_file k').2 = StalePid 5151.
Proof. by vm_compute. Qed.
