(* ===== verification/Messaging.v ===== *)
(** * Messaging (crates/pim-messaging/src/service.rs, plugin.rs)

    The messaging service over its storage, the peer directory and the control
    sender, both through their interfaces.  The random message identifier, the
    draws of the encryption, the wall clock and the answers of SQLite are
    arguments. *)

From S2P Require Import Prelude Core MeshAddress Frames Control Stream Fragment Routing Session DataPlane SendBuffer Trust E2e.
From S2P Require Import Handshake Reconnect Daemon Text MessageStore PeerDirectory Identity.

Definition MAX_BODY_BYTES : Z := 8 * 1024.
Definition KIND_MESSAGE : list Z := str "messaging.msg".
Definition KIND_ACK : list Z := str "messaging.ack".

(** [as u64] of an [i64] and back. *)
Definition i64_as_u64 (v : Z) : Z := v mod 2 ^ 64.
Definition u64_as_i64 (v : Z) : Z := if v <? 2 ^ 63 then v else v - 2 ^ 64.

Inductive HistoryScope := ScopePeer | ScopeAll.
Inductive MessageEvent :=
| MessageReceived (message : MessageRecord) (conversation : ConversationSummary)
| MessageStatusChanged (message_id peer_node_id : list Z) (new_status : MessageStatus) (at_ms : Z)
| HistoryCleared (peer_node_id : option (list Z)) (scope : HistoryScope) (deleted_messages : Z).

Inductive SendError := BodyTooLarge | NoX25519 | StorageFailed | EncryptFailed.

(** What leaves the service, in order. *)
Inductive Output := Publish (e : MessageEvent) | Transmit (a : Action).

(** The loop of [parse_node_id]; slicing a string inside a character panics. *)
Fixpoint parse_pairs (s : list Z) : outcome SendError (option (list Z)) :=
  match s with
  | a :: b :: rest =>
    if utf8_cont a || match rest with c :: _ => utf8_cont c | [] => false end then Panic else
    match from_str_radix_u8 [a; b] 16 with
    | None => Ok None
    | Some v => let? bs := parse_pairs rest in Ok (cons v <$> bs)
    end
  | _ => Ok (Some [])
  end.
Definition parse_node_id (hex : list Z) : outcome SendError (option NodeId) :=
  if negb (bool_decide (length hex = 32%nat)) then Ok None else
  let? bs := parse_pairs hex in Ok (from_bytes <$> bs).

Section Service.
Context {A : Aead} {D : Ecdh}.
Context {P : Type} `{PeerDirectory P} {C : Type} `{ControlSender C}.

Record Service := MkService { sv_storage : MessagingStorage; sv_peers : P; sv_control : C }.
Definition set_storage (s : MessagingStorage) (sv : Service) : Service := MkService s (sv_peers sv) (sv_control sv).
Definition set_control (c : C) (sv : Service) : Service := MkService (sv_storage sv) (sv_peers sv) c.

(** ** Status of outbound messages *)
Definition set_status (ok : bool) (peer : NodeId) (message_id : list Z) (status : MessageStatus) (delivered_at_ms read_at_ms : option Z)
    (at_ms : Z) (s : MessagingStorage) : outcome SendError unit * list Output * MessagingStorage :=
  match set_message_status ok (hex message_id) status delivered_at_ms read_at_ms s with
  | (Ok _, s) => (Ok tt, [Publish (MessageStatusChanged (hex message_id) (hex_node_id peer) status at_ms)], s)
  | (_, s) => (Err StorageFailed, [], s)
  end.
Definition mark_sent (ok : bool) (peer : NodeId) (message_id : list Z) (at_ms : Z) :=
  set_status ok peer message_id StSent None None at_ms.
Definition mark_delivered (ok : bool) (peer : NodeId) (message_id : list Z) (at_ms : Z) :=
  set_status ok peer message_id StDelivered (Some at_ms) None at_ms.
Definition mark_read (ok : bool) (peer : NodeId) (message_id : list Z) (at_ms : Z) :=
  set_status ok peer message_id StRead None (Some at_ms) at_ms.
Definition mark_failed (ok : bool) (peer : NodeId) (message_id : list Z) (reason : string) (at_ms : Z) (s : MessagingStorage)
  : outcome SendError unit * list Output * MessagingStorage :=
  match set_message_failed ok (hex message_id) reason at_ms s with
  | (Ok _, s) => (Ok tt, [Publish (MessageStatusChanged (hex message_id) (hex_node_id peer) StFailed at_ms)], s)
  | (_, s) => (Err StorageFailed, [], s)
  end.

(** ** Sending *)
Definition record_local_send (ok ok2 : bool) (peer : NodeId) (message_id body : list Z) (timestamp_ms : Z) (s : MessagingStorage)
  : outcome SendError MessageRecord * MessagingStorage :=
  let record := MkMessage (hex message_id) (hex_node_id peer) DirSent body timestamp_ms StPending None None None in
  match insert_message ok record s with
  | (Ok _, s) =>
    match bump_conversation_after_local_send ok2 (hex_node_id peer) (hex message_id) timestamp_ms body s with
    | (Ok _, s) => (Ok record, s)
    | (_, s) => (Err StorageFailed, s)
    end
  | (_, s) => (Err StorageFailed, s)
  end.

Definition message_frame (message_id : list Z) (timestamp_ms : Z) (ciphertext : list Z) : ControlFrame :=
  PluginPayload KIND_MESSAGE (encode_message message_id (i64_as_u64 timestamp_ms) ciphertext).

(** [ok3] is for the status afterwards, [now] and [now'] the two readings of
    the clock. *)
Definition send (ok ok2 ok3 : bool) (now now' : Z) (id_bytes ephemeral nonce : list Z) (peer : NodeId) (body : list Z) (sv : Service)
  : outcome SendError MessageRecord * list Output * Service :=
  if MAX_BODY_BYTES <? Z.of_nat (length body) then (Err BodyTooLarge, [], sv) else
  match lookup_x25519 peer (sv_peers sv) with
  | None => (Err NoX25519, [], sv)
  | Some recipient_x25519 =>
    match record_local_send ok ok2 peer id_bytes body now (sv_storage sv) with
    | (Ok record, s) =>
      let sv := set_storage s sv in
      match e2e_encrypt ephemeral nonce body recipient_x25519 with
      | Ok ciphertext =>
        let '(sent, acts, c) := send_routed peer (message_frame id_bytes now ciphertext) (sv_control sv) in
        let sv := set_control c sv in
        let '(_, evs, s) :=
          if (sent : bool) then mark_sent ok3 peer id_bytes now' (sv_storage sv)
          else mark_failed ok3 peer id_bytes "no_route" now' (sv_storage sv) in
        (Ok record, map Transmit acts ++ evs, set_storage s sv)
      | Err _ => (Err EncryptFailed, [], sv)
      | Panic => (Panic, [], sv)
      end
    | (Err e, s) => (Err e, [], set_storage s sv)
    | (Panic, s) => (Panic, [], set_storage s sv)
    end
  end.

(** ** Receiving *)
Definition ack_frame (message_id : list Z) (kind : AckKind) : ControlFrame :=
  PluginPayload KIND_ACK (encode_ack message_id (ack_as_u8 kind)).

Definition nonempty_or (d : list Z) (n : option (list Z)) : list Z :=
  match n with Some n => if bool_decide (n = []) then d else n | None => d end.

Definition handle_incoming_message (ok ok2 ok3 : bool) (received_at : Z) (seed : list Z) (src : NodeId) (body : list Z) (sv : Service)
  : outcome SendError unit * list Output * Service :=
  match decode_message body with
  | Err _ => (Ok tt, [], sv)
  | Panic => (Panic, [], sv)
  | Ok decoded =>
    match e2e_decrypt_in_place (dm_ciphertext decoded) seed with
    | Err _ => (Ok tt, [], sv)
    | Panic => (Panic, [], sv)
    | Ok plaintext =>
      if negb (from_utf8 plaintext) then (Ok tt, [], sv) else
      let cached_name := lookup_name src (sv_peers sv) in
      let cached_x25519 := lookup_x25519 src (sv_peers sv) in
      let peer_hex := hex_node_id src in
      let message_id_hex := hex (dm_message_id decoded) in
      let timestamp_ms := u64_as_i64 (dm_timestamp_ms decoded) in
      let record := MkMessage message_id_hex peer_hex DirReceived plaintext timestamp_ms StDelivered None (Some received_at) None in
      match insert_message ok record (sv_storage sv) with
      | (Ok _, s) =>
        match bump_conversation_after_remote_receive ok2 ok3 peer_hex message_id_hex timestamp_ms plaintext s with
        | (Ok bump, s) =>
          let short := short_id peer_hex in
          let conversation := MkSummary peer_hex short (nonempty_or short cached_name) (Some (cb_preview bump)) (Some timestamp_ms)
                                (cb_unread_count bump) (hex <$> cached_x25519) in
          let '(_, acts, c) := send_routed src (ack_frame (dm_message_id decoded) AckDelivered) (sv_control sv) in
          (Ok tt, Publish (MessageReceived record conversation) :: map Transmit acts, set_control c (set_storage s sv))
        | (_, s) => (Ok tt, [], set_storage s sv)
        end
      | (_, s) => (Ok tt, [], set_storage s sv)
      end
    end
  end.

Definition handle_incoming_message_ack (ok : bool) (now : Z) (src : NodeId) (body : list Z) (sv : Service)
  : outcome SendError unit * list Output * Service :=
  match decode_ack body with
  | Err _ => (Ok tt, [], sv)
  | Panic => (Panic, [], sv)
  | Ok decoded =>
    match ack_from_u8 (da_ack_kind decoded) with
    | None => (Ok tt, [], sv)
    | Some kind =>
      let '(_, evs, s) :=
        match kind with
        | AckDelivered => mark_delivered ok src (da_message_id decoded) now (sv_storage sv)
        | AckRead => mark_read ok src (da_message_id decoded) now (sv_storage sv)
        end in
      (Ok tt, evs, set_storage s sv)
    end
  end.

(** ** Deleting *)
Definition service_delete_conversation (ok : bool) (peer : NodeId) (sv : Service) : outcome SendError (nat * bool) * list Output * Service :=
  match delete_conversation ok (hex_node_id peer) (sv_storage sv) with
  | (Ok r, s) => (Ok r, [Publish (HistoryCleared (Some (hex_node_id peer)) ScopePeer (Z.of_nat r.1))], set_storage s sv)
  | (_, s) => (Err StorageFailed, [], set_storage s sv)
  end.
Definition service_delete_all_messages (ok : bool) (sv : Service) : outcome SendError (nat * nat) * list Output * Service :=
  match delete_all_messages ok (sv_storage sv) with
  | (Ok r, s) => (Ok r, [Publish (HistoryCleared None ScopeAll (Z.of_nat r.1))], set_storage s sv)
  | (_, s) => (Err StorageFailed, [], set_storage s sv)
  end.
Definition service_peer_forgotten (ok : bool) (peer : NodeId) (sv : Service) : list Output * Service :=
  match delete_conversation ok (hex_node_id peer) (sv_storage sv) with
  | (Ok (n, had), s) =>
    (if bool_decide (0 < n)%nat || had then [Publish (HistoryCleared (Some (hex_node_id peer)) ScopePeer (Z.of_nat n))] else [], set_storage s sv)
  | (_, s) => ([], set_storage s sv)
  end.

(** ** Listing *)
Fixpoint fill_summaries (peers : P) (rows : list ConversationSummary) : outcome SendError (list ConversationSummary) :=
  match rows with
  | [] => Ok []
  | row :: rows =>
    let? id := parse_node_id (cs_peer_node_id row) in
    let? rest := fill_summaries peers rows in
    Ok (match id with
        | None => row
        | Some peer =>
          MkSummary (cs_peer_node_id row) (cs_peer_node_id_short row) (nonempty_or (cs_name row) (lookup_name peer peers))
            (cs_last_message_preview row) (cs_last_message_ts_ms row) (cs_unread_count row)
            (match lookup_x25519 peer peers with Some k => Some (hex k) | None => cs_x25519_pubkey row end)
        end :: rest)
  end.
Definition list_conversations (ok : bool) (iter : gmap (list Z) ConversationMeta → list (list Z * ConversationMeta)) (sv : Service)
  : outcome SendError (list ConversationSummary) :=
  match list_conversations_raw ok iter (sv_storage sv) with
  | Ok rows => fill_summaries (sv_peers sv) rows
  | _ => Err StorageFailed
  end.

(** ** The plugin *)
Definition MessagingPlugin (ok ok2 ok3 : bool) (now : Z) (seed : list Z) : DaemonPlugin Service Output := {|
  payload_kinds := [KIND_MESSAGE; KIND_ACK];
  handle_payload src kind body sv :=
    if bool_decide (kind = KIND_MESSAGE) then let '(_, o, sv) := handle_incoming_message ok ok2 ok3 now seed src body sv in (o, sv)
    else if bool_decide (kind = KIND_ACK) then let '(_, o, sv) := handle_incoming_message_ack ok now src body sv in (o, sv)
    else ([], sv);
  on_peer_forgotten := service_peer_forgotten ok;
|}.
End Service.
Arguments Service : clear implicits.
