(* ===== verification/MessagingProofs.v ===== *)
(** * What messaging guarantees, and what it does not

    A message between two nodes and its acknowledgement; what a peer can do to
    the messages of others; and whose key a message is encrypted for. *)

From S2P Require Import Prelude Core MeshAddress Frames Control Stream Fragment Routing Session DataPlane SendBuffer Trust E2e.
From S2P Require Import Handshake Reconnect Daemon DaemonProofs Link Text Toml Config MessageStore PeerDirectory Identity Messaging.

(** The frames a service hands to the transport of a peer. *)
Definition transmitted (q : NodeId) (outs : list Output) : list TransportFrame :=
  omap (λ o, match o with Transmit (Send p f) => if bool_decide (p = q) then Some f else None | _ => None end) outs.

Lemma transmitted_send q f evs : transmitted q (map Transmit [Send q f] ++ map Publish evs) = [f].
Proof.
  unfold transmitted. cbn. rewrite bool_decide_eq_true_2 by done. f_equal. by induction evs.
Qed.

Section Service.
Context {A : Aead} {D : Ecdh} {HA : LawfulAead A} {HT : TotalAead A} {HD : LawfulEcdh D}.
Context {P : Type} `{!PeerDirectory P} {C : Type} `{!ControlSender C}.
Implicit Types sv : Service P C.

(** ** The parts of an exchange *)
Lemma e2e_encrypt_total ephemeral nonce p pub :
  Z.of_nat (length p) < 2 ^ 20 → length nonce = 12%nat →
  ∃ ct, e2e_encrypt ephemeral nonce p pub = Ok ct ∧ length ct = (60 + length p)%nat.
Proof using HA HT HD.
  intros Hp Hn. unfold e2e_encrypt. destruct (aead_seal_total (derive_e2e_cipher (diffie_hellman ephemeral pub)) nonce p Hp) as [[ct tag] Hs].
  rewrite Hs. eexists. split; [reflexivity|]. destruct (aead_seal_length _ _ _ _ _ Hs) as [Hc Ht].
  rewrite !length_app, public_length. lia.
Qed.

Lemma decode_encode_message id ts ct :
  length id = 16%nat → u64_ok ts →
  decode_message (encode_message id ts ct) = Ok {| dm_message_id := id; dm_timestamp_ms := ts; dm_ciphertext := ct |}.
Proof. intros Hid Hts. by destruct (messaging_roundtrip id ts ct 0 Hid Hts). Qed.

Lemma decode_encode_ack id kind : length id = 16%nat → decode_ack (encode_ack id kind) = Ok {| da_message_id := id; da_ack_kind := kind |}.
Proof. intros Hid. by destruct (messaging_roundtrip id 0 [] kind Hid) as (_ & ? & _). Qed.

Lemma length_encode_message id ts ct : length id = 16%nat → length (encode_message id ts ct) = (24 + length ct)%nat.
Proof. intros Hid. unfold encode_message, put_slice, put_u64. rewrite !length_app, length_be_bytes. cbn. lia. Qed.

Lemma timestamp_wire ts : 0 ≤ ts < 2 ^ 63 → u64_ok (i64_as_u64 ts) ∧ u64_as_i64 (i64_as_u64 ts) = ts.
Proof.
  intros Ht. unfold i64_as_u64, u64_as_i64, u64_ok. rewrite Z.mod_small by lia. split; [lia|]. by rewrite (proj2 (Z.ltb_lt _ _)) by lia.
Qed.

(** The row of a message that was received. *)
Definition received_record (src : NodeId) (id body : list Z) (ts at_ms : Z) : MessageRecord :=
  MkMessage (hex id) (hex_node_id src) DirReceived body ts StDelivered None (Some at_ms) None.

Definition unread (p : NodeId) (s : MessagingStorage) : Z := default 0 (cm_unread_count <$> conversations_meta s !! hex_node_id p).

(** Handling a well-formed message. *)
Lemma receive_message ephemeral nonce seed src id ts body ct received_at sv :
  length id = 16%nat → length nonce = 12%nat → 0 ≤ ts < 2 ^ 63 → from_utf8 body = true →
  e2e_encrypt ephemeral nonce body (x25519_public_from_seed seed) = Ok ct →
  ∃ conv s',
    handle_incoming_message true true true received_at seed src (encode_message id (i64_as_u64 ts) ct) sv =
      (let '(_, acts, c) := send_routed src (ack_frame id AckDelivered) (sv_control sv) in
       (Ok tt, Publish (MessageReceived (received_record src id body ts received_at) conv) :: map Transmit acts, set_control c (set_storage s' sv))) ∧
    messages s' = <[hex id := to_row (received_record src id body ts received_at)]> (messages (sv_storage sv)) ∧
    unread src s' = unread src (sv_storage sv) + 1 ∧
    (∀ q, q ≠ hex_node_id src → conversations_meta s' !! q = conversations_meta (sv_storage sv) !! q).
Proof using HA HD.
  intros Hid Hn Hts Hutf He. destruct (timestamp_wire ts Hts) as [Hu Hi].
  unfold handle_incoming_message. rewrite decode_encode_message by done. cbn [dm_ciphertext dm_message_id dm_timestamp_ms].
  rewrite (proj1 (e2e_in_place_agrees ct seed)), (e2e_opens _ _ _ _ _ Hn He), Hutf, Hi. cbn [negb insert_message].
  unfold bump_conversation_after_remote_receive. cbn [negb].
  eexists _, _. split; [reflexivity|]. split; [done|]. split.
  - unfold unread. cbn. rewrite lookup_insert_eq. cbn. by destruct (conversations_meta (sv_storage sv) !! hex_node_id src).
  - intros q Hq. cbn. by rewrite lookup_insert_ne.
Qed.

(** Handling an acknowledgement of delivery. *)
Lemma receive_ack src id now sv r :
  length id = 16%nat → messages (sv_storage sv) !! hex id = Some r →
  ∃ s', handle_incoming_message_ack true now src (encode_ack id 1) sv =
      (Ok tt, [Publish (MessageStatusChanged (hex id) (hex_node_id src) StDelivered now)], set_storage s' sv) ∧
    messages s' !! hex id = Some (MkRow (row_peer_node_id r) (row_direction r) (row_body r) (row_timestamp_ms r) "delivered"
      (row_failure_reason r) (Some (default now (row_delivered_at_ms r))) (row_read_at_ms r)).
Proof.
  intros Hid Hr. unfold handle_incoming_message_ack. rewrite decode_encode_ack by done. cbn.
  eexists. split; [reflexivity|]. cbn. rewrite lookup_alter_eq, Hr. done.
Qed.

(** A message the control sender accepts. *)
Lemma send_accepted wall wall' id ephemeral nonce peer body pub ct acts c sv :
  Z.of_nat (length body) ≤ MAX_BODY_BYTES → lookup_x25519 peer (sv_peers sv) = Some pub →
  e2e_encrypt ephemeral nonce body pub = Ok ct →
  send_routed peer (message_frame id wall ct) (sv_control sv) = (true, acts, c) →
  ∃ record s, send true true true wall wall' id ephemeral nonce peer body sv =
      (Ok record, map Transmit acts ++ [Publish (MessageStatusChanged (hex id) (hex_node_id peer) StSent wall')], MkService s (sv_peers sv) c) ∧
    messages s !! hex id = Some (MkRow (hex_node_id peer) "sent" body wall "sent" None None None).
Proof.
  intros Hlen Hkey He Hs. unfold send. rewrite (proj2 (Z.ltb_ge _ _)) by lia. rewrite Hkey. cbn [record_local_send insert_message
    bump_conversation_after_local_send negb]. rewrite He. cbn [set_storage sv_control]. rewrite Hs. eexists _, _. split; [reflexivity|].
  cbn. by rewrite lookup_alter_eq, lookup_insert_eq.
Qed.
End Service.

(** ** Between two nodes *)
Section Frame.
Context {A : Aead} {D : Ecdh} {HA : LawfulAead A} {HT : TotalAead A} {HD : LawfulEcdh D}.
Context (answer answer' : NodeId → TransportFrame → SendResult).

(** A node with the messaging plugin. *)
Notation Node := (Service PeersDb DaemonState).
Notation self_of sv := (ds_self_id (dm_data (sv_control sv))).
#[local] Existing Instance ControlSenderAdapter.

(** A frame from a peer that carries a plugin payload, through the event loop
    and the dispatch to the plugin. *)
Definition plugin_frame (ans : NodeId → TransportFrame → SendResult) (ok ok2 ok3 : bool) (now wall : Z) (seed : list Z) (from : NodeId)
    (f : TransportFrame) (sv : Node) : outcome PimError (list Output * Node) :=
  let? (acts, d) := handle_data_frame ans now from f (sv_control sv) in
  Ok (fold_left (λ os a, match a with
        | PluginDispatch src kind body =>
          let '(o, sv) := dispatch_plugin_payload (Some [MessagingPlugin (H0 := ControlSenderAdapter ans now) ok ok2 ok3 wall seed]) src kind body os.2 in
          (os.1 ++ o, sv)
        | _ => os
        end) acts ([], set_control d sv)).

Lemma plugin_frame_payload ok ok2 ok3 now now' wall seed kind body (a : DaemonState) (b : Node) :
  half_link (dm_data a) (dm_data (sv_control b)) → lookup_route (self_of b) (dm_routing a) = Some (self_of b) →
  ControlFrame_wf (PluginPayload kind body) → (length kind ≤ 255)%nat → Z.of_nat (length body) < 2 ^ 15 →
  ∃ f a' d, send_routed_control answer now (self_of b) (PluginPayload kind body) a = (true, [Send (self_of b) f], a') ∧
    sent (self_of b) a a' ∧ only_from (ds_self_id (dm_data a)) (dm_data (sv_control b)) d ∧
    (half_link (dm_data (sv_control b)) (dm_data a) → half_link d (dm_data a')) ∧
    ∀ chunks, carries chunks [f] → (read_task chunks []).1 = [f] ∧
      plugin_frame answer' ok ok2 ok3 now' wall seed (ds_self_id (dm_data a)) f b =
        Ok (dispatch_plugin_payload (Some [MessagingPlugin (H0 := ControlSenderAdapter answer' now') ok ok2 ok3 wall seed]) (ds_self_id (dm_data a)) kind body
              (set_control (set_data d (sv_control b)) b)).
Proof using HA HT.
  intros Hl Hroute Hwf Hk Hb.
  destruct (control_hop answer answer' now now' (PluginPayload kind body) a (sv_control b)) as (f & a' & d & Hsend & Hst & Hof & _ & Hback & Hrecv);
    [done|done|done| |].
  { rewrite ControlFrame_encode_segs by done. rewrite length_concat_segs. cbn [ControlFrame_segs]. seg_lia. }
  exists f, a', d. split_and!; try done. intros chunks Hch. destruct (Hrecv _ Hch) as [Hrd Hh]. split; [done|].
  unfold plugin_frame. rewrite Hh. cbn [obind routed_actions fold_left fst snd].
  by destruct (dispatch_plugin_payload _ _ _ _ _).
Qed.

End Frame.

Section Exchange.
Context {A : Aead} {D : Ecdh} {HA : LawfulAead A} {HT : TotalAead A} {HD : LawfulEcdh D}.
Context (answer answer' : NodeId → TransportFrame → SendResult).
Notation Node := (Service PeersDb DaemonState).
Notation self_of sv := (ds_self_id (dm_data (sv_control sv))).

Lemma message_frame_wf id ts ct : length id = 16%nat → Z.of_nat (length ct) < 2 ^ 14 →
  ControlFrame_wf (message_frame id ts ct) ∧ Z.of_nat (length (encode_message id (i64_as_u64 ts) ct)) < 2 ^ 15.
Proof. intros Hid Hct. unfold message_frame. cbn [ControlFrame_wf]. rewrite length_encode_message by done. split; [|lia]. split; [cbn; lia|]. split; [done|lia]. Qed.

Lemma ack_frame_wf id k : length id = 16%nat →
  ControlFrame_wf (ack_frame id k) ∧ Z.of_nat (length (encode_ack id (ack_as_u8 k))) < 2 ^ 15.
Proof.
  intros Hid. unfold ack_frame. cbn [ControlFrame_wf]. assert (Hl : length (encode_ack id (ack_as_u8 k)) = 17%nat).
  { unfold encode_ack, put_slice, put_u8. rewrite !length_app. cbn. lia. }
  rewrite Hl. split; [|lia]. split; [cbn; lia|]. split; [done|lia].
Qed.

(** C4: A message and its acknowledgement: what one node sends to a neighbour
    whose key it knows is stored there with the same identifier, text and
    timestamp, counted as unread and published, and nothing else is stored; and
    the acknowledgement that comes back turns the sender's own copy from sent
    to delivered. *)
Theorem message_exchange now wall wall' t0 t1 t2 t3 id ephemeral nonce seed seed' body (a b : Node) :
  linked (dm_data (sv_control a)) (dm_data (sv_control b)) →
  lookup_route (self_of b) (dm_routing (sv_control a)) = Some (self_of b) →
  lookup_route (self_of a) (dm_routing (sv_control b)) = Some (self_of a) →
  db_lookup_x25519 (self_of b) (sv_peers a) = Some (x25519_public_from_seed seed) →
  length id = 16%nat → length nonce = 12%nat → 0 ≤ wall < 2 ^ 63 → from_utf8 body = true → Z.of_nat (length body) ≤ MAX_BODY_BYTES →
  ∃ record outs a1, send (H0 := ControlSenderAdapter answer now) true true true wall wall' id ephemeral nonce (self_of b) body a = (Ok record, outs, a1) ∧
    (∃ r, messages (sv_storage a1) !! hex id = Some r ∧ row_status r = "sent"%string ∧ row_body r = body) ∧
    ∀ chunks, carries chunks (transmitted (self_of b) outs) →
    ∃ f outs1 b1, (read_task chunks []).1 = [f] ∧
      plugin_frame answer' true true true t0 t1 seed (self_of a) f b = Ok (outs1, b1) ∧
      messages (sv_storage b1) = <[hex id := to_row (received_record (self_of a) id body wall t1)]> (messages (sv_storage b)) ∧
      unread (self_of a) (sv_storage b1) = unread (self_of a) (sv_storage b) + 1 ∧
      (∃ conv, Publish (MessageReceived (received_record (self_of a) id body wall t1) conv) ∈ outs1) ∧
      ∀ chunks', carries chunks' (transmitted (self_of a) outs1) →
      ∃ f' outs2 a2, (read_task chunks' []).1 = [f'] ∧
        plugin_frame answer true true true t2 t3 seed' (self_of b) f' a1 = Ok (outs2, a2) ∧
        (∃ r, messages (sv_storage a2) !! hex id = Some r ∧ row_status r = "delivered"%string ∧ row_delivered_at_ms r = Some t3) ∧
        outs2 = [Publish (MessageStatusChanged (hex id) (hex_node_id (self_of b)) StDelivered t3)].
Proof using HA HT HD.
  intros [Hl1 Hl2] Hrb Hra Hkey Hid Hn Hts Hutf Hlen. unfold MAX_BODY_BYTES in Hlen.
  destruct (e2e_encrypt_total ephemeral nonce body (x25519_public_from_seed seed)) as (ct & He & Hct); [lia|done|].
  destruct (message_frame_wf id wall ct Hid) as [Hwf Hml]; [lia|].
  destruct (plugin_frame_payload answer answer' true true true now t0 t1 seed KIND_MESSAGE (encode_message id (i64_as_u64 wall) ct) (sv_control a) b)
    as (f & a' & d & Hsend & Hst & Hof & Hback & Hrecv); [done|done|done|cbn; lia|done|].
  destruct (ack_frame_wf id AckDelivered Hid) as [Hwf' Hml'].
  destruct (send_accepted (ControlSender0 := ControlSenderAdapter answer now) wall wall' id ephemeral nonce (self_of b) body (x25519_public_from_seed seed) ct [Send (self_of b) f] a' a)
    as (record & s & Hsnd & Hrow); [done|done|done|done|].
  eexists _, _, _. split; [exact Hsnd|]. split; [by eexists|]. intros chunks Hch. change [Publish ?e] with (map Publish [e]) in Hch. rewrite transmitted_send in Hch.
  destruct (Hrecv _ Hch) as [Hrd Hpf]. clear Hrecv.
  destruct (receive_message (ControlSender0 := ControlSenderAdapter answer' t0) ephemeral nonce seed (self_of a) id wall body ct t1
    (set_control (set_data d (sv_control b)) b)) as (conv & s' & Hrm & Hmsg & Hun & _); [done..|].
  destruct (plugin_frame_payload answer' answer true true true t0 t2 t3 seed' KIND_ACK (encode_ack id 1) (set_data d (sv_control b))
    (MkService s (sv_peers a) a')) as (f' & b' & d' & Hsend' & _ & _ & _ & Hrecv'); cbn [sv_control].
  { by apply Hback. }
  { rewrite (sn_self _ _ _ Hst). cbn. by rewrite (of_routing _ _ _ Hof). }
  { done. } { cbn. lia. } { done. }
  cbn [sv_control] in Hsend', Hrecv'. rewrite (sn_self _ _ _ Hst) in Hsend'. change (ds_self_id (dm_data (set_data d (sv_control b)))) with (ds_self_id d) in Hrecv'.
  rewrite (of_self _ _ _ Hof) in Hrecv'.
  unfold dispatch_plugin_payload in Hpf. cbn [List.find payload_kinds MessagingPlugin] in Hpf. rewrite bool_decide_eq_true_2 in Hpf by set_solver.
  cbn [handle_payload MessagingPlugin] in Hpf. rewrite bool_decide_eq_true_2, Hrm in Hpf by done. cbn [sv_control set_control] in Hpf.
  unfold send_routed, ControlSenderAdapter in Hpf. change (ack_frame id AckDelivered) with (PluginPayload KIND_ACK (encode_ack id 1)) in Hpf.
  rewrite Hsend' in Hpf.
  eexists f, _, _. split; [done|]. split; [exact Hpf|]. split; [done|]. split; [done|]. split; [eexists; apply list_elem_of_here|].
  intros chunks' Hch'. change (transmitted ?q (Publish ?e :: ?l)) with (transmitted q l) in Hch'. rewrite <- (app_nil_r (map Transmit _)) in Hch'. change (@nil Output) with (map Publish []) in Hch'. rewrite transmitted_send in Hch'.
  destruct (Hrecv' _ Hch') as [Hrd' Hpf'].
  destruct (receive_ack (self_of b) id t3 (set_control (set_data d' a') (MkService s (sv_peers a) a')) _ Hid Hrow)
    as (s2 & Hack & Hrow2).
  unfold dispatch_plugin_payload in Hpf'. cbn [List.find payload_kinds MessagingPlugin] in Hpf'. rewrite bool_decide_eq_true_2 in Hpf' by set_solver.
  cbn [handle_payload MessagingPlugin] in Hpf'. rewrite bool_decide_eq_false_2 in Hpf' by done. rewrite bool_decide_eq_true_2, Hack in Hpf' by done.
  eexists f', _, _. split; [done|]. split; [exact Hpf'|]. split; [|done]. by eexists.
Qed.
End Exchange.

(** ** What others can do *)
Section Attacks.
Context {A : Aead} {D : Ecdh} {HA : LawfulAead A} {HT : TotalAead A} {HD : LawfulEcdh D}.

(** Identifiers are the sender's to choose: a message whose identifier is
    already in the store replaces that message, whoever it was from or to, so
    any peer can delete and rewrite the messages of any conversation whose
    identifiers it knows; and a message that arrives twice counts as unread
    twice and is no longer read. *)
Theorem message_id_overwrites `{!PeerDirectory P} `{!ControlSender C} ephemeral nonce seed src id ts body ct received_at
    (sv : Service P C) r0 :
  length id = 16%nat → length nonce = 12%nat → 0 ≤ ts < 2 ^ 63 → from_utf8 body = true →
  e2e_encrypt ephemeral nonce body (x25519_public_from_seed seed) = Ok ct →
  messages (sv_storage sv) !! hex id = Some r0 →
  let '(_, _, sv') := handle_incoming_message true true true received_at seed src (encode_message id (i64_as_u64 ts) ct) sv in
  messages (sv_storage sv') !! hex id = Some (to_row (received_record src id body ts received_at)) ∧
  (hex_node_id src ≠ row_peer_node_id r0 → (hex id, r0) ∉ selected (row_peer_node_id r0) None (sv_storage sv')) ∧
  unread src (sv_storage sv') = unread src (sv_storage sv) + 1.
Proof using HA HD.
  intros Hid Hn Hts Hutf He Hr0.
  destruct (receive_message ephemeral nonce seed src id ts body ct received_at sv) as (conv & s' & -> & Hm & Hu & _); [done..|].
  destruct (send_routed _ _ _) as [[sent acts] c]. cbn. rewrite Hm, lookup_insert_eq. split_and!; [done| |done].
  intros Hne Hin. apply elem_of_selected in Hin as [Hl _]. rewrite Hm, lookup_insert_eq in Hl. by simplify_eq.
Qed.

(** Acknowledgements are not checked: one from any peer, for any stored
    message, sets its status, the messages of others and received ones
    included; and a delivery acknowledgement that arrives after a read one
    takes the status back to delivered. *)
Theorem acks_unchecked `{!PeerDirectory P} `{!ControlSender C} src id now now' (sv : Service P C) r0 :
  length id = 16%nat → messages (sv_storage sv) !! hex id = Some r0 →
  let '(_, _, sv1) := handle_incoming_message_ack true now src (encode_ack id (ack_as_u8 AckRead)) sv in
  let '(_, _, sv2) := handle_incoming_message_ack true now' src (encode_ack id (ack_as_u8 AckDelivered)) sv1 in
  (∃ r, messages (sv_storage sv1) !! hex id = Some r ∧ row_status r = "read"%string ∧ row_peer_node_id r = row_peer_node_id r0) ∧
  (∃ r, messages (sv_storage sv2) !! hex id = Some r ∧ row_status r = "delivered"%string ∧ row_peer_node_id r = row_peer_node_id r0).
Proof.
  intros Hid Hr. unfold handle_incoming_message_ack. rewrite !decode_encode_ack by done. cbn.
  rewrite !lookup_alter_eq, Hr. split; eexists; (split; [reflexivity|]); done.
Qed.

(** C40: A routed identity is not authenticated: a node with a session to the
    victim's correspondent sends a [PeerInfo] in the victim's name, and the
    directory replaces the victim's key by the attacker's, so that the messages
    sent to the victim from then on open with the attacker's seed. *)
Theorem identity_hijack ans now wall from victim attacker_seed name s r (b : DaemonState) (ids : IdentityState) :
  dm_sessions b !! from = Some r → paired s r → 0 ≤ sc_counter (session_send s) < MAX_NONCE_COUNTER →
  node_id_wf victim → node_id_wf (ds_self_id (dm_data b)) → (length name ≤ 255)%nat → from_utf8 name = true →
  (broadcast_gate now victim Routed ids).1 = true →
  let key := x25519_public_from_seed attacker_seed in
  ∃ f acts b', (send_single_mesh s victim (ds_self_id (dm_data b)) 8 IS_CONTROL (ControlFrame_encode (PeerInfo key name) [])).1 = [f] ∧
    handle_data_frame ans now from f b = Ok (acts, b') ∧ NotePeerInfo victim key name ∈ acts ∧
    let ids' := (handle_incoming_peer_info true now wall victim key name Routed ids).2 in
    db_lookup_x25519 victim (peer_directory ids') = Some key ∧
    ∀ ephemeral nonce body ct, length nonce = 12%nat → e2e_encrypt ephemeral nonce body key = Ok ct → e2e_decrypt ct attacker_seed = Ok body.
Proof using HA HT HD.
  intros Hr Hp Hc Hv Hself Hname Hutf Hgate key.
  assert (Hwf : ControlFrame_wf (PeerInfo key name)) by (split; [apply public_length|done]).
  assert (Hlen : Z.of_nat (length (ControlFrame_encode (PeerInfo key name) [])) < 2 ^ 16).
  { rewrite ControlFrame_encode_segs by done. rewrite length_concat_segs. cbn [ControlFrame_segs]. pose proof (public_length (x25519_from_seed attacker_seed)).
    unfold key, x25519_public_from_seed. seg_lia. }
  destruct (send_single_delivers now from victim (ds_self_id (dm_data b)) 8 IS_CONTROL (ControlFrame_encode (PeerInfo key name) []) s r (dm_data b) Hr Hp)
    as (f & s' & r' & Hsend & _ & _ & _ & _ & Hh); [done|split_and!; [apply Hv|apply Hself|done|done|exact Hlen]|].
  rewrite bool_decide_eq_true_2 in Hh by done. unfold deliver_mesh in Hh. cbn [md_flags md_src_id md_payload] in Hh.
  change (flags_contains IS_CONTROL IS_CONTROL) with true in Hh. cbv iota in Hh.
  pose proof (ControlFrame_roundtrip (PeerInfo key name) [] Hwf) as Hrt. rewrite app_nil_r in Hrt. rewrite Hrt in Hh.
  eexists f, _, _. split; [by rewrite Hsend|]. split; [unfold handle_data_frame; rewrite Hh; reflexivity|]. split; [set_solver|]. split.
  - unfold handle_incoming_peer_info. destruct (broadcast_gate now victim Routed ids) as [pass ids1] eqn:Eg. cbn [fst] in Hgate. subst pass. cbn [negb].
    unfold record_peer_seen, upsert_peer_seen. cbn [negb]. assert (Hk : length key = 32%nat) by apply public_length.
    destruct (peers_seen (peer_directory ids1) !! hex_node_id victim) as [row|];
      cbn; unfold db_lookup_x25519; cbn; rewrite lookup_insert_eq; cbn; by rewrite bool_decide_eq_true_2.
  - intros ephemeral nonce body ct Hn He. by eapply e2e_opens.
Qed.
End Attacks.

(** ** Concrete nodes *)
#[local] Existing Instance null_aead.
#[local] Existing Instance toy_ecdh.

Definition sample_directory : PeersDb := (upsert_peer_seen true (sample_id 2) (x25519_public_from_seed [2]) [98] 1 PeersDb_new).2.
Definition sample_alice : Service PeersDb DaemonState := MkService MessagingStorage_new sample_directory (sample_node 1 2 sample_initiator).
Definition sample_bob : Service PeersDb DaemonState := MkService MessagingStorage_new PeersDb_new (sample_node 2 1 sample_responder).
Definition sample_uuid : list Z := replicate 16 7.
Definition sample_text : list Z := str "hi".

Lemma message_exchange_witness :
  ∃ record outs a1 f outs1 b1,
    send (H0 := ControlSenderAdapter sample_answer 0) true true true 5 6 sample_uuid [3] (replicate 12 1) (sample_id 2) sample_text sample_alice
      = (Ok record, outs, a1) ∧
    plugin_frame sample_answer true true true 7 8 [2] (sample_id 1) f sample_bob = Ok (outs1, b1) ∧
    unread (sample_id 1) (sv_storage b1) = 1.
Proof.
  destruct (message_exchange sample_answer sample_answer 0 5 6 7 8 9 10 sample_uuid [3] (replicate 12 1) [2] [1] sample_text sample_alice sample_bob)
    as (record & outs & a1 & Hsend & _ & Hrecv);
    [exact sample_nodes_linked|vm_compute; reflexivity|vm_compute; reflexivity|vm_compute; reflexivity|reflexivity|reflexivity|lia
    |vm_compute; reflexivity|vm_compute; discriminate|].
  destruct (Hrecv [concat (map wire_frame (transmitted (ds_self_id (dm_data (sv_control sample_bob))) outs))]) as (f & outs1 & b1 & _ & Hp & _ & Hu & _);
    [apply carries_whole|]. exists record, outs, a1, f, outs1, b1. split; [exact Hsend|]. split; [exact Hp|exact Hu].
Defined.

(** A store with one message, from node 3. *)
Definition sample_inbox : Service PeersDb DaemonState :=
  set_storage (insert_message true (received_record (sample_id 3) sample_uuid sample_text 5 6) MessagingStorage_new).2 sample_bob.

Lemma message_id_overwrites_witness :
  let '(_, _, sv') := handle_incoming_message (H0 := ControlSenderAdapter sample_answer 0) true true true 9 [2] (sample_id 1)
    (encode_message sample_uuid (i64_as_u64 8) (match e2e_encrypt [3] (replicate 12 1) [120] (x25519_public_from_seed [2]) with Ok c => c | _ => [] end))
    sample_inbox in
  messages (sv_storage sv') !! hex sample_uuid = Some (to_row (received_record (sample_id 1) sample_uuid [120] 8 9)).
Proof.
  pose proof (message_id_overwrites (ControlSender0 := ControlSenderAdapter sample_answer 0) [3] (replicate 12 1) [2] (sample_id 1) sample_uuid 8 [120]
    (match e2e_encrypt [3] (replicate 12 1) [120] (x25519_public_from_seed [2]) with Ok c => c | _ => [] end) 9 sample_inbox
    (to_row (received_record (sample_id 3) sample_uuid sample_text 5 6)) eq_refl eq_refl) as Ho.
  specialize (Ho ltac:(lia) eq_refl ltac:(vm_compute; reflexivity) ltac:(vm_compute; reflexivity)).
  destruct (handle_incoming_message _ _ _ _ _ _ _ _) as [[r o] sv']. exact (proj1 Ho).
Defined.

Lemma acks_unchecked_witness :
  let '(_, _, sv1) := handle_incoming_message_ack true 9 (sample_id 4) (encode_ack sample_uuid (ack_as_u8 AckRead)) sample_inbox in
  ∃ r, messages (sv_storage sv1) !! hex sample_uuid = Some r ∧ row_status r = "read"%string.
Proof.
  pose proof (acks_unchecked (ControlSender0 := ControlSenderAdapter sample_answer 0) (sample_id 4) sample_uuid 9 10 sample_inbox
    (to_row (received_record (sample_id 3) sample_uuid sample_text 5 6)) eq_refl ltac:(vm_compute; reflexivity)) as Ha.
  destruct (handle_incoming_message_ack true 9 _ _ _) as [[r o] sv1]. destruct (handle_incoming_message_ack true 10 _ _ _) as [[r' o'] sv2].
  destruct Ha as [(row & H1 & H2 & _) _]. exists row. split; [exact H1|exact H2].
Defined.

Definition sample_ids : IdentityState := MkIdentity (MkBroadcast None true 0 ephemeral_default) ∅ sample_directory 0 0.

Lemma identity_hijack_witness :
  db_lookup_x25519 (sample_id 2) (peer_directory (handle_incoming_peer_info true 1 2 (sample_id 2) (x25519_public_from_seed [9]) [109] Routed sample_ids).2)
    = Some (x25519_public_from_seed [9]).
Proof.
  destruct (identity_hijack sample_answer 1 2 (sample_id 2) (sample_id 2) [9] [109] sample_responder sample_initiator (sample_node 1 2 sample_initiator) sample_ids)
    as (f & acts & b' & _ & _ & _ & Hk & _); [vm_compute; reflexivity| |by vm_compute|by apply (bool_decide_unpack _); vm_compute
    |by apply (bool_decide_unpack _); vm_compute|cbn; lia|reflexivity|reflexivity|exact Hk].
  split; [reflexivity|]. split; [reflexivity|]. by left.
Defined.
