(* ===== verification/Tunnel.v ===== *)
(** * Packets in and out of the mesh

    The two sides of the event loop that touch the operating system: a packet
    read from the TUN device and sent into the mesh, and a packet delivered by
    the mesh and written to the TUN device or to the internet
    (crates/pim-daemon/src/app/event_loop.rs), with the gateway's return task
    (crates/pim-daemon/src/gateway_tasks.rs) and the packet helpers of
    crates/pim-daemon/src/net.rs and runtime_config.rs.

    The random draws of the end-to-end encryption, the list of connected peers
    and the address of an IPv6 uplink are arguments. *)

From S2P Require Import Prelude Core MeshAddress Frames Control Stream Fragment Routing Session DataPlane Packet Conntrack Gateway Gateway6.
From S2P Require Import SendBuffer Trust E2e Handshake Reconnect Daemon.

(** ** Packet helpers *)
Definition packet_ip_version (packet : list Z) : option Z := (λ byte, Z.shiftr byte 4) <$> head packet.

(** [None] is the source's [None]; an index out of range does not occur. *)
Definition ipv4_destination (packet : list Z) : outcome GatewayError (option Z) :=
  if bool_decide (length packet < 20)%nat then Ok None else
  let? b := index 0 packet in
  if negb (Z.shiftr b 4 =? 4) then Ok None else
  let? dst := read_addr 16 packet in Ok (Some dst).

(** The predicates of [std::net::Ipv4Addr], on the address as an integer. *)
Definition is_broadcast (ip : Z) : bool := ip =? 0xffffffff.
Definition is_multicast (ip : Z) : bool := (0xe0000000 <=? ip) && (ip <=? 0xefffffff).
Definition is_unspecified (ip : Z) : bool := ip =? 0.
Definition is_loopback (ip : Z) : bool := ip / 2 ^ 24 =? 127.
Definition is_link_local (ip : Z) : bool := ip / 2 ^ 16 =? 0xa9fe.
Definition non_unicast (ip : Z) : bool :=
  is_broadcast ip || is_multicast ip || is_unspecified ip || is_loopback ip || is_link_local ip.

(** [reply.swap(12 + i, 16 + i)] for [i] in [0..4]. *)
Fixpoint swap_addresses (n : nat) (i : nat) (p : list Z) : outcome GatewayError (list Z) :=
  match n with
  | O => Ok p
  | S n =>
    let? a := index (12 + i) p in let? b := index (16 + i) p in
    let? p := index_set (12 + i) b p in let? p := index_set (16 + i) a p in
    swap_addresses n (S i) p
  end.

(** The checksums are computed by loops over words; the header's runs over
    pairs of bytes below [ihl], which is even. *)
Definition icmp_echo_reply (packet : list Z) : outcome GatewayError (option (list Z)) :=
  if bool_decide (length packet < 28)%nat then Ok None else
  let? b := index 0 packet in
  let ihl := (Z.to_nat (Z.land b 0x0f) * 4)%nat in
  if bool_decide (length packet < ihl + 8)%nat then Ok None else
  let? proto := index 9 packet in
  if negb (proto =? 1) then Ok None else
  let? ty := index ihl packet in
  let? code := index (ihl + 1) packet in
  if negb (ty =? 8) || negb (code =? 0) then Ok None else
  let? reply := swap_addresses 4 0 packet in
  let? reply := index_set ihl 0 reply in
  let? reply := index_set (ihl + 2) 0 reply in
  let? reply := index_set (ihl + 3) 0 reply in
  let? icmp_data := slice ihl (length reply) reply in
  let cksum := fold_checksum (ones_complement_sum icmp_data) in
  let? reply := index_set (ihl + 2) (Z.shiftr cksum 8) reply in
  let? reply := index_set (ihl + 3) (Z.land cksum 0xff) reply in
  let? reply := index_set 10 0 reply in
  let? reply := index_set 11 0 reply in
  let? header := slice 0 ihl reply in
  let cksum := fold_checksum (ones_complement_sum header) in
  let? reply := index_set 10 (Z.shiftr cksum 8) reply in
  let? reply := index_set 11 (Z.land cksum 0xff) reply in
  Ok (Some reply).

(** ** The state *)
Record TunnelState := MkTunnel {
  tn_daemon : DaemonState;
  tn_is_gateway : bool;
  tn_mesh_ipv4 : Z;
  tn_gw_engine : option GatewayEngine;
  tn_gw_engine_v6 : option GatewayEngineV6;
  (** whether [gateway_nat_interface] and [internet_link] are set *)
  tn_nat_interface : bool;
  tn_internet_link : bool;
}.

Definition set_daemon d st := MkTunnel d (tn_is_gateway st) (tn_mesh_ipv4 st) (tn_gw_engine st) (tn_gw_engine_v6 st)
  (tn_nat_interface st) (tn_internet_link st).
Definition set_gw_engine g st := MkTunnel (tn_daemon st) (tn_is_gateway st) (tn_mesh_ipv4 st) (Some g) (tn_gw_engine_v6 st)
  (tn_nat_interface st) (tn_internet_link st).
Definition set_gw_engine_v6 g st := MkTunnel (tn_daemon st) (tn_is_gateway st) (tn_mesh_ipv4 st) (tn_gw_engine st) (Some g)
  (tn_nat_interface st) (tn_internet_link st).

Notation tn_routing st := (dm_routing (tn_daemon st)).
Notation tn_self st := (ds_self_id (dm_data (tn_daemon st))).

Inductive TunnelAction :=
| Mesh (a : Action)
| TunWrite (packet : list Z)
| InternetSend (packet : list Z).

Section Tunnel.
Context {A : Aead} {D : Ecdh} {K : HandshakeCrypto}.
Context (answer : NodeId → TransportFrame → SendResult).
Context (iter_routes : gmap NodeId RouteTableEntry → list (NodeId * RouteTableEntry)).

(** [state.sessions.get(&next_hop)] and, when there is one, [send_mesh_data]
    with a TTL of 8. *)
Definition mesh_send (now : Z) (next_hop dst_id : NodeId) (flags : Z) (payload : list Z) (st : DaemonState)
  : option (list Action * DaemonState) :=
  match dm_sessions st !! next_hop with
  | None => None
  | Some session =>
    let '(frames, session, d) := send_mesh_data session (ds_self_id (dm_data st)) dst_id 8 flags payload (dm_data st) in
    let st := on_sessions (insert next_hop session) (set_data d st) in
    Some (send_all answer now (map (λ f, (next_hop, f)) frames) st)
  end.

(** ** TUN to mesh *)

(** The destination node, the next hop and the flags, or [None] to drop. *)
Definition internet_route (connected : list NodeId) (st : DaemonState) : option (NodeId * NodeId * Z) :=
  match nearest_gateway_route (iter_routes (routes (dm_routing st))) (dm_routing st) with
  | Some (gw_id, next_hop) => Some (gw_id, next_hop, IS_INTERNET)
  | None => match connected with [] => None | p :: _ => Some (p, p, IS_INTERNET) end
  end.

Definition tun_route (connected : list NodeId) (packet : list Z) (st : TunnelState)
  : outcome GatewayError (option (NodeId * NodeId * Z)) :=
  match packet_ip_version packet with
  | None => Ok None
  | Some version =>
    if version =? 4 then
      if bool_decide (length packet < 20)%nat then Ok None else
      let? dest_ip := read_addr 16 packet in
      if dest_ip =? tn_mesh_ipv4 st then Ok None else
      match lookup_mesh_ip dest_ip (tn_routing st) with
      | Some (dst_id, next_hop) => Ok (Some (dst_id, next_hop, 0))
      | None => Ok (internet_route connected (tn_daemon st))
      end
    else if version =? 6 then Ok (internet_route connected (tn_daemon st))
    else Ok None
  end.

(** The payload and the flags it travels under. *)
Definition tun_payload (ephemeral nonce : list Z) (dst_id : NodeId) (flags : Z) (packet : list Z) (st : DaemonState)
  : list Z * Z :=
  if flags_contains flags IS_INTERNET then
    match gw_x25519_by_id st !! dst_id with
    | Some gw_pub =>
      match e2e_encrypt ephemeral nonce packet gw_pub with
      | Ok enc => (enc, Z.lor flags IS_E2E)
      | _ => (packet, flags)
      end
    | None => (packet, flags)
    end
  else (packet, flags).

Definition tun_read (now : Z) (connected : list NodeId) (ephemeral nonce packet : list Z) (st : TunnelState)
  : outcome GatewayError (list TunnelAction * TunnelState) :=
  let? route := tun_route connected packet st in
  match route with
  | None => Ok ([], st)
  | Some (dst_id, next_hop, flags) =>
    let '(payload, flags) := tun_payload ephemeral nonce dst_id flags packet (tn_daemon st) in
    match mesh_send now next_hop dst_id flags payload (tn_daemon st) with
    | None => Ok ([], st)
    | Some (acts, d) => Ok (map Mesh acts, set_daemon (set_data (count_forwarded (length packet) (dm_data d)) d) st)
    end
  end.

(** ** Mesh to TUN or internet *)

(** [uplink] is the address the interfaces offer, if any does. *)
Definition ensure_gateway_ipv6_engine (uplink : option Z) (st : TunnelState) : option GatewayEngineV6 * TunnelState :=
  match tn_gw_engine_v6 st with
  | Some gw => (Some gw, st)
  | None =>
    match tn_nat_interface st, uplink with
    | true, Some external_ip =>
      let gw := GatewayEngineV6_new external_ip in (Some gw, set_gw_engine_v6 gw st)
    | _, _ => (None, st)
    end
  end.

(** Whether the packet is for the gateway's own mesh address. *)
Definition dst_local (packet : list Z) (st : TunnelState) : outcome GatewayError bool :=
  match tn_gw_engine st with
  | None => Ok false
  | Some _ =>
    if negb (bool_decide (packet_ip_version packet = Some 4)) then Ok false else
    if bool_decide (length packet < 20)%nat then Ok false else
    let? dst := read_addr 16 packet in Ok (dst =? tn_mesh_ipv4 st)
  end.

Definition echo_to (now : Z) (src : NodeId) (packet : list Z) (st : TunnelState) : outcome GatewayError (list TunnelAction * TunnelState) :=
  let? reply := icmp_echo_reply packet in
  match reply, lookup_route src (tn_routing st) with
  | Some reply, Some next_hop =>
    match mesh_send now next_hop src 0 reply (tn_daemon st) with
    | Some (acts, d) => Ok (map Mesh acts, set_daemon d st)
    | None => Ok ([], st)
    end
  | _, _ => Ok ([], st)
  end.

(** An IPv4 packet for the internet.  The translator always returns
    ([translate_outbound_total]); running out of its fuel counts as a panic. *)
Definition internet_v4 (now : Z) (packet : list Z) (st : TunnelState) : outcome GatewayError (list TunnelAction * TunnelState) :=
  match tn_gw_engine st, tn_internet_link st with
  | Some gw, true =>
    let? dst := ipv4_destination packet in
    if match dst with Some dst => non_unicast dst | None => false end then Ok ([], st) else
    match translate_outbound now packet gw with
    | Some (Ok (_, packet), gw) => Ok ([InternetSend packet], set_gw_engine gw st)
    | Some (Err _, gw) => Ok ([], set_gw_engine gw st)
    | Some (Panic, _) | None => Panic
    end
  | _, _ => Ok ([TunWrite packet], st)
  end.

Definition internet_v6 (now : Z) (uplink : option Z) (src : NodeId) (packet : list Z) (st : TunnelState)
  : outcome GatewayError (list TunnelAction * TunnelState) :=
  let '(gw_v6, st) := ensure_gateway_ipv6_engine uplink st in
  match gw_v6, tn_internet_link st with
  | Some gw, true =>
    match translate_outbound_v6 now src packet gw with
    | (Ok (_, packet), gw) => Ok ([InternetSend packet], set_gw_engine_v6 gw st)
    | (Err _, gw) => Ok ([], set_gw_engine_v6 gw st)
    | (Panic, _) => Panic
    end
  | _, _ => Ok ([], st)
  end.

Definition deliver_packet (now : Z) (uplink : option Z) (src : NodeId) (flags : Z) (ip_payload : list Z) (st : TunnelState)
  : outcome GatewayError (list TunnelAction * TunnelState) :=
  let opened :=
    if tn_is_gateway st && flags_contains flags IS_E2E
    then e2e_decrypt_in_place ip_payload (cfg_seed (dm_config (tn_daemon st))) else Ok ip_payload in
  match opened with
  | Err _ => Ok ([], st)
  | Panic => Panic
  | Ok ip_packet =>
    let? loc := dst_local ip_packet st in
    if (loc : bool) then echo_to now src ip_packet st
    else if flags_contains flags IS_INTERNET then
      match packet_ip_version ip_packet with
      | Some version =>
        if version =? 4 then internet_v4 now ip_packet st
        else if version =? 6 then internet_v6 now uplink src ip_packet st
        else Ok ([], st)
      | None => Ok ([], st)
      end
    else Ok ([TunWrite ip_packet], st)
  end.

(** A data frame: the data plane, then what it delivers or relays. *)
Definition tunnel_frame (now : Z) (uplink : option Z) (from_peer : NodeId) (frame : TransportFrame) (st : TunnelState)
  : outcome GatewayError (list TunnelAction * TunnelState) :=
  match handle_data_frame answer now from_peer frame (tn_daemon st) with
  | Ok (acts, d) =>
    let st := set_daemon d st in
    match acts with
    | [DataOutcome (Deliver src flags packet)] => deliver_packet now uplink src flags packet st
    | acts => Ok (map Mesh acts, st)
    end
  | Err _ => Ok ([], st)
  | Panic => Panic
  end.

Fixpoint tunnel_frames (now : Z) (uplink : option Z) (from_peer : NodeId) (frames : list TransportFrame) (st : TunnelState)
  : outcome GatewayError (list TunnelAction * TunnelState) :=
  match frames with
  | [] => Ok ([], st)
  | frame :: frames =>
    let? (acts, st) := tunnel_frame now uplink from_peer frame st in
    let? (acts', st) := tunnel_frames now uplink from_peer frames st in
    Ok (acts ++ acts', st)
  end.

(** ** The return task: a packet from the internet

    The task looks at the engines once, when it starts: [has_v6] is whether
    there was an IPv6 engine then. *)
Definition gateway_return (now : Z) (has_v6 : bool) (pkt : list Z) (st : TunnelState)
  : outcome GatewayError (list TunnelAction * TunnelState) :=
  let to_mesh next_hop dst_id pkt st :=
    match mesh_send now next_hop dst_id IS_INTERNET pkt (tn_daemon st) with
    | Some (acts, d) => Ok (map Mesh acts, set_daemon d st)
    | None => Ok ([], st)
    end in
  match packet_ip_version pkt with
  | None => Ok ([], st)
  | Some version =>
    if version =? 4 then
      match tn_gw_engine st with
      | None => Ok ([], st)
      | Some gw =>
        if bool_decide (length pkt < 20)%nat then Ok ([], st) else
        match translate_inbound now pkt gw with
        | (Ok (dest_ip, pkt), gw) =>
          let st := set_gw_engine gw st in
          match lookup_mesh_ip dest_ip (tn_routing st) with
          | Some (dst_id, next_hop) => to_mesh next_hop dst_id pkt st
          | None => Ok ([], st)
          end
        | (Err _, gw) => Ok ([], set_gw_engine gw st)
        | (Panic, _) => Panic
        end
      end
    else if version =? 6 then
      match tn_gw_engine_v6 st, has_v6 with
      | Some gw, true =>
        match translate_inbound_v6 now pkt gw with
        | (Ok (dst_id, pkt), gw) =>
          let st := set_gw_engine_v6 gw st in
          match lookup_route dst_id (tn_routing st) with
          | Some next_hop => to_mesh next_hop dst_id pkt st
          | None => Ok ([], st)
          end
        | (Err _, gw) => Ok ([], set_gw_engine_v6 gw st)
        | (Panic, _) => Panic
        end
      | _, _ => Ok ([], st)
      end
    else Ok ([], st)
  end.
End Tunnel.
