(* ===== verification/TunnelProofs.v ===== *)
(** * What a packet meets on its way through the mesh

    The internet access of a client through a gateway and back, packets between
    nodes of the mesh, the gateway's answer to a ping, and what becomes of
    IPv6. *)

From S2P Require Import Prelude Core MeshAddress Frames Control Stream Fragment Routing Session DataPlane Packet Conntrack Gateway Gateway6.
From S2P Require Import SendBuffer Trust E2e Handshake Reconnect Daemon DaemonProofs Link Tunnel.

(** ** What leaves a node *)

(** What is written to the TUN device or to the internet. *)
Definition is_output (a : TunnelAction) : bool := match a with Mesh _ => false | _ => true end.
Notation outputs acts := (List.filter is_output acts).

(** The frames handed to the transport of a peer. *)
Definition frame_to (q : NodeId) (a : TunnelAction) : option TransportFrame :=
  match a with Mesh (Send p f) => if bool_decide (p = q) then Some f else None | _ => None end.
Definition frames_to (q : NodeId) (acts : list TunnelAction) : list TransportFrame := omap (frame_to q) acts.

(** Nothing written and nothing sent. *)
Definition no_frames (acts : list TunnelAction) : Prop := Forall (λ a, a = Mesh (DataOutcome Waiting)) acts.

Lemma no_frames_outputs waits acts : no_frames waits → outputs (waits ++ acts) = outputs acts.
Proof. induction 1 as [|a waits -> _ IH]; [done|]. cbn. exact IH. Qed.
Lemma no_frames_to q waits acts : no_frames waits → frames_to q (waits ++ acts) = frames_to q acts.
Proof. induction 1 as [|a waits -> _ IH]; [done|]. cbn. exact IH. Qed.

Lemma outputs_mesh acts : outputs (map Mesh acts) = [].
Proof. by induction acts. Qed.

Lemma frames_to_send q fs : frames_to q (map Mesh (map (Send q) fs)) = fs.
Proof.
  induction fs as [|f fs IH]; [done|]. cbn [map]. unfold frames_to in *. cbn [omap list_omap frame_to].
  rewrite bool_decide_eq_true_2 by done. by f_equal.
Qed.

(** ** One hop *)
Section Hop.
Context {A : Aead} {D : Ecdh} {K : HandshakeCrypto}.
Context (answer : NodeId → TransportFrame → SendResult).

Lemma tunnel_frame_waiting now uplink from f st d :
  handle_data now from f (dm_data (tn_daemon st)) = Ok (Waiting, d) →
  tunnel_frame answer now uplink from f st = Ok ([Mesh (DataOutcome Waiting)], set_daemon (set_data d (tn_daemon st)) st).
Proof. intros Hh. unfold tunnel_frame, handle_data_frame. by rewrite Hh. Qed.

Lemma tunnel_frame_deliver now uplink from f st src fl p d :
  handle_data now from f (dm_data (tn_daemon st)) = Ok (Deliver src fl p, d) →
  tunnel_frame answer now uplink from f st = deliver_packet answer now uplink src fl p (set_daemon (set_data d (tn_daemon st)) st).
Proof. intros Hh. unfold tunnel_frame, handle_data_frame. by rewrite Hh. Qed.

(** All frames wait but the last, which delivers. *)
Lemma tunnel_frames_deliver now uplink from fs f st es d1 src fl p d2 :
  handle_all now from fs (dm_data (tn_daemon st)) = Ok (es, d1) → Forall (λ e, e = Waiting) es →
  handle_data now from f d1 = Ok (Deliver src fl p, d2) →
  ∃ waits, no_frames waits ∧
    tunnel_frames answer now uplink from (fs ++ [f]) st =
      let? (acts, st') := deliver_packet answer now uplink src fl p (set_daemon (set_data d2 (tn_daemon st)) st) in
      Ok (waits ++ acts, st').
Proof.
  revert st es. induction fs as [|g fs IH]; intros st es Hall Hw Hd; cbn [handle_all app tunnel_frames] in *.
  - injection Hall as <- <-. exists []. split; [by constructor|]. rewrite (tunnel_frame_deliver _ _ _ _ _ _ _ _ _ Hd).
    destruct (deliver_packet _ _ _ _ _ _ _) as [[acts st']| |]; cbn [obind]; [|done..]. by rewrite app_nil_r.
  - apply obind_Ok_inv in Hall as ([e dd] & Hg & Hall). apply obind_Ok_inv in Hall as ([es' dd'] & Hall & [= <- <-]).
    apply Forall_cons in Hw as [-> Hw]. rewrite (tunnel_frame_waiting _ _ _ _ _ _ Hg). cbn [obind].
    destruct (IH (set_daemon (set_data dd (tn_daemon st)) st) es' Hall Hw Hd) as (waits & Hout & ->).
    exists (Mesh (DataOutcome Waiting) :: waits). split; [by constructor|].
    replace (set_daemon (set_data d2 (tn_daemon (set_daemon (set_data dd (tn_daemon st)) st))) (set_daemon (set_data dd (tn_daemon st)) st))
      with (set_daemon (set_data d2 (tn_daemon st)) st) by done.
    destruct (deliver_packet _ _ _ _ _ _ _) as [[acts st']| |]; done.
Qed.

End Hop.

Section Proofs.
Context {A : Aead} {D : Ecdh} {K : HandshakeCrypto} {HA : LawfulAead A} {HT : TotalAead A} {HD : LawfulEcdh D}.
Context (answer answer' : NodeId → TransportFrame → SendResult).
Context (iter_routes : gmap NodeId RouteTableEntry → list (NodeId * RouteTableEntry)).

(** A packet handed to [mesh_send] for a neighbour: whatever way the stream
    cuts its frames, the neighbour ends in [deliver_packet] with that packet;
    and the link back is as it was. *)
Lemma hop now now' uplink flags payload (a : DaemonState) (b : TunnelState) :
  let self_a := ds_self_id (dm_data a) in let self_b := tn_self b in
  half_link (dm_data a) (dm_data (tn_daemon b)) →
  from_bits_truncate flags = flags → flags_contains flags IS_CONTROL = false → flags_contains flags IS_FRAGMENT = false →
  Z.of_nat (length payload) < 2 ^ 16 →
  ∃ fs a' d fl, mesh_send answer now self_b self_b flags payload a = Some (map (Send self_b) fs, a') ∧
    sent self_b a a' ∧ only_from self_a (dm_data (tn_daemon b)) d ∧ (fl = flags ∨ fl = Z.lor flags IS_FRAGMENT) ∧
    (half_link (dm_data (tn_daemon b)) (dm_data a) → half_link d (dm_data a')) ∧
    ∀ chunks, carries chunks fs →
    ∃ waits, no_frames waits ∧
      tunnel_frames answer' now' uplink self_a (read_task chunks []).1 b =
        let? (acts, st') := deliver_packet answer' now' uplink self_a fl payload (set_daemon (set_data d (tn_daemon b)) b) in
        Ok (waits ++ acts, st').
Proof using HA HT.
  intros self_a self_b [[Hia Hib] (s & r & Hs & Hr & Hp & Hc0 & Hc) Hfr Hbuf] Hfl Hctl Hfrag Hlen.
  destruct (send_mesh_data_arrives now' self_a self_a self_b 8 flags payload s r (dm_data a) (dm_data (tn_daemon b)))
    as (fs & f & s' & snd' & r' & es & rcv1 & rcv2 & fl & Hsend & Hfit & Hss & Hsr & Hsi & Hsra & Hall & Hw & Hd & Hfl' & Hof & Hr' & Hp' & Hback);
    try done.
  set (a1 := on_sessions (insert self_b s') (set_data snd' a)).
  destruct (send_all_sends answer now self_b (fs ++ [f]) a1) as (a' & Hsa & Hob).
  exists (fs ++ [f]), a', rcv2, fl. pose proof (only_buffer_fields _ _ Hob) as (Hdd & _ & _ & _ & Hcf & _).
  split_and!; try done.
  - unfold mesh_send. fold self_b in Hs. rewrite Hs. fold self_a. rewrite Hsend. fold a1. by rewrite Hsa.
  - destruct Hob as (bb & dr & ->). split; cbn; try done. intros p Hpq. rewrite lookup_insert_ne by done. by rewrite Hss.
  - intros [_ (s2 & r2 & Hs2 & Hr2 & Hp2 & Hc2 & Hc3) Hfr2 Hbuf2]. rewrite Hdd. destruct Hof as [Ho1 Ho2 Ho3 Ho4].
    assert (r2 = s) as -> by (unfold self_b in Hs; congruence). assert (s2 = r) as -> by (unfold self_a in Hr; congruence).
    destruct Hback as [Hb1 Hb2]. split; rewrite ?Ho1, ?Ho2; cbn [a1 on_sessions set_data dm_data set_sessions ds_self_id ds_sessions ds_reassemblers]; rewrite ?Hsi, ?Hsra.
    + done.
    + exists r', s'. split_and!; [done|by rewrite lookup_insert_eq| |by rewrite Hb2..]. unfold paired in *. by rewrite Hb1, Hb2.
    + done.
    + done.
  - intros chunks Hch. rewrite (read_task_frames (fs ++ [f]) chunks Hfit Hch). cbn [fst].
    by eapply tunnel_frames_deliver.
Qed.
(** ** Packets on their way to the internet *)
Lemma ip_protocol_version p proto : ip_protocol p = Ok proto → packet_ip_version p = Some 4 ∧ (20 ≤ length p)%nat.
Proof.
  intros Hp. split; [|by eapply ip_protocol_length]. unfold ip_protocol in Hp. case_bool_decide; [done|].
  destruct p as [|b p]; [cbn in *; unfold IP_HEADER_MIN in *; lia|]. cbn [index lookup list_lookup obind] in Hp.
  unfold index in Hp. cbn [lookup list_lookup obind] in Hp. destruct (Z.eqb_spec (Z.shiftr b 4) 4) as [Hv|]; [|done].
  unfold packet_ip_version. cbn. by rewrite Hv.
Qed.

Lemma ipv4_destination_read p dst :
  packet_ip_version p = Some 4 → (20 ≤ length p)%nat → read_addr 16 p = Ok dst → ipv4_destination p = Ok (Some dst).
Proof.
  intros Hv Hl Hd. unfold ipv4_destination. rewrite bool_decide_eq_false_2 by lia.
  destruct p as [|b p]; [done|]. cbn in Hv. injection Hv as Hv. unfold index. cbn [lookup list_lookup obind].
  rewrite Hv, Hd. done.
Qed.

Lemma parse_flow_protocol p proto src port : parse_flow p = Ok (proto, src, port) → ip_protocol p = Ok proto.
Proof.
  unfold parse_flow. intros (pr & Hpr & (ihl & _ & (a & _ & (pt & _ & [= <- _ _])%obind_Ok_inv)%obind_Ok_inv)%obind_Ok_inv)%obind_Ok_inv. done.
Qed.

Lemma length_e2e_encrypt ephemeral nonce p pub out :
  length nonce = 12%nat → e2e_encrypt ephemeral nonce p pub = Ok out → length out = (60 + length p)%nat.
Proof using HA HD.
  unfold e2e_encrypt. destruct (aead_seal _ _ _) as [[ct tag]|] eqn:Es; [|done]. intros Hn [= <-].
  destruct (aead_seal_length _ _ _ _ _ Es) as [Hc Ht]. rewrite !length_app, public_length. lia.
Qed.

(** What the client sends, the gateway opens, whether it is sealed or not. *)
Lemma tun_payload_opens ephemeral nonce dst p st seed payload fl :
  length nonce = 12%nat →
  (∀ pub, gw_x25519_by_id st !! dst = Some pub → pub = x25519_public_from_seed seed) →
  tun_payload ephemeral nonce dst IS_INTERNET p st = (payload, fl) →
  (length payload ≤ 60 + length p)%nat ∧
  ((fl = IS_INTERNET ∧ payload = p) ∨ (fl = Z.lor IS_INTERNET IS_E2E ∧ e2e_decrypt_in_place payload seed = Ok p)).
Proof using HA HD.
  intros Hn Hkey. unfold tun_payload. change (flags_contains IS_INTERNET IS_INTERNET) with true. cbv iota.
  destruct (gw_x25519_by_id st !! dst) as [pub|]; [|by intros [= <- <-]; split; [lia|left]].
  specialize (Hkey pub eq_refl) as ->.
  destruct (e2e_encrypt ephemeral nonce p _) as [enc| |] eqn:He; intros [= <- <-]; [|by split; [lia|left]..].
  split; [by erewrite length_e2e_encrypt|]. right. split; [done|].
  rewrite (proj1 (e2e_in_place_agrees enc seed)). by eapply e2e_opens.
Qed.

(** What travels: the packet sealed for the gateway's key, or the packet itself
    while that key is not known. *)
Definition sealed_for (ephemeral nonce : list Z) (gw : NodeId) (p : list Z) (st : DaemonState) (payload : list Z) (fl : Z) : Prop :=
  match gw_x25519_by_id st !! gw with
  | Some pub => e2e_encrypt ephemeral nonce p pub = Ok payload ∧ fl = Z.lor IS_INTERNET IS_E2E
  | None => payload = p ∧ fl = IS_INTERNET
  end.

Lemma tun_payload_sealed ephemeral nonce gw p st payload fl :
  Z.of_nat (length p) < 2 ^ 20 →
  tun_payload ephemeral nonce gw IS_INTERNET p st = (payload, fl) → sealed_for ephemeral nonce gw p st payload fl.
Proof using HT.
  intros Hlen. unfold tun_payload, sealed_for. change (flags_contains IS_INTERNET IS_INTERNET) with true. cbv iota.
  destruct (gw_x25519_by_id st !! gw) as [pub|]; [|by intros [= <- <-]]. unfold e2e_encrypt.
  destruct (aead_seal_total (derive_e2e_cipher (diffie_hellman ephemeral pub)) nonce p Hlen) as [[ct tag] ->]. by intros [= <- <-].
Qed.

Lemma deliver_internet_v4 now uplink src fl payload p dst seed st :
  tn_is_gateway st = true → is_Some (tn_gw_engine st) → cfg_seed (dm_config (tn_daemon st)) = seed →
  packet_ip_version p = Some 4 → (20 ≤ length p)%nat → read_addr 16 p = Ok dst → dst ≠ tn_mesh_ipv4 st →
  (fl = IS_INTERNET ∧ payload = p) ∨ (fl = Z.lor IS_INTERNET IS_E2E ∧ e2e_decrypt_in_place payload seed = Ok p) →
  ∀ fl', fl' = fl ∨ fl' = Z.lor fl IS_FRAGMENT →
  deliver_packet answer now uplink src fl' payload st = internet_v4 now p st.
Proof.
  intros Hgw [g Hg] Hseed Hv Hl Hdst Hne Hop fl' Hfl'. unfold deliver_packet. rewrite Hgw, Hseed.
  assert (Hopen : (if true && flags_contains fl' IS_E2E then e2e_decrypt_in_place payload seed else Ok payload) = Ok p).
  { destruct Hop as [[-> ->]|[-> Hd]], Hfl' as [-> | ->]; done. }
  assert (Hint : flags_contains fl' IS_INTERNET = true) by (destruct Hop as [[-> ->]|[-> Hd]], Hfl' as [-> | ->]; done).
  rewrite Hopen. unfold dst_local. rewrite Hg, Hv, bool_decide_eq_true_2, bool_decide_eq_false_2 by (done || lia). cbn [negb].
  rewrite Hdst. cbn [obind]. rewrite (proj2 (Z.eqb_neq _ _)) by done. cbv iota. by rewrite Hint.
Qed.

(** A packet for the gateway's own address is answered. *)
Lemma deliver_to_gateway now uplink src p st g fl :
  tn_gw_engine st = Some g → packet_ip_version p = Some 4 → (20 ≤ length p)%nat → read_addr 16 p = Ok (tn_mesh_ipv4 st) →
  flags_contains fl IS_E2E = false → deliver_packet answer now uplink src fl p st = echo_to answer now src p st.
Proof.
  intros Hg Hv Hl Hd Hfl. unfold deliver_packet. rewrite Hfl, andb_false_r. unfold dst_local.
  rewrite Hg, Hv, bool_decide_eq_true_2, bool_decide_eq_false_2 by (done || lia). cbn [negb]. rewrite Hd. cbn [obind]. by rewrite Z.eqb_refl.
Qed.

(** A client writes what comes from the internet to its TUN device. *)
Lemma deliver_client_v4 now uplink src fl p st :
  tn_is_gateway st = false → tn_gw_engine st = None → packet_ip_version p = Some 4 →
  deliver_packet answer now uplink src fl p st = Ok ([TunWrite p], st).
Proof.
  intros Hgw Hg Hv. unfold deliver_packet, dst_local, internet_v4. rewrite Hgw, Hg. cbn [andb obind]. rewrite Hv.
  by destruct (flags_contains fl IS_INTERNET).
Qed.

(** ** The gateway's answer to a ping *)
Lemma index_set_app_r {E} h s k v :
  (k < length s)%nat → index_set (E:=E) (length h + k) v (h ++ s) = Ok (h ++ <[k := v]> s).
Proof.
  intros Hk. unfold index_set. rewrite bool_decide_eq_true_2 by (rewrite length_app; lia). by rewrite insert_app_r.
Qed.
Lemma index_set_app_l {E} h s k v :
  (k < length h)%nat → index_set (E:=E) k v (h ++ s) = Ok (<[k := v]> h ++ s).
Proof.
  intros Hk. unfold index_set. rewrite bool_decide_eq_true_2 by (rewrite length_app; lia). by rewrite insert_app_l.
Qed.
Lemma index_set_head {E} h x s v : index_set (E:=E) (length h) v (h ++ x :: s) = Ok (h ++ v :: s).
Proof. pose proof (index_set_app_r (E:=E) h (x :: s) 0 v) as H. rewrite Nat.add_0_r in H. apply H. cbn. lia. Qed.

Definition swapped (h : list Z) : list Z := take 12 h ++ take 4 (drop 16 h) ++ take 4 (drop 12 h) ++ drop 20 h.

Tactic Notation "spell" ident(h) int_or_var(n) := do n (destruct h as [|? h]; [cbn [length] in *; lia|]).

Lemma swap_addresses_app h s : (20 ≤ length h)%nat → swap_addresses 4 0 (h ++ s) = Ok (swapped h ++ s).
Proof. intros Hl. spell h 20. reflexivity. Qed.

(** A checksum split over two bytes. *)
Lemma checksum_bytes c : u16_ok c → be_value [Z.shiftr c 8; Z.land c 0xff] = c ∧ u8_ok (Z.shiftr c 8) ∧ u8_ok (Z.land c 0xff).
Proof.
  intros [H0 H1]. change 0xff with (Z.ones 8). rewrite Z.land_ones, Z.shiftr_div_pow2 by lia. unfold be_value, u8_ok. cbn [fold_left].
  pose proof (Z.div_mod c (2 ^ 8) ltac:(lia)). pose proof (Z.mod_pos_bound c (2 ^ 8) ltac:(lia)).
  assert (0 ≤ c / 2 ^ 8 < 256) by (split; [apply Z.div_pos; lia|apply Z.div_lt_upper_bound; lia]). lia.
Qed.

(** Storing the checksum of a block in the two bytes that were zero. *)
Lemma stored_checksum n a b c :
  length a = (n + n)%nat → bytes_ok (a ++ 0 :: 0 :: b) → Z.of_nat (length (a ++ 0 :: 0 :: b)) < 2 ^ 16 →
  c = fold_checksum (ones_complement_sum (a ++ 0 :: 0 :: b)) →
  fold_checksum (ones_complement_sum (a ++ Z.shiftr c 8 :: Z.land c 0xff :: b)) = 0.
Proof.
  intros Ha Hb Hl ->. pose proof (ones_complement_sum_bound _ Hb) as [H0 H1]. set (l := a ++ 0 :: 0 :: b) in *.
  assert (Hu : u32_ok (ones_complement_sum l)) by (unfold u32_ok; lia).
  destruct (checksum_bytes _ (fold_checksum_range _ Hu)) as (Hck & _).
  rewrite (sum_app n) by done. cbn [ones_complement_sum]. rewrite Hck.
  assert (Hs : ones_complement_sum l = ones_complement_sum a + ones_complement_sum b).
  { unfold l. rewrite (sum_app n) by done. cbn [ones_complement_sum]. unfold be_value. cbn [fold_left]. lia. }
  replace (_ + _) with (ones_complement_sum l + fold_checksum (ones_complement_sum l)) by lia.
  apply fold_checksum_verifies; lia.
Qed.

(** The header with the addresses swapped and its checksum stored. *)
Lemma echo_header h :
  (20 ≤ length h)%nat → bytes_ok h → Z.of_nat (length h) < 2 ^ 16 →
  let hz := <[11%nat := 0]> (<[10%nat := 0]> (swapped h)) in
  let c := fold_checksum (ones_complement_sum hz) in
  let h' := <[11%nat := Z.land c 0xff]> (<[10%nat := Z.shiftr c 8]> hz) in
  length h' = length h ∧ fold_checksum (ones_complement_sum h') = 0 ∧
  (∀ s s', read_addr 12 (h' ++ s') = read_addr 16 (h ++ s) ∧ read_addr 16 (h' ++ s') = read_addr 12 (h ++ s)) ∧
  ∀ i, (i < 10 ∨ 20 ≤ i)%nat → h' !! i = h !! i.
Proof.
  intros Hl Hb Hmax. assert (Hsb : bytes_ok (swapped h)).
  { unfold swapped, bytes_ok. rewrite !Forall_app. split_and!; auto using Forall_take, Forall_drop. }
  spell h 20. cbn [swapped take drop app insert list_insert] in *. split; [done|]. split; [|split].
  - match goal with |- context [ones_complement_sum (?x0 :: ?x1 :: ?x2 :: ?x3 :: ?x4 :: ?x5 :: ?x6 :: ?x7 :: ?x8 :: ?x9 :: Z.shiftr ?c 8 :: _ :: ?r)] =>
      apply (stored_checksum 5 [x0; x1; x2; x3; x4; x5; x6; x7; x8; x9] r c) end; [done| |done|done].
    unfold bytes_ok in *. cbn [app]. rewrite !Forall_cons in *. assert (u8_ok 0) by (unfold u8_ok; lia). tauto.
  - done.
  - intros i Hi. do 10 (destruct i as [|i]; [done|]). do 10 (destruct i as [|i]; [lia|]). done.
Qed.

Record echo_of (ihl : nat) (p r : list Z) : Prop := {
  ec_length : length r = length p;
  ec_src : read_addr 12 r = read_addr 16 p;
  ec_dst : read_addr 16 r = read_addr 12 p;
  ec_type : r !! ihl = Some 0;
  ec_header : fold_checksum (ones_complement_sum (take ihl r)) = 0;
  ec_icmp : fold_checksum (ones_complement_sum (drop ihl r)) = 0;
  ec_rest : ∀ i, (i < 10 ∨ (20 ≤ i < ihl) ∨ i = ihl + 1 ∨ ihl + 4 ≤ i)%nat → r !! i = p !! i;
}.

Lemma header_short h : header_ok h → Z.of_nat (length h) ≤ 60.
Proof.
  intros (_ & _ & b & _ & -> & _). change 15 with (Z.ones 4). rewrite Z.land_ones by lia.
  pose proof (Z.mod_pos_bound b (2 ^ 4)). lia.
Qed.

Lemma echo_reply_spec h s :
  header_ok h → h !! 9%nat = Some 1 → bytes_ok s → (8 ≤ length s)%nat → Z.of_nat (length s) < 2 ^ 16 →
  s !! 0%nat = Some 8 → s !! 1%nat = Some 0 →
  ∃ r, icmp_echo_reply (h ++ s) = Ok (Some r) ∧ echo_of (length h) (h ++ s) r.
Proof.
  intros Hok H9 Hsb Hs Hmax H0 H1. pose proof (header_short h Hok) as H60. destruct Hok as (Hl & Hb & b & Hb0 & Hihl & _).
  unfold icmp_echo_reply. rewrite length_app, bool_decide_eq_false_2 by lia.
  rewrite (index_lookup 0 _ b) by (by rewrite lookup_app_l by lia). cbn [obind]. rewrite <- Hihl.
  rewrite bool_decide_eq_false_2 by lia. rewrite (index_lookup 9 _ 1) by (by rewrite lookup_app_l by lia). cbn [obind Z.eqb Pos.eqb negb].
  rewrite (index_lookup (length h) _ 8) by (by rewrite lookup_app_r, Nat.sub_diag by lia).
  rewrite (index_lookup (length h + 1) _ 0) by (by rewrite lookup_app_r, Nat.add_comm, Nat.add_sub by lia).
  cbn [obind Z.eqb Pos.eqb negb orb]. rewrite swap_addresses_app by done. cbn [obind].
  assert (Hsl : length (swapped h) = length h) by (unfold swapped; rewrite !length_app, !length_take, !length_drop; lia).
  destruct s as [|x0 [|x1 [|c1 [|c2 rest]]]]; [cbn in Hs; lia..|]. cbn in H0, H1. injection H0 as ->. injection H1 as ->. unfold bytes_ok in Hsb. rewrite !Forall_cons in Hsb.
  rewrite <- Hsl. rewrite index_set_head. cbn [obind]. rewrite index_set_app_r by (cbn; lia). cbn [obind insert list_insert].
  rewrite index_set_app_r by (cbn; lia). cbn [obind insert list_insert].
  rewrite slice_Ok by (rewrite ?length_app; cbn [length]; lia). rewrite drop_app_length, take_ge by (rewrite length_app; lia). cbn [obind].
  rewrite index_set_app_r by (cbn; lia). cbn [obind insert list_insert]. rewrite index_set_app_r by (cbn; lia). cbn [obind insert list_insert].
  set (seg := 0 :: 0 :: _ :: _ :: rest).
  rewrite index_set_app_l by lia. cbn [obind]. rewrite index_set_app_l by (rewrite length_insert; lia). cbn [obind].
  set (hz := <[11%nat := 0]> (<[10%nat := 0]> (swapped h))). assert (Hzl : length hz = length h) by (unfold hz; rewrite !length_insert; lia).
  rewrite slice_Ok by (rewrite ?length_app; lia). rewrite drop_0, Nat.sub_0_r, Hsl, <- Hzl, take_app_length. cbn [obind].
  rewrite index_set_app_l by lia. cbn [obind]. rewrite index_set_app_l by (rewrite length_insert; lia). cbn [obind].
  destruct (echo_header h) as (Hl' & Hfold & Haddr & Hsame); [done|done|lia|].
  eexists. split; [reflexivity|]. rewrite Hzl. fold hz in Hl', Hfold, Haddr, Hsame. set (h' := <[11%nat := _]> _) in *.
  split; rewrite ?length_app.
  - cbn [seg length]. lia.
  - apply Haddr.
  - apply Haddr.
  - rewrite lookup_app_r by lia. by rewrite Hl', Nat.sub_diag.
  - by rewrite <- Hl', take_app_length.
  - rewrite <- Hl', drop_app_length. apply (stored_checksum 1 [0; 0] rest); [done| |cbn [app length] in *; lia|done].
    unfold bytes_ok. cbn [app]. rewrite !Forall_cons. tauto.
  - intros i Hi. destruct (decide (i < length h)%nat) as [Hlt|Hge].
    + rewrite !lookup_app_l by lia. apply Hsame. lia.
    + rewrite !lookup_app_r by lia. rewrite Hl'. destruct (i - length h)%nat as [|[|[|[|k]]]] eqn:E; [lia|done|lia|lia|done].
Qed.
End Proofs.

(** ** The theorems *)
Section Theorems.
Context {A : Aead} {D : Ecdh} {K : HandshakeCrypto} {HA : LawfulAead A} {HT : TotalAead A} {HD : LawfulEcdh D}.
Context (answer answer' : NodeId → TransportFrame → SendResult).
Context (iter_routes : gmap NodeId RouteTableEntry → list (NodeId * RouteTableEntry)).

(** The reply's way back. *)
Lemma return_to_client now2 now3 up' proto x src port g1 g2 r has_v6 (c w : TunnelState) :
  half_link (dm_data (tn_daemon w)) (dm_data (tn_daemon c)) → tn_is_gateway c = false → tn_gw_engine c = None →
  tn_gw_engine w = Some g2 → lookup_mesh_ip src (tn_routing w) = Some (tn_self c, tn_self c) →
  conntrack_ok (inner g1) → u32_ok src → u16_ok port →
  (∃ e, forward (inner g1) !! {| ck_proto := proto; ck_orig_src := src; ck_orig_port := port |} = Some e ∧ ce_ext_port e = x) →
  rtc traffic_step g1 g2 → packet_wf r → ip_protocol r = Ok proto → transport_dst_port r proto = Ok x →
  ∃ acts2 w2, gateway_return answer' now2 has_v6 r w = Ok (acts2, w2) ∧
    ∀ chunks', carries chunks' (frames_to (tn_self c) acts2) →
    ∃ acts3 c2 r' ihl, tunnel_frames answer now3 up' (tn_self w) (read_task chunks' []).1 c = Ok (acts3, c2) ∧
      outputs acts3 = [TunWrite r'] ∧ rewritten 16 2 r r' ihl proto src port.
Proof using HA HT.
  intros Hl Hcg Hce Hwg Hlook Hok Hsrc Hport (e & He & Hx) Htr Hwf Hpr Hdst.
  destruct (inbound_translated now2 r proto x g1 g2 {| ck_proto := proto; ck_orig_src := src; ck_orig_port := port |} e)
    as (r' & ihl & Hin & Hrw); try done.
  cbn [ck_orig_src ck_orig_port] in Hin, Hrw.
  destruct (ip_protocol_version r proto Hpr) as [Hv Hlen]. destruct (ip_protocol_version r' proto) as [Hv' _]; [apply Hrw|].
  destruct (translate_inbound now2 r g2) as [res g3] eqn:Et. cbn [fst] in Hin. subst res.
  destruct (hop answer' answer now2 now3 up' IS_INTERNET r' (tn_daemon w) c Hl) as (fs & d' & d & fl & Hsend & _ & _ & _ & _ & Hrecv);
    [done..|rewrite (rw_length _ _ _ _ _ _ _ _ Hrw); apply Hwf|].
  eexists _, _. split.
  - unfold gateway_return. rewrite Hv, Hwg. cbn [Z.eqb Pos.eqb]. rewrite bool_decide_eq_false_2 by lia. rewrite Et.
    change (tn_routing (set_gw_engine g3 w)) with (tn_routing w). rewrite Hlook.
    change (tn_daemon (set_gw_engine g3 w)) with (tn_daemon w). rewrite Hsend. reflexivity.
  - intros chunks' Hch. rewrite frames_to_send in Hch. destruct (Hrecv _ Hch) as (waits & Hout & ->).
    rewrite deliver_client_v4 by done. cbn [obind]. eexists _, _, r', ihl. split; [done|]. split; [|done].
    by rewrite no_frames_outputs.
Qed.

(** C3: Internet access, there and back: a TCP, UDP or ICMP packet over IPv4
    for a unicast address, read from a client's TUN device, whose route is a
    neighbouring gateway, travels as its end-to-end encryption for the
    gateway's key when that key is known and in clear when it is not,
    fragmented if need be, sealed for the session and carried by the stream;
    the gateway opens it, translates it and emits exactly one packet, with its
    own address and a port [x], unless all its 30000 ports are taken.
    Whatever traffic flows meanwhile, a reply to [x] is translated back, sent to
    the client over the mesh, and written to the client's TUN device with the
    client's own address and port. *)
Theorem internet_roundtrip now now1 now2 now3 up up' connected ephemeral nonce p proto src port dst (c w : TunnelState) g has_v6 :
  linked (dm_data (tn_daemon c)) (dm_data (tn_daemon w)) →
  tn_is_gateway c = false → tn_gw_engine c = None →
  tn_is_gateway w = true → tn_gw_engine w = Some g → tn_internet_link w = true → gateway_reachable g → u32_ok (external_ip g) →
  packet_wf p → Z.of_nat (length p) + 60 < 2 ^ 16 → parse_flow p = Ok (proto, src, port) → read_addr 16 p = Ok dst →
  non_unicast dst = false → dst ≠ tn_mesh_ipv4 w →
  tun_route iter_routes connected p c = Ok (Some (tn_self w, tn_self w, IS_INTERNET)) →
  length nonce = 12%nat →
  (∀ pub, gw_x25519_by_id (tn_daemon c) !! tn_self w = Some pub → pub = x25519_public_from_seed (cfg_seed (dm_config (tn_daemon w)))) →
  lookup_mesh_ip src (tn_routing w) = Some (tn_self c, tn_self c) →
  ∃ acts c1, tun_read answer iter_routes now connected ephemeral nonce p c = Ok (acts, c1) ∧ outputs acts = [] ∧
    (∃ payload fl sends d, mesh_send answer now (tn_self w) (tn_self w) fl payload (tn_daemon c) = Some (sends, d) ∧
      acts = map Mesh sends ∧ sealed_for ephemeral nonce (tn_self w) p (tn_daemon c) payload fl) ∧
    ∀ chunks, carries chunks (frames_to (tn_self w) acts) →
    ∃ acts1 w1 g1, tunnel_frames answer' now1 up (tn_self c) (read_task chunks []).1 w = Ok (acts1, w1) ∧ tn_gw_engine w1 = Some g1 ∧
      ((outputs acts1 = [] ∧ ∀ y, pool_range y → ∃ k e, forward (inner g) !! k = Some e ∧ ce_ext_port e = y) ∨
       ∃ x p', outputs acts1 = [InternetSend p'] ∧ parse_flow p' = Ok (proto, external_ip g, x) ∧
        ∀ g2 r, rtc traffic_step g1 g2 → packet_wf r → ip_protocol r = Ok proto → transport_dst_port r proto = Ok x →
        ∃ acts2 w2, gateway_return answer' now2 has_v6 r (set_gw_engine g2 w1) = Ok (acts2, w2) ∧
          ∀ chunks', carries chunks' (frames_to (tn_self c) acts2) →
          ∃ acts3 c2 r' ihl, tunnel_frames answer now3 up' (tn_self w) (read_task chunks' []).1 c1 = Ok (acts3, c2) ∧
            outputs acts3 = [TunWrite r'] ∧ rewritten 16 2 r r' ihl proto src port).
Proof using HA HT HD.
  intros [Hl1 Hl2] Hcg Hce Hwg Hwe Hlink Hreach Hext Hwf Hlen Hpf Hdst Huni Hne Hroute Hn Hkey Hlook.
  pose proof (parse_flow_bounds p proto src port (proj1 Hwf) Hpf) as [Hsrc Hport].
  destruct (ip_protocol_version p proto) as [Hv H20]; [by eapply parse_flow_protocol|].
  destruct (tun_payload ephemeral nonce (tn_self w) IS_INTERNET p (tn_daemon c)) as [payload fl] eqn:Etp.
  destruct (tun_payload_opens ephemeral nonce (tn_self w) p (tn_daemon c) (cfg_seed (dm_config (tn_daemon w))) payload fl Hn Hkey Etp) as [Hpl Hop].
  destruct (hop answer answer' now now1 up fl payload (tn_daemon c) w Hl1) as (fs & c' & d & fl' & Hsend & Hsent & Hof & Hfl' & Hback & Hrecv);
    [by destruct Hop as [[-> _]|[-> _]]..|lia|].
  eexists _, _. split_and!.
  { unfold tun_read. rewrite Hroute. cbn [obind]. rewrite Etp, Hsend. reflexivity. }
  { apply outputs_mesh. }
  { exists payload, fl, (map (Send (tn_self w)) fs), c'. split; [exact Hsend|]. split; [done|]. by apply tun_payload_sealed; [lia|]. }
  rewrite frames_to_send. intros chunks Hch. destruct (Hrecv _ Hch) as (waits & Hout & ->).
  rewrite (deliver_internet_v4 answer' now1 up (tn_self c) fl payload p dst (cfg_seed (dm_config (tn_daemon w)))) by eauto.
  set (w' := set_daemon (set_data d (tn_daemon w)) w). unfold internet_v4. change (tn_gw_engine w') with (tn_gw_engine w).
  change (tn_internet_link w') with (tn_internet_link w). rewrite Hwe, Hlink.
  rewrite (ipv4_destination_read p dst) by done. cbn [obind]. rewrite Huni. cbv iota.
  destruct (outbound_translated now1 p proto src port g Hreach Hwf Hpf Hext) as (res & g' & Ht & Hres). rewrite Ht.
  destruct res as [[x p']|e|]; [|destruct Hres as [_ Hfull]|done].
  - destruct Hres as (_ & Hp' & Hrev). cbn [obind]. eexists _, _, g'. split; [done|]. split; [done|]. right.
    exists x, p'. split; [by rewrite no_frames_outputs|]. split; [done|]. intros g2 r Htr Hwfr Hpr Hdr.
    destruct (outbound_flow now1 p proto src port g x p' g') as [Hok He]; try done.
    destruct (return_to_client now2 now3 up' proto x src port g' g2 r has_v6
      (set_daemon (set_data (count_forwarded (length p) (dm_data c')) c') c) (set_gw_engine g2 (set_gw_engine g' w'))) as (acts2 & w2 & Hr2 & Hall);
      try done.
    + apply half_link_count, Hback, Hl2.
    + change (tn_routing (set_gw_engine g2 (set_gw_engine g' w'))) with (ds_routing d). rewrite (of_routing _ _ _ Hof), Hlook.
      cbn. by rewrite (sn_self _ _ _ Hsent).
    + exists acts2, w2. split; [done|]. revert Hall.
      change (tn_self (set_gw_engine g2 (set_gw_engine g' w'))) with (ds_self_id d). rewrite (of_self _ _ _ Hof).
      cbn [tn_daemon set_daemon set_data dm_data count_forwarded ds_self_id]. by rewrite (sn_self _ _ _ Hsent).
  - cbn [obind]. eexists _, _, g'. split; [done|]. split; [done|]. left. by rewrite no_frames_outputs.
Qed.

(** Pinging the gateway: an ICMP echo request for the gateway's own mesh
    address, read from a client's TUN device, comes back to it as the echo
    reply: addresses swapped, type zero, identifier, sequence number and payload
    as they were, both checksums valid; and nothing goes to the internet. *)
Theorem gateway_ping now now1 now2 up up' connected ephemeral nonce p ihl (c w : TunnelState) g :
  linked (dm_data (tn_daemon c)) (dm_data (tn_daemon w)) →
  tn_is_gateway c = false → tn_gw_engine c = None → tn_gw_engine w = Some g →
  packet_wf p → ip_protocol p = Ok 1 → ip_ihl p = Ok ihl → (ihl + 8 ≤ length p)%nat →
  p !! ihl = Some 8 → p !! (ihl + 1)%nat = Some 0 → read_addr 16 p = Ok (tn_mesh_ipv4 w) →
  tun_route iter_routes connected p c = Ok (Some (tn_self w, tn_self w, 0)) →
  lookup_route (tn_self c) (tn_routing w) = Some (tn_self c) →
  ∃ acts c1, tun_read answer iter_routes now connected ephemeral nonce p c = Ok (acts, c1) ∧ outputs acts = [] ∧
    ∀ chunks, carries chunks (frames_to (tn_self w) acts) →
    ∃ acts1 w1, tunnel_frames answer' now1 up (tn_self c) (read_task chunks []).1 w = Ok (acts1, w1) ∧ outputs acts1 = [] ∧
      ∀ chunks', carries chunks' (frames_to (tn_self c) acts1) →
      ∃ acts2 c2 r, tunnel_frames answer now2 up' (tn_self w) (read_task chunks' []).1 c1 = Ok (acts2, c2) ∧
        outputs acts2 = [TunWrite r] ∧ echo_of ihl p r.
Proof using HA HT.
  intros [Hl1 Hl2] Hcg Hce Hwe Hwf Hpr Hihl Hlen H8 H0 Hdst Hroute Hback.
  destruct (ip_protocol_version p 1 Hpr) as [Hv H20].
  destruct (split_packet p 1 ihl Hwf Hpr Hihl) as (h & s & Hp & Hh & Hok & H9 & Hsb); [lia|].
  destruct Hwf as (_ & Hmax & _). assert (Hlp : length p = (length h + length s)%nat) by (by rewrite Hp, length_app).
  destruct (echo_reply_spec h s Hok H9 Hsb) as (r & Hr & Hecho); [lia|lia| | |].
  { by rewrite Hp, lookup_app_r, Hh, Nat.sub_diag in H8 by lia. }
  { rewrite Hp, lookup_app_r in H0 by lia. by replace (ihl + 1 - length h)%nat with 1%nat in H0 by lia. }
  rewrite <- Hp in Hr, Hecho. rewrite Hh in Hecho.
  assert (Hvr : packet_ip_version r = Some 4).
  { unfold packet_ip_version in *. rewrite !head_lookup in *. by rewrite (ec_rest _ _ _ Hecho 0%nat) by lia. }
  destruct (hop answer answer' now now1 up 0 p (tn_daemon c) w Hl1) as (fs & c' & d & fl & Hsend & Hsent & Hof & Hfl & Hlb & Hrecv); [done..|].
  set (w' := set_daemon (set_data d (tn_daemon w)) w).
  set (c1 := set_daemon (set_data (count_forwarded (length p) (dm_data c')) c') c).
  assert (Hsc : tn_self c1 = tn_self c) by (cbn; by rewrite (sn_self _ _ _ Hsent)).
  destruct (hop answer' answer now1 now2 up' 0 r (tn_daemon w') c1) as (fs2 & w2 & d2 & fl2 & Hsend2 & _ & _ & _ & _ & Hrecv2);
    [apply half_link_count, Hlb, Hl2|done..|by rewrite (ec_length _ _ _ Hecho)|]. rewrite Hsc in Hsend2.
  change (ds_self_id (dm_data (tn_daemon w'))) with (ds_self_id d) in Hrecv2. rewrite (of_self _ _ _ Hof) in Hrecv2.
  exists (map Mesh (map (Send (tn_self w)) fs)), c1. split_and!; [|apply outputs_mesh|].
  { unfold tun_read. rewrite Hroute. cbn [obind]. change (tun_payload ephemeral nonce (tn_self w) 0 p (tn_daemon c)) with (p, 0).
    cbv iota beta. by rewrite Hsend. }
  rewrite frames_to_send. intros chunks Hch. destruct (Hrecv _ Hch) as (waits & Hout & ->). fold w'.
  rewrite (deliver_to_gateway answer' now1 up (tn_self c) p w' g) by (try done; by destruct Hfl as [-> | ->]).
  unfold echo_to. rewrite Hr. cbn [obind]. change (tn_routing w') with (ds_routing d). rewrite (of_routing _ _ _ Hof), Hback, Hsend2.
  cbn [obind]. eexists _, _. split; [reflexivity|]. split; [by rewrite no_frames_outputs, outputs_mesh|].
  rewrite no_frames_to by done. rewrite frames_to_send. intros chunks' Hch'. destruct (Hrecv2 _ Hch') as (waits2 & Hout2 & ->).
  rewrite deliver_client_v4 by done. cbn [obind]. eexists _, _, r. split; [reflexivity|]. split; [by rewrite no_frames_outputs|done].
Qed.

(** Between neighbours: a packet for a neighbour's mesh address reaches its TUN
    device unchanged. *)
Theorem peer_packet_delivered now now1 up connected ephemeral nonce p (a b : TunnelState) :
  half_link (dm_data (tn_daemon a)) (dm_data (tn_daemon b)) → tn_gw_engine b = None → Z.of_nat (length p) < 2 ^ 16 →
  tun_route iter_routes connected p a = Ok (Some (tn_self b, tn_self b, 0)) →
  ∃ acts a1, tun_read answer iter_routes now connected ephemeral nonce p a = Ok (acts, a1) ∧
    ∀ chunks, carries chunks (frames_to (tn_self b) acts) →
    ∃ acts1 b1, tunnel_frames answer' now1 up (tn_self a) (read_task chunks []).1 b = Ok (acts1, b1) ∧ outputs acts1 = [TunWrite p].
Proof using HA HT.
  intros Hl Hbe Hlen Hroute.
  destruct (hop answer answer' now now1 up 0 p (tn_daemon a) b Hl) as (fs & a' & d & fl & Hsend & _ & _ & Hfl & _ & Hrecv); [done..|].
  eexists _, _. split.
  { unfold tun_read. rewrite Hroute. cbn [obind]. change (tun_payload ephemeral nonce (tn_self b) 0 p (tn_daemon a)) with (p, 0).
    cbv iota beta. by rewrite Hsend. }
  rewrite frames_to_send. intros chunks Hch. destruct (Hrecv _ Hch) as (waits & Hout & ->).
  set (b' := set_daemon _ b). assert (Hd : deliver_packet answer' now1 up (tn_self a) fl p b' = Ok ([TunWrite p], b')).
  { unfold deliver_packet, dst_local. change (tn_gw_engine b') with (tn_gw_engine b). rewrite Hbe.
    destruct Hfl as [-> | ->]; change (flags_contains _ IS_E2E) with false; by rewrite andb_false_r. }
  rewrite Hd. cbn [obind]. eexists _, _. split; [reflexivity|]. by rewrite no_frames_outputs.
Qed.

(** IPv6 internet access does not work: a node without a gateway's interface
    drops every IPv6 packet that arrives from the internet, replies to its own
    traffic included, while it writes every IPv4 one to its TUN device; and a
    return task that started before there was an IPv6 engine drops every IPv6
    packet, although engines are created when traffic asks for them. *)
Theorem ipv6_replies_dropped now up src fl p (c : TunnelState) (w : TunnelState) :
  tn_is_gateway c = false → tn_gw_engine c = None → tn_gw_engine_v6 c = None → tn_nat_interface c = false →
  flags_contains fl IS_INTERNET = true →
  (packet_ip_version p = Some 6 → deliver_packet answer now up src fl p c = Ok ([], c)) ∧
  (packet_ip_version p = Some 4 → deliver_packet answer now up src fl p c = Ok ([TunWrite p], c)) ∧
  (packet_ip_version p = Some 6 → gateway_return answer' now false p w = Ok ([], w)).
Proof.
  intros Hcg Hce Hc6 Hcn Hfl. split_and!; intros Hv.
  - unfold deliver_packet, dst_local. rewrite Hcg. cbn [andb]. rewrite Hce. cbn [obind]. rewrite Hfl, Hv. cbn [Z.eqb Pos.eqb].
    unfold internet_v6, ensure_gateway_ipv6_engine. by rewrite Hc6, Hcn.
  - by apply deliver_client_v4.
  - unfold gateway_return. rewrite Hv. cbn [Z.eqb Pos.eqb]. by destruct (tn_gw_engine_v6 w).
Qed.
End Theorems.

(** ** A concrete client and gateway *)
#[local] Existing Instance null_aead.
#[local] Existing Instance toy_ecdh.
#[local] Existing Instance toy_crypto.

Definition sample_client : TunnelState :=
  MkTunnel (set_gw_x25519 {[sample_id 2 := x25519_public_from_seed [2]]} (sample_node 1 2 sample_initiator)) false 0x0a4d0001 None None false false.
Definition sample_gw : TunnelState :=
  MkTunnel (sample_node 2 1 sample_responder) true 0x0a4d0202 (Some sample_gateway) None true true.
Definition sample_request : list Z :=
  [0x45; 0; 0; 28; 0; 0; 0; 0; 64; 17; 0; 0; 10; 77; 1; 1; 1; 1; 1; 1; 0x30; 0x39; 0; 53; 0; 8; 0; 0].
Definition sample_ping : list Z :=
  [0x45; 0; 0; 28; 0; 0; 0; 0; 64; 1; 0; 0; 10; 77; 1; 1; 10; 77; 2; 2; 8; 0; 0; 0; 0; 1; 0; 1].

Lemma sample_linked : linked (dm_data (tn_daemon sample_client)) (dm_data (tn_daemon sample_gw)).
Proof. exact sample_nodes_linked. Qed.

Lemma sample_wf p b : p !! 0%nat = Some b → (5 <=? Z.land b 15) = true → bool_decide (bytes_ok p) = true →
  (Z.of_nat (length p) <? 2 ^ 16) = true → packet_wf p.
Proof. intros Hb H5 Hp Hl. split; [by apply bool_decide_eq_true in Hp|]. split; [by apply Z.ltb_lt|]. exists b. split; [done|]. by apply Z.leb_le. Qed.

Lemma internet_roundtrip_witness :
  ∃ acts c1 acts1 w1 p', tun_read sample_answer map_to_list 0 [sample_id 2] [3] (replicate 12 1) sample_request sample_client = Ok (acts, c1) ∧
    tunnel_frames sample_answer 0 None (tn_self sample_client) (read_task [concat (map wire_frame (frames_to (tn_self sample_gw) acts))] []).1 sample_gw
      = Ok (acts1, w1) ∧ outputs acts1 = [InternetSend p'] ∧
    ∃ payload pub sends d, gw_x25519_by_id (tn_daemon sample_client) !! tn_self sample_gw = Some pub ∧ e2e_encrypt [3] (replicate 12 1) sample_request pub = Ok payload ∧
      mesh_send sample_answer 0 (tn_self sample_gw) (tn_self sample_gw) (Z.lor IS_INTERNET IS_E2E) payload (tn_daemon sample_client) = Some (sends, d) ∧
      acts = map Mesh sends.
Proof.
  destruct (internet_roundtrip sample_answer sample_answer map_to_list 0 0 0 0 None None [sample_id 2] [3] (replicate 12 1) sample_request
    PROTO_UDP 0x0a4d0101 12345 0x01010101 sample_client sample_gw sample_gateway false) as (acts & c1 & Hread & _ & (payload & fl & sends & d & Hsend & Hacts & Hseal) & Hrecv);
    [exact sample_linked|reflexivity|reflexivity|reflexivity|reflexivity|reflexivity|exact sample_gateway_reachable|by vm_compute
    |by eapply sample_wf; vm_compute|by vm_compute|vm_compute; reflexivity|vm_compute; reflexivity|vm_compute; reflexivity|by vm_compute
    |vm_compute; reflexivity|reflexivity|intros pub Hpub; vm_compute in Hpub; injection Hpub as <-; vm_compute; reflexivity|vm_compute; reflexivity|].
  destruct (Hrecv [concat (map wire_frame (frames_to (tn_self sample_gw) acts))]) as (acts1 & w1 & g1 & Hw & _ & [[_ Hfull]|(x & p' & Hout & _)]);
    [apply carries_whole| |exists acts, c1, acts1, w1, p'; split; [exact Hread|]; split; [exact Hw|]; split; [exact Hout|]].
  2: { unfold sealed_for in Hseal.
       destruct (gw_x25519_by_id (tn_daemon sample_client) !! tn_self sample_gw) as [pub|] eqn:Epub; [|vm_compute in Epub; discriminate].
       destruct Hseal as [He ->]. exists payload, pub, sends, d. auto. }
  destruct (Hfull 30000) as (k & e & Hk & _); [unfold pool_range, PORT_MIN, PORT_MAX; lia|].
  change (forward (inner sample_gateway)) with (∅ : gmap ConntrackKey ConntrackEntry) in Hk. by rewrite lookup_empty in Hk.
Defined.

Lemma gateway_ping_witness :
  ∃ acts c1, tun_read sample_answer map_to_list 0 [sample_id 2] [3] (replicate 12 1) sample_ping sample_client = Ok (acts, c1) ∧
    ∃ acts1 w1, tunnel_frames sample_answer 0 None (tn_self sample_client) (read_task [concat (map wire_frame (frames_to (tn_self sample_gw) acts))] []).1 sample_gw
      = Ok (acts1, w1) ∧ outputs acts1 = [].
Proof.
  destruct (gateway_ping sample_answer sample_answer map_to_list 0 0 0 None None [sample_id 2] [3] (replicate 12 1) sample_ping 20
    sample_client sample_gw sample_gateway) as (acts & c1 & Hread & _ & Hrecv);
    [exact sample_linked|reflexivity|reflexivity|reflexivity|by eapply sample_wf; vm_compute|vm_compute; reflexivity|vm_compute; reflexivity
    |by apply (bool_decide_unpack _); vm_compute|reflexivity|reflexivity|vm_compute; reflexivity|vm_compute; reflexivity|vm_compute; reflexivity|].
  destruct (Hrecv [concat (map wire_frame (frames_to (tn_self sample_gw) acts))]) as (acts1 & w1 & Hw & Hout & _);
    [apply carries_whole|]. exists acts, c1. split; [exact Hread|]. exists acts1, w1. split; [exact Hw|exact Hout].
Defined.

Lemma ipv6_replies_dropped_witness :
  deliver_packet sample_answer 0 None (sample_id 2) IS_INTERNET [0x60] sample_client = Ok ([], sample_client).
Proof.
  apply (ipv6_replies_dropped sample_answer sample_answer 0 None (sample_id 2) IS_INTERNET [0x60] sample_client sample_gw); reflexivity.
Defined.
