(* ===== verification/Rpc.v ===== *)
(** * The RPC server (crates/pim-daemon/src/rpc.rs)

    One connection: lines come in, each is a JSON-RPC request that is dispatched
    to a handler over the daemon's state, and the response goes out.  The
    handlers are written in a small monad for state, output and errors.

    JSON and TOML are read and written by third-party code, which is a
    parameter ([SerdeJson], [Toml]); so are the answers of SQLite,
    of the file system, of the transport and of the clocks ([RpcEnv]).  Errors
    have the code and the data of the source; the message, which is only for
    the eye, is left out.  Socket addresses are IPv4. *)

From S2P Require Import Prelude Core MeshAddress Frames Control Stream Fragment Routing Session DataPlane SendBuffer Trust E2e.
From S2P Require Import Packet Conntrack Gateway Gateway6 Discovery Handshake Reconnect Daemon Text Ipv6Text Calendar MessageStore PeerDirectory Identity Messaging Tunnel Json Toml Config.

(** ** Requests *)
Record RpcRequest := MkRequest { rq_id : option Value; rq_method : list Z; rq_params : option Value }.

Record PeersAddStaticParams := { as_address : list Z; as_mechanism : option (list Z); as_label : option (list Z) }.
Record PeersConnectDynamicParams := { cd_node_id : list Z; cd_address : list Z }.
Record GatewayEnableParams := { ge_nat_interface : list Z; ge_max_connections : option Z }.
Record PeersRemoveParams := { rm_node_id : option (list Z); rm_config_entry_id : option (list Z) }.
Record PeersImportIdentityParams := { ii_node_id : list Z; ii_x25519_pubkey : list Z; ii_friendly_name : option (list Z) }.
Record PeersSetBroadcastConfigParams := {
  sb_outgoing_interval_s : option (option Z);
  sb_watch_incoming : option bool;
  sb_min_peer_interval_s : option Z;
}.
Record ConfigSaveParams := { sp_config : list Z; sp_dry_run : bool }.
Record MessagesHistoryParams := { mh_peer_node_id : list Z; mh_before_ts_ms : option Z; mh_limit : option Z }.
Record MessagesSendParams := { ms_peer_node_id : list Z; ms_body : list Z }.
Record MessagesMarkReadParams := { mk_peer_node_id : list Z; mk_up_to_ts_ms : Z }.

(** [serde_json]: reading a line, and each kind of parameters from a value.
    Parameters with a single field are that field. *)
Class SerdeJson := {
  from_str : list Z → option RpcRequest;
  de_hello : Value → option (option Z);
  de_add_static : Value → option PeersAddStaticParams;
  de_connect_dynamic : Value → option PeersConnectDynamicParams;
  de_gateway_enable : Value → option GatewayEnableParams;
  de_remove : Value → option PeersRemoveParams;
  de_import_identity : Value → option PeersImportIdentityParams;
  de_forget : Value → option (list Z);
  de_delete_conversation : Value → option (list Z);
  de_set_broadcast_config : Value → option PeersSetBroadcastConfigParams;
  de_set_split_default : Value → option bool;
  de_config_get : Value → option (option (list Z));
  de_config_save : Value → option ConfigSaveParams;
  de_history : Value → option MessagesHistoryParams;
  de_send : Value → option MessagesSendParams;
  de_mark_read : Value → option MessagesMarkReadParams;
}.

(** ** State, output, errors *)
Module codes.
Definition PARSE_ERROR : Z := -32700.
Definition INVALID_REQUEST : Z := -32600.
Definition METHOD_NOT_FOUND : Z := -32601.
Definition INVALID_PARAMS : Z := -32602.
Definition INTERNAL_ERROR : Z := -32603.
Definition RPC_VERSION_MISMATCH : Z := -32001.
Definition GATEWAY_NOT_SUPPORTED : Z := -32031.
Definition MESSAGE_PEER_UNKNOWN : Z := -32060.
Definition MESSAGE_BODY_TOO_LARGE : Z := -32061.
Definition MESSAGE_STORAGE_ERROR : Z := -32062.
Definition PEER_IDENTITY_MISMATCH : Z := -32040.
Definition PEER_BROADCAST_INTERVAL_TOO_SMALL : Z := -32041.
End codes.

Record RpcError := MkRpcError { err_code : Z; err_data : option Value }.

(** What does not change while the daemon runs; the start is in milliseconds
    of the wall clock. *)
Record NodeInfo := {
  ni_ipv4_prefix : Ipv4Prefix; ni_ipv6 : Z; ni_ipv6_prefix : Ipv6Prefix;
  ni_start_ms : Z; ni_listen_port : Z; ni_tun_name : list Z;
}.

(** [rs_config_file] is the content of the configuration file, [None] when it
    cannot be read; [rs_logs_replayed] belongs to the connection. *)
Record RpcState := MkRpc {
  rs_node : NodeInfo;
  rs_tunnel : TunnelState;
  rs_identity : IdentityState;
  rs_storage : MessagingStorage;
  rs_discovery : option PeerTable;
  rs_route_on : bool;
  rs_config_file : option (list Z);
  rs_mesh_id : option (list Z);
  rs_mesh_fingerprint : option (list Z);
  rs_sub_counter : Z;
  rs_logs_replayed : bool;
}.
Definition rs_with (t : TunnelState) (i : IdentityState) (m : MessagingStorage) (on : bool) (file : option (list Z)) (subs : Z) (logs : bool)
    (st : RpcState) : RpcState :=
  MkRpc (rs_node st) t i m (rs_discovery st) on file (rs_mesh_id st) (rs_mesh_fingerprint st) subs logs.
Definition set_tunnel t st := rs_with t (rs_identity st) (rs_storage st) (rs_route_on st) (rs_config_file st) (rs_sub_counter st) (rs_logs_replayed st) st.
Definition set_identity i st := rs_with (rs_tunnel st) i (rs_storage st) (rs_route_on st) (rs_config_file st) (rs_sub_counter st) (rs_logs_replayed st) st.
Definition set_messages m st := rs_with (rs_tunnel st) (rs_identity st) m (rs_route_on st) (rs_config_file st) (rs_sub_counter st) (rs_logs_replayed st) st.
Definition set_route_on on st := rs_with (rs_tunnel st) (rs_identity st) (rs_storage st) on (rs_config_file st) (rs_sub_counter st) (rs_logs_replayed st) st.
Definition set_config_file f st := rs_with (rs_tunnel st) (rs_identity st) (rs_storage st) (rs_route_on st) f (rs_sub_counter st) (rs_logs_replayed st) st.
Definition set_sub_counter n st := rs_with (rs_tunnel st) (rs_identity st) (rs_storage st) (rs_route_on st) (rs_config_file st) n (rs_logs_replayed st) st.
Definition set_logs_replayed b st := rs_with (rs_tunnel st) (rs_identity st) (rs_storage st) (rs_route_on st) (rs_config_file st) (rs_sub_counter st) b st.
Definition set_directory db st :=
  set_identity (MkIdentity (broadcast_config (rs_identity st)) (broadcast_peer_last_seen (rs_identity st)) db
    (last_broadcast_ms (rs_identity st)) (last_broadcast_recipients (rs_identity st))) st.
Definition set_broadcast_config c st :=
  set_identity (MkIdentity c (broadcast_peer_last_seen (rs_identity st)) (peer_directory (rs_identity st))
    (last_broadcast_ms (rs_identity st)) (last_broadcast_recipients (rs_identity st))) st.
#[global] Arguments rs_with : simpl never.

(** What leaves the handlers besides the response. *)
Inductive RpcOutput :=
| StatusEvent (v : Value)
| DirectoryEvent (e : PeerDirectoryEvent)
| MessagingOut (o : Output)
| MeshOut (a : Action)
| Dial (node_id : NodeId) (addr : Z * Z)
| WakeInstaller
| WakeBroadcast
| ReplayLogs.

(** What a request meets on its way: clocks, random draws and whether what is
    outside of the daemon succeeds. *)
Record RpcEnv := {
  ev_now : Z; ev_now_ms : Z; ev_now_ms' : Z;
  ev_db : bool; ev_db2 : bool; ev_db3 : bool;
  ev_message_id : list Z; ev_ephemeral : list Z; ev_nonce : list Z;
  ev_write : bool; ev_connect : bool;
  ev_gateway_supported : bool; ev_platform : list Z; ev_nat_interface : option (list Z); ev_logs_ready : bool;
  ev_modified : Z; ev_config_path : list Z; ev_interfaces : list (list Z * option (list Z));
  ev_socket_addr : list Z → option (Z * Z);
}.

Definition RpcM (A : Type) : Type := RpcState → outcome RpcError A * list RpcOutput * RpcState.
#[export] Instance rpc_ret : MRet RpcM := λ A a st, (Ok a, [], st).
#[export] Instance rpc_bind : MBind RpcM := λ A B k c st,
  match c st with
  | (Ok a, out, st) => let '(r, out', st) := k a st in (r, out ++ out', st)
  | (Err e, out, st) => (Err e, out, st)
  | (Panic, out, st) => (Panic, out, st)
  end.
Definition throw {A} (code : Z) : RpcM A := λ st, (Err (MkRpcError code None), [], st).
Definition throw_data {A} (code : Z) (data : Value) : RpcM A := λ st, (Err (MkRpcError code (Some data)), [], st).
Definition gets {A} (f : RpcState → A) : RpcM A := λ st, (Ok (f st), [], st).
Definition modify (f : RpcState → RpcState) : RpcM unit := λ st, (Ok tt, [], f st).
Definition emit (out : list RpcOutput) : RpcM unit := λ st, (Ok tt, out, st).
Definition guard_or (code : Z) (b : bool) : RpcM unit := if b then mret tt else throw code.
Definition some_or {A} (code : Z) (o : option A) : RpcM A := match o with Some a => mret a | None => throw code end.
(** An outcome of another component, its errors under one code. *)
Definition lift_or {E A} (code : Z) (o : outcome E A) : RpcM A :=
  match o with Ok a => mret a | Err _ => throw code | Panic => λ st, (Panic, [], st) end.
(** [params] that must be there and deserialize. *)
Definition required {P} (de : Value → option P) (params : option Value) : RpcM P :=
  v ← some_or codes.INVALID_PARAMS params; some_or codes.INVALID_PARAMS (de v).

(** ** Values of the daemon's data *)

(** [NodeId]'s [Display]. *)
Definition node_id_display (id : NodeId) : list Z := hex (take 4 (as_bytes id)) ++ str ".." ++ hex (drop 12 (as_bytes id)).
Definition id_value (id : NodeId) : Value := VStr (to_hex id).
(** Discovery is over IPv4. *)
Definition fmt_socket_addr (a : Z * Z) : list Z := fmt_ipv4 a.1 ++ str ":" ++ decimal a.2.
Definition strz (s : string) : Value := VStr (str s).

Definition message_value (m : MessageRecord) : Value := VObj [
  ("id", VStr (mr_id m)); ("peer_node_id", VStr (mr_peer_node_id m)); ("direction", strz (direction_as_str (mr_direction m)));
  ("body", VStr (mr_body m)); ("timestamp_ms", VNum (mr_timestamp_ms m)); ("status", strz (status_as_str (mr_status m)));
  ("failure_reason", opt_value strz (mr_failure_reason m)); ("delivered_at_ms", opt_value VNum (mr_delivered_at_ms m));
  ("read_at_ms", opt_value VNum (mr_read_at_ms m))]%string.

Definition conversation_value (connected : gset (list Z)) (c : ConversationSummary) : Value := VObj [
  ("peer_node_id", VStr (cs_peer_node_id c)); ("peer_node_id_short", VStr (cs_peer_node_id_short c)); ("name", VStr (cs_name c));
  ("last_message_preview", opt_value VStr (cs_last_message_preview c)); ("last_message_ts_ms", opt_value VNum (cs_last_message_ts_ms c));
  ("unread_count", VNum (cs_unread_count c)); ("is_connected", VBool (bool_decide (cs_peer_node_id c ∈ connected)));
  ("x25519_pubkey", opt_value VStr (cs_x25519_pubkey c))]%string.

(** The two notifications a change of the peer directory becomes. *)
Definition peer_seen_value (e : PeerDirectoryEvent) : Value :=
  let payload id name known via := VObj [("jsonrpc", strz "2.0"); ("method", strz "messages.event");
    ("params", VObj [("kind", strz "peer_seen"); ("peer_node_id", VStr (hex_node_id id)); ("name", VStr name);
                     ("x25519_known", VBool known); ("via", strz via)])]%string in
  match e with
  | Seen node_id _ name via => payload node_id name true (match via with Direct => "direct" | Routed => "routed" end)%string
  | Forgotten node_id => payload node_id [] false "direct"%string
  end.

(** ** Methods *)
Inductive Method :=
| MHello | MStatus | MStatusSubscribe | MStatusUnsubscribe
| MPeersList | MPeersAddStatic | MPeersConnectDynamic | MPeersRemove | MPeersDiscovered | MPeersPair | MPeersImportIdentity | MPeersForget
| MPeersBroadcastNow | MPeersSetBroadcast | MPeersGetBroadcast | MPeersSubscribe | MPeersUnsubscribe
| MRouteSetSplitDefault | MRouteTable
| MGatewayPreflight | MGatewayEnable | MGatewayDisable | MGatewayStatus | MGatewaySubscribe | MGatewayUnsubscribe
| MConfigGet | MConfigSave | MMeshStatus | MLogsSubscribe | MLogsUnsubscribe
| MMessagesList | MMessagesHistory | MMessagesSend | MMessagesMarkRead | MMessagesDeleteConversation | MMessagesDeleteAll
| MMessagesSubscribe | MMessagesUnsubscribe.

#[export] Instance Method_eq_dec : EqDecision Method.
Proof. solve_decision. Defined.

Definition method_names : list (string * Method) := [
  ("rpc.hello", MHello); ("status", MStatus); ("status.subscribe", MStatusSubscribe); ("status.unsubscribe", MStatusUnsubscribe);
  ("peers.list", MPeersList); ("peers.add_static", MPeersAddStatic); ("peers.connect_dynamic", MPeersConnectDynamic);
  ("peers.remove", MPeersRemove); ("peers.discovered", MPeersDiscovered); ("peers.pair", MPeersPair);
  ("peers.import_identity", MPeersImportIdentity); ("peers.forget", MPeersForget); ("peers.broadcast_identity_now", MPeersBroadcastNow);
  ("peers.set_broadcast_config", MPeersSetBroadcast); ("peers.get_broadcast_state", MPeersGetBroadcast);
  ("peers.subscribe", MPeersSubscribe); ("peers.unsubscribe", MPeersUnsubscribe);
  ("route.set_split_default", MRouteSetSplitDefault); ("route.table", MRouteTable);
  ("gateway.preflight", MGatewayPreflight); ("gateway.enable", MGatewayEnable); ("gateway.disable", MGatewayDisable);
  ("gateway.status", MGatewayStatus); ("gateway.subscribe", MGatewaySubscribe); ("gateway.unsubscribe", MGatewayUnsubscribe);
  ("config.get", MConfigGet); ("config.save", MConfigSave); ("mesh.status", MMeshStatus);
  ("logs.subscribe", MLogsSubscribe); ("logs.unsubscribe", MLogsUnsubscribe);
  ("messages.list_conversations", MMessagesList); ("messages.history", MMessagesHistory); ("messages.send", MMessagesSend);
  ("messages.mark_read", MMessagesMarkRead); ("messages.delete_conversation", MMessagesDeleteConversation);
  ("messages.delete_all", MMessagesDeleteAll); ("messages.subscribe", MMessagesSubscribe); ("messages.unsubscribe", MMessagesUnsubscribe)]%string.
Definition method_of (m : list Z) : option Method := snd <$> List.find (λ p, bool_decide (str p.1 = m)) method_names.

Definition RPC_VERSION : Z := 1.

(** The kinds of interface names that are never an uplink. *)
Definition is_nat_candidate (name : list Z) : bool :=
  let starts p := bool_decide (is_Some (strip_prefix (str p) name)) in
  negb (bool_decide (name = []) || bool_decide (name = str "lo") || bool_decide (name = str "lo0") ||
        starts "utun"%string || starts "pim"%string || starts "awdl"%string || starts "llw"%string || starts "anpi"%string || bool_decide (name = str "ap1") ||
        starts "br-"%string || starts "bridge"%string || starts "docker"%string || starts "veth"%string || starts "vmnet"%string || starts "tun"%string || starts "tap"%string ||
        starts "gif"%string || starts "stf"%string).

(** From the output of [ifconfig], when it succeeds. *)
Definition interface_has_ipv4 (ifconfig : option (list Z)) : bool :=
  match ifconfig with
  | Some stdout => existsb (λ l, bool_decide (is_Some (strip_prefix (str "inet ") (trim_start l)))) (lines stdout)
  | None => false
  end.
Definition list_nat_candidate_interfaces (found : list (list Z * option (list Z))) : list (list Z) :=
  map fst (List.filter (λ p, interface_has_ipv4 p.2) (List.filter (λ p, is_nat_candidate p.1) found)).

(** [parse_x25519_hex] *)
Fixpoint parse_key_pairs (s : list Z) : outcome RpcError (list Z) :=
  match s with
  | a :: b :: rest =>
    if negb (from_utf8 [a; b]) then Err (MkRpcError codes.INVALID_PARAMS None) else
    match from_str_radix_u8 [a; b] 16 with
    | None => Err (MkRpcError codes.INVALID_PARAMS None)
    | Some v => let? vs := parse_key_pairs rest in Ok (v :: vs)
    end
  | _ => Ok []
  end.
Definition parse_x25519_hex (s : list Z) : outcome RpcError (list Z) :=
  if negb (bool_decide (length s = 64%nat)) then Err (MkRpcError codes.INVALID_PARAMS None) else parse_key_pairs s.

Section Handlers.
Context {A : Aead} {D : Ecdh} {J : SerdeJson} {T : Toml}.
Context (digest : NodeId → list Z) (answer : NodeId → TransportFrame → SendResult).
Context (iter_routes : gmap NodeId RouteTableEntry → list (NodeId * RouteTableEntry)).
Context (iter_meta : gmap (list Z) ConversationMeta → list (list Z * ConversationMeta)).
Context (env : RpcEnv).

Definition subscription : RpcM Value :=
  n ← gets rs_sub_counter;
  modify (set_sub_counter (as_u64 (n + 1)));;
  mret (VObj [("subscription_id"%string, VStr (str "rpc-sub-" ++ decimal n))]).

Definition start_logs_subscription : RpcM Value :=
  v ← subscription;
  replayed ← gets rs_logs_replayed;
  modify (set_logs_replayed true);;
  emit (if negb replayed && ev_logs_ready env then [ReplayLogs] else []);;
  mret v.

Definition method_hello (params : option Value) : RpcM Value :=
  version ← match params with Some v => some_or codes.INVALID_PARAMS (de_hello v) | None => mret None end;
  guard_or codes.RPC_VERSION_MISMATCH (match version with Some ver => ver =? RPC_VERSION | None => true end);;
  mret (VObj [("daemon", strz "pim-daemon/0.1.18"); ("rpc_version", VNum RPC_VERSION); ("features", VArr [])]%string).

(** *** Status *)

(** [x25519] are the known keys, by the text of the node identifier. *)
Definition peer_summary (x25519 : gmap (list Z) (list Z)) (st : RpcState) (peer_id : NodeId) : Value :=
  let d := tn_daemon (rs_tunnel st) in
  let '(addr, mechanism, configured) :=
    match peer_info peer_id (dial_reconnect (dm_dial d)) with
    | Some (target, configured, _) => (fmt_socket_addr (target_addr target), mechanism_name target, configured)
    | None => ([], "tcp"%string, false)
    end in
  let last_seen_s := match peer_last_hb d !! peer_id with Some t => elapsed (ev_now env) t / 1000 | None => 0 end in
  let route := routes (tn_routing (rs_tunnel st)) !! peer_id in
  VObj [("node_id", id_value peer_id); ("node_id_short", VStr (node_id_display peer_id)); ("label", Null);
    ("transport_addr", VStr addr); ("mesh_ip", VStr addr);
    ("mesh_ipv4", VStr (fmt_ipv4 (derive_mesh_ipv4 digest peer_id (ni_ipv4_prefix (rs_node st)))));
    ("mesh_ipv6", VStr (fmt_ipv6 (derive_mesh_ipv6 digest peer_id (ni_ipv6_prefix (rs_node st)))));
    ("transport", strz mechanism); ("state", strz "active");
    ("route_hops", VNum (match route with Some e => rt_hops e | None => 1 end)); ("last_seen_s", VNum last_seen_s);
    ("latency_ms", opt_value VNum (route ≫= rt_rtt_ms)); ("is_gateway", VBool (match route with Some e => rt_is_gateway e | None => false end));
    ("static", VBool configured); ("x25519_pubkey", opt_value VStr (x25519 !! to_hex peer_id))]%string.

(** In some order of the sessions. *)
Definition peer_summaries (st : RpcState) : list Value :=
  let x25519 := if ev_db env then list_x25519 (peer_directory (rs_identity st)) else ∅ in
  map (λ p, peer_summary x25519 st p.1) (map_to_list (dm_sessions (tn_daemon (rs_tunnel st)))).
Definition build_peer_list : RpcM Value := st ← gets id; mret (VArr (peer_summaries st)).

Definition build_status : RpcM Value :=
  st ← gets id;
  let d := tn_daemon (rs_tunnel st) in
  let node := rs_node st in
  let cidr4 := fmt_ipv4 (tn_mesh_ipv4 (rs_tunnel st)) ++ str "/" ++ decimal (v4_prefix_len (ni_ipv4_prefix node)) in
  let cidr6 := fmt_ipv6 (ni_ipv6 node) ++ str "/" ++ decimal (v6_prefix_len (ni_ipv6_prefix node)) in
  let t := tn_routing (rs_tunnel st) in
  mret (VObj [("node", VStr (cfg_node_name (dm_config d))); ("node_id", id_value (ds_self_id (dm_data d)));
    ("node_id_short", VStr (node_id_display (ds_self_id (dm_data d)))); ("x25519_pubkey", VStr (hex (cfg_own_x25519_pub (dm_config d))));
    ("mesh_ip", VStr cidr4); ("mesh_ipv4", VStr cidr4); ("mesh_ipv6", VStr cidr6);
    ("interface", VObj [("name", VStr (ni_tun_name node)); ("up", VBool true); ("mtu", VNum 1400)]);
    ("role", VArr (map strz (if tn_is_gateway (rs_tunnel st) then ["client"; "relay"; "gateway"] else ["client"])));
    ("transport", VObj [("tcp", VObj [("port", VNum (ni_listen_port node))])]);
    ("peers", VArr (peer_summaries st));
    ("routes", VObj [("active", VNum (Z.of_nat (route_count t))); ("expired", VNum 0);
       ("selected_gateway", opt_value id_value (fst <$> nearest_gateway_route (iter_routes (routes t)) t))]);
    ("stats", VObj [("forwarded_bytes", VNum (ds_bytes_forwarded (dm_data d))); ("forwarded_packets", VNum (ds_packets_forwarded (dm_data d)));
       ("dropped", VNum (ds_packets_dropped (dm_data d))); ("dropped_reason", Null); ("congestion_drops", VNum (congestion_drops d));
       ("conntrack_size", VNum (match tn_gw_engine (rs_tunnel st) with Some gw => Z.of_nat (conntrack_size gw) | None => 0 end))]);
    ("uptime_s", VNum (Z.max 0 ((ev_now_ms env - ni_start_ms node) / 1000)));
    ("route_on", VBool (rs_route_on st)); ("started_at", VStr (system_time_to_iso8601 (ni_start_ms node / 1000)))]%string).

(** *** Peers *)
Definition build_peers_discovered : RpcM Value :=
  table ← gets rs_discovery;
  mret (VArr (match table with
    | None => []
    | Some t => map (λ p : NodeId * PeerRecord, VObj [
        ("node_id", id_value (pr_node_id p.2)); ("address", VStr (fmt_socket_addr (pr_listen_addr p.2))); ("mechanism", strz "broadcast");
        ("first_seen_s", VNum (elapsed (ev_now env) (pr_last_seen p.2) / 1000)); ("last_seen_s", VNum (elapsed (ev_now env) (pr_last_seen p.2) / 1000));
        ("label_announced", Null)]%string) (map_to_list t)
    end)).

(** The configuration is not changed. *)
Definition method_peers_add_static (params : option Value) : RpcM Value :=
  p ← required de_add_static params;
  mret (VObj [("node_id", Null);
    ("config_entry_id", VStr (str "entry-" ++ default (str "tcp") (as_mechanism p) ++ str "-" ++ as_address p));
    ("_label", opt_value VStr (as_label p))]%string).

Definition method_peers_connect_dynamic (params : option Value) : RpcM Value :=
  p ← required de_connect_dynamic params;
  id ← lift_or codes.INVALID_PARAMS (parse_node_id (cd_node_id p));
  node_id ← some_or codes.INVALID_PARAMS id;
  addr ← some_or codes.INVALID_PARAMS (ev_socket_addr env (cd_address p));
  emit [Dial node_id addr];;
  guard_or codes.INTERNAL_ERROR (ev_connect env);;
  mret (VObj [("node_id", id_value node_id); ("address", VStr (cd_address p)); ("status", strz "connected")]%string).

Definition method_peers_remove (params : option Value) : RpcM Value :=
  p ← required de_remove params;
  guard_or codes.INVALID_PARAMS (negb (bool_decide (rm_node_id p = None) && bool_decide (rm_config_entry_id p = None)));;
  mret Null.

Definition imported_value (node_id : NodeId) (imported : bool) : Value :=
  VObj [("node_id", id_value node_id); ("node_id_short", VStr (node_id_display node_id)); ("imported", VBool imported)]%string.

Definition method_peers_import_identity (params : option Value) : RpcM Value :=
  p ← required de_import_identity params;
  node_id ← lift_or codes.INVALID_PARAMS (NodeId_from_str (ii_node_id p));
  x25519 ← lift_or codes.INVALID_PARAMS (parse_x25519_hex (ii_x25519_pubkey p));
  let friendly_name := match ii_friendly_name p with
                       | Some s => if bool_decide (trim s = []) then None else Some (trim s)
                       | None => None
                       end in
  db ← gets (λ st, peer_directory (rs_identity st));
  let '(r, evs, db) := import_identity_if_compatible (ev_db env) node_id x25519 friendly_name (ev_now_ms env) db in
  modify (set_directory db);;
  emit (map DirectoryEvent evs);;
  outcome ← lift_or codes.MESSAGE_STORAGE_ERROR r;
  match outcome with
  | Inserted => mret (imported_value node_id true)
  | Refreshed => mret (imported_value node_id false)
  | KeyMismatch existing_x25519_hex =>
    throw_data codes.PEER_IDENTITY_MISMATCH (VObj [("node_id", id_value node_id);
      ("supplied_x25519_pubkey", VStr (ii_x25519_pubkey p)); ("existing_x25519_pubkey", VStr existing_x25519_hex)]%string)
  end.

(** The messaging service over the daemon's own state, and back. *)
Definition messaging_service (st : RpcState) : Service PeersDb DaemonState :=
  MkService (rs_storage st) (peer_directory (rs_identity st)) (tn_daemon (rs_tunnel st)).
Definition put_service (sv : Service PeersDb DaemonState) (st : RpcState) : RpcState :=
  set_tunnel (set_daemon (sv_control sv) (rs_tunnel st)) (set_messages (sv_storage sv) st).
Definition on_service {E X} (f : Service PeersDb DaemonState → outcome E X * list Output * Service PeersDb DaemonState) : RpcM (outcome E X) :=
  sv ← gets messaging_service;
  let '(r, outs, sv) := f sv in
  modify (put_service sv);;
  emit (map MessagingOut outs);;
  mret r.

(** The plugins are the messaging plugin. *)
Definition plugins (seed : list Z) : list (DaemonPlugin (Service PeersDb DaemonState) Output) :=
  [MessagingPlugin (H0 := ControlSenderAdapter answer (ev_now env)) (ev_db2 env) (ev_db3 env) (ev_db3 env) (ev_now_ms env) seed].

Definition method_peers_forget (params : option Value) : RpcM Value :=
  p ← required de_forget params;
  node_id ← lift_or codes.INVALID_PARAMS (NodeId_from_str p);
  db ← gets (λ st, peer_directory (rs_identity st));
  let '(r, evs, db) := forget (ev_db env) node_id db in
  modify (set_directory db);;
  emit (map DirectoryEvent evs);;
  forgot ← lift_or codes.MESSAGE_STORAGE_ERROR r;
  (if (forgot : bool) then
     seed ← gets (λ st, cfg_seed (dm_config (tn_daemon (rs_tunnel st))));
     _ ← on_service (λ sv, let '(outs, sv) := notify_forgotten (plugins seed) node_id sv in (Ok tt : outcome unit unit, outs, sv));
     mret tt
   else mret tt);;
  mret (VObj [("forgot_identity"%string, VBool forgot)]).

(** *** The identity broadcast *)
Definition i64_MIN : Z := - 2 ^ 63.
Definition broadcast_state_value (i : IdentityState) : Value :=
  let cfg := broadcast_config i in
  let ran := negb (last_broadcast_ms i =? i64_MIN) in
  VObj [("outgoing_interval_s", opt_value VNum (outgoing_interval_s cfg)); ("watch_incoming", VBool (watch_incoming cfg));
    ("min_peer_interval_s", VNum (min_peer_interval_s cfg));
    ("last_broadcast_ms", if ran then VNum (last_broadcast_ms i) else Null);
    ("last_recipient_count", if ran then VNum (last_broadcast_recipients i) else Null)]%string.
Definition build_broadcast_state : RpcM Value := gets (λ st, broadcast_state_value (rs_identity st)).

Definition method_peers_broadcast_identity_now : RpcM Value :=
  tn ← gets rs_tunnel;
  ids ← gets rs_identity;
  let '(recipients, acts, d, ids) := run_broadcast_cycle answer iter_routes (ev_now env) (ev_now_ms env) (tn_daemon tn) ids in
  modify (λ st, set_tunnel (set_daemon d tn) (set_identity ids st));;
  emit (map MeshOut acts);;
  mret (VObj [("recipients", VNum (Z.of_nat recipients)); ("sent_at_ms", VNum (last_broadcast_ms ids))]%string).

(** The file is written only if the current one loads; failures are ignored. *)
Definition persist_broadcast_config_to_disk : RpcM unit :=
  cfg ← gets (λ st, broadcast_config (rs_identity st));
  file ← gets rs_config_file;
  match file ≫= splice_broadcast cfg with
  | Some content => if ev_write env then modify (set_config_file (Some content)) else mret tt
  | None => mret tt
  end.

Definition method_peers_set_broadcast_config (params : option Value) : RpcM Value :=
  parsed ← match params with
           | Some v => some_or codes.INVALID_PARAMS (de_set_broadcast_config v)
           | None => mret {| sb_outgoing_interval_s := None; sb_watch_incoming := None; sb_min_peer_interval_s := None |}
           end;
  guard_or codes.PEER_BROADCAST_INTERVAL_TOO_SMALL
    (match sb_outgoing_interval_s parsed with Some (Some secs) => MIN_OUTGOING_INTERVAL_S <=? secs | _ => true end);;
  guard_or codes.INVALID_PARAMS (match sb_min_peer_interval_s parsed with Some min => negb (min =? 0) | None => true end);;
  cfg ← gets (λ st, broadcast_config (rs_identity st));
  modify (set_broadcast_config (MkBroadcast
    (default (outgoing_interval_s cfg) (sb_outgoing_interval_s parsed))
    (default (watch_incoming cfg) (sb_watch_incoming parsed))
    (default (min_peer_interval_s cfg) (sb_min_peer_interval_s parsed)) (bc_peer_cleanup cfg)));;
  emit [WakeBroadcast];;
  persist_broadcast_config_to_disk;;
  build_broadcast_state.

(** *** Routing *)
Definition method_route_set_split_default (params : option Value) : RpcM Value :=
  on ← match params with Some v => some_or codes.INVALID_PARAMS (de_set_split_default v) | None => mret false end;
  modify (set_route_on on);;
  emit [WakeInstaller; StatusEvent (VObj [("jsonrpc", strz "2.0"); ("method", strz "status.event");
    ("params", VObj [("kind", strz (if on : bool then "route_on" else "route_off"))])])]%string;;
  mret (VObj [("on", VBool on); ("via_gateway_id", Null)]%string).

Definition route_value (p : NodeId * RouteTableEntry) : Value :=
  let '(dst, entry) := p in
  VObj [("destination", VStr (match rt_mesh_ip entry with Some ip => fmt_ipv4 ip | None => to_hex dst end));
    ("via", id_value (rt_next_hop entry)); ("hops", VNum (rt_hops entry)); ("learned_from", id_value (rt_learned_from entry));
    ("is_gateway", VBool (rt_is_gateway entry)); ("load", VNum (rt_gateway_load entry));
    ("age_s", VNum (elapsed (ev_now env) (rt_last_seen entry) / 1000))]%string.
Definition gateway_value (selected : option NodeId) (p : NodeId * RouteTableEntry) : Value :=
  let '(dst, entry) := p in
  VObj [("node_id", id_value dst); ("via", id_value (rt_next_hop entry)); ("hops", VNum (rt_hops entry));
    ("score", VNum (gateway_score (rt_hops entry) (rt_gateway_load entry) (rt_rtt_ms entry)));
    ("selected", VBool (bool_decide (selected = Some dst)))]%string.
Definition build_route_table : RpcM Value :=
  t ← gets (λ st, tn_routing (rs_tunnel st));
  let entries := iter_routes (routes t) in
  let selected := fst <$> nearest_gateway_route entries t in
  mret (VObj [("routes", VArr (map route_value entries));
    ("gateways", VArr (map (gateway_value selected) (List.filter (λ p, rt_is_gateway p.2) entries)))]%string).

(** *** Gateway *)
Definition build_gateway_preflight : RpcM Value :=
  let supported := ev_gateway_supported env in
  mret (VObj [("supported", VBool supported); ("platform", VStr (ev_platform env));
    ("checks", VArr [VObj [("name", strz "platform_supported"); ("ok", VBool supported);
      ("detail", strz (if supported then "linux + macos support gateway mode in this build" else "gateway mode requires linux or macos"))]]);
    ("suggested_nat_interfaces", VArr (map VStr (list_nat_candidate_interfaces (ev_interfaces env))))]%string).
Definition build_gateway_status : RpcM Value :=
  t ← gets rs_tunnel;
  mret (VObj [("active", VBool (tn_is_gateway t)); ("nat_interface", opt_value VStr (ev_nat_interface env)); ("advertised_routes", VArr [])]%string).

(** Reading the configuration file, changing its [gateway] table and writing
    it back. *)
Definition edit_gateway (f : list (list Z * TomlValue) → list (list Z * TomlValue)) : RpcM unit :=
  file ← gets rs_config_file;
  current ← some_or codes.INTERNAL_ERROR file;
  doc ← some_or codes.INTERNAL_ERROR (toml_from_str current);
  table ← some_or codes.INTERNAL_ERROR (match doc with TTable t => Some t | _ => None end);
  gw_table ← some_or codes.INTERNAL_ERROR
    (match default (TTable []) (table_get (str "gateway") table) with TTable t => Some t | _ => None end);
  let doc := TTable (table_insert (str "gateway") (TTable (f gw_table)) table) in
  new_toml ← some_or codes.INTERNAL_ERROR (toml_to_string doc);
  guard_or codes.INTERNAL_ERROR (ev_write env);;
  modify (set_config_file (Some new_toml)).

Definition method_gateway_enable (params : option Value) : RpcM Value :=
  guard_or codes.GATEWAY_NOT_SUPPORTED (ev_gateway_supported env);;
  p ← required de_gateway_enable params;
  guard_or codes.INVALID_PARAMS (negb (bool_decide (ge_nat_interface p = [])));;
  edit_gateway (λ gw,
    let gw := table_insert (str "nat_interface") (TStr (ge_nat_interface p)) (table_insert (str "enabled") (TBool true) gw) in
    match ge_max_connections p with Some max => table_insert (str "max_connections") (TInt max) gw | None => gw end);;
  mret (VObj [("active", VBool false); ("nat_interface", VStr (ge_nat_interface p)); ("advertised_routes", VArr []);
    ("requires_restart", VBool true); ("written_to", VStr (ev_config_path env))]%string).

Definition method_gateway_disable : RpcM Value :=
  guard_or codes.GATEWAY_NOT_SUPPORTED (ev_gateway_supported env);;
  edit_gateway (table_insert (str "enabled") (TBool false));;
  mret (VObj [("active", VBool false); ("requires_restart", VBool true); ("written_to", VStr (ev_config_path env))]%string).

(** *** Mesh and configuration *)
Definition build_mesh_status : RpcM Value :=
  st ← gets id;
  let '(mode, fp) :=
    match cfg_mesh_handshake_key (dm_config (tn_daemon (rs_tunnel st))), rs_mesh_fingerprint st with
    | Some _, Some fp => ("private", Some (hex fp))
    | _, _ => ("open", None)
    end%string in
  mret (VObj [("mode", strz mode); ("mesh_id", opt_value VStr (rs_mesh_id st)); ("fingerprint", opt_value VStr fp)]%string).

(** The time of the last change is [ev_modified]. *)
Definition method_config_get (params : option Value) : RpcM Value :=
  let format := match params with
                | Some v => match de_config_get v with Some (Some f) => f | _ => str "toml" end
                | None => str "toml"
                end in
  file ← gets rs_config_file;
  content ← some_or codes.INTERNAL_ERROR file;
  mret (VObj [("format", VStr format); ("config", VStr content); ("source_path", VStr (ev_config_path env));
    ("last_modified", VStr (system_time_to_iso8601 (ev_modified env)))]%string).

Definition method_config_save (params : option Value) : RpcM Value :=
  p ← required de_config_save params;
  _ ← some_or codes.INVALID_PARAMS (toml_from_str (sp_config p));
  (if sp_dry_run p then mret tt
   else guard_or codes.INTERNAL_ERROR (ev_write env);; modify (set_config_file (Some (sp_config p))));;
  mret (VObj [("saved", VBool (negb (sp_dry_run p))); ("requires_restart", VArr [strz "*"]); ("written_to", VStr (ev_config_path env))]%string).

(** *** Messages *)
Definition parse_peer_node_id (s : list Z) : RpcM NodeId :=
  id ← lift_or codes.INVALID_PARAMS (parse_node_id s); some_or codes.INVALID_PARAMS id.

Definition method_messages_list_conversations : RpcM Value :=
  sv ← gets messaging_service;
  let connected : gset (list Z) := set_map hex_node_id (dom (dm_sessions (sv_control sv))) in
  conversations ← lift_or codes.MESSAGE_STORAGE_ERROR (list_conversations (ev_db env) iter_meta sv);
  mret (VObj [("conversations"%string, VArr (map (conversation_value connected) conversations))]).

Definition method_messages_history (params : option Value) : RpcM Value :=
  p ← required de_history params;
  guard_or codes.INVALID_PARAMS (bool_decide (length (mh_peer_node_id p) = 32%nat));;
  let limit := Z.max 1 (Z.min 500 (default 100 (mh_limit p))) in
  s ← gets rs_storage;
  r ← lift_or codes.MESSAGE_STORAGE_ERROR (history (ev_db env) (mh_peer_node_id p) (mh_before_ts_ms p) limit s);
  mret (VObj [("messages", VArr (map message_value r.1)); ("has_more", VBool r.2)]%string).

Definition method_messages_send (params : option Value) : RpcM Value :=
  p ← required de_send params;
  guard_or codes.INVALID_PARAMS (negb (bool_decide (ms_body p = [])));;
  guard_or codes.MESSAGE_BODY_TOO_LARGE (negb (MAX_BODY_BYTES <? Z.of_nat (length (ms_body p))));;
  peer ← parse_peer_node_id (ms_peer_node_id p);
  r ← on_service (send (H0 := ControlSenderAdapter answer (ev_now env)) (ev_db env) (ev_db2 env) (ev_db3 env) (ev_now_ms env) (ev_now_ms' env)
        (ev_message_id env) (ev_ephemeral env) (ev_nonce env) peer (ms_body p));
  match r with
  | Ok record => mret (VObj [("id", VStr (mr_id record)); ("timestamp_ms", VNum (mr_timestamp_ms record));
                   ("status", strz (status_as_str (mr_status record)))]%string)
  | Err NoX25519 => throw codes.MESSAGE_PEER_UNKNOWN
  | Err _ => throw codes.MESSAGE_STORAGE_ERROR
  | Panic => λ st, (Panic, [], st)
  end.

Definition method_messages_mark_read (params : option Value) : RpcM Value :=
  p ← required de_mark_read params;
  guard_or codes.INVALID_PARAMS (bool_decide (length (mk_peer_node_id p) = 32%nat));;
  s ← gets rs_storage;
  let '(r, s) := mark_read_up_to (ev_db env) (ev_db2 env) (mk_peer_node_id p) (mk_up_to_ts_ms p) s in
  modify (set_messages s);;
  unread ← lift_or codes.MESSAGE_STORAGE_ERROR r;
  mret (VObj [("unread_count"%string, VNum unread)]).

Definition method_messages_delete_conversation (params : option Value) : RpcM Value :=
  p ← required de_delete_conversation params;
  node_id ← lift_or codes.INVALID_PARAMS (NodeId_from_str p);
  r ← on_service (service_delete_conversation (ev_db env) node_id);
  n ← lift_or codes.MESSAGE_STORAGE_ERROR r;
  mret (VObj [("deleted_messages", VNum (Z.of_nat n.1)); ("deleted_conversation", VBool n.2)]%string).

Definition method_messages_delete_all : RpcM Value :=
  r ← on_service (service_delete_all_messages (ev_db env));
  n ← lift_or codes.MESSAGE_STORAGE_ERROR r;
  mret (VObj [("deleted_messages", VNum (Z.of_nat n.1)); ("deleted_conversations", VNum (Z.of_nat n.2))]%string).

(** *** Dispatch *)

Definition dispatch (req : RpcRequest) : RpcM Value :=
  let params := rq_params req in
  match method_of (rq_method req) with
  | None => throw codes.METHOD_NOT_FOUND
  | Some m =>
    match m with
    | MHello => method_hello params
    | MStatus => build_status
    | MPeersList => build_peer_list
    | MStatusSubscribe | MPeersSubscribe | MGatewaySubscribe | MMessagesSubscribe => subscription
    | MStatusUnsubscribe | MPeersUnsubscribe | MGatewayUnsubscribe | MLogsUnsubscribe | MMessagesUnsubscribe => mret Null
    | MPeersAddStatic => method_peers_add_static params
    | MPeersConnectDynamic => method_peers_connect_dynamic params
    | MPeersRemove => method_peers_remove params
    | MPeersDiscovered => build_peers_discovered
    | MPeersPair => throw codes.INTERNAL_ERROR
    | MPeersImportIdentity => method_peers_import_identity params
    | MPeersForget => method_peers_forget params
    | MPeersBroadcastNow => method_peers_broadcast_identity_now
    | MPeersSetBroadcast => method_peers_set_broadcast_config params
    | MPeersGetBroadcast => build_broadcast_state
    | MRouteSetSplitDefault => method_route_set_split_default params
    | MRouteTable => build_route_table
    | MGatewayPreflight => build_gateway_preflight
    | MGatewayEnable => method_gateway_enable params
    | MGatewayDisable => method_gateway_disable
    | MGatewayStatus => build_gateway_status
    | MConfigGet => method_config_get params
    | MConfigSave => method_config_save params
    | MMeshStatus => build_mesh_status
    | MLogsSubscribe => start_logs_subscription
    | MMessagesList => method_messages_list_conversations
    | MMessagesHistory => method_messages_history params
    | MMessagesSend => method_messages_send params
    | MMessagesMarkRead => method_messages_mark_read params
    | MMessagesDeleteConversation => method_messages_delete_conversation params
    | MMessagesDeleteAll => method_messages_delete_all
    end
  end.
End Handlers.

(** ** A connection *)
Definition error_response (id : Value) (e : RpcError) : Value :=
  VObj [("jsonrpc", strz "2.0"); ("id", id);
    ("error", VObj (("code", VNum (err_code e)) :: match err_data e with Some d => [("data", d)] | None => [] end))]%string.
Definition result_response (id result : Value) : Value :=
  VObj [("jsonrpc", strz "2.0"); ("id", id); ("result", result)]%string.

Section Connection.
Context {A : Aead} {D : Ecdh} {J : SerdeJson} {T : Toml}.
Context (digest : NodeId → list Z) (answer : NodeId → TransportFrame → SendResult).
Context (iter_routes : gmap NodeId RouteTableEntry → list (NodeId * RouteTableEntry)).
Context (iter_meta : gmap (list Z) ConversationMeta → list (list Z * ConversationMeta)).

Notation run env req := (dispatch digest answer iter_routes iter_meta env req).

(** One turn of the loop: the response, if the line is not blank, whether the
    greeting is done, and the state; a panic ends the connection. *)
Definition handle_line (env : RpcEnv) (line : list Z) (handshake_done : bool) (st : RpcState)
  : outcome RpcError (option Value * bool) * list RpcOutput * RpcState :=
  if bool_decide (trim line = []) then (Ok (None, handshake_done), [], st) else
  match from_str line with
  | None => (Ok (Some (error_response Null (MkRpcError codes.PARSE_ERROR None)), handshake_done), [], st)
  | Some req =>
    let id := default Null (rq_id req) in
    let hello := bool_decide (rq_method req = str "rpc.hello") in
    if negb handshake_done && negb hello then
      (Ok (Some (error_response id (MkRpcError codes.INVALID_REQUEST None)), handshake_done), [], st)
    else
      match run env req st with
      | (Ok result, out, st) => (Ok (Some (result_response id result), handshake_done || hello), out, st)
      | (Err e, out, st) => (Ok (Some (error_response id e), handshake_done || hello), out, st)
      | (Panic, out, st) => (Panic, out, st)
      end
  end.

(** The responses in order, and whether the connection is still up. *)
Fixpoint handle_connection (reqs : list (RpcEnv * list Z)) (handshake_done : bool) (st : RpcState)
  : list Value * bool * list RpcOutput * RpcState :=
  match reqs with
  | [] => ([], true, [], st)
  | (env, line) :: reqs =>
    match handle_line env line handshake_done st with
    | (Ok (response, handshake_done), out, st) =>
      let '(responses, up, outs, st) := handle_connection reqs handshake_done st in
      (match response with Some v => v :: responses | None => responses end, up, out ++ outs, st)
    | (_, out, st) => ([], false, out, st)
    end
  end.
End Connection.
