(* ===== verification/RpcProofs.v ===== *)
(** * Correctness of the RPC server

    A logic for the handlers ([quiet], [late], [rejecting]), then: the greeting
    guards the daemon, every request gets its response, and a request that is
    refused changes nothing. *)

From S2P Require Import Prelude Core MeshAddress Frames Control Stream Fragment Routing Session DataPlane SendBuffer Trust E2e.
From S2P Require Import Packet Conntrack Gateway Gateway6 Discovery Handshake Reconnect Daemon DaemonProofs Link Text Ipv6Text Calendar MessageStore PeerDirectory.
From S2P Require Import Identity Messaging Tunnel Json Toml Config Rpc.

(** ** A logic for handlers *)

(** The codes of a request that is refused before it is carried out. *)
Definition refusals : list Z := [codes.METHOD_NOT_FOUND; codes.INVALID_PARAMS; codes.RPC_VERSION_MISMATCH; codes.GATEWAY_NOT_SUPPORTED;
  codes.MESSAGE_PEER_UNKNOWN; codes.MESSAGE_BODY_TOO_LARGE; codes.PEER_IDENTITY_MISMATCH; codes.PEER_BROADCAST_INTERVAL_TOO_SMALL].

(** Changes nothing; fails only with other codes; when it refuses, it has
    changed nothing. *)
Definition quiet {A} (c : RpcM A) : Prop := ∀ st, (c st).1.2 = [] ∧ (c st).2 = st.
Definition late {A} (c : RpcM A) : Prop := ∀ st e, (c st).1.1 = Err e → err_code e ∉ refusals.
Definition rejecting {A} (c : RpcM A) : Prop := ∀ st e, (c st).1.1 = Err e → err_code e ∈ refusals → (c st).1.2 = [] ∧ (c st).2 = st.

Create HintDb rpc.

Lemma quiet_ret {A} (a : A) : quiet (mret a).
Proof. by intros st. Qed.
Lemma quiet_gets {A} (f : RpcState → A) : quiet (gets f).
Proof. by intros st. Qed.
Lemma quiet_throw {A} code : quiet (throw code : RpcM A).
Proof. by intros st. Qed.
Lemma quiet_guard code b : quiet (guard_or code b).
Proof. destruct b; by intros st. Qed.
Lemma quiet_some {A} code (o : option A) : quiet (some_or code o).
Proof. destruct o; by intros st. Qed.
Lemma quiet_lift {E A} code (o : outcome E A) : quiet (lift_or code o).
Proof. destruct o; by intros st. Qed.
Lemma quiet_bind {A B} (c : RpcM A) (k : A → RpcM B) : quiet c → (∀ a, quiet (k a)) → quiet (c ≫= k).
Proof.
  intros Hc Hk st. destruct (Hc st) as [H1 H2]. unfold mbind, rpc_bind. destruct (c st) as [[[a|e|] out] st'].
  - cbn in *. subst. destruct (Hk a st) as [H1 H2]. by destruct (k a st) as [[r out'] st'].
  - by cbn in *.
  - by cbn in *.
Qed.
(** After a quiet step the state is as before, and the rest runs in it. *)
Lemma quiet_bind_state {A B} (c : RpcM A) (k : A → RpcM B) st : quiet c →
  ((c ≫= k) st).2 = st ∨ ∃ a, (c st).1.1 = Ok a ∧ ((c ≫= k) st).2 = (k a st).2.
Proof.
  intros Hc. destruct (Hc st) as [_ H2]. unfold mbind, rpc_bind. destruct (c st) as [[[a|e|] out] st']; cbn in *; subst; [|by left|by left].
  right. exists a. split; [done|]. by destruct (k a st) as [[? ?] ?].
Qed.
Lemma modify_bind_state {B} g (k : unit → RpcM B) st : ((modify g ≫= k) st).2 = (k tt (g st)).2.
Proof. unfold mbind, rpc_bind, modify. by destruct (k tt (g st)) as [[? ?] ?]. Qed.
Lemma quiet_required {P} (de : Value → option P) params : quiet (required de params).
Proof. apply quiet_bind; intros; apply quiet_some. Qed.
#[export] Hint Resolve quiet_ret quiet_gets quiet_throw quiet_guard quiet_some quiet_lift quiet_required : rpc.

Lemma late_ret {A} (a : A) : late (mret a).
Proof. by intros st e. Qed.
Lemma late_gets {A} (f : RpcState → A) : late (gets f).
Proof. by intros st e. Qed.
Lemma late_modify f : late (modify f).
Proof. by intros st e. Qed.
Lemma late_emit out : late (emit out).
Proof. by intros st e. Qed.
Lemma late_throw {A} code : code ∉ refusals → late (throw code : RpcM A).
Proof. by intros H st e [= <-]. Qed.
Lemma late_guard code b : code ∉ refusals → late (guard_or code b).
Proof. intros H. destruct b; [apply late_ret|by apply late_throw]. Qed.
Lemma late_some {A} code (o : option A) : code ∉ refusals → late (some_or code o).
Proof. intros H. destruct o; [apply late_ret|by apply late_throw]. Qed.
Lemma late_lift {E A} code (o : outcome E A) : code ∉ refusals → late (lift_or code o).
Proof. intros H. destruct o; [apply late_ret|by apply late_throw|by intros st e]. Qed.
Lemma late_bind {A B} (c : RpcM A) (k : A → RpcM B) : late c → (∀ a, late (k a)) → late (c ≫= k).
Proof.
  intros Hc Hk st e. unfold mbind, rpc_bind. specialize (Hc st). destruct (c st) as [[[a|e'|] out] st']; [|intros [= <-]; by apply Hc|done].
  specialize (Hk a st'). destruct (k a st') as [[r out'] st'']. apply Hk.
Qed.
Lemma late_on_service {E X} (f : Service PeersDb DaemonState → outcome E X * list Output * Service PeersDb DaemonState) : late (on_service f).
Proof.
  apply late_bind; [apply late_gets|]. intros sv. destruct (f sv) as [[r outs] sv']. apply late_bind; [apply late_modify|].
  intros _. apply late_bind; [apply late_emit|]. intros _. apply late_ret.
Qed.
#[export] Hint Resolve late_ret late_gets late_modify late_emit late_on_service : rpc.
#[export] Hint Extern 1 (late (throw _)) => apply late_throw; set_solver : rpc.
#[export] Hint Extern 1 (late (guard_or _ _)) => apply late_guard; by apply (bool_decide_unpack _) : rpc.
#[export] Hint Extern 1 (late (some_or _ _)) => apply late_some; by apply (bool_decide_unpack _) : rpc.
#[export] Hint Extern 1 (late (lift_or _ _)) => apply late_lift; by apply (bool_decide_unpack _) : rpc.

Lemma rejecting_quiet {A} (c : RpcM A) : quiet c → rejecting c.
Proof. intros H st e _ _. apply H. Qed.
Lemma rejecting_late {A} (c : RpcM A) : late c → rejecting c.
Proof. intros H st e He Hin. by destruct (H st e He). Qed.
Lemma rejecting_bind {A B} (c : RpcM A) (k : A → RpcM B) : quiet c → (∀ a, rejecting (k a)) → rejecting (c ≫= k).
Proof.
  intros Hc Hk st e. destruct (Hc st) as [H1 H2]. unfold mbind, rpc_bind. destruct (c st) as [[[a|e'|] out] st']; cbn in *; [|done|done].
  subst. specialize (Hk a st e). destruct (k a st) as [[r out'] st']. apply Hk.
Qed.

(** A sequence that succeeds has succeeded in each step. *)
Lemma bind_Ok {A B} (c : RpcM A) (k : A → RpcM B) st b out st' :
  (c ≫= k) st = (Ok b, out, st') → ∃ a out1 st1 out2, c st = (Ok a, out1, st1) ∧ k a st1 = (Ok b, out2, st').
Proof.
  unfold mbind, rpc_bind. destruct (c st) as [[[a|e|] out1] st1]; [|done|done]. destruct (k a st1) as [[r out2] st2] eqn:Hk.
  intros [= -> <- ->]. by eexists _, _, _, _.
Qed.
Lemma guard_or_Ok code b st u out st' : guard_or code b st = (Ok u, out, st') → b = true ∧ st' = st.
Proof. destruct b; [|done]. by intros [= _ <-]. Qed.
Lemma some_or_Ok {A} code (o : option A) st a out st' : some_or code o st = (Ok a, out, st') → o = Some a ∧ st' = st.
Proof. destruct o; [|done]. by intros [= <- _ <-]. Qed.
Ltac rpc_inv :=
  repeat match goal with
  | H : (_ ≫= _) _ = (Ok _, _, _) |- _ => apply bind_Ok in H as (? & ? & ? & ? & ? & ?)
  | H : guard_or _ _ _ = (Ok _, _, _) |- _ => apply guard_or_Ok in H as [? ->]
  | H : some_or _ _ _ = (Ok _, _, _) |- _ => apply some_or_Ok in H as [? ->]
  | H : mret _ _ = (Ok _, _, _) |- _ => injection H as ? ? ?; subst
  | x : () |- _ => destruct x
  end.

(** What a handler leaves as it is. *)
Definition keeps {X A} (f : RpcState → X) (c : RpcM A) : Prop := ∀ st, f (c st).2 = f st.

Lemma keeps_quiet {X A} (f : RpcState → X) (c : RpcM A) : quiet c → keeps f c.
Proof. intros H st. destruct (H st) as [_ E]. by rewrite E. Qed.
Lemma keeps_modify {X} (f : RpcState → X) g : (∀ st, f (g st) = f st) → keeps f (modify g).
Proof. intros H st. apply H. Qed.
Lemma keeps_emit {X} (f : RpcState → X) out : keeps f (emit out).
Proof. by intros st. Qed.
Lemma keeps_bind {X A B} (f : RpcState → X) (c : RpcM A) (k : A → RpcM B) : keeps f c → (∀ a, keeps f (k a)) → keeps f (c ≫= k).
Proof.
  intros Hc Hk st. unfold mbind, rpc_bind. specialize (Hc st). destruct (c st) as [[[a|e|] out] st']; [|done|done]. cbn in Hc.
  specialize (Hk a st'). destruct (k a st') as [[r out'] st'']. cbn in *. congruence.
Qed.
Lemma keeps_throw_data {X A} (f : RpcState → X) code v : keeps f (throw_data code v : RpcM A).
Proof. by intros st. Qed.
Lemma keeps_panic {X A} (f : RpcState → X) : keeps f ((λ st, (Panic, [], st)) : RpcM A).
Proof. by intros st. Qed.
#[export] Hint Resolve keeps_emit keeps_throw_data keeps_panic : rpc.
#[export] Hint Extern 2 (keeps _ _) => apply keeps_quiet; solve [eauto with rpc] : rpc.
#[export] Hint Extern 3 (keeps _ (modify _)) => apply keeps_modify; intros; reflexivity : rpc.
Ltac rpc_keeps := repeat first [progress eauto with rpc | apply keeps_bind; [|intros ?] | case_match].

(** Decides which of the three rules applies, and unfolds the rest. *)
Ltac rpc_quiet := repeat first [progress eauto with rpc | apply quiet_bind; [|intros ?] | case_match].
Ltac rpc_late := repeat first [progress eauto with rpc | apply late_bind; [|intros ?] | case_match].
Ltac rpc_reject := repeat first [apply rejecting_quiet; solve [rpc_quiet] | apply rejecting_late; solve [rpc_late]
  | apply rejecting_bind; [solve [rpc_quiet]|intros ?] | case_match].

Ltac unfold_methods :=
  unfold method_hello, build_status, build_peer_list, method_peers_add_static, method_peers_connect_dynamic, method_peers_remove, build_peers_discovered,
    method_peers_forget, method_peers_broadcast_identity_now, method_peers_set_broadcast_config, build_broadcast_state,
    persist_broadcast_config_to_disk, method_route_set_split_default, build_route_table, build_gateway_preflight, method_gateway_enable,
    method_gateway_disable, build_gateway_status, method_config_get, method_config_save, build_mesh_status, start_logs_subscription,
    subscription, method_messages_list_conversations, method_messages_history, method_messages_mark_read,
    method_messages_delete_conversation, method_messages_delete_all, parse_peer_node_id.

Section Proofs.
Context {A : Aead} {D : Ecdh} {J : SerdeJson} {T : Toml}.
Context (digest : NodeId → list Z) (answer : NodeId → TransportFrame → SendResult).
Context (iter_routes : gmap NodeId RouteTableEntry → list (NodeId * RouteTableEntry)).
Context (iter_meta : gmap (list Z) ConversationMeta → list (list Z * ConversationMeta)).
Notation run env req := (dispatch digest answer iter_routes iter_meta env req).

Lemma edit_gateway_late env f : late (edit_gateway env f).
Proof. unfold edit_gateway. rpc_late. Qed.
Hint Resolve edit_gateway_late : rpc.

Lemma set_directory_same st : set_directory (peer_directory (rs_identity st)) st = st.
Proof. by destruct st as [? ? [] ? ? ? ? ? ? ? ?]. Qed.

Lemma put_service_same st : put_service (messaging_service st) st = st.
Proof. by destruct st as [? [] ? ? ? ? ? ? ? ? ?]. Qed.

(** Importing a different key leaves the directory as it was. *)
Lemma import_mismatch ok peer key name now db h evs db' :
  import_identity_if_compatible ok peer key name now db = (Ok (KeyMismatch h), evs, db') → evs = [] ∧ db' = db.
Proof.
  unfold import_identity_if_compatible, import_identity. destruct ok; cbn [negb]; [|done].
  destruct (peers_seen db !! hex_node_id peer) as [row|]; [case_bool_decide|]; try done. by intros [= <- <-].
Qed.

Lemma import_identity_rejecting env params : rejecting (method_peers_import_identity env params).
Proof.
  unfold method_peers_import_identity. do 3 (apply rejecting_bind; [rpc_quiet|intros ?]).
  intros st e. unfold mbind, rpc_bind, gets, modify, emit. cbv beta iota zeta.
  destruct (import_identity_if_compatible _ _ _ _ _ _) as [[r evs] db] eqn:Hi.
  destruct r as [[| |h]| |]; cbn -[set_directory]; [done|done| |set_solver|done].
  apply import_mismatch in Hi as [-> ->]. intros _ _. by rewrite set_directory_same.
Qed.

(** A message to an unknown peer leaves the service as it was. *)
Lemma send_unknown `{!PeerDirectory P} `{!ControlSender C} ok ok2 ok3 now now' id eph nonce peer body (sv : Service P C) outs sv' :
  send ok ok2 ok3 now now' id eph nonce peer body sv = (Err NoX25519, outs, sv') → outs = [] ∧ sv' = sv.
Proof.
  unfold send, record_local_send, insert_message, bump_conversation_after_local_send. intros Hs.
  repeat (case_match; simplify_eq/=; try done).
Qed.

Lemma send_rejecting env params : rejecting (method_messages_send answer env params).
Proof.
  unfold method_messages_send, parse_peer_node_id. do 4 (apply rejecting_bind; [rpc_quiet|intros ?]).
  intros st e. unfold on_service, mbind, rpc_bind, gets, modify, emit. cbv beta iota zeta.
  destruct (send _ _ _ _ _ _ _ _ _ _ _) as [[r outs] sv] eqn:Hs. destruct r as [rec|err|]; cbn -[put_service]; [done| |done].
  destruct err; cbn -[put_service]; try set_solver. apply send_unknown in Hs as [-> ->]. intros _ _. by rewrite put_service_same.
Qed.
Hint Resolve import_identity_rejecting send_rejecting : rpc.

Lemma dispatch_rejecting env req : rejecting (run env req).
Proof.
  unfold dispatch. destruct (method_of (rq_method req)) as [m|]; [|rpc_reject]. destruct m; eauto with rpc;
  unfold_methods; rpc_reject.
Qed.

(** C23: A refused request changes nothing: whatever the method and the
    parameters, when the answer says that the method or its parameters are
    not acceptable, that the peer is unknown, that its key differs, or that
    something is too large, too small or not supported, the daemon's state is
    as before and nothing has left it. *)
Theorem refused_requests_harmless env req st e :
  (run env req st).1.1 = Err e → err_code e ∈ refusals → (run env req st).1.2 = [] ∧ (run env req st).2 = st.
Proof. apply dispatch_rejecting. Qed.

(** ** What each method may change *)

(** A broadcast cycle changes the daemon and the record of the last cycle. *)
Lemma broadcast_now_keeps {X} (f : RpcState → X) env :
  (∀ st d n t, f (set_tunnel (set_daemon d (rs_tunnel st)) (set_identity (MkIdentity (broadcast_config (rs_identity st))
     (broadcast_peer_last_seen (rs_identity st)) (peer_directory (rs_identity st)) t n) st)) = f st) →
  keeps f (method_peers_broadcast_identity_now answer iter_routes env).
Proof.
  intros Hf st. unfold method_peers_broadcast_identity_now, mbind, rpc_bind, gets, modify, emit, run_broadcast_cycle. cbv beta iota zeta.
  destruct (send_peer_info_all _ _ _ _) as [acts d]. cbn -[set_tunnel set_identity set_daemon]. apply Hf.
Qed.

(** Goes through the methods for one part of the state. *)
Ltac frame allowed :=
  match goal with |- context [method_of ?m] => destruct (method_of m) as [mm|]; [|left; rpc_keeps] end;
  match goal with mm : Method |- _ => destruct (decide (mm ∈ allowed)) as [Hin|Hin]; [right; by exists mm|left]; 
    destruct mm; try (exfalso; apply Hin; by apply (bool_decide_unpack _));
    first [solve [apply broadcast_now_keeps; intros; reflexivity]
          | unfold_methods; unfold method_peers_import_identity, method_messages_send, on_service; rpc_keeps] end.

Definition only_by {X} (f : RpcState → X) (allowed : list Method) : Prop :=
  ∀ env req, keeps f (run env req) ∨ ∃ m, method_of (rq_method req) = Some m ∧ m ∈ allowed.

Lemma file_only : only_by rs_config_file [MConfigSave; MGatewayEnable; MGatewayDisable; MPeersSetBroadcast].
Proof. intros env req. unfold dispatch. frame [MConfigSave; MGatewayEnable; MGatewayDisable; MPeersSetBroadcast]. Qed.
Lemma directory_only : only_by (λ st, peer_directory (rs_identity st)) [MPeersImportIdentity; MPeersForget].
Proof. intros env req. unfold dispatch. frame [MPeersImportIdentity; MPeersForget]. Qed.
Lemma storage_only : only_by rs_storage [MMessagesSend; MMessagesMarkRead; MMessagesDeleteConversation; MMessagesDeleteAll; MPeersForget].
Proof. intros env req. unfold dispatch. frame [MMessagesSend; MMessagesMarkRead; MMessagesDeleteConversation; MMessagesDeleteAll; MPeersForget]. Qed.
Lemma route_only : only_by rs_route_on [MRouteSetSplitDefault].
Proof. intros env req. unfold dispatch. frame [MRouteSetSplitDefault]. Qed.
Lemma broadcast_only : only_by (λ st, broadcast_config (rs_identity st)) [MPeersSetBroadcast].
Proof. intros env req. unfold dispatch. frame [MPeersSetBroadcast]. Qed.
Lemma daemon_only : only_by (λ st, tn_daemon (rs_tunnel st)) [MMessagesSend; MMessagesDeleteConversation; MMessagesDeleteAll; MPeersForget; MPeersBroadcastNow].
Proof. intros env req. unfold dispatch. frame [MMessagesSend; MMessagesDeleteConversation; MMessagesDeleteAll; MPeersForget; MPeersBroadcastNow]. Qed.
Lemma gateway_only : only_by (λ st, (tn_gw_engine (rs_tunnel st), tn_gw_engine_v6 (rs_tunnel st), tn_is_gateway (rs_tunnel st))) [].
Proof. intros env req. unfold dispatch. frame (@nil Method). Qed.

(** A configuration the RPC layer accepts. *)
Definition broadcast_ok (c : BroadcastConfig) : Prop :=
  0 < min_peer_interval_s c ∧ match outgoing_interval_s c with Some s => MIN_OUTGOING_INTERVAL_S ≤ s | None => True end.

Lemma guard_Ok code b st : (guard_or code b st).1.1 = Ok tt → b = true.
Proof. by destruct b. Qed.

Lemma set_broadcast_ok env params st :
  (∀ v p m, de_set_broadcast_config v = Some p → sb_min_peer_interval_s p = Some m → 0 ≤ m) →
  broadcast_ok (broadcast_config (rs_identity st)) →
  broadcast_ok (broadcast_config (rs_identity (method_peers_set_broadcast_config env params st).2)).
Proof.
  intros Hde Hok. unfold method_peers_set_broadcast_config.
  match goal with |- context [(?c ≫= ?k) st] => destruct (quiet_bind_state c k st) as [->|(parsed & Hp & ->)]; [rpc_quiet|done|] end.
  match goal with |- context [(?c ≫= ?k) st] => destruct (quiet_bind_state c k st) as [->|([] & Hout%guard_Ok & ->)]; [rpc_quiet|done|] end.
  match goal with |- context [(?c ≫= ?k) st] => destruct (quiet_bind_state c k st) as [->|([] & Hmin%guard_Ok & ->)]; [rpc_quiet|done|] end.
  match goal with |- context [(?c ≫= ?k) st] => destruct (quiet_bind_state c k st) as [->|(cfg & Hcfg & ->)]; [rpc_quiet|done|] end.
  injection Hcfg as <-. rewrite modify_bind_state. match goal with |- context [(?c (set_broadcast_config ?g st)).2] =>
    assert (Hk : keeps (λ st, broadcast_config (rs_identity st)) c) by (unfold persist_broadcast_config_to_disk, build_broadcast_state; rpc_keeps);
    rewrite (Hk (set_broadcast_config g st)); change (broadcast_ok g) end.
  destruct Hok as [H1 H2]. split; cbn.
  - destruct (sb_min_peer_interval_s parsed) as [m|] eqn:Em; cbn; [|done]. apply negb_true_iff, Z.eqb_neq in Hmin.
    destruct params as [v|]; [|by injection Hp as <-]. cbn in Hp. destruct (de_set_broadcast_config v) as [p|] eqn:Ev; [|done].
    injection Hp as ->. specialize (Hde _ _ _ Ev Em). lia.
  - destruct (sb_outgoing_interval_s parsed) as [[secs|]|]; cbn; [by apply Z.leb_le|done|done].
Qed.

(** C24: Each method keeps to its own part of the daemon: whatever the request
    and whatever fails on the way, only the methods that save a configuration
    change the file, only importing and forgetting change known identities,
    only the messaging methods and forgetting change messages, only the
    toggles change the routes and the broadcast, which stays within its
    limits; no request touches the gateway's translators, and one that only
    asks changes nothing of the mesh. *)
Theorem rpc_frame env req st :
  (∀ v p m, de_set_broadcast_config v = Some p → sb_min_peer_interval_s p = Some m → 0 ≤ m) →
  let st' := (run env req st).2 in
  let by_methods ms := ∃ m, method_of (rq_method req) = Some m ∧ m ∈ ms in
  (rs_config_file st' = rs_config_file st ∨ by_methods [MConfigSave; MGatewayEnable; MGatewayDisable; MPeersSetBroadcast]) ∧
  (peer_directory (rs_identity st') = peer_directory (rs_identity st) ∨ by_methods [MPeersImportIdentity; MPeersForget]) ∧
  (rs_storage st' = rs_storage st ∨ by_methods [MMessagesSend; MMessagesMarkRead; MMessagesDeleteConversation; MMessagesDeleteAll; MPeersForget]) ∧
  (rs_route_on st' = rs_route_on st ∨ by_methods [MRouteSetSplitDefault]) ∧
  (tn_daemon (rs_tunnel st') = tn_daemon (rs_tunnel st) ∨
     by_methods [MMessagesSend; MMessagesDeleteConversation; MMessagesDeleteAll; MPeersForget; MPeersBroadcastNow]) ∧
  tn_gw_engine (rs_tunnel st') = tn_gw_engine (rs_tunnel st) ∧ tn_gw_engine_v6 (rs_tunnel st') = tn_gw_engine_v6 (rs_tunnel st) ∧
  (broadcast_ok (broadcast_config (rs_identity st)) → broadcast_ok (broadcast_config (rs_identity st'))).
Proof.
  intros Hde. cbv zeta.
  split; [destruct (file_only env req) as [H|H]; [by left|by right]|]. split; [destruct (directory_only env req) as [H|H]; [left; apply H|by right]|].
  split; [destruct (storage_only env req) as [H|H]; [by left|by right]|]. split; [destruct (route_only env req) as [H|H]; [by left|by right]|].
  split; [destruct (daemon_only env req) as [H|H]; [left; apply H|by right]|].
  destruct (gateway_only env req) as [H|(m & _ & Hm)]; [|by apply elem_of_nil in Hm]. specialize (H st). cbn in H. injection H as H1 H2 H3.
  split; [done|]. split; [done|]. intros Hok. destruct (broadcast_only env req) as [H|(m & Hm & Hin)]; [by rewrite (H st)|].
  apply list_elem_of_singleton in Hin as ->. unfold dispatch. rewrite Hm. by apply set_broadcast_ok.
Qed.

(** ** Connections *)
Notation connection := (handle_connection digest answer iter_routes iter_meta).
Notation line_step := (handle_line digest answer iter_routes iter_meta).

Definition blank (line : list Z) : bool := bool_decide (trim line = []).
Definition request_id (line : list Z) : Value :=
  match from_str line with Some req => default Null (rq_id req) | None => Null end.
Definition response_id (v : Value) : option Value :=
  match v with VObj fields => snd <$> List.find (λ p, (p.1 =? "id")%string) fields | _ => None end.

(** One response for a line that is not blank, with the request's identifier. *)
Lemma line_answered env line hs st r hs' out st' :
  line_step env line hs st = (Ok (r, hs'), out, st') →
  if blank line then r = None else ∃ v, r = Some v ∧ response_id v = Some (request_id line).
Proof.
  unfold handle_line, blank, request_id. case_bool_decide; [by intros [= <- <- <- <-]|].
  destruct (from_str line) as [req|]; [|intros [= <- <- <- <-]; eauto].
  destruct (negb hs && negb _); [intros [= <- <- <- <-]; eauto|].
  destruct (dispatch _ _ _ _ _ _ _) as [[[v|e|] o] s]; intros [= <- <- <- <-]; eauto.
Qed.

(** Every request gets its answer: the responses of a connection are one
    for each line that is not blank, in the order of the lines, with the
    identifiers of the requests, and the connection goes on unless a handler
    panics, in which case the lines before that one have been answered. *)
Theorem responses_in_order reqs hs st :
  let '(responses, up, _, _) := connection reqs hs st in
  ∃ n, (n ≤ length reqs)%nat ∧ (up = true → n = length reqs) ∧
    map response_id responses = map (λ l, Some (request_id l)) (List.filter (λ l, negb (blank l)) (take n (map snd reqs))).
Proof.
  revert hs st. induction reqs as [|[env line] reqs IH]; intros hs st; [by exists O|]. cbn [handle_connection].
  destruct (line_step env line hs st) as [[[[r hs']|e|] out] st'] eqn:Hl; [|by exists O; split_and!; [cbn; lia|done|]..].
  specialize (IH hs' st'). destruct (connection reqs hs' st') as [[[responses up] outs] st'']. destruct IH as (n & Hn & Hup & Hids).
  exists (S n). cbn [length take map snd List.filter]. split; [lia|]. split; [intros ?; f_equal; auto|]. apply line_answered in Hl.
  destruct (blank line); [by subst|]. destruct Hl as (v & -> & Hv). cbn. by rewrite Hv, Hids.
Qed.

(** A refusal before the greeting. *)
Definition refused_early (v : Value) : Prop :=
  ∃ id code, v = error_response id (MkRpcError code None) ∧ (code = codes.PARSE_ERROR ∨ code = codes.INVALID_REQUEST).

(** The greeting guards the daemon: until a client sends [rpc.hello], none
    of its lines changes the daemon or makes anything leave it, whatever they
    ask for; each is answered with an error, and the connection stays up. *)
Theorem greeting_guards reqs st :
  Forall (λ p : RpcEnv * list Z, ∀ req, from_str p.2 = Some req → rq_method req ≠ str "rpc.hello") reqs →
  ∃ responses, connection reqs false st = (responses, true, [], st) ∧ Forall refused_early responses ∧
    length responses = length (List.filter (λ p, negb (blank p.2)) reqs).
Proof.
  induction 1 as [|[env line] reqs Hno _ (responses & He & Hr & Hlen)]; [by exists []|]. cbn [handle_connection snd List.filter] in *.
  unfold handle_line. unfold blank at 1. case_bool_decide as Hb.
  - rewrite He. exists responses. done.
  - destruct (from_str line) as [req|] eqn:Hreq.
    + rewrite bool_decide_eq_false_2 by eauto. cbn [negb andb]. rewrite He. eexists. split; [done|].
      split; [constructor; [|done]|cbn; by rewrite Hlen]. eexists _, _. split; [done|]. by right.
    + rewrite He. eexists. split; [done|]. split; [constructor; [|done]|cbn; by rewrite Hlen]. eexists _, _. split; [done|]. by left.
Qed.

(** A failed greeting opens the gate: a client that asks for another version
    is told so, and from then on its requests are carried out all the same. *)
Theorem failed_greeting_accepted env line req v ver st :
  trim line ≠ [] → from_str line = Some req → rq_method req = str "rpc.hello" → rq_params req = Some v →
  de_hello v = Some (Some ver) → ver ≠ RPC_VERSION →
  line_step env line false st =
    (Ok (Some (error_response (default Null (rq_id req)) (MkRpcError codes.RPC_VERSION_MISMATCH None)), true), [], st).
Proof.
  intros Hb Hreq Hm Hp Hv Hne. unfold handle_line. rewrite bool_decide_eq_false_2 by done. rewrite Hreq. rewrite bool_decide_eq_true_2 by done.
  cbn [negb andb]. unfold dispatch. rewrite Hm. replace (method_of (str "rpc.hello")) with (Some MHello) by (by vm_compute).
  unfold method_hello. rewrite Hp. unfold mbind, rpc_bind. cbn. rewrite Hv. cbn. rewrite (proj2 (Z.eqb_neq _ _) Hne). done.
Qed.
End Proofs.

(** Text that is not ASCII is cut inside a character: naming a peer by it takes
    the connection down instead of being refused. *)
Lemma parse_node_id_panics : parse_node_id (97 :: concat (replicate 15 [0xC3; 0xA9]) ++ [97]) = Panic.
Proof. reflexivity. Qed.

(** ** The configuration file *)
Lemma table_get_insert k v t k' : table_get k' (table_insert k v t) = if bool_decide (k' = k) then Some v else table_get k' t.
Proof.
  induction t as [|[k1 v1] t IH]; cbn.
  - by repeat case_bool_decide.
  - destruct (decide (k = k1)) as [->|Hne]; [rewrite (bool_decide_eq_true_2 (k1 = k1)) by done|rewrite (bool_decide_eq_false_2 (k = k1)) by done]; cbn.
    + by repeat case_bool_decide.
    + rewrite IH. repeat case_bool_decide; congruence.
Qed.

(** A setting of the configuration: a key of a table of the root. *)
Definition table_of (v : option TomlValue) : list (list Z * TomlValue) := match v with Some (TTable t) => t | _ => [] end.
Definition setting (section key : string) (content : list Z) `{!Toml} : option TomlValue :=
  table_get (str key) (table_of (table_get (str section) (table_of (toml_from_str content)))).

Lemma table_get_eqv k v v' : v ≡ v' → table_get k (table_of v) ≡ table_get k (table_of v').
Proof. intros Hv. inversion Hv as [x y Hxy|]; subst; [|constructor]. destruct Hxy as [| | | |t t' Ht|]; [constructor..|apply Ht|constructor]. Qed.

Section Config.
Context {J : SerdeJson} {T : Toml} {L : LawfulToml}.

Lemma edit_gateway_ok env f st out st' :
  edit_gateway env f st = (Ok tt, out, st') →
  ∃ content content' root, rs_config_file st = Some content ∧ rs_config_file st' = Some content' ∧ toml_from_str content = Some (TTable root) ∧
    ∃ root', toml_from_str content' = Some (TTable root') ∧
      TTable (table_insert (str "gateway") (TTable (f (table_of (table_get (str "gateway") root)))) root) ≡ TTable root'.
Proof.
  unfold edit_gateway, mbind, rpc_bind, gets, some_or, guard_or, modify. cbv beta iota zeta.
  destruct (rs_config_file st) as [content|]; [|done]. cbn -[str]. destruct (toml_from_str content) as [doc|] eqn:Hdoc; [|done]. cbn -[str].
  destruct doc as [| | |root| |]; try done. cbn -[str].
  destruct (table_get (str "gateway") root) as [[| | |gw| |]|] eqn:Hgw; try done; cbn -[str];
    (match goal with |- context [toml_to_string ?d] => destruct (toml_to_string d) as [new|] eqn:Hnew; [|done] end); cbn -[str];
    (destruct (ev_write env); [|done]); intros [= <- <-]; eexists _, new, root; (split; [done|]); (split; [done|]); (split; [done|]);
    apply toml_roundtrip in Hnew as (v' & Hv' & He); rewrite Hgw; inversion He; subst; by eauto.
Qed.

(** The settings before and after an edit of the gateway's table. *)
Lemma edit_gateway_settings env f st out st' : edit_gateway env f st = (Ok tt, out, st') →
  ∃ c c' gw, rs_config_file st = Some c ∧ rs_config_file st' = Some c' ∧
    (∀ key, setting "gateway" key c = table_get (str key) gw) ∧ (∀ key, setting "gateway" key c' ≡ table_get (str key) (f gw)) ∧
    (∀ section key, section ≠ "gateway"%string → setting section key c' ≡ setting section key c).
Proof.
  intros (c & c' & root & Hc & Hc' & Hr & root' & Hr' & He)%edit_gateway_ok. exists c, c', (table_of (table_get (str "gateway") root)).
  split; [done|]. split; [done|]. unfold setting. rewrite Hr, Hr'. split; [done|].
  assert (Hs : ∀ s, table_get (str s) root' ≡ table_get (str s)
    (table_insert (str "gateway") (TTable (f (table_of (table_get (str "gateway") root)))) root)).
  { intros s. symmetry. refine (table_get_eqv (str s) (Some (TTable _)) (Some (TTable root')) _). by constructor. }
  split.
  - intros key. rewrite (table_get_eqv _ _ _ (Hs "gateway"%string)). by rewrite table_get_insert, bool_decide_eq_true_2.
  - intros section key Hne. cbn [table_of]. rewrite (table_get_eqv _ _ _ (Hs section)).
    by rewrite table_get_insert, bool_decide_eq_false_2 by (intros ?%str_inj; done).
Qed.

Lemma table_get_insert_str k v t k' : table_get (str k') (table_insert (str k) v t) = if (k' =? k)%string then Some v else table_get (str k') t.
Proof.
  rewrite table_get_insert. destruct (String.eqb_spec k' k) as [->|Hne]; [by rewrite bool_decide_eq_true_2|].
  by rewrite bool_decide_eq_false_2 by (intros ?%str_inj; done).
Qed.

(** Enabling the gateway is written and survives: after a successful
    [gateway.enable] the configuration reads back with the gateway enabled on
    the interface that was asked for, and every other setting of every section
    as it was, but for the order of the tables in it; a later [gateway.disable]
    turns it off and keeps the rest, the interface included. *)
Theorem gateway_toggle_persists env env' p v st r out st1 r' out' st2 :
  de_gateway_enable v = Some p →
  method_gateway_enable env (Some v) st = (Ok r, out, st1) → method_gateway_disable env' st1 = (Ok r', out', st2) →
  ∃ c0 c1 c2, rs_config_file st = Some c0 ∧ rs_config_file st1 = Some c1 ∧ rs_config_file st2 = Some c2 ∧
    setting "gateway" "enabled" c1 = Some (TBool true) ∧ setting "gateway" "nat_interface" c1 = Some (TStr (ge_nat_interface p)) ∧
    setting "gateway" "enabled" c2 = Some (TBool false) ∧ setting "gateway" "nat_interface" c2 = Some (TStr (ge_nat_interface p)) ∧
    ∀ section key, section ≠ "gateway"%string ∨ key ∉ ["enabled"; "nat_interface"; "max_connections"]%string →
      setting section key c1 ≡ setting section key c0 ∧ setting section key c2 ≡ setting section key c0.
Proof.
  intros Hde He Hd. unfold method_gateway_enable, method_gateway_disable, required in *. rpc_inv. simplify_eq.
  match goal with H : edit_gateway env _ _ = _, H' : edit_gateway env' _ _ = _ |- _ =>
    apply edit_gateway_settings in H as (c0 & c1 & gw & ? & ? & Hg & Hg1 & Ho1); apply edit_gateway_settings in H' as (c1' & c2 & gw' & ? & ? & Hg' & Hg2 & Ho2) end.
  simplify_eq. exists c0, c1, c2. split; [done|]. split; [done|]. split; [done|].
  assert (Hs1 : ∀ key, key ≠ "max_connections"%string → setting "gateway" key c1 ≡ if (key =? "enabled")%string then Some (TBool true)
    else if (key =? "nat_interface")%string then Some (TStr (ge_nat_interface p)) else setting "gateway" key c0).
  { intros key Hk. rewrite Hg1, Hg. apply String.eqb_neq in Hk.
    destruct (ge_max_connections p); rewrite !table_get_insert_str, ?Hk;
    repeat match goal with |- context [(key =? ?k)%string] => destruct (String.eqb_spec key k) as [->|]; try done end. }
  assert (Hs2 : ∀ key, setting "gateway" key c2 ≡ if (key =? "enabled")%string then Some (TBool false) else setting "gateway" key c1).
  { intros key. rewrite Hg2, Hg', table_get_insert_str. done. }
  split_and!; [apply equiv_scalar; [done|].. |].
  { by apply (Hs1 "enabled"%string). } { by apply (Hs1 "nat_interface"%string). } { apply (Hs2 "enabled"%string). }
  { etrans; [apply (Hs2 "nat_interface"%string)|by apply (Hs1 "nat_interface"%string)]. }
  intros section key Hor.
  destruct (decide (section = "gateway"%string)) as [->|Hne]; [|by rewrite Ho2, Ho1]. destruct Hor as [?|Hk]; [done|].
  rewrite !not_elem_of_cons in Hk. destruct Hk as (He1 & He2 & He3 & _).
  assert (Hc1 : setting "gateway" key c1 ≡ setting "gateway" key c0).
  { rewrite Hs1 by done. apply String.eqb_neq in He1, He2. by rewrite He1, He2. }
  split; [done|]. rewrite Hs2. apply String.eqb_neq in He1. by rewrite He1.
Qed.
End Config.

(** ** Witnesses *)

(** A reader that knows three lines. *)
Definition sample_serde : SerdeJson := {|
  from_str line :=
    if bool_decide (line = str "hello 2") then Some (MkRequest (Some (VNum 1)) (str "rpc.hello") (Some (VNum 2)))
    else if bool_decide (line = str "all") then Some (MkRequest (Some (VNum 2)) (str "messages.delete_all") None)
    else if bool_decide (line = str "odd") then Some (MkRequest None (str "no.such.method") None)
    else None;
  de_hello v := match v with VNum n => Some (Some n) | _ => None end;
  de_add_static _ := None; de_connect_dynamic _ := None; de_gateway_enable _ := None; de_remove _ := None; de_import_identity _ := None;
  de_forget _ := None; de_delete_conversation _ := None;
  de_set_broadcast_config v := match v with VNum n => Some {| sb_outgoing_interval_s := Some (Some n); sb_watch_incoming := None; sb_min_peer_interval_s := None |} | _ => None end;
  de_set_split_default v := match v with VBool b => Some b | _ => None end;
  de_config_get _ := None; de_config_save _ := None; de_history _ := None; de_send _ := None; de_mark_read _ := None;
|}.
Definition sample_toml : Toml := {| toml_from_str _ := None; toml_to_string _ := None |}.
Definition sample_env : RpcEnv := {|
  ev_now := 0; ev_now_ms := 0; ev_now_ms' := 0; ev_db := true; ev_db2 := true; ev_db3 := true;
  ev_message_id := replicate 16 1; ev_ephemeral := replicate 32 1; ev_nonce := replicate 12 1; ev_write := true; ev_connect := true;
  ev_gateway_supported := true; ev_platform := str "linux"; ev_nat_interface := None; ev_logs_ready := true;
  ev_modified := 0; ev_config_path := str "pim.toml"; ev_interfaces := []; ev_socket_addr _ := None |}.
Definition sample_info : NodeInfo := {| ni_ipv4_prefix := {| v4_network := 0x0a4d0000; v4_prefix_len := 16 |}; ni_ipv6 := 0xfd77 * 2 ^ 112 + 1; ni_ipv6_prefix := {| v6_network := 0xfd77 * 2 ^ 112; v6_prefix_len := 64 |};
  ni_start_ms := 0; ni_listen_port := 9100; ni_tun_name := str "pim0" |}.
Definition sample_rpc : RpcState := MkRpc sample_info
  (MkTunnel (sample_node 1 2 sample_initiator) false 0x0a4d0001 None None false false)
  (MkIdentity (MkBroadcast None true 60 ephemeral_default) ∅ PeersDb_new i64_MIN 0) MessagingStorage_new None false None None None 0 false.
Notation sample_dispatch req := (dispatch (A:=null_aead) (D:=toy_ecdh) (J:=sample_serde) (T:=sample_toml)
  sample_digest sample_answer map_to_list map_to_list sample_env req).

Lemma refused_requests_harmless_witness :
  let req := MkRequest None (str "peers.set_broadcast_config") (Some (VNum 29)) in
  (sample_dispatch req sample_rpc).1.1 = Err (MkRpcError codes.PEER_BROADCAST_INTERVAL_TOO_SMALL None) ∧ (sample_dispatch req sample_rpc).2 = sample_rpc.
Proof.
  set (req := MkRequest None (str "peers.set_broadcast_config") (Some (VNum 29))).
  assert (He : (sample_dispatch req sample_rpc).1.1 = Err (MkRpcError codes.PEER_BROADCAST_INTERVAL_TOO_SMALL None)) by (vm_compute; reflexivity).
  split; [exact He|].
  apply (refused_requests_harmless (A:=null_aead) (D:=toy_ecdh) (J:=sample_serde) (T:=sample_toml)
    sample_digest sample_answer map_to_list map_to_list sample_env req sample_rpc _ He).
  by apply (bool_decide_unpack _); vm_compute.
Defined.

Lemma rpc_frame_witness :
  let st' := (sample_dispatch (MkRequest None (str "route.set_split_default") (Some (VBool true))) sample_rpc).2 in
  rs_route_on st' = true ∧ rs_storage st' = rs_storage sample_rpc.
Proof.
  split; [vm_compute; reflexivity|].
  destruct (rpc_frame (A:=null_aead) (D:=toy_ecdh) (J:=sample_serde) (T:=sample_toml)
    sample_digest sample_answer map_to_list map_to_list sample_env (MkRequest None (str "route.set_split_default") (Some (VBool true))) sample_rpc)
    as (_ & _ & [H|(m & Hm & Hin)] & _).
  - intros [] p m; cbn; try done. by intros [= <-].
  - exact H.
  - replace (method_of _) with (Some MRouteSetSplitDefault) in Hm by (vm_compute; reflexivity). injection Hm as <-.
    exfalso. revert Hin. by apply (bool_decide_unpack _).
Defined.

Lemma greeting_guards_witness :
  (handle_connection (A:=null_aead) (D:=toy_ecdh) (J:=sample_serde) (T:=sample_toml) sample_digest sample_answer map_to_list map_to_list
    [(sample_env, str "all"); (sample_env, str "garbage")] false sample_rpc).2 = sample_rpc.
Proof.
  destruct (greeting_guards (A:=null_aead) (D:=toy_ecdh) (J:=sample_serde) (T:=sample_toml)
    sample_digest sample_answer map_to_list map_to_list [(sample_env, str "all"); (sample_env, str "garbage")] sample_rpc) as (responses & He & _).
  - repeat constructor; cbn; intros req; vm_compute; [by intros [= <-]|done].
  - by rewrite He.
Defined.

Lemma failed_greeting_accepted_witness :
  (handle_line (A:=null_aead) (D:=toy_ecdh) (J:=sample_serde) (T:=sample_toml) sample_digest sample_answer map_to_list map_to_list
    sample_env (str "hello 2") false sample_rpc).1.1 =
  Ok (Some (error_response (VNum 1) (MkRpcError codes.RPC_VERSION_MISMATCH None)), true).
Proof.
  rewrite (failed_greeting_accepted (A:=null_aead) (D:=toy_ecdh) (J:=sample_serde) (T:=sample_toml)
    sample_digest sample_answer map_to_list map_to_list sample_env (str "hello 2") (MkRequest (Some (VNum 1)) (str "rpc.hello") (Some (VNum 2))) (VNum 2) 2 sample_rpc);
    [reflexivity|by vm_compute|vm_compute; reflexivity|reflexivity|reflexivity|reflexivity|done].
Defined.

(** A file with the gateway switched off, and on. *)
Definition sample_doc (b : bool) : TomlValue :=
  TTable [(str "node", TTable [(str "name", TStr (str "a"))]);
          (str "gateway", TTable [(str "nat_interface", TStr (str "eth0")); (str "enabled", TBool b)])].
Definition doc_toml : Toml := documents [sample_doc false; sample_doc true].
Definition doc_toml_lawful : @LawfulToml doc_toml := documents_lawful _.
Definition gateway_serde : SerdeJson := {|
  from_str _ := None; de_hello _ := None; de_add_static _ := None; de_connect_dynamic _ := None;
  de_gateway_enable v := match v with VStr s => Some {| ge_nat_interface := s; ge_max_connections := None |} | _ => None end;
  de_remove _ := None; de_import_identity _ := None; de_forget _ := None; de_delete_conversation _ := None; de_set_broadcast_config _ := None;
  de_set_split_default _ := None; de_config_get _ := None; de_config_save _ := None; de_history _ := None; de_send _ := None; de_mark_read _ := None |}.

Lemma gateway_toggle_persists_witness :
  let st1 := (method_gateway_enable (J:=gateway_serde) (T:=doc_toml) sample_env (Some (VStr (str "eth0"))) (set_config_file (Some [0]) sample_rpc)).2 in
  let st2 := (method_gateway_disable (T:=doc_toml) sample_env st1).2 in
  rs_config_file st1 = Some [1] ∧ rs_config_file st2 = Some [0] ∧ @setting "gateway" "nat_interface" [0] doc_toml = Some (TStr (str "eth0")).
Proof.
  cbv zeta. set (st := set_config_file (Some [0]) sample_rpc).
  set (enable := method_gateway_enable (J:=gateway_serde) (T:=doc_toml) sample_env (Some (VStr (str "eth0")))).
  set (disable := method_gateway_disable (T:=doc_toml) sample_env).
  assert (H1 : is_ok (enable st).1.1 = true ∧ rs_config_file (enable st).2 = Some [1]) by (split; vm_compute; reflexivity).
  assert (H2 : is_ok (disable (enable st).2).1.1 = true ∧ rs_config_file (disable (enable st).2).2 = Some [0]) by (split; vm_compute; reflexivity).
  destruct (enable st) as [[[r| |] out] st1] eqn:He; [|exfalso; apply (diff_false_true (proj1 H1))..]. cbn [snd] in *.
  destruct (disable st1) as [[[r'| |] out'] st2] eqn:Hd; [|exfalso; apply (diff_false_true (proj1 H2))..]. cbn [snd] in *.
  destruct (gateway_toggle_persists (J:=gateway_serde) (T:=doc_toml) (L:=doc_toml_lawful) sample_env sample_env
    {| ge_nat_interface := str "eth0"; ge_max_connections := None |} (VStr (str "eth0")) st r out st1 r' out' st2 eq_refl He Hd)
    as (c0 & c1 & c2 & _ & _ & Hc2 & _ & _ & _ & Hn & _).
  destruct H1 as [_ H1], H2 as [_ H2]. split; [exact H1|]. split; [exact H2|]. rewrite H2 in Hc2. injection Hc2 as <-. exact Hn.
Defined.
