(* ===== verification/Observability.v ===== *)
(** * What the daemon shows of itself (crates/pim-daemon/src/observability.rs,
    crates/pim-daemon/src/logs_subscriber.rs, crates/pim-core/src/debug.rs)

    The statistics file and the debug snapshot the daemon writes every few
    seconds, the commands of the command line that read them
    (crates/pim-cli/src/main.rs), and the log events kept for clients that
    subscribe late.  The order in which a hash map is walked is an argument;
    the JSON text of a snapshot is that of a serializer that reads back what it
    wrote. *)

From S2P Require Import Prelude Core MeshAddress Frames Control Stream Fragment Routing RoutingProofs RoutingSpec Session DataPlane SendBuffer Trust E2e.
From S2P Require Import Packet Conntrack Gateway Gateway6 Discovery Handshake Reconnect Daemon Text Ipv6Text Calendar MessageStore PeerDirectory Identity Messaging Tunnel Json Toml Config.
From S2P Require Import LogView Tun RouteInstaller RouteCommand Rpc DaemonProofs RpcProofs.

(** ** Statistics *)
Record StatsSnapshot := MkStats {
  ss_peers : Z; ss_routes : Z; ss_packets_forwarded : Z; ss_bytes_forwarded : Z; ss_packets_dropped : Z; ss_congestion_drops : Z;
  ss_conntrack_size : Z; ss_uptime_secs : Z;
}.
Definition collect_stats (now_ms : Z) (st : RpcState) : StatsSnapshot :=
  let d := tn_daemon (rs_tunnel st) in
  MkStats (Z.of_nat (size (dm_sessions d))) (Z.of_nat (route_count (dm_routing d)))
    (ds_packets_forwarded (dm_data d)) (ds_bytes_forwarded (dm_data d)) (ds_packets_dropped (dm_data d)) (congestion_drops d)
    (match tn_gw_engine (rs_tunnel st) with Some gw => Z.of_nat (conntrack_size gw) | None => 0 end)
    (Z.max 0 ((now_ms - ni_start_ms (rs_node st)) / 1000)).

Definition stats_fields (s : StatsSnapshot) : list (list Z * Z) :=
  [(str "peers", ss_peers s); (str "routes", ss_routes s); (str "packets_forwarded", ss_packets_forwarded s);
   (str "bytes_forwarded", ss_bytes_forwarded s); (str "packets_dropped", ss_packets_dropped s);
   (str "congestion_drops", ss_congestion_drops s); (str "conntrack_size", ss_conntrack_size s); (str "uptime_secs", ss_uptime_secs s)].
Definition format_stats (s : StatsSnapshot) : list Z :=
  flat_map (λ p, p.1 ++ [61] ++ decimal p.2 ++ [10]) (stats_fields s).

(** ** The debug snapshot *)
Record DebugNodeSnapshot := MkDebugNode {
  dn_name : list Z; dn_node_id : list Z; dn_short_id : list Z; dn_is_gateway : bool; dn_mesh_ip : list Z; dn_mesh_prefix_len : Z;
}.
Record DebugPeerSnapshot := MkDebugPeer {
  dp_node_id : list Z; dp_short_id : list Z; dp_addr : option (list Z); dp_mechanism : option (list Z); dp_direct : bool;
  dp_configured : bool; dp_discovered : bool; dp_last_heartbeat_age_ms : option Z;
}.
Record DebugDiscoveredPeerSnapshot := MkDebugDiscovered {
  dd_node_id : list Z; dd_short_id : list Z; dd_addr : list Z; dd_is_client : bool; dd_is_relay : bool; dd_is_gateway : bool;
  dd_last_seen_age_ms : Z;
}.
Record DebugRouteSnapshot := MkDebugRoute {
  dr_destination_id : list Z; dr_destination_short_id : list Z; dr_next_hop_id : list Z; dr_next_hop_short_id : list Z;
  dr_learned_from_id : list Z; dr_learned_from_short_id : list Z; dr_hops : Z; dr_is_gateway : bool; dr_gateway_load : Z;
  dr_rtt_ms : option Z; dr_mesh_ip : option (list Z); dr_age_ms : Z; dr_next_hop_blacklisted : bool;
}.
Record DebugGatewaySnapshot := MkDebugGateway {
  dg_node_id : list Z; dg_short_id : list Z; dg_next_hop_id : list Z; dg_next_hop_short_id : list Z; dg_hops : Z;
  dg_gateway_load : Z; dg_rtt_ms : option Z; dg_score : Z; dg_selected : bool; dg_mesh_ip : option (list Z);
}.
Record DebugSnapshot := MkDebugSnapshot {
  db_version : Z; db_generated_at_unix_secs : Z; db_node : DebugNodeSnapshot; db_stats : StatsSnapshot;
  db_peers : list DebugPeerSnapshot; db_discovered_peers : list DebugDiscoveredPeerSnapshot;
  db_routes : list DebugRouteSnapshot; db_gateways : list DebugGatewaySnapshot;
}.

(** [slice::sort_by]: a stable sort. *)
Fixpoint insert_by {A} (le : A → A → bool) (x : A) (l : list A) : list A :=
  match l with
  | [] => [x]
  | y :: l => if le x y then x :: y :: l else y :: insert_by le x l
  end.
Definition sort_by {A} (le : A → A → bool) (l : list A) : list A := foldr (insert_by le) [] l.
Definition by_text {A} (f : A → list Z) (a b : A) : bool := bytes_le (f a) (f b).
(** The order of the triple of selection, score and short identifier. *)
Definition gateway_le (a b : DebugGatewaySnapshot) : bool :=
  let sel g := if dg_selected g then 0 else 1 in
  (sel a <? sel b) || (sel a =? sel b) && ((dg_score a <? dg_score b) || (dg_score a =? dg_score b) && bytes_le (dg_short_id a) (dg_short_id b)).

Section Snapshot.
Context (iter_routes : gmap NodeId RouteTableEntry → list (NodeId * RouteTableEntry)).
Context (iter_sessions : gmap NodeId Session → list NodeId).
Context (iter_discovered : PeerTable → list PeerRecord).

Definition debug_peer (now : Z) (st : RpcState) (peer_id : NodeId) : DebugPeerSnapshot :=
  let d := tn_daemon (rs_tunnel st) in
  let info := peer_info peer_id (dial_reconnect (dm_dial d)) in
  MkDebugPeer (to_hex peer_id) (node_id_display peer_id)
    ((λ i, fmt_socket_addr (target_addr i.1.1)) <$> info) ((λ i, str (mechanism_name i.1.1)) <$> info)
    (bool_decide (peer_id ∈ direct_peers (dm_routing d)))
    (match info with Some (_, configured, _) => configured | None => false end)
    (match info with Some (_, _, discovered) => discovered | None => false end)
    ((λ seen, Z.min u64_MAX (elapsed now seen)) <$> peer_last_hb d !! peer_id).

Definition debug_route (now : Z) (t : RoutingTable) (p : NodeId * RouteTableEntry) : DebugRouteSnapshot :=
  let '(dst, entry) := p in
  MkDebugRoute (to_hex dst) (node_id_display dst) (to_hex (rt_next_hop entry)) (node_id_display (rt_next_hop entry))
    (to_hex (rt_learned_from entry)) (node_id_display (rt_learned_from entry)) (rt_hops entry) (rt_is_gateway entry) (rt_gateway_load entry)
    (rt_rtt_ms entry) (fmt_ipv4 <$> rt_mesh_ip entry) (Z.min u64_MAX (elapsed now (rt_last_seen entry))) (is_blacklisted (rt_next_hop entry) t).
Definition debug_gateway (selected : option NodeId) (p : NodeId * RouteTableEntry) : DebugGatewaySnapshot :=
  let '(dst, entry) := p in
  MkDebugGateway (to_hex dst) (node_id_display dst) (to_hex (rt_next_hop entry)) (node_id_display (rt_next_hop entry)) (rt_hops entry)
    (rt_gateway_load entry) (rt_rtt_ms entry) (gateway_score (rt_hops entry) (rt_gateway_load entry) (rt_rtt_ms entry))
    (bool_decide (selected = Some dst)) (fmt_ipv4 <$> rt_mesh_ip entry).
Definition debug_discovered (now : Z) (r : PeerRecord) : DebugDiscoveredPeerSnapshot :=
  MkDebugDiscovered (to_hex (pr_node_id r)) (node_id_display (pr_node_id r)) (fmt_socket_addr (pr_listen_addr r))
    (is_client (pr_capabilities r)) (is_relay (pr_capabilities r)) (caps_is_gateway (pr_capabilities r)) (Z.min u64_MAX (elapsed now (pr_last_seen r))).

Definition build_debug_snapshot (now now_ms : Z) (st : RpcState) : DebugSnapshot :=
  let d := tn_daemon (rs_tunnel st) in
  let t := dm_routing d in
  let peers := sort_by (by_text dp_short_id) (map (debug_peer now st) (iter_sessions (dm_sessions d))) in
  let route_entries := iter_routes (routes t) in
  let selected_gateway := fst <$> nearest_gateway_route route_entries t in
  let routes := sort_by (by_text dr_destination_short_id) (map (debug_route now t) route_entries) in
  let gateways := sort_by gateway_le (map (debug_gateway selected_gateway) (List.filter (λ p, rt_is_gateway p.2) route_entries)) in
  let discovered_peers := match rs_discovery st with
    | Some table => sort_by (by_text dd_short_id) (map (debug_discovered now) (iter_discovered table))
    | None => []
    end in
  MkDebugSnapshot 1 (Z.max 0 (now_ms / 1000))
    (MkDebugNode (cfg_node_name (dm_config d)) (to_hex (ds_self_id (dm_data d))) (node_id_display (ds_self_id (dm_data d)))
       (tn_is_gateway (rs_tunnel st)) (fmt_ipv4 (tn_mesh_ipv4 (rs_tunnel st))) (v4_prefix_len (ni_ipv4_prefix (rs_node st))))
    (collect_stats now_ms st) peers discovered_peers routes gateways.
End Snapshot.

(** ** Reading it on the command line *)
Class SnapshotJson := { snapshot_to_vec : DebugSnapshot → list Z; snapshot_from_str : list Z → option DebugSnapshot }.
Class LawfulSnapshotJson `{SnapshotJson} : Prop := snapshot_read_back s : snapshot_from_str (snapshot_to_vec s) = Some s.

Inductive DebugError := NoSnapshot | NoGatewaySelected | NoRoute.
(** What [pim debug route get] explains. *)
Inductive Explanation :=
| LocalGateway
| InternetVia (gateway next_hop : list Z) (hops score : Z) (mechanism : list Z)
| RouteVia (route : DebugRouteSnapshot) (mechanism : list Z).

Definition find_route_by_node_target (snapshot : DebugSnapshot) (target : list Z) : option DebugRouteSnapshot :=
  match NodeId_from_str target with
  | Ok node_id => List.find (λ r, bool_decide (dr_destination_id r = to_hex node_id)) (db_routes snapshot)
  | _ =>
    match List.filter (λ r, starts_with target (dr_destination_id r) || bool_decide (dr_destination_short_id r = target)) (db_routes snapshot) with
    | [r] => Some r
    | _ => None
    end
  end.
Definition peer_mechanism (snapshot : DebugSnapshot) (next_hop_id : list Z) : list Z :=
  default (str "unknown") (List.find (λ p, bool_decide (dp_node_id p = next_hop_id)) (db_peers snapshot) ≫= dp_mechanism).

Section Commands.
Context `{SnapshotJson}.

Definition read_debug_snapshot (file : option (list Z)) : outcome DebugError DebugSnapshot := ok_or (file ≫= snapshot_from_str) NoSnapshot.
Definition explain (snapshot : DebugSnapshot) (r : DebugRouteSnapshot) : Explanation := RouteVia r (peer_mechanism snapshot (dr_next_hop_id r)).
Definition cmd_debug_route_get (file : option (list Z)) (target : list Z) : outcome DebugError Explanation :=
  let? snapshot := read_debug_snapshot file in
  if bool_decide (target = str "internet") then
    if dn_is_gateway (db_node snapshot) then Ok LocalGateway else
    let? g := ok_or (List.find dg_selected (db_gateways snapshot)) NoGatewaySelected in
    Ok (InternetVia (dg_short_id g) (dg_next_hop_short_id g) (dg_hops g) (dg_score g) (peer_mechanism snapshot (dg_next_hop_id g)))
  else
  match parse_ipv4 target with
  | Some mesh_ip =>
    let? r := ok_or (List.find (λ r, bool_decide (dr_mesh_ip r = Some (fmt_ipv4 mesh_ip))) (db_routes snapshot)) NoRoute in
    Ok (explain snapshot r)
  | None =>
    let? r := ok_or (find_route_by_node_target snapshot target) NoRoute in
    Ok (explain snapshot r)
  end.
End Commands.

(** ** Log events for late subscribers *)
Definition HISTORY_CAPACITY : nat := 2048.
Inductive FieldValue := FieldStr (s : list Z) | FieldBool (b : bool) | FieldInt (n : Z) | FieldFloat (json : Value) | FieldDebug (formatted : list Z).
Record LogEvent := MkLogEvent { le_level : list Z; le_target : list Z; le_fields : list (string * FieldValue); le_secs : Z }.
Record LogVisitor := MkVisitor { vi_message : list Z; vi_fields : list (string * Value) }.

(** [Map::insert]. *)
Fixpoint fields_insert (k : string) (v : Value) (l : list (string * Value)) : list (string * Value) :=
  match l with
  | [] => [(k, v)]
  | (k', v') :: l => if String.eqb k k' then (k, v) :: l else (k', v') :: fields_insert k v l
  end.
Definition record_text (name : string) (s : list Z) (vi : LogVisitor) : LogVisitor :=
  if String.eqb name "message" then MkVisitor s (vi_fields vi) else MkVisitor (vi_message vi) (fields_insert name (VStr s) (vi_fields vi)).
Definition record_field (vi : LogVisitor) (f : string * FieldValue) : LogVisitor :=
  let '(name, value) := f in
  match value with
  | FieldStr s | FieldDebug s => record_text name s vi
  | FieldBool b => MkVisitor (vi_message vi) (fields_insert name (VBool b) (vi_fields vi))
  | FieldInt n => MkVisitor (vi_message vi) (fields_insert name (VNum n) (vi_fields vi))
  | FieldFloat j => MkVisitor (vi_message vi) (fields_insert name j (vi_fields vi))
  end.
Definition log_payload (e : LogEvent) : Value :=
  let vi := fold_left record_field (le_fields e) (MkVisitor [] []) in
  VObj ([("ts", VStr (system_time_to_iso8601 (le_secs e))); ("level", VStr (to_ascii_lowercase (le_level e)));
         ("source", VStr (le_target e)); ("message", VStr (vi_message vi))]%string
        ++ if bool_decide (length (vi_fields vi) = O) then [] else [("fields"%string, VObj (vi_fields vi))]).

(** The ring and what goes to the live stream. *)
Definition on_event (history : list Value) (e : LogEvent) : list Value * Value :=
  let value := log_payload e in
  ((if bool_decide (HISTORY_CAPACITY ≤ length history)%nat then drop 1 history else history) ++ [value], value).
Definition history_after (es : list LogEvent) : list Value := fold_left (λ h e, (on_event h e).1) es [].

(** ** Lemmas *)
Lemma insert_by_perm {A} (le : A → A → bool) x l : insert_by le x l ≡ₚ x :: l.
Proof. induction l as [|y l IH]; cbn; [done|]. destruct (le x y); [done|]. rewrite IH. constructor. Qed.
Lemma sort_by_perm {A} (le : A → A → bool) l : sort_by le l ≡ₚ l.
Proof. induction l as [|x l IH]; cbn; [done|]. by rewrite insert_by_perm, IH. Qed.

Lemma find_only {A} (f : A → bool) l x : x ∈ l → f x = true → (∀ y, y ∈ l → f y = true → y = x) → List.find f l = Some x.
Proof.
  induction l as [|a l IH]; intros Hx Hf Hu; [by apply elem_of_nil in Hx|]. cbn [List.find]. destruct (f a) eqn:E.
  - f_equal. apply Hu; [by left|done].
  - apply elem_of_cons in Hx as [-> |Hx]; [congruence|]. apply IH; [done|done|]. intros y Hy. apply Hu. by right.
Qed.
Lemma find_nothing {A} (f : A → bool) l : (∀ y, y ∈ l → f y = false) → List.find f l = None.
Proof.
  induction l as [|a l IH]; intros Hn; [done|]. cbn [List.find]. rewrite Hn by (by left). apply IH. intros y Hy. apply Hn. by right.
Qed.

Lemma to_hex_inj a b : node_id_wf a → node_id_wf b → to_hex a = to_hex b → a = b.
Proof. apply hex_node_id_inj. Qed.
Lemma to_hex_bytes id : node_id_wf id → Forall (λ x, x ≠ 46) (to_hex id) ∧ length (to_hex id) = 32%nat.
Proof.
  intros [Hl Hok]. unfold to_hex. split; [|by rewrite length_flat_map_hex, Hl]. clear Hl. induction Hok as [|b bs Hb _ IH]; [done|].
  cbn [flat_map]. apply Forall_app. split; [|done]. revert b Hb. apply (u8_forall (λ b, Forall (λ x, x ≠ 46) (hex_byte b))). by vm_compute.
Qed.
Lemma hex_not_ip id : node_id_wf id → parse_ipv4 (to_hex id) = None.
Proof.
  intros [Hn _]%to_hex_bytes. unfold parse_ipv4. assert (split_once 46 (to_hex id) = None) as ->; [|done].
  induction Hn as [|x l Hx _ IH]; [done|]. cbn. rewrite (proj2 (Z.eqb_neq _ _)) by done. by rewrite IH.
Qed.

Section Truth.
Context `{LawfulSnapshotJson}.
Context (iter_routes : gmap NodeId RouteTableEntry → list (NodeId * RouteTableEntry)).
Context (iter_sessions : gmap NodeId Session → list NodeId) (iter_discovered : PeerTable → list PeerRecord).
Context (iter_perm : ∀ m, iter_routes m ≡ₚ map_to_list m).
Notation snapshot now now_ms st := (build_debug_snapshot iter_routes iter_sessions iter_discovered now now_ms st).
Notation table st := (dm_routing (tn_daemon (rs_tunnel st))).

Lemma elem_of_debug_routes now now_ms st r :
  r ∈ db_routes (snapshot now now_ms st) ↔ ∃ d e, routes (table st) !! d = Some e ∧ r = debug_route now (table st) (d, e).
Proof.
  cbn [build_debug_snapshot db_routes]. rewrite sort_by_perm, list_elem_of_fmap. split.
  - intros ([d e] & -> & He). rewrite iter_perm in He. exists d, e. split; [by apply elem_of_map_to_list|done].
  - intros (d & e & He & ->). exists (d, e). split; [done|]. rewrite iter_perm. by apply elem_of_map_to_list.
Qed.

Lemma find_debug_route now now_ms st id : node_id_wf id → map_Forall (λ d _, node_id_wf d) (routes (table st)) →
  find_route_by_node_target (snapshot now now_ms st) (to_hex id) = (λ e, debug_route now (table st) (id, e)) <$> routes (table st) !! id.
Proof.
  intros Hid Hwf. unfold find_route_by_node_target.
  assert (NodeId_from_str (to_hex id) = Ok id) as ->.
  { destruct Hid as [Hl Hok]. unfold NodeId_from_str, to_hex. rewrite length_flat_map_hex, Hl, bool_decide_eq_true_2, parse_hex_flat_map by done. by destruct id. }
  assert (Hu : ∀ d e, routes (table st) !! d = Some e → to_hex d = to_hex id → d = id).
  { intros d e He%Hwf. by apply to_hex_inj. }
  destruct (routes (table st) !! id) as [e|] eqn:E; cbn [fmap option_fmap option_map].
  - apply find_only.
    + apply elem_of_debug_routes. by exists id, e.
    + by apply bool_decide_eq_true_2.
    + intros r (d & e' & He & ->)%elem_of_debug_routes Hd%bool_decide_eq_true. cbn in Hd. pose proof (Hu _ _ He Hd) as ->. congruence.
  - apply find_nothing. intros r (d & e' & He & ->)%elem_of_debug_routes. apply bool_decide_eq_false_2. cbn. intros Hd.
    pose proof (Hu _ _ He Hd) as ->. congruence.
Qed.

Lemma find_selected_gateway now now_ms st :
  match nearest_gateway_route (iter_routes (routes (table st))) (table st) with
  | Some (gw, next) => ∃ e, routes (table st) !! gw = Some e ∧ rt_next_hop e = next ∧
      List.find dg_selected (db_gateways (snapshot now now_ms st)) = Some (debug_gateway (Some gw) (gw, e))
  | None => List.find dg_selected (db_gateways (snapshot now now_ms st)) = None
  end.
Proof.
  set (sel := fst <$> nearest_gateway_route (iter_routes (routes (table st))) (table st)).
  assert (Hg : ∀ g, g ∈ db_gateways (snapshot now now_ms st) ↔
    ∃ d e, routes (table st) !! d = Some e ∧ rt_is_gateway e = true ∧ g = debug_gateway sel (d, e)).
  { intros g. cbn [build_debug_snapshot db_gateways]. fold sel. rewrite sort_by_perm, list_elem_of_fmap. split.
    - intros ([d e] & -> & He). apply list_elem_of_In, filter_In in He as [He%list_elem_of_In Hgw].
      rewrite iter_perm in He. exists d, e. split; [by apply elem_of_map_to_list|done].
    - intros (d & e & He & Hgw & ->). exists (d, e). split; [done|]. apply list_elem_of_In, filter_In. split; [|done].
      apply list_elem_of_In. rewrite iter_perm. by apply elem_of_map_to_list. }
  destruct (nearest_gateway_route _ _) as [[gw next]|] eqn:En.
  - unfold nearest_gateway_route in En. destruct (is_gateway (table st)); [done|].
    destruct (best_gateway_entry _ _) as [[d e]|] eqn:Eb; [|done]. cbn in En. injection En as <- <-.
    apply min_by_key_Some in Eb as [Hin _]. apply list_elem_of_In, filter_In in Hin as [Hin%list_elem_of_In Hel].
    rewrite iter_perm in Hin. apply elem_of_map_to_list in Hin. exists e. split; [done|]. split; [done|]. apply find_only.
    + apply Hg. exists d, e. split; [done|]. split; [|done]. cbn in Hel. unfold eligible in Hel. by apply andb_true_iff in Hel as [[? _]%andb_true_iff _].
    + cbn. by apply bool_decide_eq_true_2.
    + intros g (d' & e' & He' & _ & ->)%Hg Hs. cbn in Hs. apply bool_decide_eq_true in Hs. injection Hs as <-. rewrite He' in Hin. by injection Hin as ->.
  - apply find_nothing. intros g (d' & e' & He' & _ & ->)%Hg. done.
Qed.
End Truth.

(** ** Theorems *)
(** C35: [pim debug route get] tells what the daemon does: for a destination it shows
    the next hop the routing table forwards to, marked as blacklisted exactly
    when the daemon would not send there, and no route exactly when there is
    none; for the internet it shows the gateway and next hop the daemon
    selects, and says so when it selects none. *)
Theorem debug_tells_truth `{LawfulSnapshotJson} iter_routes iter_sessions iter_discovered now now_ms st :
  (∀ m, iter_routes m ≡ₚ map_to_list m) →
  let t := dm_routing (tn_daemon (rs_tunnel st)) in
  map_Forall (λ d _, node_id_wf d) (routes t) →
  let file := Some (snapshot_to_vec (build_debug_snapshot iter_routes iter_sessions iter_discovered now now_ms st)) in
  (∀ id, node_id_wf id → id ≠ self_id t →
    match cmd_debug_route_get file (to_hex id) with
    | Ok (RouteVia r _) => ∃ e, routes t !! id = Some e ∧ dr_next_hop_id r = to_hex (rt_next_hop e) ∧ dr_hops r = rt_hops e ∧
        lookup_route id t = if dr_next_hop_blacklisted r then None else Some (rt_next_hop e)
    | Err e => e = NoRoute ∧ routes t !! id = None ∧ lookup_route id t = None
    | _ => False
    end) ∧
  (tn_is_gateway (rs_tunnel st) = false →
    match cmd_debug_route_get file (str "internet") with
    | Ok (InternetVia gateway next_hop hops score _) => ∃ gw next e, nearest_gateway_route (iter_routes (routes t)) t = Some (gw, next) ∧
        routes t !! gw = Some e ∧ gateway = node_id_display gw ∧ next_hop = node_id_display next ∧ hops = rt_hops e ∧ score = entry_score e
    | Err e => e = NoGatewaySelected ∧ nearest_gateway_route (iter_routes (routes t)) t = None
    | _ => False
    end).
Proof.
  intros Hiter t Hwf file. unfold file, cmd_debug_route_get, read_debug_snapshot. cbn [mbind option_bind]. rewrite snapshot_read_back. cbn [ok_or obind]. split.
  - intros id Hid Hself. rewrite bool_decide_eq_false_2. 2:{ intros Hi. destruct (to_hex_bytes id Hid) as [_ Hl]. by rewrite Hi in Hl. }
    rewrite hex_not_ip, find_debug_route by done. unfold lookup_route. rewrite (bool_decide_eq_false_2 (id = self_id t)) by done. fold t.
    destruct (routes t !! id) as [e|] eqn:E; cbn [fmap option_fmap option_map ok_or obind]; [|done]. unfold explain. exists e.
    cbn [debug_route dr_next_hop_id dr_hops dr_next_hop_blacklisted]. split_and!; [done..|].
    unfold is_blacklisted. by destruct (bool_decide (rt_next_hop e ∈ blacklisted_peers t)).
  - intros Hgw. rewrite bool_decide_eq_true_2 by done. change (dn_is_gateway _) with (tn_is_gateway (rs_tunnel st)). rewrite Hgw.
    pose proof (find_selected_gateway iter_routes iter_sessions iter_discovered Hiter now now_ms st) as Hf. fold t in Hf.
    destruct (nearest_gateway_route (iter_routes (routes t)) t) as [[gw next]|].
    + destruct Hf as (e & He & <- & ->). cbn [ok_or obind debug_gateway]. by exists gw, (rt_next_hop e), e.
    + rewrite Hf. done.
Qed.

Lemma decimal_word n : 0 <= n < 2 ^ 64 → word_ok (decimal n) ∧ parse_u64 (decimal n) = Some n.
Proof.
  intros Hn. destruct (dec_digits_value 20 n) as [Hv Hne]; [split; [lia|]; apply Z.lt_trans with (2 ^ 64); [lia|by vm_compute]|].
  assert (Hnil : decimal n ≠ []) by (apply Hne; lia). split.
  - split; [|done]. eapply Forall_impl; [apply decimal_digits; lia|]. intros b. cbn. unfold in_range. lia.
  - unfold parse_u64. rewrite bool_decide_eq_false_2 by done. unfold decimal in *. rewrite Hv. by rewrite (proj2 (Z.ltb_lt _ _)) by lia.
Qed.

(** [pim status --verbose] shows the daemon's counters: the statistics file is
    read back field by field, with the numbers the daemon counted. *)
Theorem status_shows_counters now_ms st : Forall (λ p, 0 <= p.2 < 2 ^ 64) (stats_fields (collect_stats now_ms st)) →
  ∃ pairs, read_stats (Some (format_stats (collect_stats now_ms st))) = Some pairs ∧
    Forall2 (λ kv f, kv.1 = f.1 ∧ parse_u64 kv.2 = Some f.2) pairs (stats_fields (collect_stats now_ms st)).
Proof.
  unfold format_stats. set (fs := stats_fields _). intros Hf. exists (map (λ p, (p.1, decimal p.2)) fs).
  assert (Hk : Forall (λ p, graph p.1 ∧ Forall (λ x, x ≠ 61) p.1) fs).
  { assert (Hc : Forall (λ k, graph k ∧ Forall (λ x, x ≠ 61) k) fs.*1); [|by apply Forall_fmap in Hc].
    unfold fs, graph. cbn [stats_fields fmap list_fmap fst]. by apply (bool_decide_unpack _); vm_compute. }
  assert (Hne : fs ≠ []) by done. clearbody fs. split.
  - unfold read_stats. cbn [mbind option_bind]. assert (parse_stats_str (flat_map (λ p, p.1 ++ [61] ++ decimal p.2 ++ [10]) fs) = map (λ p, (p.1, decimal p.2)) fs) as ->.
    2:{ rewrite bool_decide_eq_false_2; [done|]. by destruct fs. }
    unfold parse_stats_str. replace (flat_map _ fs) with (unlines (map (λ p, p.1 ++ 61 :: decimal p.2) fs)).
    2:{ unfold unlines. clear. induction fs as [|p fs IH]; [done|]. cbn [flat_map map]. rewrite IH. by rewrite <- !app_assoc. }
    rewrite lines_unlines.
    + clear Hne. induction fs as [|p fs IH]; [done|]. inversion_clear Hk as [|?? [_ Hp] Hk']. inversion_clear Hf. cbn [map omap list_omap].
      rewrite split_once_at by done. f_equal. by apply IH.
    + apply Forall_map. rewrite Forall_forall in *. intros p Hp. destruct (Hk p Hp) as [Hg _], (decimal_word p.2 (Hf p Hp)) as [[Hd _] _].
      apply graph_line. apply Forall_app. split; [done|]. constructor; [lia|done].
  - clear Hk Hne. induction Hf as [|p fs Hp _ IH]; [constructor|]. constructor; [|done]. split; [done|]. by apply decimal_word.
Qed.

(** a client that subscribes late gets the most recent events: the ring holds
    the last [HISTORY_CAPACITY] of all events, in their order. *)
Theorem history_recent es : history_after es = drop (length es - HISTORY_CAPACITY) (map log_payload es).
Proof.
  induction es as [|e es IH] using rev_ind; [done|]. unfold history_after in *. rewrite fold_left_app, IH. cbn [fold_left on_event fst].
  rewrite length_drop, length_map, length_app, map_app. cbn [length map]. case_bool_decide as Hc.
  - rewrite drop_drop, drop_app_le by (rewrite length_map; unfold HISTORY_CAPACITY in *; lia). f_equal. f_equal. lia.
  - rewrite drop_app_le by (rewrite length_map; unfold HISTORY_CAPACITY in *; lia). f_equal. f_equal. lia.
Qed.

(** ** A serializer that reads back what it wrote *)
#[export] Instance StatsSnapshot_eq_dec : EqDecision StatsSnapshot.
Proof. solve_decision. Defined.
#[export] Instance StatsSnapshot_countable : Countable StatsSnapshot.
Proof.
  apply (inj_countable' (λ r, (ss_peers r, ss_routes r, ss_packets_forwarded r, ss_bytes_forwarded r, ss_packets_dropped r, ss_congestion_drops r, ss_conntrack_size r, ss_uptime_secs r)) (λ '(x0, x1, x2, x3, x4, x5, x6, x7), MkStats x0 x1 x2 x3 x4 x5 x6 x7)). by intros [].
Defined.
#[export] Instance DebugNodeSnapshot_eq_dec : EqDecision DebugNodeSnapshot.
Proof. solve_decision. Defined.
#[export] Instance DebugNodeSnapshot_countable : Countable DebugNodeSnapshot.
Proof.
  apply (inj_countable' (λ r, (dn_name r, dn_node_id r, dn_short_id r, dn_is_gateway r, dn_mesh_ip r, dn_mesh_prefix_len r)) (λ '(x0, x1, x2, x3, x4, x5), MkDebugNode x0 x1 x2 x3 x4 x5)). by intros [].
Defined.
#[export] Instance DebugPeerSnapshot_eq_dec : EqDecision DebugPeerSnapshot.
Proof. solve_decision. Defined.
#[export] Instance DebugPeerSnapshot_countable : Countable DebugPeerSnapshot.
Proof.
  apply (inj_countable' (λ r, (dp_node_id r, dp_short_id r, dp_addr r, dp_mechanism r, dp_direct r, dp_configured r, dp_discovered r, dp_last_heartbeat_age_ms r)) (λ '(x0, x1, x2, x3, x4, x5, x6, x7), MkDebugPeer x0 x1 x2 x3 x4 x5 x6 x7)). by intros [].
Defined.
#[export] Instance DebugDiscoveredPeerSnapshot_eq_dec : EqDecision DebugDiscoveredPeerSnapshot.
Proof. solve_decision. Defined.
#[export] Instance DebugDiscoveredPeerSnapshot_countable : Countable DebugDiscoveredPeerSnapshot.
Proof.
  apply (inj_countable' (λ r, (dd_node_id r, dd_short_id r, dd_addr r, dd_is_client r, dd_is_relay r, dd_is_gateway r, dd_last_seen_age_ms r)) (λ '(x0, x1, x2, x3, x4, x5, x6), MkDebugDiscovered x0 x1 x2 x3 x4 x5 x6)). by intros [].
Defined.
#[export] Instance DebugRouteSnapshot_eq_dec : EqDecision DebugRouteSnapshot.
Proof. solve_decision. Defined.
#[export] Instance DebugRouteSnapshot_countable : Countable DebugRouteSnapshot.
Proof.
  apply (inj_countable' (λ r, (dr_destination_id r, dr_destination_short_id r, dr_next_hop_id r, dr_next_hop_short_id r, dr_learned_from_id r, dr_learned_from_short_id r, dr_hops r, dr_is_gateway r, dr_gateway_load r, dr_rtt_ms r, dr_mesh_ip r, dr_age_ms r, dr_next_hop_blacklisted r)) (λ '(x0, x1, x2, x3, x4, x5, x6, x7, x8, x9, x10, x11, x12), MkDebugRoute x0 x1 x2 x3 x4 x5 x6 x7 x8 x9 x10 x11 x12)). by intros [].
Defined.
#[export] Instance DebugGatewaySnapshot_eq_dec : EqDecision DebugGatewaySnapshot.
Proof. solve_decision. Defined.
#[export] Instance DebugGatewaySnapshot_countable : Countable DebugGatewaySnapshot.
Proof.
  apply (inj_countable' (λ r, (dg_node_id r, dg_short_id r, dg_next_hop_id r, dg_next_hop_short_id r, dg_hops r, dg_gateway_load r, dg_rtt_ms r, dg_score r, dg_selected r, dg_mesh_ip r)) (λ '(x0, x1, x2, x3, x4, x5, x6, x7, x8, x9), MkDebugGateway x0 x1 x2 x3 x4 x5 x6 x7 x8 x9)). by intros [].
Defined.
#[export] Instance DebugSnapshot_eq_dec : EqDecision DebugSnapshot.
Proof. solve_decision. Defined.
#[export] Instance DebugSnapshot_countable : Countable DebugSnapshot.
Proof.
  apply (inj_countable' (λ r, (db_version r, db_generated_at_unix_secs r, db_node r, db_stats r, db_peers r, db_discovered_peers r, db_routes r, db_gateways r)) (λ '(x0, x1, x2, x3, x4, x5, x6, x7), MkDebugSnapshot x0 x1 x2 x3 x4 x5 x6 x7)). by intros [].
Defined.
#[export] Instance sample_snapshot_json : SnapshotJson := {|
  snapshot_to_vec s := [Z.pos (countable.encode s)];
  snapshot_from_str l := match l with [Zpos p] => countable.decode p | _ => None end;
|}.
#[export] Instance sample_snapshot_json_lawful : LawfulSnapshotJson.
Proof. intros s. cbn. apply countable.decode_encode. Qed.

(** A node with the routes of [sample_table]: a gateway two hops away. *)
Definition sample_observed : RpcState :=
  set_tunnel (set_daemon (on_routing (λ _, sample_table) (tn_daemon (rs_tunnel sample_rpc))) (rs_tunnel sample_rpc)) sample_rpc.
Definition sample_snapshot_file : option (list Z) :=
  Some (snapshot_to_vec (build_debug_snapshot map_to_list (λ m, (map_to_list m).*1) (λ t, (map_to_list t).*2) 0 0 sample_observed)).

Lemma debug_tells_truth_witness :
  (∃ e, routes sample_table !! sample_id 3 = Some e ∧ lookup_route (sample_id 3) sample_table = Some (rt_next_hop e)) ∧
  match cmd_debug_route_get sample_snapshot_file (to_hex (sample_id 3)) with
  | Ok (RouteVia r _) => ∃ e, routes sample_table !! sample_id 3 = Some e ∧ dr_next_hop_id r = to_hex (rt_next_hop e) ∧ dr_hops r = rt_hops e ∧
      lookup_route (sample_id 3) sample_table = if dr_next_hop_blacklisted r then None else Some (rt_next_hop e)
  | Err e => e = NoRoute ∧ routes sample_table !! sample_id 3 = None ∧ lookup_route (sample_id 3) sample_table = None
  | _ => False
  end.
Proof.
  split; [eexists; split; by vm_compute|].
  destruct (debug_tells_truth map_to_list (λ m, (map_to_list m).*1) (λ t, (map_to_list t).*2) 0 0 sample_observed) as [Hd _].
  - done.
  - by apply (bool_decide_unpack _); vm_compute.
  - apply (Hd (sample_id 3)); by apply (bool_decide_unpack _); vm_compute.
Defined.

Lemma status_shows_counters_witness :
  ∃ pairs, read_stats (Some (format_stats (collect_stats 5000 sample_observed))) = Some pairs ∧
    Forall2 (λ kv f, kv.1 = f.1 ∧ parse_u64 kv.2 = Some f.2) pairs (stats_fields (collect_stats 5000 sample_observed)).
Proof. apply (status_shows_counters 5000 sample_observed). by apply (bool_decide_unpack _); vm_compute. Defined.
